(* ===== verification/_CoqProject ===== *)
-Q . S2P
Prelude.v
Sscanf.v
SalTypes.v
Payload.v
SalStreamConfiguration.v
ReferenceLib.v
PayloadTypeHandler.v
PayloadTypeHandlerProps.v
PotentialCfgGraph.v
CapabilityText.v
SalStreamBundle.v
SalStreamDescription.v
StreamDescriptionProps.v
SalMediaDescription.v
SdpObjects.v
SalSdp.v
StreamSdpReader.v
StreamSdpWriter.v
MediaSdp.v
IceAttributes.v
WrittenLine.v
FeedbackAttributes.v
LineLookup.v
LineReading.v
LineRoundtrip.v
ReferenceSdp.v
SdpTyping.v
SessionReading.v
SdpErrors.v
SdpProps.v
MediaDescriptionProps.v
OfferAnswerEngine.v
OfferAnswerMatching.v
OfferAnswerNegotiation.v
OfferAnswerSpec.v
OfferAnswerSession.v
Exchange.v
ChatTypes.v
ImdnHandler.v
ChatMessage.v
ChatExamples.v
ImdnProps.v
ChatMessageProps.v
ChatMessageHistory.v
ChatMessageRows.v
ChatMessageOutcome.v
LpConfig.v
LpConfigValues.v
LpConfigFile.v
LpConfigSpec.v
LpConfigParse.v
LpConfigRoundtrip.v
LpConfigValuesProps.v
LpConfigXml.v
LpConfigXmlProps.v
Effects.v
ErrorInfo.v
CallSessionTypes.v
CallSession.v
CallSessionRules.v
CallSessionLifecycle.v
CallSessionQuiet.v
CallSessionNesting.v
CallSessionUpdates.v
CallSessionRepair.v
CallSessionEnding.v
SipTypes.v
CallOpTypes.v
CallOp.v
CallOpRules.v
CallOpExamples.v
CallOpReferences.v
CallOpReleased.v
CallOpQuiet.v
CallOpEnding.v
Cpim.v
CpimModifier.v
CpimProps.v
CpimText.v
CpimExchange.v
