(* ===== verification/Prelude.v ===== *)
(** * Calls, messages and the configuration of liblinphone

    liblinphone sets up calls and exchanges messages with SIP.  Before media
    flows, both sides of a call agree on it by exchanging two session
    descriptions, an offer and an answer (RFC 3264), with potential
    configurations (RFC 5939) and bundled transports (RFC 8843) on top.  A message
    of a chat room goes through states, one per recipient, that the recipients
    report with notifications (RFC 5438).  This development models the layer that
    holds session descriptions, reads and writes them as SDP and negotiates them
    ([src/src/sal/]), the delivery states of chat messages
    ([src/src/chat/]), the state machine of a call
    ([src/src/conference/session/call-session.cpp]), and the configuration that
    holds the settings ([src/coreapi/lpconfig.c]), and proves what a user relies on:
    an answer is a legal answer to its offer, both sides end up with the same
    codecs, keys and directions, what is written as SDP is read back, the states of
    a message follow their state machine and a message is acknowledged at most
    once, the states of a call follow theirs whatever its listeners do, and a save
    of the configuration that is cut by a crash loses nothing.

    ** The program and the files

    A [SalMediaDescription] (the session) has a vector of [SalStreamDescription]
    (the media lines) and a list of [SalStreamBundle].  A stream has a map of
    [SalStreamConfiguration]: the actual configuration at index 0 and potential
    ones after it.  A [PotentialCfgGraph] collects the capabilities of a received
    description, from which streams create potential configurations.
    [OfferAnswerEngine] takes a local and a remote description and makes the
    description the call runs with; it reads payload types through matchers that
    codecs register.  The constructors of the descriptions read belle-sip's SDP
    objects and their [toSdp] members write them.  Each class is one file, with a
    definition per member function under the name the function has in C++:

    - [Prelude]: record update, 32 bit arithmetic, C string functions, ordered
      maps ([std::map] as a sorted association list with the comparator of the
      map), decimal printing and the [sscanf] conversions the code uses;
      [Sscanf]: more conversions, and the result of code that may be undefined;
    - [SalTypes]: the enumerations of [c-wrapper/internal/c-sal.h] and the name
      conversions of [c-sal.cpp];
    - [Payload]: oRTP payload types as data, the interface [MediaLib] of the
      libraries liblinphone calls, and the opus, G729A and RED matchers of
      [sal/offeranswer.cpp]; [PayloadTypeHandler]:
      [utils/payload-type-handler.cpp];
    - [SalStreamConfiguration], [PotentialCfgGraph], [SalStreamBundle],
      [SalStreamDescription], [SalMediaDescription]: the files of the same names
      under [sal/] ([potential_config_graph] for the graph);
    - [OfferAnswerEngine]: [sal/offeranswer.cpp];
    - [SdpObjects]: belle-sip's SDP objects as data, with the operations liblinphone
      calls as the class [SdpLib]; [SalSdp]: [coreapi/bellesip_sal/sal_sdp.c];
      [StreamSdpReader] and [StreamSdpWriter]: the constructor and [toSdp] of
      [SalStreamDescription]; [MediaSdp]: those of [SalMediaDescription];
    - [ReferenceLib] and [ReferenceSdp]: concrete libraries and small descriptions
      on which the definitions are run and the hypotheses are shown
      to hold;
    - [ChatTypes]: the states of a message with the table of their transitions
      ([chat-message.cpp], [utils/fsm-integrity-checker.h]), SIP reasons, and the
      interface [AddressLib] of addresses; [ImdnHandler]: the delivery
      notifications a chat room has to send ([chat/notification/imdn.cpp]);
      [ChatMessage]: the state changes of one message, with the rows of the
      database they write and the calls they make on the room, its handler and the
      listeners ([chat/chat-message/chat-message.cpp]); [ChatExamples]: a message
      on which they are run.
    - [Effects]: the monad of components that call back and are called again
      before they return, and nested calls;
    - [ErrorInfo]: reasons, SIP codes and error information
      ([coreapi/error_info.c], [misc.c], [bellesip_sal/sal_op_impl.c], [sal.cpp]);
      [CallSessionTypes]: the states of a call, the members of [CallSession] and
      [CallSessionPrivate], and the interface [Environment] of what it calls;
      [CallSession]: its operations and the callbacks of the SAL on it
      ([conference/session/call-session.cpp], [coreapi/callbacks.c]);
      [CallSessionNesting] has sessions on which they are run;
    - [LpConfig]: the sections, items and flags of the configuration
      ([coreapi/lpconfig.c]); [LpConfigValues]: its typed values; [LpConfigFile]:
      the parser of its file, the writer, saving and loading; [LpConfigXml]: the
      documents of provisioning ([coreapi/xml2lpc.c], [coreapi/lpc2xml.c]);
    - [SipTypes]: messages, headers and privacy ([c-wrapper/internal/c-sal.h],
      [c-sal.cpp]); [CallOpTypes]: the members of [SalOp] and [SalCallOp], the
      interface [SipStack] of belle-sip and the world of an operation; [CallOp]:
      the operations and the callbacks of a call operation ([sal/call-op.cpp],
      [sal/op.cpp]) and the dispatch of [sal/sal.cpp]; [CallOpExamples]: stacks and
      operations on which they are run;
    - [Cpim]: dates, headers and messages of CPIM ([chat/cpim], [utils/utils.cpp]);
      [CpimModifier]: content types and dispositions ([content]) and the modifier
      that wraps a chat message in a CPIM message and unwraps it
      ([chat/modifier/cpim-chat-message-modifier.cpp]).


    ** How C++ is read

    An object is a record, a member function that changes it returns the new
    record, and a function that changes its arguments through references
    (or, as the engine does, through [const_cast] and [mutable] members) returns
    them too.  [unsigned int] arithmetic is written with [u32] where it may wrap.
    A loop over a container is a [fold_left] or a [Fixpoint] over the list.  A
    function that may throw, or abort, returns an [option]; where the readers of
    SDP can also have undefined behaviour they return an [outcome], with
    [Undefined] and [Thrown] apart.  Where other C++ has undefined behaviour (the
    [front] of an empty list, an index out of range) the comment of the definition
    says what the model does.  A chat message is read in a [World]: the message,
    its rows in the database, the handler of its room and a log of what the
    application and the network are told; each operation is a function on worlds,
    for a room given by a section variable, and [ChatMessageHistory] lets the room
    change between operations.  Logging is left out.

    Some definitions need fuel.  The decimal printer of [Prelude] has as fuel the
    number of bits of its argument (a number has fewer digits than bits:
    [dec_of_nonneg_horner]).  The scan of remote candidates has the length of its
    text, since a turn that goes on consumes a character
    ([remote_candidates_scan_terminates]).  [setState] and
    [setParticipantState] call each other: [perform] counts the levels, and six
    are always enough ([calls_end]).
    A call session is read in a [World] too: its members, the operations it made
    and the history of what it did.  An operation is in the monad [M], which stops
    at a null pointer or at [lFatal].  Whatever it does outside of its members is an
    [Event]; before an event returns, its receiver (a listener, the operation, the
    core) may call the session again, as [react] of the [Environment] says, and so
    on: [perform] nests these calls and counts the levels.  When nothing is called
    back after [n] events, [n] levels are enough for every run ([nested_calls_end]).
    The theorems on the states hold for every environment; those on what one
    operation does are for an environment that does not call back ([Quiet]) during
    that operation.

    A call operation is in the same monad, over a [SipWorld]: the operation, whether
    it is freed, the dialogs, transactions and timers that hold it, and what was
    sent, received and told.  Using it once it is freed stops the run, as does
    reading a null pointer.  belle-sip is the class [SipStack]: what it knows of its
    dialogs and transactions is a function of that world, and the messages it makes
    may fail.  [sip_react] is what is called on the operation before an event
    returns, nested by [sip_perform].

    belr is the class [CpimGrammar]: what it reads in a text, which [GrammarSpec]
    says for the texts of the grammar ([share/cpim_grammar.belr], a binary of belr);
    [ref_grammar] is a reader that does so, and on which the theorems are tried.  [Splitting] and [CpimPlatform] are the functions
    of bctoolbox and of addresses the modifier calls.  The days of a date are those
    of the Gregorian calendar, proved for every year by the 400 years of its cycle;
    the loops on the minutes of an offset have their number of turns
    ([timegm_carry_up], [timegm_carry_down]).

    The loop on the parameters of a section line of a configuration has the length
    of the line ([parse_section_params_fuel]: more turns change nothing).

    The configuration is a value, and a pointer on one of its sections or items is
    an index.  Saving it returns every state the disk goes through, so that a crash
    is the choice of one of them; [SyncEnv] says which writes fail.


    What is not under [src/] is a parameter: [MediaLib] holds the functions of
    oRTP, mediastreamer2 and belle-sip the negotiation calls, with what they
    document in [MediaLibSpec]; [SdpLib] and [SdpLibSpec] those of belle-sip's SDP
    objects, [OrtpRtcp] and [OrtpRtcpSpec] the RTCP enumerations of oRTP;
    [CapabilityText.SplitSpec] what [bctoolbox::Utils::split] documents; [Vfs] and
    [VfsSpec] the files of bctoolbox.
    [OfferAnswerMatching.ProvidersSound] says that a codec matcher returns a
    payload type of the local list; [Payload] proves it of the matchers
    liblinphone registers.

    ** What is proved

    - [OfferAnswerSpec] states the abstract contract: [answers] between an offer
      and an answer, [agrees] between an offer, an answer and the description the
      offerer runs.  [OfferAnswerSession] proves that [initiateIncoming] and
      [initiateOutgoing] refine it, and what they do to bundles and to the
      descriptions they were given.
    - [OfferAnswerNegotiation]: what one pair of configurations, then one pair of
      streams, negotiates, on every branch, refusals included.
    - [OfferAnswerMatching]: directions, SRTP keys and payload types; both sides of
      an exchange compute matching results.
    - [StreamDescriptionProps], [MediaDescriptionProps]:
      comparison of descriptions, copies, potential configurations, transport
      owners, searches; the crypto attribute round trip.
    - [PayloadTypeHandlerProps]: the numbers given to payload types, telephone
      events, and codecs removed for bandwidth.
    - [PotentialCfgGraph]: uniqueness of capability indexes over every reachable
      graph (a step relation over its operations) and fresh indexes.
    - [CapabilityText] and [SalStreamBundle]: the text of capability lines and of
      bundles is read back as it was written.
    - [WrittenLine], [LineLookup], [LineReading], [IceAttributes] and
      [FeedbackAttributes] follow the attributes of a written media line to the
      readers that look for them; [LineRoundtrip] and [SdpProps] conclude that the
      stream is read back.  [SdpTyping] and [SessionReading]: what is read from any
      text is well formed; [SdpErrors]: which texts take the reader into undefined
      behaviour and which are always read.  [Exchange] composes reading an offer,
      answering it and writing the answer.
    - [ImdnProps]: what a handler sends, keeps and loses.  [ChatMessageProps]: every
      operation ends, and each call is a step of the state machine;
      its states follow the machine; [ChatMessageRows] and [ChatMessageHistory]: what
      holds after any sequence of operations; [ChatMessageOutcome]: the result of a
      receipt and of a postponed delivery, on every branch.
    - [CallSessionRules]: what every operation of a session keeps, given that its
      elementary steps do ([Closed]); [CallSessionLifecycle]: the states of a
      session are a path of the machine [life_step], which never leaves the end of
      a call; [CallSessionNesting]: how many levels of nested calls are enough.  [CallSessionQuiet]:
      what a change of state does, and the steps that change no
      state and send nothing; [CallSessionUpdates]: the outcome of an update, of an
      update of the remote side, of a session refresh and of a failure;
      [CallSessionRepair]: of a network that is lost and found;
      [CallSessionEnding]: pending actions, cancelled calls, the end of a call
      with an error information and calls announced by a push.
    - [CallOpRules]: what every operation of a call operation keeps ([Kept]);
      [CallOpReferences]: its references are counted, so that it is used by nobody
      who lets it go and destroyed when the last one does, provided belle-sip says from
      its main loop only that a transaction is over; [CallOpReleased]: the end of a call is told
      once.  [CallOpQuiet]: what is sent and told, in order, when nothing is called
      back, given what belle-sip promises of the messages it makes ([StackSpec]);
      [CallOpEnding]: how a call is ended in every state, and what is done with
      the answers that cross it.
    - [CpimProps]: the dates that messages are sent and received with.  [CpimText]:
      a message that is written is parsed back.  [CpimExchange]: what a sender
      encodes, any receiver decodes: the same content and sender, and of the rest
      of the message what its headers carry.
    - [LpConfigSpec]: a configuration refines a finite map under any sequence of
      updates.  [LpConfigParse]: the parser refines a reference reader of lines, and
      which lines take it past their end.  [LpConfigRoundtrip]: what is saved is
      loaded back, and a crash during a save loses nothing.  [LpConfigValuesProps]:
      typed values are read back (ranges from 0 on, lists of texts without commas).  [LpConfigXmlProps]: provisioning merges a
      document entry by entry.
    - Some theorems record behaviour a reader would not expect, with a witness of
      it: [free_index_clash], [delete_only_line_unreadable],
      [configuration_equality_not_symmetric], [acap_only_goes_to_actual],
      [active_stream_counts_all_types], [fatal_attribute_undefined],
      [rtcp_xr_flags_lost], [acknowledgements_lost],
      [pushed_call_without_operation], [session_refresh_outcome],
      [referred_update_stuck], [connected_time_lost],
      [later_listener_told_out_of_order].

    Invariants are [stream_wf] and [cfg_map_wf] (configurations sorted by the
    comparator of their map, with 32 bit indexes) and [graph_wf].

    ** Not modelled

    What [sal.cpp] does besides dispatching events (listening points, TLS,
    authentication) and the parsing of messages and SDP text into objects, which
    belle-sip does; running out of memory; what [MediaSession] adds to a call
    session, its streams, and the conferences
    ([src/src/conference/session/media-session.cpp], [ms2-stream.cpp]); the getters
    of a call session that its operations do not use.  Of the chat: the creation and the end of chat
    rooms, encryption and the other modifiers, so most of what sending and
    receiving a message does; the XML of notifications and the reading of received
    ones; callbacks of the application that call a message again; a message
    whose room is gone.  Of the database: its schema and the queries that do not
    change the state of a message. Of the SIP operations: registrations, subscriptions,
    presence and messages out of calls, tags and contact parameters of messages,
    and belle-sip itself, which is an interface.  Of the configuration: the permissions of its file, the rename
    of Windows, a line written in part, and the parsing
    of XML, which libxml2 does ([LpConfigXml] starts from its tree); [%f] is a
    parameter ([FloatText]). *)
From Stdlib Require Export ZArith Bool Ascii String List Sorted Permutation Lia.
From stdpp Require Export base decidable countable gmap sets list strings.
Export ListNotations.

Declare Scope sal_scope.
Delimit Scope sal_scope with sal.
#[global] Open Scope Z_scope.
#[global] Open Scope sal_scope.

Create HintDb sal.
Create Rewrite HintDb sal.
#[export] Hint Rewrite Z.lor_0_r : sal.

(** ** Record update

    [r <| f := v |>] is the C++ assignment [r.f = v;] on a record value.  A
    record type becomes updatable by giving the [Eta] instance that rebuilds a
    value from its projections. *)
Class Eta (R : Type) := eta : R -> R.
Class Update {R E : Type} (proj : R -> E) := update : (E -> E) -> R -> R.
#[global] Hint Mode Update ! ! ! : typeclass_instances.

Ltac derive_update :=
  lazymatch goal with
  | |- @Update ?R ?E ?proj =>
      let g := fresh "g" in
      let r := fresh "r" in
      intros g r;
      let whole := eval hnf in (@eta R _ r) in
      let abs := eval pattern (proj r) in whole in
      lazymatch abs with
      | ?h _ =>
          let t := eval cbv beta in (h (g (proj r))) in
          exact t
      end
  end.

#[export] Hint Extern 1 (Update _) => derive_update : typeclass_instances.

#[global] Arguments update {_ _} _ {_} _ _ /.

Notation "r <| f := v |>" := (update f (fun _ => v) r)
  (at level 1, left associativity, f constr at level 10, v at level 200,
   format "r  <| f  :=  v |>") : sal_scope.


(** ** Machine integers *)

(** [unsigned int] arithmetic is modulo [2 ^ 32]. *)
Definition u32 (z : Z) : Z := z mod 2 ^ 32.

Lemma u32_small z : 0 <= z < 2 ^ 32 -> u32 z = z.
Proof. intros. unfold u32. by apply Z.mod_small. Qed.

Lemma u32_range z : 0 <= u32 z < 2 ^ 32.
Proof. unfold u32. apply Z.mod_pos_bound. lia. Qed.

#[export] Hint Rewrite u32_small using lia : sal.

(** ** Bit masks: [result |= mask] under a condition *)

Definition flag_if (b : bool) (mask result : Z) : Z :=
  if b then Z.lor result mask else result.

Lemma flag_if_zero b mask result :
  mask <> 0 -> flag_if b mask result = 0 <-> b = false /\ result = 0.
Proof.
  unfold flag_if. destruct b; [|tauto].
  intros. rewrite Z.lor_eq_0_iff. intuition congruence.
Qed.

Lemma flag_if_false mask result : flag_if false mask result = result.
Proof. reflexivity. Qed.

#[export] Hint Rewrite flag_if_false : sal.

Lemma Zlor_zero a b : Z.lor a b = 0 <-> a = 0 /\ b = 0.
Proof. apply Z.lor_eq_0_iff. Qed.

(** ** C strings and [std::string] *)

#[global] Arguments String.append !_ _ / : simpl nomatch.

Definition str_empty (s : string) : bool := String.eqb s EmptyString.

Lemma str_empty_spec s : str_empty s = true <-> s = EmptyString.
Proof. apply String.eqb_eq. Qed.

Lemma str_empty_false s : str_empty s = false <-> s <> EmptyString.
Proof. apply String.eqb_neq. Qed.

(** [c] is the character class of the "C" locale. *)
Definition in_ascii_range (lo hi : nat) (c : ascii) : bool :=
  (lo <=? nat_of_ascii c)%nat && (nat_of_ascii c <=? hi)%nat.

Definition is_upper := in_ascii_range 65 90.
Definition is_lower := in_ascii_range 97 122.
Definition is_digit := in_ascii_range 48 57.
(** [isspace]: space, \t, \n, \v, \f, \r. *)
Definition is_space (c : ascii) : bool :=
  (nat_of_ascii c =? 32)%nat || in_ascii_range 9 13 c.

Definition ascii_tolower (c : ascii) : ascii :=
  if is_upper c then ascii_of_nat (nat_of_ascii c + 32) else c.
Definition ascii_toupper (c : ascii) : ascii :=
  if is_lower c then ascii_of_nat (nat_of_ascii c - 32) else c.

Fixpoint string_map (f : ascii -> ascii) (s : string) : string :=
  match s with
  | EmptyString => EmptyString
  | String c s' => String (f c) (string_map f s')
  end.

Definition tolower := string_map ascii_tolower.
Definition toupper := string_map ascii_toupper.

(** [strcasecmp(a, b) == 0]. *)
Definition strcasecmp_eq (a b : string) : bool := String.eqb (tolower a) (tolower b).

Lemma strcasecmp_eq_refl s : strcasecmp_eq s s = true.
Proof. apply String.eqb_refl. Qed.

Lemma strcasecmp_eq_sym a b : strcasecmp_eq a b = strcasecmp_eq b a.
Proof. apply String.eqb_sym. Qed.

Lemma strcasecmp_eq_trans a b c :
  strcasecmp_eq a b = true -> strcasecmp_eq b c = true -> strcasecmp_eq a c = true.
Proof. unfold strcasecmp_eq. rewrite !String.eqb_eq. congruence. Qed.

#[export] Hint Resolve strcasecmp_eq_refl : sal.

(** [std::string::find(c) != npos]. *)
Fixpoint str_has (c : ascii) (s : string) : bool :=
  match s with
  | EmptyString => false
  | String d s' => Ascii.eqb c d || str_has c s'
  end.

(** [std::string::find(sub) != npos]. *)
Fixpoint str_contains (sub s : string) : bool :=
  String.prefix sub s ||
  match s with
  | EmptyString => false
  | String _ s' => str_contains sub s'
  end.

Lemma str_app_nil s : s +:+ EmptyString = s.
Proof. induction s as [|c s IH]; simpl; congruence. Qed.

Lemma str_app_assoc a b c : (a +:+ b) +:+ c = a +:+ (b +:+ c).
Proof. induction a as [|d a IH]; simpl; congruence. Qed.

Lemma concat_empty_cons s l : String.concat EmptyString (s :: l) = s +:+ String.concat EmptyString l.
Proof. simpl. destruct l; [by rewrite str_app_nil|done]. Qed.

Lemma str_has_app c a b : str_has c (a +:+ b) = str_has c a || str_has c b.
Proof.
  induction a as [|d a IH]; [done|]. simpl. by rewrite IH, orb_assoc.
Qed.

(** ** [std::map] with an unsigned key

    A map is the list of its entries in iteration order.  The comparator of
    the map is [rank a < rank b]; two keys with the same rank are the same key,
    as [std::map] decides it from the comparator alone. *)
Section OrderedMap.
Context {V : Type} (rank : Z -> Z).

(** [m.find(k)], [m.at(k)]. *)
Fixpoint om_find (k : Z) (m : list (Z * V)) : option V :=
  match m with
  | [] => None
  | (k', v) :: m' => if rank k =? rank k' then Some v else om_find k m'
  end.

(** [m[k] = v]: an entry that exists keeps its key. *)
Fixpoint om_set (k : Z) (v : V) (m : list (Z * V)) : list (Z * V) :=
  match m with
  | [] => [(k, v)]
  | (k', v') :: m' =>
      if rank k <? rank k' then (k, v) :: m
      else if rank k =? rank k' then (k', v) :: m'
      else (k', v') :: om_set k v m'
  end.

(** [m.insert({k, v})]: no effect when the key is present; the flag says
    whether the entry was inserted. *)
Definition om_insert (k : Z) (v : V) (m : list (Z * V)) : list (Z * V) * bool :=
  match om_find k m with
  | Some _ => (m, false)
  | None => (om_set k v m, true)
  end.

(** [f(m[k])]: [operator[]] creates a default entry when the key is absent. *)
Definition om_alter (dflt : V) (f : V -> V) (k : Z) (m : list (Z * V)) : list (Z * V) :=
  om_set k (f (default dflt (om_find k m))) m.

Definition om_keys (m : list (Z * V)) : list Z := map fst m.

(** The order [std::map] keeps its entries in. *)
Definition om_sorted (m : list (Z * V)) : Prop :=
  StronglySorted (fun a b => rank (fst a) < rank (fst b)) m.

Lemma om_find_set_eq k v m : om_find k (om_set k v m) = Some v.
Proof.
  induction m as [|[k' v'] m IH]; simpl; [by rewrite Z.eqb_refl|].
  destruct (rank k <? rank k') eqn:Hlt; simpl; [by rewrite Z.eqb_refl|].
  destruct (rank k =? rank k') eqn:Heq; simpl; by rewrite Heq.
Qed.

Lemma om_find_set_same k k' v m : rank k = rank k' -> om_find k (om_set k' v m) = Some v.
Proof.
  intros Hk. rewrite <- (om_find_set_eq k' v m) at 1.
  generalize (om_set k' v m). intros l.
  induction l as [|[a w] l IH]; simpl; [done|]. by rewrite Hk, IH.
Qed.

Lemma om_find_set_ne k k' v m : rank k <> rank k' -> om_find k (om_set k' v m) = om_find k m.
Proof.
  intros Hne. induction m as [|[a w] m IH]; simpl.
  - apply Z.eqb_neq in Hne. by rewrite Hne.
  - destruct (rank k' <? rank a) eqn:Hlt; simpl.
    + apply Z.eqb_neq in Hne. by rewrite Hne.
    + destruct (rank k' =? rank a) eqn:Heq; simpl; [|by rewrite IH].
      apply Z.eqb_eq in Heq. rewrite <- Heq.
      apply Z.eqb_neq in Hne. by rewrite Hne.
Qed.

Lemma om_find_Some_In k v m : om_find k m = Some v -> exists k', rank k = rank k' /\ In (k', v) m.
Proof.
  induction m as [|[a w] m IH]; simpl; [done|].
  destruct (rank k =? rank a) eqn:E; intros H.
  - apply Z.eqb_eq in E. exists a. split; [done|left; congruence].
  - destruct (IH H) as (k' & ? & ?). eauto.
Qed.

Lemma om_find_None k m : om_find k m = None <-> forall k' v, In (k', v) m -> rank k <> rank k'.
Proof.
  induction m as [|[a w] m IH]; simpl; [split; [done|auto]|].
  destruct (rank k =? rank a) eqn:E.
  - apply Z.eqb_eq in E. split; [done|]. intros H. by destruct (H a w (or_introl eq_refl)).
  - apply Z.eqb_neq in E. rewrite IH. split.
    + intros H k' v [Heq|Hin]; [congruence|eauto].
    + eauto.
Qed.

Lemma om_set_Forall (P : Z * V -> Prop) k v m :
  Forall P m -> P (k, v) -> (forall k' v', P (k', v') -> rank k = rank k' -> P (k', v)) ->
  Forall P (om_set k v m).
Proof.
  intros Hm Hk Hs. induction Hm as [|[a w] m Ha Hm IH]; simpl; [auto|].
  destruct (rank k <? rank a) eqn:Hlt; [auto|].
  destruct (rank k =? rank a) eqn:E; [|auto].
  apply Z.eqb_eq in E. constructor; eauto.
Qed.

Lemma om_set_sorted k v m : om_sorted m -> om_sorted (om_set k v m).
Proof.
  unfold om_sorted. induction m as [|[a w] m IH]; simpl; intros Hs.
  - repeat constructor.
  - pose proof (StronglySorted_inv Hs) as [Hm Ha].
    destruct (rank k <? rank a) eqn:Hlt; [|destruct (rank k =? rank a) eqn:E].
    + apply Z.ltb_lt in Hlt. constructor; [done|]. constructor; [done|].
      eapply List.Forall_impl; [|exact Ha]. simpl. intros; lia.
    + constructor; [done|]. exact Ha.
    + apply Z.ltb_ge in Hlt. apply Z.eqb_neq in E. constructor; [auto|].
      apply om_set_Forall; simpl; [exact Ha|lia|intros; lia].
Qed.

Lemma om_insert_sorted k v m : om_sorted m -> om_sorted (om_insert k v m).1.
Proof. unfold om_insert. destruct (om_find k m); simpl; auto using om_set_sorted. Qed.

Lemma om_insert_keep k k' v w m :
  om_find k m = Some w -> om_find k (om_insert k' v m).1 = Some w.
Proof.
  intros H. unfold om_insert. destruct (om_find k' m) eqn:E; simpl; [done|].
  destruct (Z.eq_dec (rank k) (rank k')) as [Hr|Hr]; [|by rewrite om_find_set_ne].
  exfalso. apply om_find_Some_In in H as (a & Ha & Hin).
  rewrite om_find_None in E. apply (E a w Hin). congruence.
Qed.

Lemma om_alter_find_ne dflt f k k' m :
  rank k <> rank k' -> om_find k (om_alter dflt f k' m) = om_find k m.
Proof. apply om_find_set_ne. Qed.

Lemma om_alter_find_eq dflt f k m :
  om_find k (om_alter dflt f k m) = Some (f (default dflt (om_find k m))).
Proof. apply om_find_set_eq. Qed.

Lemma om_find_rank k k' m : rank k = rank k' -> om_find k m = om_find k' m.
Proof. intros Hr. induction m as [|[a w] m IH]; simpl; [done|]. by rewrite Hr, IH. Qed.

Lemma om_find_lt k a w m : om_sorted ((a, w) :: m) -> rank k < rank a -> om_find k ((a, w) :: m) = None.
Proof.
  intros Hs Hlt. apply StronglySorted_inv in Hs as [_ Ha]. rewrite List.Forall_forall in Ha.
  apply om_find_None. intros k' v [[= <- <-]|Hin]; [lia|]. apply Ha in Hin. simpl in Hin. lia.
Qed.

Lemma om_set_None_perm k v m : om_find k m = None -> Permutation (om_set k v m) ((k, v) :: m).
Proof.
  induction m as [|[a w] m IH]; simpl; [done|].
  destruct (rank k =? rank a); [done|]. intros H.
  destruct (rank k <? rank a); [done|]. rewrite IH by done. apply perm_swap.
Qed.

Lemma om_set_Some_perm k v w m :
  om_sorted m -> om_find k m = Some w ->
  exists k' m', rank k = rank k' /\ Permutation m ((k', w) :: m') /\ Permutation (om_set k v m) ((k', v) :: m').
Proof.
  induction m as [|[a x] m IH]; simpl; [done|]. intros Hs H.
  destruct (rank k <? rank a) eqn:Hlt.
  - apply Z.ltb_lt in Hlt. pose proof (om_find_lt k a x m Hs Hlt) as Hn. simpl in Hn. congruence.
  - destruct (rank k =? rank a) eqn:E.
    + injection H as ->. apply Z.eqb_eq in E. eauto.
    + apply StronglySorted_inv in Hs as [Hs _]. destruct (IH Hs H) as (k' & m' & Hk & H1 & H2).
      exists k', ((a, x) :: m'). split; [done|].
      split; (eapply perm_trans; [apply perm_skip; eassumption|apply perm_swap]).
Qed.

Lemma om_set_not_nil k v m : om_set k v m <> [].
Proof. destruct m as [|[a w] m]; simpl; [done|]. by repeat case_match. Qed.
End OrderedMap.

#[export] Hint Resolve om_set_sorted om_insert_sorted : sal.
#[export] Hint Rewrite @om_find_set_eq @om_alter_find_eq : sal.

Lemma concat_map_perm {A B} (f : A -> list B) l l' :
  Permutation l l' -> Permutation (concat (map f l)) (concat (map f l')).
Proof. intros H. rewrite <- !flat_map_concat_map. by apply Permutation_flat_map. Qed.

Lemma Forall2_refl_rel {A} (R : A -> A -> Prop) l : (forall x, R x x) -> Forall2 R l l.
Proof. intros HR. induction l; constructor; auto. Qed.

Lemma Forall2_impl_In {A B} (R R' : A -> B -> Prop) l l' :
  (forall x y, x ∈ l -> R x y -> R' x y) -> Forall2 R l l' -> Forall2 R' l l'.
Proof.
  intros H Hl. induction Hl as [|x y l l' Hxy Hl IH]; constructor.
  - apply H; [left|done].
  - apply IH. intros z w Hz. apply H. by right.
Qed.

Lemma Forall2_compose {A B C} (R : A -> B -> Prop) (S : B -> C -> Prop) (T : A -> C -> Prop) l1 l2 l3 :
  (forall x y z, R x y -> S y z -> T x z) -> Forall2 R l1 l2 -> Forall2 S l2 l3 -> Forall2 T l1 l3.
Proof.
  intros H H1. revert l3. induction H1 as [|x y l1 l2 Hxy Hl IH]; intros l3 H2; inversion H2; subst; constructor; eauto.
Qed.

Lemma Forall_transfer {A B} (P : A -> Prop) (Q : B -> Prop) (R : A -> B -> Prop) l l' :
  Forall P l -> Forall2 R l l' -> (forall x y, P x -> R x y -> Q y) -> Forall Q l'.
Proof. intros HP HR H. induction HR; inversion HP; subst; constructor; eauto. Qed.

Lemma Forall2_trans_rel {A} (R : A -> A -> Prop) l1 l2 l3 :
  (forall x y z, R x y -> R y z -> R x z) -> Forall2 R l1 l2 -> Forall2 R l2 l3 -> Forall2 R l1 l3.
Proof.
  intros HR H12. revert l3. induction H12 as [|a b l l' Hab Hl IH]; intros l3 H23; inversion H23; subst;
    constructor; eauto.
Qed.

(** ** Searching a sequence

    [find_idx p l] is [std::distance(begin, std::find_if(begin, end, p))], with
    [None] for the end iterator. *)
Fixpoint find_idx {A} (p : A -> bool) (l : list A) : option nat :=
  match l with
  | [] => None
  | x :: l' => if p x then Some 0%nat else option_map S (find_idx p l')
  end.

Lemma find_idx_Some {A} (p : A -> bool) l i :
  find_idx p l = Some i <->
  exists x, l !! i = Some x /\ p x = true /\ forall j y, (j < i)%nat -> l !! j = Some y -> p y = false.
Proof.
  revert i. induction l as [|a l IH]; intros i; simpl; [split; [done|by intros (?&?&_)]|].
  destruct (p a) eqn:Ha.
  - split.
    + intros [= <-]. exists a. repeat split; [done|]. intros; lia.
    + intros (x & Hx & Hp & Hlt). destruct i as [|i]; [done|].
      by rewrite (Hlt 0%nat a) in Ha; [|lia|done].
  - destruct i as [|i].
    + split; [by destruct (find_idx p l)|]. intros (x & [= <-] & Hp & _). congruence.
    + specialize (IH i). destruct (find_idx p l) as [n|]; simpl.
      * split.
        -- intros [= ->]. destruct (proj1 IH eq_refl) as (x & Hx & Hp & Hlt).
           exists x. repeat split; [done..|]. intros [|j] y Hj Hy; [simpl in Hy; congruence|].
           apply (Hlt j); [lia|done].
        -- intros (x & Hx & Hp & Hlt). f_equal.
           assert (Some n = Some i) as [= ->]; [|done]. apply IH. exists x.
           repeat split; [done..|]. intros j y Hj Hy. apply (Hlt (S j)); [lia|done].
      * split; [done|]. intros (x & Hx & Hp & Hlt). exfalso.
        assert (None = Some i) as [=]. apply IH. exists x.
        repeat split; [done..|]. intros j y Hj Hy. apply (Hlt (S j)); [lia|done].
Qed.

Lemma find_idx_None {A} (p : A -> bool) l :
  find_idx p l = None <-> forall x, In x l -> p x = false.
Proof.
  induction l as [|a l IH]; simpl; [split; [by intros|done]|].
  destruct (p a) eqn:Ha.
  - split; [done|]. intros H. rewrite (H a) in Ha; auto. done.
  - destruct (find_idx p l); simpl.
    + split; [done|]. intros H. exfalso.
      assert (Some n = None) as [=]. apply IH. auto.
    + split; [|done]. intros _ x [<-|Hin]; [done|]. by apply IH.
Qed.

Lemma find_idx_lt {A} (p : A -> bool) l i : find_idx p l = Some i -> (i < length l)%nat.
Proof.
  intros (x & Hx & _)%find_idx_Some. by apply lookup_lt_Some in Hx.
Qed.

(** [std::find_if] as the element it designates. *)
Lemma find_In {A} (p : A -> bool) l x : List.find p l = Some x -> In x l /\ p x = true.
Proof. apply List.find_some. Qed.

Lemma find_app {A} (p : A -> bool) l l' :
  List.find p (l ++ l') = match List.find p l with Some x => Some x | None => List.find p l' end.
Proof. induction l as [|x l IH]; simpl; [done|]. destruct (p x); [done|exact IH]. Qed.

(** ** Decimal numbers: [std::to_string], [%i] and [%u], and their readers *)

Definition digit_char (d : Z) : ascii := ascii_of_nat (48 + Z.to_nat d).
Definition char_digit (c : ascii) : Z := Z.of_nat (nat_of_ascii c) - 48.

Fixpoint dec_digits (fuel : nat) (n : Z) (acc : string) : string :=
  match fuel with
  | O => acc
  | S fuel' =>
      let acc' := String (digit_char (n mod 10)) acc in
      if n / 10 =? 0 then acc' else dec_digits fuel' (n / 10) acc'
  end.

Definition dec_of_nonneg (n : Z) : string := dec_digits (S (Z.to_nat (Z.log2 n))) n EmptyString.

(** [std::to_string(n)] of an integer. *)
Definition to_dec (n : Z) : string :=
  if n <? 0 then String "-" (dec_of_nonneg (- n)) else dec_of_nonneg n.

(** The longest prefix of [s] made of characters of class [p], and the rest. *)
Fixpoint str_span (p : ascii -> bool) (s : string) : string * string :=
  match s with
  | EmptyString => (EmptyString, EmptyString)
  | String c s' => if p c then let '(a, b) := str_span p s' in (String c a, b) else (EmptyString, s)
  end.

Fixpoint str_all (p : ascii -> bool) (s : string) : bool :=
  match s with
  | EmptyString => true
  | String c s' => p c && str_all p s'
  end.

Fixpoint horner (acc : Z) (s : string) : Z :=
  match s with
  | EmptyString => acc
  | String c s' => horner (10 * acc + char_digit c) s'
  end.

Lemma char_digit_char d : 0 <= d < 10 -> char_digit (digit_char d) = d /\ is_digit (digit_char d) = true.
Proof.
  intros Hd. unfold char_digit, digit_char, is_digit, in_ascii_range.
  rewrite nat_ascii_embedding by lia. split; [lia|].
  apply andb_true_iff. rewrite !Nat.leb_le. lia.
Qed.

Lemma dec_digits_horner fuel n acc :
  (0 < fuel)%nat -> 0 <= n < 2 ^ Z.of_nat fuel ->
  horner 0 (dec_digits fuel n acc) = horner n acc.
Proof.
  revert n acc. induction fuel as [|fuel IH]; intros n acc Hf Hn; [lia|].
  cbn [dec_digits].
  assert (Hm : 0 <= n mod 10 < 10) by (apply Z.mod_pos_bound; lia).
  assert (Hdm := Z.div_mod n 10 ltac:(lia)).
  destruct (n / 10 =? 0) eqn:Hq.
  - apply Z.eqb_eq in Hq. cbn [horner]. rewrite (proj1 (char_digit_char _ Hm)). f_equal. lia.
  - apply Z.eqb_neq in Hq.
    assert (0 <= n / 10) by (apply Z.div_pos; lia).
    rewrite Nat2Z.inj_succ, Z.pow_succ_r in Hn by lia.
    destruct fuel as [|fuel]; [change (2 ^ Z.of_nat 0) with 1 in Hn; lia|].
    rewrite IH by lia. cbn [horner]. rewrite (proj1 (char_digit_char _ Hm)). f_equal. lia.
Qed.

Lemma dec_digits_all fuel n acc :
  0 <= n -> str_all is_digit (dec_digits fuel n acc) = str_all is_digit acc.
Proof.
  revert n acc. induction fuel as [|fuel IH]; intros n acc Hn; [done|].
  cbn [dec_digits].
  assert (Hm : 0 <= n mod 10 < 10) by (apply Z.mod_pos_bound; lia).
  assert (Hc : str_all is_digit (String (digit_char (n mod 10)) acc) = str_all is_digit acc)
    by (cbn [str_all]; by rewrite (proj2 (char_digit_char _ Hm))).
  destruct (n / 10 =? 0); [done|]. rewrite IH; [done|]. apply Z.div_pos; lia.
Qed.

Lemma dec_digits_keep fuel n c s : exists c' s', dec_digits fuel n (String c s) = String c' s'.
Proof.
  revert n c s. induction fuel as [|fuel IH]; intros n c s; cbn [dec_digits]; [eauto|].
  destruct (n / 10 =? 0); eauto.
Qed.

Lemma dec_of_nonneg_cons n : exists c s, dec_of_nonneg n = String c s.
Proof.
  unfold dec_of_nonneg. cbn [dec_digits].
  destruct (n / 10 =? 0); eauto using dec_digits_keep.
Qed.

Lemma dec_digits_length fuel n k acc :
  0 <= n < 10 ^ Z.of_nat (S k) -> (String.length (dec_digits fuel n acc) <= S k + String.length acc)%nat.
Proof.
  revert n k acc. induction fuel as [|fuel IH]; intros n k acc Hn; cbn [dec_digits]; [lia|].
  destruct (n / 10 =? 0) eqn:E; [cbn; lia|]. apply Z.eqb_neq in E.
  rewrite Nat2Z.inj_succ, Z.pow_succ_r in Hn by lia.
  assert (0 <= n / 10 < 10 ^ Z.of_nat k) as H.
  { split; [apply Z.div_pos; lia|]. apply Z.div_lt_upper_bound; lia. }
  destruct k as [|k]; [change (10 ^ Z.of_nat 0) with 1 in H; lia|].
  pose proof (IH (n / 10) k (String (digit_char (n mod 10)) acc) H). cbn in *. lia.
Qed.

Lemma dec_of_nonneg_digits n : 0 <= n -> str_all is_digit (dec_of_nonneg n) = true.
Proof. intros. unfold dec_of_nonneg. by rewrite dec_digits_all. Qed.

Lemma dec_of_nonneg_horner n : 0 <= n -> horner 0 (dec_of_nonneg n) = n.
Proof.
  intros Hn. unfold dec_of_nonneg. rewrite dec_digits_horner; [done|lia|].
  split; [done|]. rewrite Nat2Z.inj_succ, Z2Nat.id by apply Z.log2_nonneg.
  destruct (Z.eq_dec n 0) as [->|Hne]; [done|]. apply Z.log2_spec. lia.
Qed.

Lemma to_dec_nonneg n : 0 <= n -> to_dec n = dec_of_nonneg n.
Proof. intros. unfold to_dec. by replace (n <? 0) with false by (symmetry; apply Z.ltb_ge; lia). Qed.

Lemma str_span_all p s t :
  str_all p s = true -> str_span p t = (EmptyString, t) -> str_span p (s +:+ t) = (s, t).
Proof.
  induction s as [|c s IH]; simpl; [done|].
  intros [Hc Hs]%andb_true_iff Ht. rewrite Hc. by rewrite (IH Hs Ht).
Qed.

Lemma str_span_nil p s : str_all p s = true -> str_span p s = (s, EmptyString).
Proof. induction s as [|c s IH]; simpl; [done|]. intros [-> Hs]%andb_true_iff. by rewrite (IH Hs). Qed.

Lemma str_all_impl (p q : ascii -> bool) s :
  (forall c, p c = true -> q c = true) -> str_all p s = true -> str_all q s = true.
Proof.
  intros Hpq. induction s as [|c s IH]; simpl; [done|].
  intros [Hc Hs]%andb_true_iff. apply andb_true_iff. auto.
Qed.

Lemma str_all_not_has p c s : p c = false -> str_all p s = true -> str_has c s = false.
Proof.
  intros Hc. induction s as [|d s IH]; simpl; [done|].
  intros [Hd Hs]%andb_true_iff. rewrite (IH Hs), orb_false_r.
  apply Ascii.eqb_neq. congruence.
Qed.

(** ** [sscanf] conversions

    A reader takes the rest of the input and gives the value and what is left,
    or [None] on a matching failure. *)

(** At most [n] leading characters of class [p]. *)
Fixpoint str_take_span (p : ascii -> bool) (n : nat) (s : string) : string * string :=
  match n, s with
  | S n', String c s' =>
      if p c then let '(a, b) := str_take_span p n' s' in (String c a, b) else (EmptyString, s)
  | _, _ => (EmptyString, s)
  end.

(** A white space directive of the format. *)
Definition scan_ws (s : string) : string := snd (str_span is_space s).

(** [%u] (decimal, optional sign; the value is stored in an [unsigned int]). *)
Definition scan_uint (s : string) : option (Z * string) :=
  let s := scan_ws s in
  let '(neg, s) :=
    match s with
    | String c s' =>
        if Ascii.eqb c "-" then (true, s') else if Ascii.eqb c "+" then (false, s') else (false, s)
    | EmptyString => (false, s)
    end in
  match str_span is_digit s with
  | (EmptyString, _) => None
  | (ds, rest) => let v := horner 0 ds in Some (u32 (if neg : bool then - v else v), rest)
  end.

(** [%<n>s]. *)
Definition scan_word (n : nat) (s : string) : option (string * string) :=
  match str_take_span (fun c => negb (is_space c)) n (scan_ws s) with
  | (EmptyString, _) => None
  | r => Some r
  end.

(** [%<n>[class]]. *)
Definition scan_class (p : ascii -> bool) (n : nat) (s : string) : option (string * string) :=
  match str_take_span p n s with
  | (EmptyString, _) => None
  | r => Some r
  end.

(** Ordinary characters of the format. *)
Fixpoint scan_lit (lit s : string) : option string :=
  match lit, s with
  | EmptyString, _ => Some s
  | String c lit', String d s' => if Ascii.eqb c d then scan_lit lit' s' else None
  | String _ _, EmptyString => None
  end.

Definition head_is (p : ascii -> bool) (s : string) : bool :=
  match s with
  | String c _ => p c
  | EmptyString => false
  end.

Lemma str_take_span_all p n s t :
  str_all p s = true -> (String.length s <= n)%nat -> head_is p t = false ->
  str_take_span p n (s +:+ t) = (s, t).
Proof.
  revert n. induction s as [|c s IH]; intros n Hs Hn Ht; simpl in *.
  - destruct n, t; simpl in *; try done. by rewrite Ht.
  - destruct n as [|n]; [lia|]. apply andb_true_iff in Hs as [Hc Hs].
    simpl. rewrite Hc. by rewrite IH by (try done; lia).
Qed.

Lemma head_is_span p s : head_is p s = false -> str_span p s = (EmptyString, s).
Proof. destruct s as [|c s]; simpl; [done|]. by intros ->. Qed.

Lemma scan_ws_id s : head_is is_space s = false -> scan_ws s = s.
Proof. intros H. unfold scan_ws. by rewrite head_is_span. Qed.

Lemma scan_ws_space s : head_is is_space s = false -> scan_ws (String " " s) = s.
Proof. intros H. unfold scan_ws. simpl. by rewrite head_is_span. Qed.

Lemma scan_lit_app lit s : scan_lit lit (lit +:+ s) = Some s.
Proof. induction lit as [|c lit IH]; simpl; [done|]. by rewrite Ascii.eqb_refl. Qed.

Lemma digit_not_space c : is_digit c = true -> is_space c = false.
Proof.
  unfold is_digit, is_space, in_ascii_range. rewrite !andb_true_iff, !Nat.leb_le.
  intros [H1 H2]. apply orb_false_iff. rewrite Nat.eqb_neq, andb_false_iff, !Nat.leb_gt. lia.
Qed.

Lemma scan_uint_dec n t :
  0 <= n < 2 ^ 32 -> head_is is_digit t = false -> scan_uint (dec_of_nonneg n +:+ t) = Some (n, t).
Proof.
  intros Hn Ht.
  assert (Hall := dec_of_nonneg_digits n (proj1 Hn)).
  assert (Hh := dec_of_nonneg_horner n (proj1 Hn)).
  destruct (dec_of_nonneg_cons n) as (c & s & Hc).
  unfold scan_uint. rewrite Hc in *. pose proof Hall as Hd. simpl in Hd.
  apply andb_true_iff in Hd as [Hd _].
  rewrite scan_ws_id by (simpl; by apply digit_not_space).
  assert (Hm : Ascii.eqb c "-" = false) by (apply Ascii.eqb_neq; by intros ->).
  assert (Hp : Ascii.eqb c "+" = false) by (apply Ascii.eqb_neq; by intros ->).
  assert (E : String c s +:+ t = String c (s +:+ t)) by reflexivity.
  rewrite E. cbv beta iota. rewrite Hm, Hp. rewrite <- E.
  rewrite (str_span_all is_digit (String c s) t Hall) by by apply head_is_span.
  by rewrite Hh, u32_small.
Qed.

Lemma scan_word_all n s t :
  str_all (fun c => negb (is_space c)) s = true -> s <> EmptyString ->
  (String.length s <= n)%nat -> head_is (fun c => negb (is_space c)) t = false ->
  scan_word n (s +:+ t) = Some (s, t).
Proof.
  intros Hs Hne Hn Ht. unfold scan_word.
  destruct s as [|c s]; [done|].
  rewrite scan_ws_id.
  - rewrite str_take_span_all by done. done.
  - simpl in *. apply andb_true_iff in Hs as [Hs _]. by apply negb_true_iff in Hs.
Qed.

Lemma scan_class_all p n s :
  str_all p s = true -> s <> EmptyString -> (String.length s <= n)%nat ->
  scan_class p n s = Some (s, EmptyString).
Proof.
  intros Hs Hne Hn. unfold scan_class.
  rewrite <- (str_app_nil s) at 1. rewrite str_take_span_all by done. by destruct s.
Qed.

(** A word that [%s] reads whole. *)
Definition is_token (s : string) : Prop :=
  s <> EmptyString /\ str_all (fun c => negb (is_space c)) s = true.

Lemma str_length_app (a b : string) : String.length (a +:+ b) = (String.length a + String.length b)%nat.
Proof. induction a as [|c a IH]; simpl; [done|]. by rewrite IH. Qed.

Lemma scan_word_space n s t :
  is_token s -> (String.length s <= n)%nat -> head_is (fun c => negb (is_space c)) t = false ->
  scan_word n (String " " (s +:+ t)) = Some (s, t).
Proof.
  intros [Hne Hall] Hn Ht. rewrite <- (scan_word_all n s t Hall Hne Hn Ht).
  unfold scan_word. rewrite scan_ws_space.
  - rewrite (scan_ws_id (s +:+ t)); [done|].
    destruct s as [|c s]; [done|]. simpl in *. apply andb_true_iff in Hall as [Hc _].
    by apply negb_true_iff in Hc.
  - destruct s as [|c s]; [done|]. simpl in *. apply andb_true_iff in Hall as [Hc _].
    by apply negb_true_iff in Hc.
Qed.
