(* ===== verification/Sscanf.v ===== *)
(** Reading attribute values with [sscanf]: the conversions the SDP readers use
    besides those of [Prelude], and the outcome of a reader, which may be
    undefined behaviour or a C++ exception. *)
From S2P Require Import Prelude.

(** ** Outcomes *)

(** [Undefined] stands for undefined behaviour: a write past a buffer, the read
    of an uninitialised variable or of a null pointer.  [Thrown] is an exception
    that leaves the function. *)
Inductive outcome (A : Type) : Type :=
| Done (a : A)
| Undefined
| Thrown.
Arguments Done {A} a.
Arguments Undefined {A}.
Arguments Thrown {A}.

Definition obind {A B} (x : outcome A) (k : A -> outcome B) : outcome B :=
  match x with
  | Done a => k a
  | Undefined => Undefined
  | Thrown => Thrown
  end.
Notation "'let*' x ':=' e 'in' k" := (obind e (fun x => k))
  (at level 10, x pattern, e at level 100, k at level 200) : sal_scope.

(** A function that may throw, as an outcome. *)
Definition or_thrown {A} (x : option A) : outcome A :=
  match x with
  | Some a => Done a
  | None => Thrown
  end.

(** [for (const auto &x : l) acc = f(acc, x);] *)
Fixpoint ofold {A B} (f : A -> B -> outcome A) (acc : A) (l : list B) : outcome A :=
  match l with
  | [] => Done acc
  | x :: l' => let* acc' := f acc x in ofold f acc' l'
  end.

Lemma ofold_app {A B} (f : A -> B -> outcome A) acc l1 l2 :
  ofold f acc (l1 ++ l2) = let* acc' := ofold f acc l1 in ofold f acc' l2.
Proof.
  revert acc. induction l1 as [|x l1 IH]; intros acc; [done|]. cbn [ofold app].
  by destruct (f acc x); cbn [obind]; [apply IH|..].
Qed.

Lemma ofold_done {A B} (f : A -> B -> outcome A) (g : A -> B -> A) acc l :
  (forall a x, In x l -> f a x = Done (g a x)) -> ofold f acc l = Done (fold_left g l acc).
Proof.
  revert acc. induction l as [|x l IH]; intros acc H; [done|]. cbn [ofold fold_left].
  rewrite H by by left. apply IH. intros a y Hy. apply H. by right.
Qed.

Lemma ofold_invariant {A B} (P : A -> Prop) (f : A -> B -> outcome A) acc l a :
  P acc -> (forall a x b, P a -> In x l -> f a x = Done b -> P b) -> ofold f acc l = Done a -> P a.
Proof.
  revert acc. induction l as [|x l IH]; intros acc Hp Hf; cbn [ofold]; [congruence|].
  destruct (f acc x) as [b| |] eqn:E; cbn [obind]; try done. apply IH.
  - eapply Hf; [exact Hp|by left|exact E].
  - intros a' y c Ha Hy. eapply Hf; [exact Ha|by right].
Qed.

(** ** Conversions *)

(** A value stored in an [int]. *)
Definition i32 (z : Z) : Z := (z + 2 ^ 31) mod 2 ^ 32 - 2 ^ 31.

Lemma i32_small z : - 2 ^ 31 <= z < 2 ^ 31 -> i32 z = z.
Proof. intros H. unfold i32. rewrite Z.mod_small by lia. lia. Qed.

Lemma i32_range z : - 2 ^ 31 <= i32 z < 2 ^ 31.
Proof. unfold i32. pose proof (Z.mod_pos_bound (z + 2 ^ 31) (2 ^ 32) eq_refl). lia. Qed.

(** The optional sign of a number. *)
Definition scan_sign (s : string) : bool * string :=
  match s with
  | String c s' =>
      if Ascii.eqb c "-" then (true, s') else if Ascii.eqb c "+" then (false, s') else (false, s)
  | EmptyString => (false, s)
  end.
Definition signed (neg : bool) (v : Z) : Z := if neg then - v else v.

(** [%d]. *)
Definition scan_int (s : string) : option (Z * string) :=
  let '(neg, s) := scan_sign (scan_ws s) in
  match str_span is_digit s with
  | (EmptyString, _) => None
  | (ds, rest) => Some (i32 (signed neg (horner 0 ds)), rest)
  end.

(** Digits in base 8 and 16. *)
Definition is_octal := in_ascii_range 48 55.
Definition is_hex (c : ascii) : bool := is_digit c || in_ascii_range 65 70 c || in_ascii_range 97 102 c.
Definition hex_digit (c : ascii) : Z :=
  if is_digit c then char_digit c else Z.of_nat (nat_of_ascii (ascii_tolower c)) - 87.
Fixpoint horner_in (base : Z) (acc : Z) (s : string) : Z :=
  match s with
  | EmptyString => acc
  | String c s' => horner_in base (base * acc + hex_digit c) s'
  end.

(** [%i]: the prefix gives the base, 16 after [0x], 8 after [0], else 10.  A
    [0x] that no hexadecimal digit follows is a matching failure. *)
Definition scan_int_base (s : string) : option (Z * string) :=
  let '(neg, s) := scan_sign (scan_ws s) in
  match s with
  | String "0" (String c s') =>
      if Ascii.eqb c "x" || Ascii.eqb c "X" then
        match str_span is_hex s' with
        | (EmptyString, _) => None
        | (ds, rest) => Some (i32 (signed neg (horner_in 16 0 ds)), rest)
        end
      else let '(ds, rest) := str_span is_octal (String c s') in Some (i32 (signed neg (horner_in 8 0 ds)), rest)
  | _ =>
      match str_span is_digit s with
      | (EmptyString, _) => None
      | (ds, rest) => Some (i32 (signed neg (horner 0 ds)), rest)
      end
  end.

(** [%s] without a width. *)
Definition scan_str (s : string) : option (string * string) := scan_word (String.length s) s.

(** The rest of an [sscanf] after a conversion: a matching failure stops it. *)
Definition scan_then {A B} (r : option (A * string)) (stop : B) (k : A -> string -> B) : B :=
  match r with
  | Some (a, s) => k a s
  | None => stop
  end.

(** [%s] into a buffer of [size] bytes. *)
Definition scan_str_then {B} (size : nat) (s : string) (stop : outcome B) (k : string -> string -> outcome B)
    : outcome B :=
  scan_then (scan_str s) stop (fun w s' => if (size <=? String.length w)%nat then Undefined else k w s').

(** White space, ordinary characters and white space in a format. *)
Definition scan_lit_then {B} (lit s : string) (stop : B) (k : string -> B) : B :=
  match scan_lit lit (scan_ws s) with
  | Some s' => k s'
  | None => stop
  end.

(** ** Reading what [std::to_string] and [operator+] wrote *)

Lemma scan_str_token s t :
  is_token s -> head_is (fun c => negb (is_space c)) t = false -> scan_str (s +:+ t) = Some (s, t).
Proof.
  intros [Hne Hs] Ht. apply scan_word_all; try done. rewrite str_length_app. lia.
Qed.

Lemma token_no_space s t : is_token s -> head_is is_space (s +:+ t) = false.
Proof.
  intros [Hne Hs]. destruct s as [|c s]; [done|]. simpl in *.
  apply andb_true_iff in Hs as [Hc _]. by apply negb_true_iff.
Qed.

Lemma scan_str_space s t :
  is_token s -> head_is (fun c => negb (is_space c)) t = false -> scan_str (String " " (s +:+ t)) = Some (s, t).
Proof.
  intros Hs Ht. unfold scan_str. apply scan_word_space; try done. cbn [String.length]. rewrite str_length_app. lia.
Qed.

Lemma scan_str_then_space {B} size s t stop (k : string -> string -> outcome B) :
  is_token s -> (String.length s < size)%nat -> head_is (fun c => negb (is_space c)) t = false ->
  scan_str_then size (String " " (s +:+ t)) stop k = k s t.
Proof.
  intros Hs Hl Ht. unfold scan_str_then, scan_then. rewrite scan_str_space by done.
  by replace (size <=? String.length s)%nat with false by (symmetry; apply Nat.leb_gt; lia).
Qed.

Lemma scan_str_then_token {B} size s t stop (k : string -> string -> outcome B) :
  is_token s -> (String.length s < size)%nat -> head_is (fun c => negb (is_space c)) t = false ->
  scan_str_then size (s +:+ t) stop k = k s t.
Proof.
  intros Hs Hl Ht. unfold scan_str_then, scan_then. rewrite scan_str_token by done.
  by replace (size <=? String.length s)%nat with false by (symmetry; apply Nat.leb_gt; lia).
Qed.

Lemma dec_token n : 0 <= n -> is_token (dec_of_nonneg n).
Proof.
  intros Hn. split.
  - destruct (dec_of_nonneg_cons n) as (c & s & ->). done.
  - eapply str_all_impl; [|by apply dec_of_nonneg_digits]. intros c Hc. by rewrite digit_not_space.
Qed.

Lemma space_not_digit t : head_is (fun c => negb (is_space c)) t = false -> head_is is_digit t = false.
Proof.
  destruct t as [|c t]; [done|]. simpl. intros Hc%negb_false_iff.
  destruct (is_digit c) eqn:E; [|done]. by rewrite digit_not_space in Hc.
Qed.

Lemma scan_uint_space n t :
  0 <= n < 2 ^ 32 -> head_is is_digit t = false -> scan_uint (String " " (dec_of_nonneg n +:+ t)) = Some (n, t).
Proof.
  intros Hn Ht. rewrite <- (scan_uint_dec n t Hn Ht) at 1. unfold scan_uint.
  rewrite scan_ws_space, scan_ws_id; [done|apply token_no_space, dec_token; lia|apply token_no_space, dec_token; lia].
Qed.

Lemma dec_no_sign n t : 0 <= n -> scan_sign (dec_of_nonneg n +:+ t) = (false, dec_of_nonneg n +:+ t).
Proof.
  intros Hn. pose proof (dec_of_nonneg_digits n Hn) as Hd. destruct (dec_of_nonneg_cons n) as (c & s & Hc).
  rewrite Hc in *. simpl in *. apply andb_true_iff in Hd as [Hd _].
  assert (Ascii.eqb c "-" = false) as -> by (apply Ascii.eqb_neq; by intros ->).
  by assert (Ascii.eqb c "+" = false) as -> by (apply Ascii.eqb_neq; by intros ->).
Qed.

Lemma scan_digits_dec n t :
  0 <= n -> head_is is_digit t = false -> str_span is_digit (dec_of_nonneg n +:+ t) = (dec_of_nonneg n, t).
Proof. intros Hn Ht. apply str_span_all; [by apply dec_of_nonneg_digits|by apply head_is_span]. Qed.

Lemma scan_int_dec n t :
  0 <= n < 2 ^ 31 -> head_is is_digit t = false -> scan_int (dec_of_nonneg n +:+ t) = Some (n, t).
Proof.
  intros Hn Ht. unfold scan_int. rewrite scan_ws_id by (apply token_no_space, dec_token; lia).
  rewrite dec_no_sign, scan_digits_dec by (done || lia).
  pose proof (dec_of_nonneg_horner n (proj1 Hn)) as Hh. destruct (dec_of_nonneg_cons n) as (c & s & Hc).
  rewrite Hc in *. cbn [signed]. by rewrite Hh, i32_small by lia.
Qed.

Lemma scan_int_space n t :
  0 <= n < 2 ^ 31 -> head_is is_digit t = false -> scan_int (String " " (dec_of_nonneg n +:+ t)) = Some (n, t).
Proof.
  intros Hn Ht. rewrite <- (scan_int_dec n t Hn Ht) at 1. unfold scan_int.
  rewrite scan_ws_space, scan_ws_id; [done|apply token_no_space, dec_token; lia|apply token_no_space, dec_token; lia].
Qed.

(** A positive number is written without a leading zero. *)
Lemma dec_digits_head fuel n acc :
  0 < n < 2 ^ Z.of_nat fuel -> exists c s, dec_digits fuel n acc = String c s /\ c <> "0"%char.
Proof.
  revert n acc. induction fuel as [|fuel IH]; intros n acc Hn; [change (2 ^ Z.of_nat 0) with 1 in Hn; lia|].
  cbn [dec_digits]. destruct (n / 10 =? 0) eqn:E.
  - apply Z.eqb_eq in E. eexists _, _. split; [reflexivity|]. intros Hc.
    pose proof (Z.mod_pos_bound n 10 eq_refl) as Hb. pose proof (Z.div_mod n 10 ltac:(lia)).
    pose proof (proj1 (char_digit_char _ Hb)) as Hd. rewrite Hc in Hd. change (char_digit "0"%char) with 0 in Hd. lia.
  - apply Z.eqb_neq in E. apply IH. rewrite Nat2Z.inj_succ, Z.pow_succ_r in Hn by lia.
    pose proof (Z.div_pos n 10). pose proof (Z.div_mod n 10 ltac:(lia)). pose proof (Z.mod_pos_bound n 10 eq_refl). lia.
Qed.

Lemma dec_of_positive_head n : 0 < n -> exists c s, dec_of_nonneg n = String c s /\ c <> "0"%char.
Proof.
  intros Hn. apply dec_digits_head. split; [done|]. rewrite Nat2Z.inj_succ, Z2Nat.id by apply Z.log2_nonneg.
  by apply Z.log2_spec.
Qed.

Lemma scan_int_base_dec n t :
  0 < n < 2 ^ 31 -> head_is is_digit t = false -> scan_int_base (dec_of_nonneg n +:+ t) = Some (n, t).
Proof.
  intros Hn Ht. unfold scan_int_base. rewrite scan_ws_id by (apply token_no_space, dec_token; lia).
  rewrite dec_no_sign by lia. pose proof (scan_digits_dec n t ltac:(lia) Ht) as Hs.
  pose proof (dec_of_nonneg_horner n ltac:(lia)) as Hh.
  destruct (dec_of_positive_head n ltac:(lia)) as (c & s & Hc & H0). rewrite Hc in *.
  change (String c s +:+ t) with (String c (s +:+ t)) in *. rewrite Hs. cbn [signed]. rewrite Hh, i32_small by lia.
  destruct c as [[] [] [] [] [] [] [] []]; try reflexivity. by destruct H0.
Qed.

Lemma scan_lit_then_space {B} lit t stop (k : string -> B) :
  head_is is_space (lit +:+ t) = false -> scan_lit_then lit (String " " (lit +:+ t)) stop k = k t.
Proof. intros H. unfold scan_lit_then. rewrite scan_ws_space by done. by rewrite scan_lit_app. Qed.
