(* ===== verification/SalTypes.v ===== *)
(** The enumerations of the SAL layer ([src/src/c-wrapper/internal/c-sal.h]),
    their conversions ([c-sal.cpp]) and the bits that say what changed between
    two media descriptions. *)
From S2P Require Import Prelude.

(** ** Enumerations *)

Inductive SalStreamDir :=
  SalStreamSendRecv | SalStreamSendOnly | SalStreamRecvOnly | SalStreamInactive.

Inductive SalStreamType := SalAudio | SalVideo | SalText | SalOther.

Inductive SalMediaProto :=
  SalProtoRtpAvp | SalProtoRtpSavp | SalProtoRtpAvpf | SalProtoRtpSavpf
| SalProtoUdpTlsRtpSavp | SalProtoUdpTlsRtpSavpf | SalProtoOther.

Inductive SalDtlsRole :=
  SalDtlsRoleInvalid | SalDtlsRoleIsServer | SalDtlsRoleIsClient | SalDtlsRoleUnset.

Inductive SalMulticastRole :=
  SalMulticastInactive | SalMulticastSender | SalMulticastReceiver | SalMulticastSenderReceiver.

Inductive SalMediaRecord :=
  SalMediaRecordNone | SalMediaRecordOff | SalMediaRecordOn | SalMediaRecordPaused.

Inductive LinphoneMediaEncryption :=
  LinphoneMediaEncryptionNone | LinphoneMediaEncryptionSRTP
| LinphoneMediaEncryptionZRTP | LinphoneMediaEncryptionDTLS.

#[export] Instance SalStreamDir_eq_dec : EqDecision SalStreamDir.
Proof. solve_decision. Defined.
#[export] Instance SalStreamType_eq_dec : EqDecision SalStreamType.
Proof. solve_decision. Defined.
#[export] Instance SalMediaProto_eq_dec : EqDecision SalMediaProto.
Proof. solve_decision. Defined.
#[export] Instance SalDtlsRole_eq_dec : EqDecision SalDtlsRole.
Proof. solve_decision. Defined.
#[export] Instance SalMulticastRole_eq_dec : EqDecision SalMulticastRole.
Proof. solve_decision. Defined.
#[export] Instance SalMediaRecord_eq_dec : EqDecision SalMediaRecord.
Proof. solve_decision. Defined.
#[export] Instance LinphoneMediaEncryption_eq_dec : EqDecision LinphoneMediaEncryption.
Proof. solve_decision. Defined.

(** [a == b] on an enumeration. *)
Notation "a =e b" := (bool_decide (a = b)) (at level 70, no associativity) : sal_scope.
Notation "a <>e b" := (negb (bool_decide (a = b))) (at level 70, no associativity) : sal_scope.

(** ** Difference masks *)

Definition SAL_MEDIA_DESCRIPTION_UNCHANGED : Z := 0.
Definition SAL_MEDIA_DESCRIPTION_NETWORK_CHANGED : Z := 1.
Definition SAL_MEDIA_DESCRIPTION_CODEC_CHANGED : Z := Z.shiftl 1 1.
Definition SAL_MEDIA_DESCRIPTION_CRYPTO_KEYS_CHANGED : Z := Z.shiftl 1 2.
Definition SAL_MEDIA_DESCRIPTION_CRYPTO_POLICY_CHANGED : Z := Z.shiftl 1 3.
Definition SAL_MEDIA_DESCRIPTION_STREAMS_CHANGED : Z := Z.shiftl 1 4.
Definition SAL_MEDIA_DESCRIPTION_NETWORK_XXXCAST_CHANGED : Z := Z.shiftl 1 5.
Definition SAL_MEDIA_DESCRIPTION_FORCE_STREAM_RECONSTRUCTION : Z := Z.shiftl 1 6.
Definition SAL_MEDIA_DESCRIPTION_ICE_RESTART_DETECTED : Z := Z.shiftl 1 7.
Definition SAL_MEDIA_DESCRIPTION_CONFIGURATION_CHANGED : Z := Z.shiftl 1 8.
Definition SAL_MEDIA_DESCRIPTION_CRYPTO_TYPE_CHANGED : Z := Z.shiftl 1 9.
Definition SAL_MEDIA_DESCRIPTION_MIXER_TO_CLIENT_EXTENSION_CHANGED : Z := Z.shiftl 1 10.
Definition SAL_MEDIA_DESCRIPTION_CLIENT_TO_MIXER_EXTENSION_CHANGED : Z := Z.shiftl 1 11.
Definition SAL_MEDIA_DESCRIPTION_PTIME_CHANGED : Z := Z.shiftl 1 12.
Definition SAL_MEDIA_DESCRIPTION_BANDWIDTH_CHANGED : Z := Z.shiftl 1 13.
Definition SAL_MEDIA_DESCRIPTION_FRAME_MARKING_EXTENSION_CHANGED : Z := Z.shiftl 1 14.
Definition SAL_MEDIA_DESCRIPTION_CONTENT_CHANGED : Z := Z.shiftl 1 15.
Definition SAL_MEDIA_DESCRIPTION_DIRECTION_CHANGED : Z := Z.shiftl 1 16.

(** ** Conversions *)

Definition sal_multicast_role_to_string (role : SalMulticastRole) : string :=
  match role with
  | SalMulticastInactive => "inactive"
  | SalMulticastReceiver => "receiver"
  | SalMulticastSender => "sender"
  | SalMulticastSenderReceiver => "sender-receiver"
  end.

Definition sal_stream_type_to_string (type : SalStreamType) : string :=
  match type with
  | SalAudio => "audio"
  | SalVideo => "video"
  | SalText => "text"
  | SalOther => "other"
  end.

Definition sal_media_proto_to_string (type : SalMediaProto) : string :=
  match type with
  | SalProtoRtpAvp => "RTP/AVP"
  | SalProtoRtpSavp => "RTP/SAVP"
  | SalProtoUdpTlsRtpSavp => "UDP/TLS/RTP/SAVP"
  | SalProtoRtpAvpf => "RTP/AVPF"
  | SalProtoRtpSavpf => "RTP/SAVPF"
  | SalProtoUdpTlsRtpSavpf => "UDP/TLS/RTP/SAVPF"
  | SalProtoOther => "unknown"
  end.

Definition sal_media_proto_from_string (type : string) : SalMediaProto :=
  if String.eqb type "RTP/AVP" then SalProtoRtpAvp
  else if String.eqb type "RTP/SAVP" then SalProtoRtpSavp
  else if String.eqb type "UDP/TLS/RTP/SAVP" then SalProtoUdpTlsRtpSavp
  else if String.eqb type "RTP/AVPF" then SalProtoRtpAvpf
  else if String.eqb type "RTP/SAVPF" then SalProtoRtpSavpf
  else if String.eqb type "UDP/TLS/RTP/SAVPF" then SalProtoUdpTlsRtpSavpf
  else SalProtoOther.

Definition linphone_media_encryption_to_sal_media_proto
    (media_enc : LinphoneMediaEncryption) (avpf : bool) : SalMediaProto :=
  if (media_enc =e LinphoneMediaEncryptionSRTP) && avpf then SalProtoRtpSavpf
  else if media_enc =e LinphoneMediaEncryptionSRTP then SalProtoRtpSavp
  else if (media_enc =e LinphoneMediaEncryptionDTLS) && avpf then SalProtoUdpTlsRtpSavpf
  else if media_enc =e LinphoneMediaEncryptionDTLS then SalProtoUdpTlsRtpSavp
  else if avpf then SalProtoRtpAvpf
  else SalProtoRtpAvp.

Definition sal_media_proto_to_linphone_media_encryption
    (proto : SalMediaProto) (haveZrtpHash : bool) : LinphoneMediaEncryption :=
  if (proto =e SalProtoRtpSavpf) || (proto =e SalProtoRtpSavp) then LinphoneMediaEncryptionSRTP
  else if (proto =e SalProtoUdpTlsRtpSavpf) || (proto =e SalProtoUdpTlsRtpSavp)
  then LinphoneMediaEncryptionDTLS
  else if haveZrtpHash then LinphoneMediaEncryptionZRTP
  else LinphoneMediaEncryptionNone.

Definition sal_stream_dir_to_string (type : SalStreamDir) : string :=
  match type with
  | SalStreamSendRecv => "sendrecv"
  | SalStreamSendOnly => "sendonly"
  | SalStreamRecvOnly => "recvonly"
  | SalStreamInactive => "inactive"
  end.

Definition sal_media_record_to_string (record : SalMediaRecord) : string :=
  match record with
  | SalMediaRecordOff => "off"
  | SalMediaRecordOn => "on"
  | SalMediaRecordPaused => "paused"
  | SalMediaRecordNone => "none"
  end.

(** ** Lemmas *)

Lemma media_proto_string_roundtrip p :
  sal_media_proto_from_string (sal_media_proto_to_string p) = p.
Proof. by destruct p. Qed.

Lemma media_proto_to_string_inj p q :
  sal_media_proto_to_string p = sal_media_proto_to_string q -> p = q.
Proof.
  intros H. by rewrite <- (media_proto_string_roundtrip p), H, media_proto_string_roundtrip.
Qed.

(** The encryption read back from the transport chosen for an encryption. *)
Lemma media_encryption_proto_roundtrip enc avpf zrtp :
  sal_media_proto_to_linphone_media_encryption
    (linphone_media_encryption_to_sal_media_proto enc avpf) zrtp =
  match enc with
  | LinphoneMediaEncryptionSRTP | LinphoneMediaEncryptionDTLS => enc
  | _ => if zrtp then LinphoneMediaEncryptionZRTP else LinphoneMediaEncryptionNone
  end.
Proof. by destruct enc, avpf, zrtp. Qed.
