(* ===== verification/Payload.v ===== *)
(** oRTP payload types as the SAL layer reads and writes them, the interface
    of the libraries the negotiation calls ([MediaLib]) and the three codec
    specific matchers liblinphone registers ([src/src/sal/offeranswer.cpp],
    lines 34 to 133). *)
From S2P Require Import Prelude SalTypes.

(** ** The payload type structure

    The fields of oRTP's [PayloadType] that liblinphone accesses.  A
    [const char *] that may be null is an [option string].  [number] is the
    value of [payload_type_get_number]/[payload_type_set_number].  Every list
    of the SAL owns its payload types (they are cloned when a list is copied),
    so a payload type is a value and [payload_type_clone] is a copy. *)

(** The bits of [PayloadType::flags] the code tests or sets. *)
Inductive pt_flag :=
  PAYLOAD_TYPE_FLAG_CAN_RECV | PAYLOAD_TYPE_FLAG_CAN_SEND
| PAYLOAD_TYPE_RTCP_FEEDBACK_ENABLED | PAYLOAD_TYPE_FROZEN_NUMBER
| PAYLOAD_TYPE_PRIORITY_BONUS | PAYLOAD_TYPE_ENABLED
| PAYLOAD_TYPE_VBR | PAYLOAD_TYPE_BITRATE_OVERRIDE.

#[export] Instance pt_flag_eq_dec : EqDecision pt_flag.
Proof. solve_decision. Defined.

Definition pt_flag_code (f : pt_flag) : nat :=
  match f with
  | PAYLOAD_TYPE_FLAG_CAN_RECV => 0 | PAYLOAD_TYPE_FLAG_CAN_SEND => 1
  | PAYLOAD_TYPE_RTCP_FEEDBACK_ENABLED => 2 | PAYLOAD_TYPE_FROZEN_NUMBER => 3
  | PAYLOAD_TYPE_PRIORITY_BONUS => 4 | PAYLOAD_TYPE_ENABLED => 5
  | PAYLOAD_TYPE_VBR => 6 | PAYLOAD_TYPE_BITRATE_OVERRIDE => 7
  end%nat.

Definition pt_flag_decode (n : nat) : option pt_flag :=
  nth_error [PAYLOAD_TYPE_FLAG_CAN_RECV; PAYLOAD_TYPE_FLAG_CAN_SEND;
    PAYLOAD_TYPE_RTCP_FEEDBACK_ENABLED; PAYLOAD_TYPE_FROZEN_NUMBER;
    PAYLOAD_TYPE_PRIORITY_BONUS; PAYLOAD_TYPE_ENABLED;
    PAYLOAD_TYPE_VBR; PAYLOAD_TYPE_BITRATE_OVERRIDE] n.

#[export] Instance pt_flag_countable : Countable pt_flag.
Proof.
  refine (inj_countable pt_flag_code pt_flag_decode _).
  by intros [].
Defined.

(** [PayloadType::type]. *)
Inductive payload_kind :=
  PAYLOAD_AUDIO_CONTINUOUS | PAYLOAD_AUDIO_PACKETIZED | PAYLOAD_VIDEO | PAYLOAD_TEXT | PAYLOAD_OTHER.

#[export] Instance payload_kind_eq_dec : EqDecision payload_kind.
Proof. solve_decision. Defined.

Record PayloadTypeAvpfParams := mkAvpf {
  features : Z;                 (* unsigned char bit mask *)
  rpsi_compatibility : bool;
  trr_interval : Z              (* uint16_t *)
}.
#[export] Instance PayloadTypeAvpfParams_eta : Eta PayloadTypeAvpfParams :=
  fun r => mkAvpf (features r) (rpsi_compatibility r) (trr_interval r).
#[export] Instance PayloadTypeAvpfParams_eq_dec : EqDecision PayloadTypeAvpfParams.
Proof. solve_decision. Defined.

Record OrtpPayloadType := mkPayloadType {
  pt_kind : payload_kind;
  mime_type : option string;
  clock_rate : Z;
  channels : Z;
  normal_bitrate : Z;
  recv_fmtp : option string;
  send_fmtp : option string;
  avpf : PayloadTypeAvpfParams;
  flags : gset pt_flag;
  number : Z
}.
#[export] Instance OrtpPayloadType_eta : Eta OrtpPayloadType :=
  fun r => mkPayloadType (pt_kind r) (mime_type r) (clock_rate r) (channels r) (normal_bitrate r)
    (recv_fmtp r) (send_fmtp r) (avpf r) (flags r) (number r).
#[export] Instance OrtpPayloadType_eq_dec : EqDecision OrtpPayloadType.
Proof. solve_decision. Defined.

Definition has_flag (f : pt_flag) (pt : OrtpPayloadType) : bool := bool_decide (f ∈ flags pt).
Definition payload_type_set_flag (fs : gset pt_flag) (pt : OrtpPayloadType) : OrtpPayloadType :=
  pt <| flags := flags pt ∪ fs |>.
Definition payload_type_unset_flag (fs : gset pt_flag) (pt : OrtpPayloadType) : OrtpPayloadType :=
  pt <| flags := flags pt ∖ fs |>.

(** [strcasecmp(pt->mime_type, m) == 0]; a payload type without mime type has
    no name to compare. *)
Definition mime_is (m : string) (pt : OrtpPayloadType) : bool :=
  match mime_type pt with
  | Some m' => strcasecmp_eq m' m
  | None => false
  end.

Lemma has_flag_set f fs pt :
  has_flag f (payload_type_set_flag fs pt) = has_flag f pt || bool_decide (f ∈ fs).
Proof.
  unfold has_flag, payload_type_set_flag. simpl. apply eq_true_iff_eq.
  rewrite orb_true_iff, !bool_decide_eq_true. set_solver.
Qed.

Lemma has_flag_unset f fs pt :
  has_flag f (payload_type_unset_flag fs pt) = has_flag f pt && bool_decide (f ∉ fs).
Proof.
  unfold has_flag, payload_type_unset_flag. simpl. apply eq_true_iff_eq.
  rewrite andb_true_iff, !bool_decide_eq_true. set_solver.
Qed.

#[export] Hint Rewrite has_flag_set has_flag_unset : sal.

(** ** The libraries the negotiation calls

    oRTP, mediastreamer2 and their constants are outside this repository: they
    are the operations of a class, and every component takes them as an
    argument. *)

(** The matching function of an [MSOfferAnswerContext]: from the local payload
    types, the payload type to match, the remote payload types and the flag
    that says an answer is being read, the match (a clone) and the local
    payload types as the call leaves them. *)
Definition match_payload_fn : Type :=
  list OrtpPayloadType -> OrtpPayloadType -> list OrtpPayloadType -> bool ->
  option OrtpPayloadType * list OrtpPayloadType.

(** [enum MSCryptoSuite], by its integer values. *)
Definition MSCryptoSuite : Type := Z.

Class MediaLib := {
  (** oRTP: appends [fmtp] to the [send_fmtp] string. *)
  payload_type_append_send_fmtp : OrtpPayloadType -> string -> OrtpPayloadType;
  (** The mime types of [payload_type_t140_red] and [payload_type_t140]. *)
  payload_type_t140_red_mime : string;
  payload_type_t140_mime : string;
  (** oRTP: whether an IP address is a multicast address. *)
  ms_is_multicast : string -> bool;
  (** belle-sip: the attribute of a list that a name designates. *)
  belle_sdp_get_attribute : list (string * option string) -> string -> option (string * option string);
  (** mediastreamer2: the context of the provider registered for a mime type. *)
  ms_factory_create_offer_answer_context : string -> option match_payload_fn;
  (** mediastreamer2: crypto suites and their SDP names and parameters. *)
  MS_CRYPTO_SUITE_INVALID : MSCryptoSuite;
  ms_crypto_suite_to_name_params : MSCryptoSuite -> option (string * option string);
  ms_crypto_suite_build_from_name_params : string -> option string -> MSCryptoSuite
}.

(** What oRTP documents: appending changes the sending format parameters only. *)
Class MediaLibSpec (lib : MediaLib) : Prop := {
  append_send_fmtp_only : forall pt s,
    payload_type_append_send_fmtp pt s = pt <| send_fmtp := send_fmtp (payload_type_append_send_fmtp pt s) |>
}.

(** ** The registered matchers *)

Section Matchers.
Context {lib : MediaLib}.

Fixpoint opus_match_loop (local_payloads : list OrtpPayloadType) (refpt : OrtpPayloadType)
    (legacy_opus : option OrtpPayloadType) : option OrtpPayloadType :=
  match local_payloads with
  | [] =>
      match legacy_opus with
      | Some l => Some (l <| channels := 1 |>)
      | None => None
      end
  | pt :: rest =>
      if mime_is "opus" pt then
        if channels refpt =? 1 then opus_match_loop rest refpt (Some pt)
        else if channels refpt =? 2 then Some pt
        else opus_match_loop rest refpt legacy_opus
      else opus_match_loop rest refpt legacy_opus
  end.

Definition opus_match : match_payload_fn :=
  fun local_payloads refpt _ _ => (opus_match_loop local_payloads refpt None, local_payloads).

(** The last local G729 with the same number of channels. *)
Definition g729A_match : match_payload_fn :=
  fun local_payloads refpt _ _ =>
    (fold_left (fun candidate pt =>
       if mime_is "G729" pt && (channels refpt =? channels pt) then Some pt else candidate)
       local_payloads None, local_payloads).

(** ["%i/%i/%i"] of the remote T.140 payload number. *)
Definition red_fmtp (t140_payload_number : Z) : string :=
  to_dec t140_payload_number +:+ "/" +:+ to_dec t140_payload_number +:+ "/" +:+
  to_dec t140_payload_number.

(** The first local RED payload type; the format parameters computed from the
    remote T.140 number are written in the local list as well. *)
Fixpoint red_match_loop (local_payloads remote_payloads : list OrtpPayloadType)
    : option OrtpPayloadType * list OrtpPayloadType :=
  match local_payloads with
  | [] => (None, [])
  | pt :: rest =>
      if mime_is payload_type_t140_red_mime pt then
        match List.find (mime_is payload_type_t140_mime) remote_payloads with
        | Some pt2 =>
            let pt' := pt <| recv_fmtp := Some (red_fmtp (number pt2)) |> in
            (Some pt', pt' :: rest)
        | None => (Some pt, local_payloads)
        end
      else
        let '(red, rest') := red_match_loop rest remote_payloads in
        (red, pt :: rest')
  end.

Definition red_match : match_payload_fn :=
  fun local_payloads _ remote_payloads _ => red_match_loop local_payloads remote_payloads.

(** [linphone_core_register_offer_answer_providers]: the mime types and the
    matchers, in the order of registration. *)
Definition registered_offer_answer_providers : list (string * match_payload_fn) :=
  [("red", red_match); ("G729A", g729A_match); ("opus", opus_match)].

(** ** What a matcher promises *)

(** The match is a payload type of the local list, up to the fields a
    provider negotiates itself: channels and format parameters. *)
Definition same_codec (a b : OrtpPayloadType) : Prop :=
  pt_kind a = pt_kind b /\ mime_type a = mime_type b /\ clock_rate a = clock_rate b /\
  number a = number b /\ flags a = flags b /\ avpf a = avpf b /\ send_fmtp a = send_fmtp b.

(** A provider returns a local codec and leaves the codecs of the local list
    in place. *)
Definition matcher_sound (m : match_payload_fn) : Prop :=
  forall local_payloads refpt remote_payloads reading,
    let '(r, local') := m local_payloads refpt remote_payloads reading in
    Forall2 same_codec local' local_payloads /\
    forall pt, r = Some pt -> exists p, In p local_payloads /\ same_codec pt p.

Lemma same_codec_refl a : same_codec a a.
Proof. by repeat split. Qed.

Lemma same_codec_list_refl l : Forall2 same_codec l l.
Proof. induction l; constructor; auto using same_codec_refl. Qed.

Lemma opus_match_loop_sound local_payloads refpt legacy pt :
  opus_match_loop local_payloads refpt legacy = Some pt ->
  exists p, (In p local_payloads \/ legacy = Some p) /\ same_codec pt p.
Proof.
  revert legacy. induction local_payloads as [|q rest IH]; intros legacy; simpl.
  - destruct legacy as [l|]; [|done]. intros [= <-]. exists l. split; [auto|by repeat split].
  - destruct (mime_is "opus" q); [destruct (channels refpt =? 1)|].
    + intros H. destruct (IH _ H) as (p & [Hp|[= <-]] & Hs); eauto.
    + destruct (channels refpt =? 2).
      * intros [= <-]. exists q. auto using same_codec_refl.
      * intros H. destruct (IH _ H) as (p & [Hp|Hp] & Hs); eauto.
    + intros H. destruct (IH _ H) as (p & [Hp|Hp] & Hs); eauto.
Qed.

Lemma opus_match_sound : matcher_sound opus_match.
Proof.
  intros l refpt rem rd. simpl. split; [apply same_codec_list_refl|].
  intros pt H. destruct (opus_match_loop_sound _ _ _ _ H) as (p & [Hp|[=]] & Hs). eauto.
Qed.

Lemma g729A_match_sound : matcher_sound g729A_match.
Proof.
  intros l refpt rem rd. simpl. split; [apply same_codec_list_refl|].
  intros pt H. exists pt. split; [|apply same_codec_refl].
  assert (G : forall l acc, fold_left (fun candidate p =>
       if mime_is "G729" p && (channels refpt =? channels p) then Some p else candidate) l acc
       = Some pt -> In pt l \/ acc = Some pt).
  { clear. induction l as [|q l IH]; intros acc; simpl; [auto|].
    intros H. destruct (IH _ H) as [?|Hacc]; [auto|].
    destruct (mime_is "G729" q && (channels refpt =? channels q)); [|auto].
    left. left. congruence. }
  destruct (G _ _ H) as [?|[=]]. done.
Qed.

Lemma red_match_sound : matcher_sound red_match.
Proof.
  intros l refpt rem rd. unfold red_match. induction l as [|q l IH]; simpl; [split; [constructor|done]|].
  destruct (mime_is payload_type_t140_red_mime q).
  - destruct (List.find _ rem) as [pt2|].
    + split; [constructor; [by repeat split|apply same_codec_list_refl]|].
      intros pt [= <-]. exists q. split; [auto|by repeat split].
    + split; [apply (same_codec_list_refl (q :: l))|].
      intros pt [= <-]. exists q. auto using same_codec_refl.
  - destruct (red_match_loop l rem) as [r l']. destruct IH as [IH1 IH2]. split.
    + constructor; [apply same_codec_refl|done].
    + intros pt Hpt. destruct (IH2 _ Hpt) as (p & Hp & Hs). eauto.
Qed.

Lemma registered_providers_sound m f :
  In (m, f) registered_offer_answer_providers -> matcher_sound f.
Proof.
  intros [[= <- <-]|[[= <- <-]|[[= <- <-]|[]]]];
    auto using red_match_sound, g729A_match_sound, opus_match_sound.
Qed.
End Matchers.

#[export] Hint Resolve same_codec_refl same_codec_list_refl : sal.
