(* ===== verification/SalStreamConfiguration.v ===== *)
(** One configuration of a media stream: [SalStreamConfiguration]
    ([src/src/sal/sal_stream_configuration.h] and [.cpp]), with its comparison,
    its classification by transport, its capability negotiation text and its
    SRTP crypto attributes. *)
From S2P Require Import Prelude SalTypes Payload.

(** ** Data *)

Record SalIceCandidate := mkIceCandidate {
  ice_addr : string;
  ice_raddr : string;
  ice_foundation : string;
  ice_type : string;
  ice_componentID : Z;
  ice_priority : Z;
  ice_port : Z;
  ice_rport : Z
}.

Record SalIceRemoteCandidate := mkIceRemoteCandidate {
  ice_remote_addr : string;
  ice_remote_port : Z
}.

Record SalSrtpCryptoAlgo := mkCrypto {
  tag : Z;
  algo : MSCryptoSuite;
  master_key : string
}.
#[export] Instance SalSrtpCryptoAlgo_eta : Eta SalSrtpCryptoAlgo :=
  fun r => mkCrypto (tag r) (algo r) (master_key r).
#[export] Instance SalSrtpCryptoAlgo_eq_dec : EqDecision SalSrtpCryptoAlgo.
Proof. solve_decision. Defined.

(** oRTP's [OrtpRtcpFbConfiguration] and [OrtpRtcpXrConfiguration]. *)
Record OrtpRtcpFbConfiguration := mkRtcpFb {
  generic_nack_enabled : bool;
  tmmbr_enabled : bool;
  goog_remb_enabled : bool
}.
#[export] Instance OrtpRtcpFbConfiguration_eta : Eta OrtpRtcpFbConfiguration :=
  fun r => mkRtcpFb (generic_nack_enabled r) (tmmbr_enabled r) (goog_remb_enabled r).
Definition rtcp_fb_default : OrtpRtcpFbConfiguration := mkRtcpFb false false false.

Record OrtpRtcpXrConfiguration := mkRtcpXr {
  xr_enabled : bool;
  rcvr_rtt_mode : Z;
  rcvr_rtt_max_size : Z;
  stat_summary_enabled : bool;
  stat_summary_flags : Z;
  voip_metrics_enabled : bool
}.
#[export] Instance OrtpRtcpXrConfiguration_eta : Eta OrtpRtcpXrConfiguration :=
  fun r => mkRtcpXr (xr_enabled r) (rcvr_rtt_mode r) (rcvr_rtt_max_size r)
    (stat_summary_enabled r) (stat_summary_flags r) (voip_metrics_enabled r).
(** [memset(&rtcp_xr, 0, sizeof(rtcp_xr))]. *)
Definition rtcp_xr_default : OrtpRtcpXrConfiguration := mkRtcpXr false 0 0 false 0 false.

(** The members of [SalStreamConfiguration].  [cfg_zrtphash] is the C string
    held by the 128 byte buffer [zrtphash]; [zrtphash[0] != 0] says it is not
    empty.  The padding and [custom_sdp_attributes], which no code reads, are
    left out. *)
Record SalStreamConfiguration := mkCfg {
  cfg_index : Z;
  cfg_proto : SalMediaProto;
  cfg_proto_other : string;
  cfg_rtp_ssrc : Z;
  cfg_rtcp_cname : string;
  cfg_payloads : list OrtpPayloadType;
  cfg_ptime : Z;
  cfg_maxptime : Z;
  cfg_dir : SalStreamDir;
  cfg_crypto : list SalSrtpCryptoAlgo;
  cfg_max_rate : Z;
  cfg_bundle_only : bool;
  cfg_implicit_rtcp_fb : bool;
  cfg_rtcp_fb : OrtpRtcpFbConfiguration;
  cfg_rtcp_xr : OrtpRtcpXrConfiguration;
  cfg_mid : string;
  cfg_mid_rtp_ext_header_id : Z;
  cfg_mixer_to_client_extension_id : Z;
  cfg_client_to_mixer_extension_id : Z;
  cfg_frame_marking_extension_id : Z;
  cfg_conference_ssrc : Z;
  cfg_set_nortpproxy : bool;
  cfg_rtcp_mux : bool;
  cfg_haveZrtpHash : Z;
  cfg_haveLimeIk : Z;
  cfg_zrtphash : string;
  cfg_dtls_fingerprint : string;
  cfg_dtls_role : SalDtlsRole;
  cfg_ttl : Z;
  cfg_delete_media_attributes : bool;
  cfg_delete_session_attributes : bool;
  cfg_tcapIndex : Z;
  cfg_acapIndexes : list (list Z)
}.
#[export] Instance SalStreamConfiguration_eta : Eta SalStreamConfiguration :=
  fun r => mkCfg
    (cfg_index r) (cfg_proto r) (cfg_proto_other r) (cfg_rtp_ssrc r) (cfg_rtcp_cname r)
    (cfg_payloads r) (cfg_ptime r) (cfg_maxptime r) (cfg_dir r) (cfg_crypto r) (cfg_max_rate r)
    (cfg_bundle_only r) (cfg_implicit_rtcp_fb r) (cfg_rtcp_fb r) (cfg_rtcp_xr r) (cfg_mid r)
    (cfg_mid_rtp_ext_header_id r) (cfg_mixer_to_client_extension_id r)
    (cfg_client_to_mixer_extension_id r) (cfg_frame_marking_extension_id r)
    (cfg_conference_ssrc r) (cfg_set_nortpproxy r) (cfg_rtcp_mux r) (cfg_haveZrtpHash r)
    (cfg_haveLimeIk r) (cfg_zrtphash r) (cfg_dtls_fingerprint r) (cfg_dtls_role r) (cfg_ttl r)
    (cfg_delete_media_attributes r) (cfg_delete_session_attributes r) (cfg_tcapIndex r)
    (cfg_acapIndexes r).

(** A default constructed configuration; it is also the object behind
    [Utils::getEmptyConstRefObject<SalStreamConfiguration>()]. *)
Definition empty_cfg : SalStreamConfiguration := {|
  cfg_index := 0;
  cfg_proto := SalProtoRtpAvp;
  cfg_proto_other := EmptyString;
  cfg_rtp_ssrc := 0;
  cfg_rtcp_cname := EmptyString;
  cfg_payloads := [];
  cfg_ptime := 0;
  cfg_maxptime := 0;
  cfg_dir := SalStreamInactive;
  cfg_crypto := [];
  cfg_max_rate := 0;
  cfg_bundle_only := false;
  cfg_implicit_rtcp_fb := false;
  cfg_rtcp_fb := rtcp_fb_default;
  cfg_rtcp_xr := rtcp_xr_default;
  cfg_mid := EmptyString;
  cfg_mid_rtp_ext_header_id := 0;
  cfg_mixer_to_client_extension_id := 0;
  cfg_client_to_mixer_extension_id := 0;
  cfg_frame_marking_extension_id := 0;
  cfg_conference_ssrc := 0;
  cfg_set_nortpproxy := false;
  cfg_rtcp_mux := false;
  cfg_haveZrtpHash := 0;
  cfg_haveLimeIk := 0;
  cfg_zrtphash := EmptyString;
  cfg_dtls_fingerprint := EmptyString;
  cfg_dtls_role := SalDtlsRoleInvalid;
  cfg_ttl := 0;
  cfg_delete_media_attributes := false;
  cfg_delete_session_attributes := false;
  cfg_tcapIndex := 0;
  cfg_acapIndexes := []
|}.

(** The copy constructor: member after member onto a default constructed object. *)
Definition copy_construct (other : SalStreamConfiguration) : SalStreamConfiguration :=
  empty_cfg
  <| cfg_proto := cfg_proto other |>
  <| cfg_proto_other := cfg_proto_other other |>
  <| cfg_rtp_ssrc := cfg_rtp_ssrc other |>
  <| cfg_rtcp_cname := cfg_rtcp_cname other |>
  <| cfg_payloads := cfg_payloads other |>
  <| cfg_ptime := cfg_ptime other |>
  <| cfg_maxptime := cfg_maxptime other |>
  <| cfg_dir := cfg_dir other |>
  <| cfg_crypto := cfg_crypto other |>
  <| cfg_max_rate := cfg_max_rate other |>
  <| cfg_bundle_only := cfg_bundle_only other |>
  <| cfg_implicit_rtcp_fb := cfg_implicit_rtcp_fb other |>
  <| cfg_rtcp_fb := cfg_rtcp_fb other |>
  <| cfg_rtcp_xr := cfg_rtcp_xr other |>
  <| cfg_mid := cfg_mid other |>
  <| cfg_mid_rtp_ext_header_id := cfg_mid_rtp_ext_header_id other |>
  <| cfg_mixer_to_client_extension_id := cfg_mixer_to_client_extension_id other |>
  <| cfg_client_to_mixer_extension_id := cfg_client_to_mixer_extension_id other |>
  <| cfg_frame_marking_extension_id := cfg_frame_marking_extension_id other |>
  <| cfg_conference_ssrc := cfg_conference_ssrc other |>
  <| cfg_set_nortpproxy := cfg_set_nortpproxy other |>
  <| cfg_rtcp_mux := cfg_rtcp_mux other |>
  <| cfg_haveZrtpHash := cfg_haveZrtpHash other |>
  <| cfg_haveLimeIk := cfg_haveLimeIk other |>
  <| cfg_zrtphash := cfg_zrtphash other |>
  <| cfg_dtls_fingerprint := cfg_dtls_fingerprint other |>
  <| cfg_dtls_role := cfg_dtls_role other |>
  <| cfg_ttl := cfg_ttl other |>
  <| cfg_index := cfg_index other |>
  <| cfg_tcapIndex := cfg_tcapIndex other |>
  <| cfg_acapIndexes := cfg_acapIndexes other |>
  <| cfg_delete_media_attributes := cfg_delete_media_attributes other |>
  <| cfg_delete_session_attributes := cfg_delete_session_attributes other |>.

(** [operator=]. *)
Definition assign (this other : SalStreamConfiguration) : SalStreamConfiguration :=
  this
  <| cfg_proto := cfg_proto other |>
  <| cfg_proto_other := cfg_proto_other other |>
  <| cfg_rtp_ssrc := cfg_rtp_ssrc other |>
  <| cfg_rtcp_cname := cfg_rtcp_cname other |>
  <| cfg_payloads := cfg_payloads other |>
  <| cfg_ptime := cfg_ptime other |>
  <| cfg_maxptime := cfg_maxptime other |>
  <| cfg_dir := cfg_dir other |>
  <| cfg_crypto := cfg_crypto other |>
  <| cfg_max_rate := cfg_max_rate other |>
  <| cfg_bundle_only := cfg_bundle_only other |>
  <| cfg_implicit_rtcp_fb := cfg_implicit_rtcp_fb other |>
  <| cfg_rtcp_fb := cfg_rtcp_fb other |>
  <| cfg_rtcp_xr := cfg_rtcp_xr other |>
  <| cfg_mid := cfg_mid other |>
  <| cfg_mid_rtp_ext_header_id := cfg_mid_rtp_ext_header_id other |>
  <| cfg_mixer_to_client_extension_id := cfg_mixer_to_client_extension_id other |>
  <| cfg_client_to_mixer_extension_id := cfg_client_to_mixer_extension_id other |>
  <| cfg_frame_marking_extension_id := cfg_frame_marking_extension_id other |>
  <| cfg_conference_ssrc := cfg_conference_ssrc other |>
  <| cfg_set_nortpproxy := cfg_set_nortpproxy other |>
  <| cfg_rtcp_mux := cfg_rtcp_mux other |>
  <| cfg_haveZrtpHash := cfg_haveZrtpHash other |>
  <| cfg_haveLimeIk := cfg_haveLimeIk other |>
  <| cfg_zrtphash := cfg_zrtphash other |>
  <| cfg_dtls_fingerprint := cfg_dtls_fingerprint other |>
  <| cfg_dtls_role := cfg_dtls_role other |>
  <| cfg_ttl := cfg_ttl other |>
  <| cfg_index := cfg_index other |>
  <| cfg_tcapIndex := cfg_tcapIndex other |>
  <| cfg_acapIndexes := cfg_acapIndexes other |>
  <| cfg_delete_media_attributes := cfg_delete_media_attributes other |>
  <| cfg_delete_session_attributes := cfg_delete_session_attributes other |>.


(** ** Payload lists *)

Definition isRecvOnly (p : OrtpPayloadType) : bool :=
  has_flag PAYLOAD_TYPE_FLAG_CAN_RECV p && negb (has_flag PAYLOAD_TYPE_FLAG_CAN_SEND p).

Definition isSamePayloadType (p1 p2 : OrtpPayloadType) : bool :=
  if pt_kind p1 <>e pt_kind p2 then false
  else if mime_type p1 <>e mime_type p2 then false
  else if negb (clock_rate p1 =? clock_rate p2) then false
  else if negb (channels p1 =? channels p2) then false
  else if negb (number p1 =? number p2) then false
  else true.

(** Both lists are walked together; what is left of the first one may only be
    receive-only payload types. *)
Fixpoint isSamePayloadList (l1 l2 : list OrtpPayloadType) : bool :=
  match l1, l2 with
  | p1 :: l1', p2 :: l2' => if negb (isSamePayloadType p1 p2) then false else isSamePayloadList l1' l2'
  | _, [] => forallb isRecvOnly l1
  | [], _ :: _ => false
  end.

(** ** Comparison *)

Fixpoint equal_cryptos (l1 l2 : list SalSrtpCryptoAlgo) (result : Z) : Z :=
  match l1, l2 with
  | crypto1 :: l1', crypto2 :: l2' =>
      let result :=
        flag_if (negb (tag crypto1 =? tag crypto2) || negb (algo crypto1 =? algo crypto2))
          SAL_MEDIA_DESCRIPTION_CRYPTO_POLICY_CHANGED result in
      let result :=
        flag_if (negb (String.eqb (master_key crypto1) (master_key crypto2)))
          SAL_MEDIA_DESCRIPTION_CRYPTO_KEYS_CHANGED result in
      equal_cryptos l1' l2' result
  | _, _ => result
  end.

Definition equal (this other : SalStreamConfiguration) : Z :=
  let result := SAL_MEDIA_DESCRIPTION_UNCHANGED in
  let result := flag_if (cfg_proto this <>e cfg_proto other) SAL_MEDIA_DESCRIPTION_CODEC_CHANGED result in
  let result := equal_cryptos (cfg_crypto this) (cfg_crypto other) result in
  let thisCryptoSize := length (cfg_crypto this) in
  let otherCryptoSize := length (cfg_crypto other) in
  let result :=
    flag_if (negb (thisCryptoSize =? otherCryptoSize)%nat) SAL_MEDIA_DESCRIPTION_CRYPTO_POLICY_CHANGED result in
  let result :=
    flag_if (negb (thisCryptoSize =? otherCryptoSize)%nat) SAL_MEDIA_DESCRIPTION_CRYPTO_KEYS_CHANGED result in
  let result :=
    flag_if (((0 <? thisCryptoSize)%nat && (otherCryptoSize =? 0)%nat)
             || ((thisCryptoSize =? 0)%nat && (0 <? otherCryptoSize)%nat))
      SAL_MEDIA_DESCRIPTION_CRYPTO_TYPE_CHANGED result in
  let result :=
    flag_if (negb (isSamePayloadList (cfg_payloads this) (cfg_payloads other)))
      SAL_MEDIA_DESCRIPTION_CODEC_CHANGED result in
  let result :=
    flag_if (xorb (0 <? cfg_ptime this) (0 <? cfg_ptime other)) SAL_MEDIA_DESCRIPTION_PTIME_CHANGED result in
  let result :=
    flag_if ((0 <? cfg_ptime this) && (0 <? cfg_ptime other) && negb (cfg_ptime this =? cfg_ptime other))
      SAL_MEDIA_DESCRIPTION_PTIME_CHANGED result in
  let result := flag_if (cfg_dir this <>e cfg_dir other) SAL_MEDIA_DESCRIPTION_DIRECTION_CHANGED result in
  (* DTLS *)
  let result :=
    flag_if (cfg_dtls_role this <>e cfg_dtls_role other) SAL_MEDIA_DESCRIPTION_CRYPTO_KEYS_CHANGED result in
  let result :=
    flag_if (((cfg_dtls_role this =e SalDtlsRoleInvalid) && (cfg_dtls_role other <>e SalDtlsRoleInvalid))
             || ((cfg_dtls_role this <>e SalDtlsRoleInvalid) && (cfg_dtls_role other =e SalDtlsRoleInvalid)))
      SAL_MEDIA_DESCRIPTION_CRYPTO_TYPE_CHANGED result in
  let result :=
    flag_if (negb (String.eqb (cfg_dtls_fingerprint this) (cfg_dtls_fingerprint other)))
      SAL_MEDIA_DESCRIPTION_CRYPTO_KEYS_CHANGED result in
  (* ZRTP *)
  let result :=
    flag_if (negb (cfg_haveZrtpHash this =? cfg_haveZrtpHash other))
      SAL_MEDIA_DESCRIPTION_CRYPTO_KEYS_CHANGED result in
  let result :=
    flag_if (negb (cfg_haveZrtpHash this =? cfg_haveZrtpHash other))
      SAL_MEDIA_DESCRIPTION_CRYPTO_TYPE_CHANGED result in
  let result :=
    flag_if (negb (cfg_haveZrtpHash this =? 0) && negb (cfg_haveZrtpHash other =? 0)
             && negb (String.eqb (cfg_zrtphash this) (cfg_zrtphash other)))
      SAL_MEDIA_DESCRIPTION_CRYPTO_KEYS_CHANGED result in
  (* Extensions *)
  let result :=
    flag_if (negb (cfg_mixer_to_client_extension_id this =? cfg_mixer_to_client_extension_id other))
      SAL_MEDIA_DESCRIPTION_MIXER_TO_CLIENT_EXTENSION_CHANGED result in
  let result :=
    flag_if (negb (cfg_client_to_mixer_extension_id this =? cfg_client_to_mixer_extension_id other))
      SAL_MEDIA_DESCRIPTION_CLIENT_TO_MIXER_EXTENSION_CHANGED result in
  let result :=
    flag_if (negb (cfg_frame_marking_extension_id this =? cfg_frame_marking_extension_id other))
      SAL_MEDIA_DESCRIPTION_FRAME_MARKING_EXTENSION_CHANGED result in
  result.

(** [operator==] and [operator!=]. *)
Definition operator_eq (this other : SalStreamConfiguration) : bool :=
  equal this other =? SAL_MEDIA_DESCRIPTION_UNCHANGED.
Definition operator_neq (this other : SalStreamConfiguration) : bool := negb (operator_eq this other).

(** ** State changes *)

Definition disable (this : SalStreamConfiguration) : SalStreamConfiguration :=
  this <| cfg_mid := EmptyString |> <| cfg_bundle_only := false |> <| cfg_dir := SalStreamInactive |>.

Definition enableAvpfForStream (this : SalStreamConfiguration) : SalStreamConfiguration :=
  this <| cfg_payloads := map (payload_type_set_flag {[PAYLOAD_TYPE_RTCP_FEEDBACK_ENABLED]}) (cfg_payloads this) |>.

Definition disableAvpfForStream (this : SalStreamConfiguration) : SalStreamConfiguration :=
  this <| cfg_payloads := map (payload_type_unset_flag {[PAYLOAD_TYPE_RTCP_FEEDBACK_ENABLED]}) (cfg_payloads this) |>.

Definition replacePayloads (this : SalStreamConfiguration) (newPayloads : list OrtpPayloadType) : SalStreamConfiguration :=
  this <| cfg_payloads := newPayloads |>.

(** ** Classification by transport protocol *)

Definition hasAvpf (this : SalStreamConfiguration) : bool :=
  match cfg_proto this with
  | SalProtoRtpAvpf | SalProtoRtpSavpf | SalProtoUdpTlsRtpSavpf => true
  | SalProtoRtpAvp | SalProtoRtpSavp | SalProtoUdpTlsRtpSavp | SalProtoOther => false
  end.

Definition hasImplicitAvpf (this : SalStreamConfiguration) : bool := cfg_implicit_rtcp_fb this.

Definition hasSrtp (this : SalStreamConfiguration) : bool :=
  match cfg_proto this with
  | SalProtoRtpSavp | SalProtoRtpSavpf => true
  | SalProtoRtpAvp | SalProtoRtpAvpf | SalProtoUdpTlsRtpSavpf | SalProtoUdpTlsRtpSavp | SalProtoOther => false
  end.

Definition hasDtls (this : SalStreamConfiguration) : bool :=
  match cfg_proto this with
  | SalProtoUdpTlsRtpSavpf | SalProtoUdpTlsRtpSavp => true
  | SalProtoRtpSavp | SalProtoRtpSavpf | SalProtoRtpAvp | SalProtoRtpAvpf | SalProtoOther => false
  end.

Definition hasZrtpHash (this : SalStreamConfiguration) : bool := cfg_haveZrtpHash this =? 1.

Definition hasZrtp (this : SalStreamConfiguration) : bool :=
  if cfg_haveZrtpHash this =? 1 then
    match cfg_proto this with
    | SalProtoRtpAvp | SalProtoRtpAvpf => true
    | SalProtoUdpTlsRtpSavpf | SalProtoUdpTlsRtpSavp | SalProtoRtpSavp | SalProtoRtpSavpf | SalProtoOther => false
    end
  else false.

Definition hasLimeIk (this : SalStreamConfiguration) : bool :=
  if cfg_haveLimeIk this =? 1 then true else false.

Definition getProtoAsString (this : SalStreamConfiguration) : string :=
  if cfg_proto this =e SalProtoOther then cfg_proto_other this
  else sal_media_proto_to_string (cfg_proto this).

(** ** Capability negotiation *)

Definition mergeAcaps (this : SalStreamConfiguration) (acaps : list (list Z)) : SalStreamConfiguration :=
  this <| cfg_acapIndexes :=
    fold_left (fun acapIndexes newIdxs =>
      let found := fold_left (fun found idxs => found || (idxs =e newIdxs)) acapIndexes false in
      if negb found then acapIndexes ++ [newIdxs] else acapIndexes)
      acaps (cfg_acapIndexes this) |>.

(** The inner loop of [getSdpString]: the members of a set of attribute
    capabilities, after the first one separated by commas. *)
Definition acapSet_to_string (firstAcapIdx : Z) (acapSet : list Z) (acapString : string) : string :=
  fold_left (fun acapString acapIdx =>
    let acapString := if negb (acapIdx =? firstAcapIdx) then acapString +:+ "," else acapString in
    if negb (acapIdx =? 0) then acapString +:+ to_dec acapIdx else acapString)
    acapSet acapString.

Definition acapIndexes_to_string (acapIndexes : list (list Z)) : string :=
  fold_left (fun acapString acapSet =>
    let acapString := if negb (str_empty acapString) then acapString +:+ "|" else acapString in
    acapSet_to_string (List.hd 0 acapSet) acapSet acapString)
    acapIndexes EmptyString.

Definition getSdpString (this : SalStreamConfiguration) : string :=
  let acapString := acapIndexes_to_string (cfg_acapIndexes this) in
  let tcapString := if negb (cfg_tcapIndex this =? 0) then to_dec (cfg_tcapIndex this) else EmptyString in
  let deleteAttrs :=
    if cfg_delete_media_attributes this && cfg_delete_session_attributes this then "-ms"
    else if cfg_delete_session_attributes this then "-s"
    else if cfg_delete_media_attributes this then "-m"
    else EmptyString in
  let sdpString :=
    if negb (str_empty deleteAttrs) && negb (str_empty acapString)
    then "a=" +:+ deleteAttrs +:+ ":" +:+ acapString
    else if negb (str_empty deleteAttrs) then "a=" +:+ deleteAttrs
    else if negb (str_empty acapString) then "a=" +:+ acapString
    else EmptyString in
  if negb (str_empty tcapString) then
    (if negb (str_empty sdpString) then sdpString +:+ " " else sdpString) +:+ "t=" +:+ tcapString
  else sdpString.

(** ** DTLS and SRTP attributes *)

Definition getSetupAttributeForDtlsRole (role : SalDtlsRole) : string :=
  match role with
  | SalDtlsRoleIsClient => "active"
  | SalDtlsRoleIsServer => "passive"
  | SalDtlsRoleInvalid => EmptyString
  | SalDtlsRoleUnset => "actpass"
  end.

Definition getDtlsRoleFromSetupAttribute (setupAttr : string) : SalDtlsRole :=
  if String.eqb setupAttr "actpass" then SalDtlsRoleUnset
  else if String.eqb setupAttr "active" then SalDtlsRoleIsClient
  else if String.eqb setupAttr "passive" then SalDtlsRoleIsServer
  else SalDtlsRoleInvalid.

Section Crypto.
Context {lib : MediaLib}.

(** A default constructed [SalSrtpCryptoAlgo]. *)
Definition empty_crypto : SalSrtpCryptoAlgo := mkCrypto 0 MS_CRYPTO_SUITE_INVALID EmptyString.

Definition cryptoToSdpValue (crypto : SalSrtpCryptoAlgo) : string :=
  match ms_crypto_suite_to_name_params (algo crypto) with
  | Some (desc_name, desc_params) =>
      let sdpValue :=
        to_dec (tag crypto) +:+ " " +:+ desc_name +:+ " inline:" +:+ master_key crypto in
      match desc_params with
      | Some p => (sdpValue +:+ " ") +:+ p
      | None => sdpValue
      end
  | None => EmptyString
  end.

(** The class [[A-Z_ ]] of the last conversion. *)
Definition crypto_param_char (c : ascii) : bool :=
  is_upper c || Ascii.eqb c "_" || Ascii.eqb c " ".

(** [sscanf(value, "%u %256s inline:%128s %256[A-Z_ ]", ...)]: tag, name, key
    and parameters when at least three conversions succeed. *)
Definition scan_crypto (value : string) : option (Z * string * string * string) :=
  match scan_uint value with
  | None => None
  | Some (t, s) =>
      match scan_word 256 s with
      | None => None
      | Some (name, s) =>
          match scan_lit "inline:" (scan_ws s) with
          | None => None
          | Some s =>
              match scan_word 128 s with
              | None => None
              | Some (key, s) =>
                  match scan_class crypto_param_char 256 (scan_ws s) with
                  | None => Some (t, name, key, EmptyString)
                  | Some (params, _) => Some (t, name, key, params)
                  end
              end
          end
      end
  end.

Definition fillStrpCryptoAlgoFromString (value : string) : SalSrtpCryptoAlgo :=
  let keyEnc := empty_crypto in
  match scan_crypto value with
  | Some (t, name, masterKey, parameters) =>
      let cs := ms_crypto_suite_build_from_name_params name
                  (if negb (str_empty parameters) then Some parameters else None) in
      let keyEnc := keyEnc <| algo := cs |> in
      if cs =? MS_CRYPTO_SUITE_INVALID then keyEnc
      else keyEnc <| tag := t |>
             <| master_key := fst (str_span (fun c => negb (Ascii.eqb c "|")) masterKey) |>
  | None => keyEnc
  end.
End Crypto.

(** ** Lemmas *)

Lemma copy_construct_eq other : copy_construct other = other.
Proof. by destruct other. Qed.

Lemma assign_eq this other : assign this other = other.
Proof. by destruct other. Qed.

Lemma isSamePayloadType_true p1 p2 :
  isSamePayloadType p1 p2 = true <->
  pt_kind p1 = pt_kind p2 /\ mime_type p1 = mime_type p2 /\ clock_rate p1 = clock_rate p2 /\
  channels p1 = channels p2 /\ number p1 = number p2.
Proof.
  unfold isSamePayloadType.
  repeat match goal with
  | |- context [bool_decide ?P] => destruct (bool_decide_reflect P); simpl; [|split; [done|tauto]]
  | |- context [?x =? ?y] => destruct (Z.eqb_spec x y); simpl; [|split; [done|tauto]]
  end.
  tauto.
Qed.

Lemma isSamePayloadList_true l1 l2 :
  isSamePayloadList l1 l2 = true <->
  exists l r, l1 = l ++ r /\ Forall2 (fun p1 p2 => isSamePayloadType p1 p2 = true) l l2 /\
              Forall (fun p => isRecvOnly p = true) r.
Proof.
  revert l2. induction l1 as [|p1 l1 IH]; intros [|p2 l2]; cbn [isSamePayloadList].
  - split; [|done]. exists [], []. auto.
  - split; [done|]. intros (l & r & H & H2 & _).
    symmetry in H. apply List.app_eq_nil in H as [-> ->]. inversion H2.
  - rewrite forallb_forall, <- List.Forall_forall. split.
    + intros H. exists [], (p1 :: l1). repeat split; [constructor|done].
    + intros (l & r & -> & H2 & Hr). inversion H2; subst. exact Hr.
  - destruct (isSamePayloadType p1 p2) eqn:E; simpl; [rewrite IH|].
    + split.
      * intros (l & r & -> & H2 & Hr). exists (p1 :: l), r. auto.
      * intros (l & r & H & H2 & Hr). inversion H2; subst. simpl in H. injection H as -> ->. eauto.
    + split; [done|]. intros (l & r & H & H2 & Hr). inversion H2; subst.
      simpl in H. injection H as -> ->. congruence.
Qed.

Lemma isSamePayloadList_refl l : isSamePayloadList l l = true.
Proof.
  apply isSamePayloadList_true. exists l, []. rewrite app_nil_r.
  repeat split; [|constructor]. induction l; constructor; [|done]. by apply isSamePayloadType_true.
Qed.

Lemma equal_cryptos_zero l1 l2 result :
  length l1 = length l2 -> equal_cryptos l1 l2 result = 0 <-> l1 = l2 /\ result = 0.
Proof.
  revert l2 result. induction l1 as [|c1 l1 IH]; intros [|c2 l2] result; simpl; try done; [tauto|].
  intros [= Hlen]. rewrite IH by done. rewrite !flag_if_zero by done.
  rewrite orb_false_iff, !negb_false_iff, !Z.eqb_eq, String.eqb_eq.
  destruct c1, c2; simpl. intuition congruence.
Qed.

(** What two configurations that compare equal share. *)
Definition same_configuration (a b : SalStreamConfiguration) : Prop :=
  cfg_proto a = cfg_proto b /\
  cfg_crypto a = cfg_crypto b /\
  (exists l r, cfg_payloads a = l ++ r /\
     Forall2 (fun p1 p2 => isSamePayloadType p1 p2 = true) l (cfg_payloads b) /\
     Forall (fun p => isRecvOnly p = true) r) /\
  Z.max 0 (cfg_ptime a) = Z.max 0 (cfg_ptime b) /\
  cfg_dir a = cfg_dir b /\
  cfg_dtls_role a = cfg_dtls_role b /\
  cfg_dtls_fingerprint a = cfg_dtls_fingerprint b /\
  cfg_haveZrtpHash a = cfg_haveZrtpHash b /\
  (cfg_haveZrtpHash a <> 0 -> cfg_zrtphash a = cfg_zrtphash b) /\
  cfg_mixer_to_client_extension_id a = cfg_mixer_to_client_extension_id b /\
  cfg_client_to_mixer_extension_id a = cfg_client_to_mixer_extension_id b /\
  cfg_frame_marking_extension_id a = cfg_frame_marking_extension_id b.

Lemma ptime_unchanged x y :
  xorb (0 <? x) (0 <? y) = false /\ (0 <? x) && (0 <? y) && negb (x =? y) = false <->
  Z.max 0 x = Z.max 0 y.
Proof.
  destruct (Z.ltb_spec 0 x), (Z.ltb_spec 0 y); simpl; try (split; [intros [? ?]; done|lia]).
  - rewrite negb_false_iff, Z.eqb_eq. split; [intros [_ ->]; done|]. intros. split; [done|lia].
  - split; [intros; lia|done].
Qed.

(** The conditions of [equal] under which a bit is set, none of which holds
    exactly when the two configurations agree. *)
Lemma negb_bool_decide_false (P : Prop) `{Decision P} : negb (bool_decide P) = false <-> P.
Proof. rewrite negb_false_iff. apply bool_decide_eq_true. Qed.

Lemma zrtphash_unchanged h k s t :
  negb (h =? 0) && negb (k =? 0) && negb (String.eqb s t) = false /\ negb (h =? k) = false <->
  h = k /\ (h <> 0 -> s = t).
Proof.
  destruct (Z.eqb_spec h 0), (Z.eqb_spec k 0), (String.eqb_spec s t), (Z.eqb_spec h k);
    simpl; intuition congruence.
Qed.

Lemma presence_unchanged n m :
  ((0 <? n)%nat && (m =? 0)%nat) || ((n =? 0)%nat && (0 <? m)%nat) = false <-> (n = 0 <-> m = 0)%nat.
Proof. destruct n, m; simpl; split; intros; try done; lia. Qed.

Lemma dtls_presence_unchanged (r r' : SalDtlsRole) :
  r = r' ->
  ((r =e SalDtlsRoleInvalid) && (r' <>e SalDtlsRoleInvalid)) ||
  ((r <>e SalDtlsRoleInvalid) && (r' =e SalDtlsRoleInvalid)) = false.
Proof. by intros ->; destruct r'. Qed.

Lemma operator_eq_spec a b : operator_eq a b = true <-> same_configuration a b.
Proof.
  unfold operator_eq, same_configuration, SAL_MEDIA_DESCRIPTION_UNCHANGED. rewrite Z.eqb_eq.
  rewrite <- isSamePayloadList_true, <- ptime_unchanged.
  unfold equal. rewrite !flag_if_zero by done.
  destruct (decide (length (cfg_crypto a) = length (cfg_crypto b))) as [Hlen|Hlen].
  - rewrite equal_cryptos_zero, flag_if_zero by done. rewrite presence_unchanged.
    pose proof (zrtphash_unchanged (cfg_haveZrtpHash a) (cfg_haveZrtpHash b) (cfg_zrtphash a) (cfg_zrtphash b)).
    pose proof (dtls_presence_unchanged (cfg_dtls_role a) (cfg_dtls_role b)).
    rewrite !negb_bool_decide_false.
    rewrite !(negb_false_iff (_ =? _)), !(negb_false_iff (String.eqb _ _)), !(negb_false_iff (_ =? _)%nat),
      !(negb_false_iff (isSamePayloadList _ _)) in *.
    rewrite Hlen, Nat.eqb_refl, !Z.eqb_eq, !String.eqb_eq in *.
    unfold SAL_MEDIA_DESCRIPTION_UNCHANGED. tauto.
  - apply Nat.eqb_neq in Hlen as Hb. rewrite Hb. simpl. split; [intuition congruence|].
    intros (_ & Hc & _). by rewrite Hc in Hlen.
Qed.

Lemma operator_eq_refl a : operator_eq a a = true.
Proof.
  apply operator_eq_spec. unfold same_configuration. repeat split; try done.
  apply isSamePayloadList_true, isSamePayloadList_refl.
Qed.

#[export] Hint Resolve operator_eq_refl isSamePayloadList_refl : sal.
