(* ===== verification/ReferenceLib.v ===== *)
(** A concrete instance of the library parameters, on which hypotheses about
    them are shown to hold and the model is run on examples.  The providers are
    the ones liblinphone registers; the other functions are small total
    functions that satisfy what the model asks of the libraries. *)
From S2P Require Import Prelude SalTypes Payload SalStreamConfiguration.

Definition ref_append_send_fmtp (pt : OrtpPayloadType) (s : string) : OrtpPayloadType :=
  pt <| send_fmtp := (match send_fmtp pt with Some f => Some (f +:+ ";" +:+ s) | None => Some s end) |>.

Definition ref_crypto_names : list (Z * (string * option string)) :=
  [(1, ("AES_CM_128_HMAC_SHA1_80", None)); (2, ("AES_CM_128_HMAC_SHA1_32", None));
   (3, ("AES_256_CM_HMAC_SHA1_80", Some "UNENCRYPTED_SRTP"))].

Definition ref_suite_of (name : string) (params : option string) : Z :=
  match List.find (fun p => String.eqb (fst (snd p)) name && bool_decide (snd (snd p) = params)) ref_crypto_names with
  | Some p => fst p
  | None => 0
  end.

(** The parameters without the provider registry. *)
Definition ref_lib_with (providers : list (string * match_payload_fn)) : MediaLib := {|
  payload_type_append_send_fmtp := ref_append_send_fmtp;
  payload_type_t140_red_mime := "red";
  payload_type_t140_mime := "t140";
  ms_is_multicast := fun addr => String.prefix "224." addr;
  belle_sdp_get_attribute := fun l name => List.find (fun a => strcasecmp_eq (fst a) name) l;
  ms_factory_create_offer_answer_context := fun m =>
    option_map snd (List.find (fun p => strcasecmp_eq (fst p) m) providers);
  MS_CRYPTO_SUITE_INVALID := 0;
  ms_crypto_suite_to_name_params := fun cs =>
    option_map snd (List.find (fun p => fst p =? cs) ref_crypto_names);
  ms_crypto_suite_build_from_name_params := ref_suite_of
|}.

Definition ref_lib : MediaLib := ref_lib_with (@registered_offer_answer_providers (ref_lib_with [])).

Lemma ref_lib_spec : MediaLibSpec ref_lib.
Proof. split. intros pt s. by destruct pt. Defined.

Lemma ref_providers_sound m f :
  @ms_factory_create_offer_answer_context ref_lib m = Some f -> matcher_sound f.
Proof.
  cbn [ms_factory_create_offer_answer_context ref_lib ref_lib_with].
  destruct (List.find _ _) as [[m' f']|] eqn:E; [|done]. intros [= <-].
  apply List.find_some in E as [E _]. by apply (registered_providers_sound (lib := ref_lib_with []) m').
Defined.

(** A payload type of the examples. *)
Definition ref_pt (m : string) (rate num : Z) : OrtpPayloadType := {|
  pt_kind := PAYLOAD_AUDIO_CONTINUOUS; mime_type := Some m; clock_rate := rate; channels := 1;
  normal_bitrate := 64000; recv_fmtp := None; send_fmtp := None; avpf := mkAvpf 0 false 0;
  flags := ∅; number := num |}.
