(* ===== verification/PayloadTypeHandler.v ===== *)
(** The codecs of a stream: [PayloadTypeHandler]
    ([src/src/utils/payload-type-handler.h] and [.cpp]).  It selects the codecs
    that fit the bandwidth, adds telephone events, comfort noise and error
    correction, and gives every payload type its number. *)
From Stdlib Require Import QArith Qround.
From S2P Require Import Prelude SalTypes Payload.
#[local] Open Scope Z_scope.

(** The payload types oRTP defines and the handler clones, and the names of two
    others. *)
Class OrtpPayloadTypes := {
  payload_type_telephone_event : OrtpPayloadType;
  payload_type_cn : OrtpPayloadType;
  payload_type_flexfec : OrtpPayloadType;
  payload_type_aaceld_44k_mime : string;
  payload_type_ilbc_mime : string
}.

(** What the handler reads of the core. *)
Record CoreCodecs := mkCoreCodecs {
  dyn_pt : Z;
  audio_codecs : list OrtpPayloadType;
  video_codecs : list OrtpPayloadType;
  text_codecs : list OrtpPayloadType;
  use_rfc2833_for_dtmf : bool;
  generic_comfort_noise_enabled : bool;
  fec_enabled : bool;
  telephone_event_pt : Z;
  download_bandwidth : Z;
  upload_bandwidth : Z
}.

(** ** Bandwidths: a value that is not positive means no limit *)

Definition bandwidthIsGreater (bandwidth1 bandwidth2 : Z) : bool :=
  if bandwidth1 <=? 0 then true
  else if bandwidth2 <=? 0 then false
  else bandwidth2 <=? bandwidth1.

Definition getMinBandwidth (downBandwidth upBandwidth : Z) : Z :=
  if downBandwidth <=? 0 then upBandwidth
  else if upBandwidth <=? 0 then downBandwidth
  else Z.min downBandwidth upBandwidth.

Definition getRemainingBandwidthForVideo (total audio : Z) : Z :=
  let remaining := total - audio - 10 in
  if remaining <? 0 then 0 else remaining.

Record VbrCodecBitrate := mkVbr { maxAvailableBitrate : Z; minClockRate : Z; recommendedBitrate : Z }.
Definition defaultVbrCodecBitrates : list VbrCodecBitrate :=
  [mkVbr 64 44100 50; mkVbr 64 16000 40; mkVbr 32 16000 32; mkVbr 32 8000 32; mkVbr 0 8000 24; mkVbr 0 0 0].

(** The loop stops at the entry whose clock rate is 0. *)
Fixpoint vbr_loop (table : list VbrCodecBitrate) (maxBandwidth clockRate : Z) : Z :=
  match table with
  | [] => 32
  | it :: rest =>
      if minClockRate it =? 0 then 32
      else if (maxAvailableBitrate it <=? maxBandwidth) && (minClockRate it <=? clockRate)
      then recommendedBitrate it
      else vbr_loop rest maxBandwidth clockRate
  end.
Definition lookupTypicalVbrBitrate (maxBandwidth clockRate : Z) : Z :=
  let maxBandwidth := if maxBandwidth <=? 0 then 64 else maxBandwidth in
  vbr_loop defaultVbrCodecBitrates maxBandwidth clockRate.

Definition udpHeaderSize : Z := 8.
Definition rtpHeaderSize : Z := 12.
Definition ipv4HeaderSize : Z := 20.

Section Handler.
Context {lib : MediaLib} {ortp : OrtpPayloadTypes} (core : CoreCodecs).

Definition mime_eq (m : string) (pt : OrtpPayloadType) : bool :=
  match mime_type pt with
  | Some m' => String.eqb m' m
  | None => false
  end.

(** The [double] of the source is a rational here.  Its only use is rounded up
    to a whole number of kbit/s; the rational [bitrate + 320 * npacket] is a
    multiple of 1000 only for bitrates on which every operation of the source is
    exact, so that the rounding is the same. *)
Definition getAudioPayloadTypeBandwidthFromCodecBitrate (pt : OrtpPayloadType) : Q :=
  let npacket : Q :=
    if mime_eq payload_type_aaceld_44k_mime pt then 100%Q
    else if mime_eq payload_type_ilbc_mime pt then (1000 / 30)%Q
    else 50%Q in
  let packet_size : Q :=
    (inject_Z (normal_bitrate pt) / (npacket * 8) + inject_Z (udpHeaderSize + rtpHeaderSize + ipv4HeaderSize))%Q in
  (packet_size * 8 * npacket)%Q.

Definition getAudioPayloadTypeBandwidth (pt : OrtpPayloadType) (maxBandwidth : Z) : Z :=
  if has_flag PAYLOAD_TYPE_VBR pt then
    if has_flag PAYLOAD_TYPE_BITRATE_OVERRIDE pt then Z.quot (normal_bitrate pt) 1000
    else lookupTypicalVbrBitrate maxBandwidth (clock_rate pt)
  else Qceiling (getAudioPayloadTypeBandwidthFromCodecBitrate pt / 1000)%Q.

Definition getVideoPayloadTypeBandwidth (pt : OrtpPayloadType) (maxBandwidth : Z) : Z :=
  if has_flag PAYLOAD_TYPE_BITRATE_OVERRIDE pt
  then getMinBandwidth maxBandwidth (Z.quot (normal_bitrate pt) 1000)
  else maxBandwidth.

Definition isPayloadTypeUsableForBandwidth (pt : OrtpPayloadType) (bandwidthLimit : Z) : bool :=
  let videoEnablementLimit := 99 in
  match pt_kind pt with
  | PAYLOAD_AUDIO_CONTINUOUS | PAYLOAD_AUDIO_PACKETIZED =>
      bandwidthIsGreater bandwidthLimit (getAudioPayloadTypeBandwidth pt bandwidthLimit)
  | PAYLOAD_VIDEO => (bandwidthLimit <=? 0) || (videoEnablementLimit <=? bandwidthLimit)
  | PAYLOAD_TEXT => true
  | PAYLOAD_OTHER => false
  end.

Definition isPayloadTypeUsable (pt : OrtpPayloadType) : bool :=
  isPayloadTypeUsableForBandwidth pt (getMinBandwidth (download_bandwidth core) (upload_bandwidth core)).

Definition getMaxCodecSampleRate (codecs : list OrtpPayloadType) : Z :=
  fold_left (fun maxSampleRate pt =>
    let sampleRate := if mime_is "G722" pt then 16000 else clock_rate pt in
    if maxSampleRate <? sampleRate then sampleRate else maxSampleRate) codecs 0.

(** ** Numbers *)

Definition same_codec_as (pt it : OrtpPayloadType) : bool :=
  match mime_type pt, mime_type it with
  | Some m, Some m' =>
      strcasecmp_eq m m' && (clock_rate it =? clock_rate pt)
      && ((channels it =? channels pt) || (channels pt <=? 0))
  | _, _ => false
  end.
Definition same_fmtp (pt it : OrtpPayloadType) : bool :=
  match recv_fmtp it, recv_fmtp pt with
  | Some f, Some f' => strcasecmp_eq f f'
  | None, None => true
  | _, _ => false
  end.

(** The loop with its [break] on an exact match; otherwise the last candidate. *)
Fixpoint find_number_loop (assigned : list OrtpPayloadType) (pt : OrtpPayloadType)
    (candidate : option OrtpPayloadType) : option OrtpPayloadType :=
  match assigned with
  | [] => candidate
  | it :: rest =>
      if same_codec_as pt it
      then if same_fmtp pt it then Some it else find_number_loop rest pt (Some it)
      else find_number_loop rest pt candidate
  end.
Definition findPayloadTypeNumber (assigned : list OrtpPayloadType) (pt : OrtpPayloadType) : Z :=
  match find_number_loop assigned pt None with
  | Some candidate => number candidate
  | None => -1
  end.

(** [ignore] points into [codecs]: it is a position of the list. *)
Definition isPayloadTypeNumberAvailable (codecs : list OrtpPayloadType) (num : Z) (ignore : option nat) : bool :=
  forallb (fun '(i, pt) => bool_decide (Some i = ignore) || negb (number pt =? num))
    (combine (seq 0 (length codecs)) codecs).

(** The [while] loop on the dynamic numbers up to 127; its fuel is the distance
    to 127.  The result is the number taken and the value of [dynNumber] after
    the loop. *)
Fixpoint search_dynamic (fuel : nat) (codecs : list OrtpPayloadType) (dynNumber : Z) : option Z * Z :=
  match fuel with
  | O => (None, dynNumber)
  | S fuel' =>
      if isPayloadTypeNumberAvailable codecs dynNumber None then (Some dynNumber, dynNumber + 1)
      else search_dynamic fuel' codecs (dynNumber + 1)
  end.

(** One turn of the loop of [assignPayloadTypeNumbers], on the payload type at
    position [i]; the payload types are shared objects, so that the turn sees
    the numbers the former ones gave. *)
Definition assign_number (previousList : list OrtpPayloadType) (codecs : list OrtpPayloadType) (i : nat)
    : list OrtpPayloadType :=
  match codecs !! i with
  | None => codecs
  | Some pt =>
      let num := findPayloadTypeNumber previousList pt in
      let '(pt, num) :=
        if negb (num =? -1)
        then (payload_type_set_flag {[PAYLOAD_TYPE_FROZEN_NUMBER]} (pt <| number := num |>), num)
        else (pt, number pt) in
      let codecs := <[i := pt]> codecs in
      let num :=
        if negb (num =? -1) && negb (has_flag PAYLOAD_TYPE_FROZEN_NUMBER pt)
        then if negb (isPayloadTypeNumberAvailable codecs num (Some i)) then -1 else num
        else num in
      if num =? -1 then
        let '(taken, dynNumber) := search_dynamic (Z.to_nat (127 - dyn_pt core)) codecs (dyn_pt core) in
        let pt := match taken with Some n => pt <| number := n |> | None => pt end in
        let pt := if dynNumber =? 127 then payload_type_unset_flag {[PAYLOAD_TYPE_ENABLED]} pt else pt in
        <[i := pt]> codecs
      else codecs
  end.

(** The position of the last payload type that satisfies [p]. *)
Definition last_position (p : OrtpPayloadType -> bool) (codecs : list OrtpPayloadType) : option nat :=
  fold_left (fun found '(i, pt) => if p pt then Some i else found) (combine (seq 0 (length codecs)) codecs) None.

(** RED sends T.140 three times: its parameters name the number of T.140. *)
Definition set_red_fmtp (codecs : list OrtpPayloadType) : list OrtpPayloadType :=
  let is_red := mime_eq payload_type_t140_red_mime in
  let red := last_position is_red codecs in
  let t140 := last_position (fun pt => negb (is_red pt) && mime_eq payload_type_t140_mime pt) codecs in
  match t140 ≫= (fun i => codecs !! i), red with
  | Some t140, Some r => alter (fun pt => pt <| recv_fmtp := Some (red_fmtp (number t140)) |>) r codecs
  | _, _ => codecs
  end.

Definition assignPayloadTypeNumbers (codecs previousList : list OrtpPayloadType) : list OrtpPayloadType :=
  set_red_fmtp (fold_left (assign_number previousList) (seq 0 (length codecs)) codecs).

(** ** The list of codecs of a stream *)

Definition hasTelephoneEventPayloadType (tev : list OrtpPayloadType) (rate : Z) : bool :=
  existsb (fun pt => clock_rate pt =? rate) tev.

Definition createTelephoneEventPayloadTypes (codecs : list OrtpPayloadType) : list OrtpPayloadType :=
  fold_left (fun result pt =>
    if hasTelephoneEventPayloadType result (clock_rate pt) then result
    else
      let tev := payload_type_telephone_event <| clock_rate := clock_rate pt |> in
      let tev :=
        match result with
        | [] =>
            if isPayloadTypeNumberAvailable codecs (telephone_event_pt core) None
            then tev <| number := telephone_event_pt core |> else tev <| number := -1 |>
        | _ => tev <| number := -1 |>
        end in
      result ++ [tev]) codecs [].

Definition createSpecialPayloadTypes (codecs : list OrtpPayloadType) : list OrtpPayloadType :=
  let result := if use_rfc2833_for_dtmf core then createTelephoneEventPayloadTypes codecs else [] in
  if generic_comfort_noise_enabled core then result ++ [payload_type_cn <| number := 13 |>] else result.

Definition createFecPayloadType : OrtpPayloadType := payload_type_flexfec <| number := -1 |>.

(** The loop on the codecs of the core, with the [break] at [maxCodecs]. *)
Fixpoint select_codecs (allCodecs : list OrtpPayloadType) (bandwidthLimit maxCodecs nb : Z)
    (result : list OrtpPayloadType) : list OrtpPayloadType :=
  match allCodecs with
  | [] => result
  | pt :: rest =>
      if negb (has_flag PAYLOAD_TYPE_ENABLED pt) then select_codecs rest bandwidthLimit maxCodecs nb result
      else if (0 <? bandwidthLimit) && negb (isPayloadTypeUsableForBandwidth pt bandwidthLimit)
      then select_codecs rest bandwidthLimit maxCodecs nb result
      else if negb (isPayloadTypeUsable pt) then select_codecs rest bandwidthLimit maxCodecs nb result
      else
        let result := result ++ [pt] in
        let nb := nb + 1 in
        if (0 <? maxCodecs) && (maxCodecs <=? nb) then result
        else select_codecs rest bandwidthLimit maxCodecs nb result
  end.

Definition makeCodecsList (type : SalStreamType) (bandwidthLimit maxCodecs : Z)
    (previousList : list OrtpPayloadType) (bundle_enabled : bool) : list OrtpPayloadType :=
  let allCodecs :=
    match type with
    | SalVideo => video_codecs core
    | SalText => text_codecs core
    | SalAudio | SalOther => audio_codecs core
    end in
  let result := select_codecs allCodecs bandwidthLimit maxCodecs 0 [] in
  let result := if type =e SalAudio then result ++ createSpecialPayloadTypes result else result in
  let result :=
    if (type =e SalVideo) && bundle_enabled && fec_enabled core then result ++ [createFecPayloadType] else result in
  assignPayloadTypeNumbers result previousList.
End Handler.
