(* ===== verification/PayloadTypeHandlerProps.v ===== *)
(** What [PayloadTypeHandler] promises: distinct payload type numbers, stable
    across a renegotiation, one telephone event per clock rate, and bandwidth
    limits that only ever remove codecs. *)
From S2P Require Import Prelude SalTypes Payload ReferenceLib PayloadTypeHandler.

(** ** Numbers *)

Lemma combine_seq_lookup {A} (l : list A) k i x :
  In (i, x) (combine (seq k (length l)) l) <-> (k <= i)%nat /\ l !! (i - k)%nat = Some x.
Proof.
  revert k. induction l as [|y l IH]; intros k; simpl; [split; [done|by intros [_ ?]]|].
  rewrite IH. split.
  - intros [[= <- <-]|[Hk Hl]]; [split; [lia|by rewrite Nat.sub_diag]|].
    split; [lia|]. by replace (i - k)%nat with (S (i - S k)) by lia.
  - intros [Hk Hl]. destruct (decide (i = k)) as [->|Hn].
    + left. rewrite Nat.sub_diag in Hl. simpl in Hl. congruence.
    + right. split; [lia|]. by replace (i - k)%nat with (S (i - S k)) in Hl by lia.
Qed.

Lemma available_iff codecs num ignore :
  isPayloadTypeNumberAvailable codecs num ignore = true <->
  forall j pt, codecs !! j = Some pt -> Some j <> ignore -> number pt <> num.
Proof.
  unfold isPayloadTypeNumberAvailable. rewrite forallb_forall. split.
  - intros H j pt Hj Hn. specialize (H (j, pt)). rewrite combine_seq_lookup, Nat.sub_0_r in H.
    specialize (H (conj (Nat.le_0_l j) Hj)). apply orb_true_iff in H as [H|H].
    + by apply bool_decide_eq_true in H.
    + by apply negb_true_iff, Z.eqb_neq in H.
  - intros H [j pt] [_ Hj]%combine_seq_lookup. rewrite Nat.sub_0_r in Hj. apply orb_true_iff.
    destruct (decide (Some j = ignore)) as [He|He]; [left; by apply bool_decide_eq_true|right].
    apply negb_true_iff, Z.eqb_neq. by eapply H.
Qed.

Lemma search_dynamic_spec fuel codecs d :
  match search_dynamic fuel codecs d with
  | (Some n, d') => d <= n < d + Z.of_nat fuel /\ d' = n + 1 /\
      isPayloadTypeNumberAvailable codecs n None = true /\
      (forall m, d <= m < n -> isPayloadTypeNumberAvailable codecs m None = false)
  | (None, d') => d' = d + Z.of_nat fuel /\
      forall m, d <= m < d' -> isPayloadTypeNumberAvailable codecs m None = false
  end.
Proof.
  revert d. induction fuel as [|fuel IH]; intros d; cbn [search_dynamic]; [split; [lia|intros; lia]|].
  destruct (isPayloadTypeNumberAvailable codecs d None) eqn:E.
  { split; [lia|]. split; [done|]. split; [done|]. intros; lia. }
  specialize (IH (d + 1)). destruct (search_dynamic fuel codecs (d + 1)) as [[n|] d'].
  - destruct IH as (? & -> & ? & Hm). split; [lia|]. split; [done|]. split; [done|].
    intros m Hr. destruct (decide (m = d)) as [->|]; [done|]. apply Hm. lia.
  - destruct IH as (-> & Hm). split; [lia|]. intros m Hr. destruct (decide (m = d)) as [->|]; [done|].
    apply Hm. lia.
Qed.

Lemma not_available_In codecs num :
  isPayloadTypeNumberAvailable codecs num None = false -> In num (map number codecs).
Proof.
  intros H. destruct (in_dec Z.eq_dec num (map number codecs)) as [?|Hn]; [done|].
  exfalso. apply not_true_iff_false in H. apply H, available_iff. intros j pt Hj _ He. apply Hn.
  rewrite in_map_iff. exists pt. split; [done|]. by eapply list_elem_of_In, list_elem_of_lookup_2.
Qed.

(** With fewer codecs than dynamic numbers the search succeeds early. *)
Lemma search_dynamic_bound fuel codecs d :
  (length codecs < fuel)%nat ->
  exists n, search_dynamic fuel codecs d = (Some n, n + 1) /\ d <= n <= d + Z.of_nat (length codecs) /\
    isPayloadTypeNumberAvailable codecs n None = true.
Proof.
  intros Hf. pose proof (search_dynamic_spec fuel codecs d) as H.
  assert (Hp : forall n, (forall m, d <= m < d + Z.of_nat n -> isPayloadTypeNumberAvailable codecs m None = false) ->
    (n <= length codecs)%nat).
  { intros n Hn. replace n with (length (seqZ d (Z.of_nat n))) by (rewrite length_seqZ; lia).
    rewrite <- (length_map number codecs). apply NoDup_incl_length; [apply NoDup_ListNoDup, NoDup_seqZ|].
    intros m Hm%list_elem_of_In%elem_of_seqZ. apply not_available_In, Hn. lia. }
  destruct (search_dynamic fuel codecs d) as [[n|] d'].
  - destruct H as (Hr & -> & Ha & Hm). exists n. split; [done|]. split; [|done]. split; [lia|].
    enough ((Z.to_nat (n - d) <= length codecs)%nat) by lia. apply Hp. intros m ?. apply Hm. lia.
  - destruct H as (-> & Hm). specialize (Hp fuel). exfalso. enough ((fuel <= length codecs)%nat) by lia.
    apply Hp. intros m ?. apply Hm. lia.
Qed.

Section Assign.
Context {lib : MediaLib} (core : CoreCodecs) (prev : list OrtpPayloadType).

(** A payload type that was not offered before and may change its number. *)
Definition fresh_codec (pt : OrtpPayloadType) : Prop :=
  findPayloadTypeNumber prev pt = -1 /\ has_flag PAYLOAD_TYPE_FROZEN_NUMBER pt = false.

Lemma assign_number_other codecs i j : i <> j -> assign_number core prev codecs j !! i = codecs !! i.
Proof.
  intros Hn. unfold assign_number. destruct (codecs !! j) as [pt|]; [|done].
  destruct (if negb _ then _ else _) as [pt' num']. cbv zeta.
  destruct (_ =? -1); [|by rewrite list_lookup_insert_ne].
  destruct (search_dynamic _ _ _) as [taken d]. by rewrite !list_lookup_insert_ne.
Qed.

Lemma assign_number_length codecs i : length (assign_number core prev codecs i) = length codecs.
Proof.
  unfold assign_number. destruct (codecs !! i) as [pt|]; [|done].
  destruct (if negb _ then _ else _) as [pt' num']. cbv zeta.
  destruct (_ =? -1); [destruct (search_dynamic _ _ _)|]; by rewrite ?length_insert.
Qed.

(** A codec that was offered keeps its number. *)
Lemma assign_number_offered codecs i pt :
  codecs !! i = Some pt -> findPayloadTypeNumber prev pt <> -1 ->
  assign_number core prev codecs i !! i =
  Some (payload_type_set_flag {[PAYLOAD_TYPE_FROZEN_NUMBER]} (pt <| number := findPayloadTypeNumber prev pt |>)).
Proof.
  intros Hi Hf. unfold assign_number. rewrite Hi. apply Z.eqb_neq in Hf. rewrite Hf. cbn [negb]. cbv zeta.
  rewrite has_flag_set, bool_decide_eq_true_2, orb_true_r by set_solver.
  rewrite !Hf. cbn [negb andb]. rewrite Hf.
  apply list_lookup_insert_eq. by eapply lookup_lt_Some.
Qed.

(** A new codec gets a number no other one has, as long as there are few codecs. *)
Lemma assign_number_fresh codecs i pt :
  codecs !! i = Some pt -> fresh_codec pt -> Z.of_nat (length codecs) < 126 - dyn_pt core ->
  exists n, assign_number core prev codecs i = <[i := pt <| number := n |>]> codecs /\
    forall j q, j <> i -> codecs !! j = Some q -> number q <> n.
Proof.
  intros Hi [Hf Hfl] Hlen. unfold assign_number. rewrite Hi. cbv zeta. rewrite Hf.
  change (-1 =? -1) with true. cbn [negb]. rewrite Hfl, andb_true_r, (list_insert_id _ _ _ Hi).
  assert (Hpt : pt <| number := number pt |> = pt) by (by destruct pt).
  destruct (negb (number pt =? -1)) eqn:E; [destruct (isPayloadTypeNumberAvailable codecs (number pt) (Some i)) eqn:A|];
    cbn [negb].
  { apply negb_true_iff in E. rewrite E. exists (number pt). rewrite Hpt, list_insert_id by done. split; [done|].
    intros j q Hj Hq. eapply available_iff; [exact A|exact Hq|congruence]. }
  2: apply negb_false_iff, Z.eqb_eq in E; rewrite E.
  all: destruct (search_dynamic_bound (Z.to_nat (127 - dyn_pt core)) codecs (dyn_pt core)) as (n & -> & Hr & Ha); [lia|];
    cbn [Z.eqb]; replace (n + 1 =? 127) with false by (symmetry; apply Z.eqb_neq; lia); exists n; (split; [done|]);
    intros j q _ Hq; eapply available_iff; [exact Ha|exact Hq|done].
Qed.

Definition same_but_number (a b : OrtpPayloadType) : Prop := b = a <| number := number b |>.

(** After [k] turns: the numbers given so far are no other codec's. *)
Record assigned (codecs : list OrtpPayloadType) (k : nat) (codecs' : list OrtpPayloadType) : Prop := {
  asg_rest : forall j, (k <= j)%nat -> codecs' !! j = codecs !! j;
  asg_same : Forall2 same_but_number codecs codecs';
  asg_distinct : forall i j a b, (i < k)%nat -> i <> j -> codecs' !! i = Some a -> codecs' !! j = Some b ->
    number a <> number b
}.

Lemma assigned_start codecs : assigned codecs 0 codecs.
Proof. split; [done| |intros; lia]. apply Forall2_refl_rel. intros []. done. Qed.

Lemma assigned_step codecs k codecs' :
  Forall fresh_codec codecs -> Z.of_nat (length codecs) < 126 - dyn_pt core -> (k < length codecs)%nat ->
  assigned codecs k codecs' -> assigned codecs (S k) (assign_number core prev codecs' k).
Proof.
  intros Hfr Hlen Hk [Hr Hs Hd].
  destruct (lookup_lt_is_Some_2 codecs k Hk) as [pt Hpt].
  assert (Hpt' : codecs' !! k = Some pt) by (rewrite Hr; [done|lia]).
  assert (Hf : fresh_codec pt) by (eapply Forall_lookup_1; [exact Hfr|exact Hpt]).
  destruct (assign_number_fresh codecs' k pt Hpt' Hf) as (n & -> & Hn).
  { by rewrite <- (Forall2_length _ _ _ Hs). }
  assert (Hk' : (k < length codecs')%nat) by (by eapply lookup_lt_Some).
  split.
  - intros j Hj. rewrite list_lookup_insert_ne by lia. apply Hr. lia.
  - apply Forall2_same_length_lookup. split; [rewrite length_insert; by eapply Forall2_length|].
    intros j a b Ha Hb. destruct (decide (j = k)) as [->|Hj].
    + rewrite list_lookup_insert_eq in Hb by done. injection Hb as <-. rewrite Hpt in Ha. injection Ha as <-. by destruct pt.
    + rewrite list_lookup_insert_ne in Hb by done. by eapply Forall2_lookup_lr.
  - intros i j a b Hi Hij Ha Hb.
    destruct (decide (i = k)) as [->|Hik]; [|destruct (decide (j = k)) as [->|Hjk]].
    + rewrite list_lookup_insert_eq in Ha by done. injection Ha as <-. rewrite list_lookup_insert_ne in Hb by done.
      simpl. intros He. by eapply Hn; [|exact Hb|].
    + rewrite list_lookup_insert_eq in Hb by done. injection Hb as <-. rewrite list_lookup_insert_ne in Ha by done.
      simpl. by eapply Hn.
    + rewrite list_lookup_insert_ne in Ha by done. rewrite list_lookup_insert_ne in Hb by done.
      eapply Hd; [|exact Hij|exact Ha|exact Hb]. lia.
Qed.

Lemma assigned_all codecs :
  Forall fresh_codec codecs -> Z.of_nat (length codecs) < 126 - dyn_pt core ->
  assigned codecs (length codecs) (fold_left (assign_number core prev) (seq 0 (length codecs)) codecs).
Proof.
  intros Hfr Hlen. enough (H : forall k, (k <= length codecs)%nat ->
    assigned codecs k (fold_left (assign_number core prev) (seq 0 k) codecs)) by by apply H.
  induction k as [|k IH]; intros Hk; [apply assigned_start|].
  rewrite seq_S, fold_left_app. simpl. apply assigned_step; [done..|apply IH; lia].
Qed.

Lemma fold_assign_offered codecs i pt :
  codecs !! i = Some pt -> findPayloadTypeNumber prev pt <> -1 ->
  fold_left (assign_number core prev) (seq 0 (length codecs)) codecs !! i =
  Some (payload_type_set_flag {[PAYLOAD_TYPE_FROZEN_NUMBER]} (pt <| number := findPayloadTypeNumber prev pt |>)).
Proof.
  intros Hi Hf. assert (Hother : forall l codecs', ~ In i l ->
    fold_left (assign_number core prev) l codecs' !! i = codecs' !! i).
  { induction l as [|j l IH]; intros codecs' Hn; [done|]. simpl. rewrite IH by (intros ?; apply Hn; by right).
    apply assign_number_other. intros ->. apply Hn. by left. }
  assert (Hl : (i < length codecs)%nat) by (by eapply lookup_lt_Some).
  replace (length codecs) with (i + S (length codecs - S i))%nat by lia.
  rewrite seq_app, fold_left_app. cbn [seq fold_left]. rewrite Hother by (rewrite in_seq; lia).
  apply assign_number_offered; [|done]. rewrite Hother; [done|]. rewrite in_seq. lia.
Qed.

(** The RED parameters are all that changes afterwards. *)
Lemma set_red_fmtp_same codecs :
  Forall2 (fun a b => b = a <| recv_fmtp := recv_fmtp b |>) codecs (set_red_fmtp codecs).
Proof.
  assert (Hr : Forall2 (fun a b => b = a <| recv_fmtp := recv_fmtp b |>) codecs codecs)
    by (apply Forall2_refl_rel; by intros []).
  unfold set_red_fmtp. cbv zeta. destruct (_ ≫= _) as [t|]; [|done]. destruct (last_position _ _) as [r|]; [|done].
  apply Forall2_same_length_lookup. split; [by rewrite length_alter|]. intros j a b Ha Hb.
  destruct (decide (j = r)) as [->|Hj].
  - rewrite list_lookup_alter_eq, Ha in Hb. injection Hb as <-. by destruct a.
  - rewrite list_lookup_alter_ne in Hb by done. rewrite Ha in Hb. injection Hb as <-. by destruct a.
Qed.

Lemma set_red_fmtp_numbers codecs : map number (set_red_fmtp codecs) = map number codecs.
Proof.
  induction (set_red_fmtp_same codecs) as [|a b l l' Hab _ IH]; [done|]. simpl. rewrite IH. f_equal. by rewrite Hab.
Qed.
End Assign.

(** ** Telephone events and bandwidth *)

Lemma has_telephone_event_In l rate :
  hasTelephoneEventPayloadType l rate = true <-> In rate (map clock_rate l).
Proof.
  unfold hasTelephoneEventPayloadType. rewrite existsb_exists, in_map_iff. setoid_rewrite Z.eqb_eq. firstorder.
Qed.

(** One event per rate of the codecs seen so far. *)
Lemma telephone_events_fold {ortp : OrtpPayloadTypes} core all codecs result :
  NoDup (map clock_rate result) ->
  let step := fun result pt =>
    if hasTelephoneEventPayloadType result (clock_rate pt) then result
    else
      let tev := payload_type_telephone_event <| clock_rate := clock_rate pt |> in
      result ++ [match result with
                 | [] => if isPayloadTypeNumberAvailable all (telephone_event_pt core) None
                         then tev <| number := telephone_event_pt core |> else tev <| number := -1 |>
                 | _ => tev <| number := -1 |>
                 end] in
  let result' := fold_left step codecs result in
  NoDup (map clock_rate result') /\
  (forall r, In r (map clock_rate result') <-> In r (map clock_rate result) \/ In r (map clock_rate codecs)) /\
  (Forall (fun q => mime_type q = mime_type payload_type_telephone_event) result ->
   Forall (fun q => mime_type q = mime_type payload_type_telephone_event) result').
Proof.
  cbv zeta. revert result. induction codecs as [|pt codecs IH]; intros result Hd; cbn [fold_left].
  { split; [done|]. split; [intros r; simpl; tauto|done]. }
  destruct (hasTelephoneEventPayloadType result (clock_rate pt)) eqn:E.
  { destruct (IH result Hd) as (H1 & H2 & H3). split; [done|]. split; [|done]. intros r. rewrite H2.
    apply has_telephone_event_In in E. simpl. split; [tauto|]. intros [?|[<-|?]]; tauto. }
  set (tev := match result with [] => _ | _ => _ end).
  assert (Htev : clock_rate tev = clock_rate pt /\ mime_type tev = mime_type payload_type_telephone_event)
    by (subst tev; by repeat case_match).
  clearbody tev. destruct Htev as [Hr Hm].
  destruct (IH (result ++ [tev])) as (H1 & H2 & H3).
  { rewrite map_app. apply NoDup_app. split; [done|]. split; [|apply NoDup_singleton].
    intros x Hx%list_elem_of_In Hx'. simpl in Hx'. rewrite Hr in Hx'. apply list_elem_of_singleton in Hx' as ->.
    apply has_telephone_event_In in Hx. congruence. }
  split; [done|]. split.
  - intros r. rewrite H2, map_app, in_app_iff. simpl. rewrite Hr. tauto.
  - intros Hf. apply H3, Forall_app. split; [done|]. by constructor.
Qed.

Lemma vbr_bitrate_monotone rate l l' :
  0 < l <= l' -> lookupTypicalVbrBitrate l rate <= l -> lookupTypicalVbrBitrate l' rate <= l'.
Proof.
  intros Hl. unfold lookupTypicalVbrBitrate.
  replace (l <=? 0) with false by (symmetry; apply Z.leb_gt; lia).
  replace (l' <=? 0) with false by (symmetry; apply Z.leb_gt; lia). cbn.
  repeat match goal with |- context [?a <=? ?b] => destruct (Z.leb_spec a b) end; cbn; lia.
Qed.

Lemma bandwidthIsGreater_iff a b :
  bandwidthIsGreater a b = true <-> a <= 0 \/ 0 < b <= a.
Proof.
  unfold bandwidthIsGreater. destruct (Z.leb_spec a 0); [split; [by left|done]|].
  destruct (Z.leb_spec b 0); [split; [done|lia]|]. rewrite Z.leb_le. lia.
Qed.

(** ** Properties *)

(** Payload type numbers are distinct: when codecs that were not offered
    before get their numbers, no two end up with the same one, as long as there
    are fewer of them than dynamic numbers below 126; nothing else of them changes but
    the parameters of RED, so that none is disabled. *)
Theorem assigned_numbers_distinct (lib : MediaLib) core codecs previousList :
  Forall (fresh_codec previousList) codecs -> Z.of_nat (length codecs) < 126 - dyn_pt core ->
  let result := assignPayloadTypeNumbers core codecs previousList in
  NoDup (map number result) /\
  Forall2 (fun a b => b = a <| number := number b |> <| recv_fmtp := recv_fmtp b |>) codecs result.
Proof.
  intros Hf Hlen. cbv zeta. destruct (assigned_all core previousList codecs Hf Hlen) as [_ Hs Hd].
  unfold assignPayloadTypeNumbers. set (l := fold_left _ _ _) in *. split.
  - rewrite set_red_fmtp_numbers. apply NoDup_alt. intros i j n Hi Hj.
    rewrite list_lookup_fmap in Hi, Hj. apply fmap_Some in Hi as (a & Ha & ->). apply fmap_Some in Hj as (b & Hb & Hn).
    destruct (decide (i = j)) as [?|Hij]; [done|]. exfalso. eapply Hd; [|exact Hij|exact Ha|exact Hb|exact Hn].
    rewrite (Forall2_length _ _ _ Hs). by eapply lookup_lt_Some.
  - eapply Forall2_compose; [|exact Hs|apply set_red_fmtp_same].
    intros a b c -> ->. by destruct a, b, c.
Qed.

Lemma assigned_numbers_distinct_witness :
  let codecs := [ref_pt "PCMU" 8000 0; ref_pt "speex" 16000 (-1); ref_pt "opus" 48000 96; ref_pt "speex" 8000 96] in
  let core := mkCoreCodecs 96 [] [] [] true false false 101 0 0 in
  let result := @assignPayloadTypeNumbers ref_lib core codecs [] in
  map number result = [0; 97; 98; 96] /\ NoDup (map number result) /\
  Forall2 (fun a b => b = a <| number := number b |> <| recv_fmtp := recv_fmtp b |>) codecs result.
Proof.
  split; [vm_compute; reflexivity|].
  apply (assigned_numbers_distinct ref_lib); [|vm_compute; reflexivity].
  repeat constructor; vm_compute; reflexivity.
Defined.

(** Renegotiating keeps numbers: a codec that was offered before gets the
    number it had, frozen, whatever the other codecs are. *)
Theorem offered_number_kept (lib : MediaLib) core codecs previousList i pt :
  codecs !! i = Some pt -> findPayloadTypeNumber previousList pt <> -1 ->
  exists pt', assignPayloadTypeNumbers core codecs previousList !! i = Some pt' /\
    number pt' = findPayloadTypeNumber previousList pt /\ has_flag PAYLOAD_TYPE_FROZEN_NUMBER pt' = true.
Proof.
  intros Hi Hf. pose proof (fold_assign_offered core previousList codecs i pt Hi Hf) as H.
  unfold assignPayloadTypeNumbers. set (l := fold_left _ _ _) in *.
  destruct (Forall2_lookup_l _ _ _ _ _ (set_red_fmtp_same l) H) as (pt' & Hpt' & Heq).
  exists pt'. split; [done|]. rewrite Heq. split; [done|].
  change (has_flag PAYLOAD_TYPE_FROZEN_NUMBER (payload_type_set_flag {[PAYLOAD_TYPE_FROZEN_NUMBER]}
    (pt <| number := findPayloadTypeNumber previousList pt |>)) = true).
  rewrite has_flag_set. apply orb_true_iff. right. apply bool_decide_eq_true. set_solver.
Qed.

Lemma offered_number_kept_witness :
  let core := mkCoreCodecs 96 [] [] [] true false false 101 0 0 in
  let codecs := [ref_pt "opus" 48000 (-1); ref_pt "speex" 8000 (-1)] in
  exists pt', @assignPayloadTypeNumbers ref_lib core codecs [ref_pt "speex" 8000 110] !! 1%nat = Some pt' /\
    number pt' = findPayloadTypeNumber [ref_pt "speex" 8000 110] (ref_pt "speex" 8000 (-1)) /\
    has_flag PAYLOAD_TYPE_FROZEN_NUMBER pt' = true.
Proof. eapply (offered_number_kept ref_lib _ _ _ 1%nat); [reflexivity|vm_compute; congruence]. Defined.

(** Keeping numbers may duplicate one: a new codec with a configured number
    that comes before a codec with the same number in the former offer keeps it,
    although the code means to reassign duplicates. *)
Theorem kept_number_clash (lib : MediaLib) core :
  let codecs := [ref_pt "opus" 48000 110; ref_pt "speex" 8000 (-1)] in
  map number (assignPayloadTypeNumbers core codecs [ref_pt "speex" 8000 110]) = [110; 110].
Proof.
  cbv zeta. unfold assignPayloadTypeNumbers. rewrite set_red_fmtp_numbers. vm_compute. reflexivity.
Qed.

(** The last dynamic number disables its codec: a codec that takes number
    126 is disabled as if no number had been left. *)
Theorem last_number_disables (lib : MediaLib) core pt :
  dyn_pt core = 126 -> number pt = -1 ->
  exists pt', assignPayloadTypeNumbers core [pt] [] = [pt'] /\ number pt' = 126 /\
    has_flag PAYLOAD_TYPE_ENABLED pt' = false.
Proof.
  intros Hd Hn. unfold assignPayloadTypeNumbers. cbn [seq length fold_left].
  unfold assign_number. cbn [lookup list_lookup]. cbv zeta. cbn [findPayloadTypeNumber find_number_loop].
  assert (Hs : search_dynamic (Z.to_nat (127 - 126)) [pt] 126 = (Some 126, 127)).
  { change (Z.to_nat (127 - 126)) with 1%nat. cbn [search_dynamic].
    replace (isPayloadTypeNumberAvailable [pt] 126 None) with true; [done|].
    symmetry. apply available_iff. intros [|[]] q [= <-] _. by rewrite Hn. }
  rewrite Hd, Hn. cbn - [payload_type_unset_flag set_red_fmtp search_dynamic Z.to_nat Z.sub]. rewrite Hs.
  cbn - [payload_type_unset_flag set_red_fmtp].
  set (q := payload_type_unset_flag _ _).
  pose proof (set_red_fmtp_same [q]) as H. destruct (set_red_fmtp [q]) as [|r [|? ?]]; inversion H; subst; [|].
  2: match goal with H : Forall2 _ [] (_ :: _) |- _ => inversion H end.
  exists r. split; [done|].
  match goal with H : r = _ |- _ => rewrite H end. split; [done|].
  change (has_flag PAYLOAD_TYPE_ENABLED q = false). subst q. rewrite has_flag_unset.
  apply andb_false_iff. right. apply bool_decide_eq_false. set_solver.
Qed.

Lemma last_number_disables_witness :
  exists pt', @assignPayloadTypeNumbers ref_lib (mkCoreCodecs 126 [] [] [] true false false 101 0 0)
      [ref_pt "opus" 48000 (-1)] [] = [pt'] /\ number pt' = 126 /\ has_flag PAYLOAD_TYPE_ENABLED pt' = false.
Proof. by apply (last_number_disables ref_lib). Defined.

(** Telephone events: one for each clock rate of the codecs, and no other. *)
Theorem one_telephone_event_per_rate (ortp : OrtpPayloadTypes) core codecs :
  let events := createTelephoneEventPayloadTypes core codecs in
  NoDup (map clock_rate events) /\
  (forall rate, In rate (map clock_rate events) <-> In rate (map clock_rate codecs)) /\
  Forall (fun q => mime_type q = mime_type payload_type_telephone_event) events.
Proof.
  destruct (telephone_events_fold core codecs codecs []) as (H1 & H2 & H3); [apply NoDup_nil_2|].
  split; [exact H1|]. split; [|by apply H3]. intros rate. etransitivity; [apply H2|]. simpl. tauto.
Qed.

(** Bandwidth limits: a codec that fits a limit fits a larger one, and the
    limit of a call is met exactly when the ones of both directions are. *)
Theorem bandwidth_limits_monotone (ortp : OrtpPayloadTypes) :
  (forall pt l l', 0 < l <= l' -> isPayloadTypeUsableForBandwidth pt l = true ->
     isPayloadTypeUsableForBandwidth pt l' = true) /\
  (forall down up b, bandwidthIsGreater (getMinBandwidth down up) b =
     bandwidthIsGreater down b && bandwidthIsGreater up b).
Proof.
  split.
  - intros pt l l' Hl. unfold isPayloadTypeUsableForBandwidth, getAudioPayloadTypeBandwidth.
    destruct (pt_kind pt); try done.
    1, 2: destruct (has_flag PAYLOAD_TYPE_VBR pt); [destruct (has_flag PAYLOAD_TYPE_BITRATE_OVERRIDE pt)|];
      rewrite !bandwidthIsGreater_iff; try lia.
    1, 2: intros [?|[Hp Hb]]; [lia|]; right; pose proof (vbr_bitrate_monotone (clock_rate pt) l l' Hl Hb);
      split; [|done]; unfold lookupTypicalVbrBitrate; cbn; by repeat case_match.
    rewrite !orb_true_iff, !Z.leb_le. lia.
  - intros down up b. apply eq_true_iff_eq. rewrite andb_true_iff, !bandwidthIsGreater_iff. unfold getMinBandwidth.
    destruct (Z.leb_spec down 0), (Z.leb_spec up 0); lia.
Qed.
