(* ===== verification/PotentialCfgGraph.v ===== *)
(** The capability negotiation graph of a session description (RFC 5939):
    [PotentialCfgGraph] ([src/src/sal/potential_config_graph.h] and [.cpp]).
    It collects the attribute and transport capabilities of the session and of
    each media line and parses the potential ([pcfg]) and actual ([acfg])
    configurations that refer to them. *)
From S2P Require Import Prelude.

(** ** Data *)

Inductive capability_type := ATTRIBUTE | TRANSPORT_PROTOCOL | EXTENDED.
Inductive config_type := ACFG | PCFG.

#[export] Instance capability_type_eq_dec : EqDecision capability_type.
Proof. solve_decision. Defined.

(** A capability is never modified once it is in the graph, so the shared
    pointers to it are values here. *)
Record capability := mkCapability {
  cap_index : Z;
  cap_value : string;
  cap_type : capability_type
}.

Record acapability := mkAcapability {
  acap_base : capability;
  acap_name : string
}.

(** What the template [parseIdxList] needs of its parameter. *)
Class HasIndex (C : Type) := index_of : C -> Z.
#[export] Instance capability_index : HasIndex capability := cap_index.
#[export] Instance acapability_index : HasIndex acapability := fun c => cap_index (acap_base c).

(** [cap] is what locking the weak pointer gives. *)
Record config_capability (C : Type) := mkConfigCap {
  cap : option C;
  mandatory : bool
}.
Arguments mkConfigCap {C} _ _.
Arguments cap {C} _.
Arguments mandatory {C} _.

Record config_attribute := mkConfigAttr {
  ca_acap : list (list (config_capability acapability));
  ca_tcap : list (config_capability capability);
  ca_delete_media_attributes : bool;
  ca_delete_session_attributes : bool
}.
#[export] Instance config_attribute_eta : Eta config_attribute :=
  fun r => mkConfigAttr (ca_acap r) (ca_tcap r) (ca_delete_media_attributes r) (ca_delete_session_attributes r).
Definition empty_config_attribute : config_attribute := mkConfigAttr [] [] false false.

(** [std::map<unsigned int, V>]: the order of the keys is the usual one. *)
Abbreviation uint_map V := (list (Z * V)).
Definition id_rank (k : Z) : Z := k.

Record PotentialCfgGraph := mkGraph {
  globalAcap : list acapability;
  globalTcap : list capability;
  g_cfgs : uint_map (uint_map config_attribute);
  g_unparsed_cfgs : uint_map (uint_map string);
  g_acap : uint_map (list acapability);
  g_tcap : uint_map (list capability)
}.
#[export] Instance PotentialCfgGraph_eta : Eta PotentialCfgGraph :=
  fun r => mkGraph (globalAcap r) (globalTcap r) (g_cfgs r) (g_unparsed_cfgs r) (g_acap r) (g_tcap r).
Definition empty_graph : PotentialCfgGraph := mkGraph [] [] [] [] [] [].

(** [operator=] (the unparsed configurations of the left side are kept). *)
Definition assign (this other : PotentialCfgGraph) : PotentialCfgGraph :=
  this <| globalAcap := globalAcap other |> <| globalTcap := globalTcap other |>
       <| g_cfgs := g_cfgs other |> <| g_acap := g_acap other |> <| g_tcap := g_tcap other |>.

Definition capabilityToAttributeName (cap : capability_type) : string :=
  match cap with
  | ATTRIBUTE => "acap"
  | TRANSPORT_PROTOCOL => "tcap"
  | EXTENDED => "ecap"
  end.

(** ** Free indexes *)

(** [std::list::sort]. *)
Fixpoint sorted_insert (x : Z) (l : list Z) : list Z :=
  match l with
  | [] => [x]
  | y :: l' => if y <=? x then y :: sorted_insert x l' else x :: l
  end.
Definition list_sort (l : list Z) : list Z := fold_left (fun acc x => sorted_insert x acc) l [].

(** [std::list::unique]: of each run of equal elements the first is kept. *)
Fixpoint list_unique {A} `{EqDecision A} (l : list A) : list A :=
  match l with
  | x :: ((y :: _) as l') => if bool_decide (x = y) then list_unique l' else x :: list_unique l'
  | _ => l
  end.

(** [std::transform] with [std::minus<int>] on the consecutive elements. *)
Fixpoint differences (l : list Z) : list Z :=
  match l with
  | x :: ((y :: _) as l') => u32 (y - x) :: differences l'
  | _ => []
  end.

Definition list_min (l : list Z) : Z := fold_left Z.min l (List.hd 0 l).
Definition list_max (l : list Z) : Z := fold_left Z.max l (List.hd 0 l).

Definition getFreeIdx (l : list Z) : Z :=
  match l with
  | [] => 1
  | _ =>
      let lCopy := list_unique (list_sort l) in
      let lResult := differences lCopy in
      match find_idx (fun el => negb (el =? 1)) lResult with
      | None =>
          let listMinEl := list_min l in
          if 1 <? listMinEl then listMinEl - 1 else u32 (list_max l + 1)
      | Some elIdx => let startGap := nth elIdx l 0 in u32 (startGap + 1)
      end
  end.

(** ** Access *)

Definition getCfgForStream (g : PotentialCfgGraph) (idx : Z) : uint_map config_attribute :=
  default [] (om_find id_rank idx (g_cfgs g)).
Definition getUnparsedCfgForStream (g : PotentialCfgGraph) (idx : Z) : uint_map string :=
  default [] (om_find id_rank idx (g_unparsed_cfgs g)).
Definition getMediaAcapForStream (g : PotentialCfgGraph) (idx : Z) : list acapability :=
  default [] (om_find id_rank idx (g_acap g)).
Definition getMediaTcapForStream (g : PotentialCfgGraph) (idx : Z) : list capability :=
  default [] (om_find id_rank idx (g_tcap g)).
Definition getAllAcapForStream (g : PotentialCfgGraph) (idx : Z) : list acapability :=
  getMediaAcapForStream g idx ++ globalAcap g.
Definition getAllTcapForStream (g : PotentialCfgGraph) (idx : Z) : list capability :=
  getMediaTcapForStream g idx ++ globalTcap g.

Definition getFreeTcapIdx (g : PotentialCfgGraph) : Z :=
  getFreeIdx (map index_of (globalTcap g) ++ concat (map (fun p => map index_of (snd p)) (g_tcap g))).
Definition getFreeAcapIdx (g : PotentialCfgGraph) : Z :=
  getFreeIdx (map index_of (globalAcap g) ++ concat (map (fun p => map index_of (snd p)) (g_acap g))).
Definition getFreeCfgIdx (g : PotentialCfgGraph) (idx : Z) : Z :=
  getFreeIdx (om_keys (getCfgForStream g idx)).

Definition empty (g : PotentialCfgGraph) : bool :=
  match g with
  | mkGraph [] [] [] [] [] [] => true
  | _ => false
  end.

(** ** Adding capabilities and configurations *)

Definition has_index {C} `{HasIndex C} (i : Z) (l : list C) : bool := existsb (fun c => index_of c =? i) l.

Definition canFindAcapWithIdx (g : PotentialCfgGraph) (index : Z) : bool :=
  let foundInGlobalAcap := has_index index (globalAcap g) in
  let foundInStreamAcap := fold_left (fun found p => found || has_index index (snd p)) (g_acap g) false in
  foundInStreamAcap || foundInGlobalAcap.

Definition canFindTcapWithIdx (g : PotentialCfgGraph) (index : Z) : bool :=
  let foundInGlobalTcap := has_index index (globalTcap g) in
  let foundInStreamTcap := fold_left (fun found p => found || has_index index (snd p)) (g_tcap g) false in
  foundInStreamTcap || foundInGlobalTcap.

Definition addGlobalAcap (g : PotentialCfgGraph) (idx : Z) (name value : string) : PotentialCfgGraph * bool :=
  let canAdd := negb (canFindAcapWithIdx g idx) in
  (if canAdd
   then g <| globalAcap := globalAcap g ++ [mkAcapability (mkCapability idx value ATTRIBUTE) name] |>
   else g, canAdd).

Definition addGlobalTcap (g : PotentialCfgGraph) (idx : Z) (value : string) : PotentialCfgGraph * bool :=
  let canAdd := negb (canFindTcapWithIdx g idx) in
  (if canAdd
   then g <| globalTcap := globalTcap g ++ [mkCapability idx value TRANSPORT_PROTOCOL] |>
   else g, canAdd).

Definition addAcapToStream (g : PotentialCfgGraph) (streamIdx capIdx : Z) (capName capValue : string)
    : PotentialCfgGraph * bool :=
  let canAdd := negb (canFindAcapWithIdx g capIdx) in
  (if canAdd
   then g <| g_acap := om_alter id_rank []
                (fun l => l ++ [mkAcapability (mkCapability capIdx capValue ATTRIBUTE) capName]) streamIdx (g_acap g) |>
   else g, canAdd).

Definition addTcapToStream (g : PotentialCfgGraph) (streamIdx capIdx : Z) (capValue : string)
    : PotentialCfgGraph * bool :=
  let canAdd := negb (canFindTcapWithIdx g capIdx) in
  (if canAdd
   then g <| g_tcap := om_alter id_rank []
                (fun l => l ++ [mkCapability capIdx capValue TRANSPORT_PROTOCOL]) streamIdx (g_tcap g) |>
   else g, canAdd).

(** The search both loops below stop at when an index is unknown. *)
Fixpoint createAcapList_loop (acaps : list acapability) (acapIdx : uint_map bool)
    : list (config_capability acapability) :=
  match acapIdx with
  | [] => []
  | (idx, mand) :: rest =>
      match List.find (fun c => index_of c =? idx) acaps with
      | None => []
      | Some c => mkConfigCap (Some c) mand :: createAcapList_loop acaps rest
      end
  end.
Definition createAcapList (g : PotentialCfgGraph) (streamIdx : Z) (acapIdx : uint_map bool)
    : list (config_capability acapability) :=
  createAcapList_loop (getAllAcapForStream g streamIdx) acapIdx.

Fixpoint createTcapList_loop (tcaps : list capability) (tcapIdx : list Z) : list (config_capability capability) :=
  match tcapIdx with
  | [] => []
  | idx :: rest =>
      match List.find (fun c => index_of c =? idx) tcaps with
      | None => []
      | Some c => mkConfigCap (Some c) false :: createTcapList_loop tcaps rest
      end
  end.
Definition createTcapList (g : PotentialCfgGraph) (streamIdx : Z) (tcapIdx : list Z)
    : list (config_capability capability) :=
  createTcapList_loop (getAllTcapForStream g streamIdx) tcapIdx.

Definition createCfgAttr (g : PotentialCfgGraph) (streamIdx : Z) (acapIdxs : list (uint_map bool))
    (tcapIdx : list Z) (delete_media_attributes delete_session_attributes : bool) : config_attribute :=
  let cfgAttr := empty_config_attribute
    <| ca_delete_session_attributes := delete_session_attributes |>
    <| ca_delete_media_attributes := delete_media_attributes |> in
  let cfgAttr := fold_left (fun cfgAttr acapIdx =>
    cfgAttr <| ca_acap := ca_acap cfgAttr ++ [createAcapList g streamIdx acapIdx] |>) acapIdxs cfgAttr in
  match tcapIdx with
  | [] => cfgAttr
  | _ => cfgAttr <| ca_tcap := createTcapList g streamIdx tcapIdx ++ ca_tcap cfgAttr |>
  end.

Definition addCfg (g : PotentialCfgGraph) (streamIdx cfgIdx : Z) (acapIdxs : list (uint_map bool))
    (tcapIdx : list Z) (delete_media_attributes delete_session_attributes : bool) : PotentialCfgGraph :=
  let cfg := default [] (om_find id_rank streamIdx (g_cfgs g)) in
  let cfg := om_set id_rank cfgIdx
    (createCfgAttr g streamIdx acapIdxs tcapIdx delete_media_attributes delete_session_attributes) cfg in
  g <| g_cfgs := om_set id_rank streamIdx cfg (g_cfgs g) |>.

(** [cfg = cfgs.at(streamIdx); cfgAttr = cfg.at(cfgIdx)] and its handler. *)
Definition cfg_and_attr (g : PotentialCfgGraph) (streamIdx cfgIdx : Z)
    : uint_map config_attribute * config_attribute :=
  match om_find id_rank streamIdx (g_cfgs g) with
  | None => ([], empty_config_attribute)
  | Some cfg => (cfg, default empty_config_attribute (om_find id_rank cfgIdx cfg))
  end.

Definition addAcapListToCfg (g : PotentialCfgGraph) (streamIdx cfgIdx : Z) (acapIdx : uint_map bool)
    : PotentialCfgGraph :=
  match acapIdx with
  | [] => g
  | _ =>
      let '(cfg, cfgAttr) := cfg_and_attr g streamIdx cfgIdx in
      let cfgAttr := cfgAttr <| ca_acap := ca_acap cfgAttr ++ [createAcapList g streamIdx acapIdx] |> in
      g <| g_cfgs := om_set id_rank streamIdx (om_set id_rank cfgIdx cfgAttr cfg) (g_cfgs g) |>
  end.

Definition addTcapListToCfg (g : PotentialCfgGraph) (streamIdx cfgIdx : Z) (tcapIdx : list Z) : PotentialCfgGraph :=
  match tcapIdx with
  | [] => g
  | _ =>
      let '(cfg, cfgAttr) := cfg_and_attr g streamIdx cfgIdx in
      let cfgAttr := cfgAttr <| ca_tcap := createTcapList g streamIdx tcapIdx ++ ca_tcap cfgAttr |> in
      g <| g_cfgs := om_set id_rank streamIdx (om_set id_rank cfgIdx cfgAttr cfg) (g_cfgs g) |>
  end.

(** ** Parsing *)

(** The objects belle-sip builds for the capability attributes, by what their
    accessors return. *)
Record belle_sdp_acap_attribute := mkAcapAttr {
  acap_attribute_id : Z;
  acap_attribute_name : string;
  acap_attribute_value : option string
}.
Record belle_sdp_tcap_attribute := mkTcapAttr {
  tcap_attribute_id : Z;
  tcap_attribute_protos : list string
}.
Record belle_sdp_cfg_attribute := mkCfgAttr {
  cfg_attribute_id : Z;
  cfg_attribute_configs : list string;
  cfg_attribute_string : string
}.
Record sdp_media_caps := mkMediaCaps {
  media_acaps : list belle_sdp_acap_attribute;
  media_tcaps : list belle_sdp_tcap_attribute;
  media_acfgs : list belle_sdp_cfg_attribute;
  media_pcfgs : list belle_sdp_cfg_attribute
}.
Record sdp_session_caps := mkSessionCaps {
  session_acaps : list belle_sdp_acap_attribute;
  session_tcaps : list belle_sdp_tcap_attribute;
  session_medias : list sdp_media_caps
}.

Definition createACapabilitiesList (caps_attr : list belle_sdp_acap_attribute) (cap : capability_type)
    : list acapability :=
  map (fun a => mkAcapability
    (mkCapability (u32 (acap_attribute_id a)) (default EmptyString (acap_attribute_value a)) cap)
    (acap_attribute_name a)) caps_attr.

(** The transport protocols of one attribute are numbered from its id. *)
Fixpoint tcap_elements (id : Z) (protos : list string) (cap : capability_type) : list capability :=
  match protos with
  | [] => []
  | p :: rest => mkCapability id p cap :: tcap_elements (u32 (id + 1)) rest cap
  end.
Definition createTCapabilitiesList (caps_attr : list belle_sdp_tcap_attribute) (cap : capability_type)
    : list capability :=
  concat (map (fun a => tcap_elements (u32 (tcap_attribute_id a)) (tcap_attribute_protos a) cap) caps_attr).

Definition capabilityTypeFromAttrParam (attrParam : string) : capability_type :=
  if String.eqb attrParam "a" then ATTRIBUTE
  else if String.eqb attrParam "t" then TRANSPORT_PROTOCOL
  else EXTENDED.

(** The first match of the regular expression [(\d+)]. *)
Fixpoint first_digits (s : string) : string :=
  match s with
  | EmptyString => EmptyString
  | String c s' => if is_digit c then fst (str_span is_digit s) else first_digits s'
  end.

(** [None] when there is no number to read (the end iterator of the matches is
    dereferenced and [std::stoi] throws) or when it does not fit an [int]
    ([std::stoi] throws). *)
Definition getElementIdx (index : string) : option Z :=
  match first_digits index with
  | EmptyString => None
  | ds => if horner 0 ds <? 2 ^ 31 then Some (horner 0 ds) else None
  end.

Section Parsing.
(** [bctoolbox::Utils::split]. *)
Variable split : string -> ascii -> list string.

Section ParseIdxList.
Context {C : Type} `{HasIndex C}.

(** One configuration: a comma separated sequence of indexes.  The result
    is the capabilities, the value of [mandatory] the loop leaves and
    whether every index is known. *)
Fixpoint parse_config (availableCaps : list C) (capIdList : list string) (mandatory : bool)
    (caps : list (config_capability C)) : option (list (config_capability C) * bool * bool) :=
  match capIdList with
  | [] => Some (caps, mandatory, true)
  | index :: rest =>
      let startOpt := str_has "[" index in
      let endOpt := str_has "]" index in
      let mandatory := if startOpt then false else mandatory in
      match getElementIdx index with
      | None => None
      | Some idx =>
          match List.find (fun c => index_of c =? idx) availableCaps with
          | None => Some ([], mandatory, false)
          | Some c =>
              parse_config availableCaps rest (if endOpt then true else mandatory)
                (caps ++ [mkConfigCap (Some c) mandatory])
          end
      end
  end.

Fixpoint parse_configs (availableCaps : list C) (attrCapList : list string) (mandatory : bool)
    (capList : list (list (config_capability C))) (success : bool)
    : option (list (list (config_capability C)) * bool) :=
  match attrCapList with
  | [] => Some (capList, success)
  | config :: rest =>
      match parse_config availableCaps (split config ",") mandatory [] with
      | None => None
      | Some (caps, mandatory, ok) =>
          let capList := match caps with [] => capList | _ => capList ++ [caps] end in
          parse_configs availableCaps rest mandatory capList (success && ok)
      end
  end.

Definition parseIdxList (idxList : string) (availableCaps : list C)
    : option (list (list (config_capability C)) * bool) :=
  parse_configs availableCaps (split idxList "|") true [] true.
End ParseIdxList.

(** The local variables of [processConfig]. *)
Record process_state := mkProcess {
  acapCfgList : list (list (config_capability acapability));
  tcapCfgList : list (config_capability capability);
  acapProcessingError : bool;
  tcapProcessingError : bool;
  del_media : bool;
  del_session : bool
}.
#[local] Instance process_state_eta : Eta process_state :=
  fun r => mkProcess (acapCfgList r) (tcapCfgList r) (acapProcessingError r) (tcapProcessingError r)
    (del_media r) (del_session r).

Definition is_nil {A} (l : list A) : bool := match l with [] => true | _ => false end.

(** Transport configurations with more than one protocol are ignored. *)
Definition push_tcaps (parsedList : list (list (config_capability capability)))
    (l : list (config_capability capability)) : list (config_capability capability) :=
  fold_left (fun l tcapCfg => match tcapCfg with [c] => l ++ [c] | _ => l end) parsedList l.

Definition process_acap (mediaAcap : list acapability) (deleteAttrSplit : list string) (st : process_state)
    : option process_state :=
  let idxList := List.last deleteAttrSplit EmptyString in
  if is_nil (acapCfgList st) then
    match parseIdxList idxList mediaAcap with
    | None => None
    | Some (parsedList, success) =>
        let st := st <| acapProcessingError := acapProcessingError st || (negb success && is_nil parsedList) |> in
        let st := if negb (is_nil parsedList) then st <| acapCfgList := parsedList |> else st in
        let deleteAttr := List.hd EmptyString deleteAttrSplit in
        Some (st <| del_media := str_has "m" deleteAttr |> <| del_session := str_has "s" deleteAttr |>)
    end
  else Some st.

Definition process_tcap (mediaTcap : list capability) (deleteAttrSplit : list string) (st : process_state)
    : option process_state :=
  let idxList := List.last deleteAttrSplit EmptyString in
  if is_nil (tcapCfgList st) then
    match parseIdxList idxList mediaTcap with
    | None => None
    | Some (parsedList, success) =>
        let st := st <| tcapProcessingError := tcapProcessingError st || (negb success && is_nil parsedList) |> in
        Some (if negb (is_nil parsedList) then st <| tcapCfgList := push_tcaps parsedList (tcapCfgList st) |> else st)
    end
  else Some st.

(** [None]: an exception; [Some None]: the early return of the loop. *)
Fixpoint process_list (mediaAcap : list acapability) (mediaTcap : list capability)
    (configList : list string) (st : process_state) : option (option process_state) :=
  match configList with
  | [] => Some (Some st)
  | cfg :: rest =>
      let bodySplit := split cfg "=" in
      if (length bodySplit <? 2)%nat then Some None
      else
        let capType := List.hd EmptyString bodySplit in
        let attrBody := List.last bodySplit EmptyString in
        let deleteAttrSplit := split attrBody ":" in
        let st' :=
          match capabilityTypeFromAttrParam capType with
          | ATTRIBUTE => process_acap mediaAcap deleteAttrSplit st
          | TRANSPORT_PROTOCOL => process_tcap mediaTcap deleteAttrSplit st
          | EXTENDED => Some st
          end in
        match st' with
        | None => None
        | Some st' => process_list mediaAcap mediaTcap rest st'
        end
  end.

Definition processConfig (configList : list string) (mediaAcap : list acapability) (mediaTcap : list capability)
    : option config_attribute :=
  match process_list mediaAcap mediaTcap configList (mkProcess [] [] false false false false) with
  | None => None
  | Some None => Some empty_config_attribute
  | Some (Some st) =>
      let processingError := acapProcessingError st || tcapProcessingError st in
      if processingError || (is_nil (tcapCfgList st) && is_nil (acapCfgList st))
      then Some empty_config_attribute
      else Some (mkConfigAttr (acapCfgList st) (tcapCfgList st) (del_media st) (del_session st))
  end.

(** The loop over the attributes of [processMediaAcfg] and [processMediaPcfg]. *)
Fixpoint process_cfg_attributes (attrs : list belle_sdp_cfg_attribute)
    (mediaAcap : list acapability) (mediaTcap : list capability)
    (config : uint_map config_attribute) (unparsed_config : uint_map string)
    : option (uint_map config_attribute * uint_map string) :=
  match attrs with
  | [] => Some (config, unparsed_config)
  | attr :: rest =>
      let id := u32 (cfg_attribute_id attr) in
      match processConfig (cfg_attribute_configs attr) mediaAcap mediaTcap with
      | None => None
      | Some attr_configs =>
          if is_nil (ca_acap attr_configs) && is_nil (ca_tcap attr_configs)
          then process_cfg_attributes rest mediaAcap mediaTcap config
                 (om_set id_rank id (cfg_attribute_string attr) unparsed_config)
          else process_cfg_attributes rest mediaAcap mediaTcap
                 (om_set id_rank id attr_configs config) unparsed_config
      end
  end.

(** What both do with the configurations they read. *)
Definition store_cfgs (g : PotentialCfgGraph) (idx : Z)
    (config : uint_map config_attribute) (unparsed_config : uint_map string) : PotentialCfgGraph * bool :=
  let found := negb (is_nil config) in
  let g := if found then g <| g_cfgs := om_set id_rank idx config (g_cfgs g) |> else g in
  let unparsed_config :=
    match om_find id_rank idx (g_unparsed_cfgs g) with
    | Some cfgs => fold_left (fun m p => om_set id_rank (fst p) (snd p) m) cfgs unparsed_config
    | None => unparsed_config
    end in
  (g <| g_unparsed_cfgs := om_set id_rank idx unparsed_config (g_unparsed_cfgs g) |>, found).

Definition processMediaAcfg (g : PotentialCfgGraph) (idx : Z) (media_desc : sdp_media_caps)
    : option (PotentialCfgGraph * bool) :=
  match process_cfg_attributes (media_acfgs media_desc)
          (getAllAcapForStream g idx) (getAllTcapForStream g idx) [] [] with
  | None => None
  | Some (config, unparsed_config) => Some (store_cfgs g idx config unparsed_config)
  end.

Definition processMediaPcfg (g : PotentialCfgGraph) (idx : Z) (media_desc : sdp_media_caps)
    : option (PotentialCfgGraph * bool) :=
  match process_cfg_attributes (media_pcfgs media_desc)
          (getAllAcapForStream g idx) (getAllTcapForStream g idx) [] [] with
  | None => None
  | Some (config, unparsed_config) => Some (store_cfgs g idx config unparsed_config)
  end.

Definition processMediaCfg (g : PotentialCfgGraph) (idx : Z) (media_desc : sdp_media_caps) (cfgType : config_type)
    : option (PotentialCfgGraph * bool) :=
  match cfgType with
  | ACFG => processMediaAcfg g idx media_desc
  | PCFG => processMediaPcfg g idx media_desc
  end.

Definition processMediaDescription (g : PotentialCfgGraph) (idx : Z) (media_desc : sdp_media_caps)
    : option PotentialCfgGraph :=
  let mediaAcap := createACapabilitiesList (media_acaps media_desc) ATTRIBUTE in
  let g := if negb (is_nil mediaAcap) then g <| g_acap := om_set id_rank idx mediaAcap (g_acap g) |> else g in
  let mediaTcap := createTCapabilitiesList (media_tcaps media_desc) TRANSPORT_PROTOCOL in
  let g := if negb (is_nil mediaTcap) then g <| g_tcap := om_set id_rank idx mediaTcap (g_tcap g) |> else g in
  match processMediaCfg g idx media_desc ACFG with
  | None => None
  | Some (g, _) =>
      match processMediaCfg g idx media_desc PCFG with
      | None => None
      | Some (g, _) => Some g
      end
  end.

Fixpoint process_medias (g : PotentialCfgGraph) (mediaIdx : Z) (medias : list sdp_media_caps)
    : option PotentialCfgGraph :=
  match medias with
  | [] => Some g
  | m :: rest =>
      match processMediaDescription g mediaIdx m with
      | None => None
      | Some g => process_medias g (u32 (mediaIdx + 1)) rest
      end
  end.

Definition processSessionDescription (g : PotentialCfgGraph) (session_desc : sdp_session_caps)
    : option PotentialCfgGraph :=
  let g := g <| globalAcap := createACapabilitiesList (session_acaps session_desc) ATTRIBUTE |> in
  let g := g <| globalTcap := createTCapabilitiesList (session_tcaps session_desc) TRANSPORT_PROTOCOL |> in
  process_medias g 0 (session_medias session_desc).
End Parsing.

(** ** Lemmas: free indexes *)

Definition valid_index (i : Z) : Prop := 0 <= i < 2 ^ 32 - 1.

Lemma sorted_insert_last x l : Forall (fun y => y <= x) l -> sorted_insert x l = l ++ [x].
Proof.
  induction 1 as [|y l Hy Hl IH]; simpl; [done|].
  apply Z.leb_le in Hy. by rewrite Hy, IH.
Qed.

Lemma list_sort_sorted l : StronglySorted Z.lt l -> list_sort l = l.
Proof.
  unfold list_sort. intros Hs.
  enough (G : forall acc, Forall (fun y => Forall (fun x => y <= x) l) acc ->
    fold_left (fun acc x => sorted_insert x acc) l acc = acc ++ l) by (by rewrite G).
  induction Hs as [|x l Hs IH Hx]; intros acc Hacc; simpl; [by rewrite app_nil_r|].
  rewrite sorted_insert_last.
  - rewrite IH, <- List.app_assoc; [done|]. apply Forall_app. split.
    + eapply List.Forall_impl; [|exact Hacc]. intros y Hy. by inversion Hy.
    + constructor; [|done]. eapply List.Forall_impl; [|exact Hx]. simpl. lia.
  - eapply List.Forall_impl; [|exact Hacc]. intros y Hy. by inversion Hy.
Qed.

Lemma list_unique_sorted (l : list Z) : StronglySorted Z.lt l -> list_unique l = l.
Proof.
  induction 1 as [|x l Hs IH Hx]; [done|]. destruct l as [|y l]; [done|].
  cbn [list_unique] in *. rewrite bool_decide_false; [by rewrite IH|].
  inversion Hx; lia.
Qed.

Lemma fold_min_le l a : fold_left Z.min l a <= a /\ Forall (fun y => fold_left Z.min l a <= y) l.
Proof.
  revert a. induction l as [|x l IH]; intros a; simpl; [split; [lia|constructor]|].
  destruct (IH (Z.min a x)) as [H1 H2]. split; [lia|]. constructor; [lia|done].
Qed.

Lemma fold_max_le l a : a <= fold_left Z.max l a /\ Forall (fun y => y <= fold_left Z.max l a) l.
Proof.
  revert a. induction l as [|x l IH]; intros a; simpl; [split; [lia|constructor]|].
  destruct (IH (Z.max a x)) as [H1 H2]. split; [lia|]. constructor; [lia|done].
Qed.

Lemma fold_max_In l a : fold_left Z.max l a = a \/ In (fold_left Z.max l a) l.
Proof.
  revert a. induction l as [|x l IH]; intros a; simpl; [auto|].
  destruct (IH (Z.max a x)) as [H|H]; [|auto]. rewrite H. destruct (Z.max_spec a x); lia.
Qed.

Lemma gap_fresh l i :
  StronglySorted Z.lt l -> Forall valid_index l ->
  find_idx (fun el => negb (el =? 1)) (differences l) = Some i ->
  ~ In (nth i l 0 + 1) l /\ In (nth i l 0) l.
Proof.
  intros Hs Hv. revert i. induction Hs as [|x l Hs IH Hx]; intros i; [done|].
  destruct l as [|y l]; [done|]. inversion Hv as [|? ? Hvx Hvl]; subst.
  inversion Hvl as [|? ? Hvy _]; subst. inversion Hx as [|? ? Hxy Hxl]; subst.
  assert (Hge : Forall (fun z => y <= z) (y :: l)).
  { constructor; [lia|]. inversion Hs as [|? ? _ Hy]; subst. eapply List.Forall_impl; [|exact Hy]. simpl; lia. }
  change (differences (x :: y :: l)) with (u32 (y - x) :: differences (y :: l)).
  cbn [find_idx]. unfold valid_index in *. rewrite u32_small by lia.
  destruct (Z.eqb_spec (y - x) 1) as [E|E]; simpl negb; cbv iota.
  - destruct (find_idx _ (differences (y :: l))) as [j|] eqn:Hj;
      cbn [option_map]; [|intros [=]]. intros [= <-].
    destruct (IH Hvl j eq_refl) as [Hn Hin]. rewrite List.Forall_forall in Hge. split.
    + change (nth (S j) (x :: y :: l) 0) with (nth j (y :: l) 0).
      intros [Hc|Hc]; [|tauto]. apply Hge in Hin. lia.
    + right. exact Hin.
  - intros [= <-]. rewrite List.Forall_forall in Hge. split; [|by left].
    cbn [nth]. intros [Hc|Hc]; [lia|]. apply Hge in Hc. lia.
Qed.

Lemma getFreeIdx_not_nil l :
  l <> [] ->
  getFreeIdx l =
  match find_idx (fun el => negb (el =? 1)) (differences (list_unique (list_sort l))) with
  | None => if 1 <? list_min l then list_min l - 1 else u32 (list_max l + 1)
  | Some i => u32 (nth i l 0 + 1)
  end.
Proof. by destruct l. Qed.

Lemma getFreeIdx_sorted l :
  StronglySorted Z.lt l -> Forall valid_index l -> ~ In (getFreeIdx l) l /\ 1 <= getFreeIdx l < 2 ^ 32.
Proof.
  intros Hs Hv. destruct (decide (l = [])) as [->|Hne]; [split; [intros []|cbn; lia]|].
  rewrite getFreeIdx_not_nil, list_sort_sorted, list_unique_sorted by done.
  destruct (find_idx _ (differences l)) as [i|] eqn:Hi.
  - destruct (gap_fresh l i Hs Hv Hi) as [Hn Hin]. rewrite List.Forall_forall in Hv.
    apply Hv in Hin. unfold valid_index in Hin. rewrite u32_small by lia. split; [done|lia].
  - destruct (fold_min_le l (List.hd 0 l)) as [Hm1 Hm2], (fold_max_le l (List.hd 0 l)) as [HM1 HM2].
    fold (list_min l) in Hm1, Hm2. fold (list_max l) in HM1, HM2.
    assert (HMr : In (list_max l) l).
    { destruct (fold_max_In l (List.hd 0 l)) as [H|H]; [|exact H].
      unfold list_max. rewrite H. destruct l; [done|by left]. }
    rewrite List.Forall_forall in Hm2, HM2, Hv.
    pose proof (Hv _ HMr) as Hr. pose proof (Hm2 _ HMr). unfold valid_index in Hr.
    rewrite u32_small by lia. destruct (Z.ltb_spec 1 (list_min l)) as [Hlt|Hge]; (split; [|lia]); intros Hc.
    + apply Hm2 in Hc. lia.
    + apply HM2 in Hc. lia.
Qed.

(** ** Lemmas: capability indexes *)

(** Every index of the graph, of the session and of its streams. *)
Definition acap_indexes (g : PotentialCfgGraph) : list Z :=
  map index_of (globalAcap g) ++ concat (map (fun p => map index_of (snd p)) (g_acap g)).
Definition tcap_indexes (g : PotentialCfgGraph) : list Z :=
  map index_of (globalTcap g) ++ concat (map (fun p => map index_of (snd p)) (g_tcap g)).

Lemma has_index_In {C} `{HasIndex C} i (l : list C) : has_index i l = true <-> In i (map index_of l).
Proof.
  unfold has_index. rewrite existsb_exists, in_map_iff.
  setoid_rewrite Z.eqb_eq. firstorder congruence.
Qed.

Lemma fold_found_In {C} `{HasIndex C} i (m : uint_map (list C)) b :
  fold_left (fun found p => found || has_index i (snd p)) m b = true <->
  b = true \/ In i (concat (map (fun p => map index_of (snd p)) m)).
Proof.
  revert b. induction m as [|p m IH]; intros b; simpl; [tauto|].
  rewrite IH, orb_true_iff, has_index_In, in_app_iff. tauto.
Qed.

Lemma canFindAcapWithIdx_true g i : canFindAcapWithIdx g i = true <-> In i (acap_indexes g).
Proof.
  unfold canFindAcapWithIdx, acap_indexes. cbv zeta.
  rewrite orb_true_iff, fold_found_In, has_index_In, in_app_iff. intuition congruence.
Qed.

Lemma canFindTcapWithIdx_true g i : canFindTcapWithIdx g i = true <-> In i (tcap_indexes g).
Proof.
  unfold canFindTcapWithIdx, tcap_indexes. cbv zeta.
  rewrite orb_true_iff, fold_found_In, has_index_In, in_app_iff. intuition congruence.
Qed.

(** Appending a capability to the list of a stream adds its index. *)
Lemma om_alter_push_perm {C} `{HasIndex C} (k : Z) (c : C) (m : uint_map (list C)) :
  om_sorted id_rank m ->
  Permutation (concat (map (fun p => map index_of (snd p)) (om_alter id_rank [] (fun l => l ++ [c]) k m)))
    (index_of c :: concat (map (fun p => map index_of (snd p)) m)).
Proof.
  intros Hs. unfold om_alter. destruct (om_find id_rank k m) as [w|] eqn:E; simpl.
  - destruct (om_set_Some_perm id_rank k (w ++ [c]) w m Hs E) as (k' & m' & _ & H1 & H2).
    rewrite (concat_map_perm _ _ _ H1), (concat_map_perm _ _ _ H2). simpl.
    rewrite map_app, <- List.app_assoc. symmetry. apply Permutation_middle.
  - by rewrite (concat_map_perm _ _ _ (om_set_None_perm id_rank k [c] m E)).
Qed.

(** The invariant the adding operations keep: ordered maps, no index twice. *)
Definition graph_wf (g : PotentialCfgGraph) : Prop :=
  om_sorted id_rank (g_acap g) /\ om_sorted id_rank (g_tcap g) /\
  NoDup (acap_indexes g) /\ NoDup (tcap_indexes g).

Lemma negb_find_acap g i : negb (canFindAcapWithIdx g i) = true <-> ~ In i (acap_indexes g).
Proof. rewrite negb_true_iff, <- not_true_iff_false, canFindAcapWithIdx_true. done. Qed.
Lemma negb_find_tcap g i : negb (canFindTcapWithIdx g i) = true <-> ~ In i (tcap_indexes g).
Proof. rewrite negb_true_iff, <- not_true_iff_false, canFindTcapWithIdx_true. done. Qed.

Lemma NoDup_cons_perm (i : Z) l l' : Permutation l' (i :: l) -> ~ In i l -> NoDup l -> NoDup l'.
Proof. intros Hp Hi Hl. rewrite Hp. apply NoDup_cons. by rewrite list_elem_of_In. Qed.

(** A refused addition leaves the graph as it is; an accepted one adds exactly
    the index. *)
Lemma addGlobalAcap_indexes g i name value :
  (addGlobalAcap g i name value).2 = true ->
  Permutation (acap_indexes (addGlobalAcap g i name value).1) (i :: acap_indexes g) /\ ~ In i (acap_indexes g).
Proof.
  unfold addGlobalAcap. simpl. intros Hc. rewrite Hc. split; [|by apply negb_find_acap].
  unfold acap_indexes. simpl. rewrite map_app, <- List.app_assoc. simpl. symmetry. apply Permutation_middle.
Qed.

Lemma addGlobalTcap_indexes g i value :
  (addGlobalTcap g i value).2 = true ->
  Permutation (tcap_indexes (addGlobalTcap g i value).1) (i :: tcap_indexes g) /\ ~ In i (tcap_indexes g).
Proof.
  unfold addGlobalTcap. simpl. intros Hc. rewrite Hc. split; [|by apply negb_find_tcap].
  unfold tcap_indexes. simpl. rewrite map_app, <- List.app_assoc. simpl. symmetry. apply Permutation_middle.
Qed.

Lemma addAcapToStream_indexes g s i name value :
  om_sorted id_rank (g_acap g) ->
  (addAcapToStream g s i name value).2 = true ->
  Permutation (acap_indexes (addAcapToStream g s i name value).1) (i :: acap_indexes g) /\
  ~ In i (acap_indexes g).
Proof.
  unfold addAcapToStream. simpl. intros Hs Hc. rewrite Hc. split; [|by apply negb_find_acap].
  unfold acap_indexes. simpl. rewrite om_alter_push_perm by done. symmetry. apply Permutation_middle.
Qed.

Lemma addTcapToStream_indexes g s i value :
  om_sorted id_rank (g_tcap g) ->
  (addTcapToStream g s i value).2 = true ->
  Permutation (tcap_indexes (addTcapToStream g s i value).1) (i :: tcap_indexes g) /\
  ~ In i (tcap_indexes g).
Proof.
  unfold addTcapToStream. simpl. intros Hs Hc. rewrite Hc. split; [|by apply negb_find_tcap].
  unfold tcap_indexes. simpl. rewrite om_alter_push_perm by done. symmetry. apply Permutation_middle.
Qed.

(** ** The graph as a state machine

    One step per operation that adds to a graph. *)
Inductive graph_step : PotentialCfgGraph -> PotentialCfgGraph -> Prop :=
  | step_addGlobalAcap g i name value : graph_step g (addGlobalAcap g i name value).1
  | step_addGlobalTcap g i value : graph_step g (addGlobalTcap g i value).1
  | step_addAcapToStream g s i name value : graph_step g (addAcapToStream g s i name value).1
  | step_addTcapToStream g s i value : graph_step g (addTcapToStream g s i value).1
  | step_addCfg g s i acapIdxs tcapIdx dm ds : graph_step g (addCfg g s i acapIdxs tcapIdx dm ds)
  | step_addAcapListToCfg g s i acapIdx : graph_step g (addAcapListToCfg g s i acapIdx)
  | step_addTcapListToCfg g s i tcapIdx : graph_step g (addTcapListToCfg g s i tcapIdx).

Inductive graph_reachable : PotentialCfgGraph -> Prop :=
  | reachable_empty : graph_reachable empty_graph
  | reachable_step g g' : graph_reachable g -> graph_step g g' -> graph_reachable g'.

Lemma graph_wf_caps g g' :
  globalAcap g' = globalAcap g -> globalTcap g' = globalTcap g -> g_acap g' = g_acap g -> g_tcap g' = g_tcap g ->
  graph_wf g -> graph_wf g'.
Proof. unfold graph_wf, acap_indexes, tcap_indexes. by intros -> -> -> ->. Qed.

Lemma graph_step_wf g g' : graph_step g g' -> graph_wf g -> graph_wf g'.
Proof.
  intros Hstep (Ha & Ht & Na & Nt). destruct Hstep.
  - pose proof (addGlobalAcap_indexes g i name value) as H. revert H. unfold addGlobalAcap. cbn [fst snd].
    destruct (negb (canFindAcapWithIdx g i)); [|by intros _].
    intros H. destruct (H eq_refl) as [Hp Hi]. split; [done|]. split; [done|]. split; [|done].
    by eapply NoDup_cons_perm.
  - pose proof (addGlobalTcap_indexes g i value) as H. revert H. unfold addGlobalTcap. cbn [fst snd].
    destruct (negb (canFindTcapWithIdx g i)); [|by intros _].
    intros H. destruct (H eq_refl) as [Hp Hi]. split; [done|]. split; [done|]. split; [done|].
    by eapply NoDup_cons_perm.
  - pose proof (addAcapToStream_indexes g s i name value Ha) as H. revert H. unfold addAcapToStream. cbn [fst snd].
    destruct (negb (canFindAcapWithIdx g i)); [|by intros _].
    intros H. destruct (H eq_refl) as [Hp Hi]. split; [by apply om_set_sorted|]. split; [done|]. split; [|done].
    by eapply NoDup_cons_perm.
  - pose proof (addTcapToStream_indexes g s i value Ht) as H. revert H. unfold addTcapToStream. cbn [fst snd].
    destruct (negb (canFindTcapWithIdx g i)); [|by intros _].
    intros H. destruct (H eq_refl) as [Hp Hi]. split; [done|]. split; [by apply om_set_sorted|]. split; [done|].
    by eapply NoDup_cons_perm.
  - by apply (graph_wf_caps g).
  - apply (graph_wf_caps g); try (unfold addAcapListToCfg; destruct acapIdx; [done|]; by destruct (cfg_and_attr g s i)).
  - apply (graph_wf_caps g); try (unfold addTcapListToCfg; destruct tcapIdx; [done|]; by destruct (cfg_and_attr g s i)).
Qed.

Lemma graph_reachable_wf g : graph_reachable g -> graph_wf g.
Proof.
  induction 1 as [|g g' _ IH Hs]; [|by eapply graph_step_wf].
  split; [constructor|]. split; [constructor|]. split; constructor.
Qed.

(** ** Properties *)

(** Indexes of capabilities are unique: whatever operations built the graph,
    no two attribute capabilities share an index, nor two transport ones,
    between the session and all the streams. *)
Theorem capability_indexes_unique g :
  graph_reachable g -> NoDup (acap_indexes g) /\ NoDup (tcap_indexes g).
Proof. intros H. apply graph_reachable_wf in H as (_ & _ & H1 & H2). by split. Qed.

Lemma capability_indexes_unique_witness :
  let g := (addAcapToStream (addAcapToStream (addGlobalAcap empty_graph 4 "crypto" "a").1 0 2 "setup" "b").1 1 4 "key" "c").1 in
  acap_indexes g = [4; 2] /\ NoDup (acap_indexes g) /\ NoDup (tcap_indexes g).
Proof.
  split; [reflexivity|]. apply capability_indexes_unique.
  eapply reachable_step; [eapply reachable_step; [eapply reachable_step; [exact reachable_empty|]|]|]; constructor.
Defined.

(** [getFreeIdx] on the indexes of a map, which are sorted: the index it
    gives is not in use, is not zero and fits an [unsigned int]. *)
Theorem getFreeIdx_fresh l :
  StronglySorted Z.lt l -> Forall valid_index l -> ~ In (getFreeIdx l) l /\ 1 <= getFreeIdx l < 2 ^ 32.
Proof. apply getFreeIdx_sorted. Qed.

Lemma getFreeIdx_fresh_witness :
  getFreeIdx [1; 2; 5] = 3 /\ ~ In (getFreeIdx [1; 2; 5]) [1; 2; 5] /\ 1 <= getFreeIdx [1; 2; 5] < 2 ^ 32.
Proof.
  split; [reflexivity|]. apply getFreeIdx_fresh; repeat constructor; unfold valid_index; lia.
Defined.

(** On indexes that are not sorted it may give one that is in use: the gap
    is searched in the sorted copy and read in the list itself.  A graph whose
    stream 0 got the indexes 5, 1 and 2 in that order then refuses the
    capability it just chose an index for. *)
Theorem free_index_clash :
  exists g, graph_reachable g /\ acap_indexes g = [5; 1; 2] /\ In (getFreeAcapIdx g) (acap_indexes g) /\
    forall name value, addGlobalAcap g (getFreeAcapIdx g) name value = (g, false).
Proof.
  exists (addAcapToStream (addAcapToStream (addAcapToStream empty_graph 0 5 "a" "x").1 0 1 "b" "y").1 0 2 "c" "z").1.
  split.
  { eapply reachable_step; [eapply reachable_step; [eapply reachable_step; [exact reachable_empty|]|]|]; constructor. }
  split; [reflexivity|]. split; [vm_compute; tauto|]. intros name value. reflexivity.
Qed.
