(* ===== verification/CapabilityText.v ===== *)
(** The text of a potential configuration: what [SalStreamConfiguration] writes
    in a [pcfg] or [acfg] line ([getSdpString], [src/src/sal/sal_stream_configuration.cpp])
    and what [PotentialCfgGraph] reads from such a line ([processConfig],
    [src/src/sal/potential_config_graph.cpp]). *)
From S2P Require Import Prelude SalTypes Payload SalStreamConfiguration PotentialCfgGraph.

(** [bctoolbox::Utils::split]: the pieces between the delimiters. *)
Class SplitSpec (split : string -> ascii -> list string) : Prop := {
  split_none : forall s d, str_has d s = false -> split s d = [s];
  split_cons : forall a b d, str_has d a = false -> split (a +:+ String d b) d = a :: split b d
}.

Fixpoint ref_split_from (acc s : string) (d : ascii) : list string :=
  match s with
  | EmptyString => [acc]
  | String c s' => if Ascii.eqb c d then acc :: ref_split_from EmptyString s' d
                   else ref_split_from (acc +:+ String c EmptyString) s' d
  end.
Definition ref_split (s : string) (d : ascii) : list string := ref_split_from EmptyString s d.

#[export] Instance ref_split_spec : SplitSpec ref_split.
Proof.
  assert (N : forall s d acc, str_has d s = false -> ref_split_from acc s d = [acc +:+ s]).
  { induction s as [|c s IH]; intros d acc; simpl; [by rewrite str_app_nil|].
    intros [Hc Hs]%orb_false_iff. rewrite Ascii.eqb_sym, Hc, IH, str_app_assoc by done. done. }
  assert (C : forall a b d acc, str_has d a = false ->
    ref_split_from acc (a +:+ String d b) d = (acc +:+ a) :: ref_split_from EmptyString b d).
  { induction a as [|c a IH]; intros b d acc; simpl; [by rewrite Ascii.eqb_refl, str_app_nil|].
    intros [Hc Hs]%orb_false_iff. rewrite Ascii.eqb_sym, Hc, IH, str_app_assoc by done. done. }
  split; intros; [by apply N|by apply C].
Defined.

(** ** Joining and splitting *)

Lemma str_has_concat c sep l :
  Ascii.eqb c sep = false -> Forall (fun s => str_has c s = false) l ->
  str_has c (String.concat (String sep EmptyString) l) = false.
Proof.
  intros Hc. induction 1 as [|s l Hs Hl IH]; [done|]. destruct l as [|s' l]; [done|].
  change (String.concat (String sep EmptyString) (s :: s' :: l))
    with (s +:+ String sep (String.concat (String sep EmptyString) (s' :: l))).
  rewrite str_has_app, Hs. cbn [str_has orb]. by rewrite Hc, IH.
Qed.

Section Split.
Context (split : string -> ascii -> list string) `{SplitSpec split}.

Lemma split_concat d l :
  l <> [] -> Forall (fun s => str_has d s = false) l -> split (String.concat (String d EmptyString) l) d = l.
Proof.
  intros Hne Hl. induction Hl as [|s l Hs Hl IH]; [done|]. destruct l as [|s' l].
  - by apply split_none.
  - change (String.concat (String d EmptyString) (s :: s' :: l))
      with (s +:+ String d (String.concat (String d EmptyString) (s' :: l))).
    rewrite split_cons by done. by rewrite IH.
Qed.
End Split.

(** ** Decimal indexes *)

Definition good_index (i : Z) : Prop := 1 <= i < 2 ^ 31.

Lemma to_dec_digits i : 0 <= i -> str_all is_digit (to_dec i) = true.
Proof. intros Hi. rewrite to_dec_nonneg by done. by apply dec_of_nonneg_digits. Qed.

Lemma to_dec_not_has c i : 0 <= i -> is_digit c = false -> str_has c (to_dec i) = false.
Proof. intros Hi Hc. apply (str_all_not_has is_digit); [done|by apply to_dec_digits]. Qed.

Lemma to_dec_not_empty i : 0 <= i -> to_dec i <> EmptyString.
Proof. intros Hi. rewrite to_dec_nonneg by done. destruct (dec_of_nonneg_cons i) as (c & s & ->). done. Qed.

Lemma first_digits_all s : str_all is_digit s = true -> first_digits s = s.
Proof.
  destruct s as [|c s]; [done|]. intros H. pose proof H as Hc. simpl in Hc. apply andb_true_iff in Hc as [Hc _].
  cbn [first_digits]. by rewrite Hc, str_span_nil.
Qed.

Lemma getElementIdx_to_dec i : good_index i -> getElementIdx (to_dec i) = Some i.
Proof.
  intros [Hi Hu]. unfold getElementIdx. rewrite first_digits_all by (apply to_dec_digits; lia).
  pose proof (to_dec_not_empty i ltac:(lia)) as Hne. destruct (to_dec i) as [|c s] eqn:E; [done|].
  assert (Hh : horner 0 (String c s) = i).
  { rewrite <- E, to_dec_nonneg by lia. apply dec_of_nonneg_horner. lia. }
  rewrite Hh. by replace (i <? 2 ^ 31) with true by (symmetry; apply Z.ltb_lt; lia).
Qed.

(** ** The text of a configuration *)

(** Sets of attribute capabilities as the code builds them: not empty, positive
    indexes, the first one not repeated. *)
Definition good_acap_set (l : list Z) : Prop :=
  match l with
  | [] => False
  | i :: rest => good_index i /\ Forall (fun j => good_index j /\ j <> i) rest
  end.

Definition acap_set_text (l : list Z) : string := String.concat "," (map to_dec l).

Lemma acapSet_text l acc :
  good_acap_set l -> acapSet_to_string (List.hd 0 l) l acc = acc +:+ acap_set_text l.
Proof.
  destruct l as [|i l]; [done|]. intros [Hi Hl]. unfold acapSet_to_string. cbn [List.hd fold_left].
  rewrite Z.eqb_refl. cbn [negb]. unfold good_index in *.
  replace (i =? 0) with false by (symmetry; apply Z.eqb_neq; lia). cbn [negb].
  unfold acap_set_text. revert acc. 
  enough (G : forall l acc, Forall (fun j => (1 <= j < 2 ^ 31) /\ j <> i) l ->
    fold_left (fun acapString acapIdx =>
      let acapString := if negb (acapIdx =? i) then acapString +:+ "," else acapString in
      if negb (acapIdx =? 0) then acapString +:+ to_dec acapIdx else acapString) l acc =
    acc +:+ fold_right (fun j s => "," +:+ to_dec j +:+ s) EmptyString l).
  { intros acc. rewrite G by done. rewrite str_app_assoc. f_equal. clear.
    revert i. induction l as [|j l IH]; intros i; cbn [map String.concat fold_right]; [by rewrite str_app_nil|].
    rewrite IH. cbn [map String.concat]. by destruct (map to_dec l). }
  clear. induction l as [|j l IH]; intros acc Hl; cbn [fold_left fold_right]; [by rewrite str_app_nil|].
  inversion Hl as [|? ? [Hj Hji] Hl']; subst.
  replace (j =? i) with false by (symmetry; by apply Z.eqb_neq).
  replace (j =? 0) with false by (symmetry; apply Z.eqb_neq; lia). cbn [negb].
  rewrite IH by done. by rewrite !str_app_assoc.
Qed.

Lemma str_app_empty_r (a b : string) : b <> EmptyString -> a +:+ b <> EmptyString.
Proof. intros Hb. by destruct a, b. Qed.
Lemma str_app_empty_l (a b : string) : a <> EmptyString -> a +:+ b <> EmptyString.
Proof. intros Hb. by destruct a. Qed.

Lemma acap_set_text_not_empty l : good_acap_set l -> acap_set_text l <> EmptyString.
Proof.
  destruct l as [|i l]; [done|]. intros [[Hi _] _]. unfold acap_set_text. simpl.
  pose proof (to_dec_not_empty i ltac:(lia)). destruct (map to_dec l); [done|by apply str_app_empty_l].
Qed.

Lemma acapIndexes_text sets :
  Forall good_acap_set sets -> acapIndexes_to_string sets = String.concat "|" (map acap_set_text sets).
Proof.
  intros H. unfold acapIndexes_to_string.
  enough (G : forall sets acc, Forall good_acap_set sets -> acc <> EmptyString ->
    fold_left (fun acapString acapSet =>
      let acapString := if negb (str_empty acapString) then acapString +:+ "|" else acapString in
      acapSet_to_string (List.hd 0 acapSet) acapSet acapString) sets acc =
    acc +:+ fold_right (fun l s => "|" +:+ acap_set_text l +:+ s) EmptyString sets).
  { destruct H as [|l sets Hl H]; [done|]. cbn [fold_left]. cbv zeta. cbn [str_empty String.eqb negb].
    rewrite acapSet_text by done. rewrite G; [|done|by apply acap_set_text_not_empty].
    change (EmptyString +:+ acap_set_text l) with (acap_set_text l). clear. revert l.
    induction sets as [|l' sets IH]; intros l; cbn [fold_right map]; [by rewrite str_app_nil|].
    rewrite IH. cbn [map]. reflexivity. }
  clear. induction sets as [|l sets IH]; intros acc Hs Ha; cbn [fold_left fold_right]; [by rewrite str_app_nil|].
  inversion Hs as [|? ? Hl Hs']; subst. rewrite (proj2 (str_empty_false acc) Ha). cbn [negb].
  rewrite acapSet_text by done. rewrite IH; [by rewrite !str_app_assoc|done|].
  apply str_app_empty_l. by apply str_app_empty_l.
Qed.

(** The delete part of an [a=] field. *)
Definition delete_text (c : SalStreamConfiguration) : string :=
  if cfg_delete_media_attributes c && cfg_delete_session_attributes c then "-ms"
  else if cfg_delete_session_attributes c then "-s"
  else if cfg_delete_media_attributes c then "-m"
  else EmptyString.

Definition acap_field_text (c : SalStreamConfiguration) : string :=
  (if str_empty (delete_text c) then EmptyString else delete_text c +:+ ":") +:+
  String.concat "|" (map acap_set_text (cfg_acapIndexes c)).

(** The fields of a configuration line, which belle-sip hands over as a list. *)
Definition config_fields (c : SalStreamConfiguration) : list string :=
  (if is_nil (cfg_acapIndexes c) then [] else ["a=" +:+ acap_field_text c]) ++
  (if cfg_tcapIndex c =? 0 then [] else ["t=" +:+ to_dec (cfg_tcapIndex c)]).

(** The configurations whose line can be read back: they refer to a capability,
    and to an attribute one when they delete attributes (the delete part has no
    field of its own). *)
Record good_text (c : SalStreamConfiguration) : Prop := {
  good_sets : Forall good_acap_set (cfg_acapIndexes c);
  good_some : cfg_acapIndexes c = [] -> delete_text c = EmptyString /\ cfg_tcapIndex c <> 0;
  good_tcap : cfg_tcapIndex c = 0 \/ good_index (cfg_tcapIndex c)
}.

Lemma acap_sets_not_empty sets :
  sets <> [] -> Forall good_acap_set sets -> String.concat "|" (map acap_set_text sets) <> EmptyString.
Proof.
  intros Hne H. destruct H as [|l sets Hl H]; [done|]. simpl.
  pose proof (acap_set_text_not_empty l Hl). destruct (map _ sets); [done|by apply str_app_empty_l].
Qed.

Lemma delete_text_empty c :
  delete_text c = EmptyString <-> cfg_delete_media_attributes c = false /\ cfg_delete_session_attributes c = false.
Proof. unfold delete_text. destruct (cfg_delete_media_attributes c), (cfg_delete_session_attributes c); simpl; intuition congruence. Qed.

Lemma getSdpString_fields c : good_text c -> getSdpString c = String.concat " " (config_fields c).
Proof.
  intros [Hs Hne Ht]. unfold getSdpString, config_fields, acap_field_text. rewrite acapIndexes_text by done.
  fold (delete_text c). cbv zeta.
  assert (Htc : forall s, (if negb (str_empty (if negb (cfg_tcapIndex c =? 0) then to_dec (cfg_tcapIndex c) else EmptyString))
     then (if negb (str_empty s) then s +:+ " " else s) +:+
       "t=" +:+ (if negb (cfg_tcapIndex c =? 0) then to_dec (cfg_tcapIndex c) else EmptyString) else s) =
     String.concat " " ((if str_empty s then [] else [s]) ++
       (if cfg_tcapIndex c =? 0 then [] else ["t=" +:+ to_dec (cfg_tcapIndex c)]))).
  { intros s. destruct (Z.eqb_spec (cfg_tcapIndex c) 0) as [E|E]; cbn [negb].
    - simpl. rewrite app_nil_r. destruct (str_empty s) eqn:Es; [by apply str_empty_spec in Es|done].
    - destruct Ht as [?|[Ht _]]; [done|].
      rewrite (proj2 (str_empty_false _) (to_dec_not_empty (cfg_tcapIndex c) ltac:(lia))). cbn [negb].
      destruct (str_empty s) eqn:Es; cbn [negb app String.concat]; [apply str_empty_spec in Es; by subst|].
      by rewrite !str_app_assoc. }
  rewrite Htc. f_equal. f_equal. clear Htc.
  destruct (cfg_acapIndexes c) as [|l sets] eqn:Ea.
  - destruct (Hne eq_refl) as [Hd _]. by rewrite Hd.
  - pose proof (acap_sets_not_empty (l :: sets) ltac:(done) Hs) as Ha.
    rewrite (proj2 (str_empty_false _) Ha). cbn [negb is_nil]. rewrite andb_true_r.
    destruct (str_empty (delete_text c)) eqn:Ed; cbn [negb]; [done|]. simpl. by rewrite ?str_app_assoc.
Qed.

(** ** Reading the text back *)

(** [r] is what reading the indexes [l] gives: known mandatory capabilities. *)
Definition reads {C} `{HasIndex C} (caps : list C) (l : list Z) (r : list (config_capability C)) : Prop :=
  Forall2 (fun i cc => exists c, cc = mkConfigCap (Some c) true /\ index_of c = i /\ In c caps) l r.

Section Reading.
Context (split : string -> ascii -> list string) `{SplitSpec split}.

Section Indexes.
Context {C : Type} `{HasIndex C} (caps : list C).

Definition known (i : Z) : Prop := In i (map index_of caps).

Lemma find_known i : known i ->
  exists c, List.find (fun c => index_of c =? i) caps = Some c /\ index_of c = i /\ In c caps.
Proof.
  intros Hk. destruct (List.find (fun c => index_of c =? i) caps) as [c|] eqn:E.
  - apply List.find_some in E as [Hin Hi]. apply Z.eqb_eq in Hi. eauto.
  - apply in_map_iff in Hk as (c & Hi & Hin). pose proof (List.find_none _ _ E c Hin) as Hn. simpl in Hn.
    apply Z.eqb_neq in Hn. congruence.
Qed.

Lemma parse_config_reads l acc :
  Forall (fun i => good_index i /\ known i) l ->
  exists r, parse_config caps (map to_dec l) true acc = Some (acc ++ r, true, true) /\ reads caps l r.
Proof.
  revert acc. induction l as [|i l IH]; intros acc Hl; cbn [map parse_config].
  - exists []. rewrite app_nil_r. split; [done|constructor].
  - inversion Hl as [|? ? [Hg Hk] Hl']; subst. pose proof Hg as [Hg1 _].
    rewrite !to_dec_not_has by (done || lia). rewrite getElementIdx_to_dec by done.
    destruct (find_known i Hk) as (c & Hf & Hi & Hin). rewrite Hf.
    destruct (IH (acc ++ [mkConfigCap (Some c) true]) Hl') as (r & Hr & Hreads). rewrite Hr.
    exists (mkConfigCap (Some c) true :: r). split; [by rewrite <- List.app_assoc|]. constructor; eauto.
Qed.

Definition readable_set (l : list Z) : Prop := good_acap_set l /\ Forall known l.

Lemma readable_indexes l : readable_set l -> Forall (fun i => good_index i /\ known i) l.
Proof.
  intros [Hg Hk]. destruct l as [|i l]; [constructor|]. destruct Hg as [Hi Hl]. inversion Hk; subst.
  constructor; [done|]. apply List.Forall_and; [|done]. eapply List.Forall_impl; [|exact Hl]. by intros j [? _].
Qed.

Lemma dec_texts_not_has c l : is_digit c = false -> Forall good_index l -> Forall (fun s => str_has c s = false) (map to_dec l).
Proof.
  intros Hc Hl. apply Forall_map. eapply List.Forall_impl; [|exact Hl]. intros i [Hi _]. apply to_dec_not_has; [lia|done].
Qed.

Lemma good_set_indexes l : good_acap_set l -> Forall good_index l.
Proof.
  destruct l as [|i l]; [constructor|]. intros [Hi Hl]. constructor; [done|].
  eapply List.Forall_impl; [|exact Hl]. by intros j [? _].
Qed.

Lemma acap_set_text_not_has c l :
  is_digit c = false -> Ascii.eqb c "," = false -> good_acap_set l -> str_has c (acap_set_text l) = false.
Proof. intros Hc Hs Hl. apply str_has_concat; [done|]. apply dec_texts_not_has; [done|by apply good_set_indexes]. Qed.

Lemma parse_set l : readable_set l -> exists r, parse_config caps (split (acap_set_text l) ",") true [] = Some (r, true, true) /\ reads caps l r.
Proof.
  intros Hl. unfold acap_set_text. rewrite split_concat with (split := split).
  - apply (parse_config_reads l []), readable_indexes, Hl.
  - done.
  - destruct Hl as [Hg _]. by destruct l.
  - apply dec_texts_not_has; [done|]. apply good_set_indexes, Hl.
Qed.

Lemma parse_configs_reads sets acc :
  Forall readable_set sets ->
  exists r, parse_configs split caps (map acap_set_text sets) true acc true = Some (acc ++ r, true) /\
    Forall2 (reads caps) sets r.
Proof.
  revert acc. induction sets as [|l sets IH]; intros acc Hs; cbn [map parse_configs].
  - exists []. rewrite app_nil_r. split; [done|constructor].
  - inversion Hs as [|? ? Hl Hs']; subst. destruct (parse_set l Hl) as (r & Hr & Hreads). rewrite Hr.
    destruct r as [|x r].
    { inversion Hreads; subst. destruct Hl as [[] _]. }
    destruct (IH (acc ++ [x :: r]) Hs') as (rs & Hrs & Hreadss). cbn [andb]. rewrite Hrs.
    exists ((x :: r) :: rs). split; [by rewrite <- List.app_assoc|]. by constructor.
Qed.

Lemma parseIdxList_reads sets :
  sets <> [] -> Forall readable_set sets ->
  exists r, parseIdxList split (String.concat "|" (map acap_set_text sets)) caps = Some (r, true) /\
    Forall2 (reads caps) sets r.
Proof.
  intros Hne Hs. unfold parseIdxList. rewrite split_concat with (split := split).
  - apply (parse_configs_reads sets []), Hs.
  - done.
  - by destruct sets.
  - apply Forall_map. eapply List.Forall_impl; [|exact Hs]. intros l [Hl _]. by apply acap_set_text_not_has.
Qed.
End Indexes.

(** The fields of a line. *)
Lemma split_field name body :
  str_has "=" name = false -> str_has "=" body = false -> split (name +:+ String "=" body) "=" = [name; body].
Proof. intros Hn Hb. by rewrite split_cons, split_none. Qed.

Lemma split_delete del text :
  str_has ":" del = false -> str_has ":" text = false ->
  split ((if str_empty del then EmptyString else del +:+ ":") +:+ text) ":" =
  (if str_empty del then [] else [del]) ++ [text].
Proof.
  intros Hd Ht. destruct (str_empty del); cbn [app]; [by apply split_none|].
  rewrite str_app_assoc. change (":" +:+ text) with (String ":" text). by rewrite split_cons, split_none.
Qed.

Lemma delete_text_not_has ch c :
  str_has ch "-ms" = false -> str_has ch (delete_text c) = false.
Proof.
  simpl. rewrite !orb_false_iff. unfold delete_text.
  destruct (cfg_delete_media_attributes c), (cfg_delete_session_attributes c); simpl;
    rewrite ?orb_false_iff; intuition.
Qed.

Lemma sets_text_not_has ch sets :
  is_digit ch = false -> Ascii.eqb ch "," = false -> Ascii.eqb ch "|" = false -> Forall good_acap_set sets ->
  str_has ch (String.concat "|" (map acap_set_text sets)) = false.
Proof.
  intros Hd Hc Hb Hs. apply str_has_concat; [done|]. apply Forall_map. eapply List.Forall_impl; [|exact Hs].
  intros l Hl. by apply acap_set_text_not_has.
Qed.

Lemma delete_flags c text :
  str_has "m" text = false -> str_has "s" text = false ->
  let hd := List.hd EmptyString ((if str_empty (delete_text c) then [] else [delete_text c]) ++ [text]) in
  str_has "m" hd = cfg_delete_media_attributes c /\ str_has "s" hd = cfg_delete_session_attributes c.
Proof.
  intros Hm Hs. unfold delete_text.
  destruct (cfg_delete_media_attributes c), (cfg_delete_session_attributes c); simpl; by rewrite ?Hm, ?Hs.
Qed.

(** Reading the [a=] field. *)
Lemma process_acap_field (acaps : list acapability) tcaps c rest :
  cfg_acapIndexes c <> [] -> Forall (readable_set acaps) (cfg_acapIndexes c) ->
  exists r, Forall2 (reads acaps) (cfg_acapIndexes c) r /\
    process_list split acaps tcaps (("a=" +:+ acap_field_text c) :: rest) (mkProcess [] [] false false false false) =
    process_list split acaps tcaps rest
      (mkProcess r [] false false (cfg_delete_media_attributes c) (cfg_delete_session_attributes c)).
Proof.
  intros Hne Hs. pose proof (parseIdxList_reads acaps _ Hne Hs) as (r & Hr & Hreads). exists r. split; [done|].
  assert (Hg : Forall good_acap_set (cfg_acapIndexes c))
    by (eapply List.Forall_impl; [|exact Hs]; by intros l [? _]).
  unfold acap_field_text. set (text := String.concat "|" (map acap_set_text (cfg_acapIndexes c))) in *.
  assert (Ht : forall ch, is_digit ch = false -> Ascii.eqb ch "," = false -> Ascii.eqb ch "|" = false ->
    str_has ch text = false) by (intros; by apply sets_text_not_has).
  cbn [process_list].
  change ("a=" +:+ ?b) with ("a" +:+ String "=" b).
  rewrite split_field; [|done|].
  2: { rewrite str_has_app, Ht by done. destruct (str_empty (delete_text c)); [done|].
       by rewrite str_has_app, delete_text_not_has. }
  cbn [length Nat.ltb Nat.leb List.hd List.last]. cbn [capabilityTypeFromAttrParam String.eqb].
  rewrite split_delete; [|by apply delete_text_not_has|by apply Ht].
  destruct (delete_flags c text) as [Hm Hses]; [by apply Ht|by apply Ht|].
  unfold process_acap. rewrite last_last. cbn [acapCfgList is_nil].
  change (capabilityTypeFromAttrParam "a") with ATTRIBUTE. cbv iota. rewrite Hr. cbn [negb andb orb].
  destruct r as [|x r]; [inversion Hreads; congruence|]. cbn [is_nil negb]. by rewrite Hm, Hses.
Qed.

(** Reading the [t=] field. *)
Lemma process_tcap_field (acaps : list acapability) (tcaps : list capability) i st :
  good_index i -> known tcaps i -> tcapCfgList st = [] -> tcapProcessingError st = false ->
  exists cc, reads tcaps [i] [cc] /\
    process_list split acaps tcaps ["t=" +:+ to_dec i] st =
    Some (Some (mkProcess (acapCfgList st) [cc] (acapProcessingError st) false (del_media st) (del_session st))).
Proof.
  intros Hg Hk Hnil He. pose proof Hg as [Hg1 _].
  assert (Hs : Forall (readable_set tcaps) [[i]]).
  { constructor; [|constructor]. split; [split; [exact Hg|constructor]|]. constructor; [exact Hk|constructor]. }
  destruct (parseIdxList_reads tcaps [[i]] ltac:(done) Hs) as (r & Hr & Hreads).
  change (String.concat "|" (map acap_set_text [[i]])) with (to_dec i) in Hr.
  inversion Hreads as [|? l' ? r' Hl Hnl]; subst. inversion Hnl; subst.
  inversion Hl as [|? cc ? ? Hcc Hcn]; subst. inversion Hcn; subst. exists cc. split; [exact Hl|].
  cbn [process_list]. change ("t=" +:+ to_dec i) with ("t" +:+ String "=" (to_dec i)).
  rewrite split_field; [|done|apply to_dec_not_has; [lia|done]].
  cbn [length Nat.ltb Nat.leb List.hd List.last].
  change (capabilityTypeFromAttrParam "t") with TRANSPORT_PROTOCOL. cbv iota.
  rewrite split_none by (apply to_dec_not_has; [lia|done]).
  unfold process_tcap. cbn [List.last]. rewrite Hnil. cbn [is_nil]. rewrite Hr, He.
  cbn [negb andb orb is_nil push_tcaps fold_left]. by destruct st; simpl in *; subst.
Qed.

Lemma processConfig_fields acaps tcaps c :
  good_text c -> Forall (Forall (known acaps)) (cfg_acapIndexes c) ->
  (cfg_tcapIndex c = 0 \/ known tcaps (cfg_tcapIndex c)) ->
  exists r, processConfig split (config_fields c) acaps tcaps = Some r /\
    Forall2 (reads acaps) (cfg_acapIndexes c) (ca_acap r) /\
    reads tcaps (if cfg_tcapIndex c =? 0 then [] else [cfg_tcapIndex c]) (ca_tcap r) /\
    ca_delete_media_attributes r = cfg_delete_media_attributes c /\
    ca_delete_session_attributes r = cfg_delete_session_attributes c.
Proof.
  intros [Hs Hne Ht] Ha Hk. unfold processConfig, config_fields.
  assert (Hrs : Forall (readable_set acaps) (cfg_acapIndexes c)) by (by apply List.Forall_and).
  assert (Htail : forall st, tcapCfgList st = [] -> tcapProcessingError st = false ->
    exists l, reads tcaps (if cfg_tcapIndex c =? 0 then [] else [cfg_tcapIndex c]) l /\
    process_list split acaps tcaps (if cfg_tcapIndex c =? 0 then [] else ["t=" +:+ to_dec (cfg_tcapIndex c)]) st =
    Some (Some (mkProcess (acapCfgList st) l (acapProcessingError st) false (del_media st) (del_session st)))).
  { intros st Hnil He. destruct (Z.eqb_spec (cfg_tcapIndex c) 0) as [E|E].
    - exists []. split; [constructor|]. cbn [process_list]. by destruct st; simpl in *; subst.
    - destruct Ht as [?|Hg]; [done|]. destruct Hk as [?|Hk]; [done|].
      destruct (process_tcap_field acaps tcaps (cfg_tcapIndex c) st Hg Hk Hnil He) as (cc & Hcc & Hp). eauto. }
  destruct (cfg_acapIndexes c) as [|l sets] eqn:Ea; cbn [is_nil app].
  - destruct (Hne eq_refl) as [Hd Htc]. apply delete_text_empty in Hd as [Hd1 Hd2].
    destruct (Htail (mkProcess [] [] false false false false) eq_refl eq_refl) as (tl & Htl & Hp). rewrite Hp.
    cbn. destruct (Z.eqb_spec (cfg_tcapIndex c) 0) as [E|E]; [done|].
    destruct tl as [|cc tl]; [inversion Htl|]. cbn. eexists. split; [reflexivity|].
    repeat split; cbn; try done.
  - rewrite <- Ea in *.
    assert (Hnil : cfg_acapIndexes c <> []) by (by rewrite Ea).
    destruct (process_acap_field acaps tcaps c (if cfg_tcapIndex c =? 0 then [] else ["t=" +:+ to_dec (cfg_tcapIndex c)])
      Hnil Hrs) as (r & Hr & Hp1). rewrite Hp1.
    match goal with |- context [process_list _ _ _ _ ?st] => destruct (Htail st eq_refl eq_refl) as (tl & Htl & Hp) end.
    rewrite Hp. cbn. destruct r as [|x r]; [inversion Hr; congruence|]. rewrite andb_false_r.
    eexists. split; [reflexivity|]. done.
Qed.
End Reading.

(** ** Properties *)

(** Capability lines round trip: the text of a configuration is the list of
    its fields separated by spaces, and reading those fields against
    capabilities that have every index it refers to gives back the same sets of
    attribute capabilities, all mandatory, the same transport capability and the
    same deletions. *)
Theorem configuration_line_roundtrip split (spec : SplitSpec split) acaps tcaps c :
  good_text c -> Forall (Forall (known acaps)) (cfg_acapIndexes c) ->
  (cfg_tcapIndex c = 0 \/ known tcaps (cfg_tcapIndex c)) ->
  getSdpString c = String.concat " " (config_fields c) /\
  exists r, processConfig split (config_fields c) acaps tcaps = Some r /\
    Forall2 (reads acaps) (cfg_acapIndexes c) (ca_acap r) /\
    reads tcaps (if cfg_tcapIndex c =? 0 then [] else [cfg_tcapIndex c]) (ca_tcap r) /\
    ca_delete_media_attributes r = cfg_delete_media_attributes c /\
    ca_delete_session_attributes r = cfg_delete_session_attributes c.
Proof. intros Hg Ha Ht. split; [by apply getSdpString_fields|by apply processConfig_fields]. Qed.

Definition ex_capability (i : Z) (v : string) : capability := mkCapability i v ATTRIBUTE.
Definition ex_acaps : list acapability :=
  [mkAcapability (ex_capability 1 "1 AES_CM_128_HMAC_SHA1_80 inline:k") "crypto";
   mkAcapability (ex_capability 12 "actpass") "setup"; mkAcapability (ex_capability 3 "SHA-1 00") "fingerprint"].
Definition ex_tcaps : list capability := [mkCapability 7 "RTP/SAVP" TRANSPORT_PROTOCOL].
Definition ex_line : SalStreamConfiguration :=
  empty_cfg <| cfg_acapIndexes := [[1]; [3; 12]] |> <| cfg_tcapIndex := 7 |> <| cfg_delete_media_attributes := true |>.

Lemma configuration_line_roundtrip_witness :
  getSdpString ex_line = "a=-m:1|3,12 t=7" /\
  exists r, processConfig ref_split ["a=-m:1|3,12"; "t=7"] ex_acaps ex_tcaps = Some r /\
    ca_delete_media_attributes r = true /\ length (ca_acap r) = 2%nat.
Proof.
  split; [reflexivity|].
  destruct (configuration_line_roundtrip ref_split ref_split_spec ex_acaps ex_tcaps ex_line) as (_ & r & Hr & Ha & _ & Hd & _).
  - split.
    + constructor; [|constructor; [|constructor]]; simpl; unfold good_index.
      * split; [lia|constructor].
      * split; [lia|]. constructor; [lia|constructor].
    + discriminate.
    + right. unfold good_index. simpl. lia.
  - repeat constructor; unfold known; simpl; tauto.
  - right. unfold known. simpl. tauto.
  - exists r. split; [exact Hr|]. split; [exact Hd|]. symmetry. exact (Forall2_length _ _ _ Ha).
Defined.

(** A line with deletions and no attribute capability cannot be read back:
    the deletions are lost and, with a transport capability only, [-m] is taken
    for a list of attribute capabilities and reading throws. *)
Theorem delete_only_line_unreadable :
  let c := empty_cfg <| cfg_tcapIndex := 7 |> <| cfg_delete_media_attributes := true |> in
  getSdpString c = "a=-m t=7" /\ processConfig ref_split ["a=-m"; "t=7"] ex_acaps ex_tcaps = None.
Proof. split; reflexivity. Qed.
