(* ===== verification/SalStreamBundle.v ===== *)
(** RTP bundles: [SalStreamBundle] ([src/src/sal/sal_stream_bundle.h] and
    [.cpp]), the ordered list of the media ids of the streams that share a
    transport, its [a=group:BUNDLE] text and the reader of that text. *)
From S2P Require Import Prelude SalTypes Payload SalStreamConfiguration.

(** A bundle is its list of mids; the first one owns the transport. *)
Definition SalStreamBundle : Type := list string.

#[export] Instance SalStreamBundle_eq_dec : EqDecision SalStreamBundle.
Proof. unfold SalStreamBundle. solve_decision. Defined.

(** The constructor from a C string: [sscanf(ids, "%s%n", ...)] until it fails
    or the string is consumed.  Each turn consumes a character at least, so the
    length of the string is enough fuel. *)
Fixpoint bundle_scan (fuel : nat) (ids : string) : list string :=
  match fuel with
  | O => []
  | S fuel' =>
      match scan_word (String.length ids) ids with
      | None => []
      | Some (mid, rest) => if str_empty rest then [mid] else mid :: bundle_scan fuel' rest
      end
  end.
Definition bundle_of_string (ids : string) : SalStreamBundle := bundle_scan (S (String.length ids)) ids.

(** The value of the [group] attribute [addToSdp] adds. *)
Definition addToSdp (this : SalStreamBundle) : string * string :=
  ("group", fold_left (fun attr_value mid => (attr_value +:+ " ") +:+ mid) this "BUNDLE").

Definition bundle_eq (this other : SalStreamBundle) : bool := bool_decide (this = other).
Definition bundle_neq (this other : SalStreamBundle) : bool := negb (bundle_eq this other).

Definition addStream (this : SalStreamBundle) (cfg : SalStreamConfiguration) (mid : string)
    : SalStreamBundle * SalStreamConfiguration :=
  let cfg := cfg <| cfg_mid := mid |> in
  match this with
  | [] => if cfg_bundle_only cfg then ([EmptyString; mid], cfg) else ([mid], cfg)
  | front :: rest =>
      if negb (cfg_bundle_only cfg) && String.eqb front EmptyString
      then (mid :: rest, cfg)
      else (this ++ [mid], cfg)
  end.

Definition getMidOfTransportOwner (this : SalStreamBundle) : string :=
  match this with
  | [] => EmptyString
  | mid :: _ => mid
  end.

Definition hasMid (this : SalStreamBundle) (mid : string) : bool :=
  existsb (fun bundleMid => String.eqb bundleMid mid) this.

(** ** Lemmas *)

Lemma hasMid_In this mid : hasMid this mid = true <-> In mid this.
Proof.
  unfold hasMid. rewrite existsb_exists. setoid_rewrite String.eqb_eq. firstorder congruence.
Qed.

(** What the [group] attribute holds after the word [BUNDLE]. *)
Definition mids_text (mids : list string) : string :=
  fold_right (fun mid s => " " +:+ mid +:+ s) EmptyString mids.

Lemma addToSdp_text this : (addToSdp this).2 = "BUNDLE" +:+ mids_text this.
Proof.
  unfold addToSdp. simpl snd.
  enough (G : forall a, fold_left (fun v mid => (v +:+ " ") +:+ mid) this a = a +:+ mids_text this) by apply G.
  induction this as [|m l IH]; intros a; cbn [fold_left mids_text fold_right]; [by rewrite str_app_nil|].
  rewrite IH. by rewrite !str_app_assoc.
Qed.

Lemma bundle_scan_text fuel mids :
  Forall is_token mids -> (length mids < fuel)%nat -> bundle_scan fuel (mids_text mids) = mids.
Proof.
  revert fuel. induction mids as [|m mids IH]; intros fuel Hm Hf; (destruct fuel as [|fuel]; [simpl in Hf; lia|]).
  - done.
  - inversion Hm as [|? ? Ht Hms]; subst.
    assert (E : mids_text (m :: mids) = String " " (m +:+ mids_text mids)) by reflexivity.
    rewrite E. cbn [bundle_scan]. rewrite scan_word_space; [|done| |].
    + destruct mids as [|m' mids]; [done|].
      destruct (str_empty (mids_text (m' :: mids))) eqn:He; [by apply str_empty_spec in He|].
      f_equal. apply IH; [done|]. simpl in *. lia.
    + cbn [String.length]. rewrite str_length_app. lia.
    + by destruct mids.
Qed.

Lemma mids_text_length mids : (length mids <= String.length (mids_text mids))%nat.
Proof.
  induction mids as [|m mids IH]; [done|].
  change (mids_text (m :: mids)) with (String " " (m +:+ mids_text mids)). cbn [String.length length].
  rewrite str_length_app. lia.
Qed.

Lemma bundle_of_text mids : Forall is_token mids -> bundle_of_string (mids_text mids) = mids.
Proof.
  intros H. unfold bundle_of_string. apply bundle_scan_text; [done|].
  pose proof (mids_text_length mids). lia.
Qed.

Lemma addStream_spec b cfg mid :
  (addStream b cfg mid).2 = cfg <| cfg_mid := mid |> /\ In mid (addStream b cfg mid).1 /\
  (forall m, m <> EmptyString -> In m b -> In m (addStream b cfg mid).1).
Proof.
  unfold addStream. cbv zeta. destruct b as [|front rest].
  - destruct (cfg_bundle_only _); simpl; (split; [done|split; [tauto|intros m _ []]]).
  - destruct (negb _ && String.eqb front EmptyString) eqn:E; simpl.
    + apply andb_true_iff in E as [_ E]. apply String.eqb_eq in E. subst front.
      split; [done|]. split; [auto|]. intros m Hm [<-|Hin]; [done|auto].
    + split; [done|]. split; [right; apply in_or_app; right; by left|].
      intros m _ [<-|Hin]; [by left|right; apply in_or_app; by left].
Qed.

(** ** Properties *)

(** The [group] attribute round trips: reading what follows the word BUNDLE
    in the value written for a bundle of non-empty mids without spaces gives the
    same bundle, in the same order. *)
Theorem bundle_attribute_roundtrip mids :
  Forall is_token mids ->
  (addToSdp mids).1 = "group" /\
  exists ids, (addToSdp mids).2 = "BUNDLE" +:+ ids /\ bundle_of_string ids = mids.
Proof.
  intros H. split; [done|]. exists (mids_text mids). split; [apply addToSdp_text|by apply bundle_of_text].
Qed.

Lemma bundle_attribute_roundtrip_witness :
  (addToSdp ["as"; "vs"]).2 = "BUNDLE as vs" /\
  exists ids, (addToSdp ["as"; "vs"]).2 = "BUNDLE" +:+ ids /\ bundle_of_string ids = ["as"; "vs"].
Proof.
  split; [reflexivity|]. apply (bundle_attribute_roundtrip ["as"; "vs"]).
  repeat constructor; discriminate.
Defined.

(** Adding the streams of a description in order, as both engines do. *)
Definition add_all (streams : list SalStreamConfiguration) : SalStreamBundle :=
  fold_left (fun b cfg => (addStream b cfg (cfg_mid cfg)).1) streams [].

Lemma add_all_snoc l c : add_all (l ++ [c]) = (addStream (add_all l) c (cfg_mid c)).1.
Proof. unfold add_all. by rewrite fold_left_app. Qed.

(** The owner is the first stream that is not bundle-only, or the empty mid as
    long as there is none; every mid is in the bundle. *)
Definition bundle_of (streams : list SalStreamConfiguration) (b : SalStreamBundle) : Prop :=
  match List.find (fun c => negb (cfg_bundle_only c)) streams with
  | Some c => getMidOfTransportOwner b = cfg_mid c
  | None => streams <> [] -> getMidOfTransportOwner b = EmptyString
  end /\
  (streams = [] <-> b = []) /\
  Forall (fun c => In (cfg_mid c) b) streams.

Lemma addStream_not_nil b c mid : (addStream b c mid).1 <> [].
Proof. unfold addStream. cbv zeta. by destruct b; repeat case_match. Qed.

(** The owner after one more stream. *)
Lemma addStream_owner b c :
  getMidOfTransportOwner (addStream b c (cfg_mid c)).1 =
  if str_empty (getMidOfTransportOwner b)
  then if cfg_bundle_only c then EmptyString else cfg_mid c
  else getMidOfTransportOwner b.
Proof.
  unfold addStream. cbv zeta. cbn [cfg_bundle_only]. destruct b as [|front b]; simpl.
  - by destruct (cfg_bundle_only c).
  - unfold str_empty. destruct (String.eqb front EmptyString) eqn:E.
    + apply String.eqb_eq in E. subst. by destruct (cfg_bundle_only c).
    + by rewrite andb_false_r.
Qed.

Lemma add_all_bundle_of streams :
  Forall (fun c => cfg_mid c <> EmptyString) streams -> bundle_of streams (add_all streams).
Proof.
  induction streams as [|c streams IH] using rev_ind; intros Hm.
  - split; [done|]. split; [done|constructor].
  - apply Forall_app in Hm as [Hm Hc]. inversion Hc as [|? ? Hc' _]; subst.
    destruct (IH Hm) as (Ho & He & Hin). rewrite add_all_snoc.
    pose proof (addStream_spec (add_all streams) c (cfg_mid c)) as (_ & Hnew & Hold).
    split; [|split].
    + rewrite find_app, addStream_owner. destruct (List.find _ streams) as [o|] eqn:Ef.
      * rewrite Ho. apply List.find_some in Ef as [Hi _]. rewrite List.Forall_forall in Hm.
        by rewrite (proj2 (str_empty_false _) (Hm o Hi)).
      * assert (getMidOfTransportOwner (add_all streams) = EmptyString) as ->.
        { destruct streams; [done|]. by apply Ho. }
        simpl. by destruct (cfg_bundle_only c).
    + split; intros H; [by apply app_eq_nil in H as [_ ?]|by apply addStream_not_nil in H].
    + apply Forall_app. split; [|constructor; [done|constructor]].
      rewrite List.Forall_forall in *. intros d Hd. apply Hold; [by apply Hm|by apply Hin].
Qed.

(** The transport owner of a bundle built by adding streams is the first
    stream that is not bundle-only (an empty mid stands for it until there is
    one), and every stream that was added is in the bundle. *)
Theorem bundle_transport_owner streams :
  Forall (fun c => cfg_mid c <> EmptyString) streams -> bundle_of streams (add_all streams).
Proof. apply add_all_bundle_of. Qed.

Definition ex_mid (mid : string) (bundle_only : bool) : SalStreamConfiguration :=
  empty_cfg <| cfg_mid := mid |> <| cfg_bundle_only := bundle_only |>.

Lemma bundle_transport_owner_witness :
  getMidOfTransportOwner (add_all [ex_mid "as" true; ex_mid "vs" false; ex_mid "ts" false]) = "vs" /\
  bundle_of [ex_mid "as" true; ex_mid "vs" false; ex_mid "ts" false]
    (add_all [ex_mid "as" true; ex_mid "vs" false; ex_mid "ts" false]).
Proof.
  split; [reflexivity|]. apply bundle_transport_owner. repeat constructor; discriminate.
Defined.
