(* ===== verification/SalStreamDescription.v ===== *)
(** One media line: [SalStreamDescription]
    ([src/src/sal/sal_stream_description.h] and [.cpp]).  A stream holds an
    actual configuration, at index 0, and the potential configurations of the
    capability negotiation; this file models the maps it keeps them in, their
    construction from the capabilities, the state changes and the comparison of
    two streams. *)
From S2P Require Import Prelude SalTypes Payload SalStreamConfiguration PotentialCfgGraph.

(** ** Data *)

(** [SalConfigurationCmp]: keys are compared minus 1 on 32 bits, so the actual
    configuration, at index 0, is the last one of an iteration. *)
Definition cfg_rank (k : Z) : Z := u32 (k - 1).

Abbreviation cfg_map := (list (Z * SalStreamConfiguration)).
Abbreviation acap_map_t := (list (Z * (string * string))).
Abbreviation tcap_map_t := (list (Z * string)).

(** A null pointer or the attributes of the belle-sip description it holds. *)
Definition SalCustomSdpAttribute : Type := option (list (string * option string)).

Record SalStreamDescription := mkStream {
  sd_name : string;
  sd_type : SalStreamType;
  sd_typeother : string;
  sd_rtp_addr : string;
  sd_rtcp_addr : string;
  sd_rtp_port : Z;
  sd_rtcp_port : Z;
  sd_already_assigned_payloads : list OrtpPayloadType;
  sd_bandwidth : Z;
  sd_multicast_role : SalMulticastRole;
  sd_custom_sdp_attributes : SalCustomSdpAttribute;
  sd_cfgIndex : Z;
  sd_ice_candidates : list SalIceCandidate;
  sd_ice_remote_candidates : list SalIceRemoteCandidate;
  sd_ice_ufrag : string;
  sd_ice_pwd : string;
  sd_ice_mismatch : bool;
  sd_label : string;
  sd_content : string;
  sd_cfgs : cfg_map;
  sd_acaps : acap_map_t;
  sd_tcaps : tcap_map_t;
  sd_unparsed_cfgs : uint_map string;
  sd_supportedEncryption : list LinphoneMediaEncryption
}.
#[export] Instance SalStreamDescription_eta : Eta SalStreamDescription := fun r =>
  mkStream (sd_name r) (sd_type r) (sd_typeother r) (sd_rtp_addr r) (sd_rtcp_addr r) (sd_rtp_port r) (sd_rtcp_port r) (sd_already_assigned_payloads r) (sd_bandwidth r) (sd_multicast_role r) (sd_custom_sdp_attributes r) (sd_cfgIndex r) (sd_ice_candidates r) (sd_ice_remote_candidates r) (sd_ice_ufrag r) (sd_ice_pwd r) (sd_ice_mismatch r) (sd_label r) (sd_content r) (sd_cfgs r) (sd_acaps r) (sd_tcaps r) (sd_unparsed_cfgs r) (sd_supportedEncryption r).

Definition actualConfigurationIndex : Z := 0.

Definition empty_stream : SalStreamDescription := {|
  sd_name := EmptyString; sd_type := SalAudio; sd_typeother := EmptyString;
  sd_rtp_addr := EmptyString; sd_rtcp_addr := EmptyString; sd_rtp_port := 0; sd_rtcp_port := 0;
  sd_already_assigned_payloads := []; sd_bandwidth := 0; sd_multicast_role := SalMulticastInactive;
  sd_custom_sdp_attributes := None; sd_cfgIndex := actualConfigurationIndex;
  sd_ice_candidates := []; sd_ice_remote_candidates := []; sd_ice_ufrag := EmptyString;
  sd_ice_pwd := EmptyString; sd_ice_mismatch := false; sd_label := EmptyString; sd_content := EmptyString;
  sd_cfgs := []; sd_acaps := []; sd_tcaps := []; sd_unparsed_cfgs := []; sd_supportedEncryption := []
|}.

(** The loops of the copy constructor and of [operator=]: each entry of the
    other map is inserted or, when the key is present, assigned. *)
Definition merge_cfgs (cfgs other : cfg_map) : cfg_map :=
  fold_left (fun cfgs p =>
    let '(cfgs', inserted) := om_insert cfg_rank (fst p) (snd p) cfgs in
    if negb inserted then om_set cfg_rank (fst p) (snd p) cfgs' else cfgs') other cfgs.
Definition merge_unparsed_cfgs (cfgs other : uint_map string) : uint_map string :=
  fold_left (fun cfgs p =>
    let '(cfgs', inserted) := om_insert id_rank (fst p) (snd p) cfgs in
    if negb inserted then om_set id_rank (fst p) (snd p) cfgs' else cfgs') other cfgs.

(** [operator=]. *)
Definition assign (this other : SalStreamDescription) : SalStreamDescription :=
  this
  <| sd_name := sd_name other |>
  <| sd_type := sd_type other |>
  <| sd_typeother := sd_typeother other |>
  <| sd_rtp_addr := sd_rtp_addr other |>
  <| sd_rtcp_addr := sd_rtcp_addr other |>
  <| sd_rtp_port := sd_rtp_port other |>
  <| sd_rtcp_port := sd_rtcp_port other |>
  <| sd_acaps := sd_acaps other |>
  <| sd_tcaps := sd_tcaps other |>
  <| sd_cfgs := merge_cfgs (sd_cfgs this) (sd_cfgs other) |>
  <| sd_unparsed_cfgs := merge_unparsed_cfgs (sd_unparsed_cfgs this) (sd_unparsed_cfgs other) |>
  <| sd_already_assigned_payloads := sd_already_assigned_payloads other |>
  <| sd_bandwidth := sd_bandwidth other |>
  <| sd_multicast_role := sd_multicast_role other |>
  <| sd_ice_candidates := sd_ice_candidates other |>
  <| sd_ice_remote_candidates := sd_ice_remote_candidates other |>
  <| sd_ice_ufrag := sd_ice_ufrag other |>
  <| sd_ice_pwd := sd_ice_pwd other |>
  <| sd_ice_mismatch := sd_ice_mismatch other |>
  <| sd_supportedEncryption := sd_supportedEncryption other |>
  <| sd_custom_sdp_attributes := sd_custom_sdp_attributes other |>
  <| sd_cfgIndex := sd_cfgIndex other |>
  <| sd_label := sd_label other |>
  <| sd_content := sd_content other |>.

(** The copy constructor: the same member assignments and map loops on a
    default constructed object. *)
Definition copy_construct (other : SalStreamDescription) : SalStreamDescription :=
  empty_stream
  <| sd_name := sd_name other |>
  <| sd_type := sd_type other |>
  <| sd_typeother := sd_typeother other |>
  <| sd_rtp_addr := sd_rtp_addr other |>
  <| sd_rtcp_addr := sd_rtcp_addr other |>
  <| sd_rtp_port := sd_rtp_port other |>
  <| sd_rtcp_port := sd_rtcp_port other |>
  <| sd_acaps := sd_acaps other |>
  <| sd_tcaps := sd_tcaps other |>
  <| sd_cfgs := merge_cfgs [] (sd_cfgs other) |>
  <| sd_unparsed_cfgs := merge_unparsed_cfgs [] (sd_unparsed_cfgs other) |>
  <| sd_already_assigned_payloads := sd_already_assigned_payloads other |>
  <| sd_bandwidth := sd_bandwidth other |>
  <| sd_multicast_role := sd_multicast_role other |>
  <| sd_ice_candidates := sd_ice_candidates other |>
  <| sd_ice_remote_candidates := sd_ice_remote_candidates other |>
  <| sd_ice_ufrag := sd_ice_ufrag other |>
  <| sd_ice_pwd := sd_ice_pwd other |>
  <| sd_ice_mismatch := sd_ice_mismatch other |>
  <| sd_label := sd_label other |>
  <| sd_content := sd_content other |>
  <| sd_supportedEncryption := sd_supportedEncryption other |>
  <| sd_custom_sdp_attributes := sd_custom_sdp_attributes other |>
  <| sd_cfgIndex := sd_cfgIndex other |>.

(** ** Access to the configurations *)

Definition getChosenConfigurationIndex (this : SalStreamDescription) : Z := sd_cfgIndex this.
Definition getActualConfigurationIndex (this : SalStreamDescription) : Z := actualConfigurationIndex.

Definition hasConfigurationAtIndex (this : SalStreamDescription) (index : Z) : bool :=
  match om_find cfg_rank index (sd_cfgs this) with
  | Some _ => true
  | None => false
  end.

Definition getConfigurationAtIndex (this : SalStreamDescription) (index : Z) : SalStreamConfiguration :=
  match om_find cfg_rank index (sd_cfgs this) with
  | Some cfg => cfg
  | None => empty_cfg
  end.
Definition getActualConfiguration (this : SalStreamDescription) : SalStreamConfiguration :=
  getConfigurationAtIndex this (getActualConfigurationIndex this).
Definition getChosenConfiguration (this : SalStreamDescription) : SalStreamConfiguration :=
  getConfigurationAtIndex this (getChosenConfigurationIndex this).
Definition getAllCfgs (this : SalStreamDescription) : cfg_map := sd_cfgs this.

Definition addConfigurationAtIndex (this : SalStreamDescription) (idx : Z) (cfg : SalStreamConfiguration)
    : SalStreamDescription :=
  this <| sd_cfgs := om_set cfg_rank idx cfg (sd_cfgs this) |>.
Definition addActualConfiguration (this : SalStreamDescription) (cfg : SalStreamConfiguration)
    : SalStreamDescription :=
  addConfigurationAtIndex this (getActualConfigurationIndex this) cfg.

(** [cfgs[getChosenConfigurationIndex()]] as the target of an assignment. *)
Definition alter_chosen (f : SalStreamConfiguration -> SalStreamConfiguration) (this : SalStreamDescription)
    : SalStreamDescription :=
  this <| sd_cfgs := om_alter cfg_rank empty_cfg f (getChosenConfigurationIndex this) (sd_cfgs this) |>.

(** ** State changes *)

Definition disable (this : SalStreamDescription) : SalStreamDescription :=
  alter_chosen SalStreamConfiguration.disable (this <| sd_rtp_port := 0 |>).

Definition setProto (this : SalStreamDescription) (newProto : SalMediaProto) : SalStreamDescription :=
  alter_chosen (fun c => c <| cfg_proto := newProto |>) this.
Definition setDirection (this : SalStreamDescription) (newDir : SalStreamDir) : SalStreamDescription :=
  alter_chosen (fun c => c <| cfg_dir := newDir |>) this.
Definition setBundleOnly (this : SalStreamDescription) (enable : bool) : SalStreamDescription :=
  alter_chosen (fun c => c <| cfg_bundle_only := enable |>) this.
Definition setDtls (this : SalStreamDescription) (role : SalDtlsRole) (fingerprint : string) : SalStreamDescription :=
  alter_chosen (fun c => c <| cfg_dtls_fingerprint := fingerprint |>)
    (alter_chosen (fun c => c <| cfg_dtls_role := role |>) this).
Definition setPtime (this : SalStreamDescription) (ptime maxptime : Z) : SalStreamDescription :=
  let this := if 0 <? ptime then alter_chosen (fun c => c <| cfg_ptime := ptime |>) this else this in
  if 0 <? maxptime then alter_chosen (fun c => c <| cfg_maxptime := maxptime |>) this else this.
(** The vector is indexed without a check; out of its range the C++ is undefined. *)
Definition setCrypto (this : SalStreamDescription) (idx : nat) (newCrypto : SalSrtpCryptoAlgo) : SalStreamDescription :=
  alter_chosen (fun c => c <| cfg_crypto := <[idx := newCrypto]> (cfg_crypto c) |>) this.
Definition setZrtpHash (this : SalStreamDescription) (enable : Z) (zrtphash : string) : SalStreamDescription :=
  let this := if negb (enable =? 0) then alter_chosen (fun c => c <| cfg_zrtphash := zrtphash |>) this else this in
  alter_chosen (fun c => c <| cfg_haveZrtpHash := enable |>) this.
Definition setLabel (this : SalStreamDescription) (newLabel : string) : SalStreamDescription :=
  this <| sd_label := newLabel |>.
Definition setContent (this : SalStreamDescription) (newContent : string) : SalStreamDescription :=
  this <| sd_content := newContent |>.
Definition setSupportedEncryptions (this : SalStreamDescription) (encryptionList : list LinphoneMediaEncryption)
    : SalStreamDescription :=
  this <| sd_supportedEncryption := encryptionList |>.

(** [for (auto &cfg : cfgs)] with an update of [cfg.second]. *)
Definition map_cfgs (f : SalStreamConfiguration -> SalStreamConfiguration) (this : SalStreamDescription)
    : SalStreamDescription :=
  this <| sd_cfgs := map (fun p => (fst p, f (snd p))) (sd_cfgs this) |>.
Definition setupRtcpFb (this : SalStreamDescription) (nackEnabled tmmbrEnabled implicitRtcpFb : bool)
    : SalStreamDescription :=
  map_cfgs (fun c => c
    <| cfg_rtcp_fb := (cfg_rtcp_fb c) <| generic_nack_enabled := nackEnabled |> <| tmmbr_enabled := tmmbrEnabled |> |>
    <| cfg_implicit_rtcp_fb := implicitRtcpFb |>) this.
Definition setupRtcpXr (this : SalStreamDescription) (rtcpXr : OrtpRtcpXrConfiguration) : SalStreamDescription :=
  map_cfgs (fun c => c <| cfg_rtcp_xr := rtcpXr |>) this.

Definition addTcap (this : SalStreamDescription) (idx : Z) (value : string) : SalStreamDescription :=
  this <| sd_tcaps := om_set id_rank idx value (sd_tcaps this) |>.
Definition addAcap (this : SalStreamDescription) (idx : Z) (name value : string) : SalStreamDescription :=
  this <| sd_acaps := om_set id_rank idx (name, value) (sd_acaps this) |>.
Definition getTcap (this : SalStreamDescription) (idx : Z) : string :=
  default EmptyString (om_find id_rank idx (sd_tcaps this)).
Definition getAcap (this : SalStreamDescription) (idx : Z) : string * string :=
  default (EmptyString, EmptyString) (om_find id_rank idx (sd_acaps this)).
Definition getFreeCfgIdx (this : SalStreamDescription) : Z := getFreeIdx (om_keys (getAllCfgs this)).

(** ** Queries *)

Definition isBundleOnly (this : SalStreamDescription) : bool := cfg_bundle_only (getChosenConfiguration this).
Definition getDirection (this : SalStreamDescription) : SalStreamDir := cfg_dir (getChosenConfiguration this).
Definition getMid (this : SalStreamDescription) : string := cfg_mid (getChosenConfiguration this).
Definition getProto (this : SalStreamDescription) : SalMediaProto := cfg_proto (getChosenConfiguration this).
Definition getPayloads (this : SalStreamDescription) : list OrtpPayloadType :=
  cfg_payloads (getChosenConfiguration this).
Definition getCryptos (this : SalStreamDescription) : list SalSrtpCryptoAlgo :=
  cfg_crypto (getChosenConfiguration this).
Definition getProtoAsString (this : SalStreamDescription) : string :=
  SalStreamConfiguration.getProtoAsString (getChosenConfiguration this).
Definition getTypeAsString (this : SalStreamDescription) : string :=
  if sd_type this =e SalOther then sd_typeother this else sal_stream_type_to_string (sd_type this).

Definition enabled (this : SalStreamDescription) : bool :=
  (0 <? sd_rtp_port this) || (isBundleOnly this && (getDirection this <>e SalStreamInactive)).
Definition isAcceptable (this : SalStreamDescription) : bool := enabled this || (sd_rtp_port this =? 0).

Definition hasAvpf (this : SalStreamDescription) : bool := SalStreamConfiguration.hasAvpf (getChosenConfiguration this).
Definition hasImplicitAvpf (this : SalStreamDescription) : bool :=
  SalStreamConfiguration.hasImplicitAvpf (getChosenConfiguration this).
Definition hasSrtp (this : SalStreamDescription) : bool := SalStreamConfiguration.hasSrtp (getChosenConfiguration this).
Definition hasDtls (this : SalStreamDescription) : bool := SalStreamConfiguration.hasDtls (getChosenConfiguration this).
Definition hasZrtp (this : SalStreamDescription) : bool := SalStreamConfiguration.hasZrtp (getChosenConfiguration this).
Definition hasLimeIk (this : SalStreamDescription) : bool := SalStreamConfiguration.hasLimeIk (getChosenConfiguration this).
Definition hasIpv6 (this : SalStreamDescription) : bool := str_has ":" (sd_rtp_addr this).

Definition supportSrtp (this : SalStreamDescription) : bool :=
  existsb (fun p => SalStreamConfiguration.hasSrtp (snd p)) (sd_cfgs this).
Definition supportZrtp (this : SalStreamDescription) : bool :=
  existsb (fun p => SalStreamConfiguration.hasZrtp (snd p)) (sd_cfgs this).
Definition supportDtls (this : SalStreamDescription) : bool :=
  existsb (fun p => SalStreamConfiguration.hasDtls (snd p)) (sd_cfgs this).

Definition hasIceCandidates (this : SalStreamDescription) : bool := negb (is_nil (sd_ice_candidates this)).
Definition hasIceParams (this : SalStreamDescription) : bool :=
  negb (str_empty (sd_ice_ufrag this)) && negb (str_empty (sd_ice_pwd this)) && hasIceCandidates this.

(** ** Comparison *)

Section Comparison.
Context {lib : MediaLib}.

Definition globalEqual (this other : SalStreamDescription) : Z :=
  let result := SAL_MEDIA_DESCRIPTION_UNCHANGED in
  let result := flag_if (sd_type this <>e sd_type other) SAL_MEDIA_DESCRIPTION_CODEC_CHANGED result in
  let result := flag_if (negb (String.eqb (sd_content this) (sd_content other)))
    SAL_MEDIA_DESCRIPTION_CONTENT_CHANGED result in
  (* RTP *)
  let result := flag_if (negb (String.eqb (sd_rtp_addr this) (sd_rtp_addr other))
      && (negb (sd_rtp_port this =? 0) || negb (sd_rtp_port other =? 0)))
    SAL_MEDIA_DESCRIPTION_NETWORK_CHANGED result in
  let result := flag_if (negb (str_empty (sd_rtp_addr this)) && negb (str_empty (sd_rtp_addr other))
      && xorb (ms_is_multicast (sd_rtp_addr this)) (ms_is_multicast (sd_rtp_addr other)))
    SAL_MEDIA_DESCRIPTION_NETWORK_XXXCAST_CHANGED result in
  let result :=
    if negb (sd_rtp_port this =? sd_rtp_port other) then
      if (sd_rtp_port this =? 0) || (sd_rtp_port other =? 0)
      then Z.lor result SAL_MEDIA_DESCRIPTION_CODEC_CHANGED
      else Z.lor result SAL_MEDIA_DESCRIPTION_NETWORK_CHANGED
    else result in
  (* RTCP *)
  let result := flag_if (negb (String.eqb (sd_rtcp_addr this) (sd_rtcp_addr other))
      && negb (sd_rtcp_port this =? 0) && negb (sd_rtcp_port other =? 0))
    SAL_MEDIA_DESCRIPTION_NETWORK_CHANGED result in
  let result := flag_if (negb (str_empty (sd_rtcp_addr this)) && negb (str_empty (sd_rtcp_addr other))
      && xorb (ms_is_multicast (sd_rtcp_addr this)) (ms_is_multicast (sd_rtcp_addr other)))
    SAL_MEDIA_DESCRIPTION_NETWORK_XXXCAST_CHANGED result in
  let result :=
    if negb (sd_rtcp_port this =? sd_rtcp_port other) then
      if (sd_rtcp_port this =? 0) || (sd_rtcp_port other =? 0)
      then Z.lor result SAL_MEDIA_DESCRIPTION_CODEC_CHANGED
      else Z.lor result SAL_MEDIA_DESCRIPTION_NETWORK_CHANGED
    else result in
  flag_if (sd_multicast_role this <>e sd_multicast_role other)
    SAL_MEDIA_DESCRIPTION_NETWORK_XXXCAST_CHANGED result.

Definition compareConfigurations (this other : SalStreamDescription) (thisKey otherKey : Z) : Z :=
  SalStreamConfiguration.equal (getConfigurationAtIndex this thisKey) (getConfigurationAtIndex other otherKey).

Definition compareToChosenConfiguration (this other : SalStreamDescription) : Z :=
  Z.lor (globalEqual this other)
    (compareConfigurations this other (getChosenConfigurationIndex this) (getChosenConfigurationIndex other)).

Definition compareToActualConfiguration (this other : SalStreamDescription) : Z :=
  Z.lor (globalEqual this other)
    (compareConfigurations this other (getChosenConfigurationIndex this) (getActualConfigurationIndex other)).

(** The configurations are compared in iteration order, not by index. *)
Fixpoint equal_cfgs (cfgs1 cfgs2 : cfg_map) (result : Z) : Z :=
  match cfgs1, cfgs2 with
  | (_, c1) :: cfgs1', (_, c2) :: cfgs2' =>
      equal_cfgs cfgs1' cfgs2' (Z.lor result (SalStreamConfiguration.equal c1 c2))
  | _, _ => result
  end.

Definition equal (this other : SalStreamDescription) : Z :=
  let result := globalEqual this other in
  let result := flag_if (negb (length (sd_cfgs this) =? length (sd_cfgs other))%nat)
    SAL_MEDIA_DESCRIPTION_CONFIGURATION_CHANGED result in
  let result := equal_cfgs (sd_cfgs this) (sd_cfgs other) result in
  (* ICE *)
  let result := flag_if (negb (String.eqb (sd_ice_ufrag this) (sd_ice_ufrag other))
      && negb (str_empty (sd_ice_ufrag other))) SAL_MEDIA_DESCRIPTION_ICE_RESTART_DETECTED result in
  flag_if (negb (String.eqb (sd_ice_pwd this) (sd_ice_pwd other))
      && negb (str_empty (sd_ice_pwd other))) SAL_MEDIA_DESCRIPTION_ICE_RESTART_DETECTED result.

Definition operator_eq (this other : SalStreamDescription) : bool :=
  equal this other =? SAL_MEDIA_DESCRIPTION_UNCHANGED.
Definition operator_neq (this other : SalStreamDescription) : bool := negb (operator_eq this other).
End Comparison.

(** ** Potential configurations *)

(** [strncpy(dst, src, src.size())] on a buffer that holds the C string [dst]:
    no terminator is written after the characters of [src]. *)
Fixpoint str_drop (n : nat) (s : string) : string :=
  match n, s with
  | O, _ => s
  | S n', String _ s' => str_drop n' s'
  | S _, EmptyString => EmptyString
  end.
Definition strncpy_over (dst src : string) : string := src +:+ str_drop (String.length src) dst.

Section PotentialConfigurations.
Context {lib : MediaLib}.

(** An entry of [caps] or the empty pair. *)
Definition encryptionToTcap (caps : tcap_map_t) (encEnum : LinphoneMediaEncryption) (avpf : bool) : Z * string :=
  match List.find (fun cap => String.eqb (snd cap)
          (sal_media_proto_to_string (linphone_media_encryption_to_sal_media_proto encEnum avpf))) caps with
  | Some cap => cap
  | None => (0, EmptyString)
  end.

Definition have_zrtp_hash (attrList : list acap_map_t) : bool :=
  fold_left (fun have attrs => have || existsb (fun attr => String.eqb (fst (snd attr)) "zrtp-hash") attrs)
    attrList false.

Definition addSupportedEncryptionFromSdp (this : SalStreamDescription) (protoMap : tcap_map_t)
    (attrList : list acap_map_t) : SalStreamDescription :=
  let haveZrtpHash := have_zrtp_hash attrList in
  let encs := fold_left (fun encs tAttr =>
    sal_media_proto_to_linphone_media_encryption (sal_media_proto_from_string (snd tAttr)) haveZrtpHash :: encs)
    protoMap (sd_supportedEncryption this) in
  this <| sd_supportedEncryption := list_unique encs |>.

(** Without the last element, which is the encryption of the actual
    configuration (undefined in C++ on an empty list). *)
Definition getSupportedEncryptionsInPotentialCfgs (this : SalStreamDescription) : list LinphoneMediaEncryption :=
  removelast (sd_supportedEncryption this).

Definition createBasePotentialCfg (this : SalStreamDescription) : SalStreamConfiguration :=
  (getActualConfiguration this)
  <| cfg_haveZrtpHash := 0 |>
  <| cfg_zrtphash := EmptyString |>
  <| cfg_crypto := [] |>
  <| cfg_acapIndexes := [] |>
  <| cfg_dtls_fingerprint := EmptyString |>
  <| cfg_dtls_role := SalDtlsRoleInvalid |>.

(** The first potential configuration equal to [cfg], if any, prevents the
    insertion; a configuration at the same index receives the attribute
    capabilities of [cfg] when both have the same transport. *)
Definition insertOrMergeConfiguration (this : SalStreamDescription) (idx : Z) (cfg : SalStreamConfiguration)
    : SalStreamDescription :=
  let sameCfg := existsb (fun currentCfg =>
    negb (fst currentCfg =? getActualConfigurationIndex this) &&
    SalStreamConfiguration.operator_eq (snd currentCfg) cfg) (sd_cfgs this) in
  if sameCfg then this
  else
    match om_find cfg_rank idx (sd_cfgs this) with
    | None => this <| sd_cfgs := om_set cfg_rank idx cfg (sd_cfgs this) |>
    | Some existingCfg =>
        if cfg_tcapIndex existingCfg =? cfg_tcapIndex cfg
        then this <| sd_cfgs := om_set cfg_rank idx (mergeAcaps existingCfg (cfg_acapIndexes cfg)) (sd_cfgs this) |>
        else this
    end.

Definition push_acaps (cfg : SalStreamConfiguration) (cfgAcaps : list Z) : SalStreamConfiguration :=
  cfg <| cfg_acapIndexes := cfg_acapIndexes cfg ++ [cfgAcaps] |>.

(** [cfgList] and [cfg] of [addAcapsToConfiguration], per attribute. *)
Definition add_srtp_acap (baseCfg : SalStreamConfiguration) (mergeCfgLines : bool)
    (st : list SalStreamConfiguration * SalStreamConfiguration) (attr : Z * (string * string))
    : list SalStreamConfiguration * SalStreamConfiguration :=
  let '(cfgList, cfg) := st in
  let '(capIndex, (capName, capValue)) := attr in
  if String.eqb capName "crypto" then
    let cfg := push_acaps cfg [capIndex] in
    let keyEnc := fillStrpCryptoAlgoFromString capValue in
    if negb (algo keyEnc =? MS_CRYPTO_SUITE_INVALID) then
      let cfg := cfg <| cfg_crypto := cfg_crypto cfg ++ [keyEnc] |> in
      if negb mergeCfgLines then (cfgList ++ [cfg], baseCfg) else (cfgList, cfg)
    else (cfgList, cfg)
  else (cfgList, cfg).

(** [sscanf(value, "%u cname:%s", ...)] with both conversions done. *)
Definition scan_ssrc (value : string) : option (Z * string) :=
  match scan_uint value with
  | None => None
  | Some (ssrc, s) =>
      match scan_lit "cname:" (scan_ws s) with
      | None => None
      | Some s =>
          match scan_word (String.length s) s with
          | None => None
          | Some (cname, _) => Some (ssrc, cname)
          end
      end
  end.

Definition add_dtls_acap (st : SalStreamConfiguration * list Z) (attr : Z * (string * string))
    : SalStreamConfiguration * list Z :=
  let '(cfg, cfgAcaps) := st in
  let '(capIndex, (capName, capValue)) := attr in
  if String.eqb capName "fingerprint"
  then (cfg <| cfg_dtls_fingerprint := capValue |>, cfgAcaps ++ [capIndex])
  else if String.eqb capName "setup"
  then (cfg <| cfg_dtls_role := getDtlsRoleFromSetupAttribute capValue |>, cfgAcaps ++ [capIndex])
  else if String.eqb capName "rtcp-mux"
  then (cfg <| cfg_rtcp_mux := true |>, cfgAcaps ++ [capIndex])
  else if String.eqb capName "ssrc" then
    match scan_ssrc capValue with
    | Some (rtpSsrc, rtcpName) =>
        (cfg <| cfg_rtp_ssrc := rtpSsrc |> <| cfg_rtcp_cname := rtcpName |>, cfgAcaps ++ [capIndex])
    | None => (cfg, cfgAcaps)
    end
  else (cfg, cfgAcaps).

Definition add_zrtp_acap (baseCfg : SalStreamConfiguration)
    (st : list SalStreamConfiguration * SalStreamConfiguration) (attr : Z * (string * string))
    : list SalStreamConfiguration * SalStreamConfiguration :=
  let '(cfgList, cfg) := st in
  let '(capIndex, (capName, capValue)) := attr in
  if String.eqb capName "zrtp-hash" then
    let cfg := push_acaps cfg [capIndex] in
    let cfg := cfg <| cfg_haveZrtpHash := 1 |>
                   <| cfg_zrtphash := (strncpy_over (cfg_zrtphash cfg) capValue) |> in
    (cfgList ++ [cfg], baseCfg)
  else (cfgList, cfg).

(** One set of attributes; the encryption decides which of them are read. *)
Definition add_acap_set (baseCfg : SalStreamConfiguration) (enc : LinphoneMediaEncryption) (mergeCfgLines : bool)
    (st : list SalStreamConfiguration * SalStreamConfiguration) (attrs : acap_map_t)
    : list SalStreamConfiguration * SalStreamConfiguration :=
  match enc with
  | LinphoneMediaEncryptionSRTP => fold_left (add_srtp_acap baseCfg mergeCfgLines) attrs st
  | LinphoneMediaEncryptionDTLS =>
      let '(cfgList, cfg) := st in
      let '(cfg, cfgAcaps) := fold_left add_dtls_acap attrs (cfg, []) in
      let cfg := push_acaps cfg cfgAcaps in
      if negb mergeCfgLines && negb (str_empty (cfg_dtls_fingerprint cfg))
         && (cfg_dtls_role cfg <>e SalDtlsRoleInvalid) && negb (cfg_rtp_ssrc cfg =? 0)
      then (cfgList ++ [cfg], baseCfg)
      else (cfgList, cfg)
  | LinphoneMediaEncryptionZRTP => fold_left (add_zrtp_acap baseCfg) attrs st
  | LinphoneMediaEncryptionNone => st
  end.

Definition addAcapsToConfiguration (baseCfg : SalStreamConfiguration) (enc : LinphoneMediaEncryption)
    (attrList : list acap_map_t) (mergeCfgLines : bool) : list SalStreamConfiguration :=
  let '(cfgList, cfg) := fold_left (add_acap_set baseCfg enc mergeCfgLines) attrList ([], baseCfg) in
  match cfgList with
  | [] => [cfg]
  | _ => cfgList
  end.

(** The transport part of a potential configuration, common to both creators. *)
Definition set_cfg_proto (baseCfg : SalStreamConfiguration) (protoIdx : Z) (protoValue : string)
    : SalStreamConfiguration :=
  let proto := sal_media_proto_from_string protoValue in
  let baseCfg := baseCfg <| cfg_tcapIndex := protoIdx |> <| cfg_proto := proto |>
    <| cfg_proto_other := toupper (if proto =e SalProtoOther then protoValue else EmptyString) |> in
  if SalStreamConfiguration.hasAvpf baseCfg then enableAvpfForStream baseCfg else disableAvpfForStream baseCfg.

Definition createPotentialConfigurationAtIdx (this : SalStreamDescription) (idx : Z) (tcaps : tcap_map_t)
    (attrList : list acap_map_t) (delete_session_attributes delete_media_attributes : bool)
    : SalStreamDescription :=
  let baseCfg := (createBasePotentialCfg this)
    <| cfg_delete_media_attributes := delete_media_attributes |>
    <| cfg_delete_session_attributes := delete_session_attributes |> in
  fst (fold_left (fun '(this, baseCfg) '(protoIdx, protoValue) =>
    let baseCfg := set_cfg_proto baseCfg protoIdx protoValue in
    let enc := sal_media_proto_to_linphone_media_encryption (sal_media_proto_from_string protoValue)
                 (have_zrtp_hash attrList) in
    let cfgList := addAcapsToConfiguration baseCfg enc attrList true in
    let cfg := (List.hd empty_cfg cfgList) <| cfg_index := idx |> in
    (insertOrMergeConfiguration this idx cfg, baseCfg)) tcaps (this, baseCfg)).

(** The configurations for one encryption and one AVPF choice, numbered from
    [idx], appended to [cfgList]. *)
Definition potential_cfgs_for (protoMap : tcap_map_t) (attrList : list acap_map_t) (mergeCfgLines avpf : bool)
    (st : SalStreamConfiguration * list SalStreamConfiguration * Z) (enc : LinphoneMediaEncryption)
    : SalStreamConfiguration * list SalStreamConfiguration * Z :=
  let '(baseCfg, cfgList, idx) := st in
  let '(protoIdx, protoValue) := encryptionToTcap protoMap enc avpf in
  if negb ((protoIdx =? 0) && String.eqb protoValue EmptyString) then
    let baseCfg := set_cfg_proto baseCfg protoIdx protoValue in
    let cfgListForEnc := addAcapsToConfiguration baseCfg enc attrList mergeCfgLines in
    let '(cfgList, idx) :=
      fold_left (fun '(cfgList, idx) cfg => (cfgList ++ [cfg <| cfg_index := idx |>], u32 (idx + 1)))
        cfgListForEnc (cfgList, idx) in
    (baseCfg, cfgList, idx)
  else (baseCfg, cfgList, idx).

Definition createPotentialConfiguration (this : SalStreamDescription) (protoMap : tcap_map_t)
    (attrList : list acap_map_t) (delete_session_attributes delete_media_attributes mergeCfgLines : bool)
    : SalStreamDescription :=
  let baseCfg := (createBasePotentialCfg this)
    <| cfg_delete_media_attributes := delete_media_attributes |>
    <| cfg_delete_session_attributes := delete_session_attributes |> in
  let cfgList :=
    if is_nil protoMap
    then map (fun attrs => push_acaps baseCfg (om_keys attrs)) attrList
    else
      let supportedEncs := getSupportedEncryptionsInPotentialCfgs this in
      let '(_, cfgList, _) :=
        fold_left (fun st avpf =>
          fold_left (potential_cfgs_for protoMap attrList mergeCfgLines avpf) supportedEncs st)
          [true; false] (baseCfg, [], getFreeCfgIdx this) in
      cfgList in
  fold_left (fun this cfg => insertOrMergeConfiguration this (cfg_index cfg) cfg) cfgList this.

(** [fillPotentialConfigurationsFromPotentialCfgGraph]: a capability whose
    weak pointer cannot be locked is skipped. *)
Definition proto_map_of (tcap : list (config_capability capability)) : tcap_map_t :=
  fold_left (fun protoMap tAttr =>
    match cap tAttr with
    | Some c => om_set id_rank (cap_index c) (cap_value c) protoMap
    | None => protoMap
    end) tcap [].
Definition attr_map_of (aAttrList : list (config_capability acapability)) : acap_map_t :=
  fold_left (fun attrs aAttr =>
    match cap aAttr with
    | Some c => (om_insert id_rank (cap_index (acap_base c)) (acap_name c, cap_value (acap_base c)) attrs).1
    | None => attrs
    end) aAttrList [].
Definition attr_list_of (acap : list (list (config_capability acapability))) : list acap_map_t :=
  fold_left (fun attrList aAttrList =>
    let attrs := attr_map_of aAttrList in
    if negb (is_nil attrs) then attrList ++ [attrs] else attrList) acap [].

Definition fillPotentialConfigurationsFromPotentialCfgGraph (this : SalStreamDescription)
    (sdpCfgs : uint_map config_attribute) : SalStreamDescription :=
  fold_left (fun this '(idx, cfgAttributeList) =>
    let protoMap := proto_map_of (ca_tcap cfgAttributeList) in
    let attrList := attr_list_of (ca_acap cfgAttributeList) in
    let this := addSupportedEncryptionFromSdp this protoMap attrList in
    createPotentialConfigurationAtIdx this idx protoMap attrList
      (ca_delete_session_attributes cfgAttributeList) (ca_delete_media_attributes cfgAttributeList))
    sdpCfgs this.
End PotentialConfigurations.

(** ** Lemmas: the configuration map *)

Definition key_ok (k : Z) : Prop := 0 <= k < 2 ^ 32.

Lemma cfg_rank_actual : cfg_rank actualConfigurationIndex = 2 ^ 32 - 1.
Proof. reflexivity. Qed.

Lemma cfg_rank_potential k : 0 < k < 2 ^ 32 -> cfg_rank k = k - 1.
Proof. intros. unfold cfg_rank. apply u32_small. lia. Qed.

Lemma cfg_rank_inj a b : key_ok a -> key_ok b -> cfg_rank a = cfg_rank b -> a = b.
Proof.
  unfold key_ok. intros Ha Hb.
  destruct (Z.eq_dec a 0) as [->|Ha0], (Z.eq_dec b 0) as [->|Hb0]; [done|..];
    change (cfg_rank 0) with (2 ^ 32 - 1); rewrite ?cfg_rank_potential by lia; lia.
Qed.

(** What a [cfg_map] always is: ordered by the comparator, with 32 bit keys. *)
Definition cfg_map_wf (m : cfg_map) : Prop := om_sorted cfg_rank m /\ Forall (fun p => key_ok (fst p)) m.

Lemma cfg_map_wf_set k v m : key_ok k -> cfg_map_wf m -> cfg_map_wf (om_set cfg_rank k v m).
Proof.
  intros Hk [Hs Hf]. split; [by apply om_set_sorted|].
  apply om_set_Forall; [exact Hf|exact Hk|]. simpl. auto.
Qed.

Lemma find_set_eq k v (m : cfg_map) : om_find cfg_rank k (om_set cfg_rank k v m) = Some v.
Proof. apply om_find_set_eq. Qed.

Lemma find_set_ne k k' v (m : cfg_map) :
  key_ok k -> key_ok k' -> k <> k' -> om_find cfg_rank k (om_set cfg_rank k' v m) = om_find cfg_rank k m.
Proof. intros Hk Hk' Hne. apply om_find_set_ne. intros H. by apply Hne, cfg_rank_inj. Qed.

Lemma getConfigurationAtIndex_add this idx cfg :
  getConfigurationAtIndex (addConfigurationAtIndex this idx cfg) idx = cfg.
Proof. unfold getConfigurationAtIndex, addConfigurationAtIndex. simpl. by rewrite find_set_eq. Qed.

Lemma getConfigurationAtIndex_add_ne this idx k cfg :
  key_ok k -> key_ok idx -> k <> idx ->
  getConfigurationAtIndex (addConfigurationAtIndex this idx cfg) k = getConfigurationAtIndex this k.
Proof. intros. unfold getConfigurationAtIndex, addConfigurationAtIndex. simpl. by rewrite find_set_ne. Qed.

Lemma getActualConfiguration_add this cfg : getActualConfiguration (addActualConfiguration this cfg) = cfg.
Proof. apply getConfigurationAtIndex_add. Qed.

(** Every setter of the chosen configuration reads back what it wrote. *)
Lemma getChosen_alter f this : getChosenConfiguration (alter_chosen f this) = f (getChosenConfiguration this).
Proof.
  unfold getChosenConfiguration, getConfigurationAtIndex, alter_chosen, getChosenConfigurationIndex. simpl.
  rewrite om_alter_find_eq. by destruct (om_find _ _ _).
Qed.

Lemma alter_chosen_other f this k :
  key_ok k -> key_ok (sd_cfgIndex this) -> k <> sd_cfgIndex this ->
  getConfigurationAtIndex (alter_chosen f this) k = getConfigurationAtIndex this k.
Proof.
  intros Hk Hi Hne. unfold getConfigurationAtIndex, alter_chosen, om_alter. simpl. by rewrite find_set_ne.
Qed.

#[export] Hint Rewrite getConfigurationAtIndex_add getActualConfiguration_add getChosen_alter : sal.

Lemma disable_not_enabled this : enabled (disable this) = false.
Proof.
  unfold disable, enabled, isBundleOnly. by rewrite getChosen_alter.
Qed.

Lemma disable_proto this : getProto (disable this) = getProto this.
Proof. unfold disable, getProto. by rewrite getChosen_alter. Qed.

Lemma disable_direction this : getDirection (disable this) = SalStreamInactive.
Proof. unfold disable, getDirection. by rewrite getChosen_alter. Qed.

Lemma disable_mid this : getMid (disable this) = EmptyString.
Proof. unfold disable, getMid. by rewrite getChosen_alter. Qed.

(** Inserting or assigning is assigning. *)
Lemma insert_or_assign {V} rank k (v : V) m :
  (let '(m', inserted) := om_insert rank k v m in if negb inserted then om_set rank k v m' else m') =
  om_set rank k v m.
Proof. unfold om_insert. by destruct (om_find rank k m). Qed.

Lemma om_set_last {V} rank k (v : V) m :
  Forall (fun p => rank (fst p) < rank k) m -> om_set rank k v m = m ++ [(k, v)].
Proof.
  induction 1 as [|[a w] m Ha Hm IH]; simpl in *; [done|].
  destruct (Z.ltb_spec (rank k) (rank a)); [lia|]. destruct (Z.eqb_spec (rank k) (rank a)); [lia|].
  by rewrite IH.
Qed.

Lemma om_set_fold_sorted {V} rank (m : list (Z * V)) acc :
  om_sorted rank (acc ++ m) -> fold_left (fun m p => om_set rank (fst p) (snd p) m) m acc = acc ++ m.
Proof.
  revert acc. induction m as [|[k v] m IH]; intros acc Hs; simpl; [by rewrite app_nil_r|].
  rewrite om_set_last.
  - rewrite IH, <- List.app_assoc; [done|]. by rewrite <- List.app_assoc.
  - clear IH. induction acc as [|a acc IHa]; [constructor|].
    simpl in Hs. apply StronglySorted_inv in Hs as [Hs Ha]. constructor; [|by apply IHa].
    rewrite List.Forall_forall in Ha. apply (Ha (k, v)), in_or_app. right. by left.
Qed.

Lemma merge_cfgs_fold cfgs other :
  merge_cfgs cfgs other = fold_left (fun m p => om_set cfg_rank (fst p) (snd p) m) other cfgs.
Proof.
  unfold merge_cfgs. revert cfgs. induction other as [|p other IH]; intros cfgs; simpl; [done|].
  by rewrite insert_or_assign, IH.
Qed.

Lemma merge_unparsed_fold cfgs other :
  merge_unparsed_cfgs cfgs other = fold_left (fun m p => om_set id_rank (fst p) (snd p) m) other cfgs.
Proof.
  unfold merge_unparsed_cfgs. revert cfgs. induction other as [|p other IH]; intros cfgs; simpl; [done|].
  by rewrite insert_or_assign, IH.
Qed.

Lemma merge_cfgs_nil other : cfg_map_wf other -> merge_cfgs [] other = other.
Proof. intros [Hs _]. rewrite merge_cfgs_fold. by apply (om_set_fold_sorted _ other []). Qed.

(** The invariant of a stream. *)
Definition stream_wf (this : SalStreamDescription) : Prop :=
  cfg_map_wf (sd_cfgs this) /\ om_sorted id_rank (sd_unparsed_cfgs this) /\ key_ok (sd_cfgIndex this).

Lemma stream_copy_eq other : stream_wf other -> copy_construct other = other.
Proof.
  intros (Hc & Hu & _). unfold copy_construct.
  rewrite merge_cfgs_nil, merge_unparsed_fold, (om_set_fold_sorted _ _ []) by done. by destruct other.
Qed.

Lemma map_fst_snd_wf f m : cfg_map_wf m -> cfg_map_wf (map (fun p => (fst p, f (snd p))) m).
Proof.
  intros [Hs Hf]. split.
  - induction Hs as [|p m Hs IH Hp]; simpl; [constructor|].
    inversion Hf; subst. constructor; [by apply IH|].
    apply Forall_map. exact Hp.
  - apply Forall_map. exact Hf.
Qed.

Lemma alter_chosen_wf f this : stream_wf this -> stream_wf (alter_chosen f this).
Proof. intros (Hc & Hu & Hi). split; [|done]. by apply cfg_map_wf_set. Qed.

(** ** Lemmas: potential configurations *)

Section PotentialLemmas.
Context {lib : MediaLib}.

Lemma addAcapsToConfiguration_nonempty baseCfg enc attrList merge :
  addAcapsToConfiguration baseCfg enc attrList merge <> [].
Proof. unfold addAcapsToConfiguration. destruct (fold_left _ _ _) as [[|c l] cfg]; done. Qed.

Lemma insertOrMerge_wf this idx cfg :
  key_ok idx -> stream_wf this -> stream_wf (insertOrMergeConfiguration this idx cfg).
Proof.
  intros Hi (Hc & Hu & Hk). unfold insertOrMergeConfiguration. cbv zeta.
  destruct (existsb _ _); [done|]. destruct (om_find _ _ _) as [e|]; [destruct (_ =? _)|]; try done;
    (split; [by apply cfg_map_wf_set|done]).
Qed.

(** A configuration at another index is never touched. *)
Lemma insertOrMerge_other this idx cfg k :
  key_ok idx -> key_ok k -> k <> idx ->
  getConfigurationAtIndex (insertOrMergeConfiguration this idx cfg) k = getConfigurationAtIndex this k.
Proof.
  intros Hi Hk Hne. unfold insertOrMergeConfiguration, getConfigurationAtIndex. cbv zeta.
  destruct (existsb _ _); [done|]. destruct (om_find cfg_rank idx _) as [e|]; [destruct (_ =? _)|];
    simpl; by rewrite ?find_set_ne.
Qed.

(** The configuration that was at the index keeps everything but its list of
    attribute capabilities, which only grows. *)
Lemma mergeAcaps_grows cfg acaps : exists l, cfg_acapIndexes (mergeAcaps cfg acaps) = cfg_acapIndexes cfg ++ l.
Proof.
  unfold mergeAcaps. simpl. generalize (cfg_acapIndexes cfg). induction acaps as [|a acaps IH]; intros l; simpl.
  - exists []. by rewrite app_nil_r.
  - destruct (fold_left _ l false); simpl; [apply IH|].
    destruct (IH (l ++ [a])) as [l' Hl']. exists (a :: l'). rewrite Hl', <- List.app_assoc. done.
Qed.

Lemma createPotentialConfigurationAtIdx_fold (P : SalStreamDescription -> Prop) this idx tcaps attrList ds dm :
  (forall s cfg, P s -> P (insertOrMergeConfiguration s idx cfg)) -> P this ->
  P (createPotentialConfigurationAtIdx this idx tcaps attrList ds dm).
Proof.
  intros Hstep Hthis. unfold createPotentialConfigurationAtIdx. cbv zeta.
  generalize ((createBasePotentialCfg this) <| cfg_delete_media_attributes := dm |>
               <| cfg_delete_session_attributes := ds |>).
  revert this Hthis. induction tcaps as [|[i v] tcaps IH]; intros this Hthis base; [done|].
  cbn [fold_left]. apply IH. by apply Hstep.
Qed.

Lemma createPotentialConfiguration_insert_fold (P : SalStreamDescription -> Prop) this cfgList :
  (forall s cfg, In cfg cfgList -> P s -> P (insertOrMergeConfiguration s (cfg_index cfg) cfg)) -> P this ->
  P (fold_left (fun this cfg => insertOrMergeConfiguration this (cfg_index cfg) cfg) cfgList this).
Proof.
  revert this. induction cfgList as [|c l IH]; intros this Hstep Hthis; [done|].
  cbn [fold_left]. apply IH; [|apply Hstep; [by left|done]].
  intros s cfg Hin. apply Hstep. by right.
Qed.
End PotentialLemmas.
