(* ===== verification/StreamDescriptionProps.v ===== *)
(** * Properties of configurations and stream descriptions

    What [SalStreamConfiguration] promises (its comparison, its SRTP and DTLS
    attributes, the merge of attribute capabilities), then what
    [SalStreamDescription] promises: copies, and the creation of potential
    configurations. *)
From S2P Require Import Prelude SalTypes Payload SalStreamConfiguration ReferenceLib PotentialCfgGraph SalStreamDescription.

(** ** The crypto attribute *)

(** The suite is in the table of the library under that name. *)
Record known_suite {lib : MediaLib} (a : Z) (name : string) (params : option string) : Prop := {
  suite_named : ms_crypto_suite_to_name_params a = Some (name, params);
  suite_found : ms_crypto_suite_build_from_name_params name params = a;
  suite_valid : a <> MS_CRYPTO_SUITE_INVALID
}.

(** The bounds of the conversions that read the attribute. *)
Record fits_attribute (c : SalSrtpCryptoAlgo) (name : string) (params : option string) : Prop := {
  fits_tag : 0 <= tag c < 2 ^ 32;
  fits_name : is_token name /\ (String.length name <= 256)%nat;
  fits_key : is_token (master_key c) /\ (String.length (master_key c) <= 128)%nat /\ str_has "|" (master_key c) = false;
  fits_params : match params with
    | None => True
    | Some p => p <> EmptyString /\ (String.length p <= 256)%nat /\ str_all crypto_param_char p = true /\ head_is is_space p = false
    end
}.

Lemma str_span_not_has ch s : str_has ch s = false -> str_span (fun c => negb (Ascii.eqb c ch)) s = (s, EmptyString).
Proof.
  intros H. apply str_span_nil. induction s as [|c s IH]; [done|]. simpl in *.
  apply orb_false_iff in H as [Hc Hs]. by rewrite Ascii.eqb_sym, Hc, IH.
Qed.

Lemma token_head s : is_token s -> head_is is_space s = false.
Proof.
  intros [Hne Hall]. destruct s as [|c s]; [done|]. simpl in *. apply andb_true_iff in Hall as [Hc _].
  by apply negb_true_iff in Hc.
Qed.

Section Crypto.
Context {lib : MediaLib}.

Lemma scan_crypto_value c name params :
  fits_attribute c name params ->
  scan_crypto ((to_dec (tag c) +:+ " " +:+ name +:+ " inline:" +:+ master_key c) +:+
    match params with Some p => " " +:+ p | None => EmptyString end) =
  Some (tag c, name, master_key c, default EmptyString params).
Proof.
  intros [Ht [Hn Hn'] (Hk & Hk' & _) Hp]. unfold scan_crypto. rewrite !str_app_assoc, to_dec_nonneg by lia.
  rewrite scan_uint_dec; [|done|done].
  change (" " +:+ name +:+ ?r) with (String " " (name +:+ r)).
  rewrite scan_word_space; [|done|done|done].
  change (" inline:" +:+ ?r) with (String " " ("inline:" +:+ r)).
  rewrite scan_ws_space by done. rewrite scan_lit_app.
  set (rest := match params with Some p => " " +:+ p | None => EmptyString end).
  rewrite scan_word_all; [|apply Hk|apply Hk|done|by subst rest; destruct params].
  subst rest. destruct params as [p|]; [|done]. destruct Hp as (Hne & Hl & Hall & Hh).
  change (" " +:+ p) with (String " " p). rewrite scan_ws_space by done.
  by rewrite scan_class_all.
Qed.

Lemma crypto_value_read c name params :
  known_suite (algo c) name params -> fits_attribute c name params ->
  fillStrpCryptoAlgoFromString (cryptoToSdpValue c) = c.
Proof.
  intros [Hname Hbuild Hv] Hf. unfold cryptoToSdpValue. rewrite Hname. unfold fillStrpCryptoAlgoFromString.
  pose proof (scan_crypto_value c name params Hf) as Hs. destruct Hf as [_ _ (_ & _ & Hbar) Hp].
  assert (E : match params with
       | Some p => ((to_dec (tag c) +:+ " " +:+ name +:+ " inline:" +:+ master_key c) +:+ " ") +:+ p
       | None => to_dec (tag c) +:+ " " +:+ name +:+ " inline:" +:+ master_key c
       end = (to_dec (tag c) +:+ " " +:+ name +:+ " inline:" +:+ master_key c) +:+
    match params with Some p => " " +:+ p | None => EmptyString end)
    by (destruct params; [by rewrite str_app_assoc|by rewrite str_app_nil]).
  cbv zeta. rewrite E, Hs.
  assert ((if negb (str_empty (default EmptyString params)) then Some (default EmptyString params) else None) = params) as ->.
  { destruct params as [p|]; [|done]. simpl. destruct Hp as [Hp _]. by rewrite (proj2 (str_empty_false p) Hp). }
  rewrite Hbuild, (proj2 (Z.eqb_neq _ _) Hv). rewrite str_span_not_has by done. by destruct c.
Qed.
End Crypto.

(** ** Merging attribute capabilities *)

Lemma fold_found {A} `{EqDecision A} (x : A) l b :
  fold_left (fun found y => found || bool_decide (y = x)) l b = true <-> b = true \/ In x l.
Proof.
  revert b. induction l as [|y l IH]; intros b; simpl; [tauto|].
  rewrite IH, orb_true_iff, bool_decide_eq_true. intuition congruence.
Qed.

Lemma mergeAcaps_spec l this :
  exists added, cfg_acapIndexes (mergeAcaps this l) = cfg_acapIndexes this ++ added /\
    (forall x, In x added <-> In x l /\ ~ In x (cfg_acapIndexes this)) /\
    (NoDup (cfg_acapIndexes this) -> NoDup (cfg_acapIndexes this ++ added)).
Proof.
  unfold mergeAcaps. cbn [cfg_acapIndexes]. generalize (cfg_acapIndexes this). intros base. revert base.
  induction l as [|x l IH]; intros base; cbn [fold_left].
  - exists []. rewrite app_nil_r. split; [done|]. split; [simpl; tauto|done].
  - destruct (fold_left _ base false) eqn:Ef.
    + apply fold_found in Ef as [?|Hx]; [done|]. cbn [negb].
      destruct (IH base) as (added & E & Hin & Hnd). exists added. split; [done|]. split; [|done].
      intros y. rewrite Hin. simpl. intuition congruence.
    + assert (Hx : ~ In x base).
      { intros Hx. assert (fold_left (fun found y => found || bool_decide (y = x)) base false = true) as H
          by (apply fold_found; auto). congruence. }
      cbn [negb]. destruct (IH (base ++ [x])) as (added & E & Hin & Hnd). exists (x :: added).
      rewrite E, <- List.app_assoc. split; [done|]. split.
      * intros y. simpl. rewrite Hin, in_app_iff. simpl.
        destruct (decide (x = y)) as [->|Hne]; [tauto|intuition congruence].
      * intros Hb. rewrite <- List.app_assoc in Hnd. apply Hnd. apply NoDup_app. split; [done|].
        split; [|apply NoDup_singleton]. intros z Hz. rewrite list_elem_of_singleton. intros ->.
        apply Hx. by apply list_elem_of_In.
Qed.

(** ** Properties *)

(** The crypto attribute round trips: reading the value written for an SRTP
    algorithm whose suite is in the table gives the same tag, suite and key, as
    long as name, key and parameters fit the fields of the reader. *)
Theorem crypto_attribute_roundtrip (lib : MediaLib) c name params :
  known_suite (algo c) name params -> fits_attribute c name params ->
  fillStrpCryptoAlgoFromString (cryptoToSdpValue c) = c.
Proof. apply crypto_value_read. Qed.

Lemma crypto_attribute_roundtrip_witness :
  let c := mkCrypto 3 3 "WVNfX19zZW1jdGwgKCkgewkyMjA7fQp9CnVubGVz" in
  @cryptoToSdpValue ref_lib c
    = "3 AES_256_CM_HMAC_SHA1_80 inline:WVNfX19zZW1jdGwgKCkgewkyMjA7fQp9CnVubGVz UNENCRYPTED_SRTP" /\
  @fillStrpCryptoAlgoFromString ref_lib (@cryptoToSdpValue ref_lib c) = c.
Proof.
  split; [reflexivity|].
  apply (crypto_attribute_roundtrip ref_lib _ "AES_256_CM_HMAC_SHA1_80" (Some "UNENCRYPTED_SRTP")).
  - split; [reflexivity|reflexivity|discriminate].
  - split; simpl; [lia| | |]; repeat split; try discriminate; try lia.
Defined.

(** Merging attribute capabilities appends the new sets, in order and each
    one once, and keeps the ones there were. *)
Theorem mergeAcaps_appends_new l this :
  exists added, cfg_acapIndexes (mergeAcaps this l) = cfg_acapIndexes this ++ added /\
    (forall x, In x added <-> In x l /\ ~ In x (cfg_acapIndexes this)) /\
    (NoDup (cfg_acapIndexes this) -> NoDup (cfg_acapIndexes this ++ added)).
Proof. apply mergeAcaps_spec. Qed.

(** [operator==] holds exactly when both configurations have the same
    transport, crypto list, direction, DTLS and ZRTP data and extension ids,
    packet times that are equal when they are set, and payload types equal one
    by one, those the left one has in excess being receive-only. *)
Theorem configuration_equality a b : SalStreamConfiguration.operator_eq a b = true <-> same_configuration a b.
Proof. apply operator_eq_spec. Qed.

(** It is therefore not symmetric: receive-only payload types at the end of
    the left configuration are ignored and at the end of the right one are not. *)
Theorem configuration_equality_not_symmetric :
  exists a b, SalStreamConfiguration.operator_eq a b = true /\ SalStreamConfiguration.operator_eq b a = false.
Proof.
  exists (empty_cfg <| cfg_payloads := [(ref_pt "PCMU" 8000 0) <| flags := {[PAYLOAD_TYPE_FLAG_CAN_RECV]} |>] |>), empty_cfg.
  split; reflexivity.
Qed.

(** Names on the wire: the transport of a media line, the setup role of DTLS
    and the transport chosen for an encryption are read back as written. *)
Theorem wire_names_roundtrip :
  (forall p, sal_media_proto_from_string (sal_media_proto_to_string p) = p) /\
  (forall r, getDtlsRoleFromSetupAttribute (getSetupAttributeForDtlsRole r) = r) /\
  (forall enc avpf, enc <> LinphoneMediaEncryptionZRTP ->
     sal_media_proto_to_linphone_media_encryption (linphone_media_encryption_to_sal_media_proto enc avpf) false = enc) /\
  (forall avpf, sal_media_proto_to_linphone_media_encryption
     (linphone_media_encryption_to_sal_media_proto LinphoneMediaEncryptionZRTP avpf) true = LinphoneMediaEncryptionZRTP).
Proof.
  split; [by destruct p|]. split; [by destruct r|]. split; [|by destruct avpf].
  by intros [] []; intros H.
Qed.

(** ** Stream descriptions *)

(** ** Growth of the configurations *)

(** [c'] is [c] with more sets of attribute capabilities. *)
Definition cfg_grows (c c' : SalStreamConfiguration) : Prop :=
  exists l, c' = c <| cfg_acapIndexes := cfg_acapIndexes c ++ l |>.

Lemma cfg_grows_refl c : cfg_grows c c.
Proof. exists []. rewrite app_nil_r. by destruct c. Qed.

Lemma cfg_grows_trans a b c : cfg_grows a b -> cfg_grows b c -> cfg_grows a c.
Proof. intros [l ->] [l' ->]. exists (l ++ l'). cbn. by rewrite List.app_assoc. Qed.

(** Every configuration of [this] is in [this'], at the same index, with the
    same data and at least the same attribute capabilities; the rest of the
    stream is the same. *)
Record configurations_grow (this this' : SalStreamDescription) : Prop := {
  grow_wf : stream_wf this';
  grow_frame : this' = this <| sd_cfgs := sd_cfgs this' |>;
  grow_cfgs : forall k c, key_ok k -> om_find cfg_rank k (sd_cfgs this) = Some c ->
    exists c', om_find cfg_rank k (sd_cfgs this') = Some c' /\ cfg_grows c c'
}.

Lemma configurations_grow_refl this : stream_wf this -> configurations_grow this this.
Proof. intros H. split; [done|by destruct this|]. intros k c _ Hc. exists c. split; [done|apply cfg_grows_refl]. Qed.

Lemma configurations_grow_trans a b c : configurations_grow a b -> configurations_grow b c -> configurations_grow a c.
Proof.
  intros [Wb Eb Gb] [Wc Ec Gc]. split; [done|rewrite Ec, Eb at 1; done|]. intros k x Hk Hx.
  destruct (Gb k x Hk Hx) as (y & Hy & Hxy). destruct (Gc k y Hk Hy) as (z & Hz & Hyz). exists z.
  split; [done|]. by eapply cfg_grows_trans.
Qed.

Section Growth.
Context {lib : MediaLib}.

Lemma insertOrMerge_grows this idx cfg :
  key_ok idx -> stream_wf this -> configurations_grow this (insertOrMergeConfiguration this idx cfg).
Proof.
  intros Hi Hw. pose proof (insertOrMerge_wf this idx cfg Hi Hw) as Hw'. revert Hw'.
  unfold insertOrMergeConfiguration. cbv zeta. intros Hw'.
  destruct (existsb _ _); [by apply configurations_grow_refl|].
  destruct (om_find cfg_rank idx (sd_cfgs this)) as [e|] eqn:E;
    [destruct (_ =? _); [|by apply configurations_grow_refl]|]; (split; [done|done|]); intros k c Hk Hc.
  - simpl. destruct (Z.eq_dec k idx) as [->|Hne].
    + rewrite find_set_eq. eexists. split; [done|]. rewrite E in Hc. injection Hc as <-.
      destruct (mergeAcaps_grows e (cfg_acapIndexes cfg)) as [l Hl]. exists l. unfold mergeAcaps in *.
      simpl in Hl. by rewrite Hl.
    + rewrite find_set_ne by done. exists c. split; [done|apply cfg_grows_refl].
  - simpl. rewrite find_set_ne by (done || congruence). exists c. split; [done|apply cfg_grows_refl].
Qed.

Lemma insert_fold_grows this cfgList :
  Forall (fun c => key_ok (cfg_index c)) cfgList -> stream_wf this ->
  configurations_grow this (fold_left (fun this cfg => insertOrMergeConfiguration this (cfg_index cfg) cfg) cfgList this).
Proof.
  intros Hl Hw. rewrite List.Forall_forall in Hl.
  apply (createPotentialConfiguration_insert_fold (configurations_grow this)); [|by apply configurations_grow_refl].
  intros s cfg Hin Hs. eapply configurations_grow_trans; [exact Hs|]. apply insertOrMerge_grows; [by apply Hl|apply Hs].
Qed.

Lemma u32_key_ok z : key_ok (u32 z).
Proof. apply u32_range. Qed.

Lemma getFreeIdx_key_ok l : Forall key_ok l -> key_ok (getFreeIdx l).
Proof.
  intros Hl. unfold getFreeIdx. destruct l as [|x l]; [unfold key_ok; lia|].
  destruct (find_idx _ _); [apply u32_key_ok|]. destruct (Z.ltb_spec 1 (list_min (x :: l))); [|apply u32_key_ok].
  destruct (fold_min_le (x :: l) (List.hd 0 (x :: l))) as [_ Hm]. fold (list_min (x :: l)) in Hm.
  inversion Hm as [|? ? Hx _]; subst. inversion Hl as [|? ? Hx' _]; subst. unfold key_ok in *. lia.
Qed.

Lemma om_keys_ok m : cfg_map_wf m -> Forall key_ok (om_keys m).
Proof. intros [_ H]. apply Forall_map. exact H. Qed.

(** The numbering loops only give 32 bit indexes. *)
Lemma number_cfgs_ok cfgs cfgList idx :
  key_ok idx -> Forall (fun c => key_ok (cfg_index c)) cfgList ->
  let r := fold_left (fun '(cfgList, idx) cfg => (cfgList ++ [cfg <| cfg_index := idx |>], u32 (idx + 1)))
             cfgs (cfgList, idx) in
  key_ok r.2 /\ Forall (fun c => key_ok (cfg_index c)) r.1.
Proof.
  revert cfgList idx. induction cfgs as [|c cfgs IH]; intros cfgList idx Hi Hl; [done|].
  cbn [fold_left]. apply IH; [apply u32_key_ok|]. apply Forall_app. split; [done|]. by constructor.
Qed.

Lemma potential_cfgs_ok protoMap attrList merge avpf st enc :
  key_ok st.2 -> Forall (fun c => key_ok (cfg_index c)) st.1.2 ->
  let r := potential_cfgs_for protoMap attrList merge avpf st enc in
  key_ok r.2 /\ Forall (fun c => key_ok (cfg_index c)) r.1.2.
Proof.
  destruct st as [[base cfgList] idx]. simpl. intros Hi Hl. unfold potential_cfgs_for.
  destruct (encryptionToTcap protoMap enc avpf) as [protoIdx protoValue]. destruct (negb _); [|done].
  pose proof (number_cfgs_ok (addAcapsToConfiguration (set_cfg_proto base protoIdx protoValue) enc attrList merge)
    cfgList idx Hi Hl) as H.
  cbv zeta. destruct (fold_left _ _ (cfgList, idx)) as [l i]. exact H.
Qed.

Lemma fold_potential_cfgs_ok protoMap attrList merge avpf encs st :
  key_ok st.2 -> Forall (fun c => key_ok (cfg_index c)) st.1.2 ->
  let r := fold_left (potential_cfgs_for protoMap attrList merge avpf) encs st in
  key_ok r.2 /\ Forall (fun c => key_ok (cfg_index c)) r.1.2.
Proof.
  revert st. induction encs as [|e encs IH]; intros st Hi Hl; [done|].
  cbn [fold_left]. destruct (potential_cfgs_ok protoMap attrList merge avpf st e Hi Hl). by apply IH.
Qed.

Lemma createPotentialConfiguration_grows this protoMap attrList ds dm merge :
  stream_wf this -> key_ok (cfg_index (getActualConfiguration this)) ->
  configurations_grow this (createPotentialConfiguration this protoMap attrList ds dm merge).
Proof.
  intros Hw Hi. unfold createPotentialConfiguration. cbv zeta. apply insert_fold_grows; [|done].
  destruct (is_nil protoMap).
  - apply Forall_map, List.Forall_forall. intros attrs _. exact Hi.
  - cbn [fold_left].
    set (st0 := (_, [], getFreeCfgIdx this)).
    destruct (fold_potential_cfgs_ok protoMap attrList merge true (getSupportedEncryptionsInPotentialCfgs this) st0)
      as [H1 H2]; [apply getFreeIdx_key_ok, om_keys_ok, Hw|constructor|].
    destruct (fold_potential_cfgs_ok protoMap attrList merge false (getSupportedEncryptionsInPotentialCfgs this) _ H1 H2)
      as [_ H3].
    by destruct (fold_left (potential_cfgs_for protoMap attrList merge false) _ _) as [[? cl] ?].
Qed.

Lemma createPotentialConfigurationAtIdx_grows this idx tcaps attrList ds dm :
  stream_wf this -> key_ok idx ->
  let this' := createPotentialConfigurationAtIdx this idx tcaps attrList ds dm in
  configurations_grow this this' /\
  forall k, key_ok k -> k <> idx -> getConfigurationAtIndex this' k = getConfigurationAtIndex this k.
Proof.
  intros Hw Hi. cbv zeta. split.
  - apply (createPotentialConfigurationAtIdx_fold (configurations_grow this)); [|by apply configurations_grow_refl].
    intros s cfg Hs. eapply configurations_grow_trans; [exact Hs|]. apply insertOrMerge_grows; [done|apply Hs].
  - intros k Hk Hne. apply (createPotentialConfigurationAtIdx_fold
      (fun s => getConfigurationAtIndex s k = getConfigurationAtIndex this k)); [|done].
    intros s cfg Hs. by rewrite insertOrMerge_other.
Qed.
End Growth.

Lemma om_set_fold_find {V} rank (other m : list (Z * V)) k :
  om_find rank k (fold_left (fun m p => om_set rank (fst p) (snd p) m) other m) =
  match List.find (fun p => rank k =? rank (fst p)) (rev other) with
  | Some p => Some (snd p)
  | None => om_find rank k m
  end.
Proof.
  revert m. induction other as [|[a v] other IH]; intros m; [done|].
  cbn [fold_left rev]. rewrite IH, find_app. destruct (List.find _ (rev other)) as [p|]; [done|].
  cbn [List.find fst]. destruct (Z.eqb_spec (rank k) (rank a)); [by rewrite om_find_set_same|by rewrite om_find_set_ne].
Qed.

Lemma find_rev_sorted {V} rank (m : list (Z * V)) k :
  om_sorted rank m -> option_map snd (List.find (fun p => rank k =? rank (fst p)) (rev m)) = om_find rank k m.
Proof.
  induction m as [|[a v] m IH]; intros Hs; [done|].
  apply StronglySorted_inv in Hs as [Hs Ha]. cbn [rev]. rewrite find_app.
  specialize (IH Hs). simpl om_find. destruct (List.find _ (rev m)) as [p|] eqn:E; simpl in IH.
  - symmetry in IH. apply om_find_Some_In in IH as Hk. destruct Hk as (k' & Hk & Hin).
    rewrite List.Forall_forall in Ha. apply Ha in Hin. simpl in Hin.
    destruct (Z.eqb_spec (rank k) (rank a)); [lia|]. done.
  - simpl. destruct (Z.eqb_spec (rank k) (rank a)); [done|]. simpl. done.
Qed.

(** ** Properties *)

(** The copy constructor makes an equal stream. *)
Theorem stream_copy_identity other : stream_wf other -> copy_construct other = other.
Proof. apply stream_copy_eq. Qed.

(** The same stream with one configuration per element of the list. *)
Definition ex_configured (cfgs : list (Z * SalStreamConfiguration)) : SalStreamDescription :=
  fold_left (fun s p => addConfigurationAtIndex s (fst p) (snd p)) cfgs empty_stream.
Definition ex_two : SalStreamDescription :=
  ex_configured [(0, empty_cfg <| cfg_mid := "a" |>); (1, empty_cfg <| cfg_mid := "b" |> <| cfg_tcapIndex := 1 |>)].

Lemma ex_two_wf : stream_wf ex_two.
Proof. split; [|split; [constructor|done]]. split; repeat constructor; vm_compute; congruence. Qed.

Lemma stream_copy_identity_witness : sd_cfgs ex_two <> [] /\ copy_construct ex_two = ex_two.
Proof. split; [discriminate|]. apply (stream_copy_identity ex_two). exact ex_two_wf. Defined.

(** [operator=] does not: the configurations of the right side replace the
    ones at their indexes, and a configuration of the left side at an index the
    right side does not have stays. *)
Theorem stream_assign_configurations this other k :
  stream_wf other ->
  om_find cfg_rank k (sd_cfgs (assign this other)) =
  match om_find cfg_rank k (sd_cfgs other) with
  | Some c => Some c
  | None => om_find cfg_rank k (sd_cfgs this)
  end.
Proof.
  intros [[Hs _] _]. unfold assign. simpl. rewrite merge_cfgs_fold, om_set_fold_find, <- (find_rev_sorted _ _ _ Hs).
  by destruct (List.find _ (rev (sd_cfgs other))).
Qed.

Lemma stream_assign_configurations_witness :
  om_find cfg_rank 1 (sd_cfgs (assign ex_two empty_stream)) = Some (empty_cfg <| cfg_mid := "b" |> <| cfg_tcapIndex := 1 |>) /\
  om_find cfg_rank 1 (sd_cfgs (assign ex_two empty_stream)) =
  match om_find cfg_rank 1 (sd_cfgs empty_stream) with
  | Some c => Some c
  | None => om_find cfg_rank 1 (sd_cfgs ex_two)
  end.
Proof.
  split; [reflexivity|]. apply (stream_assign_configurations ex_two empty_stream 1).
  split; [split; constructor|]. split; [constructor|]. vm_compute; split; congruence.
Defined.

(** Creating potential configurations never loses or rewrites one: every
    configuration of the stream keeps its index and its data and can only gain
    sets of attribute capabilities, nothing but the configurations changes, and
    the configurations stay ordered with 32 bit indexes. *)
Theorem potential_configurations_grow (lib : MediaLib) this protoMap attrList ds dm merge :
  stream_wf this -> key_ok (cfg_index (getActualConfiguration this)) ->
  configurations_grow this (createPotentialConfiguration this protoMap attrList ds dm merge).
Proof. apply createPotentialConfiguration_grows. Qed.

Definition ex_tcap_map : tcap_map_t := [(1, "RTP/SAVP")].
Definition ex_acap_map : acap_map_t := [(2, ("crypto", "1 AES_CM_128_HMAC_SHA1_80 inline:abcd"))].
Definition ex_srtp_stream : SalStreamDescription :=
  ex_two <| sd_supportedEncryption := [LinphoneMediaEncryptionSRTP; LinphoneMediaEncryptionNone] |>.

Lemma potential_configurations_grow_witness :
  let s := @createPotentialConfiguration ref_lib ex_srtp_stream ex_tcap_map [ex_acap_map] false false false in
  map (fun p => (fst p, cfg_proto (snd p), cfg_crypto (snd p))) (sd_cfgs s) =
    [(1, SalProtoRtpAvp, []); (2, SalProtoRtpSavp, [mkCrypto 1 1 "abcd"]); (0, SalProtoRtpAvp, [])] /\
  configurations_grow ex_srtp_stream s.
Proof.
  split; [vm_compute; reflexivity|].
  apply (potential_configurations_grow ref_lib); [exact ex_two_wf|]. unfold key_ok. vm_compute. split; congruence.
Defined.

(** Creating the potential configuration of one index touches no other
    index; in particular the actual configuration is left alone unless that
    index is its own. *)
Theorem potential_configuration_local (lib : MediaLib) this idx tcaps attrList ds dm :
  stream_wf this -> key_ok idx ->
  let this' := createPotentialConfigurationAtIdx this idx tcaps attrList ds dm in
  configurations_grow this this' /\
  forall k, key_ok k -> k <> idx -> getConfigurationAtIndex this' k = getConfigurationAtIndex this k.
Proof. apply createPotentialConfigurationAtIdx_grows. Qed.

Lemma potential_configuration_local_witness :
  let s := @createPotentialConfigurationAtIdx ref_lib ex_srtp_stream 5 ex_tcap_map [ex_acap_map] false false in
  hasConfigurationAtIndex s 5 = true /\ configurations_grow ex_srtp_stream s /\
  forall k, key_ok k -> k <> 5 -> getConfigurationAtIndex s k = getConfigurationAtIndex ex_srtp_stream k.
Proof.
  split; [vm_compute; reflexivity|].
  apply (potential_configuration_local ref_lib ex_srtp_stream 5); [exact ex_two_wf|unfold key_ok; lia].
Defined.

(** Attribute capabilities without a transport capability make no potential
    configuration: they have no index of their own, so that they are merged in
    the actual configuration when it has one and none exists yet at another
    index. *)
Theorem acap_only_goes_to_actual (lib : MediaLib) cfg attrs ds dm merge :
  cfg_index cfg = 0 -> cfg_tcapIndex cfg = 0 -> cfg_acapIndexes cfg = [] ->
  let s := addActualConfiguration empty_stream cfg in
  createPotentialConfiguration s [] [attrs] ds dm merge =
  addActualConfiguration empty_stream (cfg <| cfg_acapIndexes := [om_keys attrs] |>).
Proof.
  intros Hi Ht Ha. unfold createPotentialConfiguration, createBasePotentialCfg. cbv zeta. cbn [is_nil map fold_left].
  rewrite getActualConfiguration_add.
  match goal with |- insertOrMergeConfiguration _ ?i ?c = _ => change i with (cfg_index cfg); set (c0 := c) end.
  assert (Hc : cfg_tcapIndex c0 = 0 /\ cfg_acapIndexes c0 = [om_keys attrs]) by done.
  clearbody c0. destruct Hc as [Hc1 Hc2]. rewrite Hi.
  unfold insertOrMergeConfiguration, mergeAcaps. simpl. rewrite Ht, Hc1, Hc2, Ha. done.
Qed.

Lemma acap_only_goes_to_actual_witness :
  om_keys (sd_cfgs (@createPotentialConfiguration ref_lib (addActualConfiguration empty_stream empty_cfg) [] [ex_acap_map] false false false)) = [0] /\
  @createPotentialConfiguration ref_lib (addActualConfiguration empty_stream empty_cfg) [] [ex_acap_map] false false false =
  addActualConfiguration empty_stream (empty_cfg <| cfg_acapIndexes := [[2]] |>).
Proof.
  split; [reflexivity|]. exact (acap_only_goes_to_actual ref_lib empty_cfg ex_acap_map false false false eq_refl eq_refl eq_refl).
Defined.
