(* ===== verification/SalMediaDescription.v ===== *)
(** A whole session description: [SalMediaDescription]
    ([src/src/sal/sal_media_description.h] and [.cpp]) with its parameters
    ([src/src/sal/params/sal_media_description_params.cpp]).  It models the
    queries on the streams and on the bundles, the comparison of two
    descriptions and the creation of potential configurations. *)
From S2P Require Import Prelude SalTypes Payload SalStreamConfiguration PotentialCfgGraph SalStreamBundle SalStreamDescription.

(** ** Parameters *)

Record SalMediaDescriptionParams := mkParams {
  capabilityNegotiation : bool;
  mergeTcapLines : bool;
  mergeCfgLines : bool
}.
#[export] Instance SalMediaDescriptionParams_eta : Eta SalMediaDescriptionParams :=
  fun r => mkParams (capabilityNegotiation r) (mergeTcapLines r) (mergeCfgLines r).
Definition default_params : SalMediaDescriptionParams := mkParams false false false.

Definition params_assign (this other : SalMediaDescriptionParams) : SalMediaDescriptionParams :=
  this <| capabilityNegotiation := capabilityNegotiation other |>
       <| mergeTcapLines := mergeTcapLines other |> <| mergeCfgLines := mergeCfgLines other |>.
Definition capabilityNegotiationSupported (p : SalMediaDescriptionParams) : bool := capabilityNegotiation p.
Definition enableCapabilityNegotiationSupport (p : SalMediaDescriptionParams) (enable : bool) :=
  p <| capabilityNegotiation := enable |>.
Definition cfgLinesMerged (p : SalMediaDescriptionParams) : bool :=
  if capabilityNegotiationSupported p then mergeCfgLines p else false.
Definition enableCfgLinesMerging (p : SalMediaDescriptionParams) (enable : bool) := p <| mergeCfgLines := enable |>.
Definition tcapLinesMerged (p : SalMediaDescriptionParams) : bool :=
  if capabilityNegotiationSupported p then mergeTcapLines p else false.
Definition enableTcapLineMerging (p : SalMediaDescriptionParams) (enable : bool) := p <| mergeTcapLines := enable |>.

(** ** Data *)

Record SalMediaDescription := mkMedia {
  md_name : string;
  md_addr : string;
  md_username : string;
  md_bandwidth : Z;
  md_origin_addr : string;
  md_session_ver : Z;
  md_session_id : Z;
  md_dir : SalStreamDir;
  md_streams : list SalStreamDescription;
  md_custom_sdp_attributes : SalCustomSdpAttribute;
  md_rtcp_xr : OrtpRtcpXrConfiguration;
  md_ice_ufrag : string;
  md_ice_pwd : string;
  md_bundles : list SalStreamBundle;
  md_ice_lite : bool;
  md_set_nortpproxy : bool;
  md_accept_bundles : bool;
  md_haveLimeIk : bool;
  md_record : SalMediaRecord;
  md_times : list (Z * Z);
  md_acaps : acap_map_t;
  md_tcaps : tcap_map_t;
  md_params : SalMediaDescriptionParams
}.
#[export] Instance SalMediaDescription_eta : Eta SalMediaDescription := fun r =>
  mkMedia (md_name r) (md_addr r) (md_username r) (md_bandwidth r) (md_origin_addr r) (md_session_ver r) (md_session_id r) (md_dir r) (md_streams r) (md_custom_sdp_attributes r) (md_rtcp_xr r) (md_ice_ufrag r) (md_ice_pwd r) (md_bundles r) (md_ice_lite r) (md_set_nortpproxy r) (md_accept_bundles r) (md_haveLimeIk r) (md_record r) (md_times r) (md_acaps r) (md_tcaps r) (md_params r).

(** The constructor from the parameters. *)
Definition media_of_params (descParams : SalMediaDescriptionParams) : SalMediaDescription := {|
  md_name := EmptyString;
  md_addr := EmptyString;
  md_username := EmptyString;
  md_bandwidth := 0;
  md_origin_addr := EmptyString;
  md_session_ver := 0;
  md_session_id := 0;
  md_dir := SalStreamSendRecv;
  md_streams := [];
  md_custom_sdp_attributes := None;
  md_rtcp_xr := rtcp_xr_default;
  md_ice_ufrag := EmptyString;
  md_ice_pwd := EmptyString;
  md_bundles := [];
  md_ice_lite := false;
  md_set_nortpproxy := false;
  md_accept_bundles := false;
  md_haveLimeIk := false;
  md_record := SalMediaRecordNone;
  md_times := [];
  md_acaps := [];
  md_tcaps := [];
  md_params := descParams
|}.

(** The copy constructor. *)
Definition copy_construct (other : SalMediaDescription) : SalMediaDescription :=
  (media_of_params default_params)
  <| md_name := md_name other |>
  <| md_username := md_username other |>
  <| md_addr := md_addr other |>
  <| md_bandwidth := md_bandwidth other |>
  <| md_session_ver := md_session_ver other |>
  <| md_session_id := md_session_id other |>
  <| md_dir := md_dir other |>
  <| md_streams := map SalStreamDescription.copy_construct (md_streams other) |>
  <| md_custom_sdp_attributes := md_custom_sdp_attributes other |>
  <| md_rtcp_xr := md_rtcp_xr other |>
  <| md_ice_ufrag := md_ice_ufrag other |>
  <| md_ice_pwd := md_ice_pwd other |>
  <| md_ice_lite := md_ice_lite other |>
  <| md_accept_bundles := md_accept_bundles other |>
  <| md_bundles := md_bundles other |>
  <| md_set_nortpproxy := md_set_nortpproxy other |>.

(** [std::vector::operator=]: a vector whose [capacity] is enough assigns the
    elements it has and copy constructs the others; otherwise every element is
    copy constructed in new storage. *)
Fixpoint assign_elements (this other : list SalStreamDescription) : list SalStreamDescription :=
  match this, other with
  | _, [] => []
  | [], _ => map SalStreamDescription.copy_construct other
  | s :: this', o :: other' => SalStreamDescription.assign s o :: assign_elements this' other'
  end.
Definition vector_assign (capacity : nat) (this other : list SalStreamDescription) : list SalStreamDescription :=
  if (length other <=? capacity)%nat then assign_elements this other
  else map SalStreamDescription.copy_construct other.

(** [operator=]; [capacity] is the one of the left vector of streams. *)
Definition assign (capacity : nat) (this other : SalMediaDescription) : SalMediaDescription :=
  this
  <| md_name := md_name other |>
  <| md_username := md_username other |>
  <| md_addr := md_addr other |>
  <| md_bandwidth := md_bandwidth other |>
  <| md_session_ver := md_session_ver other |>
  <| md_session_id := md_session_id other |>
  <| md_origin_addr := md_origin_addr other |>
  <| md_dir := md_dir other |>
  <| md_streams := vector_assign capacity (md_streams this) (md_streams other) |>
  <| md_custom_sdp_attributes := md_custom_sdp_attributes other |>
  <| md_rtcp_xr := md_rtcp_xr other |>
  <| md_ice_ufrag := md_ice_ufrag other |>
  <| md_ice_pwd := md_ice_pwd other |>
  <| md_ice_lite := md_ice_lite other |>
  <| md_accept_bundles := md_accept_bundles other |>
  <| md_bundles := md_bundles other |>
  <| md_record := md_record other |>
  <| md_set_nortpproxy := md_set_nortpproxy other |>
  <| md_params := (params_assign (md_params this) (md_params other)) |>
  <| md_haveLimeIk := md_haveLimeIk other |>
  <| md_times := md_times other |>.

(** ** Directions *)

Definition isNullAddress (addr : string) : bool := String.eqb addr "0.0.0.0" || String.eqb addr "::0".

(** The two conditions of [containsStreamWithDir] on an enabled stream. *)
Definition stream_has_dir (this : SalMediaDescription) (stream_dir : SalStreamDir) (stream : SalStreamDescription) : bool :=
  (getDirection stream =e stream_dir)
  || ((getDirection stream =e SalStreamSendRecv) && (stream_dir =e SalStreamSendOnly)
      && (isNullAddress (md_addr this) || isNullAddress (sd_rtp_addr stream))).

Definition containsStreamWithDir (this : SalMediaDescription) (stream_dir : SalStreamDir) : bool :=
  existsb (fun stream => enabled stream && stream_has_dir this stream_dir stream) (md_streams this).
Definition containsStreamWithDirOfType (this : SalMediaDescription) (stream_dir : SalStreamDir) (type : SalStreamType) : bool :=
  existsb (fun stream => enabled stream && ((sd_type stream =e type) && stream_has_dir this stream_dir stream))
    (md_streams this).

Definition hasDir (this : SalMediaDescription) (stream_dir : SalStreamDir) : bool :=
  match stream_dir with
  | SalStreamRecvOnly =>
      containsStreamWithDir this SalStreamRecvOnly &&
      negb (containsStreamWithDir this SalStreamSendOnly || containsStreamWithDir this SalStreamSendRecv)
  | SalStreamSendOnly =>
      containsStreamWithDir this SalStreamSendOnly &&
      negb (containsStreamWithDir this SalStreamRecvOnly || containsStreamWithDir this SalStreamSendRecv)
  | SalStreamSendRecv => containsStreamWithDir this SalStreamSendRecv
  | SalStreamInactive =>
      if containsStreamWithDir this SalStreamSendOnly || containsStreamWithDir this SalStreamSendRecv
         || containsStreamWithDir this SalStreamRecvOnly
      then false else true
  end.

Definition setDir (this : SalMediaDescription) (stream_dir : SalStreamDir) : SalMediaDescription :=
  this <| md_streams := map (fun stream => if enabled stream then setDirection stream stream_dir else stream)
            (md_streams this) |>.

(** ** Bundles *)

Definition addNewBundle (this : SalMediaDescription) (bundle : SalStreamBundle) : SalMediaDescription :=
  this <| md_bundles := md_bundles this ++ [bundle] |>.

(** An index of the vector or -1. *)
Definition idx_or_minus1 (i : option nat) : Z :=
  match i with
  | Some i => Z.of_nat i
  | None => -1
  end.

Definition lookupMid (this : SalMediaDescription) (mid : string) : Z :=
  idx_or_minus1 (find_idx (fun sd => String.eqb (getMid sd) mid) (md_streams this)).

Definition getBundleFromMid (this : SalMediaDescription) (mid : string) : SalStreamBundle :=
  match List.find (fun bundle => hasMid bundle mid) (md_bundles this) with
  | Some bundle => bundle
  | None => []
  end.

Definition getIndexOfTransportOwner (this : SalMediaDescription) (sd : SalStreamDescription) : Z :=
  if str_empty (getMid sd) then -1
  else
    let bundle := getBundleFromMid this (getMid sd) in
    if bundle_eq bundle [] then -2
    else
      let master_mid := getMidOfTransportOwner bundle in
      if str_empty master_mid then -2
      else lookupMid this master_mid.

Definition getTransportOwnerIndexes (this : SalMediaDescription) : list Z :=
  fold_left (fun owners sd =>
    let ownerIdx := getIndexOfTransportOwner this sd in
    if 0 <=? ownerIdx then
      if is_nil owners || negb (existsb (Z.eqb ownerIdx) owners) then owners ++ [ownerIdx] else owners
    else owners) (md_streams this) [].

(** ** Searching the streams *)

(** A constant reference to the designated stream or to an empty one. *)
Definition stream_at (this : SalMediaDescription) (i : option nat) : SalStreamDescription :=
  match i with
  | Some i => default empty_stream (md_streams this !! i)
  | None => empty_stream
  end.

Definition findStreamIt (this : SalMediaDescription) (proto : SalMediaProto) (type : SalStreamType) : option nat :=
  find_idx (fun stream => enabled stream && (getProto stream =e proto) && (sd_type stream =e type)) (md_streams this).
Definition findStream this proto type : SalStreamDescription := stream_at this (findStreamIt this proto type).
Definition findIdxStream this proto type : Z := idx_or_minus1 (findStreamIt this proto type).

Definition findStreamItWithLabel (this : SalMediaDescription) (type : SalStreamType) (label : string) : option nat :=
  find_idx (fun stream => String.eqb (sd_label stream) label && (sd_type stream =e type)) (md_streams this).
Definition findStreamWithLabel this type label : SalStreamDescription :=
  stream_at this (findStreamItWithLabel this type label).
Definition findIdxStreamWithLabel this type label : Z := idx_or_minus1 (findStreamItWithLabel this type label).

Definition findStreamItWithContent (this : SalMediaDescription) (content : string) : option nat :=
  find_idx (fun stream => String.eqb (sd_content stream) content) (md_streams this).
Definition findStreamWithContent this content : SalStreamDescription :=
  stream_at this (findStreamItWithContent this content).
Definition findIdxStreamWithContent this content : Z := idx_or_minus1 (findStreamItWithContent this content).

Definition findStreamItWithContentDir (this : SalMediaDescription) (content : string) (direction : SalStreamDir)
    : option nat :=
  find_idx (fun stream => enabled stream && String.eqb (sd_content stream) content
    && (getDirection stream =e direction)) (md_streams this).
Definition findStreamWithContentDir this content direction : SalStreamDescription :=
  stream_at this (findStreamItWithContentDir this content direction).
Definition findIdxStreamWithContentDir this content direction : Z :=
  idx_or_minus1 (findStreamItWithContentDir this content direction).

Definition findStreamItWithContentLabel (this : SalMediaDescription) (content label : string) : option nat :=
  find_idx (fun stream =>
    ((str_empty content && str_empty (sd_content stream)) || String.eqb (sd_content stream) content) &&
    ((str_empty label && str_empty (sd_label stream)) || String.eqb (sd_label stream) label)) (md_streams this).
Definition findStreamWithContentLabel this content label : SalStreamDescription :=
  stream_at this (findStreamItWithContentLabel this content label).
Definition findIdxStreamWithContentLabel this content label : Z :=
  idx_or_minus1 (findStreamItWithContentLabel this content label).

Definition nbStreamsOfType (this : SalMediaDescription) (type : SalStreamType) : Z :=
  fold_left (fun nb stream => if sd_type stream =e type then u32 (nb + 1) else nb) (md_streams this) 0.
Definition nbActiveStreamsOfType (this : SalMediaDescription) (type : SalStreamType) : Z :=
  fold_left (fun nb stream => if enabled stream && (sd_type stream =e type) then u32 (nb + 1) else nb)
    (md_streams this) 0.
Definition getNbActiveStreams (this : SalMediaDescription) : Z :=
  fold_left (fun nb stream => if enabled stream then nb + 1 else nb) (md_streams this) 0.
Definition getNbStreams (this : SalMediaDescription) : nat := length (md_streams this).

(** [idx--] is evaluated on every enabled stream, before the type is tested. *)
Fixpoint active_stream_loop (type : SalStreamType) (idx : Z) (streams : list SalStreamDescription)
    : option SalStreamDescription :=
  match streams with
  | [] => None
  | stream :: rest =>
      if enabled stream then
        if (idx =? 0) && (sd_type stream =e type) then Some stream
        else active_stream_loop type (u32 (idx - 1)) rest
      else active_stream_loop type idx rest
  end.
Definition getActiveStreamOfType (this : SalMediaDescription) (type : SalStreamType) (idx : Z) : SalStreamDescription :=
  default empty_stream (active_stream_loop type idx (md_streams this)).

Definition getStreamAtIdx (this : SalMediaDescription) (idx : Z) : SalStreamDescription :=
  if idx <? 0 then empty_stream else default empty_stream (md_streams this !! Z.to_nat idx).

Definition or_else (idx : Z) (other : Z) : Z := if idx =? -1 then other else idx.

Definition findSecureStreamOfType (this : SalMediaDescription) (type : SalStreamType) : SalStreamDescription :=
  let idx := findIdxStream this SalProtoRtpSavpf type in
  let idx := or_else idx (findIdxStream this SalProtoRtpSavp type) in
  if negb (idx =? -1) then getStreamAtIdx this (u32 idx) else empty_stream.

Definition findIdxBestStream (this : SalMediaDescription) (type : SalStreamType) : Z :=
  let idx := findIdxStream this SalProtoUdpTlsRtpSavpf type in
  let idx := or_else idx (findIdxStream this SalProtoUdpTlsRtpSavp type) in
  let idx := or_else idx (findIdxStream this SalProtoRtpSavpf type) in
  let idx := or_else idx (findIdxStream this SalProtoRtpSavp type) in
  let idx := or_else idx (findIdxStream this SalProtoRtpAvpf type) in
  or_else idx (findIdxStream this SalProtoRtpAvp type).
Definition findBestStream (this : SalMediaDescription) (type : SalStreamType) : SalStreamDescription :=
  let idx := findIdxBestStream this type in
  if negb (idx =? -1) then getStreamAtIdx this (u32 idx) else empty_stream.

(** The search starts at a clamped index; with no stream and a non negative
    [startingIdx] the C++ computes an iterator before the first element. *)
Definition findFirstStreamItOfType (this : SalMediaDescription) (type : SalStreamType) (startingIdx : Z) : option nat :=
  let streamSize := Z.of_nat (length (md_streams this)) in
  let idx := Z.to_nat (if startingIdx <? 0 then 0
                       else if streamSize <=? startingIdx then streamSize - 1 else startingIdx) in
  option_map (Nat.add idx) (find_idx (fun stream => sd_type stream =e type) (drop idx (md_streams this))).
Definition findFirstStreamOfType this type startingIdx : SalStreamDescription :=
  stream_at this (findFirstStreamItOfType this type startingIdx).
Definition findFirstStreamIdxOfType this type startingIdx : Z :=
  idx_or_minus1 (findFirstStreamItOfType this type startingIdx).
Definition findAllStreamsOfType (this : SalMediaDescription) (type : SalStreamType) : list SalStreamDescription :=
  fold_left (fun streamList s => if sd_type s =e type then streamList ++ [s] else streamList) (md_streams this) [].

(** *** Custom attributes ([coreapi/bellesip_sal/sal_impl.c]) *)

Section CustomAttributes.
Context {lib : MediaLib}.

Definition sal_custom_sdp_attribute_append (csa : SalCustomSdpAttribute) (name : string) (value : option string)
    : SalCustomSdpAttribute :=
  Some (default [] csa ++ [(name, value)]).
Definition sal_custom_sdp_attribute_find (csa : SalCustomSdpAttribute) (name : string) : option string :=
  match csa with
  | Some l => match belle_sdp_get_attribute l name with Some a => snd a | None => None end
  | None => None
  end.
Definition sal_custom_sdp_attribute_is_present (csa : SalCustomSdpAttribute) (name : string) : bool :=
  match csa with
  | Some l => match belle_sdp_get_attribute l name with Some _ => true | None => false end
  | None => false
  end.

(** The body shared by the two [findStreamItWithSdpAttribute]. *)
Definition stream_has_attributes (attributes : list (string * string)) (stream : SalStreamDescription) : bool :=
  fold_left (fun found '(attrName, attrValue) =>
    if str_empty attrValue
    then found && sal_custom_sdp_attribute_is_present (sd_custom_sdp_attributes stream) attrName
    else
      match sal_custom_sdp_attribute_find (sd_custom_sdp_attributes stream) attrName with
      | Some foundAttrVal => found && String.eqb foundAttrVal attrValue
      | None => false
      end) attributes true.

Definition findStreamItWithSdpAttribute (this : SalMediaDescription) (attributes : list (string * string)) : option nat :=
  find_idx (stream_has_attributes attributes) (md_streams this).
Definition findStreamItOfTypeWithSdpAttribute (this : SalMediaDescription) (type : SalStreamType)
    (attributes : list (string * string)) : option nat :=
  find_idx (fun stream => if type <>e sd_type stream then false else stream_has_attributes attributes stream)
    (md_streams this).
Definition findIdxStreamWithSdpAttribute this attributes : Z :=
  idx_or_minus1 (findStreamItWithSdpAttribute this attributes).
Definition findStreamWithSdpAttribute this attributes : SalStreamDescription :=
  stream_at this (findStreamItWithSdpAttribute this attributes).
Definition findIdxStreamOfTypeWithSdpAttribute this type attributes : Z :=
  idx_or_minus1 (findStreamItOfTypeWithSdpAttribute this type attributes).
Definition findStreamOfTypeWithSdpAttribute this type attributes : SalStreamDescription :=
  stream_at this (findStreamItOfTypeWithSdpAttribute this type attributes).
End CustomAttributes.

(** ** Properties of all the enabled streams *)

Definition isEmpty (this : SalMediaDescription) : bool := if 0 <? getNbActiveStreams this then false else true.
Definition isAcceptable (this : SalMediaDescription) : bool :=
  forallb SalStreamDescription.isAcceptable (md_streams this).

Definition hasIceParams (this : SalMediaDescription) : bool :=
  let foundIceMediaDescParams := negb (str_empty (md_ice_ufrag this)) && negb (str_empty (md_ice_pwd this)) in
  let '(foundIceCandidates, foundIceStreamDescParams) :=
    fold_left (fun '(candidates, params) stream =>
      if negb (enabled stream) then (candidates, params)
      else (candidates && hasIceCandidates stream, params && SalStreamDescription.hasIceParams stream))
      (md_streams this) (true, true) in
  foundIceStreamDescParams || (foundIceMediaDescParams && foundIceCandidates).

(** The loop of [hasAvpf] and its likes: disabled streams are skipped. *)
Definition all_enabled (p : SalStreamDescription -> bool) (this : SalMediaDescription) : bool :=
  if is_nil (md_streams this) then false
  else forallb (fun stream => negb (enabled stream) || p stream) (md_streams this).
Definition hasAvpf : SalMediaDescription -> bool := all_enabled SalStreamDescription.hasAvpf.
Definition hasImplicitAvpf : SalMediaDescription -> bool := all_enabled SalStreamDescription.hasImplicitAvpf.
Definition hasSrtp : SalMediaDescription -> bool := all_enabled SalStreamDescription.hasSrtp.
Definition hasDtls : SalMediaDescription -> bool := all_enabled SalStreamDescription.hasDtls.
Definition hasZrtp : SalMediaDescription -> bool := all_enabled SalStreamDescription.hasZrtp.
Definition hasLimeIk (this : SalMediaDescription) : bool := md_haveLimeIk this.
Definition hasIpv6 (this : SalMediaDescription) : bool :=
  all_enabled (fun stream =>
    if negb (str_empty (sd_rtp_addr stream)) then SalStreamDescription.hasIpv6 stream
    else str_has ":" (md_addr this)) this.

(** ** Comparison *)

Section Comparison.
Context {lib : MediaLib}.

Definition globalEqual (this otherMd : SalMediaDescription) : Z :=
  let result := SAL_MEDIA_DESCRIPTION_UNCHANGED in
  let result := flag_if (negb (String.eqb (md_addr this) (md_addr otherMd)))
    SAL_MEDIA_DESCRIPTION_NETWORK_CHANGED result in
  let result := flag_if (negb (str_empty (md_addr this)) && negb (str_empty (md_addr otherMd))
      && xorb (ms_is_multicast (md_addr this)) (ms_is_multicast (md_addr otherMd)))
    SAL_MEDIA_DESCRIPTION_NETWORK_XXXCAST_CHANGED result in
  let result := flag_if (negb (length (md_streams this) =? length (md_streams otherMd))%nat)
    SAL_MEDIA_DESCRIPTION_STREAMS_CHANGED result in
  let result := flag_if (negb (md_bandwidth this =? md_bandwidth otherMd))
    SAL_MEDIA_DESCRIPTION_BANDWIDTH_CHANGED result in
  (* ICE *)
  let result := flag_if (negb (String.eqb (md_ice_ufrag this) (md_ice_ufrag otherMd))
      && negb (str_empty (md_ice_ufrag otherMd))) SAL_MEDIA_DESCRIPTION_ICE_RESTART_DETECTED result in
  flag_if (negb (String.eqb (md_ice_pwd this) (md_ice_pwd otherMd))
      && negb (str_empty (md_ice_pwd otherMd))) SAL_MEDIA_DESCRIPTION_ICE_RESTART_DETECTED result.

(** The loop of the three comparisons: pairs of disabled streams are skipped. *)
Fixpoint compare_streams (cmp : SalStreamDescription -> SalStreamDescription -> Z)
    (streams1 streams2 : list SalStreamDescription) (result : Z) : Z :=
  match streams1, streams2 with
  | stream1 :: rest1, stream2 :: rest2 =>
      if negb (enabled stream1) && negb (enabled stream2) then compare_streams cmp rest1 rest2 result
      else compare_streams cmp rest1 rest2 (Z.lor result (cmp stream1 stream2))
  | _, _ => result
  end.

Definition compareToActualConfiguration (this otherMd : SalMediaDescription) : Z :=
  compare_streams SalStreamDescription.compareToActualConfiguration
    (md_streams this) (md_streams otherMd) (globalEqual this otherMd).
Definition compareToChosenConfiguration (this otherMd : SalMediaDescription) : Z :=
  compare_streams SalStreamDescription.compareToChosenConfiguration
    (md_streams this) (md_streams otherMd) (globalEqual this otherMd).
Definition equal (this otherMd : SalMediaDescription) : Z :=
  compare_streams SalStreamDescription.equal (md_streams this) (md_streams otherMd) (globalEqual this otherMd).
Definition operator_eq (this other : SalMediaDescription) : bool := equal this other =? SAL_MEDIA_DESCRIPTION_UNCHANGED.
Definition operator_neq (this other : SalMediaDescription) : bool := negb (operator_eq this other).
End Comparison.

(** The masks [printDifferences] tests, in order, with what it appends. *)
Definition difference_names : list (Z * string) :=
  [(SAL_MEDIA_DESCRIPTION_DIRECTION_CHANGED, "DIRECTION_CHANGED ");
   (SAL_MEDIA_DESCRIPTION_CODEC_CHANGED, "CODEC_CHANGED ");
   (SAL_MEDIA_DESCRIPTION_NETWORK_CHANGED, "NETWORK_CHANGED ");
   (SAL_MEDIA_DESCRIPTION_ICE_RESTART_DETECTED, "ICE_RESTART_DETECTED ");
   (SAL_MEDIA_DESCRIPTION_CRYPTO_KEYS_CHANGED, "CRYPTO_KEYS_CHANGED ");
   (SAL_MEDIA_DESCRIPTION_NETWORK_XXXCAST_CHANGED, "NETWORK_XXXCAST_CHANGED ");
   (SAL_MEDIA_DESCRIPTION_CRYPTO_TYPE_CHANGED, "CRYPTO_TYPE_CHANGED ");
   (SAL_MEDIA_DESCRIPTION_CRYPTO_POLICY_CHANGED, "CRYPTO_POLICY_CHANGED ");
   (SAL_MEDIA_DESCRIPTION_STREAMS_CHANGED, "STREAMS_CHANGED ");
   (SAL_MEDIA_DESCRIPTION_FORCE_STREAM_RECONSTRUCTION, "FORCE_STREAM_RECONSTRUCTION ");
   (SAL_MEDIA_DESCRIPTION_CONFIGURATION_CHANGED, "STREAM_CONFIGURATION_CHANGED ");
   (SAL_MEDIA_DESCRIPTION_MIXER_TO_CLIENT_EXTENSION_CHANGED, "MIXER_TO_CLIENT_CHANGED ");
   (SAL_MEDIA_DESCRIPTION_CLIENT_TO_MIXER_EXTENSION_CHANGED, "CLIENT_TO_MIXER_CHANGED ");
   (SAL_MEDIA_DESCRIPTION_FRAME_MARKING_EXTENSION_CHANGED, "FRAME_MARKING_CHANGED ");
   (SAL_MEDIA_DESCRIPTION_PTIME_CHANGED, "PTIME_CHANGED ");
   (SAL_MEDIA_DESCRIPTION_BANDWIDTH_CHANGED, "BANDWIDTH_CHANGED ");
   (SAL_MEDIA_DESCRIPTION_CONTENT_CHANGED, "CONTENT_CHANGED")].

(** [result &= ~mask] after the test of each mask; [None] is [ms_fatal], when a
    bit is left. *)
Definition printDifferences (result : Z) : option string :=
  let '(result, out) :=
    fold_left (fun '(result, out) '(mask, text) =>
      if negb (Z.land result mask =? 0) then (Z.ldiff result mask, out +:+ text) else (result, out))
      difference_names (result, EmptyString) in
  if negb (result =? 0) then None
  else Some (if str_empty out then "NONE" else out).

(** ** Capability negotiation *)

Definition addTcap (this : SalMediaDescription) (idx : Z) (value : string) : SalMediaDescription :=
  this <| md_tcaps := om_set id_rank idx value (md_tcaps this) |>.
Definition addAcap (this : SalMediaDescription) (idx : Z) (name value : string) : SalMediaDescription :=
  this <| md_acaps := om_set id_rank idx (name, value) (md_acaps this) |>.
Definition getTcap (this : SalMediaDescription) (idx : Z) : string :=
  default EmptyString (om_find id_rank idx (md_tcaps this)).
Definition getAcap (this : SalMediaDescription) (idx : Z) : string * string :=
  default (EmptyString, EmptyString) (om_find id_rank idx (md_acaps this)).
Definition addTcapToStream (this : SalMediaDescription) (streamIdx : nat) (idx : Z) (value : string) : SalMediaDescription :=
  if (streamIdx <? length (md_streams this))%nat
  then this <| md_streams := alter (fun s => SalStreamDescription.addTcap s idx value) streamIdx (md_streams this) |>
  else this.
Definition addAcapToStream (this : SalMediaDescription) (streamIdx : nat) (idx : Z) (name value : string)
    : SalMediaDescription :=
  if (streamIdx <? length (md_streams this))%nat
  then this <| md_streams := alter (fun s => SalStreamDescription.addAcap s idx name value) streamIdx (md_streams this) |>
  else this.

(** [allCaps.insert(first, last)]: the keys already present are kept. *)
Definition insert_all {V} (m other : uint_map V) : uint_map V :=
  fold_left (fun m p => (om_insert id_rank (fst p) (snd p) m).1) other m.

Definition getFreeTcapIdx (this : SalMediaDescription) : Z :=
  getFreeIdx (om_keys (md_tcaps this) ++ concat (map (fun s => om_keys (sd_tcaps s)) (md_streams this))).
Definition getFreeAcapIdx (this : SalMediaDescription) : Z :=
  getFreeIdx (om_keys (md_acaps this) ++ concat (map (fun s => om_keys (sd_acaps s)) (md_streams this))).

Section Capabilities.
Context {lib : MediaLib}.

Definition getCfgsForStream (this : SalMediaDescription) (idx : Z) : cfg_map :=
  let stream := getStreamAtIdx this idx in
  if SalStreamDescription.operator_neq stream empty_stream then getAllCfgs stream else [].
Definition getAllAcapForStream (this : SalMediaDescription) (idx : Z) : acap_map_t :=
  let stream := getStreamAtIdx this idx in
  if SalStreamDescription.operator_neq stream empty_stream then insert_all (sd_acaps stream) (md_acaps this) else [].
Definition getAllTcapForStream (this : SalMediaDescription) (idx : Z) : tcap_map_t :=
  let stream := getStreamAtIdx this idx in
  if SalStreamDescription.operator_neq stream empty_stream then insert_all (sd_tcaps stream) (md_tcaps this) else [].

(** An index out of range is caught and changes nothing. *)
Definition createPotentialConfigurationsForStream (this : SalMediaDescription) (streamIdx : Z)
    (delete_session_attributes delete_media_attributes : bool) : SalMediaDescription :=
  match md_streams this !! Z.to_nat streamIdx with
  | None => this
  | Some stream =>
      let allStreamAcaps := getAllAcapForStream this streamIdx in
      let allStreamTcaps := getAllTcapForStream this streamIdx in
      let create proto stream :=
        createPotentialConfiguration stream proto [allStreamAcaps] delete_session_attributes
          delete_media_attributes (cfgLinesMerged (md_params this)) in
      let stream :=
        if negb (is_nil allStreamAcaps) || negb (is_nil allStreamTcaps) then
          if is_nil allStreamTcaps then create [] stream
          else fold_left (fun stream protoPair => create [protoPair] stream) allStreamTcaps stream
        else stream in
      this <| md_streams := <[Z.to_nat streamIdx := stream]> (md_streams this) |>
  end.
End Capabilities.

(** ** Lemmas *)

Lemma idx_or_minus1_found i n : idx_or_minus1 i = Z.of_nat n <-> i = Some n.
Proof. destruct i; simpl; split; intros H; try lia; [f_equal; lia|injection H; lia|done]. Qed.

Lemma idx_or_minus1_none i : idx_or_minus1 i = -1 <-> i = None.
Proof. destruct i; simpl; split; intros H; try done; lia. Qed.

Lemma idx_or_minus1_ge i : -1 <= idx_or_minus1 i.
Proof. destruct i; simpl; lia. Qed.

Lemma or_else_minus1 a b : or_else a b = -1 <-> a = -1 /\ b = -1.
Proof. unfold or_else. destruct (Z.eqb_spec a (-1)); intuition lia. Qed.

Lemma containsStreamWithDir_true this d :
  containsStreamWithDir this d = true <->
  exists s, In s (md_streams this) /\ enabled s = true /\ stream_has_dir this d s = true.
Proof. unfold containsStreamWithDir. rewrite existsb_exists. setoid_rewrite andb_true_iff. tauto. Qed.
