(* ===== verification/SdpObjects.v ===== *)
(** The SDP objects of belle-sip as data, and the operations of belle-sip the
    SDP readers and writers call, as a class with the laws the development uses.
    belle-sip is not part of this repository: the objects have the properties
    its accessors give, and every operation that parses or prints text is a
    parameter. *)
From S2P Require Import Prelude SalTypes PotentialCfgGraph.

(** ** Attributes *)

(** [belle_sdp_rtcp_fb_val_type_t] and [belle_sdp_rtcp_fb_val_param_t]; the last
    constructor stands for the values liblinphone does not name. *)
Inductive belle_sdp_rtcp_fb_val_type :=
  BELLE_SDP_RTCP_FB_ACK | BELLE_SDP_RTCP_FB_NACK | BELLE_SDP_RTCP_FB_TRR_INT
| BELLE_SDP_RTCP_FB_CCM | BELLE_SDP_RTCP_FB_GOOG_REMB | BELLE_SDP_RTCP_FB_OTHER_TYPE.
Inductive belle_sdp_rtcp_fb_val_param :=
  BELLE_SDP_RTCP_FB_NONE | BELLE_SDP_RTCP_FB_PLI | BELLE_SDP_RTCP_FB_SLI | BELLE_SDP_RTCP_FB_RPSI
| BELLE_SDP_RTCP_FB_FIR | BELLE_SDP_RTCP_FB_TMMBR | BELLE_SDP_RTCP_FB_OTHER_PARAM.

Record belle_sdp_rtcp_fb_attribute := mkRtcpFbAttribute {
  fb_id : Z;        (* int8_t; -1 for every payload type *)
  fb_type : belle_sdp_rtcp_fb_val_type;
  fb_param : belle_sdp_rtcp_fb_val_param;
  fb_trr_int : Z
}.
#[export] Instance belle_sdp_rtcp_fb_attribute_eta : Eta belle_sdp_rtcp_fb_attribute :=
  fun r => mkRtcpFbAttribute (fb_id r) (fb_type r) (fb_param r) (fb_trr_int r).

Record belle_sdp_rtcp_xr_attribute := mkRtcpXrAttribute {
  xr_rcvr_rtt_mode : option string;
  xr_rcvr_rtt_max_size : Z;
  xr_stat_summary : bool;
  xr_stat_summary_flags : list string;
  xr_voip_metrics : bool
}.
#[export] Instance belle_sdp_rtcp_xr_attribute_eta : Eta belle_sdp_rtcp_xr_attribute :=
  fun r => mkRtcpXrAttribute (xr_rcvr_rtt_mode r) (xr_rcvr_rtt_max_size r) (xr_stat_summary r)
    (xr_stat_summary_flags r) (xr_voip_metrics r).

(** An attribute is the object of the class belle-sip gives to its name: the
    capability negotiation and RTCP attributes have classes of their own, to
    which the code casts them, any other one has a name and a value. *)
Inductive belle_sdp_attribute :=
| RawAttribute (name : string) (value : option string)
| RtcpFbAttribute (a : belle_sdp_rtcp_fb_attribute)
| RtcpXrAttribute (a : belle_sdp_rtcp_xr_attribute)
| AcapAttribute (a : belle_sdp_acap_attribute)
| TcapAttribute (a : belle_sdp_tcap_attribute)
| AcfgAttribute (a : belle_sdp_cfg_attribute)
| PcfgAttribute (a : belle_sdp_cfg_attribute).

Definition belle_sdp_attribute_get_name (a : belle_sdp_attribute) : string :=
  match a with
  | RawAttribute name _ => name
  | RtcpFbAttribute _ => "rtcp-fb"
  | RtcpXrAttribute _ => "rtcp-xr"
  | AcapAttribute _ => "acap"
  | TcapAttribute _ => "tcap"
  | AcfgAttribute _ => "acfg"
  | PcfgAttribute _ => "pcfg"
  end.

Definition typed_names : list string := ["rtcp-fb"; "rtcp-xr"; "acap"; "tcap"; "acfg"; "pcfg"].
Definition mime_names : list string := ["rtpmap"; "fmtp"; "ptime"; "maxptime"].

Definition has_name (name : string) (a : belle_sdp_attribute) : bool :=
  String.eqb (belle_sdp_attribute_get_name a) name.

(** ** Media and session descriptions *)

Record belle_sdp_mime_parameter := mkMimeParameter {
  mime_type_name : option string;
  mime_media_format : Z;
  mime_rate : Z;
  mime_channel_count : Z;
  mime_parameters : option string;
  mime_ptime : Z;
  mime_max_ptime : Z
}.
#[export] Instance belle_sdp_mime_parameter_eta : Eta belle_sdp_mime_parameter :=
  fun r => mkMimeParameter (mime_type_name r) (mime_media_format r) (mime_rate r) (mime_channel_count r)
    (mime_parameters r) (mime_ptime r) (mime_max_ptime r).

Record belle_sdp_connection := mkConnection {
  cnx_address_type : string;
  cnx_address : option string;
  cnx_ttl : Z
}.
#[export] Instance belle_sdp_connection_eta : Eta belle_sdp_connection :=
  fun r => mkConnection (cnx_address_type r) (cnx_address r) (cnx_ttl r).

(** The media and the bandwidth ["AS"] of a description are fields of it. *)
Record belle_sdp_media_description := mkMediaDescription {
  media_type : string;
  media_port : Z;
  media_port_count : Z;
  media_protocol : string;
  media_formats : list Z;
  media_connection : option belle_sdp_connection;
  media_bandwidth : option Z;
  media_attributes : list belle_sdp_attribute
}.
#[export] Instance belle_sdp_media_description_eta : Eta belle_sdp_media_description :=
  fun r => mkMediaDescription (media_type r) (media_port r) (media_port_count r) (media_protocol r)
    (media_formats r) (media_connection r) (media_bandwidth r) (media_attributes r).

Record belle_sdp_origin := mkOrigin {
  origin_username : option string;
  origin_session_id : Z;
  origin_session_version : Z;
  origin_address_type : string;
  origin_address : string
}.

Record belle_sdp_session_description := mkSessionDescription {
  session_version : Z;
  session_origin : belle_sdp_origin;
  session_name : option string;
  session_connection : option belle_sdp_connection;
  session_times : list (Z * Z);
  session_bandwidth : option Z;
  session_attributes : list belle_sdp_attribute;
  session_media_descriptions : list belle_sdp_media_description
}.
#[export] Instance belle_sdp_session_description_eta : Eta belle_sdp_session_description :=
  fun r => mkSessionDescription (session_version r) (session_origin r) (session_name r) (session_connection r)
    (session_times r) (session_bandwidth r) (session_attributes r) (session_media_descriptions r).

Definition belle_sdp_media_description_create (type : string) (port port_count : Z) (protocol : string)
    : belle_sdp_media_description :=
  mkMediaDescription type port port_count protocol [] None None [].
Definition belle_sdp_media_description_add_attribute (m : belle_sdp_media_description) (a : belle_sdp_attribute)
    : belle_sdp_media_description :=
  m <| media_attributes := media_attributes m ++ [a] |>.
Definition belle_sdp_session_description_add_attribute (s : belle_sdp_session_description)
    (a : belle_sdp_attribute) : belle_sdp_session_description :=
  s <| session_attributes := session_attributes s ++ [a] |>.
Definition belle_sdp_session_description_add_media_description (s : belle_sdp_session_description)
    (m : belle_sdp_media_description) : belle_sdp_session_description :=
  s <| session_media_descriptions := session_media_descriptions s ++ [m] |>.

(** The capability negotiation attributes of a description, as the reader of
    capabilities finds them by name. *)
Definition media_caps_of (m : belle_sdp_media_description) : sdp_media_caps := {|
  media_acaps := omap (fun a => match a with AcapAttribute x => Some x | _ => None end) (media_attributes m);
  media_tcaps := omap (fun a => match a with TcapAttribute x => Some x | _ => None end) (media_attributes m);
  media_acfgs := omap (fun a => match a with AcfgAttribute x => Some x | _ => None end) (media_attributes m);
  media_pcfgs := omap (fun a => match a with PcfgAttribute x => Some x | _ => None end) (media_attributes m)
|}.
Definition session_caps_of (s : belle_sdp_session_description) : sdp_session_caps := {|
  session_acaps := omap (fun a => match a with AcapAttribute x => Some x | _ => None end) (session_attributes s);
  session_tcaps := omap (fun a => match a with TcapAttribute x => Some x | _ => None end) (session_attributes s);
  session_medias := map media_caps_of (session_media_descriptions s)
|}.

(** ** The operations of belle-sip *)

Class SdpLib := {
  (** The object for a name and a value, or null when the value has not the
      syntax of the class of the name. *)
  belle_sdp_attribute_create : string -> option string -> option belle_sdp_attribute;
  (** The text of the value of an attribute that has a class of its own. *)
  typed_attribute_value : belle_sdp_attribute -> option string;
  (** The attribute of a description that a name designates. *)
  belle_sdp_find_attribute : list belle_sdp_attribute -> string -> option belle_sdp_attribute;
  (** The text a zeroed buffer of 1024 bytes holds after the marshalling. *)
  belle_sip_object_marshal : belle_sdp_attribute -> string;
  belle_sip_uri_to_escaped_username : string -> string;
  belle_sdp_rtcp_fb_attribute_new : belle_sdp_rtcp_fb_attribute;
  belle_sdp_rtcp_xr_attribute_new : belle_sdp_rtcp_xr_attribute;
  belle_sdp_session_description_new : belle_sdp_session_description;
  (** The time to live and the packet times of new objects. *)
  belle_sdp_connection_ttl_unset : Z;
  mime_ptime_unset : Z;
  mime_max_ptime_unset : Z;
  (** What [belle_sdp_session_description_set_time_description] makes of the times. *)
  set_time_description : list (Z * Z) -> Z * Z -> list (Z * Z);
  belle_sdp_media_description_append_values_from_mime_parameter :
    belle_sdp_media_description -> belle_sdp_mime_parameter -> belle_sdp_media_description;
  belle_sdp_media_description_build_mime_parameters :
    belle_sdp_media_description -> list belle_sdp_mime_parameter
}.

Section Accessors.
Context {sdp : SdpLib}.

Definition belle_sdp_connection_create (address_type address : string) : belle_sdp_connection :=
  mkConnection address_type (Some address) belle_sdp_connection_ttl_unset.

Definition belle_sdp_attribute_get_value (a : belle_sdp_attribute) : option string :=
  match a with
  | RawAttribute _ value => value
  | _ => typed_attribute_value a
  end.
Definition belle_sdp_media_description_get_attribute (m : belle_sdp_media_description) (name : string)
    : option belle_sdp_attribute := belle_sdp_find_attribute (media_attributes m) name.
Definition belle_sdp_session_description_get_attribute (s : belle_sdp_session_description) (name : string)
    : option belle_sdp_attribute := belle_sdp_find_attribute (session_attributes s) name.
Definition belle_sdp_session_description_get_attribute_value (s : belle_sdp_session_description) (name : string)
    : option string :=
  match belle_sdp_session_description_get_attribute s name with
  | Some a => belle_sdp_attribute_get_value a
  | None => None
  end.

(** An attribute belle-sip does not make adds nothing. *)
Definition add_created (m : belle_sdp_media_description) (name : string) (value : option string)
    : belle_sdp_media_description :=
  match belle_sdp_attribute_create name value with
  | Some a => belle_sdp_media_description_add_attribute m a
  | None => m
  end.
Definition session_add_created (s : belle_sdp_session_description) (name : string) (value : option string)
    : belle_sdp_session_description :=
  match belle_sdp_attribute_create name value with
  | Some a => belle_sdp_session_description_add_attribute s a
  | None => s
  end.
End Accessors.

(** What the development uses of belle-sip's documented behaviour.

    - An attribute whose name has no class of its own is created with the name
      and the value it is given.
    - Looking a name up gives the first attribute of that name, when no
      attribute of the list has that name in another case.
    - New objects are empty.
    - Setting the time of a description that has none sets it.
    - Writing a mime parameter adds its format and the attributes [rtpmap],
      [fmtp], [ptime] and [maxptime] only; reading the mime parameters looks at
      the formats and at these attributes only, and gives back the mime
      parameters that were written, of distinct formats and with one [ptime]. *)
Definition same_mime (written read : belle_sdp_mime_parameter) : Prop :=
  mime_type_name read = mime_type_name written /\
  mime_media_format read = mime_media_format written /\
  mime_rate read = mime_rate written /\
  mime_parameters read = mime_parameters written /\
  (0 < mime_channel_count written -> mime_channel_count read = mime_channel_count written) /\
  (0 < mime_ptime written -> mime_ptime read = mime_ptime written).

(** A mime parameter whose text can be read back. *)
Definition mime_ok (p : belle_sdp_mime_parameter) : Prop :=
  0 <= mime_media_format p < 128 /\ 0 < mime_rate p /\
  (exists name, mime_type_name p = Some name /\ is_token name /\ str_has "/" name = false) /\
  mime_parameters p <> Some EmptyString.

Definition is_mime_attribute (a : belle_sdp_attribute) : bool :=
  existsb (String.eqb (belle_sdp_attribute_get_name a)) mime_names.

Class SdpLibSpec (sdp : SdpLib) : Prop := {
  create_raw : forall name value, ~ In name typed_names ->
    belle_sdp_attribute_create name value = Some (RawAttribute name value);
  find_exact : forall l name,
    (forall a, In a l -> strcasecmp_eq (belle_sdp_attribute_get_name a) name = true ->
       belle_sdp_attribute_get_name a = name) ->
    belle_sdp_find_attribute l name = List.find (has_name name) l;
  new_session_empty : session_attributes belle_sdp_session_description_new = [] /\
    session_times belle_sdp_session_description_new = [] /\
    session_media_descriptions belle_sdp_session_description_new = [] /\
    session_bandwidth belle_sdp_session_description_new = None;
  new_rtcp_xr_empty : xr_rcvr_rtt_mode belle_sdp_rtcp_xr_attribute_new = None /\
    xr_stat_summary_flags belle_sdp_rtcp_xr_attribute_new = [];
  set_first_time : forall t, set_time_description [] t = [t];
  append_mime_frame : forall m p, exists formats attrs,
    belle_sdp_media_description_append_values_from_mime_parameter m p =
      m <| media_formats := formats |> <| media_attributes := media_attributes m ++ attrs |> /\
    Forall (fun a => is_mime_attribute a = true) attrs;
  build_mime_local : forall m m',
    media_formats m = media_formats m' ->
    List.filter is_mime_attribute (media_attributes m) = List.filter is_mime_attribute (media_attributes m') ->
    belle_sdp_media_description_build_mime_parameters m = belle_sdp_media_description_build_mime_parameters m';
  build_mime_written : forall m ps,
    media_formats m = [] -> List.filter is_mime_attribute (media_attributes m) = [] ->
    List.NoDup (map mime_media_format ps) ->
    (exists t, Forall (fun p => mime_ptime p = t) ps) ->
    Forall mime_ok ps ->
    Forall2 same_mime ps (belle_sdp_media_description_build_mime_parameters
      (fold_left belle_sdp_media_description_append_values_from_mime_parameter ps m))
}.
