(* ===== verification/SalSdp.v ===== *)
(** The RTCP attributes of SDP: [src/coreapi/bellesip_sal/sal_sdp.c], which
    writes [rtcp-fb] and [rtcp-xr] attributes and reads [rtcp-xr] ones. *)
From S2P Require Import Prelude SalTypes Payload SalStreamConfiguration PotentialCfgGraph SdpObjects.

(** What the SDP layer uses of oRTP: a new payload type and the values of its
    enumerations.  The statistics flags and the AVPF
    features of a payload type are masks of one bit, given by its position. *)
Class OrtpRtcp := {
  (** The payload type [payload_type_new] allocates. *)
  payload_type_new : OrtpPayloadType;
  OrtpRtcpXrRcvrRttNone : Z;
  OrtpRtcpXrRcvrRttAll : Z;
  OrtpRtcpXrRcvrRttSender : Z;
  OrtpRtcpXrStatSummaryNone : Z;
  stat_loss_bit : Z;
  stat_dup_bit : Z;
  stat_jitt_bit : Z;
  stat_ttl_bit : Z;
  stat_hl_bit : Z;
  avpf_fir_bit : Z;
  avpf_pli_bit : Z;
  avpf_sli_bit : Z;
  avpf_rpsi_bit : Z
}.

(** Distinct values, distinct bits, and zero for none. *)
Class OrtpRtcpSpec (ortp : OrtpRtcp) : Prop := {
  rtt_modes_distinct : List.NoDup [OrtpRtcpXrRcvrRttNone; OrtpRtcpXrRcvrRttAll; OrtpRtcpXrRcvrRttSender];
  rtt_none_zero : OrtpRtcpXrRcvrRttNone = 0;
  stat_none_zero : OrtpRtcpXrStatSummaryNone = 0;
  stat_bits_distinct : List.NoDup [stat_loss_bit; stat_dup_bit; stat_jitt_bit; stat_ttl_bit; stat_hl_bit];
  stat_bits_range : Forall (fun b => 0 <= b < 31) [stat_loss_bit; stat_dup_bit; stat_jitt_bit; stat_ttl_bit; stat_hl_bit];
  avpf_bits_distinct : List.NoDup [avpf_fir_bit; avpf_pli_bit; avpf_sli_bit; avpf_rpsi_bit];
  avpf_bits_range : Forall (fun b => 0 <= b < 8) [avpf_fir_bit; avpf_pli_bit; avpf_sli_bit; avpf_rpsi_bit]
}.

Section SalSdp.
Context {sdp : SdpLib} {ortp : OrtpRtcp}.

(** [mask & (1 << bit)] is not zero, and [mask | (1 << bit)]. *)
Definition has_bit (mask bit : Z) : bool := Z.testbit mask bit.
Definition set_bit (mask bit : Z) : Z := Z.lor mask (Z.shiftl 1 bit).

(** ** Writing *)

Definition add_rtcp_fb (m : belle_sdp_media_description) (a : belle_sdp_rtcp_fb_attribute)
    : belle_sdp_media_description :=
  belle_sdp_media_description_add_attribute m (RtcpFbAttribute a).

Definition add_rtcp_fb_trr_int_attribute (m : belle_sdp_media_description) (id trr_int : Z)
    : belle_sdp_media_description :=
  add_rtcp_fb m (belle_sdp_rtcp_fb_attribute_new
    <| fb_id := id |> <| fb_type := BELLE_SDP_RTCP_FB_TRR_INT |> <| fb_trr_int := trr_int |>).

Definition add_rtcp_fb_ack_attribute (m : belle_sdp_media_description) (id : Z)
    (param : belle_sdp_rtcp_fb_val_param) : belle_sdp_media_description :=
  add_rtcp_fb m (belle_sdp_rtcp_fb_attribute_new
    <| fb_id := id |> <| fb_type := BELLE_SDP_RTCP_FB_ACK |> <| fb_param := param |>).

Definition add_rtcp_fb_nack_attribute (m : belle_sdp_media_description) (id : Z)
    (param : belle_sdp_rtcp_fb_val_param) : belle_sdp_media_description :=
  add_rtcp_fb m (belle_sdp_rtcp_fb_attribute_new
    <| fb_id := id |> <| fb_type := BELLE_SDP_RTCP_FB_NACK |> <| fb_param := param |>).

Definition add_rtcp_fb_ccm_attribute (m : belle_sdp_media_description) (id : Z)
    (param : belle_sdp_rtcp_fb_val_param) : belle_sdp_media_description :=
  add_rtcp_fb m (belle_sdp_rtcp_fb_attribute_new
    <| fb_id := id |> <| fb_type := BELLE_SDP_RTCP_FB_CCM |> <| fb_param := param |>).

Definition add_rtcp_fb_goog_remb_attribute (m : belle_sdp_media_description) (id : Z)
    : belle_sdp_media_description :=
  add_rtcp_fb m (belle_sdp_rtcp_fb_attribute_new
    <| fb_id := id |> <| fb_type := BELLE_SDP_RTCP_FB_GOOG_REMB |>).

Definition create_rtcp_xr_attribute (config : OrtpRtcpXrConfiguration) : belle_sdp_attribute :=
  let attribute := belle_sdp_rtcp_xr_attribute_new in
  let attribute :=
    if negb (rcvr_rtt_mode config =? OrtpRtcpXrRcvrRttNone) then
      let attribute :=
        if rcvr_rtt_mode config =? OrtpRtcpXrRcvrRttAll then attribute <| xr_rcvr_rtt_mode := Some "all" |>
        else if rcvr_rtt_mode config =? OrtpRtcpXrRcvrRttSender
        then attribute <| xr_rcvr_rtt_mode := Some "sender" |>
        else attribute in
      attribute <| xr_rcvr_rtt_max_size := rcvr_rtt_max_size config |>
    else attribute in
  let attribute := attribute <| xr_stat_summary := stat_summary_enabled config |> in
  let add (bit : Z) (flag : string) (a : belle_sdp_rtcp_xr_attribute) :=
    if has_bit (stat_summary_flags config) bit
    then a <| xr_stat_summary_flags := xr_stat_summary_flags a ++ [flag] |> else a in
  let attribute :=
    if stat_summary_enabled config
    then add stat_hl_bit "HL" (add stat_ttl_bit "TTL" (add stat_jitt_bit "jitt" (add stat_dup_bit "dup"
           (add stat_loss_bit "loss" attribute))))
    else attribute in
  let attribute := attribute <| xr_voip_metrics := voip_metrics_enabled config |> in
  RtcpXrAttribute attribute.

(** ** Reading *)

(** The operator is declared with its left operand by value: what it computes is
    its result, and the operand of the caller, the first component here, is left
    as it was. *)
Definition operator_or_assign (a b : Z) : Z * Z := (a, Z.lor a b).

Definition sal_init_rtcp_xr_description (config : OrtpRtcpXrConfiguration) : OrtpRtcpXrConfiguration :=
  config <| xr_enabled := false |>
         <| rcvr_rtt_mode := OrtpRtcpXrRcvrRttNone |>
         <| rcvr_rtt_max_size := -1 |>
         <| stat_summary_flags := OrtpRtcpXrStatSummaryNone |>
         <| voip_metrics_enabled := false |>.

Definition stat_flag_of (flag : string) : option Z :=
  if strcasecmp_eq flag "loss" then Some stat_loss_bit
  else if strcasecmp_eq flag "dup" then Some stat_dup_bit
  else if strcasecmp_eq flag "jitt" then Some stat_jitt_bit
  else if strcasecmp_eq flag "TTL" then Some stat_ttl_bit
  else if strcasecmp_eq flag "HL" then Some stat_hl_bit
  else None.

(** The loop on the flags of the attribute. *)
Definition read_stat_summary_flags (config : OrtpRtcpXrConfiguration) (l : list string)
    : OrtpRtcpXrConfiguration :=
  fold_left (fun config flag =>
    match stat_flag_of flag with
    | Some bit =>
        config <| stat_summary_flags :=
          fst (operator_or_assign (stat_summary_flags config) (Z.shiftl 1 bit)) |>
    | None => config
    end) l config.

Definition sdp_parse_rtcp_xr_parameters (attribute : option belle_sdp_rtcp_xr_attribute)
    (config : OrtpRtcpXrConfiguration) : OrtpRtcpXrConfiguration :=
  match attribute with
  | None => config
  | Some xr_attr =>
      let config := sal_init_rtcp_xr_description config in
      let config :=
        match xr_rcvr_rtt_mode xr_attr with
        | Some mode =>
            let config :=
              if strcasecmp_eq mode "all" then config <| rcvr_rtt_mode := OrtpRtcpXrRcvrRttAll |>
              else if strcasecmp_eq mode "sender" then config <| rcvr_rtt_mode := OrtpRtcpXrRcvrRttSender |>
              else config in
            config <| rcvr_rtt_max_size := xr_rcvr_rtt_max_size xr_attr |>
        | None => config
        end in
      let config := config <| stat_summary_enabled := xr_stat_summary xr_attr |> in
      let config :=
        if stat_summary_enabled config
        then read_stat_summary_flags config (xr_stat_summary_flags xr_attr) else config in
      let config := config <| voip_metrics_enabled := xr_voip_metrics xr_attr |> in
      config <| xr_enabled := true |>
  end.

(** The cast of the attribute named [rtcp-xr]. *)
Definition as_rtcp_xr (a : option belle_sdp_attribute) : option belle_sdp_rtcp_xr_attribute :=
  match a with
  | Some (RtcpXrAttribute x) => Some x
  | _ => None
  end.
Definition sdp_parse_session_rtcp_xr_parameters (session_desc : belle_sdp_session_description)
    (config : OrtpRtcpXrConfiguration) : OrtpRtcpXrConfiguration :=
  sdp_parse_rtcp_xr_parameters
    (as_rtcp_xr (belle_sdp_session_description_get_attribute session_desc "rtcp-xr")) config.
Definition sdp_parse_media_rtcp_xr_parameters (media_desc : belle_sdp_media_description)
    (config : OrtpRtcpXrConfiguration) : OrtpRtcpXrConfiguration :=
  sdp_parse_rtcp_xr_parameters
    (as_rtcp_xr (belle_sdp_media_description_get_attribute media_desc "rtcp-xr")) config.
End SalSdp.
