(* ===== verification/StreamSdpReader.v ===== *)
(** Reading one media line: the part of [SalStreamDescription]
    ([src/src/sal/sal_stream_description.cpp]) that fills a stream from belle-sip's
    media description. *)
From S2P Require Import Prelude Sscanf SalTypes Payload SalStreamConfiguration PotentialCfgGraph SalStreamBundle SalStreamDescription SalMediaDescription SdpObjects SalSdp.

(** [SAL_MEDIA_DESCRIPTION_MAX_ICE_ADDR_LEN]: the size of the buffers for the
    words of an ICE candidate. *)
Definition SAL_MEDIA_DESCRIPTION_MAX_ICE_ADDR_LEN : nat := 64.

(** [size_of zrtphash]. *)
Definition zrtphash_size : nat := 128.

(** The words the code compares with [strncmp(value, "...", n)]. *)
Definition read_dtls_role (value : option string) (role : SalDtlsRole) : SalDtlsRole :=
  match value with
  | Some value =>
      if String.prefix "actpass" value then SalDtlsRoleUnset
      else if String.prefix "active" value then SalDtlsRoleIsClient
      else if String.prefix "passive" value then SalDtlsRoleIsServer
      else role
  | None => role
  end.

Definition setProtoInCfg (cfg : SalStreamConfiguration) (str : string) : SalStreamConfiguration :=
  let '(proto, protoOther) :=
    if negb (str_empty str) then
      let protoAsString := toupper str in
      if String.eqb protoAsString "RTP/AVP" then (SalProtoRtpAvp, EmptyString)
      else if String.eqb protoAsString "RTP/SAVP" then (SalProtoRtpSavp, EmptyString)
      else if String.eqb protoAsString "RTP/AVPF" then (SalProtoRtpAvpf, EmptyString)
      else if String.eqb protoAsString "RTP/SAVPF" then (SalProtoRtpSavpf, EmptyString)
      else if String.eqb protoAsString "UDP/TLS/RTP/SAVP" then (SalProtoUdpTlsRtpSavp, EmptyString)
      else if String.eqb protoAsString "UDP/TLS/RTP/SAVPF" then (SalProtoUdpTlsRtpSavpf, EmptyString)
      else (SalProtoOther, protoAsString)
    else (SalProtoOther, EmptyString) in
  cfg <| cfg_proto := proto |> <| cfg_proto_other := protoOther |>.

(** ** ICE candidates *)

(** [sscanf(value, "%s %u %3s %u %s %d typ %s raddr %s rport %d", ...)]: the
    number of conversions and what they stored; the variables of the
    conversions that were not made keep their initial value, except the buffer
    of the address, which has none. *)
Record candidate_scan := mkCandidateScan {
  scan_nb : nat;
  scan_proto : string;
  scan_candidate : SalIceCandidate
}.

Definition ice_word {B} := @scan_str_then B SAL_MEDIA_DESCRIPTION_MAX_ICE_ADDR_LEN.

Definition sscanf_candidate (value : string) : outcome candidate_scan :=
  let at_conversion nb proto c := Done (mkCandidateScan nb proto c) in
  let c0 := mkIceCandidate EmptyString EmptyString EmptyString EmptyString 0 0 0 0 in
  ice_word value (at_conversion 0%nat EmptyString c0) (fun foundation s =>
  let c1 := mkIceCandidate EmptyString EmptyString foundation EmptyString 0 0 0 0 in
  scan_then (scan_uint s) (at_conversion 1%nat EmptyString c1) (fun componentID s =>
  let c2 := mkIceCandidate EmptyString EmptyString foundation EmptyString componentID 0 0 0 in
  scan_then (scan_word 3 s) (at_conversion 2%nat EmptyString c2) (fun proto s =>
  scan_then (scan_uint s) (at_conversion 3%nat proto c2) (fun priority s =>
  let c4 := mkIceCandidate EmptyString EmptyString foundation EmptyString componentID priority 0 0 in
  ice_word s (at_conversion 4%nat proto c4) (fun addr s =>
  let c5 := mkIceCandidate addr EmptyString foundation EmptyString componentID priority 0 0 in
  scan_then (scan_int s) (at_conversion 5%nat proto c5) (fun port s =>
  let c6 := mkIceCandidate addr EmptyString foundation EmptyString componentID priority port 0 in
  scan_lit_then "typ" s (at_conversion 6%nat proto c6) (fun s =>
  ice_word s (at_conversion 6%nat proto c6) (fun type s =>
  let c7 := mkIceCandidate addr EmptyString foundation type componentID priority port 0 in
  scan_lit_then "raddr" s (at_conversion 7%nat proto c7) (fun s =>
  ice_word s (at_conversion 7%nat proto c7) (fun raddr s =>
  let c8 := mkIceCandidate addr raddr foundation type componentID priority port 0 in
  scan_lit_then "rport" s (at_conversion 8%nat proto c8) (fun s =>
  scan_then (scan_int s) (at_conversion 8%nat proto c8) (fun rport s =>
  at_conversion 9%nat proto (mkIceCandidate addr raddr foundation type componentID priority port rport))
  ))))))))))).

(** The [candidate] attribute; [candidate.addr = addr] reads the buffer. *)
Definition read_candidate (ice_candidates : list SalIceCandidate) (value : string)
    : outcome (list SalIceCandidate) :=
  let* r := sscanf_candidate value in
  if (scan_nb r <? 5)%nat then Undefined
  else if strcasecmp_eq "udp" (scan_proto r) && ((scan_nb r =? 7)%nat || (scan_nb r =? 9)%nat)
  then Done (ice_candidates ++ [scan_candidate r])
  else Done ice_candidates.

Definition empty_remote_candidate : SalIceRemoteCandidate := mkIceRemoteCandidate EmptyString 0.

(** [ice_remote_candidates.resize(n)] of a shorter vector. *)
Definition resize (l : list SalIceRemoteCandidate) (n : nat) : list SalIceRemoteCandidate :=
  l ++ repeat empty_remote_candidate (n - length l).

Definition store_remote_candidate (l : list SalIceRemoteCandidate) (componentID : Z)
    (remote_candidate : SalIceRemoteCandidate) : list SalIceRemoteCandidate :=
  if 0 <? componentID then
    let candidateIdx := Z.to_nat (componentID - 1) in
    let l := if (length l <=? candidateIdx)%nat then resize l (Z.to_nat componentID) else l in
    <[candidateIdx := remote_candidate]> l
  else l.

(** The [while] loop on [sscanf(ptr, "%u %s %u%n", ...)], which advances [ptr]
    past what it read and one space. *)
Fixpoint read_remote_candidates (fuel : nat) (l : list SalIceRemoteCandidate) (ptr : string)
    : outcome (list SalIceRemoteCandidate) :=
  match fuel with
  | O => Done l
  | S fuel' =>
      scan_then (scan_uint ptr) (Done l) (fun componentID s =>
      ice_word s (Done l) (fun addr s =>
      scan_then (scan_uint s) (Done l) (fun port s =>
      let l := store_remote_candidate l componentID (mkIceRemoteCandidate addr (i32 port)) in
      match s with
      | EmptyString => Done l
      | String c s' => if Ascii.eqb c " " then read_remote_candidates fuel' l s' else read_remote_candidates fuel' l s
      end)))
  end.

Section Reader.
Context {lib : MediaLib} {sdp : SdpLib} {ortp : OrtpRtcp}.

Definition read_ice_attribute (this : SalStreamDescription) (attribute : belle_sdp_attribute)
    : outcome SalStreamDescription :=
  let att_name := belle_sdp_attribute_get_name attribute in
  match belle_sdp_attribute_get_value attribute with
  | Some value =>
      if String.eqb "candidate" att_name then
        let* l := read_candidate (sd_ice_candidates this) value in Done (this <| sd_ice_candidates := l |>)
      else if String.eqb "remote-candidates" att_name then
        let* l := read_remote_candidates (S (String.length value)) (sd_ice_remote_candidates this) value in
        Done (this <| sd_ice_remote_candidates := l |>)
      else if String.eqb "ice-ufrag" att_name then Done (this <| sd_ice_ufrag := value |>)
      else if String.eqb "ice-pwd" att_name then Done (this <| sd_ice_pwd := value |>)
      else if String.eqb "ice-mismatch" att_name then Done (this <| sd_ice_mismatch := true |>)
      else Done this
  | None =>
      if String.eqb "ice-mismatch" att_name then Done (this <| sd_ice_mismatch := true |>) else Done this
  end.

Definition sdpParseMediaIceParameters (this : SalStreamDescription) (media_desc : belle_sdp_media_description)
    : outcome SalStreamDescription :=
  ofold read_ice_attribute this (media_attributes media_desc).

(** ** Payload types and their feedback parameters *)

Definition payload_of_mime (mime_param : belle_sdp_mime_parameter) : OrtpPayloadType :=
  payload_type_new
  <| number := mime_media_format mime_param |>
  <| clock_rate := mime_rate mime_param |>
  <| mime_type := mime_type_name mime_param |>
  <| channels := mime_channel_count mime_param |>
  <| send_fmtp := mime_parameters mime_param |>
  <| avpf := mkAvpf 0 false 0 |>.

Definition sdpParsePayloadTypes (cfg : SalStreamConfiguration) (media_desc : belle_sdp_media_description)
    : SalStreamConfiguration :=
  fold_left (fun cfg mime_param =>
    cfg <| cfg_payloads := cfg_payloads cfg ++ [payload_of_mime mime_param] |>
        <| cfg_ptime := mime_ptime mime_param |>
        <| cfg_maxptime := mime_max_ptime mime_param |>)
    (belle_sdp_media_description_build_mime_parameters media_desc) cfg.

Definition applyRtcpFbAttributeToPayload (cfg : SalStreamConfiguration) (fb : belle_sdp_rtcp_fb_attribute)
    (pt : OrtpPayloadType) : SalStreamConfiguration * OrtpPayloadType :=
  let avpf_params := avpf pt in
  let feature bit := avpf_params <| features := set_bit (features avpf_params) bit |> in
  let '(cfg, avpf_params) :=
    match fb_type fb with
    | BELLE_SDP_RTCP_FB_ACK =>
        match fb_param fb with
        | BELLE_SDP_RTCP_FB_RPSI => (cfg, feature avpf_rpsi_bit)
        | _ => (cfg, avpf_params)
        end
    | BELLE_SDP_RTCP_FB_NACK =>
        match fb_param fb with
        | BELLE_SDP_RTCP_FB_PLI => (cfg, feature avpf_pli_bit)
        | BELLE_SDP_RTCP_FB_SLI => (cfg, feature avpf_sli_bit)
        | BELLE_SDP_RTCP_FB_RPSI => (cfg, (feature avpf_rpsi_bit) <| rpsi_compatibility := true |>)
        | BELLE_SDP_RTCP_FB_NONE =>
            (cfg <| cfg_rtcp_fb := (cfg_rtcp_fb cfg) <| generic_nack_enabled := true |> |>, avpf_params)
        | _ => (cfg, avpf_params)
        end
    | BELLE_SDP_RTCP_FB_TRR_INT => (cfg, avpf_params <| trr_interval := fb_trr_int fb |>)
    | BELLE_SDP_RTCP_FB_CCM =>
        match fb_param fb with
        | BELLE_SDP_RTCP_FB_FIR => (cfg, feature avpf_fir_bit)
        | BELLE_SDP_RTCP_FB_TMMBR =>
            (cfg <| cfg_rtcp_fb := (cfg_rtcp_fb cfg) <| tmmbr_enabled := true |> |>, avpf_params)
        | _ => (cfg, avpf_params)
        end
    | BELLE_SDP_RTCP_FB_GOOG_REMB =>
        (cfg <| cfg_rtcp_fb := (cfg_rtcp_fb cfg) <| goog_remb_enabled := true |> |>, avpf_params)
    | BELLE_SDP_RTCP_FB_OTHER_TYPE => (cfg, avpf_params)
    end in
  (cfg, pt <| avpf := avpf_params |>).

(** The loop on the payload types [p] selects. *)
Definition apply_to_payloads (p : OrtpPayloadType -> bool) (fb : belle_sdp_rtcp_fb_attribute)
    (cfg : SalStreamConfiguration) : SalStreamConfiguration :=
  let '(cfg, payloads) :=
    fold_left (fun '(cfg, payloads) pt =>
      if p pt then let '(cfg, pt) := applyRtcpFbAttributeToPayload cfg fb pt in (cfg, payloads ++ [pt])
      else (cfg, payloads ++ [pt])) (cfg_payloads cfg) (cfg, []) in
  cfg <| cfg_payloads := payloads |>.

(** Both loops on the attributes; the flag says whether there was one that
    concerns a payload type. *)
Definition read_general_fb (st : SalStreamConfiguration * bool) (attribute : belle_sdp_attribute)
    : SalStreamConfiguration * bool :=
  match attribute with
  | RtcpFbAttribute fb =>
      if fb_id fb =? -1
      then (apply_to_payloads (fun _ => true) fb (fst st), snd st || negb (is_nil (cfg_payloads (fst st))))
      else st
  | _ => st
  end.
Definition read_specific_fb (st : SalStreamConfiguration * bool) (attribute : belle_sdp_attribute)
    : SalStreamConfiguration * bool :=
  match attribute with
  | RtcpFbAttribute fb =>
      (apply_to_payloads (fun pt => number pt =? fb_id fb) fb (fst st),
       snd st || negb (is_nil (cfg_payloads (fst st))))
  | _ => st
  end.
Definition sdpParseRtcpFbParameters (cfg : SalStreamConfiguration) (media_desc : belle_sdp_media_description)
    : SalStreamConfiguration * bool :=
  let st := fold_left read_general_fb (media_attributes media_desc) (cfg, false) in
  fold_left read_specific_fb (media_attributes media_desc) st.

(** ** SRTP *)

Definition sdpParseMediaCryptoParameters (cfg : SalStreamConfiguration)
    (media_desc : belle_sdp_media_description) : SalStreamConfiguration :=
  fold_left (fun cfg attribute =>
    if String.eqb "crypto" (belle_sdp_attribute_get_name attribute) then
      match belle_sdp_attribute_get_value attribute with
      | Some cryptoAttrVal =>
          let cryptoEl := fillStrpCryptoAlgoFromString cryptoAttrVal in
          if negb (algo cryptoEl =? MS_CRYPTO_SUITE_INVALID)
          then cfg <| cfg_crypto := cfg_crypto cfg ++ [cryptoEl] |> else cfg
      | None => cfg
      end
    else cfg) (media_attributes media_desc) (cfg <| cfg_crypto := [] |>).

(** ** The actual configuration *)

(** The value of an attribute of the media line, when it has one. *)
Definition media_value (media_desc : belle_sdp_media_description) (name : string) : option string :=
  match belle_sdp_media_description_get_attribute media_desc name with
  | Some a => belle_sdp_attribute_get_value a
  | None => None
  end.
Definition media_has (media_desc : belle_sdp_media_description) (name : string) : bool :=
  match belle_sdp_media_description_get_attribute media_desc name with
  | Some _ => true
  | None => false
  end.

(** For a DTLS transport, the attributes of the media line; [std::string =
    nullptr] is undefined. *)
Definition read_dtls (cfg : SalStreamConfiguration) (media_desc : belle_sdp_media_description)
    : outcome SalStreamConfiguration :=
  let cfg :=
    if (cfg_proto cfg =e SalProtoUdpTlsRtpSavpf) || (cfg_proto cfg =e SalProtoUdpTlsRtpSavp)
    then cfg <| cfg_dtls_role := read_dtls_role (media_value media_desc "setup") (cfg_dtls_role cfg) |> else cfg in
  if ((cfg_proto cfg =e SalProtoUdpTlsRtpSavpf) || (cfg_proto cfg =e SalProtoUdpTlsRtpSavp))
     && (cfg_dtls_role cfg <>e SalDtlsRoleInvalid)
  then match belle_sdp_media_description_get_attribute media_desc "fingerprint" with
       | Some attribute =>
           match belle_sdp_attribute_get_value attribute with
           | Some value => Done (cfg <| cfg_dtls_fingerprint := value |>)
           | None => Undefined
           end
       | None => Done cfg
       end
  else Done cfg.

Definition read_direction (media_desc : belle_sdp_media_description) (rtp_port : Z) (bundle_only : bool)
    (session_dir : SalStreamDir) : SalStreamDir :=
  if media_has media_desc "sendrecv" then SalStreamSendRecv
  else if media_has media_desc "sendonly" then SalStreamSendOnly
  else if media_has media_desc "recvonly" then SalStreamRecvOnly
  else if media_has media_desc "inactive" then SalStreamInactive
  else if (rtp_port =? 0) && negb bundle_only then SalStreamInactive
  else session_dir.

(** The value of an [extmap] attribute: its id and its URN. *)
Definition read_extmap (cfg : SalStreamConfiguration) (attr_value : string) : SalStreamConfiguration :=
  match scan_int_base attr_value with
  | None => cfg
  | Some (value, s) =>
      let extmap_urn := scan_then (scan_str s) EmptyString (fun w _ => w) in
      if (value <? 1) || (15 <? value) then cfg
      else if strcasecmp_eq extmap_urn "urn:ietf:params:rtp-hdrext:sdes:mid"
      then cfg <| cfg_mid_rtp_ext_header_id := value |>
      else if strcasecmp_eq extmap_urn "urn:ietf:params:rtp-hdrext:csrc-audio-level"
      then cfg <| cfg_mixer_to_client_extension_id := value |>
      else if strcasecmp_eq extmap_urn "urn:ietf:params:rtp-hdrext:ssrc-audio-level"
      then cfg <| cfg_client_to_mixer_extension_id := value |>
      else if strcasecmp_eq extmap_urn "urn:ietf:params:rtp-hdrext:framemarking"
      then cfg <| cfg_frame_marking_extension_id := value |>
      else cfg
  end.

(** [sal_custom_sdp_attribute_append]. *)
Definition sal_custom_sdp_attribute_append (csa : SalCustomSdpAttribute) (name : string) (value : option string)
    : SalCustomSdpAttribute :=
  let desc := default [] csa in
  match belle_sdp_attribute_create name value with
  | Some attr => Some (desc ++ [(belle_sdp_attribute_get_name attr, belle_sdp_attribute_get_value attr)])
  | None => Some desc
  end.

(** The loop on every attribute; [strlen(attr_value)] of a null value is
    undefined. *)
Definition read_custom_attribute (st : SalCustomSdpAttribute * SalStreamConfiguration)
    (attr : belle_sdp_attribute) : outcome (SalCustomSdpAttribute * SalStreamConfiguration) :=
  let attr_name := belle_sdp_attribute_get_name attr in
  let attr_value := belle_sdp_attribute_get_value attr in
  let custom := sal_custom_sdp_attribute_append (fst st) attr_name attr_value in
  if strcasecmp_eq attr_name "extmap" then
    match attr_value with
    | Some v => Done (custom, read_extmap (snd st) v)
    | None => Undefined
    end
  else Done (custom, snd st).

Definition read_transport (cfg : SalStreamConfiguration) (media_desc : belle_sdp_media_description)
    : SalStreamConfiguration :=
  let cfg :=
    match media_connection media_desc with
    | Some cnx => match cnx_address cnx with Some _ => cfg <| cfg_ttl := cnx_ttl cnx |> | None => cfg end
    | None => cfg
    end in
  let cfg := cfg <| cfg_rtcp_mux := media_has media_desc "rtcp-mux" |>
                 <| cfg_bundle_only := media_has media_desc "bundle-only" |> in
  match media_value media_desc "mid" with
  | Some value => cfg <| cfg_mid := value |>
  | None => cfg
  end.

(** The hash of ZRTP fills its buffer at most; the lime key is only noted. *)
Definition read_zrtp (cfg : SalStreamConfiguration) (media_desc : belle_sdp_media_description)
    : SalStreamConfiguration :=
  let cfg :=
    match media_value media_desc "zrtp-hash" with
    | Some value => cfg <| cfg_zrtphash := String.substring 0 zrtphash_size value |> <| cfg_haveZrtpHash := 1 |>
    | None => cfg
    end in
  let cfg :=
    match media_value media_desc "Ik" with
    | Some _ => cfg <| cfg_haveLimeIk := 1 |>
    | None => cfg
    end in
  match media_value media_desc "lime-Ik" with
  | Some _ => cfg <| cfg_haveLimeIk := 1 |>
  | None => cfg
  end.

Definition read_avpf (cfg : SalStreamConfiguration) (media_desc : belle_sdp_media_description)
    : SalStreamConfiguration :=
  let '(cfg, has_avpf_attributes) := sdpParseRtcpFbParameters cfg media_desc in
  if SalStreamConfiguration.hasAvpf cfg then enableAvpfForStream cfg
  else if has_avpf_attributes then (enableAvpfForStream cfg) <| cfg_implicit_rtcp_fb := true |>
  else cfg.

Definition read_ssrc (cfg : SalStreamConfiguration) (media_desc : belle_sdp_media_description)
    : SalStreamConfiguration :=
  match media_value media_desc "ssrc" with
  | Some value => scan_then (scan_uint value) cfg (fun ssrc _ => cfg <| cfg_conference_ssrc := ssrc |>)
  | None => cfg
  end.

Definition createActualCfg (this : SalStreamDescription) (salMediaDesc : SalMediaDescription)
    (sdp_session : belle_sdp_session_description) (media_desc : belle_sdp_media_description)
    : outcome SalStreamDescription :=
  let actualCfg := empty_cfg in
  let actualCfg := actualCfg <| cfg_dtls_role :=
    read_dtls_role (belle_sdp_session_description_get_attribute_value sdp_session "setup") SalDtlsRoleInvalid |> in
  let actualCfg :=
    match belle_sdp_session_description_get_attribute_value sdp_session "fingerprint" with
    | Some value => actualCfg <| cfg_dtls_fingerprint := value |>
    | None => actualCfg
    end in
  let actualCfg := setProtoInCfg actualCfg (media_protocol media_desc) in
  let* actualCfg := read_dtls actualCfg media_desc in
  let actualCfg := read_transport actualCfg media_desc in
  let actualCfg := actualCfg <| cfg_dir :=
    read_direction media_desc (sd_rtp_port this) (cfg_bundle_only actualCfg) (md_dir salMediaDesc) |> in
  let actualCfg := sdpParsePayloadTypes (actualCfg <| cfg_payloads := [] |>) media_desc in
  let actualCfg :=
    if SalStreamConfiguration.hasSrtp actualCfg then sdpParseMediaCryptoParameters actualCfg media_desc
    else actualCfg in
  let actualCfg := read_zrtp actualCfg media_desc in
  let* this := sdpParseMediaIceParameters this media_desc in
  let actualCfg := read_avpf actualCfg media_desc in
  let actualCfg := actualCfg <| cfg_rtcp_xr :=
    sdp_parse_media_rtcp_xr_parameters media_desc (md_rtcp_xr salMediaDesc) |> in
  let actualCfg := read_ssrc actualCfg media_desc in
  let* (custom, actualCfg) :=
    ofold read_custom_attribute (sd_custom_sdp_attributes this, actualCfg) (media_attributes media_desc) in
  let this := this <| sd_custom_sdp_attributes := custom |> in
  let enc := sal_media_proto_to_linphone_media_encryption (cfg_proto actualCfg)
               (SalStreamConfiguration.hasZrtpHash actualCfg) in
  let this := this <| sd_supportedEncryption := enc :: sd_supportedEncryption this |> in
  Done (addActualConfiguration this actualCfg).

(** ** The media line *)

Definition read_rtcp (this : SalStreamDescription) (media_desc : belle_sdp_media_description)
    : SalStreamDescription :=
  let this := this <| sd_rtcp_addr := sd_rtp_addr this |> in
  let this :=
    if cfg_rtcp_mux (getActualConfiguration this) then this <| sd_rtcp_port := sd_rtp_port this |>
    else this <| sd_rtcp_port := sd_rtp_port this + 1 |> in
  match media_value media_desc "rtcp" with
  | Some value =>
      scan_then (scan_int value) this (fun port s =>
      let this := this <| sd_rtcp_port := port |> in
      scan_lit_then "IN" s this (fun s =>
      scan_lit_then "IP4" s this (fun s =>
      scan_then (scan_str s) this (fun tmp _ => this <| sd_rtcp_addr := tmp |>))))
  | None => this
  end.

Definition read_media_type (mtype : string) : SalStreamType :=
  if String.eqb mtype "audio" then SalAudio
  else if String.eqb mtype "video" then SalVideo
  else if String.eqb mtype "text" then SalText
  else SalOther.

Definition fillStreamDescriptionFromSdp (this : SalStreamDescription) (salMediaDesc : SalMediaDescription)
    (sdp_session : belle_sdp_session_description) (media_desc : belle_sdp_media_description)
    : outcome SalStreamDescription :=
  let this :=
    match media_connection media_desc with
    | Some cnx => match cnx_address cnx with Some a => this <| sd_rtp_addr := a |> | None => this end
    | None => this
    end in
  let this := this <| sd_rtp_port := media_port media_desc |> in
  let mtype := tolower (media_type media_desc) in
  let this := this <| sd_type := read_media_type mtype |> in
  let this := if sd_type this =e SalOther then this <| sd_typeother := mtype |> else this in
  let this :=
    match media_bandwidth media_desc with
    | Some bandwidth => if 0 <? bandwidth then this <| sd_bandwidth := bandwidth |> else this
    | None => this
    end in
  let this :=
    match media_value media_desc "label" with
    | Some value => this <| sd_label := value |>
    | None => this
    end in
  let this :=
    match media_value media_desc "content" with
    | Some value => this <| sd_content := value |>
    | None => this
    end in
  let* this := createActualCfg this salMediaDesc sdp_session media_desc in
  Done (read_rtcp this media_desc).

(** [raw_capability_negotiation_attrs_t]. *)
Record raw_capability_negotiation_attrs_t := mkRawAttrs {
  attrs_acaps : list acapability;
  attrs_tcaps : list capability;
  attrs_cfgs : uint_map config_attribute;
  attrs_unparsed_cfgs : uint_map string
}.

Definition fillStreamDescriptionFromSdp_attrs (this : SalStreamDescription) (salMediaDesc : SalMediaDescription)
    (sdp_session : belle_sdp_session_description) (media_desc : belle_sdp_media_description)
    (attrs : raw_capability_negotiation_attrs_t) : outcome SalStreamDescription :=
  let* this := fillStreamDescriptionFromSdp this salMediaDesc sdp_session media_desc in
  if capabilityNegotiationSupported (md_params salMediaDesc) then
    let this := fold_left (fun this acap =>
      this <| sd_acaps := om_set id_rank (cap_index (acap_base acap)) (acap_name acap, cap_value (acap_base acap))
                            (sd_acaps this) |>) (attrs_acaps attrs) this in
    let this := fold_left (fun this tcap =>
      this <| sd_tcaps := om_set id_rank (cap_index tcap) (cap_value tcap) (sd_tcaps this) |>)
      (attrs_tcaps attrs) this in
    let this := fold_left (fun this cfg =>
      this <| sd_unparsed_cfgs := (om_insert id_rank (fst cfg) (snd cfg) (sd_unparsed_cfgs this)).1 |>)
      (attrs_unparsed_cfgs attrs) this in
    Done (fillPotentialConfigurationsFromPotentialCfgGraph this (attrs_cfgs attrs))
  else Done this.
End Reader.
