(* ===== verification/StreamSdpWriter.v ===== *)
(** Writing one media line: the part of [SalStreamDescription]
    ([src/src/sal/sal_stream_description.cpp]) that makes belle-sip's media
    description of a stream. *)
From S2P Require Import Prelude Sscanf SalTypes Payload SalStreamConfiguration PotentialCfgGraph SalStreamBundle SalStreamDescription SalMediaDescription SdpObjects SalSdp.

(** A value stored in an [int8_t]. *)
Definition i8 (z : Z) : Z := (z + 2 ^ 7) mod 2 ^ 8 - 2 ^ 7.

Section Writer.
Context {lib : MediaLib} {sdp : SdpLib} {ortp : OrtpRtcp}.

(** ** DTLS, media id and ICE *)

Definition addDtlsAttributesToMediaDesc (cfg : SalStreamConfiguration) (media_desc : belle_sdp_media_description)
    : belle_sdp_media_description :=
  if ((cfg_proto cfg =e SalProtoUdpTlsRtpSavpf) || (cfg_proto cfg =e SalProtoUdpTlsRtpSavp))
     && (cfg_dtls_role cfg <>e SalDtlsRoleInvalid) && negb (str_empty (cfg_dtls_fingerprint cfg))
  then
    let setupAttrValue := getSetupAttributeForDtlsRole (cfg_dtls_role cfg) in
    let media_desc :=
      if negb (str_empty setupAttrValue) then add_created media_desc "setup" (Some setupAttrValue) else media_desc in
    add_created media_desc "fingerprint" (Some (cfg_dtls_fingerprint cfg))
  else media_desc.

Definition addMidAttributesToSdp (cfg : SalStreamConfiguration) (media_desc : belle_sdp_media_description)
    : belle_sdp_media_description :=
  let media_desc :=
    if negb (str_empty (cfg_mid cfg)) then add_created media_desc "mid" (Some (cfg_mid cfg)) else media_desc in
  let media_desc :=
    if negb (cfg_mid_rtp_ext_header_id cfg =? 0)
    then add_created media_desc "extmap"
           (Some (to_dec (cfg_mid_rtp_ext_header_id cfg) +:+ " urn:ietf:params:rtp-hdrext:sdes:mid"))
    else media_desc in
  if cfg_bundle_only cfg then add_created media_desc "bundle-only" None else media_desc.

(** The text of a candidate, without and with the related address. *)
Definition candidate_base (candidate : SalIceCandidate) : string :=
  ice_foundation candidate +:+ " " +:+ to_dec (ice_componentID candidate) +:+ " UDP " +:+
  to_dec (ice_priority candidate) +:+ " " +:+ ice_addr candidate +:+ " " +:+ to_dec (ice_port candidate) +:+
  " typ " +:+ ice_type candidate.
Definition candidate_related (candidate : SalIceCandidate) : string :=
  " raddr " +:+ ice_raddr candidate +:+ " rport " +:+ to_dec (ice_rport candidate).

(** The loop with its [break] and its [return]s. *)
Fixpoint add_candidates (l : list SalIceCandidate) (md : belle_sdp_media_description)
    : belle_sdp_media_description :=
  match l with
  | [] => md
  | candidate :: rest =>
      if str_empty (ice_addr candidate) || (ice_port candidate =? 0) then md
      else
        let iceCandidateValue := candidate_base candidate in
        if (1024 <? String.length iceCandidateValue)%nat then md
        else
          let iceCandidateValue :=
            if negb (str_empty (ice_raddr candidate))
            then iceCandidateValue +:+ candidate_related candidate else iceCandidateValue in
          if negb (str_empty (ice_raddr candidate)) && (1024 <? String.length iceCandidateValue)%nat then md
          else add_candidates rest (add_created md "candidate" (Some iceCandidateValue))
  end.
Definition addIceCandidatesToSdp (this : SalStreamDescription) (md : belle_sdp_media_description)
    : belle_sdp_media_description := add_candidates (sd_ice_candidates this) md.

(** The loop on the positions; [None] is the [return] on a value that is too long. *)
Fixpoint remote_candidates_text (i : Z) (l : list SalIceRemoteCandidate) (value : string) : option string :=
  match l with
  | [] => Some value
  | candidate :: rest =>
      if negb (str_empty (ice_remote_addr candidate)) && negb (ice_remote_port candidate =? 0) then
        let value := value +:+ (if 0 <? i then " " else "") +:+ to_dec (u32 (i + 1)) +:+ " " +:+
                     ice_remote_addr candidate +:+ " " +:+ to_dec (ice_remote_port candidate) in
        if (1024 <? String.length value)%nat then None else remote_candidates_text (i + 1) rest value
      else remote_candidates_text (i + 1) rest value
  end.
Definition addIceRemoteCandidatesToSdp (this : SalStreamDescription) (md : belle_sdp_media_description)
    : belle_sdp_media_description :=
  match remote_candidates_text 0 (sd_ice_remote_candidates this) EmptyString with
  | Some value => if negb (str_empty value) then add_created md "remote-candidates" (Some value) else md
  | None => md
  end.

(** ** RTCP feedback *)

(** The flag and the interval the function returns, from the interval before. *)
Definition isRtcpFbTrrIntTheSameForAllPayloads (cfg : SalStreamConfiguration) (trr_int : Z) : bool * Z :=
  let fix loop (first : bool) (trr_int : Z) (l : list OrtpPayloadType) : bool * Z :=
    match l with
    | [] => (true, trr_int)
    | pt :: rest =>
        if has_flag PAYLOAD_TYPE_RTCP_FEEDBACK_ENABLED pt then
          if first : bool then loop false (trr_interval (avpf pt)) rest
          else if negb (trr_interval (avpf pt) =? trr_int) then (false, trr_int)
          else loop false trr_int rest
        else loop first trr_int rest
    end in
  loop true trr_int (cfg_payloads cfg).

(** The attributes of one payload type. *)
Definition add_payload_feedback (general_trr_int : bool) (trr_int : Z) (media_desc : belle_sdp_media_description)
    (pt : OrtpPayloadType) : belle_sdp_media_description :=
  let avpf_params := avpf pt in
  let id := i8 (number pt) in
  let media_desc :=
    if negb general_trr_int && negb (trr_int =? 0)
    then add_rtcp_fb_trr_int_attribute media_desc id (trr_interval avpf_params) else media_desc in
  let media_desc :=
    if has_bit (features avpf_params) avpf_pli_bit
    then add_rtcp_fb_nack_attribute media_desc id BELLE_SDP_RTCP_FB_PLI else media_desc in
  let media_desc :=
    if has_bit (features avpf_params) avpf_sli_bit
    then add_rtcp_fb_nack_attribute media_desc id BELLE_SDP_RTCP_FB_SLI else media_desc in
  let media_desc :=
    if has_bit (features avpf_params) avpf_rpsi_bit then
      if rpsi_compatibility avpf_params
      then add_rtcp_fb_nack_attribute media_desc id BELLE_SDP_RTCP_FB_RPSI
      else add_rtcp_fb_ack_attribute media_desc id BELLE_SDP_RTCP_FB_RPSI
    else media_desc in
  if has_bit (features avpf_params) avpf_fir_bit
  then add_rtcp_fb_ccm_attribute media_desc id BELLE_SDP_RTCP_FB_FIR else media_desc.

(** The flag is set on every payload type of the configuration as well. *)
Definition enable_feedback (cfg : SalStreamConfiguration) : SalStreamConfiguration :=
  cfg <| cfg_payloads :=
    map (payload_type_set_flag {[PAYLOAD_TYPE_RTCP_FEEDBACK_ENABLED]}) (cfg_payloads cfg) |>.

Definition addRtcpFbAttributesToSdp (cfg : SalStreamConfiguration) (media_desc : belle_sdp_media_description)
    : belle_sdp_media_description * SalStreamConfiguration :=
  let '(general_trr_int, trr_int) := isRtcpFbTrrIntTheSameForAllPayloads cfg 0 in
  let media_desc :=
    if general_trr_int && negb (trr_int =? 0)
    then add_rtcp_fb_trr_int_attribute media_desc (-1) trr_int else media_desc in
  let media_desc :=
    if generic_nack_enabled (cfg_rtcp_fb cfg)
    then add_rtcp_fb_nack_attribute media_desc (-1) BELLE_SDP_RTCP_FB_NONE else media_desc in
  let media_desc :=
    if tmmbr_enabled (cfg_rtcp_fb cfg)
    then add_rtcp_fb_ccm_attribute media_desc (-1) BELLE_SDP_RTCP_FB_TMMBR else media_desc in
  let media_desc :=
    if goog_remb_enabled (cfg_rtcp_fb cfg) then add_rtcp_fb_goog_remb_attribute media_desc (-1) else media_desc in
  (fold_left (add_payload_feedback general_trr_int trr_int) (cfg_payloads cfg) media_desc, enable_feedback cfg).

(** ** Capability negotiation *)

Definition acap_text (idx : Z) (nameValuePair : string * string) : string :=
  if str_empty (snd nameValuePair) then to_dec idx +:+ " " +:+ fst nameValuePair
  else to_dec idx +:+ " " +:+ fst nameValuePair +:+ ":" +:+ snd nameValuePair.

(** The values of the [tcap] attributes: one for each capability, or one for
    each run of consecutive indexes when lines are merged. *)
Definition tcap_texts (merged : bool) (tcaps : tcap_map_t) : list string :=
  if merged then
    let '(lines, tcapValue, _) :=
      fold_left (fun '(lines, tcapValue, prevIdx) '(idx, value) =>
        if str_empty tcapValue then (lines, to_dec idx +:+ " " +:+ value, idx)
        else if idx =? u32 (prevIdx + 1) then (lines, tcapValue +:+ " " +:+ value, idx)
        else (lines ++ [tcapValue], to_dec idx +:+ " " +:+ value, idx))
        tcaps ([], EmptyString, 0) in
    if negb (str_empty tcapValue) then lines ++ [tcapValue] else lines
  else map (fun p => to_dec (fst p) +:+ " " +:+ snd p) tcaps.

(** The name of the attribute for the configuration at a key, if it has one. *)
Definition cfg_attribute_name (this : SalStreamDescription) (cfgKey cfgIdx : Z) : string :=
  if negb (cfgKey =? getActualConfigurationIndex this) then "pcfg"
  else if negb (cfgIdx =? getActualConfigurationIndex this) then "acfg"
  else EmptyString.

Definition add_cfg_attribute (this : SalStreamDescription) (media_desc : belle_sdp_media_description)
    (p : Z * SalStreamConfiguration) : belle_sdp_media_description :=
  let cfgSdpString := getSdpString (snd p) in
  if negb (str_empty cfgSdpString) then
    let attrName := cfg_attribute_name this (fst p) (cfg_index (snd p)) in
    if negb (str_empty attrName)
    then add_created media_desc attrName (Some (to_dec (cfg_index (snd p)) +:+ " " +:+ cfgSdpString))
    else media_desc
  else media_desc.

Definition write_capabilities (this : SalStreamDescription) (salMediaDesc : SalMediaDescription)
    (stream_enabled : bool) (media_desc : belle_sdp_media_description)
    : belle_sdp_media_description * SalStreamDescription :=
  if capabilityNegotiationSupported (md_params salMediaDesc) then
    let media_desc :=
      fold_left (fun m p => add_created m "acap" (Some (acap_text (fst p) (snd p)))) (sd_acaps this) media_desc in
    let media_desc :=
      fold_left (fun m v => add_created m "tcap" (Some v))
        (tcap_texts (tcapLinesMerged (md_params salMediaDesc)) (sd_tcaps this)) media_desc in
    let this :=
      map_cfgs (fun cfg =>
        if stream_enabled && (SalStreamConfiguration.hasAvpf cfg || SalStreamConfiguration.hasImplicitAvpf cfg)
        then enable_feedback cfg else cfg) this in
    (fold_left (add_cfg_attribute this) (sd_cfgs this) media_desc, this)
  else (media_desc, this).

(** ** The media line *)

(** The attributes, as the functions of the media description they extend, in
    the order they are written. *)
Definition write_payloads (actualCfg : SalStreamConfiguration) (media_desc : belle_sdp_media_description)
    : belle_sdp_media_description :=
  if negb (is_nil (cfg_payloads actualCfg)) then
    fold_left (fun media_desc pt =>
      let mime_param := mkMimeParameter (mime_type pt) (number pt) (clock_rate pt)
        (if 0 <? channels pt then channels pt else -1) (recv_fmtp pt)
        (if 0 <? cfg_ptime actualCfg then cfg_ptime actualCfg else mime_ptime_unset) mime_max_ptime_unset in
      belle_sdp_media_description_append_values_from_mime_parameter media_desc mime_param)
      (cfg_payloads actualCfg) media_desc
  else media_desc <| media_formats := [0] |>.

(** The connection of the media line, when its address is not the one of the
    session; a multicast address removes the connection of the session. *)
Definition write_connection (this : SalStreamDescription) (salMediaDesc : SalMediaDescription)
    (st : belle_sdp_media_description * belle_sdp_session_description)
    : belle_sdp_media_description * belle_sdp_session_description :=
  let '(media_desc, session_desc) := st in
  if negb (str_empty (sd_rtp_addr this)) && negb (String.eqb (sd_rtp_addr this) (md_addr salMediaDesc)) then
    let inet6 := str_has ":" (sd_rtp_addr this) in
    let connection := belle_sdp_connection_create (if inet6 then "IP6" else "IP4") (sd_rtp_addr this) in
    let '(connection, session_desc) :=
      if ms_is_multicast (sd_rtp_addr this) then
        (if negb inet6 then connection <| cnx_ttl := cfg_ttl (getActualConfiguration this) |> else connection,
         session_desc <| session_connection := None |>)
      else (connection, session_desc) in
    (media_desc <| media_connection := Some connection |>, session_desc)
  else (media_desc, session_desc).

Definition write_cryptos (actualCfg : SalStreamConfiguration) (media_desc : belle_sdp_media_description)
    : belle_sdp_media_description :=
  if SalStreamConfiguration.hasSrtp actualCfg then
    fold_left (fun media_desc crypto =>
      let value := cryptoToSdpValue crypto in
      if negb (str_empty value) then add_created media_desc "crypto" (Some value) else media_desc)
      (cfg_crypto actualCfg) media_desc
  else media_desc.

Definition write_zrtp_hash (actualCfg : SalStreamConfiguration) (media_desc : belle_sdp_media_description)
    : belle_sdp_media_description :=
  if (cfg_haveZrtpHash actualCfg =? 1) && negb (str_empty (cfg_zrtphash actualCfg))
  then add_created media_desc "zrtp-hash" (Some (cfg_zrtphash actualCfg)) else media_desc.

Definition write_direction (dir : SalStreamDir) (media_desc : belle_sdp_media_description)
    : belle_sdp_media_description :=
  match dir with
  | SalStreamSendRecv => media_desc
  | SalStreamRecvOnly => add_created media_desc "recvonly" None
  | SalStreamSendOnly => add_created media_desc "sendonly" None
  | SalStreamInactive => add_created media_desc "inactive" None
  end.

Definition write_rtcp_mux (actualCfg : SalStreamConfiguration) (media_desc : belle_sdp_media_description)
    : belle_sdp_media_description :=
  if cfg_rtcp_mux actualCfg then add_created media_desc "rtcp-mux" None else media_desc.

Definition write_extension (id : Z) (urn : string) (media_desc : belle_sdp_media_description)
    : belle_sdp_media_description :=
  if negb (id =? 0) then add_created media_desc "extmap" (Some (to_dec id +:+ " " +:+ urn)) else media_desc.
Definition write_extensions (actualCfg : SalStreamConfiguration) (media_desc : belle_sdp_media_description)
    : belle_sdp_media_description :=
  let media_desc := write_extension (cfg_mixer_to_client_extension_id actualCfg)
                      "urn:ietf:params:rtp-hdrext:csrc-audio-level" media_desc in
  let media_desc := write_extension (cfg_client_to_mixer_extension_id actualCfg)
                      "urn:ietf:params:rtp-hdrext:ssrc-audio-level vad=on" media_desc in
  write_extension (cfg_frame_marking_extension_id actualCfg) "urn:ietf:params:rtp-hdrext:framemarking" media_desc.

Definition write_ssrc (actualCfg : SalStreamConfiguration) (media_desc : belle_sdp_media_description)
    : belle_sdp_media_description :=
  if negb (cfg_conference_ssrc actualCfg =? 0) && negb (str_empty (cfg_rtcp_cname actualCfg))
  then add_created media_desc "ssrc"
         (Some (to_dec (cfg_conference_ssrc actualCfg) +:+ " cname:" +:+ cfg_rtcp_cname actualCfg))
  else media_desc.

Definition write_rtcp (this : SalStreamDescription) (media_desc : belle_sdp_media_description)
    : belle_sdp_media_description :=
  if negb (sd_rtp_port this =? 0) then
    let different_rtp_and_rtcp_addr :=
      negb (str_empty (sd_rtcp_addr this)) && negb (String.eqb (sd_rtp_addr this) (sd_rtcp_addr this)) in
    if negb (sd_rtcp_port this =? 0)
       && (negb (sd_rtcp_port this =? sd_rtp_port this + 1) || different_rtp_and_rtcp_addr)
    then add_created media_desc "rtcp"
           (Some (to_dec (sd_rtcp_port this) +:+
                  (if different_rtp_and_rtcp_addr then " IN IP4 " +:+ sd_rtcp_addr this else EmptyString)))
    else media_desc
  else media_desc.

Definition write_nortpproxy (actualCfg : SalStreamConfiguration) (media_desc : belle_sdp_media_description)
    : belle_sdp_media_description :=
  if cfg_set_nortpproxy actualCfg then add_created media_desc "nortpproxy" (Some "yes") else media_desc.

Definition write_ice (this : SalStreamDescription) (media_desc : belle_sdp_media_description)
    : belle_sdp_media_description :=
  if sd_ice_mismatch this then add_created media_desc "ice-mismatch" None
  else if negb (sd_rtp_port this =? 0) then
    let media_desc :=
      if negb (str_empty (sd_ice_pwd this)) then add_created media_desc "ice-pwd" (Some (sd_ice_pwd this))
      else media_desc in
    let media_desc :=
      if negb (str_empty (sd_ice_ufrag this)) then add_created media_desc "ice-ufrag" (Some (sd_ice_ufrag this))
      else media_desc in
    addIceRemoteCandidatesToSdp this (addIceCandidatesToSdp this media_desc)
  else media_desc.

(** The [rtcp-xr] attribute, unless the session has the same one. *)
Definition write_rtcp_xr (actualCfg : SalStreamConfiguration) (stream_enabled : bool)
    (session_desc : belle_sdp_session_description) (media_desc : belle_sdp_media_description)
    : belle_sdp_media_description :=
  if stream_enabled && xr_enabled (cfg_rtcp_xr actualCfg) then
    let sastr :=
      match belle_sdp_session_description_get_attribute session_desc "rtcp-xr" with
      | Some session_attribute => belle_sip_object_marshal session_attribute
      | None => EmptyString
      end in
    let media_attribute := create_rtcp_xr_attribute (cfg_rtcp_xr actualCfg) in
    if negb (String.eqb sastr (belle_sip_object_marshal media_attribute))
    then belle_sdp_media_description_add_attribute media_desc media_attribute else media_desc
  else media_desc.

Definition write_text (name value : string) (media_desc : belle_sdp_media_description)
    : belle_sdp_media_description :=
  if negb (str_empty value) then add_created media_desc name (Some value) else media_desc.

Definition write_custom (custom : SalCustomSdpAttribute) (media_desc : belle_sdp_media_description)
    : belle_sdp_media_description :=
  fold_left (fun m a => add_created m (fst a) (snd a)) (default [] custom) media_desc.

(** The attributes of the actual configuration, from the SRTP ones to ICE. *)
Definition write_actual (this : SalStreamDescription) (media_desc : belle_sdp_media_description)
    : belle_sdp_media_description :=
  let actualCfg := getActualConfiguration this in
  let media_desc := write_cryptos actualCfg media_desc in
  let media_desc := addDtlsAttributesToMediaDesc actualCfg media_desc in
  let media_desc := write_zrtp_hash actualCfg media_desc in
  let media_desc := write_direction (cfg_dir actualCfg) media_desc in
  let media_desc := write_rtcp_mux actualCfg media_desc in
  let media_desc := addMidAttributesToSdp actualCfg media_desc in
  let media_desc := write_extensions actualCfg media_desc in
  let media_desc := write_ssrc actualCfg media_desc in
  let media_desc := write_rtcp this media_desc in
  let media_desc := write_nortpproxy actualCfg media_desc in
  write_ice this media_desc.

(** The method is [const] but sets a flag of the payload types its
    configurations point to, and may take the connection of the session away:
    both are part of the result. *)
Definition toSdpMediaDescription (this : SalStreamDescription) (salMediaDesc : SalMediaDescription)
    (session_desc : belle_sdp_session_description)
    : belle_sdp_media_description * belle_sdp_session_description * SalStreamDescription :=
  let stream_enabled := enabled this in
  let actualCfg := getActualConfiguration this in
  let media_desc := belle_sdp_media_description_create (getTypeAsString this) (sd_rtp_port this) 1
                      (SalStreamDescription.getProtoAsString this) in
  let media_desc := write_payloads actualCfg media_desc in
  let '(media_desc, session_desc) := write_connection this salMediaDesc (media_desc, session_desc) in
  let media_desc :=
    if 0 <? sd_bandwidth this then media_desc <| media_bandwidth := Some (sd_bandwidth this) |> else media_desc in
  let media_desc := write_actual this media_desc in
  let '(media_desc, actualCfg) :=
    if stream_enabled
       && (SalStreamConfiguration.hasAvpf actualCfg || SalStreamConfiguration.hasImplicitAvpf actualCfg)
    then addRtcpFbAttributesToSdp actualCfg media_desc else (media_desc, actualCfg) in
  let this := if hasConfigurationAtIndex this actualConfigurationIndex
              then addActualConfiguration this actualCfg else this in
  let media_desc := write_rtcp_xr actualCfg stream_enabled session_desc media_desc in
  let media_desc := write_text "label" (sd_label this) media_desc in
  let media_desc := write_text "content" (sd_content this) media_desc in
  let media_desc := write_custom (sd_custom_sdp_attributes this) media_desc in
  let '(media_desc, this) := write_capabilities this salMediaDesc stream_enabled media_desc in
  (media_desc, session_desc, this).
End Writer.
