(* ===== verification/MediaSdp.v ===== *)
(** Reading and writing a session description: the constructor of
    [SalMediaDescription] from belle-sip's session description and [toSdp]
    ([src/src/sal/sal_media_description.cpp]). *)
From S2P Require Import Prelude Sscanf SalTypes Payload SalStreamConfiguration PotentialCfgGraph SalStreamBundle SalStreamDescription SalMediaDescription SdpObjects SalSdp StreamSdpReader StreamSdpWriter.

(** The seconds from the epoch of NTP to the one of UNIX. *)
Definition ntpToUnix : Z := 2208988800.

Definition ntp_to_unix_time (t : Z) : Z := if t =? 0 then -1 else t - ntpToUnix.
Definition unix_to_ntp_time (t : Z) : Z := if t <? 0 then 0 else t + ntpToUnix.

Section MediaSdp.
Context {lib : MediaLib} {sdp : SdpLib} {ortp : OrtpRtcp}.
(** [bctoolbox::Utils::split]. *)
Variable split : string -> ascii -> list string.

(** ** Reading *)

Definition session_value (s : belle_sdp_session_description) (name : string) : option string :=
  belle_sdp_session_description_get_attribute_value s name.
Definition session_has (s : belle_sdp_session_description) (name : string) : bool :=
  match belle_sdp_session_description_get_attribute s name with
  | Some _ => true
  | None => false
  end.

Definition read_session_direction (s : belle_sdp_session_description) (dir : SalStreamDir) : SalStreamDir :=
  if session_has s "sendrecv" then SalStreamSendRecv
  else if session_has s "sendonly" then SalStreamSendOnly
  else if session_has s "recvonly" then SalStreamRecvOnly
  else if session_has s "inactive" then SalStreamInactive
  else dir.

Definition read_record (value : option string) (record : SalMediaRecord) : SalMediaRecord :=
  match value with
  | Some value =>
      if String.eqb value "on" then SalMediaRecordOn
      else if String.eqb value "off" then SalMediaRecordOff
      else if String.eqb value "paused" then SalMediaRecordPaused
      else record
  | None => record
  end.

(** [strncasecmp(value, "BUNDLE", strlen("BUNDLE")) == 0]. *)
Definition starts_with_bundle (value : string) : bool := String.prefix "bundle" (tolower value).

(** One turn of the loop on the attributes. *)
Definition read_session_attribute (this : SalMediaDescription) (attr : belle_sdp_attribute)
    : SalMediaDescription :=
  let this := this <| md_custom_sdp_attributes :=
    sal_custom_sdp_attribute_append (md_custom_sdp_attributes this)
      (belle_sdp_attribute_get_name attr) (belle_sdp_attribute_get_value attr) |> in
  if strcasecmp_eq (belle_sdp_attribute_get_name attr) "group" then
    match belle_sdp_attribute_get_value attr with
    | Some value =>
        if starts_with_bundle value
        then addNewBundle this (bundle_of_string (str_drop (String.length "BUNDLE") value)) else this
    | None => this
    end
  else this.

(** An update with a value there may be. *)
Definition on_value {A} (o : option A) (f : SalMediaDescription -> A -> SalMediaDescription)
    (this : SalMediaDescription) : SalMediaDescription :=
  match o with
  | Some a => f this a
  | None => this
  end.

(** The address of the connection, when there is one. *)
Definition connection_address (cnx : option belle_sdp_connection) : option string :=
  match cnx with
  | Some cnx => cnx_address cnx
  | None => None
  end.

(** The members of the session itself. *)
Definition read_session_members (this : SalMediaDescription) (s : belle_sdp_session_description)
    : SalMediaDescription :=
  let this := on_value (connection_address (session_connection s)) (fun this a => this <| md_addr := a |>) this in
  let this := on_value (session_name s) (fun this name => this <| md_name := name |>) this in
  let this := on_value (session_bandwidth s)
    (fun this bandwidth => if 0 <? bandwidth then this <| md_bandwidth := bandwidth |> else this) this in
  let this := this <| md_times := md_times this ++
    map (fun t => (ntp_to_unix_time (fst t), ntp_to_unix_time (snd t))) (session_times s) |> in
  let this := this <| md_origin_addr := origin_address (session_origin s) |>
                   <| md_session_id := origin_session_id (session_origin s) |>
                   <| md_session_ver := origin_session_version (session_origin s) |> in
  let this := this <| md_dir := read_session_direction s (md_dir this) |> in
  let this := on_value (session_value s "ice-ufrag") (fun this v => this <| md_ice_ufrag := v |>) this in
  let this := on_value (session_value s "ice-pwd") (fun this v => this <| md_ice_pwd := v |>) this in
  let this := on_value (session_value s "ice-lite") (fun this _ => this <| md_ice_lite := true |>) this in
  let this := this <| md_rtcp_xr := sdp_parse_session_rtcp_xr_parameters s (md_rtcp_xr this) |> in
  let this := on_value (session_value s "Ik") (fun this _ => this <| md_haveLimeIk := true |>) this in
  let this := on_value (session_value s "lime-Ik") (fun this _ => this <| md_haveLimeIk := true |>) this in
  this <| md_record := read_record (session_value s "record") (md_record this) |>.

(** The streams, numbered from [currentStreamIdx]. *)
Fixpoint read_streams (this : SalMediaDescription) (s : belle_sdp_session_description)
    (potentialCfgGraph : PotentialCfgGraph) (currentStreamIdx : Z) (medias : list belle_sdp_media_description)
    : outcome SalMediaDescription :=
  match medias with
  | [] => Done this
  | media_desc :: rest =>
      let* stream :=
        if capabilityNegotiationSupported (md_params this) then
          let attrs := {|
            attrs_unparsed_cfgs := getUnparsedCfgForStream potentialCfgGraph currentStreamIdx;
            attrs_cfgs := getCfgForStream potentialCfgGraph currentStreamIdx;
            attrs_acaps := getMediaAcapForStream potentialCfgGraph currentStreamIdx;
            attrs_tcaps := getMediaTcapForStream potentialCfgGraph currentStreamIdx
          |} in
          fillStreamDescriptionFromSdp_attrs empty_stream this s media_desc attrs
        else fillStreamDescriptionFromSdp empty_stream this s media_desc in
      let this := this <| md_streams := md_streams this ++ [SalStreamDescription.copy_construct stream] |> in
      read_streams this s potentialCfgGraph (u32 (currentStreamIdx + 1)) rest
  end.

Definition SalMediaDescription_of_sdp (s : belle_sdp_session_description) : outcome SalMediaDescription :=
  let this := media_of_params default_params in
  let this := this <| md_dir := SalStreamSendRecv |> in
  let* potentialCfgGraph := or_thrown (processSessionDescription split empty_graph (session_caps_of s)) in
  let this := this <| md_params :=
    enableCapabilityNegotiationSupport (md_params this) (negb (PotentialCfgGraph.empty potentialCfgGraph)) |> in
  let this := read_session_members this s in
  let this := fold_left read_session_attribute (session_attributes s) this in
  let this :=
    if capabilityNegotiationSupported (md_params this) then
      let this := fold_left (fun this acap =>
        this <| md_acaps := om_set id_rank (cap_index (acap_base acap)) (acap_name acap, cap_value (acap_base acap))
                              (md_acaps this) |>) (globalAcap potentialCfgGraph) this in
      fold_left (fun this tcap =>
        this <| md_tcaps := om_set id_rank (cap_index tcap) (cap_value tcap) (md_tcaps this) |>)
        (globalTcap potentialCfgGraph) this
    else this in
  read_streams this s potentialCfgGraph (u32 (Z.of_nat (length (md_streams this)))) (session_media_descriptions s).

(** ** Writing *)

Definition write_times (times : list (Z * Z)) (l : list (Z * Z)) : list (Z * Z) :=
  match times with
  | [] => set_time_description l (0, 0)
  | _ => fold_left (fun l t => set_time_description l (unix_to_ntp_time (fst t), unix_to_ntp_time (snd t))) times l
  end.

Definition session_text (name value : string) (s : belle_sdp_session_description)
    : belle_sdp_session_description :=
  if negb (str_empty value) then session_add_created s name (Some value) else s.

(** The attributes of the session. *)
Definition write_session_attributes (this : SalMediaDescription) (s : belle_sdp_session_description)
    : belle_sdp_session_description :=
  let s := if md_set_nortpproxy this then session_add_created s "nortpproxy" (Some "yes") else s in
  let s := session_text "ice-pwd" (md_ice_pwd this) s in
  let s := session_text "ice-ufrag" (md_ice_ufrag this) s in
  let s :=
    if xr_enabled (md_rtcp_xr this)
    then belle_sdp_session_description_add_attribute s (create_rtcp_xr_attribute (md_rtcp_xr this)) else s in
  let s := fold_left (fun s bundle => let '(name, value) := addToSdp bundle in session_add_created s name (Some value))
             (md_bundles this) s in
  let s :=
    if md_record this <>e SalMediaRecordNone
    then session_add_created s "record" (Some (sal_media_record_to_string (md_record this))) else s in
  let s := fold_left (fun s a => session_add_created s (fst a) (snd a))
             (default [] (md_custom_sdp_attributes this)) s in
  if capabilityNegotiationSupported (md_params this) then
    let s := fold_left (fun s p => session_add_created s "acap" (Some (acap_text (fst p) (snd p)))) (md_acaps this) s in
    fold_left (fun s v => session_add_created s "tcap" (Some v))
      (tcap_texts (tcapLinesMerged (md_params this)) (md_tcaps this)) s
  else s.

Fixpoint write_streams (this : SalMediaDescription) (streams : list SalStreamDescription)
    (s : belle_sdp_session_description) : belle_sdp_session_description * list SalStreamDescription :=
  match streams with
  | [] => (s, [])
  | stream :: rest =>
      let '(media_desc, s, stream) := toSdpMediaDescription stream this s in
      let s := belle_sdp_session_description_add_media_description s media_desc in
      let '(s, rest) := write_streams this rest s in
      (s, stream :: rest)
  end.

(** The result has the session description and the streams as the call leaves
    them, the flags of their payload types set. *)
Definition toSdp (this : SalMediaDescription) : belle_sdp_session_description * SalMediaDescription :=
  let s := belle_sdp_session_description_new in
  let escaped_username :=
    if negb (str_empty (md_username this)) then Some (belle_sip_uri_to_escaped_username (md_username this)) else None in
  let inet6 := str_has ":" (md_addr this) in
  let address_type := if inet6 then "IP6" else "IP4" in
  let s := s <| session_version := 0 |> in
  let s := s <| session_origin :=
    mkOrigin escaped_username (md_session_id this) (md_session_ver this) address_type (md_origin_addr this) |> in
  let s := s <| session_name := Some (if negb (str_empty (md_name this)) then md_name this else "Talk") |> in
  let s :=
    if negb (hasDir this SalStreamInactive) || negb (str_empty (md_ice_ufrag this))
    then s <| session_connection := Some (belle_sdp_connection_create address_type (md_addr this)) |>
    else s <| session_connection :=
           Some (belle_sdp_connection_create address_type (if inet6 then "::0" else "0.0.0.0")) |> in
  let s := s <| session_times := write_times (md_times this) (session_times s) |> in
  let s := if 0 <? md_bandwidth this then s <| session_bandwidth := Some (md_bandwidth this) |> else s in
  let s := write_session_attributes this s in
  let '(s, streams) := write_streams this (md_streams this) s in
  (s, this <| md_streams := streams |>).
End MediaSdp.
