(* ===== verification/IceAttributes.v ===== *)
(** The ICE attributes of a media line: what is written is read back, the scan
    of remote candidates ends, and what the readers do with other text. *)
From S2P Require Import Prelude Sscanf SalTypes Payload SalStreamConfiguration PotentialCfgGraph SalStreamBundle SalStreamDescription SalMediaDescription SdpObjects SalSdp StreamSdpReader StreamSdpWriter.

(** ** Candidates *)

(** A word the reader has room for. *)
Definition ice_token (w : string) : Prop :=
  is_token w /\ (String.length w < SAL_MEDIA_DESCRIPTION_MAX_ICE_ADDR_LEN)%nat.

(** A candidate that can be written on one line. *)
Record good_candidate (c : SalIceCandidate) : Prop := {
  gc_foundation : ice_token (ice_foundation c);
  gc_addr : ice_token (ice_addr c);
  gc_type : ice_token (ice_type c);
  gc_component : 0 <= ice_componentID c < 2 ^ 32;
  gc_priority : 0 <= ice_priority c < 2 ^ 32;
  gc_port : 0 < ice_port c < 2 ^ 31;
  gc_related : ice_raddr c = EmptyString /\ ice_rport c = 0 \/
               ice_token (ice_raddr c) /\ 0 <= ice_rport c < 2 ^ 31
}.

Definition candidate_text (c : SalIceCandidate) : string :=
  if str_empty (ice_raddr c) then candidate_base c else candidate_base c +:+ candidate_related c.

Lemma ice_word_space {B} s t stop (k : string -> string -> outcome B) :
  ice_token s -> head_is (fun c => negb (is_space c)) t = false ->
  ice_word (String " " (s +:+ t)) stop k = k s t.
Proof. intros [Hs Hl] Ht. by apply scan_str_then_space. Qed.

Lemma ice_word_first {B} s t stop (k : string -> string -> outcome B) :
  ice_token s -> head_is (fun c => negb (is_space c)) t = false -> ice_word (s +:+ t) stop k = k s t.
Proof. intros [Hs Hl] Ht. by apply scan_str_then_token. Qed.

Lemma candidate_base_app c t :
  candidate_base c +:+ t =
  ice_foundation c +:+ String " " (to_dec (ice_componentID c) +:+ String " " ("UDP" +:+
    String " " (to_dec (ice_priority c) +:+ String " " (ice_addr c +:+ String " " (to_dec (ice_port c) +:+
    String " " ("typ" +:+ String " " (ice_type c +:+ t))))))).
Proof. unfold candidate_base. by rewrite !str_app_assoc. Qed.

(** The seven first conversions on a candidate line. *)
Lemma sscanf_candidate_base c t :
  good_candidate c -> head_is (fun c => negb (is_space c)) t = false ->
  sscanf_candidate (candidate_base c +:+ t) =
    let at_conversion nb c := Done (mkCandidateScan nb "UDP" c) in
    let c7 := mkIceCandidate (ice_addr c) EmptyString (ice_foundation c) (ice_type c)
                (ice_componentID c) (ice_priority c) (ice_port c) 0 in
    scan_lit_then "raddr" t (at_conversion 7%nat c7) (fun s =>
    ice_word s (at_conversion 7%nat c7) (fun raddr s =>
    let c8 := mkIceCandidate (ice_addr c) raddr (ice_foundation c) (ice_type c)
                (ice_componentID c) (ice_priority c) (ice_port c) 0 in
    scan_lit_then "rport" s (at_conversion 8%nat c8) (fun s =>
    scan_then (scan_int s) (at_conversion 8%nat c8) (fun rport s =>
    at_conversion 9%nat (mkIceCandidate (ice_addr c) raddr (ice_foundation c) (ice_type c)
      (ice_componentID c) (ice_priority c) (ice_port c) rport))))).
Proof.
  intros [Hf Ha Ht Hc Hp Hpo _] Hh. rewrite candidate_base_app. unfold sscanf_candidate. cbv zeta.
  rewrite ice_word_first by done. rewrite !to_dec_nonneg by lia.
  rewrite scan_uint_space by done. cbn [scan_then].
  rewrite (scan_word_space 3 "UDP") by (done || (simpl; lia)). cbn [scan_then].
  rewrite scan_uint_space by done. cbn [scan_then].
  rewrite ice_word_space by done.
  rewrite scan_int_space by (done || lia). cbn [scan_then].
  rewrite scan_lit_then_space by done. by rewrite ice_word_space by done.
Qed.

Lemma read_candidate_text l c : good_candidate c -> read_candidate l (candidate_text c) = Done (l ++ [c]).
Proof.
  intros Hc. pose proof (gc_related c Hc) as Hr. unfold read_candidate, candidate_text.
  destruct c as [addr raddr foundation type id prio port rport]. cbn [ice_raddr ice_rport] in Hr.
  destruct Hr as [[-> ->]|[Hr Hrp]].
  - cbn [ice_raddr]. change (str_empty EmptyString) with true. cbv iota.
    rewrite <- (str_app_nil (candidate_base _)), sscanf_candidate_base by done. reflexivity.
  - assert (str_empty raddr = false) as Hre by (apply str_empty_false; apply Hr). cbn [ice_raddr]. rewrite Hre.
    unfold candidate_related. cbn [ice_raddr ice_rport].
    assert (E : " raddr " +:+ raddr +:+ " rport " +:+ to_dec rport =
      String " " ("raddr" +:+ String " " (raddr +:+ String " " ("rport" +:+
        String " " (dec_of_nonneg rport +:+ EmptyString))))).
    { rewrite str_app_nil, to_dec_nonneg by lia. reflexivity. }
    rewrite E, sscanf_candidate_base by done. cbv zeta.
    rewrite scan_lit_then_space, ice_word_space, scan_lit_then_space, scan_int_space by done. reflexivity.
Qed.

(** ** Remote candidates *)

(** One turn of the loop, as the value it goes on with. *)
Lemma scan_ws_length s : (String.length (scan_ws s) <= String.length s)%nat.
Proof. unfold scan_ws. induction s as [|c s IH]; simpl; [lia|]. destruct (is_space c); simpl; [|lia].
  destruct (str_span is_space s) as [a b] eqn:E. simpl in *. lia. Qed.

Lemma str_span_length p s a b : str_span p s = (a, b) -> (String.length a + String.length b = String.length s)%nat.
Proof.
  revert a b. induction s as [|c s IH]; intros a b; simpl; [by intros [= <- <-]|].
  destruct (p c); [|by intros [= <- <-]]. destruct (str_span p s) as [a' b'].
  intros [= <- <-]. simpl. rewrite <- (IH a' b'); done.
Qed.

Lemma scan_uint_shorter s v t : scan_uint s = Some (v, t) -> (String.length t < String.length s)%nat.
Proof.
  unfold scan_uint. pose proof (scan_ws_length s) as Hw. destruct (scan_ws s) as [|c s1]; [done|].
  assert (G : forall neg s2, (String.length s2 <= String.length s)%nat ->
    match str_span is_digit s2 with
    | (EmptyString, _) => None
    | (ds, rest) => Some (u32 (if neg : bool then - horner 0 ds else horner 0 ds), rest)
    end = Some (v, t) -> (String.length t < String.length s)%nat).
  { intros neg s2 Hs2. destruct (str_span is_digit s2) as [[|d ds] rest] eqn:E; [done|].
    intros [= _ <-]. apply str_span_length in E. simpl in E. lia. }
  simpl in Hw. destruct (Ascii.eqb c "-"); [|destruct (Ascii.eqb c "+")]; intros H.
  - apply (G true s1); [lia|exact H].
  - apply (G false s1); [lia|exact H].
  - apply (G false (String c s1)); [simpl; lia|exact H].
Qed.

Lemma str_take_span_length p n s a b :
  str_take_span p n s = (a, b) -> (String.length a + String.length b = String.length s)%nat.
Proof.
  revert n a b. induction s as [|c s IH]; intros [|n] a b; simpl; try by intros [= <- <-].
  destruct (p c); [|by intros [= <- <-]]. destruct (str_take_span p n s) as [a' b'] eqn:E.
  intros [= <- <-]. simpl. by rewrite <- (IH n a' b').
Qed.

Lemma scan_str_shorter s w t : scan_str s = Some (w, t) -> (String.length t < String.length s)%nat.
Proof.
  unfold scan_str, scan_word. pose proof (scan_ws_length s) as Hw.
  destruct (str_take_span _ _ _) as [[|c a] b] eqn:E; [done|]. intros [= <- <-].
  apply str_take_span_length in E. simpl in E. lia.
Qed.

(** Every turn consumes a character, so that the fuel the reader gives is
    enough: more fuel changes nothing. *)
Lemma read_remote_candidates_fuel n m l ptr :
  (String.length ptr < n)%nat -> (n <= m)%nat ->
  read_remote_candidates m l ptr = read_remote_candidates n l ptr.
Proof.
  revert m l ptr. induction n as [|n IH]; intros m l ptr Hn Hm; [lia|]. destruct m as [|m]; [lia|].
  cbn [read_remote_candidates]. unfold ice_word, scan_str_then, scan_then.
  destruct (scan_uint ptr) as [[id s]|] eqn:E1; [|done]. apply scan_uint_shorter in E1.
  destruct (scan_str s) as [[addr s']|] eqn:E2; [|done]. apply scan_str_shorter in E2.
  destruct (_ <=? String.length addr)%nat; [done|].
  destruct (scan_uint s') as [[port s'']|] eqn:E3; [|done]. apply scan_uint_shorter in E3.
  destruct s'' as [|c s3]; [done|]. destruct (Ascii.eqb c " "); apply IH; simpl in *; lia.
Qed.

Definition good_remote (c : SalIceRemoteCandidate) : Prop :=
  ice_token (ice_remote_addr c) /\ 0 < ice_remote_port c < 2 ^ 31.
(** An entry of a vector that was resized past it. *)
Definition remote_entry (c : SalIceRemoteCandidate) : Prop := good_remote c \/ c = empty_remote_candidate.

Definition remote_entry_text (i : Z) (c : SalIceRemoteCandidate) : string :=
  to_dec (u32 (i + 1)) +:+ " " +:+ ice_remote_addr c +:+ " " +:+ to_dec (ice_remote_port c).
Definition is_hole (c : SalIceRemoteCandidate) : bool := str_empty (ice_remote_addr c) || (ice_remote_port c =? 0).

(** The text written from position [i] on. *)
Fixpoint remote_tail (i : Z) (l : list SalIceRemoteCandidate) : string :=
  match l with
  | [] => EmptyString
  | c :: rest =>
      if is_hole c then remote_tail (i + 1) rest
      else (if 0 <? i then " " else EmptyString) +:+ remote_entry_text i c +:+ remote_tail (i + 1) rest
  end.
Fixpoint stored (i : Z) (l : list SalIceRemoteCandidate) (acc : list SalIceRemoteCandidate)
    : list SalIceRemoteCandidate :=
  match l with
  | [] => acc
  | c :: rest => stored (i + 1) rest (if is_hole c then acc else store_remote_candidate acc (i + 1) c)
  end.

Lemma is_hole_good c : good_remote c -> is_hole c = false.
Proof.
  intros [[[Hne _] _] Hp]. unfold is_hole. apply orb_false_iff. rewrite str_empty_false, Z.eqb_neq. split; [done|lia].
Qed.

Lemma remote_candidates_text_tail i l value v :
  remote_candidates_text i l value = Some v -> v = value +:+ remote_tail i l.
Proof.
  revert i value. induction l as [|c l IH]; intros i value; cbn [remote_candidates_text].
  { intros [= <-]. simpl. by rewrite str_app_nil. }
  assert (E : negb (str_empty (ice_remote_addr c)) && negb (ice_remote_port c =? 0) = negb (is_hole c))
    by (unfold is_hole; by rewrite negb_orb).
  rewrite E. cbn [remote_tail]. destruct (is_hole c); cbn [negb]; [apply IH|].
  destruct (_ <? _)%nat; [done|]. intros H%IH. rewrite H.
  unfold remote_entry_text. by rewrite !str_app_assoc.
Qed.

Lemma remote_tail_lead i l : 0 < i -> remote_tail i l = EmptyString \/ exists t, remote_tail i l = String " " t.
Proof.
  revert i. induction l as [|c l IH]; intros i Hi; cbn [remote_tail]; [by left|].
  destruct (is_hole c); [apply IH; lia|]. rewrite (proj2 (Z.ltb_lt 0 i) Hi). right. eexists. reflexivity.
Qed.

Lemma remote_entry_scan i c t :
  good_remote c -> 0 <= i < 2 ^ 32 - 1 -> t = EmptyString \/ (exists t', t = String " " t') ->
  forall lead l fuel, lead = EmptyString \/ lead = " " ->
  read_remote_candidates (S fuel) l (lead +:+ remote_entry_text i c +:+ t) =
  match t with
  | EmptyString => Done (store_remote_candidate l (i + 1) c)
  | String _ t' => read_remote_candidates fuel (store_remote_candidate l (i + 1) c) t'
  end.
Proof.
  intros [Ha Hp] Hi Ht lead l fuel Hl. destruct c as [addr port]. cbn [ice_remote_addr ice_remote_port] in *.
  assert (E : remote_entry_text i (mkIceRemoteCandidate addr port) +:+ t =
    dec_of_nonneg (i + 1) +:+ String " " (addr +:+ String " " (dec_of_nonneg port +:+ t))).
  { unfold remote_entry_text. cbn [ice_remote_addr ice_remote_port].
    rewrite u32_small, !to_dec_nonneg by lia. by rewrite !str_app_assoc. }
  rewrite E. cbn [read_remote_candidates].
  assert (Hs : scan_uint (lead +:+ (dec_of_nonneg (i + 1) +:+ String " " (addr +:+ String " " (dec_of_nonneg port +:+ t)))) =
    Some (i + 1, String " " (addr +:+ String " " (dec_of_nonneg port +:+ t)))).
  { destruct Hl as [->| ->]; [apply scan_uint_dec|apply scan_uint_space]; done || lia. }
  rewrite Hs. cbn [scan_then]. rewrite ice_word_space by done.
  rewrite scan_uint_space; [|lia|by destruct Ht as [->|[t' ->]]]. cbn [scan_then]. rewrite i32_small by lia.
  by destruct Ht as [->|[t' ->]].
Qed.

Lemma read_remote_tail fuel i l acc :
  Forall remote_entry l -> 0 <= i -> i + Z.of_nat (length l) < 2 ^ 32 -> (length l < fuel)%nat ->
  read_remote_candidates fuel acc (remote_tail i l) = Done (stored i l acc) /\
  (forall t, remote_tail i l = String " " t -> read_remote_candidates fuel acc t = Done (stored i l acc)).
Proof.
  intros Hl. revert fuel i acc. induction Hl as [|c l Hc Hl IH]; intros fuel i acc Hi Hn Hf.
  { split; [by destruct fuel|done]. }
  cbn [remote_tail stored length] in *. destruct Hc as [Hc| ->].
  - rewrite (is_hole_good c Hc). destruct fuel as [|fuel]; [lia|].
    destruct (IH fuel (i + 1) (store_remote_candidate acc (i + 1) c)) as [_ IHt]; [lia..|].
    pose proof (remote_tail_lead (i + 1) l ltac:(lia)) as Ht.
    assert (G : forall lead, lead = EmptyString \/ lead = " " ->
      read_remote_candidates (S fuel) acc (lead +:+ remote_entry_text i c +:+ remote_tail (i + 1) l) =
      Done (stored (i + 1) l (store_remote_candidate acc (i + 1) c))).
    { intros lead Hlead. rewrite (remote_entry_scan i c _ Hc) by (done || lia).
      destruct Ht as [Ht|[t Ht]].
      - rewrite Ht. enough (stored (i + 1) l (store_remote_candidate acc (i + 1) c) =
          store_remote_candidate acc (i + 1) c) as -> by done.
        clear -Ht. revert i Ht acc. generalize (store_remote_candidate) as st. intros st.
        intros i Ht acc. generalize (st acc (i + 1) c) as a. revert Ht. generalize (i + 1). clear.
        induction l as [|d l IH]; intros z Ht a; [done|]. cbn [remote_tail stored] in *.
        destruct (is_hole d); [by apply IH|]. destruct (0 <? z); [done|].
        exfalso. unfold remote_entry_text in Ht. destruct (to_dec (u32 (z + 1))); done.
      - rewrite Ht. by apply IHt. }
    split; [apply G; destruct (0 <? i); tauto|].
    intros t Ht'. destruct (0 <? i).
    + injection Ht' as <-. by apply (G EmptyString); left.
    + exfalso. unfold remote_entry_text in Ht'. simpl in Ht'. rewrite u32_small, to_dec_nonneg in Ht' by lia.
      pose proof (dec_of_nonneg_digits (i + 1) ltac:(lia)) as Hd. destruct (dec_of_nonneg_cons (i + 1)) as (d & s & E).
      rewrite E in *. simpl in Ht'. injection Ht' as -> _. discriminate.
  - apply IH; lia.
Qed.

(** The vector after [stored], up to the empty entries at its end. *)
Definition padded (l : list SalIceRemoteCandidate) (n : nat) : list SalIceRemoteCandidate :=
  l ++ repeat empty_remote_candidate (n - length l).

Lemma store_next acc n c :
  (length acc <= n)%nat -> store_remote_candidate acc (Z.of_nat n + 1) c = padded acc n ++ [c].
Proof.
  intros Hl. unfold store_remote_candidate. rewrite (proj2 (Z.ltb_lt _ _)) by lia.
  replace (Z.to_nat (Z.of_nat n + 1 - 1)) with n by lia. rewrite (proj2 (Nat.leb_le _ _) Hl).
  unfold resize, padded. replace (Z.to_nat (Z.of_nat n + 1)) with (S n) by lia.
  replace (S n - length acc)%nat with (n - length acc + 1)%nat by lia. rewrite repeat_app, app_assoc.
  change (repeat empty_remote_candidate 1) with [empty_remote_candidate].
  assert (Hn : n = length (acc ++ repeat empty_remote_candidate (n - length acc)))
    by (rewrite length_app, repeat_length; lia).
  rewrite Hn at 1. rewrite insert_app_r_alt, Nat.sub_diag by done. done.
Qed.

Lemma padded_snoc acc n :
  (length acc <= n)%nat -> padded acc (S n) = padded acc n ++ [empty_remote_candidate].
Proof.
  intros Hl. unfold padded. replace (S n - length acc)%nat with (n - length acc + 1)%nat by lia.
  by rewrite repeat_app, app_assoc.
Qed.

Lemma padded_length acc n : (length acc <= n)%nat -> length (padded acc n) = n.
Proof. intros. unfold padded. rewrite length_app, repeat_length. lia. Qed.

Lemma stored_padded l acc n :
  Forall remote_entry l -> (length acc <= n)%nat ->
  (length (stored (Z.of_nat n) l acc) <= n + length l)%nat /\
  padded (stored (Z.of_nat n) l acc) (n + length l) = padded acc n ++ l.
Proof.
  intros Hl. revert acc n. induction Hl as [|c l Hc Hl IH]; intros acc n Hn; cbn [stored length].
  { rewrite Nat.add_0_r, app_nil_r. done. }
  replace (Z.of_nat n + 1) with (Z.of_nat (S n)) by lia. replace (n + S (length l))%nat with (S n + length l)%nat by lia.
  destruct Hc as [Hc| ->].
  - rewrite (is_hole_good c Hc). replace (Z.of_nat (S n)) with (Z.of_nat n + 1) at 2 4 by lia.
    rewrite (store_next acc n c Hn). destruct (IH (padded acc n ++ [c]) (S n)) as [H1 H2].
    { rewrite length_app, padded_length by done. simpl. lia. }
    split; [exact H1|]. rewrite H2. unfold padded at 1. rewrite length_app, padded_length by done. simpl.
    replace (S n - (n + 1))%nat with 0%nat by lia. simpl. by rewrite app_nil_r, <- app_assoc.
  - change (is_hole empty_remote_candidate) with true. cbv iota.
    destruct (IH acc (S n)) as [H1 H2]; [lia|]. split; [exact H1|]. rewrite H2, padded_snoc by done.
    by rewrite <- app_assoc.
Qed.

(** A vector whose last entry is a candidate is what is stored. *)
Lemma stored_all l :
  Forall remote_entry l -> (forall c, last l = Some c -> good_remote c) -> stored 0 l [] = l.
Proof.
  intros Hl Hg. destruct (stored_padded l [] 0 Hl) as [H1 H2]; [done|].
  change (padded [] 0 ++ l) with l in H2. change (Z.of_nat 0) with 0 in *. rewrite Nat.add_0_l in *.
  unfold padded in H2. destruct (length l - length (stored 0 l []))%nat as [|k] eqn:E.
  - by rewrite app_nil_r in H2.
  - exfalso. assert (Hlast : last l = Some empty_remote_candidate).
    { rewrite <- H2. replace (S k) with (k + 1)%nat by lia. rewrite repeat_app, app_assoc. apply last_snoc. }
    destruct (Hg _ Hlast) as [[[Hne _] _] _]. by apply Hne.
Qed.

Lemma read_remote_text l v :
  Forall remote_entry l -> (forall c, last l = Some c -> good_remote c) -> Z.of_nat (length l) < 2 ^ 32 ->
  remote_candidates_text 0 l EmptyString = Some v ->
  read_remote_candidates (S (String.length v)) [] v = Done l.
Proof.
  intros Hl Hg Hn Hv. apply remote_candidates_text_tail in Hv. simpl in Hv. subst v.
  rewrite <- (read_remote_candidates_fuel _ (S (String.length (remote_tail 0 l)) + length l)) by lia.
  destruct (read_remote_tail (S (String.length (remote_tail 0 l)) + length l) 0 l []) as [E _]; try done; [lia|].
  by rewrite E, stored_all.
Qed.
