(* ===== verification/WrittenLine.v ===== *)
(** The attributes of a written media line as one list, and how the readers see
    it: only the attributes of the names they look for matter. *)
From S2P Require Import Prelude Sscanf SalTypes Payload SalStreamConfiguration PotentialCfgGraph SalStreamBundle SalStreamDescription SalMediaDescription SdpObjects SalSdp StreamSdpReader StreamSdpWriter IceAttributes.

(** ** Segments of attributes *)

Definition with_attributes (m : belle_sdp_media_description) (l : list belle_sdp_attribute)
    : belle_sdp_media_description := m <| media_attributes := media_attributes m ++ l |>.

Lemma with_attributes_app m l1 l2 : with_attributes (with_attributes m l1) l2 = with_attributes m (l1 ++ l2).
Proof. unfold with_attributes. destruct m. simpl. by rewrite app_assoc. Qed.
Lemma with_attributes_nil m : with_attributes m [] = m.
Proof. unfold with_attributes. destruct m. simpl. by rewrite app_nil_r. Qed.

Definition attribute_if (b : bool) (name : string) (value : option string) : list belle_sdp_attribute :=
  if b then [RawAttribute name value] else [].

(** The attributes whose name is one of [ns]. *)
Definition in_names (ns : list string) (name : string) : bool := existsb (String.eqb name) ns.
Definition named_in (ns : list string) (l : list belle_sdp_attribute) : list belle_sdp_attribute :=
  List.filter (fun a => in_names ns (belle_sdp_attribute_get_name a)) l.

Lemma named_in_app ns l1 l2 : named_in ns (l1 ++ l2) = named_in ns l1 ++ named_in ns l2.
Proof. apply List.filter_app. Qed.

Lemma named_in_if ns b name value :
  named_in ns (attribute_if b name value) = if in_names ns name then attribute_if b name value else [].
Proof. destruct b; cbn; by destruct (in_names ns name). Qed.

Lemma named_in_none ns l :
  (forall a, In a l -> in_names ns (belle_sdp_attribute_get_name a) = false) -> named_in ns l = [].
Proof.
  induction l as [|a l IH]; intros H; [done|]. cbn. rewrite (H a) by by left. apply IH. intros b Hb. apply H. by right.
Qed.

Lemma named_in_all ns l :
  (forall a, In a l -> in_names ns (belle_sdp_attribute_get_name a) = true) -> named_in ns l = l.
Proof.
  induction l as [|a l IH]; intros H; [done|]. cbn. rewrite (H a) by by left. f_equal. apply IH. intros b Hb. apply H. by right.
Qed.

(** A segment whose attributes all have one name. *)
Definition all_named (name : string) (l : list belle_sdp_attribute) : Prop :=
  forall a, In a l -> belle_sdp_attribute_get_name a = name.

Lemma named_in_segment ns name l : all_named name l -> named_in ns l = if in_names ns name then l else [].
Proof.
  intros H. destruct (in_names ns name) eqn:E.
  - apply named_in_all. intros a Ha. by rewrite (H a Ha).
  - apply named_in_none. intros a Ha. by rewrite (H a Ha).
Qed.

Lemma find_named name l : List.find (has_name name) l = head (named_in [name] l).
Proof.
  induction l as [|a l IH]; [done|]. cbn. unfold has_name. rewrite orb_false_r.
  destruct (String.eqb _ _); [done|exact IH].
Qed.

Lemma all_named_app name l1 l2 : all_named name l1 -> all_named name l2 -> all_named name (l1 ++ l2).
Proof. intros H1 H2 a Ha. apply in_app_or in Ha as [?|?]; auto. Qed.
Lemma all_named_if name b value : all_named name (attribute_if b name value).
Proof. destruct b; intros a; [intros [<-|[]]; done|intros []]. Qed.
Lemma all_named_flat_map {A} name (f : A -> list belle_sdp_attribute) l :
  (forall x, all_named name (f x)) -> all_named name (flat_map f l).
Proof. intros H a Ha. apply in_flat_map in Ha as (x & _ & Hx). by apply (H x). Qed.

(** A reader that looks at some names only sees the attributes of these names. *)
Lemma fold_left_named {A} ns (f : A -> belle_sdp_attribute -> A) acc l :
  (forall acc a, in_names ns (belle_sdp_attribute_get_name a) = false -> f acc a = acc) ->
  fold_left f l acc = fold_left f (named_in ns l) acc.
Proof.
  intros H. revert acc. induction l as [|a l IH]; intros acc; [done|]. cbn.
  destruct (in_names ns _) eqn:E; cbn; [apply IH|]. rewrite H by done. apply IH.
Qed.

Lemma ofold_named {A} ns (f : A -> belle_sdp_attribute -> outcome A) acc l :
  (forall acc a, in_names ns (belle_sdp_attribute_get_name a) = false -> f acc a = Done acc) ->
  ofold f acc l = ofold f acc (named_in ns l).
Proof.
  intros H. revert acc. induction l as [|a l IH]; intros acc; [done|]. cbn [ofold named_in List.filter].
  destruct (in_names ns _) eqn:E; cbn [ofold].
  - destruct (f acc a); cbn [obind]; [apply IH|done|done].
  - rewrite H by done. apply IH.
Qed.

(** ** What the writers add *)

Section Written.
Context {lib : MediaLib} {sdp : SdpLib} {ortp : OrtpRtcp} {spec : SdpLibSpec sdp}.

Lemma add_created_raw m name value :
  in_names typed_names name = false -> add_created m name value = with_attributes m [RawAttribute name value].
Proof.
  intros Hn. unfold add_created. rewrite create_raw; [done|]. intros Hin.
  apply not_true_iff_false in Hn. apply Hn. apply existsb_exists. exists name. split; [done|apply String.eqb_refl].
Qed.

Lemma add_created_if (b : bool) m name value :
  in_names typed_names name = false ->
  (if b then add_created m name value else m) = with_attributes m (attribute_if b name value).
Proof. intros Hn. destruct b; [by apply add_created_raw|by rewrite with_attributes_nil]. Qed.

Lemma fold_with_attributes {A} (f : belle_sdp_media_description -> A -> belle_sdp_media_description)
    (g : A -> list belle_sdp_attribute) l m :
  (forall m x, f m x = with_attributes m (g x)) -> fold_left f l m = with_attributes m (flat_map g l).
Proof.
  intros H. revert m. induction l as [|x l IH]; intros m; cbn [fold_left flat_map]; [by rewrite with_attributes_nil|].
  by rewrite IH, H, with_attributes_app.
Qed.

Definition crypto_attributes (cfg : SalStreamConfiguration) : list belle_sdp_attribute :=
  if SalStreamConfiguration.hasSrtp cfg
  then flat_map (fun c => attribute_if (negb (str_empty (cryptoToSdpValue c))) "crypto" (Some (cryptoToSdpValue c)))
         (cfg_crypto cfg) else [].
Lemma write_cryptos_list cfg m : write_cryptos cfg m = with_attributes m (crypto_attributes cfg).
Proof.
  unfold write_cryptos, crypto_attributes. destruct (SalStreamConfiguration.hasSrtp cfg); [|by rewrite with_attributes_nil].
  apply fold_with_attributes. intros m' c. by rewrite add_created_if.
Qed.

Definition writes_dtls (cfg : SalStreamConfiguration) : bool :=
  ((cfg_proto cfg =e SalProtoUdpTlsRtpSavpf) || (cfg_proto cfg =e SalProtoUdpTlsRtpSavp))
  && (cfg_dtls_role cfg <>e SalDtlsRoleInvalid) && negb (str_empty (cfg_dtls_fingerprint cfg)).
Definition setup_attributes (cfg : SalStreamConfiguration) : list belle_sdp_attribute :=
  attribute_if (writes_dtls cfg && negb (str_empty (getSetupAttributeForDtlsRole (cfg_dtls_role cfg)))) "setup"
    (Some (getSetupAttributeForDtlsRole (cfg_dtls_role cfg))).
Definition fingerprint_attributes (cfg : SalStreamConfiguration) : list belle_sdp_attribute :=
  attribute_if (writes_dtls cfg) "fingerprint" (Some (cfg_dtls_fingerprint cfg)).
Lemma write_dtls_list cfg m :
  addDtlsAttributesToMediaDesc cfg m = with_attributes m (setup_attributes cfg ++ fingerprint_attributes cfg).
Proof.
  unfold addDtlsAttributesToMediaDesc, setup_attributes, fingerprint_attributes. fold (writes_dtls cfg).
  destruct (writes_dtls cfg); [|by rewrite with_attributes_nil]. cbv zeta.
  by rewrite add_created_if, add_created_raw, with_attributes_app.
Qed.

Definition direction_attributes (dir : SalStreamDir) : list belle_sdp_attribute :=
  match dir with
  | SalStreamSendRecv => []
  | SalStreamRecvOnly => [RawAttribute "recvonly" None]
  | SalStreamSendOnly => [RawAttribute "sendonly" None]
  | SalStreamInactive => [RawAttribute "inactive" None]
  end.
Lemma write_direction_list dir m : write_direction dir m = with_attributes m (direction_attributes dir).
Proof. destruct dir; cbn [write_direction]; by rewrite ?add_created_raw, ?with_attributes_nil. Qed.

Definition mid_attributes (cfg : SalStreamConfiguration) : list belle_sdp_attribute :=
  attribute_if (negb (str_empty (cfg_mid cfg))) "mid" (Some (cfg_mid cfg)).
Definition extension_attribute (id : Z) (urn : string) : list belle_sdp_attribute :=
  attribute_if (negb (id =? 0)) "extmap" (Some (to_dec id +:+ " " +:+ urn)).
Definition bundle_only_attributes (cfg : SalStreamConfiguration) : list belle_sdp_attribute :=
  attribute_if (cfg_bundle_only cfg) "bundle-only" None.
Lemma write_mid_list cfg m :
  addMidAttributesToSdp cfg m = with_attributes m (mid_attributes cfg ++
    extension_attribute (cfg_mid_rtp_ext_header_id cfg) "urn:ietf:params:rtp-hdrext:sdes:mid" ++
    bundle_only_attributes cfg).
Proof.
  unfold addMidAttributesToSdp. cbv zeta. rewrite !add_created_if by done. by rewrite !with_attributes_app.
Qed.

Definition extension_attributes (cfg : SalStreamConfiguration) : list belle_sdp_attribute :=
  extension_attribute (cfg_mixer_to_client_extension_id cfg) "urn:ietf:params:rtp-hdrext:csrc-audio-level" ++
  extension_attribute (cfg_client_to_mixer_extension_id cfg) "urn:ietf:params:rtp-hdrext:ssrc-audio-level vad=on" ++
  extension_attribute (cfg_frame_marking_extension_id cfg) "urn:ietf:params:rtp-hdrext:framemarking".
Lemma write_extensions_list cfg m : write_extensions cfg m = with_attributes m (extension_attributes cfg).
Proof.
  unfold write_extensions, write_extension. cbv zeta. rewrite !add_created_if by done.
  by rewrite !with_attributes_app.
Qed.

Definition ssrc_attributes (cfg : SalStreamConfiguration) : list belle_sdp_attribute :=
  attribute_if (negb (cfg_conference_ssrc cfg =? 0) && negb (str_empty (cfg_rtcp_cname cfg))) "ssrc"
    (Some (to_dec (cfg_conference_ssrc cfg) +:+ " cname:" +:+ cfg_rtcp_cname cfg)).
Lemma write_ssrc_list cfg m : write_ssrc cfg m = with_attributes m (ssrc_attributes cfg).
Proof. by apply add_created_if. Qed.

Definition other_rtcp_address (this : SalStreamDescription) : bool :=
  negb (str_empty (sd_rtcp_addr this)) && negb (String.eqb (sd_rtp_addr this) (sd_rtcp_addr this)).
Definition writes_rtcp (this : SalStreamDescription) : bool :=
  negb (sd_rtp_port this =? 0) && (negb (sd_rtcp_port this =? 0)
  && (negb (sd_rtcp_port this =? sd_rtp_port this + 1) || other_rtcp_address this)).
Definition rtcp_text (this : SalStreamDescription) : string :=
  to_dec (sd_rtcp_port this) +:+
  (if other_rtcp_address this then " IN IP4 " +:+ sd_rtcp_addr this else EmptyString).
Definition rtcp_attributes (this : SalStreamDescription) : list belle_sdp_attribute :=
  attribute_if (writes_rtcp this) "rtcp" (Some (rtcp_text this)).
Lemma write_rtcp_list this m : write_rtcp this m = with_attributes m (rtcp_attributes this).
Proof.
  unfold write_rtcp, rtcp_attributes, writes_rtcp. cbv zeta. fold (other_rtcp_address this). fold (rtcp_text this).
  destruct (sd_rtp_port this =? 0); cbn [negb andb]; [by rewrite with_attributes_nil|]. by apply add_created_if.
Qed.

(** The candidates that are written: up to the first one that cannot be. *)
Definition candidate_fits (c : SalIceCandidate) : bool :=
  negb (str_empty (ice_addr c) || (ice_port c =? 0))
  && (String.length (candidate_base c) <=? 1024)%nat
  && (str_empty (ice_raddr c) || (String.length (candidate_base c +:+ candidate_related c) <=? 1024)%nat).
Fixpoint written_candidates (l : list SalIceCandidate) : list SalIceCandidate :=
  match l with
  | [] => []
  | c :: rest => if candidate_fits c then c :: written_candidates rest else []
  end.
Definition candidate_attributes (this : SalStreamDescription) : list belle_sdp_attribute :=
  map (fun c => RawAttribute "candidate" (Some (candidate_text c))) (written_candidates (sd_ice_candidates this)).
Lemma add_candidates_list l m :
  add_candidates l m =
  with_attributes m (map (fun c => RawAttribute "candidate" (Some (candidate_text c))) (written_candidates l)).
Proof.
  revert m. induction l as [|c l IH]; intros m; cbn [add_candidates written_candidates map];
    [by rewrite with_attributes_nil|].
  unfold candidate_fits, candidate_text. rewrite !Nat.leb_antisym.
  destruct (str_empty (ice_addr c) || _); cbn [negb andb map]; [by rewrite with_attributes_nil|].
  destruct (1024 <? String.length (candidate_base c))%nat; cbn [negb andb map]; [by rewrite with_attributes_nil|].
  destruct (str_empty (ice_raddr c)) eqn:E; cbn [negb andb orb map].
  - rewrite E. rewrite add_created_raw by done. by rewrite IH, with_attributes_app.
  - destruct (1024 <? _)%nat; cbn [negb andb map]; [by rewrite with_attributes_nil|].
    rewrite E. rewrite add_created_raw by done. by rewrite IH, with_attributes_app.
Qed.

Definition remote_candidates_attributes (this : SalStreamDescription) : list belle_sdp_attribute :=
  match remote_candidates_text 0 (sd_ice_remote_candidates this) EmptyString with
  | Some value => attribute_if (negb (str_empty value)) "remote-candidates" (Some value)
  | None => []
  end.
Lemma write_remote_list this m :
  addIceRemoteCandidatesToSdp this m = with_attributes m (remote_candidates_attributes this).
Proof.
  unfold addIceRemoteCandidatesToSdp, remote_candidates_attributes.
  destruct (remote_candidates_text _ _ _); [by apply add_created_if|by rewrite with_attributes_nil].
Qed.

Definition ice_attributes (this : SalStreamDescription) : list belle_sdp_attribute :=
  if sd_ice_mismatch this then [RawAttribute "ice-mismatch" None]
  else if negb (sd_rtp_port this =? 0) then
    attribute_if (negb (str_empty (sd_ice_pwd this))) "ice-pwd" (Some (sd_ice_pwd this)) ++
    attribute_if (negb (str_empty (sd_ice_ufrag this))) "ice-ufrag" (Some (sd_ice_ufrag this)) ++
    candidate_attributes this ++ remote_candidates_attributes this
  else [].
Lemma write_ice_list this m : write_ice this m = with_attributes m (ice_attributes this).
Proof.
  unfold write_ice, ice_attributes, addIceCandidatesToSdp. cbv zeta.
  destruct (sd_ice_mismatch this); [by apply add_created_raw|].
  destruct (negb (sd_rtp_port this =? 0)); [|by rewrite with_attributes_nil].
  rewrite !add_created_if by done. rewrite add_candidates_list, write_remote_list.
  by rewrite !with_attributes_app.
Qed.

(** ** RTCP attributes, labels and custom attributes *)

Definition fb_if (b : bool) (a : belle_sdp_rtcp_fb_attribute) : list belle_sdp_attribute :=
  if b then [RtcpFbAttribute a] else [].
Definition new_fb (id : Z) (type : belle_sdp_rtcp_fb_val_type) (param : belle_sdp_rtcp_fb_val_param)
    : belle_sdp_rtcp_fb_attribute :=
  belle_sdp_rtcp_fb_attribute_new <| fb_id := id |> <| fb_type := type |> <| fb_param := param |>.
Definition new_trr_int (id trr_int : Z) : belle_sdp_rtcp_fb_attribute :=
  belle_sdp_rtcp_fb_attribute_new <| fb_id := id |> <| fb_type := BELLE_SDP_RTCP_FB_TRR_INT |>
    <| fb_trr_int := trr_int |>.
Definition new_goog_remb (id : Z) : belle_sdp_rtcp_fb_attribute :=
  belle_sdp_rtcp_fb_attribute_new <| fb_id := id |> <| fb_type := BELLE_SDP_RTCP_FB_GOOG_REMB |>.

Lemma add_fb_if (b : bool) m a :
  (if b then belle_sdp_media_description_add_attribute m (RtcpFbAttribute a) else m) = with_attributes m (fb_if b a).
Proof. destruct b; [done|by rewrite with_attributes_nil]. Qed.

Definition payload_feedback (general_trr_int : bool) (trr_int : Z) (pt : OrtpPayloadType)
    : list belle_sdp_attribute :=
  let id := i8 (number pt) in
  let has bit := has_bit (features (avpf pt)) bit in
  fb_if (negb general_trr_int && negb (trr_int =? 0)) (new_trr_int id (trr_interval (avpf pt))) ++
  fb_if (has avpf_pli_bit) (new_fb id BELLE_SDP_RTCP_FB_NACK BELLE_SDP_RTCP_FB_PLI) ++
  fb_if (has avpf_sli_bit) (new_fb id BELLE_SDP_RTCP_FB_NACK BELLE_SDP_RTCP_FB_SLI) ++
  fb_if (has avpf_rpsi_bit)
    (new_fb id (if rpsi_compatibility (avpf pt) then BELLE_SDP_RTCP_FB_NACK else BELLE_SDP_RTCP_FB_ACK)
       BELLE_SDP_RTCP_FB_RPSI) ++
  fb_if (has avpf_fir_bit) (new_fb id BELLE_SDP_RTCP_FB_CCM BELLE_SDP_RTCP_FB_FIR).

Lemma add_payload_feedback_list g trr m pt :
  add_payload_feedback g trr m pt = with_attributes m (payload_feedback g trr pt).
Proof.
  unfold add_payload_feedback, add_rtcp_fb_trr_int_attribute, add_rtcp_fb_nack_attribute, add_rtcp_fb_ack_attribute,
    add_rtcp_fb_ccm_attribute, add_rtcp_fb. cbv zeta.
  assert (E : forall m (b c : bool) a a',
    (if b then if c then belle_sdp_media_description_add_attribute m (RtcpFbAttribute a)
               else belle_sdp_media_description_add_attribute m (RtcpFbAttribute a') else m) =
    with_attributes m (fb_if b (if c then a else a'))).
  { intros m' [] [] a a'; [done..|by rewrite with_attributes_nil|by rewrite with_attributes_nil]. }
  rewrite E, !add_fb_if, !with_attributes_app. unfold payload_feedback. cbv zeta.
  by destruct (rpsi_compatibility (avpf pt)).
Qed.

Definition general_feedback (cfg : SalStreamConfiguration) : list belle_sdp_attribute :=
  let '(general_trr_int, trr_int) := isRtcpFbTrrIntTheSameForAllPayloads cfg 0 in
  fb_if (general_trr_int && negb (trr_int =? 0)) (new_trr_int (-1) trr_int) ++
  fb_if (generic_nack_enabled (cfg_rtcp_fb cfg)) (new_fb (-1) BELLE_SDP_RTCP_FB_NACK BELLE_SDP_RTCP_FB_NONE) ++
  fb_if (tmmbr_enabled (cfg_rtcp_fb cfg)) (new_fb (-1) BELLE_SDP_RTCP_FB_CCM BELLE_SDP_RTCP_FB_TMMBR) ++
  fb_if (goog_remb_enabled (cfg_rtcp_fb cfg)) (new_goog_remb (-1)).
Definition specific_feedback (cfg : SalStreamConfiguration) : list belle_sdp_attribute :=
  let '(general_trr_int, trr_int) := isRtcpFbTrrIntTheSameForAllPayloads cfg 0 in
  flat_map (payload_feedback general_trr_int trr_int) (cfg_payloads cfg).

Lemma write_feedback_list cfg m :
  addRtcpFbAttributesToSdp cfg m =
  (with_attributes m (general_feedback cfg ++ specific_feedback cfg), enable_feedback cfg).
Proof.
  unfold addRtcpFbAttributesToSdp, general_feedback, specific_feedback.
  destruct (isRtcpFbTrrIntTheSameForAllPayloads cfg 0) as [g trr].
  unfold add_rtcp_fb_trr_int_attribute, add_rtcp_fb_nack_attribute, add_rtcp_fb_ccm_attribute,
    add_rtcp_fb_goog_remb_attribute, add_rtcp_fb. cbv zeta.
  rewrite !add_fb_if, !with_attributes_app.
  rewrite (fold_with_attributes _ _ _ _ (add_payload_feedback_list g trr)), with_attributes_app.
  by rewrite <- !app_assoc.
Qed.

(** The configuration has feedback attributes on the line. *)
Definition writes_feedback (this : SalStreamDescription) : bool :=
  enabled this && (SalStreamConfiguration.hasAvpf (getActualConfiguration this)
                   || SalStreamConfiguration.hasImplicitAvpf (getActualConfiguration this)).
Definition feedback_attributes (this : SalStreamDescription) : list belle_sdp_attribute :=
  if writes_feedback this
  then general_feedback (getActualConfiguration this) ++ specific_feedback (getActualConfiguration this) else [].

Definition session_xr_text (session_desc : belle_sdp_session_description) : string :=
  match belle_sdp_session_description_get_attribute session_desc "rtcp-xr" with
  | Some session_attribute => belle_sip_object_marshal session_attribute
  | None => EmptyString
  end.
Definition rtcp_xr_attributes (cfg : SalStreamConfiguration) (stream_enabled : bool)
    (session_desc : belle_sdp_session_description) : list belle_sdp_attribute :=
  if stream_enabled && xr_enabled (cfg_rtcp_xr cfg)
     && negb (String.eqb (session_xr_text session_desc) (belle_sip_object_marshal (create_rtcp_xr_attribute (cfg_rtcp_xr cfg))))
  then [create_rtcp_xr_attribute (cfg_rtcp_xr cfg)] else [].
Lemma write_rtcp_xr_list cfg b s m : write_rtcp_xr cfg b s m = with_attributes m (rtcp_xr_attributes cfg b s).
Proof.
  unfold write_rtcp_xr, rtcp_xr_attributes, session_xr_text. cbv zeta.
  destruct (b && xr_enabled _); cbn [andb]; [|by rewrite with_attributes_nil].
  destruct (negb _); [done|by rewrite with_attributes_nil].
Qed.

Definition text_attributes (name value : string) : list belle_sdp_attribute :=
  attribute_if (negb (str_empty value)) name (Some value).
Lemma write_text_list name value m :
  in_names typed_names name = false -> write_text name value m = with_attributes m (text_attributes name value).
Proof. by apply add_created_if. Qed.

Definition created_attributes (a : string * option string) : list belle_sdp_attribute :=
  match belle_sdp_attribute_create (fst a) (snd a) with
  | Some attr => [attr]
  | None => []
  end.
Definition custom_attributes (custom : SalCustomSdpAttribute) : list belle_sdp_attribute :=
  flat_map created_attributes (default [] custom).
Lemma write_custom_list custom m : write_custom custom m = with_attributes m (custom_attributes custom).
Proof.
  apply fold_with_attributes. intros m' a. unfold add_created, created_attributes.
  destruct (belle_sdp_attribute_create _ _); [done|by rewrite with_attributes_nil].
Qed.

(** ** The whole line *)

(** The attributes after those of the mime parameters. *)
Definition line_attributes (this : SalStreamDescription) (session_desc : belle_sdp_session_description)
    : list belle_sdp_attribute :=
  let cfg := getActualConfiguration this in
  crypto_attributes cfg ++ setup_attributes cfg ++ fingerprint_attributes cfg ++
  attribute_if ((cfg_haveZrtpHash cfg =? 1) && negb (str_empty (cfg_zrtphash cfg))) "zrtp-hash" (Some (cfg_zrtphash cfg)) ++
  direction_attributes (cfg_dir cfg) ++
  attribute_if (cfg_rtcp_mux cfg) "rtcp-mux" None ++
  mid_attributes cfg ++
  extension_attribute (cfg_mid_rtp_ext_header_id cfg) "urn:ietf:params:rtp-hdrext:sdes:mid" ++
  bundle_only_attributes cfg ++
  extension_attributes cfg ++ ssrc_attributes cfg ++ rtcp_attributes this ++
  attribute_if (cfg_set_nortpproxy cfg) "nortpproxy" (Some "yes") ++
  ice_attributes this ++ feedback_attributes this ++
  rtcp_xr_attributes cfg (enabled this) session_desc ++
  text_attributes "label" (sd_label this) ++ text_attributes "content" (sd_content this) ++
  custom_attributes (sd_custom_sdp_attributes this).

Lemma write_actual_list this m :
  write_actual this m = with_attributes m (
    let cfg := getActualConfiguration this in
    crypto_attributes cfg ++ setup_attributes cfg ++ fingerprint_attributes cfg ++
    attribute_if ((cfg_haveZrtpHash cfg =? 1) && negb (str_empty (cfg_zrtphash cfg))) "zrtp-hash" (Some (cfg_zrtphash cfg)) ++
    direction_attributes (cfg_dir cfg) ++
    attribute_if (cfg_rtcp_mux cfg) "rtcp-mux" None ++
    mid_attributes cfg ++
    extension_attribute (cfg_mid_rtp_ext_header_id cfg) "urn:ietf:params:rtp-hdrext:sdes:mid" ++
    bundle_only_attributes cfg ++
    extension_attributes cfg ++ ssrc_attributes cfg ++ rtcp_attributes this ++
    attribute_if (cfg_set_nortpproxy cfg) "nortpproxy" (Some "yes") ++ ice_attributes this).
Proof.
  unfold write_actual, write_zrtp_hash, write_rtcp_mux, write_nortpproxy. cbv zeta.
  rewrite write_cryptos_list, write_dtls_list, write_direction_list, write_mid_list, write_extensions_list,
    write_ssrc_list, write_rtcp_list, write_ice_list.
  rewrite !add_created_if by done. rewrite !with_attributes_app. by rewrite <- !app_assoc.
Qed.

(** The mime parameter of a payload type. *)
Definition mime_of_payload (ptime : Z) (pt : OrtpPayloadType) : belle_sdp_mime_parameter :=
  mkMimeParameter (mime_type pt) (number pt) (clock_rate pt)
    (if 0 <? channels pt then channels pt else -1) (recv_fmtp pt)
    (if 0 <? ptime then ptime else mime_ptime_unset) mime_max_ptime_unset.

Lemma append_mimes_frame ps m :
  exists formats attrs,
    fold_left belle_sdp_media_description_append_values_from_mime_parameter ps m =
      m <| media_formats := formats |> <| media_attributes := media_attributes m ++ attrs |> /\
    Forall (fun a => is_mime_attribute a = true) attrs.
Proof.
  revert m. induction ps as [|p ps IH]; intros m; cbn [fold_left].
  - exists (media_formats m), []. split; [destruct m; simpl; by rewrite app_nil_r|constructor].
  - destruct (append_mime_frame m p) as (f1 & a1 & H1 & Hf1).
    destruct (IH (belle_sdp_media_description_append_values_from_mime_parameter m p)) as (f2 & a2 & H2 & Hf2).
    exists f2, (a1 ++ a2). split; [|by apply Forall_app]. rewrite H2, H1. destruct m. simpl. by rewrite app_assoc.
Qed.

(** The line before its other attributes: its payload types and connection. *)
Definition payload_line (this : SalStreamDescription) : belle_sdp_media_description :=
  write_payloads (getActualConfiguration this)
    (belle_sdp_media_description_create (getTypeAsString this) (sd_rtp_port this) 1
       (SalStreamDescription.getProtoAsString this)).

Lemma payload_line_fold this :
  cfg_payloads (getActualConfiguration this) <> [] ->
  payload_line this =
  fold_left belle_sdp_media_description_append_values_from_mime_parameter
    (map (mime_of_payload (cfg_ptime (getActualConfiguration this))) (cfg_payloads (getActualConfiguration this)))
    (belle_sdp_media_description_create (getTypeAsString this) (sd_rtp_port this) 1
       (SalStreamDescription.getProtoAsString this)).
Proof.
  intros H. unfold payload_line, write_payloads. destruct (cfg_payloads _) as [|pt l]; [done|].
  cbn [is_nil negb]. generalize (pt :: l) as ps. intros ps.
  generalize (belle_sdp_media_description_create (getTypeAsString this) (sd_rtp_port this) 1
       (SalStreamDescription.getProtoAsString this)) as m.
  induction ps as [|q ps IH]; intros m; [done|]. cbn [map fold_left]. apply IH.
Qed.

Lemma payload_line_frame this :
  exists formats attrs,
    payload_line this =
      (belle_sdp_media_description_create (getTypeAsString this) (sd_rtp_port this) 1
         (SalStreamDescription.getProtoAsString this)) <| media_formats := formats |> <| media_attributes := attrs |> /\
    Forall (fun a => is_mime_attribute a = true) attrs.
Proof.
  destruct (cfg_payloads (getActualConfiguration this)) as [|pt l] eqn:E.
  - exists [0], []. unfold payload_line, write_payloads. rewrite E. done.
  - rewrite payload_line_fold by by rewrite E. apply (append_mimes_frame _ (belle_sdp_media_description_create _ _ _ _)).
Qed.

(** The connection the line has. *)
Definition line_connection (this : SalStreamDescription) (salMediaDesc : SalMediaDescription)
    : option belle_sdp_connection :=
  if negb (str_empty (sd_rtp_addr this)) && negb (String.eqb (sd_rtp_addr this) (md_addr salMediaDesc)) then
    let inet6 := str_has ":" (sd_rtp_addr this) in
    let connection := belle_sdp_connection_create (if inet6 then "IP6" else "IP4") (sd_rtp_addr this) in
    Some (if ms_is_multicast (sd_rtp_addr this) && negb inet6
          then connection <| cnx_ttl := cfg_ttl (getActualConfiguration this) |> else connection)
  else None.
Definition line_session (this : SalStreamDescription) (salMediaDesc : SalMediaDescription)
    (session_desc : belle_sdp_session_description) : belle_sdp_session_description :=
  if negb (str_empty (sd_rtp_addr this)) && negb (String.eqb (sd_rtp_addr this) (md_addr salMediaDesc))
     && ms_is_multicast (sd_rtp_addr this)
  then session_desc <| session_connection := None |> else session_desc.

Lemma line_session_attributes this md s : session_attributes (line_session this md s) = session_attributes s.
Proof. unfold line_session. by destruct (_ && _ && _). Qed.

(** What the call writes, when capability negotiation is off. *)
Definition written_line (this : SalStreamDescription) (salMediaDesc : SalMediaDescription)
    (session_desc : belle_sdp_session_description) : belle_sdp_media_description :=
  with_attributes
    ((payload_line this)
     <| media_connection := line_connection this salMediaDesc |>
     <| media_bandwidth := if 0 <? sd_bandwidth this then Some (sd_bandwidth this) else None |>)
    (line_attributes this session_desc).

Lemma write_connection_line this md m s :
  media_connection m = None ->
  write_connection this md (m, s) = (m <| media_connection := line_connection this md |>, line_session this md s).
Proof.
  intros Hm. unfold write_connection, line_connection, line_session.
  destruct (negb (str_empty (sd_rtp_addr this)) && _); cbv zeta.
  - destruct (ms_is_multicast (sd_rtp_addr this)); [|done]. by destruct (str_has ":" (sd_rtp_addr this)).
  - destruct m. simpl in *. by rewrite Hm.
Qed.

Lemma feedback_step this m :
  (if writes_feedback this
   then addRtcpFbAttributesToSdp (getActualConfiguration this) m else (m, getActualConfiguration this)) =
  (with_attributes m (feedback_attributes this),
   if writes_feedback this then enable_feedback (getActualConfiguration this) else getActualConfiguration this).
Proof.
  unfold feedback_attributes. destruct (writes_feedback this); [apply write_feedback_list|by rewrite with_attributes_nil].
Qed.

Lemma enable_feedback_xr (b : bool) cfg :
  cfg_rtcp_xr (if b then enable_feedback cfg else cfg) = cfg_rtcp_xr cfg.
Proof. by destruct b. Qed.

Lemma toSdpMediaDescription_line this salMediaDesc session_desc :
  capabilityNegotiationSupported (md_params salMediaDesc) = false ->
  (toSdpMediaDescription this salMediaDesc session_desc).1 =
    (written_line this salMediaDesc session_desc, line_session this salMediaDesc session_desc).
Proof.
  intros Hc. unfold toSdpMediaDescription, write_capabilities. rewrite Hc. cbv zeta.
  fold (payload_line this). destruct (payload_line_frame this) as (formats & attrs & Hp & _).
  rewrite write_connection_line by by rewrite Hp. fold (writes_feedback this).
  rewrite feedback_step. cbn [fst].
  rewrite write_custom_list, !write_text_list, write_rtcp_xr_list, write_actual_list by done.
  rewrite !with_attributes_app. f_equal. unfold written_line. f_equal.
  - rewrite Hp. by destruct (0 <? sd_bandwidth this).
  - unfold line_attributes. cbv zeta. rewrite <- !app_assoc. do 15 f_equal. f_equal.
    + unfold rtcp_xr_attributes, session_xr_text, belle_sdp_session_description_get_attribute.
      by rewrite enable_feedback_xr, line_session_attributes.
    + by destruct (hasConfigurationAtIndex this actualConfigurationIndex).
Qed.
End Written.
