(* ===== verification/FeedbackAttributes.v ===== *)
(** The RTCP attributes of a media line: the feedback parameters of the payload
    types and the extended reports are read back from what is written. *)
From S2P Require Import Prelude Sscanf SalTypes Payload SalStreamConfiguration PotentialCfgGraph SalStreamBundle SalStreamDescription SalMediaDescription SdpObjects SalSdp StreamSdpReader StreamSdpWriter IceAttributes WrittenLine.

(** ** What one feedback attribute changes *)

Section Feedback.
Context {lib : MediaLib} {sdp : SdpLib} {ortp : OrtpRtcp}.

(** The feedback parameters of a payload type and those of the configuration
    after [applyRtcpFbAttributeToPayload]. *)
Definition avpf_after (fb : belle_sdp_rtcp_fb_attribute) (av : PayloadTypeAvpfParams) : PayloadTypeAvpfParams :=
  let feature bit := av <| features := set_bit (features av) bit |> in
  match fb_type fb, fb_param fb with
  | BELLE_SDP_RTCP_FB_ACK, BELLE_SDP_RTCP_FB_RPSI => feature avpf_rpsi_bit
  | BELLE_SDP_RTCP_FB_NACK, BELLE_SDP_RTCP_FB_PLI => feature avpf_pli_bit
  | BELLE_SDP_RTCP_FB_NACK, BELLE_SDP_RTCP_FB_SLI => feature avpf_sli_bit
  | BELLE_SDP_RTCP_FB_NACK, BELLE_SDP_RTCP_FB_RPSI => (feature avpf_rpsi_bit) <| rpsi_compatibility := true |>
  | BELLE_SDP_RTCP_FB_TRR_INT, _ => av <| trr_interval := fb_trr_int fb |>
  | BELLE_SDP_RTCP_FB_CCM, BELLE_SDP_RTCP_FB_FIR => feature avpf_fir_bit
  | _, _ => av
  end.
Definition rtcp_fb_after (fb : belle_sdp_rtcp_fb_attribute) (c : OrtpRtcpFbConfiguration) : OrtpRtcpFbConfiguration :=
  match fb_type fb, fb_param fb with
  | BELLE_SDP_RTCP_FB_NACK, BELLE_SDP_RTCP_FB_NONE => c <| generic_nack_enabled := true |>
  | BELLE_SDP_RTCP_FB_CCM, BELLE_SDP_RTCP_FB_TMMBR => c <| tmmbr_enabled := true |>
  | BELLE_SDP_RTCP_FB_GOOG_REMB, _ => c <| goog_remb_enabled := true |>
  | _, _ => c
  end.

Definition with_avpf (f : PayloadTypeAvpfParams -> PayloadTypeAvpfParams) (pt : OrtpPayloadType) : OrtpPayloadType :=
  pt <| avpf := f (avpf pt) |>.

Lemma apply_fb_eq cfg fb pt :
  applyRtcpFbAttributeToPayload cfg fb pt =
  (cfg <| cfg_rtcp_fb := rtcp_fb_after fb (cfg_rtcp_fb cfg) |>, with_avpf (avpf_after fb) pt).
Proof.
  assert (E : cfg <| cfg_rtcp_fb := cfg_rtcp_fb cfg |> = cfg) by by destruct cfg.
  unfold applyRtcpFbAttributeToPayload, rtcp_fb_after, avpf_after, with_avpf.
  destruct (fb_type fb), (fb_param fb); rewrite ?E; reflexivity.
Qed.

Lemma rtcp_fb_after_idem fb c : rtcp_fb_after fb (rtcp_fb_after fb c) = rtcp_fb_after fb c.
Proof. unfold rtcp_fb_after. by destruct (fb_type fb), (fb_param fb). Qed.

Definition on_payload (p : OrtpPayloadType -> bool) (fb : belle_sdp_rtcp_fb_attribute) (pt : OrtpPayloadType)
    : OrtpPayloadType := if p pt then with_avpf (avpf_after fb) pt else pt.

Lemma apply_to_payloads_eq p fb cfg :
  apply_to_payloads p fb cfg =
  cfg <| cfg_rtcp_fb := if existsb p (cfg_payloads cfg) then rtcp_fb_after fb (cfg_rtcp_fb cfg) else cfg_rtcp_fb cfg |>
      <| cfg_payloads := map (on_payload p fb) (cfg_payloads cfg) |>.
Proof.
  unfold apply_to_payloads.
  assert (G : forall l c acc,
    fold_left (fun '(cfg, payloads) pt =>
      if p pt then let '(cfg, pt) := applyRtcpFbAttributeToPayload cfg fb pt in (cfg, payloads ++ [pt])
      else (cfg, payloads ++ [pt])) l (c, acc) =
    (c <| cfg_rtcp_fb := if existsb p l then rtcp_fb_after fb (cfg_rtcp_fb c) else cfg_rtcp_fb c |>,
     acc ++ map (on_payload p fb) l)).
  { induction l as [|pt l IH]; intros c acc; cbn [fold_left existsb map].
    - rewrite app_nil_r. by destruct c.
    - unfold on_payload at 1. destruct (p pt); [rewrite apply_fb_eq|]; rewrite IH; cbn [orb].
      + change (cfg_rtcp_fb (c <| cfg_rtcp_fb := ?x |>)) with x. rewrite rtcp_fb_after_idem.
        rewrite <- app_assoc. by destruct (existsb p l).
      + by rewrite <- app_assoc. }
  rewrite G. reflexivity.
Qed.

(** ** What the two loops do *)

Definition as_fb (a : belle_sdp_attribute) : option belle_sdp_rtcp_fb_attribute :=
  match a with
  | RtcpFbAttribute fb => Some fb
  | _ => None
  end.

Definition is_general (fb : belle_sdp_rtcp_fb_attribute) : bool := fb_id fb =? -1.
Definition applies_to (fb : belle_sdp_rtcp_fb_attribute) (pt : OrtpPayloadType) : bool := number pt =? fb_id fb.

(** The parameters of one payload type after both loops. *)
Definition general_avpf (l : list belle_sdp_rtcp_fb_attribute) (pt : OrtpPayloadType) : OrtpPayloadType :=
  fold_left (fun pt fb => on_payload (fun _ => true) fb pt) (List.filter is_general l) pt.
Definition specific_avpf (l : list belle_sdp_rtcp_fb_attribute) (pt : OrtpPayloadType) : OrtpPayloadType :=
  fold_left (fun pt fb => on_payload (applies_to fb) fb pt) l pt.

Lemma map_payloads_length (f : OrtpPayloadType -> OrtpPayloadType) l : is_nil (map f l) = is_nil l.
Proof. by destruct l. Qed.

Lemma general_loop l cfg b :
  cfg_payloads cfg <> [] ->
  fold_left read_general_fb (map RtcpFbAttribute l) (cfg, b) =
  (cfg <| cfg_rtcp_fb := fold_left (fun c fb => rtcp_fb_after fb c) (List.filter is_general l) (cfg_rtcp_fb cfg) |>
       <| cfg_payloads := map (general_avpf l) (cfg_payloads cfg) |>,
   b || existsb is_general l).
Proof.
  unfold general_avpf.
  revert cfg b. induction l as [|fb l IH]; intros cfg b Hne; cbn [map fold_left List.filter existsb].
  { rewrite orb_false_r, map_id. by destruct cfg. }
  unfold read_general_fb at 2. cbn [fst snd]. fold (is_general fb). destruct (is_general fb) eqn:E; [|by apply IH].
  rewrite apply_to_payloads_eq. destruct (cfg_payloads cfg) as [|pt ps] eqn:Ep; [done|].
  cbn [existsb is_nil negb orb]. rewrite IH by done. rewrite !orb_true_r. cbn [fold_left].
  f_equal. cbn [cfg_payloads cfg_rtcp_fb update]. cbn. rewrite map_map. done.
Qed.

Lemma specific_loop l cfg b :
  cfg_payloads cfg <> [] ->
  fold_left read_specific_fb (map RtcpFbAttribute l) (cfg, b) =
  (cfg <| cfg_rtcp_fb := fold_left (fun c fb =>
            if existsb (applies_to fb) (cfg_payloads cfg) then rtcp_fb_after fb c else c) l (cfg_rtcp_fb cfg) |>
       <| cfg_payloads := map (specific_avpf l) (cfg_payloads cfg) |>,
   b || negb (is_nil l)).
Proof.
  unfold specific_avpf.
  revert cfg b. induction l as [|fb l IH]; intros cfg b Hne; cbn [map fold_left is_nil negb].
  { rewrite orb_false_r, map_id. by destruct cfg. }
  unfold read_specific_fb at 2. cbn [fst snd]. rewrite apply_to_payloads_eq.
  rewrite IH; [|cbn; by destruct (cfg_payloads cfg)].
  assert (Hn : is_nil (cfg_payloads cfg) = false) by by destruct (cfg_payloads cfg).
  rewrite Hn. cbn [negb]. rewrite !orb_true_r. f_equal. cbn. rewrite map_map.
  assert (Hx : forall fb', existsb (applies_to fb') (map (on_payload (fun pt => number pt =? fb_id fb) fb) (cfg_payloads cfg)) =
    existsb (applies_to fb') (cfg_payloads cfg)).
  { intros fb'. generalize (cfg_payloads cfg) as ps. induction ps as [|q ps IHp]; [done|]. cbn. rewrite IHp. f_equal.
    unfold on_payload. by destruct (number q =? fb_id fb). }
  assert (Hf : forall c, fold_left (fun c fb' =>
      if existsb (applies_to fb') (map (on_payload (fun pt => number pt =? fb_id fb) fb) (cfg_payloads cfg))
      then rtcp_fb_after fb' c else c) l c =
    fold_left (fun c fb' => if existsb (applies_to fb') (cfg_payloads cfg) then rtcp_fb_after fb' c else c) l c).
  { clear -Hx. induction l as [|x l IH]; intros c; [done|]. cbn [fold_left]. by rewrite Hx, IH. }
  by rewrite Hf.
Qed.

(** ** Reading what was written *)

Definition raw_fb (b : bool) (a : belle_sdp_rtcp_fb_attribute) : list belle_sdp_rtcp_fb_attribute :=
  if b then [a] else [].
Lemma fb_if_raw b a : fb_if b a = map RtcpFbAttribute (raw_fb b a).
Proof. by destruct b. Qed.

Definition general_raw (c : OrtpRtcpFbConfiguration) (g : bool) (t : Z) : list belle_sdp_rtcp_fb_attribute :=
  raw_fb (g && negb (t =? 0)) (new_trr_int (-1) t) ++
  raw_fb (generic_nack_enabled c) (new_fb (-1) BELLE_SDP_RTCP_FB_NACK BELLE_SDP_RTCP_FB_NONE) ++
  raw_fb (tmmbr_enabled c) (new_fb (-1) BELLE_SDP_RTCP_FB_CCM BELLE_SDP_RTCP_FB_TMMBR) ++
  raw_fb (goog_remb_enabled c) (new_goog_remb (-1)).
Definition payload_raw (g : bool) (t : Z) (pt : OrtpPayloadType) : list belle_sdp_rtcp_fb_attribute :=
  let id := i8 (number pt) in
  let has bit := has_bit (features (avpf pt)) bit in
  raw_fb (negb g && negb (t =? 0)) (new_trr_int id (trr_interval (avpf pt))) ++
  raw_fb (has avpf_pli_bit) (new_fb id BELLE_SDP_RTCP_FB_NACK BELLE_SDP_RTCP_FB_PLI) ++
  raw_fb (has avpf_sli_bit) (new_fb id BELLE_SDP_RTCP_FB_NACK BELLE_SDP_RTCP_FB_SLI) ++
  raw_fb (has avpf_rpsi_bit)
    (new_fb id (if rpsi_compatibility (avpf pt) then BELLE_SDP_RTCP_FB_NACK else BELLE_SDP_RTCP_FB_ACK)
       BELLE_SDP_RTCP_FB_RPSI) ++
  raw_fb (has avpf_fir_bit) (new_fb id BELLE_SDP_RTCP_FB_CCM BELLE_SDP_RTCP_FB_FIR).
Definition feedback_raw (cfg : SalStreamConfiguration) : list belle_sdp_rtcp_fb_attribute :=
  let '(g, t) := isRtcpFbTrrIntTheSameForAllPayloads cfg 0 in
  general_raw (cfg_rtcp_fb cfg) g t ++ flat_map (payload_raw g t) (cfg_payloads cfg).

Lemma feedback_is_raw cfg : general_feedback cfg ++ specific_feedback cfg = map RtcpFbAttribute (feedback_raw cfg).
Proof.
  unfold general_feedback, specific_feedback, feedback_raw.
  destruct (isRtcpFbTrrIntTheSameForAllPayloads cfg 0) as [g t]. rewrite map_app. f_equal.
  - unfold general_raw. rewrite !fb_if_raw, <- !map_app. done.
  - induction (cfg_payloads cfg) as [|p ps IH]; [done|]. cbn [flat_map]. rewrite map_app, IH. f_equal.
    unfold payload_feedback, payload_raw. cbv zeta. by rewrite !fb_if_raw, <- !map_app.
Qed.

(** The ids: [-1] for all payload types, a payload number otherwise. *)
Lemma general_raw_ids c g t : Forall (fun fb => is_general fb = true) (general_raw c g t).
Proof.
  unfold general_raw, raw_fb. rewrite !Forall_app.
  repeat split; match goal with |- context [if ?b then _ else _] => destruct b end; repeat constructor.
Qed.
Lemma payload_raw_ids g t p :
  0 <= number p < 128 -> Forall (fun fb => fb_id fb = number p) (payload_raw g t p).
Proof.
  intros Hn. assert (Hi : i8 (number p) = number p) by (unfold i8; rewrite Z.mod_small by lia; lia).
  unfold payload_raw. cbv zeta. rewrite Hi. unfold raw_fb. rewrite !Forall_app.
  repeat split; match goal with |- context [if ?b then _ else []] => destruct b end; repeat constructor.
Qed.

Lemma filter_all {A} (f : A -> bool) l : Forall (fun x => f x = true) l -> List.filter f l = l.
Proof. induction 1 as [|x l Hx _ IH]; [done|]. cbn. by rewrite Hx, IH. Qed.
Lemma filter_none {A} (f : A -> bool) l : Forall (fun x => f x = false) l -> List.filter f l = [].
Proof. induction 1 as [|x l Hx _ IH]; [done|]. cbn. by rewrite Hx, IH. Qed.

Lemma specific_raw_not_general g t ps :
  Forall (fun p => 0 <= number p < 128) ps ->
  Forall (fun fb => is_general fb = false) (flat_map (payload_raw g t) ps).
Proof.
  induction 1 as [|p ps Hp _ IH]; [constructor|]. cbn [flat_map]. apply Forall_app. split; [|exact IH].
  eapply List.Forall_impl; [|by apply payload_raw_ids]. intros fb Hf. simpl in *. unfold is_general. apply Z.eqb_neq. lia.
Qed.

(** A payload type only sees the attributes of its number. *)
Lemma specific_avpf_skip l q :
  Forall (fun fb => fb_id fb <> number q) l -> specific_avpf l q = q.
Proof.
  induction 1 as [|fb l Hf _ IH]; [done|]. unfold specific_avpf in *. cbn [fold_left].
  unfold on_payload at 2, applies_to. rewrite (proj2 (Z.eqb_neq _ _)) by done. exact IH.
Qed.
Lemma specific_avpf_app l1 l2 q : specific_avpf (l1 ++ l2) q = specific_avpf l2 (specific_avpf l1 q).
Proof. apply fold_left_app. Qed.
Lemma specific_avpf_number l q : number (specific_avpf l q) = number q.
Proof.
  unfold specific_avpf. revert q. induction l as [|fb l IH]; intros q; [done|]. cbn [fold_left]. rewrite IH.
  unfold on_payload. by destruct (applies_to fb q).
Qed.

Lemma specific_avpf_own g t ps p q :
  Forall (fun p => 0 <= number p < 128) ps -> List.NoDup (map number ps) -> In p ps -> number q = number p ->
  specific_avpf (flat_map (payload_raw g t) ps) q = specific_avpf (payload_raw g t p) q.
Proof.
  intros Hr. revert q. induction Hr as [|a ps Ha Hr IH]; intros q Hd Hin Hq; [done|].
  cbn [flat_map map] in *. apply NoDup_cons_iff in Hd as [Hna Hd]. rewrite specific_avpf_app.
  assert (Hskip : forall r, ~ In (number r) (map number ps) ->
    specific_avpf (flat_map (payload_raw g t) ps) r = r).
  { intros r Hn. apply specific_avpf_skip. rewrite List.Forall_forall. intros fb Hfb.
    apply in_flat_map in Hfb as (b & Hb & Hfb). rewrite List.Forall_forall in Hr.
    pose proof (payload_raw_ids g t b (Hr b Hb)) as Hi. rewrite List.Forall_forall in Hi. rewrite (Hi fb Hfb).
    intros He. apply Hn. rewrite <- He. by apply in_map. }
  destruct Hin as [->|Hin].
  - apply Hskip. by rewrite specific_avpf_number, Hq.
  - rewrite (specific_avpf_skip (payload_raw g t a)); [by apply IH|].
    eapply List.Forall_impl; [|by apply payload_raw_ids]. intros fb -> He. apply Hna. rewrite He, Hq. by apply in_map.
Qed.

(** ** The feedback parameters read back *)

Definition set_if (b : bool) (bit mask : Z) : Z := if b then set_bit mask bit else mask.

Lemma specific_avpf_all l q :
  Forall (fun fb => fb_id fb = number q) l ->
  specific_avpf l q = with_avpf (fun av => fold_left (fun av fb => avpf_after fb av) l av) q.
Proof.
  revert q. induction l as [|fb l IH]; intros q Hl; [by destruct q|]. inversion Hl as [|? ? Hf Hl']; subst.
  unfold specific_avpf. cbn [fold_left]. fold (specific_avpf l (on_payload (applies_to fb) fb q)).
  unfold on_payload, applies_to. rewrite Hf, Z.eqb_refl. by rewrite IH.
Qed.

Lemma payload_raw_avpf g t p av :
  let has bit := has_bit (features (avpf p)) bit in
  fold_left (fun av fb => avpf_after fb av) (payload_raw g t p) av =
  mkAvpf (set_if (has avpf_fir_bit) avpf_fir_bit (set_if (has avpf_rpsi_bit) avpf_rpsi_bit
           (set_if (has avpf_sli_bit) avpf_sli_bit (set_if (has avpf_pli_bit) avpf_pli_bit (features av)))))
    (rpsi_compatibility av || (has avpf_rpsi_bit && rpsi_compatibility (avpf p)))
    (if negb g && negb (t =? 0) then trr_interval (avpf p) else trr_interval av).
Proof.
  cbv zeta. unfold payload_raw. cbv zeta. destruct av as [f c r].
  destruct (negb g && negb (t =? 0)), (has_bit _ avpf_pli_bit), (has_bit _ avpf_sli_bit), (has_bit _ avpf_rpsi_bit),
    (has_bit _ avpf_fir_bit), (rpsi_compatibility (avpf p)), c; reflexivity.
Qed.

Lemma general_raw_avpf c g t pt :
  fold_left (fun pt fb => on_payload (fun _ => true) fb pt) (general_raw c g t) pt =
  if g && negb (t =? 0) then with_avpf (fun av => av <| trr_interval := t |>) pt else pt.
Proof.
  destruct pt. unfold general_raw.
  destruct (g && negb (t =? 0)), (generic_nack_enabled c), (tmmbr_enabled c), (goog_remb_enabled c);
    reflexivity.
Qed.

Lemma general_raw_config c g t :
  fold_left (fun c fb => rtcp_fb_after fb c) (general_raw c g t) rtcp_fb_default = c.
Proof.
  unfold general_raw. destruct c as [n m r], (g && negb (t =? 0)), n, m, r; reflexivity.
Qed.

Lemma payload_raw_config g t ps l c :
  fold_left (fun c fb => if existsb (applies_to fb) l then rtcp_fb_after fb c else c)
    (flat_map (payload_raw g t) ps) c = c.
Proof.
  assert (G : forall fb, In fb (flat_map (payload_raw g t) ps) -> forall c, rtcp_fb_after fb c = c).
  { intros fb Hin c'. apply in_flat_map in Hin as (p & _ & Hin). unfold payload_raw in Hin. cbv zeta in Hin.
    repeat apply in_app_or in Hin as [Hin|Hin];
      unfold raw_fb in Hin; match type of Hin with context [if ?b then [_] else []] => destruct b end;
      repeat destruct Hin as [<-|Hin]; try destruct Hin; try reflexivity.
    by destruct (rpsi_compatibility (avpf p)). }
  revert c G. generalize (flat_map (payload_raw g t) ps) as fbs. intros fbs. induction fbs as [|fb fbs IH]; intros c G; [done|].
  cbn [fold_left]. rewrite (G fb) by by left. assert (E : (if existsb (applies_to fb) l then c else c) = c) by by destruct (existsb _ _).
  rewrite E. apply IH. intros fb' Hin. apply G. by right.
Qed.

(** The interval of the writer, for payload types on which feedback is enabled. *)
Lemma trr_int_same cfg :
  Forall (fun p => has_flag PAYLOAD_TYPE_RTCP_FEEDBACK_ENABLED p = true) (cfg_payloads cfg) ->
  match cfg_payloads cfg with
  | [] => isRtcpFbTrrIntTheSameForAllPayloads cfg 0 = (true, 0)
  | p :: ps =>
      (isRtcpFbTrrIntTheSameForAllPayloads cfg 0).2 = trr_interval (avpf p) /\
      ((isRtcpFbTrrIntTheSameForAllPayloads cfg 0).1 = true ->
       Forall (fun q => trr_interval (avpf q) = trr_interval (avpf p)) ps)
  end.
Proof.
  unfold isRtcpFbTrrIntTheSameForAllPayloads. destruct (cfg_payloads cfg) as [|p ps]; [done|].
  intros Hf. inversion Hf as [|? ? Hp Hps]; subst. rewrite Hp. clear Hf Hp.
  induction Hps as [|q ps Hq Hps IH]; [by split|]. rewrite Hq.
  destruct (Z.eqb_spec (trr_interval (avpf q)) (trr_interval (avpf p))) as [E|E]; cbn [negb].
  - destruct IH as [IH1 IH2]. split; [exact IH1|]. intros H. constructor; [done|]. by apply IH2.
  - split; [done|]. intros H. discriminate.
Qed.

(** What is read of the feedback parameters of a payload type. *)
Definition avpf_features : list Z := [avpf_fir_bit; avpf_pli_bit; avpf_sli_bit; avpf_rpsi_bit].
Definition same_feedback (written read : PayloadTypeAvpfParams) : Prop :=
  (forall b, In b avpf_features -> has_bit (features read) b = has_bit (features written) b) /\
  rpsi_compatibility read = has_bit (features written) avpf_rpsi_bit && rpsi_compatibility written /\
  trr_interval read = trr_interval written.

Lemma has_set_if m (b : bool) bit bit' :
  0 <= bit -> 0 <= bit' -> has_bit (set_if b bit m) bit' = has_bit m bit' || (b && (bit =? bit')).
Proof.
  intros Hb Hb'. unfold set_if, has_bit, set_bit. destruct b; [|by rewrite orb_false_r].
  by rewrite Z.lor_spec, Z.shiftl_1_l, Z.pow2_bits_eqb.
Qed.

Lemma written_features (has : Z -> bool) {ospec : OrtpRtcpSpec ortp} b :
  In b avpf_features ->
  has_bit (set_if (has avpf_fir_bit) avpf_fir_bit (set_if (has avpf_rpsi_bit) avpf_rpsi_bit
           (set_if (has avpf_sli_bit) avpf_sli_bit (set_if (has avpf_pli_bit) avpf_pli_bit 0)))) b = has b.
Proof.
  intros Hb. pose proof avpf_bits_distinct as Hd. pose proof avpf_bits_range as Hr. fold avpf_features in Hr.
  rewrite List.Forall_forall in Hr. pose proof (Hr _ Hb).
  assert (Hr' : forall x, In x avpf_features -> 0 <= x) by (intros x Hx; apply Hr in Hx; lia).
  rewrite !has_set_if by (lia || apply Hr'; unfold avpf_features; simpl; tauto).
  replace (has_bit 0 b) with false by (unfold has_bit; by rewrite Z.bits_0).
  rewrite !NoDup_cons_iff in Hd. simpl in Hd.
  assert (E : forall x y, (x =? y) = false <-> x <> y) by apply Z.eqb_neq.
  destruct Hb as [<-|[<-|[<-|[<-|[]]]]]; rewrite Z.eqb_refl;
    repeat match goal with |- context [?x =? ?y] => rewrite (proj2 (E x y)) by (intuition congruence) end;
    by rewrite ?andb_false_r, ?andb_true_r, ?orb_false_r.
Qed.

(** A configuration whose feedback can be read back: the numbers are distinct
    and fit in an [int8_t], feedback is enabled on every payload type, and the
    regular interval of the first one is not zero, or all are. *)
Record feedback_ok (cfg : SalStreamConfiguration) : Prop := {
  fo_payloads : cfg_payloads cfg <> [];
  fo_range : Forall (fun p => 0 <= number p < 128) (cfg_payloads cfg);
  fo_distinct : List.NoDup (map number (cfg_payloads cfg));
  fo_enabled : Forall (fun p => has_flag PAYLOAD_TYPE_RTCP_FEEDBACK_ENABLED p = true) (cfg_payloads cfg);
  fo_trr : match cfg_payloads cfg with
    | p :: ps => trr_interval (avpf p) <> 0 \/ Forall (fun q => trr_interval (avpf q) = 0) ps
    | [] => True
    end
}.

(** A payload type as it is read before its feedback parameters. *)
Definition unset_feedback (p q : OrtpPayloadType) : Prop := number q = number p /\ avpf q = mkAvpf 0 false 0.
Definition feedback_read (p q q' : OrtpPayloadType) : Prop :=
  same_feedback (avpf p) (avpf q') /\ q' = q <| avpf := avpf q' |>.

Lemma read_one_payload {ospec : OrtpRtcpSpec ortp} cfg p q :
  feedback_ok cfg -> In p (cfg_payloads cfg) -> unset_feedback p q ->
  feedback_read p q (specific_avpf (feedback_raw cfg) (general_avpf (feedback_raw cfg) q)).
Proof.
  intros Hok Hin [Hn Hav]. pose proof (trr_int_same cfg (fo_enabled cfg Hok)) as Ht. pose proof (fo_trr cfg Hok) as Htr.
  pose proof (fo_range cfg Hok) as Hr. pose proof (fo_distinct cfg Hok) as Hd.
  unfold feedback_raw, general_avpf. destruct (isRtcpFbTrrIntTheSameForAllPayloads cfg 0) as [g t].
  rewrite List.filter_app, (filter_all _ _ (general_raw_ids _ g t)),
    (filter_none _ _ (specific_raw_not_general g t _ Hr)), app_nil_r, specific_avpf_app, general_raw_avpf.
  set (q1 := if g && negb (t =? 0) then _ else q).
  assert (Hn1 : number q1 = number p) by (unfold q1; by destruct (g && _)).
  rewrite (specific_avpf_skip (general_raw _ g t) q1).
  2:{ eapply List.Forall_impl; [|apply general_raw_ids]. unfold is_general. intros fb Hfb%Z.eqb_eq.
      rewrite List.Forall_forall in Hr. specialize (Hr p Hin). rewrite Hfb, Hn1. lia. }
  rewrite (specific_avpf_own g t _ p q1 Hr Hd Hin Hn1).
  assert (Hrp : 0 <= number p < 128) by (rewrite List.Forall_forall in Hr; by apply Hr).
  rewrite specific_avpf_all.
  2:{ eapply List.Forall_impl; [|by apply payload_raw_ids]. intros fb ->. by rewrite Hn1. }
  assert (Hq1 : avpf q1 = mkAvpf 0 false (if g && negb (t =? 0) then t else 0) /\ q1 = q <| avpf := avpf q1 |>).
  { unfold q1. destruct (g && negb (t =? 0)); [|split; [exact Hav|by destruct q]].
    unfold with_avpf. rewrite Hav. by destruct q. }
  destruct Hq1 as [Hq1 Hq2]. split.
  - unfold with_avpf. cbn [avpf update]. change (avpf (q1 <| avpf := ?x |>)) with x. rewrite Hq1, payload_raw_avpf.
    split; [|split]; cbn [features rpsi_compatibility trr_interval].
    + intros b Hb. by apply (written_features (fun b => has_bit (features (avpf p)) b)).
    + done.
    + destruct (cfg_payloads cfg) as [|p0 ps]; [done|]. destruct Ht as [Ht1 Ht2]. cbn [fst snd] in *. subst t.
      destruct g; cbn [negb andb].
      * assert (E : trr_interval (avpf p) = trr_interval (avpf p0)).
        { destruct Hin as [->|Hin]; [done|]. specialize (Ht2 eq_refl). rewrite List.Forall_forall in Ht2. by apply Ht2. }
        rewrite E. by destruct (Z.eqb_spec (trr_interval (avpf p0)) 0) as [->|].
      * destruct (Z.eqb_spec (trr_interval (avpf p0)) 0) as [E|]; cbn [negb]; [|done].
        destruct Htr as [|Hz]; [done|]. destruct Hin as [->|Hin]; [done|]. rewrite List.Forall_forall in Hz. by rewrite Hz.
  - unfold with_avpf. rewrite Hq2. by destruct q.
Qed.

Lemma feedback_config cfg qs :
  feedback_ok cfg -> Forall2 unset_feedback (cfg_payloads cfg) qs ->
  fold_left (fun c fb =>
    if existsb (applies_to fb) (map (general_avpf (feedback_raw cfg)) qs) then rtcp_fb_after fb c else c)
    (feedback_raw cfg) (fold_left (fun c fb => rtcp_fb_after fb c) (List.filter is_general (feedback_raw cfg)) rtcp_fb_default)
  = cfg_rtcp_fb cfg.
Proof.
  intros Hok Hq. pose proof (fo_range cfg Hok) as Hr.
  assert (Hn : forall fb, is_general fb = true -> existsb (applies_to fb) (map (general_avpf (feedback_raw cfg)) qs) = false).
  { intros fb Hfb%Z.eqb_eq. apply not_true_iff_false. intros He. apply existsb_exists in He as (x & Hx & Ha).
    apply in_map_iff in Hx as (q & <- & Hin). apply Z.eqb_eq in Ha. rewrite Hfb in Ha.
    assert (Hg : number (general_avpf (feedback_raw cfg) q) = number q).
    { unfold general_avpf. generalize (List.filter is_general (feedback_raw cfg)) as l. clear.
      intros l. revert q. induction l as [|f l IH]; intros q; [done|]. cbn [fold_left]. by rewrite IH. }
    rewrite Hg in Ha. clear -Hq Hr Hin Ha. induction Hq as [|p q' ps qs [Hn _] _ IH]; [done|].
    inversion Hr; subst. destruct Hin as [->|Hin]; [lia|]. by apply IH. }
  revert Hn. unfold feedback_raw. destruct (isRtcpFbTrrIntTheSameForAllPayloads cfg 0) as [g t]. intros Hn.
  rewrite List.filter_app, (filter_all _ _ (general_raw_ids _ g t)),
    (filter_none _ _ (specific_raw_not_general g t _ Hr)), app_nil_r, general_raw_config, fold_left_app.
  rewrite payload_raw_config.
  match goal with |- fold_left ?F _ _ = _ => set (f := F) in * end.
  assert (K : forall l c, Forall (fun fb => is_general fb = true) l -> fold_left f l c = c).
  { intros l c Hg. revert c. induction Hg as [|fb l Hfb _ IH]; intros c; [done|]. cbn [fold_left].
    unfold f at 2. by rewrite (Hn fb Hfb), IH. }
  apply K, general_raw_ids.
Qed.

Lemma avpf_only l q : let r := specific_avpf l (general_avpf l q) in r = q <| avpf := avpf r |>.
Proof.
  assert (G1 : forall l f (q : OrtpPayloadType), let r := fold_left (fun pt fb => on_payload (f fb) fb pt) l q in
    r = q <| avpf := avpf r |>).
  { clear. intros l f. induction l as [|fb l IH]; intros q; [by destruct q|]. cbn [fold_left].
    specialize (IH (on_payload (f fb) fb q)). cbv zeta in *. rewrite IH at 1. unfold on_payload. by destruct (f fb q). }
  cbv zeta. unfold specific_avpf, general_avpf.
  pose proof (G1 (List.filter is_general l) (fun _ _ => true) q) as H1. cbv zeta in H1.
  set (q1 := fold_left _ (List.filter is_general l) q) in *.
  pose proof (G1 l applies_to q1) as H2. cbv zeta in H2. rewrite H2 at 1. rewrite H1. by destruct q.
Qed.

(** The feedback attributes of a line, read into a configuration that has the
    same payload types. *)
Lemma feedback_attributes_read {ospec : OrtpRtcpSpec ortp} cfg cfg0 media_desc :
  feedback_ok cfg -> Forall2 unset_feedback (cfg_payloads cfg) (cfg_payloads cfg0) ->
  cfg_rtcp_fb cfg0 = rtcp_fb_default ->
  named_in ["rtcp-fb"] (media_attributes media_desc) = general_feedback cfg ++ specific_feedback cfg ->
  exists payloads,
    sdpParseRtcpFbParameters cfg0 media_desc =
      (cfg0 <| cfg_rtcp_fb := cfg_rtcp_fb cfg |> <| cfg_payloads := payloads |>,
       negb (is_nil (feedback_raw cfg))) /\
    Forall2 (fun p r => exists q, unset_feedback p q /\ feedback_read p q r) (cfg_payloads cfg) payloads /\
    Forall2 (fun q r => r = q <| avpf := avpf r |>) (cfg_payloads cfg0) payloads.
Proof.
  intros Hok Hps Hfb Hm.
  assert (Hne : cfg_payloads cfg0 <> []).
  { intros E. rewrite E in Hps. inversion Hps as [Hn|]. by apply (fo_payloads cfg Hok). }
  exists (map (fun q => specific_avpf (feedback_raw cfg) (general_avpf (feedback_raw cfg) q)) (cfg_payloads cfg0)).
  split; [|split].
  - unfold sdpParseRtcpFbParameters.
    rewrite (fold_left_named ["rtcp-fb"] read_general_fb) by (intros acc [| | | | | |]; done).
    rewrite (fold_left_named ["rtcp-fb"] read_specific_fb) by (intros acc [| | | | | |]; done).
    rewrite Hm, feedback_is_raw, general_loop, specific_loop by (cbn; done || by destruct (cfg_payloads cfg0)).
    f_equal; [|by destruct (feedback_raw cfg); rewrite ?orb_true_r]. cbn. rewrite map_map, Hfb.
    by rewrite feedback_config.
  - assert (G : forall ps qs, Forall2 unset_feedback ps qs -> (forall p, In p ps -> In p (cfg_payloads cfg)) ->
      Forall2 (fun p r => exists q, unset_feedback p q /\ feedback_read p q r) ps
        (map (fun q => specific_avpf (feedback_raw cfg) (general_avpf (feedback_raw cfg) q)) qs)).
    { clear -Hok ospec. induction 1 as [|p q ps qs Hpq _ IH]; intros Hin; [constructor|]. cbn [map]. constructor.
      - exists q. split; [done|]. apply read_one_payload; [done|apply Hin; by left|done].
      - apply IH. intros p' Hp'. apply Hin. by right. }
    by apply G.
  - generalize (cfg_payloads cfg0) as qs. induction qs as [|q qs IH]; [constructor|]. cbn [map]. constructor; [|exact IH].
    apply avpf_only.
Qed.

(** ** Extended reports *)

(** No attribute sets a statistics flag: the reader computes each one and drops
    it. *)
Lemma read_stat_summary_flags_id config l : read_stat_summary_flags config l = config.
Proof.
  unfold read_stat_summary_flags. revert config. induction l as [|f l IH]; intros config; [done|].
  cbn [fold_left]. rewrite IH. destruct (stat_flag_of f); [by destruct config|done].
Qed.

Definition known_rtt_mode (config : OrtpRtcpXrConfiguration) : Prop :=
  In (rcvr_rtt_mode config) [OrtpRtcpXrRcvrRttNone; OrtpRtcpXrRcvrRttAll; OrtpRtcpXrRcvrRttSender].

(** The configuration read from the attribute written for another one. *)
Definition rtcp_xr_read (config : OrtpRtcpXrConfiguration) : OrtpRtcpXrConfiguration := {|
  xr_enabled := true;
  rcvr_rtt_mode := rcvr_rtt_mode config;
  rcvr_rtt_max_size := if rcvr_rtt_mode config =? OrtpRtcpXrRcvrRttNone then -1 else rcvr_rtt_max_size config;
  stat_summary_enabled := stat_summary_enabled config;
  stat_summary_flags := OrtpRtcpXrStatSummaryNone;
  voip_metrics_enabled := voip_metrics_enabled config
|}.

(** The attribute that is written, its flags apart. *)
Lemma rtcp_xr_attribute_fields {spec : SdpLibSpec sdp} {ospec : OrtpRtcpSpec ortp} config :
  known_rtt_mode config -> exists size flags,
    create_rtcp_xr_attribute config = RtcpXrAttribute {|
      xr_rcvr_rtt_mode :=
        if rcvr_rtt_mode config =? OrtpRtcpXrRcvrRttNone then None
        else if rcvr_rtt_mode config =? OrtpRtcpXrRcvrRttAll then Some "all" else Some "sender";
      xr_rcvr_rtt_max_size := size;
      xr_stat_summary := stat_summary_enabled config;
      xr_stat_summary_flags := flags;
      xr_voip_metrics := voip_metrics_enabled config
    |} /\ (rcvr_rtt_mode config <> OrtpRtcpXrRcvrRttNone -> size = rcvr_rtt_max_size config).
Proof.
  intros Hm. pose proof new_rtcp_xr_empty as [Hnew _]. unfold create_rtcp_xr_attribute. cbv zeta.
  match goal with |- context [if stat_summary_enabled config then ?x else ?y] =>
    assert (E : exists fl, (if stat_summary_enabled config then x else y) = y <| xr_stat_summary_flags := fl |>) end.
  { match goal with |- context [if stat_summary_enabled config then _ else ?y] => generalize y as a end. intros a.
    destruct (stat_summary_enabled config); [|exists (xr_stat_summary_flags a); by destruct a].
    destruct a, (has_bit _ stat_loss_bit), (has_bit _ stat_dup_bit), (has_bit _ stat_jitt_bit),
      (has_bit _ stat_ttl_bit), (has_bit _ stat_hl_bit); eexists; reflexivity. }
  destruct E as [fl ->]. destruct belle_sdp_rtcp_xr_attribute_new as [m z ss fls v]. cbn in Hnew. subst m.
  destruct (Z.eqb_spec (rcvr_rtt_mode config) OrtpRtcpXrRcvrRttNone) as [En|En]; cbn [negb].
  { eexists _, _. split; [reflexivity|done]. }
  destruct (Z.eqb_spec (rcvr_rtt_mode config) OrtpRtcpXrRcvrRttAll) as [Ea|Ea]; [eexists _, _; split; reflexivity|].
  assert (Es : rcvr_rtt_mode config = OrtpRtcpXrRcvrRttSender)
    by (destruct Hm as [?|[?|[?|[]]]]; congruence).
  rewrite (proj2 (Z.eqb_eq _ _) Es). eexists _, _. split; reflexivity.
Qed.

Lemma rtcp_xr_attribute_read {spec : SdpLibSpec sdp} {ospec : OrtpRtcpSpec ortp} config config0 :
  known_rtt_mode config ->
  sdp_parse_rtcp_xr_parameters (as_rtcp_xr (Some (create_rtcp_xr_attribute config))) config0 = rtcp_xr_read config.
Proof.
  intros Hm. destruct (rtcp_xr_attribute_fields config Hm) as (size & flags & -> & Hsize).
  unfold sdp_parse_rtcp_xr_parameters, as_rtcp_xr, rtcp_xr_read. cbv zeta. rewrite read_stat_summary_flags_id.
  cbn [xr_rcvr_rtt_mode xr_rcvr_rtt_max_size xr_stat_summary xr_voip_metrics].
  destruct (Z.eqb_spec (rcvr_rtt_mode config) OrtpRtcpXrRcvrRttNone) as [En|En].
  { rewrite En. by destruct (stat_summary_enabled config). }
  rewrite (Hsize En).
  destruct (Z.eqb_spec (rcvr_rtt_mode config) OrtpRtcpXrRcvrRttAll) as [Ea|Ea].
  { rewrite Ea. by destruct (stat_summary_enabled config). }
  assert (Es : rcvr_rtt_mode config = OrtpRtcpXrRcvrRttSender)
    by (destruct Hm as [?|[?|[?|[]]]]; congruence).
  rewrite Es. by destruct (stat_summary_enabled config).
Qed.
End Feedback.
