(* ===== verification/LineLookup.v ===== *)
(** Looking attributes up in a written media line: for every name a reader asks
    for, what the line has, and the value the reader finds there. *)
From S2P Require Import Prelude Sscanf SalTypes Payload SalStreamConfiguration PotentialCfgGraph SalStreamBundle SalStreamDescription SalMediaDescription SdpObjects SalSdp StreamSdpReader StreamSdpWriter IceAttributes WrittenLine.

(** The names the reader of a media line looks for, in lower case, and those the
    writer uses. *)
Definition read_names : list string :=
  ["label"; "content"; "setup"; "fingerprint"; "rtcp-mux"; "bundle-only"; "mid"; "sendrecv"; "sendonly";
   "recvonly"; "inactive"; "crypto"; "zrtp-hash"; "ik"; "lime-ik"; "candidate"; "remote-candidates"; "ice-ufrag";
   "ice-pwd"; "ice-mismatch"; "rtcp-fb"; "rtcp-xr"; "ssrc"; "extmap"; "rtcp"; "rtpmap"; "fmtp"; "ptime"; "maxptime";
   "acap"; "tcap"; "acfg"; "pcfg"].
Definition written_names : list string :=
  ["label"; "content"; "setup"; "fingerprint"; "rtcp-mux"; "bundle-only"; "mid"; "sendonly";
   "recvonly"; "inactive"; "crypto"; "zrtp-hash"; "candidate"; "remote-candidates"; "ice-ufrag";
   "ice-pwd"; "ice-mismatch"; "rtcp-fb"; "rtcp-xr"; "ssrc"; "extmap"; "rtcp"; "rtpmap"; "fmtp"; "ptime"; "maxptime";
   "acap"; "tcap"; "acfg"; "pcfg"; "nortpproxy"].

(** Custom attributes no reader looks for. *)
Definition plain_name (name : string) : Prop := in_names read_names (tolower name) = false.
Definition plain_custom (custom : SalCustomSdpAttribute) : Prop :=
  Forall (fun a => plain_name (fst a)) (default [] custom).

Definition known_attribute (a : belle_sdp_attribute) : Prop :=
  in_names written_names (belle_sdp_attribute_get_name a) = true \/ plain_name (belle_sdp_attribute_get_name a).

(** A name that can be looked up: no written name differs from it by case only. *)
Definition exact_name (name : string) : bool :=
  in_names read_names (tolower name)
  && forallb (fun n => negb (strcasecmp_eq n name) || String.eqb n name) written_names.

Ltac compute_names :=
  repeat match goal with
  | |- context [in_names ?ns ?n] =>
      let b := eval vm_compute in (in_names ns n) in
      lazymatch b with true => idtac | false => idtac end; change (in_names ns n) with b
  end; cbv iota.

Section Lookup.
Context {lib : MediaLib} {sdp : SdpLib} {ortp : OrtpRtcp} {spec : SdpLibSpec sdp}.

Lemma in_names_In ns n : in_names ns n = true <-> In n ns.
Proof.
  unfold in_names. rewrite existsb_exists. setoid_rewrite String.eqb_eq. split; [intros (x & H & ->); done|].
  intros H. by exists n.
Qed.

Lemma find_known_attribute l name :
  Forall known_attribute l -> exact_name name = true -> belle_sdp_find_attribute l name = head (named_in [name] l).
Proof.
  intros Hl [Hr Hw]%andb_true_iff. rewrite find_exact; [apply find_named|].
  intros a Ha Hc. rewrite List.Forall_forall in Hl. destruct (Hl a Ha) as [Hk|Hk].
  - rewrite forallb_forall in Hw. apply in_names_In in Hk. apply Hw in Hk. rewrite Hc in Hk. by apply String.eqb_eq.
  - unfold plain_name in Hk. apply String.eqb_eq in Hc. unfold strcasecmp_eq in Hc. rewrite Hc in Hk. congruence.
Qed.

Lemma segment_known name l : all_named name l -> in_names written_names name = true -> Forall known_attribute l.
Proof. intros H Hn. rewrite List.Forall_forall. intros a Ha. left. by rewrite (H a Ha). Qed.

(** ** The names of the segments *)

Lemma crypto_named cfg : all_named "crypto" (crypto_attributes cfg).
Proof.
  unfold crypto_attributes. destruct (SalStreamConfiguration.hasSrtp cfg); [|intros ? []].
  apply all_named_flat_map. intros c. apply all_named_if.
Qed.
Lemma extensions_named cfg : all_named "extmap" (extension_attributes cfg).
Proof. repeat apply all_named_app; apply all_named_if. Qed.
Lemma candidates_named this : all_named "candidate" (candidate_attributes this).
Proof. intros a (c & <- & _)%in_map_iff. done. Qed.
Lemma remote_named this : all_named "remote-candidates" (remote_candidates_attributes this).
Proof. unfold remote_candidates_attributes. destruct (remote_candidates_text _ _ _); [apply all_named_if|intros ? []]. Qed.
Lemma fb_if_named b a : all_named "rtcp-fb" (fb_if b a).
Proof. destruct b; intros x; [intros [<-|[]]; done|intros []]. Qed.
Lemma feedback_named this : all_named "rtcp-fb" (feedback_attributes this).
Proof.
  unfold feedback_attributes. destruct (writes_feedback this); [|intros ? []].
  unfold general_feedback, specific_feedback. destruct (isRtcpFbTrrIntTheSameForAllPayloads _ _) as [g trr].
  repeat apply all_named_app; try apply fb_if_named. apply all_named_flat_map. intros pt.
  repeat apply all_named_app; apply fb_if_named.
Qed.
Lemma rtcp_xr_named cfg b s : all_named "rtcp-xr" (rtcp_xr_attributes cfg b s).
Proof. unfold rtcp_xr_attributes. destruct (_ && _ && _); [intros a [<-|[]]; done|intros ? []]. Qed.

Lemma plain_not_read n : plain_name n -> ~ In n read_names.
Proof.
  unfold plain_name. intros Hp Hin. apply not_true_iff_false in Hp. apply Hp.
  assert (E : forallb (fun n => String.eqb (tolower n) n) read_names = true) by reflexivity.
  rewrite forallb_forall in E. pose proof (proj1 (String.eqb_eq _ _) (E n Hin)) as El.
  rewrite El. by apply in_names_In.
Qed.

Lemma custom_names custom a :
  plain_custom custom -> In a (custom_attributes custom) -> plain_name (belle_sdp_attribute_get_name a).
Proof.
  intros Hc Ha. apply in_flat_map in Ha as ([name value] & Hin & Ha).
  unfold plain_custom in Hc. rewrite List.Forall_forall in Hc. pose proof (Hc _ Hin) as Hp. cbn [fst] in Hp.
  unfold created_attributes in Ha. cbn [fst snd] in Ha. rewrite create_raw in Ha.
  - by destruct Ha as [<-|[]].
  - intros Ht. apply (plain_not_read name Hp). cbn in Ht. cbn. tauto.
Qed.

Lemma custom_plain custom ns :
  plain_custom custom -> (forall n, In n ns -> in_names read_names (tolower n) = true) ->
  named_in ns (custom_attributes custom) = [].
Proof.
  intros Hc Hns. apply named_in_none. intros a Ha. apply (custom_names _ _ Hc) in Ha.
  apply not_true_iff_false. intros Hi%in_names_In%Hns. unfold plain_name in Ha. congruence.
Qed.

Lemma custom_known custom : plain_custom custom -> Forall known_attribute (custom_attributes custom).
Proof. intros Hc. rewrite List.Forall_forall. intros a Ha. right. by apply (custom_names _ _ Hc). Qed.

Lemma ice_known this : Forall known_attribute (ice_attributes this).
Proof.
  unfold ice_attributes. destruct (sd_ice_mismatch this); [repeat constructor; by left|].
  destruct (negb (sd_rtp_port this =? 0)); [|constructor]. rewrite !Forall_app.
  repeat split; (eapply segment_known; [apply all_named_if || apply candidates_named || apply remote_named|reflexivity]).
Qed.

Lemma line_known this s :
  plain_custom (sd_custom_sdp_attributes this) -> Forall known_attribute (line_attributes this s).
Proof.
  intros Hc. unfold line_attributes. cbv zeta. rewrite !Forall_app.
  repeat match goal with |- _ /\ _ => split end;
    try (eapply segment_known; [apply all_named_if|reflexivity]).
  - eapply segment_known; [apply crypto_named|reflexivity].
  - destruct (cfg_dir _); repeat constructor; by left.
  - eapply segment_known; [apply extensions_named|reflexivity].
  - apply ice_known.
  - eapply segment_known; [apply feedback_named|reflexivity].
  - eapply segment_known; [apply rtcp_xr_named|reflexivity].
  - by apply custom_known.
Qed.

(** ** The attributes of given names *)

Lemma named_in_ice ns this :
  named_in ns (ice_attributes this) =
  if sd_ice_mismatch this then named_in ns [RawAttribute "ice-mismatch" None]
  else if negb (sd_rtp_port this =? 0) then
    (if in_names ns "ice-pwd" then attribute_if (negb (str_empty (sd_ice_pwd this))) "ice-pwd" (Some (sd_ice_pwd this)) else []) ++
    (if in_names ns "ice-ufrag" then attribute_if (negb (str_empty (sd_ice_ufrag this))) "ice-ufrag" (Some (sd_ice_ufrag this)) else []) ++
    (if in_names ns "candidate" then candidate_attributes this else []) ++
    (if in_names ns "remote-candidates" then remote_candidates_attributes this else [])
  else [].
Proof.
  unfold ice_attributes. destruct (sd_ice_mismatch this); [done|].
  destruct (negb (sd_rtp_port this =? 0)); [|done]. rewrite !named_in_app, !named_in_if.
  rewrite (named_in_segment ns "candidate" (candidate_attributes this)) by apply candidates_named.
  by rewrite (named_in_segment ns "remote-candidates" (remote_candidates_attributes this)) by apply remote_named.
Qed.

Lemma named_in_line ns this s :
  plain_custom (sd_custom_sdp_attributes this) -> (forall n, In n ns -> in_names read_names (tolower n) = true) ->
  let cfg := getActualConfiguration this in
  named_in ns (line_attributes this s) =
  (if in_names ns "crypto" then crypto_attributes cfg else []) ++
  (if in_names ns "setup" then setup_attributes cfg else []) ++
  (if in_names ns "fingerprint" then fingerprint_attributes cfg else []) ++
  (if in_names ns "zrtp-hash" then attribute_if ((cfg_haveZrtpHash cfg =? 1) && negb (str_empty (cfg_zrtphash cfg))) "zrtp-hash" (Some (cfg_zrtphash cfg)) else []) ++
  named_in ns (direction_attributes (cfg_dir cfg)) ++
  (if in_names ns "rtcp-mux" then attribute_if (cfg_rtcp_mux cfg) "rtcp-mux" None else []) ++
  (if in_names ns "mid" then mid_attributes cfg else []) ++
  (if in_names ns "extmap" then extension_attribute (cfg_mid_rtp_ext_header_id cfg) "urn:ietf:params:rtp-hdrext:sdes:mid" else []) ++
  (if in_names ns "bundle-only" then bundle_only_attributes cfg else []) ++
  (if in_names ns "extmap" then extension_attributes cfg else []) ++
  (if in_names ns "ssrc" then ssrc_attributes cfg else []) ++
  (if in_names ns "rtcp" then rtcp_attributes this else []) ++
  named_in ns (ice_attributes this) ++
  (if in_names ns "rtcp-fb" then feedback_attributes this else []) ++
  (if in_names ns "rtcp-xr" then rtcp_xr_attributes cfg (enabled this) s else []) ++
  (if in_names ns "label" then text_attributes "label" (sd_label this) else []) ++
  (if in_names ns "content" then text_attributes "content" (sd_content this) else []).
Proof.
  intros Hc Hns cfg. unfold line_attributes. fold cfg. cbv zeta. rewrite !named_in_app.
  rewrite (custom_plain _ _ Hc Hns), app_nil_r.
  rewrite (named_in_segment ns "crypto" (crypto_attributes cfg)) by apply crypto_named.
  rewrite (named_in_segment ns "rtcp-xr" (rtcp_xr_attributes cfg (enabled this) s)) by apply rtcp_xr_named.
  rewrite (named_in_segment ns "rtcp-fb" (feedback_attributes this)) by apply feedback_named.
  rewrite (named_in_segment ns "extmap" (extension_attributes cfg)) by apply extensions_named.
  unfold setup_attributes, fingerprint_attributes, mid_attributes, bundle_only_attributes, extension_attribute,
    ssrc_attributes, rtcp_attributes, text_attributes.
  rewrite !named_in_if. do 12 f_equal.
  assert (E : in_names ns "nortpproxy" = false).
  { apply not_true_iff_false. intros H. apply in_names_In, Hns in H. discriminate. }
  by rewrite E.
Qed.
End Lookup.

(** ** What the reader of a media line finds in a written one, name by name *)

(** A value that is there under a condition. *)
Definition if_some {A} (b : bool) (v : A) : option A := if b then Some v else None.

Section Values.
Context {lib : MediaLib} {sdp : SdpLib} {ortp : OrtpRtcp} {spec : SdpLibSpec sdp}.
Context (this : SalStreamDescription) (md : SalMediaDescription) (s : belle_sdp_session_description).
Context (Hcustom : plain_custom (sd_custom_sdp_attributes this)).

Let m := written_line this md s.
Let cfg := getActualConfiguration this.

Lemma line_media_attributes : exists attrs,
  media_attributes m = attrs ++ line_attributes this s /\ Forall (fun a => is_mime_attribute a = true) attrs /\
  media_attributes (payload_line this) = attrs.
Proof.
  destruct (payload_line_frame this) as (f & attrs & Hp & Ha). exists attrs. subst m. unfold written_line.
  rewrite Hp. done.
Qed.

Lemma mime_attribute_names (attrs : list belle_sdp_attribute) ns :
  Forall (fun a => is_mime_attribute a = true) attrs -> forallb (fun n => negb (in_names ns n)) mime_names = true ->
  named_in ns attrs = [].
Proof.
  intros Ha Hn. apply named_in_none. intros a Hin. rewrite List.Forall_forall in Ha. specialize (Ha a Hin).
  rewrite forallb_forall in Hn. unfold is_mime_attribute in Ha. apply in_names_In, Hn in Ha. by apply negb_true_iff.
Qed.

Lemma line_named ns :
  forallb (fun n => negb (in_names ns n)) mime_names = true ->
  named_in ns (media_attributes m) = named_in ns (line_attributes this s).
Proof.
  intros Hn. destruct line_media_attributes as (attrs & -> & Ha & _).
  by rewrite named_in_app, (mime_attribute_names attrs ns Ha Hn).
Qed.

Lemma media_known : Forall known_attribute (media_attributes m).
Proof.
  destruct line_media_attributes as (attrs & -> & Ha & _). apply Forall_app. split; [|by apply line_known].
  eapply List.Forall_impl; [|exact Ha]. intros a Hm. left. apply in_names_In in Hm. apply in_names_In.
  cbn in Hm. cbn. tauto.
Qed.

Lemma line_lookup name :
  exact_name name = true -> forallb (fun n => negb (in_names [name] n)) mime_names = true ->
  belle_sdp_media_description_get_attribute m name = head (named_in [name] (line_attributes this s)).
Proof.
  intros He Hm. unfold belle_sdp_media_description_get_attribute. rewrite find_known_attribute; [|apply media_known|done].
  by rewrite line_named.
Qed.

Lemma named_in_ice_none ns :
  forallb (fun n => negb (in_names ns n)) ["ice-mismatch"; "ice-pwd"; "ice-ufrag"; "candidate"; "remote-candidates"] = true ->
  named_in ns (ice_attributes this) = [].
Proof.
  intros Hn. rewrite forallb_forall in Hn.
  assert (G : forall n, In n ["ice-mismatch"; "ice-pwd"; "ice-ufrag"; "candidate"; "remote-candidates"] ->
    in_names ns n = false) by (intros n Hi; by apply negb_true_iff, Hn).
  rewrite named_in_ice, !G by (cbn; tauto). destruct (sd_ice_mismatch this); [|by destruct (negb _)].
  cbn. by rewrite G by by left.
Qed.

Lemma named_in_direction_none ns dir :
  forallb (fun n => negb (in_names ns n)) ["recvonly"; "sendonly"; "inactive"] = true ->
  named_in ns (direction_attributes dir) = [].
Proof.
  intros Hn. rewrite forallb_forall in Hn.
  assert (G : forall n, In n ["recvonly"; "sendonly"; "inactive"] -> in_names ns n = false)
    by (intros n Hi; by apply negb_true_iff, Hn).
  destruct dir; cbn; rewrite ?G by (cbn; tauto); done.
Qed.

Lemma head_if b name value : head (attribute_if b name value) = if_some b (RawAttribute name value).
Proof. by destruct b. Qed.

Ltac line_value :=
  rewrite line_lookup by reflexivity;
  rewrite named_in_line by (done || (let n := fresh in intros n [<-|[]]; reflexivity));
  rewrite ?named_in_ice_none, ?named_in_direction_none by reflexivity;
  compute_names; cbn [app]; rewrite ?app_nil_r; try apply head_if.

Lemma line_label : belle_sdp_media_description_get_attribute m "label" =
  if_some (negb (str_empty (sd_label this))) (RawAttribute "label" (Some (sd_label this))).
Proof. line_value. Qed.
Lemma line_content : belle_sdp_media_description_get_attribute m "content" =
  if_some (negb (str_empty (sd_content this))) (RawAttribute "content" (Some (sd_content this))).
Proof. line_value. Qed.
Lemma line_setup : belle_sdp_media_description_get_attribute m "setup" =
  if_some (writes_dtls cfg && negb (str_empty (getSetupAttributeForDtlsRole (cfg_dtls_role cfg))))
    (RawAttribute "setup" (Some (getSetupAttributeForDtlsRole (cfg_dtls_role cfg)))).
Proof. line_value. Qed.
Lemma line_fingerprint : belle_sdp_media_description_get_attribute m "fingerprint" =
  if_some (writes_dtls cfg) (RawAttribute "fingerprint" (Some (cfg_dtls_fingerprint cfg))).
Proof. line_value. Qed.
Lemma line_rtcp_mux : belle_sdp_media_description_get_attribute m "rtcp-mux" =
  if_some (cfg_rtcp_mux cfg) (RawAttribute "rtcp-mux" None).
Proof. line_value. Qed.
Lemma line_bundle_only : belle_sdp_media_description_get_attribute m "bundle-only" =
  if_some (cfg_bundle_only cfg) (RawAttribute "bundle-only" None).
Proof. line_value. Qed.
Lemma line_mid : belle_sdp_media_description_get_attribute m "mid" =
  if_some (negb (str_empty (cfg_mid cfg))) (RawAttribute "mid" (Some (cfg_mid cfg))).
Proof. line_value. Qed.
Lemma line_zrtp_hash : belle_sdp_media_description_get_attribute m "zrtp-hash" =
  if_some ((cfg_haveZrtpHash cfg =? 1) && negb (str_empty (cfg_zrtphash cfg)))
    (RawAttribute "zrtp-hash" (Some (cfg_zrtphash cfg))).
Proof. line_value. Qed.
Lemma line_ssrc : belle_sdp_media_description_get_attribute m "ssrc" =
  if_some (negb (cfg_conference_ssrc cfg =? 0) && negb (str_empty (cfg_rtcp_cname cfg)))
    (RawAttribute "ssrc" (Some (to_dec (cfg_conference_ssrc cfg) +:+ " cname:" +:+ cfg_rtcp_cname cfg))).
Proof. line_value. Qed.
Lemma line_rtcp : belle_sdp_media_description_get_attribute m "rtcp" =
  if_some (writes_rtcp this) (RawAttribute "rtcp" (Some (rtcp_text this))).
Proof. line_value. Qed.
Lemma line_rtcp_xr : belle_sdp_media_description_get_attribute m "rtcp-xr" =
  head (rtcp_xr_attributes cfg (enabled this) s).
Proof. line_value. done. Qed.
Lemma line_lime name : In name ["Ik"; "lime-Ik"; "sendrecv"] -> belle_sdp_media_description_get_attribute m name = None.
Proof. intros [<-|[<-|[<-|[]]]]; line_value; done. Qed.
Lemma line_directions :
  belle_sdp_media_description_get_attribute m "sendonly" =
    if_some (cfg_dir cfg =e SalStreamSendOnly) (RawAttribute "sendonly" None) /\
  belle_sdp_media_description_get_attribute m "recvonly" =
    if_some (cfg_dir cfg =e SalStreamRecvOnly) (RawAttribute "recvonly" None) /\
  belle_sdp_media_description_get_attribute m "inactive" =
    if_some (cfg_dir cfg =e SalStreamInactive) (RawAttribute "inactive" None).
Proof. split; [|split]; line_value; subst cfg; by destruct (cfg_dir _). Qed.
End Values.
