(* ===== verification/LineReading.v ===== *)
(** The readers of a media line on a written one, part by part. *)
From S2P Require Import Prelude Sscanf SalTypes Payload SalStreamConfiguration StreamDescriptionProps PotentialCfgGraph SalStreamBundle SalStreamDescription SalMediaDescription SdpObjects SalSdp StreamSdpReader StreamSdpWriter IceAttributes WrittenLine FeedbackAttributes LineLookup.

(** ** What can be written and read back *)

(** A suite of the table, with a tag, a key and parameters that fit. *)
Definition good_crypto {lib : MediaLib} (c : SalSrtpCryptoAlgo) : Prop :=
  exists name params, known_suite (algo c) name params /\ fits_attribute c name params.

(** RTP header extension ids are 4 bits; 0 stands for an extension that is not
    used. *)
Definition good_extension (id : Z) : Prop := 0 <= id <= 15.

Record good_cfg {lib : MediaLib} {ortp : OrtpRtcp} (cfg : SalStreamConfiguration) : Prop := {
  gcf_crypto : SalStreamConfiguration.hasSrtp cfg = true -> Forall good_crypto (cfg_crypto cfg);
  gcf_zrtp : (String.length (cfg_zrtphash cfg) <= zrtphash_size)%nat;
  gcf_ssrc : 0 <= cfg_conference_ssrc cfg < 2 ^ 32;
  gcf_ext_mid : good_extension (cfg_mid_rtp_ext_header_id cfg);
  gcf_ext_mixer : good_extension (cfg_mixer_to_client_extension_id cfg);
  gcf_ext_client : good_extension (cfg_client_to_mixer_extension_id cfg);
  gcf_ext_frame : good_extension (cfg_frame_marking_extension_id cfg)
}.

Section Reading.
Context {lib : MediaLib} {sdp : SdpLib} {ortp : OrtpRtcp} {spec : SdpLibSpec sdp}.
Context (this : SalStreamDescription) (md : SalMediaDescription) (s : belle_sdp_session_description).
Context (Hcustom : plain_custom (sd_custom_sdp_attributes this)).

Let m := written_line this md s.
Let cfg := getActualConfiguration this.
Context (Hgood : good_cfg cfg).

Lemma media_has_if name (b : bool) a :
  belle_sdp_media_description_get_attribute m name = if_some b a -> media_has m name = b.
Proof. unfold media_has. intros ->. by destruct b. Qed.
Lemma media_value_if name (b : bool) n v :
  belle_sdp_media_description_get_attribute m name = if_some b (RawAttribute n (Some v)) ->
  media_value m name = if_some b v.
Proof. unfold media_value. intros ->. by destruct b. Qed.

(** ** Direction, transport, DTLS and ZRTP *)

Lemma read_direction_line port bundle_only dir :
  read_direction m port bundle_only dir =
  if cfg_dir cfg =e SalStreamSendRecv then if (port =? 0) && negb bundle_only then SalStreamInactive else dir
  else cfg_dir cfg.
Proof.
  unfold read_direction. destruct (line_directions this md s Hcustom) as (H1 & H2 & H3).
  rewrite (media_has_if _ _ _ H1), (media_has_if _ _ _ H2), (media_has_if _ _ _ H3).
  unfold media_has, m. rewrite line_lime by (done || (cbn; tauto)). fold cfg. by destruct (cfg_dir cfg).
Qed.

Lemma read_transport_line c :
  cfg_mid c = EmptyString ->
  exists ttl, read_transport c m =
  c <| cfg_ttl := ttl |> <| cfg_rtcp_mux := cfg_rtcp_mux cfg |> <| cfg_bundle_only := cfg_bundle_only cfg |>
    <| cfg_mid := cfg_mid cfg |>.
Proof.
  intros Hc. unfold read_transport.
  rewrite (media_has_if _ _ _ (line_rtcp_mux this md s Hcustom)), (media_has_if _ _ _ (line_bundle_only this md s Hcustom)).
  rewrite (media_value_if _ _ _ _ (line_mid this md s Hcustom)). fold cfg. cbv zeta.
  assert (E : exists ttl, match media_connection m with
    | Some cnx => match cnx_address cnx with Some _ => c <| cfg_ttl := cnx_ttl cnx |> | None => c end
    | None => c
    end = c <| cfg_ttl := ttl |>).
  { destruct (media_connection m) as [cnx|]; [destruct (cnx_address cnx)|]; [by eexists|..];
      exists (cfg_ttl c); by destruct c. }
  destruct E as [ttl ->]. exists ttl. destruct (str_empty (cfg_mid cfg)) eqn:E; cbn [negb if_some]; [|done].
  apply str_empty_spec in E. rewrite E. destruct c. cbn in *. by rewrite Hc.
Qed.

Lemma read_dtls_role_written role :
  read_dtls_role (if_some (negb (str_empty (getSetupAttributeForDtlsRole role))) (getSetupAttributeForDtlsRole role))
    SalDtlsRoleInvalid = role.
Proof. by destruct role. Qed.

Lemma read_dtls_line c :
  cfg_proto c = cfg_proto cfg -> cfg_dtls_role c = SalDtlsRoleInvalid -> cfg_dtls_fingerprint c = EmptyString ->
  read_dtls c m = Done (if writes_dtls cfg
    then c <| cfg_dtls_role := cfg_dtls_role cfg |> <| cfg_dtls_fingerprint := cfg_dtls_fingerprint cfg |> else c).
Proof.
  intros Hp Hr Hf. unfold read_dtls. cbv zeta. rewrite Hp.
  pose proof (line_setup this md s Hcustom) as Hs. fold cfg in Hs. apply media_value_if in Hs.
  pose proof (line_fingerprint this md s Hcustom) as Hfp. fold cfg m in Hfp. rewrite Hs, Hr.
  set (dtls := (cfg_proto cfg =e SalProtoUdpTlsRtpSavpf) || (cfg_proto cfg =e SalProtoUdpTlsRtpSavp)) in *.
  destruct (writes_dtls cfg) eqn:E.
  - unfold writes_dtls in E. fold dtls in E. apply andb_true_iff in E as [E Ef]. apply andb_true_iff in E as [Ed Er].
    rewrite Ed. cbn [andb]. rewrite read_dtls_role_written.
    change (cfg_proto (c <| cfg_dtls_role := ?x |>)) with (cfg_proto c). rewrite Hp. fold dtls. rewrite Ed.
    change (cfg_dtls_role (c <| cfg_dtls_role := ?x |>)) with x. rewrite Er. cbn [andb]. by rewrite Hfp.
  - cbn [andb if_some]. change (read_dtls_role None ?r) with r.
    assert (Hc : (if dtls then c <| cfg_dtls_role := SalDtlsRoleInvalid |> else c) = c)
      by (destruct dtls; [destruct c; cbn in *; by rewrite Hr|done]).
    rewrite Hc, Hr. change (SalDtlsRoleInvalid <>e SalDtlsRoleInvalid) with false. by rewrite andb_false_r.
Qed.

Lemma substring_all n t : (String.length t <= n)%nat -> String.substring 0 n t = t.
Proof.
  revert n. induction t as [|c t IH]; intros [|n]; simpl; try done; [lia|]. intros H. by rewrite IH by lia.
Qed.

Lemma read_zrtp_line c :
  read_zrtp c m =
  if (cfg_haveZrtpHash cfg =? 1) && negb (str_empty (cfg_zrtphash cfg))
  then c <| cfg_zrtphash := cfg_zrtphash cfg |> <| cfg_haveZrtpHash := 1 |> else c.
Proof.
  unfold read_zrtp. cbv zeta.
  rewrite (media_value_if _ _ _ _ (line_zrtp_hash this md s Hcustom)). fold cfg.
  unfold media_value, m. rewrite !line_lime by (done || (cbn; tauto)).
  destruct (_ && _); cbn [if_some]; [|done]. by rewrite substring_all by apply (gcf_zrtp cfg Hgood).
Qed.

Lemma read_ssrc_line c :
  cfg_conference_ssrc c = 0 ->
  read_ssrc c m =
  if negb (str_empty (cfg_rtcp_cname cfg)) then c <| cfg_conference_ssrc := cfg_conference_ssrc cfg |> else c.
Proof.
  intros Hc. unfold read_ssrc. rewrite (media_value_if _ _ _ _ (line_ssrc this md s Hcustom)). fold cfg.
  pose proof (gcf_ssrc cfg Hgood) as Hr.
  destruct (Z.eqb_spec (cfg_conference_ssrc cfg) 0) as [E|E]; cbn [negb andb if_some].
  - rewrite E. destruct (negb _); [|done]. destruct c. cbn in *. by rewrite Hc.
  - destruct (negb (str_empty _)); cbn [if_some]; [|done].
    rewrite to_dec_nonneg by lia. by rewrite scan_uint_dec.
Qed.

(** ** SRTP *)

Lemma crypto_value_not_empty c : good_crypto c -> str_empty (cryptoToSdpValue c) = false.
Proof.
  intros (name & params & Hk & Hf). apply str_empty_false. intros E. unfold cryptoToSdpValue in E.
  rewrite (suite_named _ _ _ Hk) in E. destruct Hf as [Ht _ _ _]. rewrite to_dec_nonneg in E by lia.
  destruct (dec_of_nonneg_cons (tag c)) as (x & y & Hxy). rewrite Hxy in E. by destruct params.
Qed.

Lemma read_cryptos_line c :
  SalStreamConfiguration.hasSrtp cfg = true ->
  sdpParseMediaCryptoParameters c m = c <| cfg_crypto := cfg_crypto cfg |>.
Proof.
  intros Hs. unfold sdpParseMediaCryptoParameters.
  rewrite (fold_left_named ["crypto"]).
  2:{ intros acc a Ha. cbn in Ha. rewrite orb_false_r in Ha. by rewrite String.eqb_sym, Ha. }
  unfold m. rewrite line_named by done. rewrite named_in_line by (done || (intros n [<-|[]]; reflexivity)).
  rewrite named_in_ice_none, named_in_direction_none by reflexivity. compute_names. cbn [app]. rewrite ?app_nil_r.
  fold cfg. unfold crypto_attributes. rewrite Hs. pose proof (gcf_crypto cfg Hgood Hs) as Hg.
  assert (G : forall l pre, Forall good_crypto l ->
    fold_left (fun cfg attribute =>
      if String.eqb "crypto" (belle_sdp_attribute_get_name attribute) then
        match belle_sdp_attribute_get_value attribute with
        | Some cryptoAttrVal =>
            let cryptoEl := fillStrpCryptoAlgoFromString cryptoAttrVal in
            if negb (algo cryptoEl =? MS_CRYPTO_SUITE_INVALID)
            then cfg <| cfg_crypto := cfg_crypto cfg ++ [cryptoEl] |> else cfg
        | None => cfg
        end
      else cfg)
      (flat_map (fun c => attribute_if (negb (str_empty (cryptoToSdpValue c))) "crypto" (Some (cryptoToSdpValue c))) l)
      (c <| cfg_crypto := pre |>) = c <| cfg_crypto := pre ++ l |>).
  { intros l. induction l as [|x l IH]; intros pre Hl; cbn [flat_map]; [by rewrite app_nil_r|].
    inversion Hl as [|? ? Hx Hl']; subst. rewrite (crypto_value_not_empty x Hx). cbn [negb attribute_if app fold_left].
    destruct Hx as (name & params & Hk & Hf). cbn [belle_sdp_attribute_get_value belle_sdp_attribute_get_name].
    change (String.eqb "crypto" "crypto") with true. cbv iota zeta. rewrite (crypto_value_read x name params Hk Hf).
    rewrite (proj2 (Z.eqb_neq _ _) (suite_valid _ _ _ Hk)). cbn [negb].
    change (cfg_crypto (c <| cfg_crypto := pre |>)) with pre.
    change ((c <| cfg_crypto := pre |>) <| cfg_crypto := pre ++ [x] |>) with (c <| cfg_crypto := pre ++ [x] |>).
    rewrite IH by done. by rewrite <- app_assoc. }
  apply (G (cfg_crypto cfg) [] Hg).
Qed.

(** ** ICE *)

(** The ICE members of a stream that can be written and read back. *)
Record good_ice : Prop := {
  gi_candidates : Forall good_candidate (sd_ice_candidates this);
  gi_fits : written_candidates (sd_ice_candidates this) = sd_ice_candidates this;
  gi_remote : Forall remote_entry (sd_ice_remote_candidates this);
  gi_last : forall c, last (sd_ice_remote_candidates this) = Some c -> good_remote c;
  gi_length : Z.of_nat (length (sd_ice_remote_candidates this)) < 2 ^ 32;
  gi_text : remote_candidates_text 0 (sd_ice_remote_candidates this) EmptyString <> None
}.

Definition ice_names : list string := ["ice-mismatch"; "ice-pwd"; "ice-ufrag"; "candidate"; "remote-candidates"].

Lemma read_candidates_list (st : SalStreamDescription) l :
  Forall good_candidate l ->
  ofold read_ice_attribute st (map (fun c => RawAttribute "candidate" (Some (candidate_text c))) l) =
  Done (st <| sd_ice_candidates := sd_ice_candidates st ++ l |>).
Proof.
  intros Hl. revert st. induction Hl as [|c l Hc _ IH]; intros st; cbn [map ofold].
  { rewrite app_nil_r. by destruct st. }
  unfold read_ice_attribute at 1. cbn [belle_sdp_attribute_get_value belle_sdp_attribute_get_name].
  change (String.eqb "candidate" "candidate") with true. cbv iota. rewrite (read_candidate_text _ _ Hc). cbn [obind].
  rewrite IH. change (sd_ice_candidates (st <| sd_ice_candidates := ?x |>)) with x. by rewrite <- app_assoc.
Qed.

(** A stream that has no ICE member yet. *)
Definition no_ice (st : SalStreamDescription) : Prop :=
  sd_ice_candidates st = [] /\ sd_ice_remote_candidates st = [] /\ sd_ice_ufrag st = EmptyString /\
  sd_ice_pwd st = EmptyString /\ sd_ice_mismatch st = false.

Lemma read_ice_text (st st' : SalStreamDescription) name value :
  read_ice_attribute st (RawAttribute name (Some value)) = Done st' -> (value = EmptyString -> st' = st) ->
  ofold read_ice_attribute st (attribute_if (negb (str_empty value)) name (Some value)) = Done st'.
Proof.
  intros Hr He. destruct (str_empty value) eqn:E; cbn [negb attribute_if ofold]; [|by rewrite Hr].
  apply str_empty_spec in E. by rewrite He.
Qed.

Lemma read_remote_attribute (st : SalStreamDescription) :
  good_ice -> sd_ice_remote_candidates st = [] ->
  ofold read_ice_attribute st (remote_candidates_attributes this) =
  Done (st <| sd_ice_remote_candidates := sd_ice_remote_candidates this |>).
Proof.
  intros Hi Hst. unfold remote_candidates_attributes.
  destruct (remote_candidates_text 0 (sd_ice_remote_candidates this) EmptyString) as [v|] eqn:E; [|by destruct (gi_text Hi)].
  pose proof (read_remote_text _ v (gi_remote Hi) (gi_last Hi) (gi_length Hi) E) as Hr.
  destruct (str_empty v) eqn:Ev; cbn [negb attribute_if ofold].
  - apply str_empty_spec in Ev. subst v. cbn in Hr. injection Hr as <-. destruct st. cbn in *. by subst.
  - unfold read_ice_attribute. cbn [belle_sdp_attribute_get_value belle_sdp_attribute_get_name].
    change (String.eqb "candidate" "remote-candidates") with false.
    change (String.eqb "remote-candidates" "remote-candidates") with true. cbv iota. rewrite Hst, Hr. done.
Qed.

(** The ICE members of a stream after reading the line. *)
Definition ice_read (st : SalStreamDescription) : SalStreamDescription :=
  if sd_ice_mismatch this then st <| sd_ice_mismatch := true |>
  else if negb (sd_rtp_port this =? 0) then
    st <| sd_ice_pwd := sd_ice_pwd this |> <| sd_ice_ufrag := sd_ice_ufrag this |>
       <| sd_ice_candidates := sd_ice_candidates this |>
       <| sd_ice_remote_candidates := sd_ice_remote_candidates this |>
  else st.

Lemma read_ice_line st : good_ice -> no_ice st -> sdpParseMediaIceParameters st m = Done (ice_read st).
Proof.
  intros Hi (Hc & Hr & Hu & Hp & Hm). unfold sdpParseMediaIceParameters.
  rewrite (ofold_named ice_names).
  2:{ intros acc a Ha. unfold read_ice_attribute. cbv zeta. unfold ice_names, in_names in Ha. cbn in Ha.
      rewrite !orb_false_iff in Ha. rewrite !(String.eqb_sym _ (belle_sdp_attribute_get_name a)).
      destruct Ha as (-> & -> & -> & -> & -> & _). by destruct (belle_sdp_attribute_get_value a). }
  unfold m. rewrite line_named by done.
  rewrite named_in_line by (done || (intros n Hn; cbn in Hn; repeat destruct Hn as [<-|Hn]; try reflexivity; destruct Hn)).
  rewrite named_in_direction_none by reflexivity. compute_names. cbn [app]. rewrite ?app_nil_r.
  rewrite named_in_ice. compute_names. unfold ice_read.
  destruct (sd_ice_mismatch this).
  { unfold named_in. cbn [List.filter belle_sdp_attribute_get_name]. compute_names. reflexivity. }
  destruct (negb (sd_rtp_port this =? 0)); [|done].
  rewrite ofold_app, (read_ice_text st (st <| sd_ice_pwd := sd_ice_pwd this |>) "ice-pwd"); cbn [obind].
  2: reflexivity.
  2:{ intros E. rewrite E. destruct st. cbn in *. by rewrite Hp. }
  set (st1 := st <| sd_ice_pwd := sd_ice_pwd this |>).
  rewrite ofold_app, (read_ice_text st1 (st1 <| sd_ice_ufrag := sd_ice_ufrag this |>) "ice-ufrag"); cbn [obind].
  2: reflexivity.
  2:{ intros E. rewrite E. unfold st1. destruct st. cbn in *. by rewrite Hu. }
  rewrite ofold_app. unfold candidate_attributes. rewrite (gi_fits Hi).
  rewrite read_candidates_list by apply (gi_candidates Hi). cbn [obind].
  rewrite read_remote_attribute by done. do 2 f_equal. destruct st. cbn in *. by rewrite Hc.
Qed.

(** ** Header extensions and custom attributes *)

Definition extmap_step (c : SalStreamConfiguration) (a : belle_sdp_attribute) : SalStreamConfiguration :=
  match belle_sdp_attribute_get_value a with
  | Some v => read_extmap c v
  | None => c
  end.

Lemma exact_extmap a : known_attribute a ->
  strcasecmp_eq (belle_sdp_attribute_get_name a) "extmap" = in_names ["extmap"] (belle_sdp_attribute_get_name a).
Proof.
  intros [Hk|Hk].
  - apply in_names_In in Hk.
    assert (E : forallb (fun n => Bool.eqb (strcasecmp_eq n "extmap") (in_names ["extmap"] n)) written_names = true)
      by reflexivity.
    rewrite forallb_forall in E. by apply eqb_prop, E.
  - destruct (strcasecmp_eq _ _) eqn:E; destruct (in_names _ _) eqn:En; try done.
    + apply String.eqb_eq in E. unfold plain_name in Hk. rewrite E in Hk. discriminate.
    + apply in_names_In in En as [En|[]]. by rewrite <- En in E.
Qed.

(** When every [extmap] attribute has a value, the loop on all the attributes is
    defined and only they change the configuration. *)
Lemma read_custom_attributes csa c l :
  Forall known_attribute l ->
  Forall (fun a => belle_sdp_attribute_get_value a <> None) (named_in ["extmap"] l) ->
  exists csa', ofold read_custom_attribute (csa, c) l = Done (csa', fold_left extmap_step (named_in ["extmap"] l) c).
Proof.
  intros Hl. revert csa c. induction Hl as [|a l Ha _ IH]; intros csa c Hv; [by exists csa|].
  cbn [ofold named_in List.filter] in *. unfold read_custom_attribute at 1. cbv zeta. cbn [fst snd].
  rewrite (exact_extmap a Ha). destruct (in_names ["extmap"] (belle_sdp_attribute_get_name a)).
  - inversion Hv as [|? ? Hva Hv']; subst. destruct (belle_sdp_attribute_get_value a) as [v|] eqn:E; [|done].
    cbn [obind fold_left]. unfold extmap_step at 2. rewrite E. by apply IH.
  - cbn [obind]. by apply IH.
Qed.

Lemma read_extmap_text c id urn t :
  1 <= id <= 15 -> is_token urn -> head_is (fun c => negb (is_space c)) t = false ->
  read_extmap c (to_dec id +:+ " " +:+ urn +:+ t) =
  if strcasecmp_eq urn "urn:ietf:params:rtp-hdrext:sdes:mid" then c <| cfg_mid_rtp_ext_header_id := id |>
  else if strcasecmp_eq urn "urn:ietf:params:rtp-hdrext:csrc-audio-level"
  then c <| cfg_mixer_to_client_extension_id := id |>
  else if strcasecmp_eq urn "urn:ietf:params:rtp-hdrext:ssrc-audio-level"
  then c <| cfg_client_to_mixer_extension_id := id |>
  else if strcasecmp_eq urn "urn:ietf:params:rtp-hdrext:framemarking"
  then c <| cfg_frame_marking_extension_id := id |>
  else c.
Proof.
  intros Hid Hu Ht. unfold read_extmap. rewrite to_dec_nonneg by lia.
  change (" " +:+ urn +:+ t) with (String " " (urn +:+ t)).
  rewrite scan_int_base_dec by (done || lia). rewrite scan_str_space by done. cbn [scan_then].
  by rewrite (proj2 (Z.ltb_ge _ _)), (proj2 (Z.ltb_ge _ _)) by lia.
Qed.

(** The step for one extension, whose member is set or stays zero. *)
Lemma read_extension c c' id urn w t :
  good_extension id -> urn = w +:+ t -> is_token w -> head_is (fun c => negb (is_space c)) t = false ->
  (1 <= id <= 15 -> read_extmap c (to_dec id +:+ " " +:+ w +:+ t) = c') -> (id = 0 -> c' = c) ->
  fold_left extmap_step (extension_attribute id urn) c = c'.
Proof.
  intros Hid -> Hw Ht Hr H0. unfold extension_attribute, good_extension in *.
  destruct (Z.eqb_spec id 0) as [E|E]; cbn [negb attribute_if fold_left]; [by rewrite H0|].
  unfold extmap_step. cbn [belle_sdp_attribute_get_value]. apply Hr. lia.
Qed.

Definition no_extension (c : SalStreamConfiguration) : Prop :=
  cfg_mid_rtp_ext_header_id c = 0 /\ cfg_mixer_to_client_extension_id c = 0 /\
  cfg_client_to_mixer_extension_id c = 0 /\ cfg_frame_marking_extension_id c = 0.

Lemma token_check w : (negb (str_empty w) && str_all (fun c => negb (is_space c)) w) = true -> is_token w.
Proof. intros [H1 H2]%andb_true_iff. split; [|done]. by apply str_empty_false, negb_true_iff. Qed.

Lemma read_extensions_line csa c :
  no_extension c ->
  exists csa', ofold read_custom_attribute (csa, c) (media_attributes m) = Done (csa',
    c <| cfg_mid_rtp_ext_header_id := cfg_mid_rtp_ext_header_id cfg |>
      <| cfg_mixer_to_client_extension_id := cfg_mixer_to_client_extension_id cfg |>
      <| cfg_client_to_mixer_extension_id := cfg_client_to_mixer_extension_id cfg |>
      <| cfg_frame_marking_extension_id := cfg_frame_marking_extension_id cfg |>).
Proof.
  intros (H1 & H2 & H3 & H4).
  assert (E : named_in ["extmap"] (media_attributes m) =
    extension_attribute (cfg_mid_rtp_ext_header_id cfg) "urn:ietf:params:rtp-hdrext:sdes:mid" ++ extension_attributes cfg).
  { unfold m. rewrite line_named by done. rewrite named_in_line by (done || (intros n [<-|[]]; reflexivity)).
    rewrite named_in_ice_none, named_in_direction_none by reflexivity. compute_names. cbn [app]. by rewrite ?app_nil_r. }
  destruct (read_custom_attributes csa c (media_attributes m)) as [csa' Hr].
  { by apply media_known. }
  { rewrite E. unfold extension_attributes, extension_attribute. rewrite !Forall_app.
    repeat split; unfold attribute_if; case_match; repeat constructor; done. }
  exists csa'. rewrite Hr, E. unfold extension_attributes. rewrite !fold_left_app. do 2 f_equal.
  destruct Hgood as [_ _ _ G1 G2 G3 G4].
  rewrite (read_extension c (c <| cfg_mid_rtp_ext_header_id := cfg_mid_rtp_ext_header_id cfg |>) _ _
    "urn:ietf:params:rtp-hdrext:sdes:mid" EmptyString G1); [|done|by apply token_check|done| |].
  2:{ intros Hi. rewrite read_extmap_text by (done || by apply token_check). reflexivity. }
  2:{ intros ->. destruct c. cbn in *. by rewrite H1. }
  set (c1 := c <| cfg_mid_rtp_ext_header_id := _ |>).
  rewrite (read_extension c1 (c1 <| cfg_mixer_to_client_extension_id := cfg_mixer_to_client_extension_id cfg |>) _ _
    "urn:ietf:params:rtp-hdrext:csrc-audio-level" EmptyString G2); [|done|by apply token_check|done| |].
  2:{ intros Hi. rewrite read_extmap_text by (done || by apply token_check). reflexivity. }
  2:{ intros ->. unfold c1. destruct c. cbn in *. by rewrite H2. }
  set (c2 := c1 <| cfg_mixer_to_client_extension_id := _ |>).
  rewrite (read_extension c2 (c2 <| cfg_client_to_mixer_extension_id := cfg_client_to_mixer_extension_id cfg |>) _ _
    "urn:ietf:params:rtp-hdrext:ssrc-audio-level" " vad=on" G3); [|done|by apply token_check|done| |].
  2:{ intros Hi. rewrite read_extmap_text by (done || by apply token_check). reflexivity. }
  2:{ intros ->. unfold c2, c1. destruct c. cbn in *. by rewrite H3. }
  set (c3 := c2 <| cfg_client_to_mixer_extension_id := _ |>).
  rewrite (read_extension c3 (c3 <| cfg_frame_marking_extension_id := cfg_frame_marking_extension_id cfg |>) _ _
    "urn:ietf:params:rtp-hdrext:framemarking" EmptyString G4); [done|done|by apply token_check|done| |].
  - intros Hi. rewrite read_extmap_text by (done || by apply token_check). reflexivity.
  - intros ->. unfold c3, c2, c1. destruct c. cbn in *. by rewrite H4.
Qed.

(** ** Payload types *)

(** The payload types a line can carry. *)
Definition good_payload (pt : OrtpPayloadType) : Prop :=
  0 <= number pt < 128 /\ 0 < clock_rate pt /\
  (exists name, mime_type pt = Some name /\ is_token name /\ str_has "/" name = false) /\
  recv_fmtp pt <> Some EmptyString.

(** The payload type read for a written one: the parameters it receives are
    those the other side sends. *)
Definition payload_read (p q : OrtpPayloadType) : Prop :=
  mime_type q = mime_type p /\ number q = number p /\ clock_rate q = clock_rate p /\
  send_fmtp q = recv_fmtp p /\ (0 < channels p -> channels q = channels p).

Lemma mime_of_good ptime pt : good_payload pt -> mime_ok (mime_of_payload ptime pt).
Proof. intros (H1 & H2 & H3 & H4). by repeat split; try apply H1; try done. Qed.

Lemma read_mimes c ps :
  fold_left (fun cfg mime_param =>
    cfg <| cfg_payloads := cfg_payloads cfg ++ [payload_of_mime mime_param] |>
        <| cfg_ptime := mime_ptime mime_param |> <| cfg_maxptime := mime_max_ptime mime_param |>) ps c =
  match last ps with
  | Some p => c <| cfg_payloads := cfg_payloads c ++ map payload_of_mime ps |>
                <| cfg_ptime := mime_ptime p |> <| cfg_maxptime := mime_max_ptime p |>
  | None => c
  end.
Proof.
  induction ps as [|p ps IH] using rev_ind; [done|]. rewrite fold_left_app, IH, last_snoc. cbn [fold_left].
  rewrite map_app. destruct (last ps) eqn:E.
  - destruct c. cbn. by rewrite <- app_assoc.
  - apply last_None in E. subst ps. done.
Qed.

Lemma built_mimes :
  belle_sdp_media_description_build_mime_parameters m =
  belle_sdp_media_description_build_mime_parameters (payload_line this).
Proof.
  apply build_mime_local.
  - unfold m, written_line. destruct (payload_line_frame this) as (f & attrs & -> & _). done.
  - destruct (line_media_attributes this md s) as (attrs & Hm & Ha & Hp). unfold m. rewrite Hm, List.filter_app, Hp.
    assert (E : List.filter is_mime_attribute (line_attributes this s) = named_in mime_names (line_attributes this s))
      by reflexivity.
    rewrite E, named_in_line by (done || (intros n Hn; cbn in Hn; repeat destruct Hn as [<-|Hn]; try reflexivity; destruct Hn)).
    rewrite named_in_ice_none, named_in_direction_none by reflexivity. compute_names. cbn [app]. by rewrite app_nil_r.
Qed.

(** The payload types of a line are those that were written, in order, with the
    packet time when there is one. *)
Lemma read_payloads_line c :
  cfg_payloads cfg <> [] -> Forall good_payload (cfg_payloads cfg) -> List.NoDup (map number (cfg_payloads cfg)) ->
  cfg_payloads c = [] ->
  exists payloads ptime maxptime,
    sdpParsePayloadTypes c m =
      c <| cfg_payloads := payloads |> <| cfg_ptime := ptime |> <| cfg_maxptime := maxptime |> /\
    Forall2 (fun p q => payload_read p q /\ avpf q = mkAvpf 0 false 0) (cfg_payloads cfg) payloads /\
    (0 < cfg_ptime cfg -> ptime = cfg_ptime cfg).
Proof.
  intros Hne Hg Hd Hc. unfold sdpParsePayloadTypes. rewrite built_mimes, payload_line_fold by done. fold cfg.
  set (mimes := map (mime_of_payload (cfg_ptime cfg)) (cfg_payloads cfg)).
  match goal with |- context [belle_sdp_media_description_build_mime_parameters ?x] =>
    set (read := belle_sdp_media_description_build_mime_parameters x) end.
  assert (H2 : Forall2 same_mime mimes read).
  { apply build_mime_written; try done.
    - unfold mimes. rewrite map_map. exact Hd.
    - exists (if 0 <? cfg_ptime cfg then cfg_ptime cfg else mime_ptime_unset). unfold mimes.
      rewrite List.Forall_map. by apply List.Forall_forall.
    - unfold mimes. rewrite List.Forall_map. eapply List.Forall_impl; [|exact Hg]. intros pt. apply mime_of_good. }
  clearbody read. rewrite read_mimes, Hc. cbn [app]. destruct (last read) as [r|] eqn:Er.
  - eexists _, _, _. split; [reflexivity|]. split.
    + unfold mimes in H2. clear -H2. revert read H2. generalize (cfg_payloads cfg) as ps.
      induction ps as [|p ps IH]; intros read H2; inversion H2 as [|? ? ? ? Hm H2']; subst; [constructor|].
      cbn [map]. constructor; [|by apply IH].
      destruct Hm as (Hn & Hf & Hr & Hp & Hch & _). split; [|done].
      repeat split; [exact Hn|exact Hf|exact Hr|exact Hp|].
      intros Hpos. cbn [mime_channel_count mime_of_payload] in Hch. rewrite (proj2 (Z.ltb_lt _ _) Hpos) in Hch. by apply Hch.
    + intros Hpos. apply last_Some_elem_of in Er. apply list_elem_of_lookup in Er as [i Hi].
      pose proof (Forall2_lookup_r _ _ _ _ _ H2 Hi) as (p & Hpi & Hm). destruct Hm as (_ & _ & _ & _ & _ & Hpt).
      unfold mimes in Hpi. rewrite list_lookup_fmap in Hpi. destruct (cfg_payloads cfg !! i); [|done].
      injection Hpi as <-. cbn [mime_ptime mime_of_payload] in Hpt. rewrite (proj2 (Z.ltb_lt _ _) Hpos) in Hpt. by apply Hpt.
  - exfalso. apply last_None in Er. rewrite Er in H2. apply Forall2_length in H2. unfold mimes in H2.
    rewrite length_map in H2. by destruct (cfg_payloads cfg).
Qed.

(** ** RTCP *)

Lemma feedback_named_in : named_in ["rtcp-fb"] (media_attributes m) = feedback_attributes this.
Proof.
  unfold m. rewrite line_named by done. rewrite named_in_line by (done || (intros n [<-|[]]; reflexivity)).
  rewrite named_in_ice_none, named_in_direction_none by reflexivity. compute_names. cbn [app]. by rewrite ?app_nil_r.
Qed.

Lemma no_feedback_read c :
  feedback_attributes this = [] -> sdpParseRtcpFbParameters c m = (c, false).
Proof.
  intros H. unfold sdpParseRtcpFbParameters.
  rewrite (fold_left_named ["rtcp-fb"] read_general_fb) by (intros acc [| | | | | |]; done).
  rewrite (fold_left_named ["rtcp-fb"] read_specific_fb) by (intros acc [| | | | | |]; done).
  by rewrite feedback_named_in, H.
Qed.

Lemma read_rtcp_xr_line {ospec : OrtpRtcpSpec ortp} config0 :
  known_rtt_mode (cfg_rtcp_xr cfg) ->
  sdp_parse_media_rtcp_xr_parameters m config0 =
  match rtcp_xr_attributes cfg (enabled this) s with
  | [] => config0
  | _ => rtcp_xr_read (cfg_rtcp_xr cfg)
  end.
Proof.
  intros Hm. unfold sdp_parse_media_rtcp_xr_parameters. unfold m. rewrite line_rtcp_xr by done. fold cfg.
  unfold rtcp_xr_attributes. destruct (_ && _ && _); [|done]. by apply rtcp_xr_attribute_read.
Qed.

(** The RTCP port and address of the line. *)
Record good_rtcp : Prop := {
  gr_port : 0 <= sd_rtcp_port this < 2 ^ 31;
  gr_addr : other_rtcp_address this = true -> is_token (sd_rtcp_addr this)
}.

Lemma read_rtcp_line st :
  good_rtcp -> sd_rtp_port st = sd_rtp_port this ->
  read_rtcp st m =
  if writes_rtcp this then
    st <| sd_rtcp_addr := if other_rtcp_address this then sd_rtcp_addr this else sd_rtp_addr st |>
       <| sd_rtcp_port := sd_rtcp_port this |>
  else
    st <| sd_rtcp_addr := sd_rtp_addr st |>
       <| sd_rtcp_port := if cfg_rtcp_mux (getActualConfiguration st) then sd_rtp_port this else sd_rtp_port this + 1 |>.
Proof.
  intros [Hp Ha] Hst. unfold read_rtcp. cbv zeta.
  rewrite (media_value_if _ _ _ _ (line_rtcp this md s Hcustom)).
  change (getActualConfiguration (st <| sd_rtcp_addr := ?x |>)) with (getActualConfiguration st).
  destruct (writes_rtcp this) eqn:E; cbn [if_some].
  - unfold rtcp_text. rewrite to_dec_nonneg by lia. destruct (other_rtcp_address this).
    + change (" IN IP4 " +:+ sd_rtcp_addr this) with
        (String " " ("IN" +:+ String " " ("IP4" +:+ String " " (sd_rtcp_addr this)))).
      rewrite <- (str_app_nil (sd_rtcp_addr this)) at 1.
      rewrite scan_int_dec by (done || lia). cbn [scan_then].
      rewrite scan_lit_then_space by done. rewrite scan_lit_then_space by done.
      rewrite scan_str_space by (done || by apply Ha). cbn [scan_then]. by destruct (cfg_rtcp_mux _).
    + rewrite scan_int_dec by (done || lia). cbn [scan_then].
      unfold scan_lit_then. cbn. by destruct (cfg_rtcp_mux _).
  - rewrite <- Hst. by destruct (cfg_rtcp_mux _).
Qed.
End Reading.
