(* ===== verification/LineRoundtrip.v ===== *)
(** A media line that is written and read back gives the same stream. *)
From S2P Require Import Prelude Sscanf SalTypes Payload SalStreamConfiguration StreamDescriptionProps PotentialCfgGraph SalStreamBundle SalStreamDescription SalMediaDescription SdpObjects SalSdp StreamSdpReader StreamSdpWriter IceAttributes WrittenLine FeedbackAttributes LineLookup LineReading.

Section Roundtrip.
Context {lib : MediaLib} {sdp : SdpLib} {ortp : OrtpRtcp}.

(** A stream that a media line describes: it has chosen its actual
    configuration, whose members have the form SDP gives them. *)
Record good_stream (this : SalStreamDescription) : Prop := {
  gs_chosen : sd_cfgIndex this = actualConfigurationIndex;
  gs_type : sd_type this <> SalOther;
  gs_proto : cfg_proto (getActualConfiguration this) <> SalProtoOther;
  gs_cfg : good_cfg (getActualConfiguration this);
  gs_payloads : cfg_payloads (getActualConfiguration this) <> [];
  gs_good_payloads : Forall good_payload (cfg_payloads (getActualConfiguration this));
  gs_numbers : List.NoDup (map number (cfg_payloads (getActualConfiguration this)));
  gs_feedback : writes_feedback this = true -> feedback_ok (getActualConfiguration this);
  gs_rtt : known_rtt_mode (cfg_rtcp_xr (getActualConfiguration this));
  gs_custom : plain_custom (sd_custom_sdp_attributes this);
  gs_ice : good_ice this;
  gs_rtcp : good_rtcp this
}.

(** Neither [setup] nor [fingerprint] at session level. *)
Definition plain_session (sess : belle_sdp_session_description) : Prop :=
  belle_sdp_session_description_get_attribute_value sess "setup" = None /\
  belle_sdp_session_description_get_attribute_value sess "fingerprint" = None.

(** The actual configuration that is read.  What the line leaves out comes from
    the session [md']; [s] is the session the line was written for. *)
Record cfg_read (this : SalStreamDescription) (md' : SalMediaDescription) (s : belle_sdp_session_description)
    (cfg c : SalStreamConfiguration) : Prop := {
  cr_proto : cfg_proto c = cfg_proto cfg;
  cr_dtls_role : cfg_dtls_role c = if writes_dtls cfg then cfg_dtls_role cfg else SalDtlsRoleInvalid;
  cr_dtls_fingerprint : cfg_dtls_fingerprint c = if writes_dtls cfg then cfg_dtls_fingerprint cfg else EmptyString;
  cr_rtcp_mux : cfg_rtcp_mux c = cfg_rtcp_mux cfg;
  cr_bundle_only : cfg_bundle_only c = cfg_bundle_only cfg;
  cr_mid : cfg_mid c = cfg_mid cfg;
  cr_dir : cfg_dir c =
    if cfg_dir cfg =e SalStreamSendRecv
    then if (sd_rtp_port this =? 0) && negb (cfg_bundle_only cfg) then SalStreamInactive else md_dir md'
    else cfg_dir cfg;
  cr_payloads : Forall2 (fun p q => payload_read p q /\
      (if writes_feedback this then same_feedback (avpf p) (avpf q) else avpf q = mkAvpf 0 false 0))
    (cfg_payloads cfg) (cfg_payloads c);
  cr_ptime : 0 < cfg_ptime cfg -> cfg_ptime c = cfg_ptime cfg;
  cr_crypto : cfg_crypto c = if SalStreamConfiguration.hasSrtp cfg then cfg_crypto cfg else [];
  cr_zrtp : (cfg_haveZrtpHash c, cfg_zrtphash c) =
    if (cfg_haveZrtpHash cfg =? 1) && negb (str_empty (cfg_zrtphash cfg)) then (1, cfg_zrtphash cfg) else (0, EmptyString);
  cr_rtcp_fb : cfg_rtcp_fb c = if writes_feedback this then cfg_rtcp_fb cfg else rtcp_fb_default;
  cr_rtcp_xr : cfg_rtcp_xr c =
    match rtcp_xr_attributes cfg (enabled this) s with
    | [] => md_rtcp_xr md'
    | _ => rtcp_xr_read (cfg_rtcp_xr cfg)
    end;
  cr_ssrc : cfg_conference_ssrc c = if str_empty (cfg_rtcp_cname cfg) then 0 else cfg_conference_ssrc cfg;
  cr_ext_mid : cfg_mid_rtp_ext_header_id c = cfg_mid_rtp_ext_header_id cfg;
  cr_ext_mixer : cfg_mixer_to_client_extension_id c = cfg_mixer_to_client_extension_id cfg;
  cr_ext_client : cfg_client_to_mixer_extension_id c = cfg_client_to_mixer_extension_id cfg;
  cr_ext_frame : cfg_frame_marking_extension_id c = cfg_frame_marking_extension_id cfg
}.

(** The address the line carries: none when it is the one of the session. *)
Definition line_address (this : SalStreamDescription) (md : SalMediaDescription) : string :=
  if String.eqb (sd_rtp_addr this) (md_addr md) then EmptyString else sd_rtp_addr this.

Record stream_read (this : SalStreamDescription) (md md' : SalMediaDescription) (s : belle_sdp_session_description)
    (st : SalStreamDescription) : Prop := {
  sr_type : sd_type st = sd_type this;
  sr_port : sd_rtp_port st = sd_rtp_port this;
  sr_addr : sd_rtp_addr st = line_address this md;
  sr_bandwidth : sd_bandwidth st = Z.max 0 (sd_bandwidth this);
  sr_label : sd_label st = sd_label this;
  sr_content : sd_content st = sd_content this;
  sr_rtcp_addr : sd_rtcp_addr st =
    if writes_rtcp this && other_rtcp_address this then sd_rtcp_addr this else line_address this md;
  sr_rtcp_port : sd_rtcp_port st =
    if writes_rtcp this then sd_rtcp_port this
    else if cfg_rtcp_mux (getActualConfiguration this) then sd_rtp_port this else sd_rtp_port this + 1;
  sr_ice_mismatch : sd_ice_mismatch st = sd_ice_mismatch this;
  sr_ice : sd_ice_mismatch this = false -> sd_rtp_port this <> 0 ->
    sd_ice_pwd st = sd_ice_pwd this /\ sd_ice_ufrag st = sd_ice_ufrag this /\
    sd_ice_candidates st = sd_ice_candidates this /\ sd_ice_remote_candidates st = sd_ice_remote_candidates this;
  sr_chosen : sd_cfgIndex st = actualConfigurationIndex;
  sr_only_actual : om_keys (sd_cfgs st) = [actualConfigurationIndex];
  sr_cfg : cfg_read this md' s (getActualConfiguration this) (getActualConfiguration st)
}.

Context {spec : SdpLibSpec sdp} {ospec : OrtpRtcpSpec ortp}.

Lemma set_proto_written c proto :
  proto <> SalProtoOther -> cfg_proto_other c = EmptyString ->
  setProtoInCfg c (sal_media_proto_to_string proto) = c <| cfg_proto := proto |>.
Proof. intros Hp Hc. destruct c. cbn in Hc. subst. by destruct proto. Qed.

(** The feedback of a written line, whatever else the configuration has. *)
Lemma read_avpf_line this md s c :
  good_stream this ->
  let cfg := getActualConfiguration this in
  let m := written_line this md s in
  cfg_proto c = cfg_proto cfg -> cfg_rtcp_fb c = rtcp_fb_default ->
  Forall2 (fun p q => payload_read p q /\ avpf q = mkAvpf 0 false 0) (cfg_payloads cfg) (cfg_payloads c) ->
  exists payloads implicit,
    read_avpf c m = c <| cfg_rtcp_fb := if writes_feedback this then cfg_rtcp_fb cfg else rtcp_fb_default |>
      <| cfg_payloads := payloads |> <| cfg_implicit_rtcp_fb := implicit |> /\
    Forall2 (fun p q => payload_read p q /\
      (if writes_feedback this then same_feedback (avpf p) (avpf q) else avpf q = mkAvpf 0 false 0))
      (cfg_payloads cfg) payloads.
Proof.
  intros Hg cfg m Hp Hfb Hps. unfold read_avpf.
  assert (E : exists payloads b,
    sdpParseRtcpFbParameters c m =
      (c <| cfg_rtcp_fb := if writes_feedback this then cfg_rtcp_fb cfg else rtcp_fb_default |>
         <| cfg_payloads := payloads |>, b) /\
    Forall2 (fun p q => payload_read p q /\
      (if writes_feedback this then same_feedback (avpf p) (avpf q) else avpf q = mkAvpf 0 false 0))
      (cfg_payloads cfg) payloads).
  { destruct (writes_feedback this) eqn:Ew.
    - pose proof (gs_feedback this Hg Ew) as Hok.
      destruct (feedback_attributes_read cfg c m) as (ps & Hr & H1 & H2); [done| |done| |].
      + eapply Forall2_impl; [exact Hps|]. intros p q [(_ & Hn & _) Ha]. by split.
      + unfold m. rewrite feedback_named_in by apply (gs_custom this Hg). unfold feedback_attributes. by rewrite Ew.
      + exists ps, (negb (is_nil (feedback_raw cfg))). split; [exact Hr|].
        clear -Hps H1 H2. revert ps H1 H2. induction Hps as [|p q l l' Hpq _ IH]; intros ps H1 H2; inversion H1; subst;
          inversion H2; subst; constructor; [|by apply IH].
        destruct Hpq as [Hpq _]. match goal with H : exists q, _ |- _ => destruct H as (q' & _ & Hsf & _) end.
        split; [|exact Hsf]. match goal with H : _ = q <| avpf := _ |> |- _ => rewrite H end. exact Hpq.
    - exists (cfg_payloads c), false. unfold m. rewrite no_feedback_read.
      + split; [|exact Hps]. destruct c. cbn in *. by rewrite Hfb.
      + apply (gs_custom this Hg).
      + unfold feedback_attributes. by rewrite Ew. }
  destruct E as (ps & b & -> & H2).
  assert (Hset : Forall2 (fun p q => payload_read p q /\
      (if writes_feedback this then same_feedback (avpf p) (avpf q) else avpf q = mkAvpf 0 false 0))
      (cfg_payloads cfg) (map (payload_type_set_flag {[PAYLOAD_TYPE_RTCP_FEEDBACK_ENABLED]}) ps)).
  { clear -H2. induction H2 as [|p q l l' Hpq _ IH]; cbn [map]; constructor; done. }
  destruct (SalStreamConfiguration.hasAvpf _); [|destruct b].
  - exists (map (payload_type_set_flag {[PAYLOAD_TYPE_RTCP_FEEDBACK_ENABLED]}) ps), (cfg_implicit_rtcp_fb c). split; [by destruct c|exact Hset].
  - exists (map (payload_type_set_flag {[PAYLOAD_TYPE_RTCP_FEEDBACK_ENABLED]}) ps), true. split; [by destruct c|exact Hset].
  - exists ps, (cfg_implicit_rtcp_fb c). split; [by destruct c|exact H2].
Qed.

Lemma line_protocol this md s :
  good_stream this ->
  media_protocol (written_line this md s) = sal_media_proto_to_string (cfg_proto (getActualConfiguration this)).
Proof.
  intros Hg. unfold written_line. destruct (payload_line_frame this) as (f & attrs & -> & _).
  change (SalStreamDescription.getProtoAsString this = sal_media_proto_to_string (cfg_proto (getActualConfiguration this))).
  unfold SalStreamDescription.getProtoAsString, getChosenConfiguration, getChosenConfigurationIndex.
  rewrite (gs_chosen this Hg). change (getConfigurationAtIndex this actualConfigurationIndex) with (getActualConfiguration this).
  unfold SalStreamConfiguration.getProtoAsString. by rewrite bool_decide_eq_false_2 by apply (gs_proto this Hg).
Qed.

(** Conditional updates as updates with conditional values. *)
Lemma dtls_fields (b : bool) role fp c :
  cfg_dtls_role c = SalDtlsRoleInvalid -> cfg_dtls_fingerprint c = EmptyString ->
  (if b then c <| cfg_dtls_role := role |> <| cfg_dtls_fingerprint := fp |> else c) =
  c <| cfg_dtls_role := if b then role else SalDtlsRoleInvalid |>
    <| cfg_dtls_fingerprint := if b then fp else EmptyString |>.
Proof. intros H1 H2. destruct b; [done|]. destruct c. cbn in *. by subst. Qed.
Lemma crypto_field (b : bool) l c :
  cfg_crypto c = [] ->
  (if b then c <| cfg_crypto := l |> else c) = c <| cfg_crypto := if b then l else [] |>.
Proof. intros H. destruct b; [done|]. destruct c. cbn in *. by subst. Qed.
Lemma zrtp_fields (b : bool) hash c :
  cfg_zrtphash c = EmptyString -> cfg_haveZrtpHash c = 0 ->
  (if b then c <| cfg_zrtphash := hash |> <| cfg_haveZrtpHash := 1 |> else c) =
  c <| cfg_zrtphash := if b then hash else EmptyString |> <| cfg_haveZrtpHash := if b then 1 else 0 |>.
Proof. intros H1 H2. destruct b; [done|]. destruct c. cbn in *. by subst. Qed.
Lemma ssrc_field (b : bool) ssrc c :
  cfg_conference_ssrc c = 0 ->
  (if negb b then c <| cfg_conference_ssrc := ssrc |> else c) = c <| cfg_conference_ssrc := if b then 0 else ssrc |>.
Proof. intros H. destruct b; [|done]. destruct c. cbn in *. by subst. Qed.

(** The actual configuration that is read from a written line. *)
Lemma create_actual_line this md md' s sess st0 :
  good_stream this -> plain_session sess -> no_ice st0 -> sd_rtp_port st0 = sd_rtp_port this -> sd_cfgs st0 = [] ->
  exists c custom encs,
    createActualCfg st0 md' sess (written_line this md s) =
      Done ((ice_read this st0) <| sd_custom_sdp_attributes := custom |> <| sd_supportedEncryption := encs |>
            <| sd_cfgs := [(actualConfigurationIndex, c)] |>) /\
    cfg_read this md' s (getActualConfiguration this) c.
Proof.
  intros Hg [Hs1 Hs2] Hice Hport Hcfgs.
  pose proof (gs_custom this Hg) as Hcustom. pose proof (gs_cfg this Hg) as Hcfg.
  set (cfg := getActualConfiguration this) in *. set (m := written_line this md s).
  unfold createActualCfg. rewrite Hs1, Hs2. cbv zeta. change (read_dtls_role None ?r) with r.
  unfold m. rewrite (line_protocol this md s Hg), set_proto_written by (done || apply (gs_proto this Hg)). fold cfg m.
  set (c0 := (empty_cfg <| cfg_dtls_role := SalDtlsRoleInvalid |>) <| cfg_proto := cfg_proto cfg |>).
  unfold m. rewrite (read_dtls_line this md s Hcustom c0) by reflexivity. fold cfg m. cbn [obind].
  rewrite dtls_fields by reflexivity. set (c1 := (c0 <| cfg_dtls_role := _ |>) <| cfg_dtls_fingerprint := _ |>).
  destruct (read_transport_line this md s Hcustom c1 eq_refl) as [ttl Ht]. fold cfg m in Ht. rewrite Ht.
  unfold m. rewrite (read_direction_line this md s Hcustom). fold cfg m. rewrite Hport.
  match goal with |- context [sdpParsePayloadTypes ?x m] => set (c2 := x) end.
  destruct (read_payloads_line this md s Hcustom c2 (gs_payloads this Hg) (gs_good_payloads this Hg)
    (gs_numbers this Hg) eq_refl) as (ps & ptime & maxptime & Hps & Hpr & Hpt). fold cfg m in Hps, Hpr, Hpt. rewrite Hps.
  set (c3 := ((c2 <| cfg_payloads := ps |>) <| cfg_ptime := ptime |>) <| cfg_maxptime := maxptime |>).
  change (SalStreamConfiguration.hasSrtp c3) with (SalStreamConfiguration.hasSrtp cfg).
  assert (Hcr : (if SalStreamConfiguration.hasSrtp cfg then sdpParseMediaCryptoParameters c3 m else c3) =
    c3 <| cfg_crypto := if SalStreamConfiguration.hasSrtp cfg then cfg_crypto cfg else [] |>).
  { rewrite <- crypto_field by reflexivity. destruct (SalStreamConfiguration.hasSrtp cfg) eqn:E; [|done].
    apply (read_cryptos_line this md s Hcustom Hcfg c3 E). }
  rewrite Hcr. set (c4 := c3 <| cfg_crypto := _ |>).
  unfold m. rewrite (read_zrtp_line this md s Hcustom Hcfg), (read_ice_line this md s Hcustom)
    by (exact Hice || apply (gs_ice this Hg)).
  fold cfg m. cbn [obind]. rewrite zrtp_fields by reflexivity.
  set (bz := (cfg_haveZrtpHash cfg =? 1) && negb (str_empty (cfg_zrtphash cfg))).
  set (c5 := (c4 <| cfg_zrtphash := _ |>) <| cfg_haveZrtpHash := _ |>).
  destruct (read_avpf_line this md s c5 Hg eq_refl eq_refl Hpr) as (ps' & implicit & Hav & Hps').
  fold cfg m in Hav, Hps'. rewrite Hav.
  unfold m. rewrite (read_rtcp_xr_line this md s Hcustom) by apply (gs_rtt this Hg). fold cfg m.
  match goal with |- context [read_ssrc ?x m] => set (c6 := x) end.
  unfold m. rewrite (read_ssrc_line this md s Hcustom Hcfg c6 eq_refl). fold cfg m. rewrite ssrc_field by reflexivity.
  set (c7 := c6 <| cfg_conference_ssrc := _ |>).
  match goal with |- context [ofold read_custom_attribute (?a, c7) _] => set (csa := a) end.
  destruct (read_extensions_line this md s Hcustom Hcfg csa c7) as [csa' He].
  { repeat split; reflexivity. }
  fold cfg m in He. rewrite He. cbn [obind].
  eexists _, csa', _. split.
  { assert (Hno : sd_cfgs (ice_read this st0) = [])
      by (unfold ice_read; by destruct (sd_ice_mismatch this), (negb (sd_rtp_port this =? 0))).
    f_equal. unfold addActualConfiguration, addConfigurationAtIndex.
    match goal with |- ?x <| sd_cfgs := om_set _ _ ?c (sd_cfgs ?y) |> = _ =>
      change (sd_cfgs y) with (sd_cfgs (ice_read this st0)) end.
    rewrite Hno. reflexivity. }
  split; fold cfg; try reflexivity; try exact Hps'; try exact Hpt.
  change ((if bz then 1 else 0, if bz then cfg_zrtphash cfg else EmptyString) =
    if bz then (1, cfg_zrtphash cfg) else (0, EmptyString)). by destruct bz.
Qed.

(** ** The stream *)

Lemma same_label st : sd_label st = EmptyString -> st <| sd_label := EmptyString |> = st.
Proof. intros H. destruct st. cbn in *. by subst. Qed.
Lemma same_content st : sd_content st = EmptyString -> st <| sd_content := EmptyString |> = st.
Proof. intros H. destruct st. cbn in *. by subst. Qed.
Lemma same_address st : sd_rtp_addr st = EmptyString -> st <| sd_rtp_addr := EmptyString |> = st.
Proof. intros H. destruct st. cbn in *. by subst. Qed.

Lemma line_label_read this md s (st : SalStreamDescription) :
  good_stream this -> sd_label st = EmptyString ->
  match media_value (written_line this md s) "label" with Some v => st <| sd_label := v |> | None => st end =
  st <| sd_label := sd_label this |>.
Proof.
  intros Hg Hl. unfold media_value. rewrite (line_label this md s (gs_custom this Hg)).
  destruct (str_empty (sd_label this)) eqn:E; [|done]. apply str_empty_spec in E. by rewrite E, same_label.
Qed.
Lemma line_content_read this md s (st : SalStreamDescription) :
  good_stream this -> sd_content st = EmptyString ->
  match media_value (written_line this md s) "content" with Some v => st <| sd_content := v |> | None => st end =
  st <| sd_content := sd_content this |>.
Proof.
  intros Hg Hl. unfold media_value. rewrite (line_content this md s (gs_custom this Hg)).
  destruct (str_empty (sd_content this)) eqn:E; [|done]. apply str_empty_spec in E. by rewrite E, same_content.
Qed.

Lemma line_media this md s :
  good_stream this ->
  media_port (written_line this md s) = sd_rtp_port this /\
  media_type (written_line this md s) = sal_stream_type_to_string (sd_type this) /\
  media_bandwidth (written_line this md s) = (if 0 <? sd_bandwidth this then Some (sd_bandwidth this) else None) /\
  media_connection (written_line this md s) = line_connection this md.
Proof.
  intros Hg. unfold written_line. destruct (payload_line_frame this) as (f & attrs & -> & _).
  split; [done|]. split; [|done]. change (getTypeAsString this = sal_stream_type_to_string (sd_type this)).
  unfold getTypeAsString. by rewrite bool_decide_eq_false_2 by apply (gs_type this Hg).
Qed.

Lemma line_address_read this md (st : SalStreamDescription) :
  sd_rtp_addr st = EmptyString ->
  match line_connection this md with
  | Some cnx => match cnx_address cnx with Some a => st <| sd_rtp_addr := a |> | None => st end
  | None => st
  end = st <| sd_rtp_addr := line_address this md |>.
Proof.
  intros Hs. unfold line_connection, line_address. destruct (str_empty (sd_rtp_addr this)) eqn:E; cbn [negb andb].
  - apply str_empty_spec in E. rewrite E. destruct (String.eqb "" (md_addr md)); by rewrite same_address.
  - destruct (String.eqb (sd_rtp_addr this) (md_addr md)); cbn [negb]; [by rewrite same_address|].
    by destruct (ms_is_multicast (sd_rtp_addr this) && _).
Qed.

Lemma line_type_read type :
  type <> SalOther -> read_media_type (tolower (sal_stream_type_to_string type)) = type.
Proof. by destruct type. Qed.

(** The stream before its actual configuration is read. *)
Definition line_start (this : SalStreamDescription) (md : SalMediaDescription) : SalStreamDescription :=
  empty_stream <| sd_rtp_addr := line_address this md |> <| sd_rtp_port := sd_rtp_port this |>
    <| sd_type := sd_type this |> <| sd_bandwidth := Z.max 0 (sd_bandwidth this) |>
    <| sd_label := sd_label this |> <| sd_content := sd_content this |>.

Lemma fill_line_start this md md' s sess :
  good_stream this ->
  fillStreamDescriptionFromSdp empty_stream md' sess (written_line this md s) =
  let* st := createActualCfg (line_start this md) md' sess (written_line this md s) in
  Done (read_rtcp st (written_line this md s)).
Proof.
  intros Hg. unfold fillStreamDescriptionFromSdp. cbv zeta.
  destruct (line_media this md s Hg) as (-> & -> & -> & ->). rewrite line_address_read by reflexivity.
  rewrite line_type_read by apply (gs_type this Hg).
  match goal with |- context [if ?b then ?x <| sd_typeother := ?o |> else ?x] =>
    assert (Ht : (if b then x <| sd_typeother := o |> else x) = x) end.
  { cbn [sd_type update]. change (sd_type (_ <| sd_type := sd_type this |>)) with (sd_type this).
    by rewrite bool_decide_eq_false_2 by apply (gs_type this Hg). }
  rewrite Ht. clear Ht.
  set (st1 := empty_stream <| sd_rtp_addr := line_address this md |> <| sd_rtp_port := sd_rtp_port this |>
    <| sd_type := sd_type this |>).
  assert (Hb : match (if 0 <? sd_bandwidth this then Some (sd_bandwidth this) else None) with
    | Some bandwidth => if 0 <? bandwidth then st1 <| sd_bandwidth := bandwidth |> else st1
    | None => st1
    end = st1 <| sd_bandwidth := Z.max 0 (sd_bandwidth this) |>).
  { destruct (Z.ltb_spec 0 (sd_bandwidth this)) as [H|H].
    - rewrite (proj2 (Z.ltb_lt _ _) H). by rewrite Z.max_r by lia.
    - by rewrite Z.max_l by lia. }
  rewrite Hb, line_label_read by (exact Hg || reflexivity). by rewrite line_content_read by (exact Hg || reflexivity).
Qed.

(** Reading the line that is written for a stream gives the stream. *)
Lemma line_roundtrip this md md' s sess :
  good_stream this -> plain_session sess ->
  exists st, fillStreamDescriptionFromSdp empty_stream md' sess (written_line this md s) = Done st /\
    stream_read this md md' s st.
Proof.
  intros Hg Hs. rewrite fill_line_start by done.
  destruct (create_actual_line this md md' s sess (line_start this md) Hg Hs) as (c & custom & encs & -> & Hc);
    [repeat split; reflexivity|reflexivity|reflexivity|]. cbn [obind].
  set (st1 := ((ice_read this (line_start this md)) <| sd_custom_sdp_attributes := custom |>
    <| sd_supportedEncryption := encs |>) <| sd_cfgs := [(actualConfigurationIndex, c)] |>).
  assert (Hport : sd_rtp_port st1 = sd_rtp_port this /\ sd_rtp_addr st1 = line_address this md)
    by (unfold st1, ice_read; by destruct (sd_ice_mismatch this), (negb (sd_rtp_port this =? 0))).
  destruct Hport as [Hport Haddr].
  eexists. split; [reflexivity|].
  rewrite (read_rtcp_line this md s (gs_custom this Hg) st1 (gs_rtcp this Hg) Hport), Haddr.
  change (getActualConfiguration st1) with c. rewrite (cr_rtcp_mux _ _ _ _ _ Hc).
  set (mux_port := if cfg_rtcp_mux _ then _ else _).
  set (rtcp_addr := if other_rtcp_address this then sd_rtcp_addr this else line_address this md).
  assert (E : (if writes_rtcp this
      then st1 <| sd_rtcp_addr := rtcp_addr |> <| sd_rtcp_port := sd_rtcp_port this |>
      else st1 <| sd_rtcp_addr := line_address this md |> <| sd_rtcp_port := mux_port |>) =
    st1 <| sd_rtcp_addr := if writes_rtcp this then rtcp_addr else line_address this md |>
        <| sd_rtcp_port := if writes_rtcp this then sd_rtcp_port this else mux_port |>) by by destruct (writes_rtcp this).
  rewrite E. clear E.
  unfold st1, ice_read.
  destruct (sd_ice_mismatch this) eqn:Em; [|destruct (Z.eqb_spec (sd_rtp_port this) 0) as [Ep|Ep]; cbn [negb]];
  (split; try reflexivity; try exact Hc; try (by rewrite Em); try (intros; congruence); try (intros; repeat split; reflexivity);
   destruct (writes_rtcp this), (other_rtcp_address this); reflexivity).
Qed.
End Roundtrip.
