(* ===== verification/ReferenceSdp.v ===== *)
(** A concrete instance of belle-sip's SDP operations and of oRTP's
    enumerations, on which the hypotheses of the SDP theorems are shown to
    hold.  A mime parameter is written as one [rtpmap] attribute whose value is
    a number that encodes it.  At the end, small descriptions the model is run on. *)
From S2P Require Import Prelude SalTypes Payload SalStreamConfiguration ReferenceLib PotentialCfgGraph SalStreamDescription SalMediaDescription SdpObjects SalSdp.

Definition mime_fields (p : belle_sdp_mime_parameter) :=
  (mime_type_name p, mime_media_format p, mime_rate p, mime_channel_count p, mime_parameters p,
   mime_ptime p, mime_max_ptime p).
Definition mime_of_fields (t : option string * Z * Z * Z * option string * Z * Z) : belle_sdp_mime_parameter :=
  let '(name, format, rate, channels, fmtp, pt, maxpt) := t in mkMimeParameter name format rate channels fmtp pt maxpt.

Definition mime_text (p : belle_sdp_mime_parameter) : string := dec_of_nonneg (Z.pos (encode (mime_fields p))).
Definition mime_of_text (s : string) : option belle_sdp_mime_parameter :=
  match horner 0 s with
  | Z.pos n => option_map mime_of_fields (decode n)
  | _ => None
  end.

Lemma mime_text_read p : mime_of_text (mime_text p) = Some p.
Proof. unfold mime_of_text, mime_text. rewrite dec_of_nonneg_horner, decode_encode by done. by destruct p. Qed.

Definition ref_append (m : belle_sdp_media_description) (p : belle_sdp_mime_parameter)
    : belle_sdp_media_description :=
  m <| media_formats := media_formats m ++ [mime_media_format p] |>
    <| media_attributes := media_attributes m ++ [RawAttribute "rtpmap" (Some (mime_text p))] |>.
Definition ref_mime (a : belle_sdp_attribute) : option belle_sdp_mime_parameter :=
  match a with
  | RawAttribute _ (Some v) => mime_of_text v
  | _ => None
  end.

Definition ref_sdp : SdpLib := {|
  belle_sdp_attribute_create := fun name value =>
    if existsb (String.eqb name) typed_names then None else Some (RawAttribute name value);
  typed_attribute_value := fun _ => None;
  belle_sdp_find_attribute := fun l name => List.find (has_name name) l;
  belle_sip_object_marshal := fun a => "a=" +:+ belle_sdp_attribute_get_name a;
  belle_sip_uri_to_escaped_username := fun s => s;
  belle_sdp_rtcp_fb_attribute_new := mkRtcpFbAttribute (-1) BELLE_SDP_RTCP_FB_ACK BELLE_SDP_RTCP_FB_NONE 0;
  belle_sdp_rtcp_xr_attribute_new := mkRtcpXrAttribute None 0 false [] false;
  belle_sdp_session_description_new :=
    mkSessionDescription 0 (mkOrigin None 0 0 "IP4" "") None None [] None [] [];
  belle_sdp_connection_ttl_unset := 0;
  mime_ptime_unset := -1;
  mime_max_ptime_unset := -1;
  set_time_description := fun l t => l ++ [t];
  belle_sdp_media_description_append_values_from_mime_parameter := ref_append;
  belle_sdp_media_description_build_mime_parameters := fun m =>
    omap ref_mime (List.filter is_mime_attribute (media_attributes m))
|}.

Lemma ref_append_all ps m :
  media_attributes (fold_left ref_append ps m) =
  media_attributes m ++ map (fun p => RawAttribute "rtpmap" (Some (mime_text p))) ps.
Proof.
  revert m. induction ps as [|p ps IH]; intros m; cbn [fold_left map]; [by rewrite app_nil_r|].
  rewrite IH. unfold ref_append. cbn. by rewrite <- app_assoc.
Qed.

Lemma ref_read_written ps :
  omap ref_mime (List.filter is_mime_attribute (map (fun p => RawAttribute "rtpmap" (Some (mime_text p))) ps)) = ps.
Proof.
  induction ps as [|p ps IH]; [done|]. cbn [map List.filter].
  change (is_mime_attribute (RawAttribute "rtpmap" _)) with true. cbv iota. cbn [omap list_omap ref_mime].
  by rewrite mime_text_read, IH.
Qed.

Lemma same_mime_refl p : same_mime p p.
Proof. by repeat split. Qed.

Lemma ref_sdp_spec : SdpLibSpec ref_sdp.
Proof.
  split; try done.
  - intros name value Hn. cbn [belle_sdp_attribute_create ref_sdp].
    destruct (existsb (String.eqb name) typed_names) eqn:E; [|done].
    apply existsb_exists in E as (x & Hx & ->%String.eqb_eq). by destruct Hn.
  - intros m p. exists (media_formats m ++ [mime_media_format p]), [RawAttribute "rtpmap" (Some (mime_text p))].
    split; [done|]. by constructor.
  - intros m m' _ H. cbn [belle_sdp_media_description_build_mime_parameters ref_sdp]. by rewrite H.
  - intros m ps _ Hm _ _ _. cbn [belle_sdp_media_description_build_mime_parameters ref_sdp
      belle_sdp_media_description_append_values_from_mime_parameter].
    rewrite ref_append_all, List.filter_app, Hm, app_nil_l, ref_read_written.
    apply Forall_Forall2_diag. apply Forall_forall. intros p _. apply same_mime_refl.
Defined.

Definition ref_ortp : OrtpRtcp := {|
  payload_type_new := {| pt_kind := PAYLOAD_AUDIO_CONTINUOUS; mime_type := None; clock_rate := 0; channels := 0;
    normal_bitrate := 0; recv_fmtp := None; send_fmtp := None; avpf := mkAvpf 0 false 0; flags := ∅; number := 0 |};
  OrtpRtcpXrRcvrRttNone := 0;
  OrtpRtcpXrRcvrRttAll := 1;
  OrtpRtcpXrRcvrRttSender := 2;
  OrtpRtcpXrStatSummaryNone := 0;
  stat_loss_bit := 7;
  stat_dup_bit := 6;
  stat_jitt_bit := 5;
  stat_ttl_bit := 4;
  stat_hl_bit := 3;
  avpf_fir_bit := 0;
  avpf_pli_bit := 1;
  avpf_sli_bit := 2;
  avpf_rpsi_bit := 3
|}.

Lemma ref_ortp_spec : OrtpRtcpSpec ref_ortp.
Proof.
  split; try done.
  - by repeat (apply List.NoDup_cons; [intros H; simpl in H; intuition congruence|]); apply List.NoDup_nil.
  - by repeat (apply List.NoDup_cons; [intros H; simpl in H; intuition congruence|]); apply List.NoDup_nil.
  - repeat constructor; simpl; lia.
  - by repeat (apply List.NoDup_cons; [intros H; simpl in H; intuition congruence|]); apply List.NoDup_nil.
  - repeat constructor; simpl; lia.
Defined.

(** ** An audio and a video stream, as local capabilities, as an offer and as an
    answer *)

Definition ex_cfg (proto : SalMediaProto) (dir : SalStreamDir) (payloads : list OrtpPayloadType)
    : SalStreamConfiguration :=
  empty_cfg <| cfg_proto := proto |> <| cfg_dir := dir |> <| cfg_payloads := payloads |>.

Definition ex_stream (type : SalStreamType) (addr : string) (port : Z) (cfg : SalStreamConfiguration)
    : SalStreamDescription :=
  addActualConfiguration
    (empty_stream <| sd_type := type |> <| sd_rtp_addr := addr |> <| sd_rtp_port := port |>) cfg.

Definition ex_media (times : list (Z * Z)) (streams : list SalStreamDescription) : SalMediaDescription :=
  (media_of_params default_params) <| md_times := times |> <| md_streams := streams |>.

(** The local side: PCMU and PCMA both ways, and a video codec with AVPF. *)
Definition ex_audio_cfg := ex_cfg SalProtoRtpAvp SalStreamSendRecv [ref_pt "PCMU" 8000 0; ref_pt "PCMA" 8000 8].
Definition ex_video_cfg := ex_cfg SalProtoRtpAvpf SalStreamSendRecv [ref_pt "VP8" 90000 96].
Definition ex_audio := ex_stream SalAudio "192.0.2.1" 7078 ex_audio_cfg.
Definition ex_video := ex_stream SalVideo "192.0.2.1" 9078 ex_video_cfg.
Definition ex_local : SalMediaDescription := ex_media [] [ex_audio; ex_video].

(** The remote side offers audio send-only, video without AVPF under another
    number, and a text stream. *)
Definition ex_remote : SalMediaDescription := ex_media [(100, 200)]
  [ex_stream SalAudio "198.51.100.7" 5000 (ex_cfg SalProtoRtpAvp SalStreamSendOnly [ref_pt "PCMA" 8000 8]);
   ex_stream SalVideo "198.51.100.7" 5002 (ex_cfg SalProtoRtpAvp SalStreamSendRecv [ref_pt "VP8" 90000 120]);
   ex_stream SalText "198.51.100.7" 5004 (ex_cfg SalProtoRtpAvp SalStreamSendRecv [ref_pt "t140" 1000 98])].

(** The same kind of streams in a bundle. *)
Definition ex_in_bundle (mid : string) (c : SalStreamConfiguration) : SalStreamConfiguration :=
  c <| cfg_mid := mid |> <| cfg_mid_rtp_ext_header_id := 1 |> <| cfg_rtcp_mux := true |>.
Definition ex_bundle (addr : string) (port : Z) (dir : SalStreamDir) : SalMediaDescription :=
  (ex_media []
    [ex_stream SalAudio addr port (ex_in_bundle "as" (ex_audio_cfg <| cfg_dir := dir |>));
     ex_stream SalVideo addr port (ex_in_bundle "vs" (ex_video_cfg <| cfg_dir := dir |>))])
  <| md_bundles := [["as"; "vs"]] |> <| md_accept_bundles := true |>.
Definition ex_bundle_local := ex_bundle "192.0.2.1" 7078 SalStreamSendRecv.
Definition ex_bundle_remote := ex_bundle "198.51.100.7" 5000 SalStreamSendRecv.
