(* ===== verification/SdpTyping.v ===== *)
(** The form of whatever a reader makes of a media line, written by a peer or
    not: the bounds of the members of the stream and of its configuration. *)
From S2P Require Import Prelude Sscanf SalTypes Payload SalStreamConfiguration PotentialCfgGraph SalStreamBundle SalStreamDescription SalMediaDescription SdpObjects SalSdp StreamSdpReader.

(** ** The invariants *)

(** A header extension id is 0, not used, or an id of the one byte header. *)
Definition extension_id (id : Z) : Prop := 0 <= id <= 15.

Record cfg_typed {lib : MediaLib} (c : SalStreamConfiguration) : Prop := {
  ct_mid : extension_id (cfg_mid_rtp_ext_header_id c);
  ct_mixer : extension_id (cfg_mixer_to_client_extension_id c);
  ct_client : extension_id (cfg_client_to_mixer_extension_id c);
  ct_frame : extension_id (cfg_frame_marking_extension_id c);
  ct_hash : (String.length (cfg_zrtphash c) <= zrtphash_size)%nat;
  ct_has_hash : cfg_haveZrtpHash c = 0 /\ cfg_zrtphash c = EmptyString \/ cfg_haveZrtpHash c = 1;
  ct_crypto : Forall (fun x => algo x <> MS_CRYPTO_SUITE_INVALID) (cfg_crypto c);
  ct_crypto_srtp : cfg_crypto c <> [] -> SalStreamConfiguration.hasSrtp c = true;
  ct_ssrc : 0 <= cfg_conference_ssrc c < 2 ^ 32;
  ct_proto : cfg_proto_other c <> EmptyString -> cfg_proto c = SalProtoOther
}.

(** A candidate that was read: its words fit the buffers of the reader, its
    numbers the integers they are stored in. *)
Definition ice_sized (w : string) : Prop := (String.length w < SAL_MEDIA_DESCRIPTION_MAX_ICE_ADDR_LEN)%nat.
Record candidate_typed (c : SalIceCandidate) : Prop := {
  cat_foundation : ice_sized (ice_foundation c);
  cat_addr : ice_sized (ice_addr c);
  cat_type : ice_sized (ice_type c);
  cat_raddr : ice_sized (ice_raddr c);
  cat_component : 0 <= ice_componentID c < 2 ^ 32;
  cat_priority : 0 <= ice_priority c < 2 ^ 32;
  cat_port : - 2 ^ 31 <= ice_port c < 2 ^ 31;
  cat_rport : - 2 ^ 31 <= ice_rport c < 2 ^ 31
}.
Definition remote_typed (c : SalIceRemoteCandidate) : Prop :=
  ice_sized (ice_remote_addr c) /\ - 2 ^ 31 <= ice_remote_port c < 2 ^ 31.

Definition ice_typed (st : SalStreamDescription) : Prop :=
  Forall candidate_typed (sd_ice_candidates st) /\ Forall remote_typed (sd_ice_remote_candidates st).

Record stream_typed {lib : MediaLib} (st : SalStreamDescription) : Prop := {
  sty_chosen : sd_cfgIndex st = actualConfigurationIndex;
  sty_only_actual : om_keys (sd_cfgs st) = [actualConfigurationIndex];
  sty_cfg : cfg_typed (getActualConfiguration st);
  sty_ice : ice_typed st;
  sty_bandwidth : 0 <= sd_bandwidth st;
  sty_type : sd_typeother st <> EmptyString -> sd_type st = SalOther
}.

(** ** Scans *)

Lemma scan_uint_range s v t : scan_uint s = Some (v, t) -> 0 <= v < 2 ^ 32.
Proof.
  unfold scan_uint. cbv zeta. destruct (match scan_ws s with EmptyString => _ | String _ _ => _ end) as [neg s2].
  destruct (str_span is_digit s2) as [[|d ds] rest]; [done|]. intros [= <- _]. unfold u32. apply Z.mod_pos_bound. done.
Qed.
Lemma scan_int_range s v t : scan_int s = Some (v, t) -> - 2 ^ 31 <= v < 2 ^ 31.
Proof.
  unfold scan_int. destruct (scan_sign _) as [neg s2]. destruct (str_span is_digit s2) as [[|d ds] rest]; [done|].
  intros [= <- _]. apply i32_range.
Qed.

(** The scans in an outcome, whatever result they give. *)
Definition ensures {A} (P : A -> Prop) (o : outcome A) : Prop := forall a, o = Done a -> P a.
Lemma ensures_word {B} (P : B -> Prop) s stop (k : string -> string -> outcome B) :
  ensures P stop -> (forall w t, ice_sized w -> ensures P (k w t)) -> ensures P (ice_word s stop k).
Proof.
  intros H1 H2. unfold ice_word, scan_str_then, scan_then. destruct (scan_str s) as [[w t]|]; [|done].
  destruct (Nat.leb_spec SAL_MEDIA_DESCRIPTION_MAX_ICE_ADDR_LEN (String.length w)) as [H|H]; [by intros a|by apply H2].
Qed.
Lemma ensures_uint {B} (P : B -> Prop) s stop (k : Z -> string -> outcome B) :
  ensures P stop -> (forall v t, 0 <= v < 2 ^ 32 -> ensures P (k v t)) -> ensures P (scan_then (scan_uint s) stop k).
Proof.
  intros H1 H2. unfold scan_then. destruct (scan_uint s) as [[v t]|] eqn:E; [|done]. eapply H2, scan_uint_range, E.
Qed.
Lemma ensures_int {B} (P : B -> Prop) s stop (k : Z -> string -> outcome B) :
  ensures P stop -> (forall v t, - 2 ^ 31 <= v < 2 ^ 31 -> ensures P (k v t)) ->
  ensures P (scan_then (scan_int s) stop k).
Proof.
  intros H1 H2. unfold scan_then. destruct (scan_int s) as [[v t]|] eqn:E; [|done]. eapply H2, scan_int_range, E.
Qed.
Lemma ensures_then {A B} (P : B -> Prop) (r : option (A * string)) stop (k : A -> string -> outcome B) :
  ensures P stop -> (forall v t, ensures P (k v t)) -> ensures P (scan_then r stop k).
Proof. intros H1 H2. unfold scan_then. destruct r as [[v t]|]; [apply H2|done]. Qed.
Lemma ensures_lit {B} (P : B -> Prop) lit s stop (k : string -> outcome B) :
  ensures P stop -> (forall t, ensures P (k t)) -> ensures P (scan_lit_then lit s stop k).
Proof. intros H1 H2. unfold scan_lit_then. destruct (scan_lit _ _); [apply H2|done]. Qed.
Lemma ensures_done {B} (P : B -> Prop) b : P b -> ensures P (Done b).
Proof. by intros H a [= <-]. Qed.

Lemma ice_sized_empty : ice_sized EmptyString.
Proof. unfold ice_sized, SAL_MEDIA_DESCRIPTION_MAX_ICE_ADDR_LEN. cbn. lia. Qed.

Lemma sscanf_candidate_typed v : ensures (fun r => candidate_typed (scan_candidate r)) (sscanf_candidate v).
Proof.
  unfold sscanf_candidate. cbv zeta. pose proof ice_sized_empty as He.
  assert (H0 : 0 <= 0 < 2 ^ 32) by done. assert (Hi : - 2 ^ 31 <= 0 < 2 ^ 31) by done.
  repeat first [apply ensures_word; [apply ensures_done; by split|]; intros ? ? ?
    |apply ensures_uint; [apply ensures_done; by split|]; intros ? ? ?
    |apply ensures_int; [apply ensures_done; by split|]; intros ? ? ?
    |apply ensures_lit; [apply ensures_done; by split|]; intros ?
    |apply ensures_then; [apply ensures_done; by split|]; intros ? ?].
  apply ensures_done. by split.
Qed.

Lemma read_candidate_typed l v :
  Forall candidate_typed l -> ensures (Forall candidate_typed) (read_candidate l v).
Proof.
  intros Hl l' H. unfold read_candidate in H. destruct (sscanf_candidate v) as [r| |] eqn:E; try done. cbn [obind] in H.
  destruct (_ <? _)%nat; [done|]. destruct (_ && _); injection H as <-; [|done].
  apply Forall_app. split; [done|]. constructor; [|constructor]. by apply (sscanf_candidate_typed v).
Qed.

Lemma empty_remote_typed : remote_typed empty_remote_candidate.
Proof. split; [apply ice_sized_empty|done]. Qed.
Lemma store_remote_typed l id c :
  Forall remote_typed l -> remote_typed c -> Forall remote_typed (store_remote_candidate l id c).
Proof.
  intros Hl Hc. unfold store_remote_candidate. destruct (0 <? id); [|done]. cbv zeta. apply Forall_insert; [|done].
  destruct (_ <=? _)%nat; [|done]. unfold resize. apply Forall_app. split; [done|].
  apply List.Forall_forall. intros x Hx. apply repeat_spec in Hx as ->. apply empty_remote_typed.
Qed.
Lemma read_remote_typed n l v : Forall remote_typed l -> ensures (Forall remote_typed) (read_remote_candidates n l v).
Proof.
  revert l v. induction n as [|n IH]; intros l v Hl; cbn [read_remote_candidates]; [by apply ensures_done|].
  apply ensures_then; [by apply ensures_done|]. intros id s. apply ensures_word; [by apply ensures_done|].
  intros addr s' Ha. apply ensures_then; [by apply ensures_done|]. intros port s2. cbv zeta.
  assert (Hs : Forall remote_typed (store_remote_candidate l id (mkIceRemoteCandidate addr (i32 port)))).
  { apply store_remote_typed; [done|]. split; [done|apply i32_range]. }
  destruct s2 as [|c t]; [by apply ensures_done|]. destruct (Ascii.eqb c " "); by apply IH.
Qed.

Section Typing.
Context {lib : MediaLib} {sdp : SdpLib} {ortp : OrtpRtcp}.

(** ** The ICE members of the stream *)

(** What the loop on the ICE attributes leaves alone. *)
Definition ice_frame (st st' : SalStreamDescription) : Prop :=
  sd_cfgs st' = sd_cfgs st /\ sd_cfgIndex st' = sd_cfgIndex st /\ sd_bandwidth st' = sd_bandwidth st /\
  sd_type st' = sd_type st /\ sd_typeother st' = sd_typeother st /\
  sd_rtp_port st' = sd_rtp_port st /\ sd_unparsed_cfgs st' = sd_unparsed_cfgs st.

Lemma read_ice_attribute_typed st a :
  ice_typed st -> ensures (fun st' => ice_typed st' /\ ice_frame st st') (read_ice_attribute st a).
Proof.
  intros [Hc Hr]. unfold read_ice_attribute. cbv zeta.
  assert (Hsame : forall st', ice_frame st st' -> sd_ice_candidates st' = sd_ice_candidates st ->
    sd_ice_remote_candidates st' = sd_ice_remote_candidates st -> ice_typed st' /\ ice_frame st st').
  { intros st' Hf E1 E2. split; [|done]. unfold ice_typed. by rewrite E1, E2. }
  destruct (belle_sdp_attribute_get_value a) as [v|].
  - destruct (String.eqb _ _).
    { pose proof (read_candidate_typed _ v Hc) as H. destruct (read_candidate _ v) as [l| |]; try done. cbn [obind].
      apply ensures_done. split; [|by repeat split]. split; [by apply H|done]. }
    destruct (String.eqb _ _).
    { pose proof (read_remote_typed (S (String.length v)) _ v Hr) as H. destruct (read_remote_candidates _ _ v) as [l| |];
        try done. cbn [obind]. apply ensures_done. split; [|by repeat split]. split; [done|by apply H]. }
    repeat (destruct (String.eqb _ _); [apply ensures_done; by apply Hsame|]). apply ensures_done; by apply Hsame.
  - destruct (String.eqb _ _); apply ensures_done; by apply Hsame.
Qed.

Lemma read_ice_typed st m :
  ice_typed st -> ensures (fun st' => ice_typed st' /\ ice_frame st st') (sdpParseMediaIceParameters st m).
Proof.
  intros Hst st' H. unfold sdpParseMediaIceParameters in H.
  apply (ofold_invariant (fun x => ice_typed x /\ ice_frame st x) read_ice_attribute st (media_attributes m)); [split; [done|unfold ice_frame; tauto]| |done].
  intros x a y [Hx Hf] _ Hy. destruct (read_ice_attribute_typed x a Hx y Hy) as [Ht Hg].
  split; [done|]. unfold ice_frame in *. intuition congruence.
Qed.

(** ** The configuration *)

(** Steps that leave the members [cfg_typed] speaks of alone. *)
Definition same_members (c c' : SalStreamConfiguration) : Prop :=
  cfg_mid_rtp_ext_header_id c' = cfg_mid_rtp_ext_header_id c /\
  cfg_mixer_to_client_extension_id c' = cfg_mixer_to_client_extension_id c /\
  cfg_client_to_mixer_extension_id c' = cfg_client_to_mixer_extension_id c /\
  cfg_frame_marking_extension_id c' = cfg_frame_marking_extension_id c /\
  cfg_zrtphash c' = cfg_zrtphash c /\ cfg_haveZrtpHash c' = cfg_haveZrtpHash c /\
  cfg_crypto c' = cfg_crypto c /\ cfg_conference_ssrc c' = cfg_conference_ssrc c /\
  cfg_proto c' = cfg_proto c /\ cfg_proto_other c' = cfg_proto_other c.

Lemma same_members_refl c : same_members c c.
Proof. unfold same_members. tauto. Qed.
Lemma same_members_trans a b c : same_members a b -> same_members b c -> same_members a c.
Proof. unfold same_members. intuition congruence. Qed.

Lemma same_members_typed c c' : same_members c c' -> cfg_typed c -> cfg_typed c'.
Proof.
  intros (E1 & E2 & E3 & E4 & E5 & E6 & E7 & E8 & E9 & E10) [H1 H2 H3 H4 H5 H6 H7 H8 H9 H10].
  assert (Hs : SalStreamConfiguration.hasSrtp c' = SalStreamConfiguration.hasSrtp c)
    by (unfold SalStreamConfiguration.hasSrtp; by rewrite E9).
  by split; rewrite ?E1, ?E2, ?E3, ?E4, ?E5, ?E6, ?E7, ?E8, ?E9, ?E10, ?Hs.
Qed.

Lemma read_dtls_members c m : ensures (same_members c) (read_dtls c m).
Proof.
  unfold read_dtls. cbv zeta.
  set (c1 := if _ || _ then _ else c).
  assert (H : same_members c c1) by (unfold c1; destruct (_ || _); [by repeat split|apply same_members_refl]).
  destruct (_ && _); [|by apply ensures_done]. destruct (belle_sdp_media_description_get_attribute _ _) as [a|]; [|by apply ensures_done].
  destruct (belle_sdp_attribute_get_value a); [|done]. by apply ensures_done.
Qed.

Lemma read_transport_members c m : same_members c (read_transport c m).
Proof.
  unfold read_transport. cbv zeta.
  set (c1 := match media_connection m with Some _ => _ | None => c end).
  assert (H : same_members c c1)
    by (unfold c1; destruct (media_connection m) as [x|]; [destruct (cnx_address x)|]; by repeat split).
  destruct (media_value m "mid"); exact H.
Qed.

Lemma read_payloads_members c m : same_members c (sdpParsePayloadTypes c m).
Proof.
  unfold sdpParsePayloadTypes. generalize (belle_sdp_media_description_build_mime_parameters m) as l. intros l. revert c.
  induction l as [|p l IH]; intros c; cbn [fold_left]; [apply same_members_refl|].
  eapply same_members_trans; [|apply IH]. by repeat split.
Qed.

Lemma apply_members p fb c : same_members c (apply_to_payloads p fb c).
Proof.
  unfold apply_to_payloads.
  assert (G : forall l c acc, same_members c (fold_left (fun '(cfg, payloads) pt =>
      if p pt then let '(cfg, pt) := applyRtcpFbAttributeToPayload cfg fb pt in (cfg, payloads ++ [pt])
      else (cfg, payloads ++ [pt])) l (c, acc)).1).
  { induction l as [|pt l IH]; intros c1 acc; cbn [fold_left fst]; [apply same_members_refl|].
    destruct (p pt); [|apply IH]. destruct (applyRtcpFbAttributeToPayload c1 fb pt) as [c2 pt2] eqn:E.
    eapply same_members_trans; [|apply IH]. unfold applyRtcpFbAttributeToPayload in E. cbv zeta in E.
    destruct (fb_type fb), (fb_param fb); injection E as <- _; by repeat split. }
  specialize (G (cfg_payloads c) c []). destruct (fold_left _ _ _) as [c1 payloads]. exact G.
Qed.

Lemma read_avpf_members c m : same_members c (read_avpf c m).
Proof.
  assert (G : forall (f : SalStreamConfiguration * bool -> belle_sdp_attribute -> SalStreamConfiguration * bool),
    (forall st a, same_members st.1 (f st a).1) -> forall l st, same_members st.1 (fold_left f l st).1).
  { intros f Hf l. induction l as [|a l IH]; intros st; cbn [fold_left]; [apply same_members_refl|].
    eapply same_members_trans; [apply (Hf st a)|apply IH]. }
  unfold read_avpf, sdpParseRtcpFbParameters. cbv zeta.
  pose proof (G read_general_fb ltac:(intros [c1 b] [| | | | | |]; try apply same_members_refl; cbn [read_general_fb fst snd];
    destruct (fb_id a =? -1); [apply apply_members|apply same_members_refl]) (media_attributes m) (c, false)) as H1.
  pose proof (G read_specific_fb ltac:(intros [c1 b] [| | | | | |]; try apply same_members_refl; apply apply_members)
    (media_attributes m) (fold_left read_general_fb (media_attributes m) (c, false))) as H2.
  pose proof (same_members_trans _ _ _ H1 H2) as H. destruct (fold_left read_specific_fb _ _) as [c2 b]. cbn [fst] in H.
  destruct (SalStreamConfiguration.hasAvpf c2); [|destruct b]; exact H.
Qed.

Lemma set_proto_typed c str : cfg_typed c -> cfg_crypto c = [] -> cfg_typed (setProtoInCfg c str).
Proof.
  intros [H1 H2 H3 H4 H5 H6 H7 H8 H9 H10] Hc. unfold setProtoInCfg.
  match goal with |- cfg_typed (let '(p, o) := ?x in _) =>
    assert (Hx : x.2 <> EmptyString -> x.1 = SalProtoOther); [|destruct x as [p o]] end.
  { destruct (negb (str_empty str)); [|done]. cbv zeta. repeat (destruct (String.eqb _ _); [done|]). done. }
  split; try done.
Qed.

Lemma read_cryptos_typed c m :
  cfg_typed c -> SalStreamConfiguration.hasSrtp c = true -> cfg_typed (sdpParseMediaCryptoParameters c m).
Proof.
  intros Hc Hs. unfold sdpParseMediaCryptoParameters.
  assert (G : forall l c, cfg_typed c -> SalStreamConfiguration.hasSrtp c = true ->
    cfg_typed (fold_left (fun cfg attribute =>
      if String.eqb "crypto" (belle_sdp_attribute_get_name attribute) then
        match belle_sdp_attribute_get_value attribute with
        | Some cryptoAttrVal =>
            let cryptoEl := fillStrpCryptoAlgoFromString cryptoAttrVal in
            if negb (algo cryptoEl =? MS_CRYPTO_SUITE_INVALID)
            then cfg <| cfg_crypto := cfg_crypto cfg ++ [cryptoEl] |> else cfg
        | None => cfg
        end
      else cfg) l c)).
  { induction l as [|a l IH]; intros c1 H1 Hs1; cbn [fold_left]; [done|].
    destruct (String.eqb _ _); [|by apply IH]. destruct (belle_sdp_attribute_get_value a) as [v|]; [|by apply IH].
    cbv zeta. destruct (Z.eqb_spec (algo (fillStrpCryptoAlgoFromString v)) MS_CRYPTO_SUITE_INVALID) as [E|E];
      cbn [negb]; [by apply IH|]. apply IH; [|exact Hs1]. destruct H1. split; try done.
    cbn. apply Forall_app. split; [done|by constructor]. }
  apply G; [|exact Hs]. destruct Hc. split; try done.
Qed.

Lemma str_substring_length n t : (String.length (String.substring 0 n t) <= n)%nat.
Proof. revert n. induction t as [|c t IH]; intros [|n]; simpl; try lia. specialize (IH n). lia. Qed.

Lemma read_zrtp_typed c m : cfg_typed c -> cfg_typed (read_zrtp c m).
Proof.
  intros Hc. unfold read_zrtp. cbv zeta.
  set (c1 := match media_value m "zrtp-hash" with Some _ => _ | None => c end).
  assert (H1 : cfg_typed c1).
  { unfold c1. destruct (media_value m "zrtp-hash") as [v|]; [|done]. destruct Hc. split; try done.
    - apply str_substring_length.
    - by right. }
  set (c2 := match media_value m "Ik" with Some _ => _ | None => c1 end).
  assert (H2 : cfg_typed c2).
  { unfold c2. destruct (media_value m "Ik"); [|done]. eapply same_members_typed; [|exact H1]. by repeat split. }
  destruct (media_value m "lime-Ik"); [|done]. eapply same_members_typed; [|exact H2]. by repeat split.
Qed.

Lemma read_ssrc_typed c m : cfg_typed c -> cfg_typed (read_ssrc c m).
Proof.
  intros Hc. unfold read_ssrc, scan_then. destruct (media_value m "ssrc") as [v|]; [|done].
  destruct (scan_uint v) as [[n t]|] eqn:E; [|done]. apply scan_uint_range in E. destruct Hc. by split.
Qed.

Lemma read_extmap_typed c v : cfg_typed c -> cfg_typed (read_extmap c v).
Proof.
  intros Hc. unfold read_extmap. destruct (scan_int_base v) as [[id s]|]; [|done]. cbv zeta.
  destruct (Z.ltb_spec id 1) as [H1|H1]; cbn [orb]; [done|].
  destruct (Z.ltb_spec 15 id) as [H2|H2]; cbn [orb]; [done|].
  assert (Hid : extension_id id) by (unfold extension_id; lia).
  destruct Hc. repeat (destruct (strcasecmp_eq _ _); [by split|]). by split.
Qed.

Lemma read_custom_typed l st :
  cfg_typed st.2 -> ensures (fun st' => cfg_typed st'.2) (ofold read_custom_attribute st l).
Proof.
  intros Hst st' H. eapply (ofold_invariant (fun st => cfg_typed st.2)); [exact Hst| |exact H].
  intros x a y Hx _ Hy. unfold read_custom_attribute in Hy. cbv zeta in Hy. destruct (strcasecmp_eq _ _).
  - destruct (belle_sdp_attribute_get_value a); [|done]. injection Hy as <-. by apply read_extmap_typed.
  - by injection Hy as <-.
Qed.

Lemma empty_cfg_typed : cfg_typed empty_cfg.
Proof. split; try done; cbn; try (unfold zrtphash_size; lia); by left. Qed.

Lemma ensures_bind {A B} (P : A -> Prop) (Q : B -> Prop) (o : outcome A) (k : A -> outcome B) :
  ensures P o -> (forall a, P a -> ensures Q (k a)) -> ensures Q (obind o k).
Proof. intros H1 H2. destruct o as [a| |]; cbn [obind]; [apply H2; by apply H1|done|done]. Qed.

(** The stream and the configuration that are made from a line. *)
Lemma create_actual_typed st md s m :
  ice_typed st -> sd_cfgs st = [] -> sd_cfgIndex st = actualConfigurationIndex ->
  ensures (fun st' => exists c, sd_cfgs st' = [(actualConfigurationIndex, c)] /\ cfg_typed c /\ ice_typed st' /\
    sd_cfgIndex st' = actualConfigurationIndex /\ sd_bandwidth st' = sd_bandwidth st /\
    sd_type st' = sd_type st /\ sd_typeother st' = sd_typeother st /\
    sd_rtp_port st' = sd_rtp_port st /\ sd_unparsed_cfgs st' = sd_unparsed_cfgs st) (createActualCfg st md s m).
Proof.
  intros Hice Hcfgs Hidx. unfold createActualCfg. cbv zeta.
  match goal with |- ensures _ (obind (read_dtls (setProtoInCfg ?c _) m) _) => set (c0 := c) end.
  assert (H0 : same_members empty_cfg c0)
    by (unfold c0; destruct (belle_sdp_session_description_get_attribute_value s "fingerprint"); by repeat split).
  assert (H1 : cfg_typed (setProtoInCfg c0 (media_protocol m))).
  { apply set_proto_typed; [exact (same_members_typed _ _ H0 empty_cfg_typed)|].
    by destruct H0 as (_ & _ & _ & _ & _ & _ & -> & _). }
  apply (ensures_bind (fun c => cfg_typed c)).
  { intros c Hc. apply read_dtls_members in Hc. exact (same_members_typed _ _ Hc H1). }
  intros c2 H2. set (c3 := read_transport c2 m).
  assert (H3 : cfg_typed c3) by exact (same_members_typed _ _ (read_transport_members c2 m) H2).
  match goal with |- context [sdpParsePayloadTypes ?c m] => set (c4 := c) end.
  assert (H4 : cfg_typed (sdpParsePayloadTypes c4 m)).
  { refine (same_members_typed _ _ _ H3). refine (same_members_trans _ c4 _ _ (read_payloads_members c4 m)).
    by repeat split. }
  match goal with |- context [read_zrtp ?c m] => set (c5 := c) end.
  assert (H5 : cfg_typed c5).
  { unfold c5. destruct (SalStreamConfiguration.hasSrtp _) eqn:E; [by apply read_cryptos_typed|done]. }
  apply (ensures_bind (fun st' => ice_typed st' /\ ice_frame st st')); [by apply read_ice_typed|].
  intros st' [Hice' (F1 & F2 & F3 & F4 & F5 & F6 & F7)].
  match goal with |- context [read_ssrc ?c m] => set (c6 := c) end.
  assert (H6 : cfg_typed c6).
  { refine (same_members_typed _ _ _ (read_zrtp_typed c5 m H5)).
    refine (same_members_trans _ _ _ (read_avpf_members _ m) _). by repeat split. }
  apply (ensures_bind (fun x => cfg_typed x.2)).
  { apply read_custom_typed. by apply read_ssrc_typed. }
  intros [custom c] Hc. apply ensures_done. exists c.
  split; [|split; [exact Hc|split; [exact Hice'|split; [by rewrite <- Hidx|split; [exact F3|split; [exact F4|split; [exact F5|split; [exact F6|exact F7]]]]]]]].
  unfold addActualConfiguration, addConfigurationAtIndex.
  match goal with |- sd_cfgs (?x <| sd_cfgs := ?y |>) = _ => change (y = [(actualConfigurationIndex, c)]) end.
  match goal with |- om_set _ _ _ (sd_cfgs ?x) = _ => change (sd_cfgs x) with (sd_cfgs st') end.
  by rewrite F1, Hcfgs.
Qed.

(** What reading the [rtcp] attribute leaves alone. *)
Definition rtcp_frame (st st' : SalStreamDescription) : Prop :=
  sd_cfgs st' = sd_cfgs st /\ sd_cfgIndex st' = sd_cfgIndex st /\ sd_bandwidth st' = sd_bandwidth st /\
  sd_type st' = sd_type st /\ sd_typeother st' = sd_typeother st /\
  sd_ice_candidates st' = sd_ice_candidates st /\ sd_ice_remote_candidates st' = sd_ice_remote_candidates st /\
  sd_rtp_port st' = sd_rtp_port st /\ sd_unparsed_cfgs st' = sd_unparsed_cfgs st.

Lemma read_rtcp_frame st m : rtcp_frame st (read_rtcp st m).
Proof.
  unfold read_rtcp. cbv zeta. set (st1 := if cfg_rtcp_mux _ then _ else _).
  assert (H : rtcp_frame st st1) by (unfold st1; destruct (cfg_rtcp_mux _); by repeat split).
  destruct (media_value m "rtcp") as [v|]; [|exact H]. unfold scan_then at 1. destruct (scan_int v) as [[port t]|]; [|exact H].
  unfold scan_lit_then at 1. destruct (scan_lit "IN" _); [|exact H].
  unfold scan_lit_then. destruct (scan_lit "IP4" _); [|exact H].
  unfold scan_then. destruct (scan_str _) as [[tmp u]|]; exact H.
Qed.

(** The stream before its configuration is read. *)
Definition fresh_stream (st : SalStreamDescription) : Prop :=
  ice_typed st /\ sd_cfgs st = [] /\ sd_cfgIndex st = actualConfigurationIndex /\ 0 <= sd_bandwidth st /\
  (sd_typeother st <> EmptyString -> sd_type st = SalOther).

Lemma fresh_address a : fresh_stream (empty_stream <| sd_rtp_addr := a |>).
Proof.
  split; [split; apply List.Forall_nil|]. split; [done|]. split; [done|]. split; [|done]. cbn. lia.
Qed.

Lemma fresh_option {A} (o : option A) (f : SalStreamDescription -> A -> SalStreamDescription) st :
  fresh_stream st -> (forall x, fresh_stream (f st x)) ->
  fresh_stream (match o with Some x => f st x | None => st end).
Proof. destruct o; auto. Qed.

Lemma fill_stream_typed md s m : ensures stream_typed (fillStreamDescriptionFromSdp empty_stream md s m).
Proof.
  unfold fillStreamDescriptionFromSdp. cbv zeta.
  set (st1 := match media_connection m with Some _ => _ | None => empty_stream end).
  assert (H1 : fresh_stream st1).
  { unfold st1. apply (fresh_option _ (fun st x => match cnx_address x with Some a => st <| sd_rtp_addr := a |> | None => st end));
      [exact (fresh_address EmptyString)|]. intros x. destruct (cnx_address x); [apply fresh_address|exact (fresh_address EmptyString)]. }
  set (st2 := if _ =e SalOther then _ else _).
  assert (H2 : fresh_stream st2).
  { destruct H1 as (Hi & Hc & Hx & Hb & _). unfold st2.
    match goal with |- context [sd_type ?x =e SalOther] => change (sd_type x) with (read_media_type (tolower (media_type m))) end.
    destruct (bool_decide_reflect (read_media_type (tolower (media_type m)) = SalOther)) as [E|E].
    - split; [exact Hi|]. split; [exact Hc|]. split; [exact Hx|]. split; [exact Hb|]. intros _. exact E.
    - assert (Ho : sd_typeother st1 = EmptyString)
        by (unfold st1; destruct (media_connection m) as [x|]; [by destruct (cnx_address x)|done]).
      split; [exact Hi|]. split; [exact Hc|]. split; [exact Hx|]. split; [exact Hb|]. intros Hne. by destruct Hne. }
  clearbody st1 st2. set (st3 := match media_bandwidth m with Some _ => _ | None => st2 end).
  assert (H3 : fresh_stream st3).
  { unfold st3. apply (fresh_option _ (fun st b => if 0 <? b then st <| sd_bandwidth := b |> else st)); [done|]. intros b. destruct (Z.ltb_spec 0 b); [|done].
    destruct H2 as (Hi & Hc & Hx & _ & Ho). split; [exact Hi|]. split; [exact Hc|]. split; [exact Hx|].
    split; [cbn; lia|exact Ho]. }
  clearbody st3. set (st4 := match media_value m "label" with Some _ => _ | None => st3 end).
  assert (H4 : fresh_stream st4) by (unfold st4; by destruct (media_value m "label")).
  clearbody st4. set (st5 := match media_value m "content" with Some _ => _ | None => st4 end).
  assert (H5 : fresh_stream st5) by (unfold st5; by destruct (media_value m "content")).
  clearbody st5. destruct H5 as (Hice & Hcfgs & Hidx & Hb & Hty).
  eapply ensures_bind; [by apply create_actual_typed|]. intros st (c & Hc & Ht & Hi & Hx & Hb' & Ht1 & Ht2 & _).
  apply ensures_done. destruct (read_rtcp_frame st m) as (R1 & R2 & R3 & R4 & R5 & R6 & R7 & _).
  split.
  - congruence.
  - by rewrite R1, Hc.
  - unfold getActualConfiguration, getConfigurationAtIndex. rewrite R1, Hc. exact Ht.
  - unfold ice_typed. rewrite R6, R7. exact Hi.
  - rewrite R3, Hb'. exact Hb.
  - rewrite R4, R5, Ht1, Ht2. exact Hty.
Qed.
End Typing.
