(* ===== verification/SessionReading.v ===== *)
(** Reading a session description: one well formed stream per media line, of the
    type, port and flags of the line. *)
From S2P Require Import Prelude Sscanf SalTypes Payload SalStreamConfiguration PotentialCfgGraph SalStreamBundle SalStreamDescription StreamDescriptionProps SalMediaDescription SdpObjects SalSdp StreamSdpReader SdpTyping StreamSdpWriter MediaSdp.

(** What a stream keeps of its media line. *)
Record stream_of_line {sdp : SdpLib} (m : belle_sdp_media_description) (st : SalStreamDescription) : Prop := {
  sol_type : getTypeAsString st = tolower (media_type m);
  sol_port : sd_rtp_port st = media_port m;
  sol_chosen : sd_cfgIndex st = actualConfigurationIndex;
  sol_bundle_only : exists c, om_find cfg_rank actualConfigurationIndex (sd_cfgs st) = Some c /\
    cfg_bundle_only c = media_has m "bundle-only";
  sol_wf : stream_wf st
}.

Section Keeping.
Context {lib : MediaLib} {sdp : SdpLib} {ortp : OrtpRtcp}.

(** ** The flag no step after [read_transport] changes *)

Definition keeps_bundle (c c' : SalStreamConfiguration) : Prop := cfg_bundle_only c' = cfg_bundle_only c.

Lemma keeps_bundle_trans a b c : keeps_bundle a b -> keeps_bundle b c -> keeps_bundle a c.
Proof. unfold keeps_bundle. congruence. Qed.

Lemma fold_keeps {A} (f : SalStreamConfiguration -> A -> SalStreamConfiguration) l c :
  (forall c x, keeps_bundle c (f c x)) -> keeps_bundle c (fold_left f l c).
Proof.
  intros H. revert c. induction l as [|x l IH]; intros c; [done|]. cbn [fold_left].
  eapply keeps_bundle_trans; [apply (H c x)|apply IH].
Qed.

Lemma read_payloads_keeps c m : keeps_bundle c (sdpParsePayloadTypes c m).
Proof. by apply fold_keeps. Qed.

Lemma read_cryptos_keeps c m : keeps_bundle c (sdpParseMediaCryptoParameters c m).
Proof.
  unfold sdpParseMediaCryptoParameters. refine (keeps_bundle_trans _ (c <| cfg_crypto := [] |>) _ _ _); [done|].
  apply fold_keeps. intros c1 a. destruct (String.eqb _ _); [|done].
  destruct (belle_sdp_attribute_get_value a) as [v|]; [|done]. cbv zeta. by destruct (negb _).
Qed.

Lemma read_zrtp_keeps c m : keeps_bundle c (read_zrtp c m).
Proof. unfold read_zrtp. by destruct (media_value m "zrtp-hash"), (media_value m "Ik"), (media_value m "lime-Ik"). Qed.

Lemma apply_keeps p fb c : keeps_bundle c (apply_to_payloads p fb c).
Proof.
  unfold apply_to_payloads.
  assert (G : forall l c acc, keeps_bundle c (fold_left (fun '(cfg, payloads) pt =>
      if p pt then let '(cfg, pt) := applyRtcpFbAttributeToPayload cfg fb pt in (cfg, payloads ++ [pt])
      else (cfg, payloads ++ [pt])) l (c, acc)).1).
  { induction l as [|pt l IH]; intros c1 acc; cbn [fold_left fst]; [done|].
    destruct (p pt); [|apply IH]. destruct (applyRtcpFbAttributeToPayload c1 fb pt) as [c2 pt2] eqn:E.
    eapply keeps_bundle_trans; [|apply IH]. unfold applyRtcpFbAttributeToPayload in E. cbv zeta in E.
    by destruct (fb_type fb), (fb_param fb); injection E as <- _. }
  specialize (G (cfg_payloads c) c []). destruct (fold_left _ _ _) as [c1 payloads]. exact G.
Qed.

Lemma read_avpf_keeps c m : keeps_bundle c (read_avpf c m).
Proof.
  assert (G : forall (f : SalStreamConfiguration * bool -> belle_sdp_attribute -> SalStreamConfiguration * bool),
    (forall st a, keeps_bundle st.1 (f st a).1) -> forall l st, keeps_bundle st.1 (fold_left f l st).1).
  { intros f Hf l. induction l as [|a l IH]; intros st; cbn [fold_left]; [done|].
    eapply keeps_bundle_trans; [apply (Hf st a)|apply IH]. }
  unfold read_avpf, sdpParseRtcpFbParameters. cbv zeta.
  assert (H1 : forall st a, keeps_bundle st.1 (read_general_fb st a).1).
  { intros [c1 b] [| | | | | |]; try done. cbn [read_general_fb fst snd]. destruct (_ =? -1); [apply apply_keeps|done]. }
  assert (H2 : forall st a, keeps_bundle st.1 (read_specific_fb st a).1).
  { intros [c1 b] [| | | | | |]; try done. apply apply_keeps. }
  pose proof (keeps_bundle_trans _ _ _ (G _ H1 (media_attributes m) (c, false)) (G _ H2 (media_attributes m) _)) as H.
  destruct (fold_left read_specific_fb _ _) as [c2 b]. cbn [fst] in H.
  destruct (SalStreamConfiguration.hasAvpf c2); [|destruct b]; exact H.
Qed.

Lemma read_ssrc_keeps c m : keeps_bundle c (read_ssrc c m).
Proof.
  unfold read_ssrc, scan_then. destruct (media_value m "ssrc") as [v|]; [|done]. by destruct (scan_uint v) as [[n t]|].
Qed.

Lemma read_custom_keeps l st : ensures (fun st' => keeps_bundle st.2 st'.2) (ofold read_custom_attribute st l).
Proof.
  intros st' H. eapply (ofold_invariant (fun x => keeps_bundle st.2 x.2)); [done| |exact H].
  intros x a y Hx _ Hy. unfold read_custom_attribute in Hy. cbv zeta in Hy. destruct (strcasecmp_eq _ _); [|by injection Hy as <-].
  destruct (belle_sdp_attribute_get_value a) as [v|]; [|done]. injection Hy as <-. eapply keeps_bundle_trans; [exact Hx|].
  unfold read_extmap. destruct (scan_int_base v) as [[id s]|]; [|done]. cbv zeta. destruct (_ || _); [done|].
  by repeat (destruct (strcasecmp_eq _ _); [done|]).
Qed.

Lemma read_transport_bundle c m : cfg_bundle_only (read_transport c m) = media_has m "bundle-only".
Proof. unfold read_transport. cbv zeta. by destruct (media_value m "mid"). Qed.

Lemma create_actual_bundle st md s m :
  sd_cfgs st = [] -> ice_typed st ->
  ensures (fun st' => forall c, sd_cfgs st' = [(actualConfigurationIndex, c)] ->
    cfg_bundle_only c = media_has m "bundle-only") (createActualCfg st md s m).
Proof.
  intros Hcfgs Hice. unfold createActualCfg. cbv zeta.
  apply (ensures_bind (fun _ => True)); [done|]. intros c2 _.
  pose proof (read_transport_bundle c2 m) as Hb. set (c3 := read_transport c2 m) in *. clearbody c3.
  match goal with |- context [sdpParsePayloadTypes ?c m] => set (c4 := c) end.
  match goal with |- context [read_zrtp ?c m] => set (c5 := c) end.
  assert (H5 : keeps_bundle c3 c5).
  { refine (keeps_bundle_trans _ c4 _ _ _); [done|]. unfold c5.
    pose proof (read_payloads_keeps c4 m) as Hp.
    destruct (SalStreamConfiguration.hasSrtp _); [|exact Hp]. eapply keeps_bundle_trans; [exact Hp|apply read_cryptos_keeps]. }
  clearbody c5. apply (ensures_bind (fun st' => ice_typed st' /\ ice_frame st st')); [by apply read_ice_typed|].
  intros st' [_ (F1 & _)].
  match goal with |- context [read_ssrc ?c m] => set (c6 := c) end.
  assert (H6 : keeps_bundle c5 c6).
  { refine (keeps_bundle_trans _ _ _ (read_zrtp_keeps c5 m) _). exact (read_avpf_keeps (read_zrtp c5 m) m). }
  clearbody c6. apply (ensures_bind (fun x => keeps_bundle (read_ssrc c6 m) x.2)); [apply read_custom_keeps|].
  intros [custom c] Hc. apply ensures_done. intros c' Hc'.
  match type of Hc' with sd_cfgs (addActualConfiguration ?x c) = _ =>
    change (om_set cfg_rank actualConfigurationIndex c (sd_cfgs st') = [(actualConfigurationIndex, c')]) in Hc' end.
  rewrite F1, Hcfgs in Hc'. cbn in Hc'. injection Hc' as <-. cbn [snd] in Hc.
  pose proof (read_ssrc_keeps c6 m) as Hs. unfold keeps_bundle in *. congruence.
Qed.
End Keeping.

Section Session.
Context {lib : MediaLib} {sdp : SdpLib} {ortp : OrtpRtcp}.

(** ** One stream *)

(** The type, port and maps of the stream before its configuration is read. *)
Definition line_start_ok (m : belle_sdp_media_description) (st : SalStreamDescription) : Prop :=
  ice_typed st /\ sd_cfgs st = [] /\ sd_cfgIndex st = actualConfigurationIndex /\
  getTypeAsString st = tolower (media_type m) /\ sd_rtp_port st = media_port m /\ sd_unparsed_cfgs st = [].

Lemma start_option {A m} (o : option A) (f : SalStreamDescription -> A -> SalStreamDescription) st :
  line_start_ok m st -> (forall st x, line_start_ok m st -> line_start_ok m (f st x)) ->
  line_start_ok m (match o with Some x => f st x | None => st end).
Proof. destruct o; auto. Qed.

Lemma read_type_name name :
  read_media_type name <> SalOther -> sal_stream_type_to_string (read_media_type name) = name.
Proof.
  unfold read_media_type. destruct (String.eqb_spec name "audio") as [->|_]; [done|].
  destruct (String.eqb_spec name "video") as [->|_]; [done|]. by destruct (String.eqb_spec name "text") as [->|_].
Qed.

Lemma fill_stream_line md s m : ensures (stream_of_line m) (fillStreamDescriptionFromSdp empty_stream md s m).
Proof.
  intros st H. pose proof (fill_stream_typed md s m st H) as Ht. revert H.
  unfold fillStreamDescriptionFromSdp. cbv zeta.
  match goal with |- obind (createActualCfg ?x md s m) _ = _ -> _ => set (st0 := x) end.
  assert (H0 : line_start_ok m st0).
  { apply (start_option (media_value m "content") (fun st v => st <| sd_content := v |>)); [|done].
    apply (start_option (media_value m "label") (fun st v => st <| sd_label := v |>)); [|done].
    apply (start_option (media_bandwidth m) (fun st b => if 0 <? b then st <| sd_bandwidth := b |> else st));
      [|intros st1 b H1; by destruct (0 <? b)].
    match goal with |- context [sd_type ?x =e SalOther] =>
      change (sd_type x) with (read_media_type (tolower (media_type m))); set (st1 := x) end.
    assert (H1 : sd_cfgs st1 = [] /\ sd_cfgIndex st1 = actualConfigurationIndex /\ sd_unparsed_cfgs st1 = [] /\
      sd_rtp_port st1 = media_port m /\ sd_type st1 = read_media_type (tolower (media_type m)) /\ ice_typed st1).
    { unfold st1. destruct (media_connection m) as [x|]; [destruct (cnx_address x)|]; repeat split; constructor. }
    destruct H1 as (H1 & H2 & H3 & H4 & H5 & H6). clearbody st1.
    pose proof (read_type_name (tolower (media_type m))) as Hn. unfold line_start_ok, getTypeAsString.
    destruct (bool_decide_reflect (read_media_type (tolower (media_type m)) = SalOther)) as [E|E].
    - do 3 (split; [done|]). split; [|done]. cbn. by rewrite H5, E.
    - do 3 (split; [done|]). split; [|done]. rewrite H5, bool_decide_eq_false_2 by done. by apply Hn. }
  destruct H0 as (Hice & Hcfgs & Hidx & Hty & Hport & Hun). clearbody st0.
  destruct (createActualCfg st0 md s m) as [st1| |] eqn:E; try done. cbn [obind]. intros [= <-].
  destruct (create_actual_typed st0 md s m Hice Hcfgs Hidx st1 E) as (c & Hc & _ & _ & Hx & _ & Ht1 & Ht2 & Hp & Hu).
  pose proof (create_actual_bundle st0 md s m Hcfgs Hice st1 E c Hc) as Hb.
  destruct (read_rtcp_frame st1 m) as (R1 & R2 & R3 & R4 & R5 & R6 & R7 & R8 & R9). split.
  - unfold getTypeAsString. rewrite R4, R5, Ht1, Ht2. exact Hty.
  - congruence.
  - congruence.
  - exists c. rewrite R1, Hc. by split.
  - unfold stream_wf. rewrite R1, R2, R9, Hc, Hx, Hu, Hun. split; [|split; [constructor|done]].
    split; [repeat constructor|]. by repeat constructor.
Qed.

(** Adding potential configurations. *)
Lemma add_potential_line m st cfgs :
  stream_of_line m st -> Forall (fun p => key_ok (fst p)) cfgs ->
  stream_of_line m (fillPotentialConfigurationsFromPotentialCfgGraph st cfgs).
Proof.
  unfold fillPotentialConfigurationsFromPotentialCfgGraph. revert st.
  induction cfgs as [|[idx c] cfgs IH]; intros st Hst Hk; cbn [fold_left]; [done|].
  inversion Hk as [|? ? Hi Hk']; subst. apply IH; [|done]. cbv zeta.
  set (st1 := addSupportedEncryptionFromSdp st _ _).
  assert (Hl1 : stream_of_line m st1) by by destruct Hst.
  clearbody st1. destruct Hl1 as [L1 L2 L3 (c1 & L4 & L4') L5].
  match goal with |- stream_of_line m (createPotentialConfigurationAtIdx st1 idx ?tc ?al ?b1 ?b2) =>
    destruct (createPotentialConfigurationAtIdx_grows st1 idx tc al b1 b2 L5 Hi) as [[Gw Gf Gc] _];
    set (st2 := createPotentialConfigurationAtIdx st1 idx tc al b1 b2) in * end.
  destruct (Gc actualConfigurationIndex c1 ltac:(done) L4) as (c2 & E2 & l & Hl).
  clearbody st2. split.
  - rewrite Gf. exact L1.
  - rewrite Gf. exact L2.
  - rewrite Gf. exact L3.
  - exists c2. split; [exact E2|]. by rewrite Hl.
  - exact Gw.
Qed.

Lemma fill_attrs_line md s m attrs :
  Forall (fun p => key_ok (fst p)) (attrs_cfgs attrs) ->
  ensures (stream_of_line m) (fillStreamDescriptionFromSdp_attrs empty_stream md s m attrs).
Proof.
  intros Hk. unfold fillStreamDescriptionFromSdp_attrs.
  apply (ensures_bind (stream_of_line m)); [apply fill_stream_line|]. intros st Hst.
  destruct (capabilityNegotiationSupported (md_params md)); [|by apply ensures_done]. cbv zeta. apply ensures_done.
  apply add_potential_line; [|exact Hk].
  assert (G : forall l st, stream_of_line m st -> stream_of_line m (fold_left (fun this (cfg : Z * string) =>
      this <| sd_unparsed_cfgs := (om_insert id_rank (fst cfg) (snd cfg) (sd_unparsed_cfgs this)).1 |>) l st)).
  { induction l as [|u l IH]; intros st1 H1; cbn [fold_left]; [done|]. apply IH.
    destruct H1 as [L1 L2 L3 L4 (W1 & W2 & W3)]. split; try done. split; [done|]. split; [|done].
    by apply om_insert_sorted. }
  apply G. clear G.
  assert (Hs : forall {A} (f : SalStreamDescription -> A -> SalStreamDescription) l st,
    (forall st x, stream_of_line m st -> stream_of_line m (f st x)) -> stream_of_line m st ->
    stream_of_line m (fold_left f l st)).
  { intros A f l. induction l as [|x l IH]; intros st1 Hf H1; [done|]. cbn [fold_left]. apply IH; [done|]. by apply Hf. }
  apply Hs; [by intros st1 x [? ? ? ? ?]|]. apply Hs; [by intros st1 x [? ? ? ? ?]|exact Hst].
Qed.

(** ** The configurations of the graph have 32 bit indexes *)

Variable split : string -> ascii -> list string.

Definition graph_keys (g : PotentialCfgGraph) : Prop :=
  Forall (fun p => Forall (fun q => key_ok (fst q)) (snd p)) (g_cfgs g).

Lemma process_cfg_attributes_keys attrs acaps tcaps config unparsed r :
  Forall (fun q => key_ok (fst q)) config ->
  process_cfg_attributes split attrs acaps tcaps config unparsed = Some r -> Forall (fun q => key_ok (fst q)) r.1.
Proof.
  revert config unparsed. induction attrs as [|a attrs IH]; intros config unparsed Hc; cbn [process_cfg_attributes];
    [by intros [= <-]|].
  cbv zeta. destruct (processConfig _ _ _ _) as [cc|]; [|done]. destruct (_ && _); apply IH; [done|].
  apply om_set_Forall; [done| |]; simpl; [apply u32_range|auto].
Qed.

Lemma store_cfgs_keys g idx config unparsed :
  graph_keys g -> Forall (fun q => key_ok (fst q)) config -> graph_keys (store_cfgs g idx config unparsed).1.
Proof.
  intros Hg Hc. unfold store_cfgs. cbv zeta. destruct (negb (is_nil config)); [|exact Hg].
  unfold graph_keys. cbn [fst]. apply om_set_Forall; [exact Hg|exact Hc|]. simpl. auto.
Qed.

Lemma process_media_keys g idx m g' :
  graph_keys g -> processMediaDescription split g idx m = Some g' -> graph_keys g'.
Proof.
  intros Hg. unfold processMediaDescription. cbv zeta.
  match goal with |- match processMediaCfg _ ?g2 _ _ _ with _ => _ end = _ -> _ => set (g2' := g2) end.
  assert (H2 : graph_keys g2').
  { unfold g2'. destruct (negb (is_nil (createTCapabilitiesList _ _ ))), (negb (is_nil (createACapabilitiesList _ _))); exact Hg. }
  clearbody g2'. unfold processMediaCfg, processMediaAcfg.
  destruct (process_cfg_attributes _ (media_acfgs m) _ _ _ _) as [[c u]|] eqn:E; [|done].
  apply process_cfg_attributes_keys in E; [|constructor].
  pose proof (store_cfgs_keys g2' idx c u H2 E) as H3. destruct (store_cfgs g2' idx c u) as [g3 b]. cbn [fst] in H3.
  unfold processMediaPcfg.
  destruct (process_cfg_attributes _ (media_pcfgs m) _ _ _ _) as [[c2 u2]|] eqn:E2; [|done].
  apply process_cfg_attributes_keys in E2; [|constructor].
  pose proof (store_cfgs_keys g3 idx c2 u2 H3 E2) as H4. destruct (store_cfgs g3 idx c2 u2) as [g4 b4]. by intros [= <-].
Qed.

Lemma process_session_keys g s g' :
  graph_keys g -> processSessionDescription split g s = Some g' -> graph_keys g'.
Proof.
  intros Hg. unfold processSessionDescription. cbv zeta.
  assert (G : forall l i g g', graph_keys g -> process_medias split g i l = Some g' -> graph_keys g').
  { induction l as [|m l IH]; intros i g1 g1' H1; cbn [process_medias]; [by intros [= <-]|].
    destruct (processMediaDescription split g1 i m) as [g2|] eqn:E; [|done]. apply IH. by eapply process_media_keys. }
  by apply G.
Qed.

Lemma graph_stream_keys g i : graph_keys g -> Forall (fun p => key_ok (fst p)) (getCfgForStream g i).
Proof.
  intros Hg. unfold getCfgForStream. destruct (om_find id_rank i (g_cfgs g)) as [c|] eqn:E; [|constructor].
  apply om_find_Some_In in E as (k & _ & Hin). unfold graph_keys in Hg. rewrite List.Forall_forall in Hg. exact (Hg _ Hin).
Qed.

(** ** All the streams *)

Lemma read_streams_lines md s g i medias :
  graph_keys g ->
  ensures (fun md' => exists l, md_streams md' = md_streams md ++ l /\ Forall2 stream_of_line medias l)
    (read_streams md s g i medias).
Proof.
  intros Hg. revert md i. induction medias as [|m medias IH]; intros md i; cbn [read_streams].
  - apply ensures_done. exists []. rewrite app_nil_r. split; [done|constructor].
  - apply (ensures_bind (stream_of_line m)).
    { destruct (capabilityNegotiationSupported (md_params md)); [|apply fill_stream_line].
      apply fill_attrs_line. by apply graph_stream_keys. }
    intros st Hst. cbv zeta. rewrite (stream_copy_eq st) by apply (sol_wf m st Hst).
    intros md' H. destruct (IH _ _ md' H) as (l & Hl & H2). exists (st :: l). split; [|by constructor].
    rewrite Hl. cbn. by rewrite <- app_assoc.
Qed.

Lemma on_value_streams {A} (o : option A) f x :
  (forall a, md_streams (f x a) = md_streams x) -> md_streams (on_value o f x) = md_streams x.
Proof. intros H. destruct o; [apply H|done]. Qed.

Lemma session_members_streams x s : md_streams (read_session_members x s) = md_streams x.
Proof.
  unfold read_session_members. cbv zeta.
  repeat match goal with
  | |- md_streams (update _ _ ?r) = _ => transitivity (md_streams r); [reflexivity|]
  | |- md_streams (on_value ?o _ ?r) = _ =>
      transitivity (md_streams r); [apply on_value_streams; intros; first [reflexivity|by destruct (0 <? _)]|]
  end.
  reflexivity.
Qed.

Lemma read_session_streams s md :
  SalMediaDescription_of_sdp split s = Done md -> Forall2 stream_of_line (session_media_descriptions s) (md_streams md).
Proof.
  unfold SalMediaDescription_of_sdp. cbv zeta.
  destruct (processSessionDescription split empty_graph (session_caps_of s)) as [g|] eqn:E; [|done]. cbn [or_thrown obind].
  apply process_session_keys in E; [|constructor].
  match goal with |- read_streams ?x s g ?i _ = _ -> _ => set (md0 := x) end. intros H.
  assert (H0 : md_streams md0 = []).
  { assert (Ga : forall {A} (f : SalMediaDescription -> A -> SalMediaDescription) l x,
      (forall x y, md_streams (f x y) = md_streams x) -> md_streams (fold_left f l x) = md_streams x).
    { intros A f l. induction l as [|y l IH]; intros x Hf; [done|]. cbn [fold_left]. by rewrite IH, Hf. }
    assert (Hattr : forall x a, md_streams (read_session_attribute x a) = md_streams x).
    { intros x a. unfold read_session_attribute. cbv zeta. destruct (strcasecmp_eq _ _); [|done].
      destruct (belle_sdp_attribute_get_value a) as [v|]; [|done]. by destruct (starts_with_bundle v). }
    unfold md0. destruct (capabilityNegotiationSupported _); rewrite ?Ga by done; by rewrite session_members_streams. }
  destruct (read_streams_lines md0 s g _ _ E md H) as (l & Hl & H2). rewrite H0 in Hl. cbn in Hl. by rewrite Hl.
Qed.
End Session.
