(* ===== verification/SdpErrors.v ===== *)
(** Which media lines the reader can read: the attributes that take it into
    undefined behaviour, and conditions on the text that keep it out of it. *)
From S2P Require Import Prelude Sscanf SalTypes Payload SalStreamConfiguration ReferenceLib PotentialCfgGraph SalStreamBundle SalStreamDescription SalMediaDescription SdpObjects SalSdp StreamSdpReader IceAttributes ReferenceSdp.

(** ** What conversions leave of the input *)

Definition nonspace (c : ascii) : bool := negb (is_space c).

(** No run of characters without white space has [k] of them. *)
Definition short_words (k : nat) (s : string) : Prop :=
  forall a w b, s = a +:+ w +:+ b -> str_all nonspace w = true -> (String.length w < k)%nat.

Definition rest_of (t s : string) : Prop := exists a, s = a +:+ t.

Lemma rest_of_refl s : rest_of s s.
Proof. by exists EmptyString. Qed.
Lemma rest_of_trans r s t : rest_of r s -> rest_of s t -> rest_of r t.
Proof. intros [a ->] [b ->]. exists (b +:+ a). by rewrite str_app_assoc. Qed.
Lemma rest_of_cons c s t : rest_of (String c s) t -> rest_of s t.
Proof. apply rest_of_trans. by exists (String c EmptyString). Qed.
Lemma short_words_rest k s t : short_words k s -> rest_of t s -> short_words k t.
Proof.
  intros Hs [a ->] b w d Hb Hw. apply (Hs (a +:+ b) w d); [|done]. rewrite Hb. by rewrite str_app_assoc.
Qed.
Lemma short_words_length k s : (String.length s < k)%nat -> short_words k s.
Proof. intros H a w b -> _. rewrite !str_length_app in H. lia. Qed.

Lemma str_span_split p s a b : str_span p s = (a, b) -> s = a +:+ b /\ str_all p a = true.
Proof.
  revert a b. induction s as [|c s IH]; intros a b; simpl; [by intros [= <- <-]|].
  destruct (p c) eqn:E; [|by intros [= <- <-]]. destruct (str_span p s) as [a' b']. intros [= <- <-].
  destruct (IH a' b' eq_refl) as [-> H]. simpl. by rewrite E.
Qed.
Lemma str_take_span_split p n s a b : str_take_span p n s = (a, b) -> s = a +:+ b /\ str_all p a = true.
Proof.
  revert n a b. induction s as [|c s IH]; intros [|n] a b; simpl; try by intros [= <- <-].
  destruct (p c) eqn:E; [|by intros [= <- <-]]. destruct (str_take_span p n s) as [a' b'] eqn:Es. intros [= <- <-].
  destruct (IH n a' b' Es) as [-> H]. simpl. by rewrite E.
Qed.

Lemma scan_ws_rest s : rest_of (scan_ws s) s.
Proof.
  unfold scan_ws. destruct (str_span is_space s) as [a b] eqn:E. apply str_span_split in E as [-> _]. by exists a.
Qed.
Lemma scan_str_split s w t : scan_str s = Some (w, t) -> exists a, s = a +:+ w +:+ t /\ str_all nonspace w = true.
Proof.
  unfold scan_str, scan_word. destruct (scan_ws_rest s) as [a Ha].
  destruct (str_take_span _ _ _) as [[|c u] v] eqn:E; [done|]. intros [= <- <-].
  apply str_take_span_split in E as [E Hn]. rewrite E in Ha. by exists a.
Qed.
Lemma scan_uint_rest s v t : scan_uint s = Some (v, t) -> rest_of t s.
Proof.
  unfold scan_uint. pose proof (scan_ws_rest s) as Hw. destruct (scan_ws s) as [|c s1]; [done|].
  assert (G : forall neg s2, rest_of s2 s ->
    match str_span is_digit s2 with
    | (EmptyString, _) => None
    | (ds, rest) => Some (u32 (if neg : bool then - horner 0 ds else horner 0 ds), rest)
    end = Some (v, t) -> rest_of t s).
  { intros neg s2 Hs2. destruct (str_span is_digit s2) as [[|d ds] rest] eqn:E; [done|].
    intros [= _ <-]. apply str_span_split in E as [E _]. eapply rest_of_trans; [|exact Hs2]. by exists (String d ds). }
  pose proof (rest_of_cons _ _ _ Hw) as Hc. destruct (Ascii.eqb c "-"); [|destruct (Ascii.eqb c "+")]; intros H.
  - by apply (G true s1).
  - by apply (G false s1).
  - by apply (G false (String c s1)).
Qed.
Lemma scan_int_rest s v t : scan_int s = Some (v, t) -> rest_of t s.
Proof.
  unfold scan_int. pose proof (scan_ws_rest s) as Hw. destruct (scan_sign (scan_ws s)) as [neg s1] eqn:E.
  assert (H1 : rest_of s1 s).
  { destruct (scan_ws s) as [|c s2]; cbn in E; [by injection E as <- <-|].
    destruct (Ascii.eqb c "-"); [|destruct (Ascii.eqb c "+")]; injection E as <- <-;
      first [exact (rest_of_cons _ _ _ Hw)|exact Hw]. }
  destruct (str_span is_digit s1) as [[|d ds] rest] eqn:Es; [done|]. intros [= _ <-].
  apply str_span_split in Es as [Es _]. eapply rest_of_trans; [|exact H1]. by exists (String d ds).
Qed.
Lemma scan_lit_rest lit s t : scan_lit lit s = Some t -> rest_of t s.
Proof.
  revert s. induction lit as [|c lit IH]; intros s; [intros [= <-]; apply rest_of_refl|].
  destruct s as [|d s]; [done|]. cbn. destruct (Ascii.eqb c d); [|done]. intros [a ->]%IH. by exists (String d a).
Qed.

(** ** The words of an ICE attribute *)

Definition max_ice := SAL_MEDIA_DESCRIPTION_MAX_ICE_ADDR_LEN.

(** On short words, [%s] fits its buffer. *)
Lemma ice_word_short {B} s stop (k : string -> string -> outcome B) (P : outcome B -> Prop) :
  short_words max_ice s -> P stop -> (forall w t, rest_of t s -> P (k w t)) -> P (ice_word s stop k).
Proof.
  intros Hs H1 H2. unfold ice_word, scan_str_then, scan_then.
  destruct (scan_str s) as [[w t]|] eqn:E; [|done]. apply scan_str_split in E as (a & -> & Hw).
  pose proof (Hs a w t eq_refl Hw) as Hl. apply Nat.ltb_lt in Hl. unfold max_ice in Hl.
  rewrite Nat.leb_antisym, Hl. cbn [negb]. apply H2. exists (a +:+ w). by rewrite str_app_assoc.
Qed.
Lemma scan_lit_then_rest {B} lit s stop (k : string -> outcome B) (P : outcome B -> Prop) :
  P stop -> (forall t, rest_of t s -> P (k t)) -> P (scan_lit_then lit s stop k).
Proof.
  intros H1 H2. unfold scan_lit_then. destruct (scan_lit lit (scan_ws s)) as [t|] eqn:E; [|done].
  apply H2. apply scan_lit_rest in E. eapply rest_of_trans; [exact E|apply scan_ws_rest].
Qed.
Lemma scan_int_then_rest {B} s stop (k : Z -> string -> outcome B) (P : outcome B -> Prop) :
  P stop -> (forall v t, rest_of t s -> P (k v t)) -> P (scan_then (scan_int s) stop k).
Proof.
  intros H1 H2. unfold scan_then. destruct (scan_int s) as [[v t]|] eqn:E; [|done]. apply H2. by eapply scan_int_rest.
Qed.

(** The five fields a candidate starts with. *)
Definition five_fields (v : string) : Prop :=
  exists w n p k addr rest,
    v = w +:+ String " " (dec_of_nonneg n +:+ String " " (p +:+ String " " (dec_of_nonneg k +:+ String " " (addr +:+ rest)))) /\
    is_token w /\ 0 <= n < 2 ^ 32 /\ is_token p /\ (String.length p <= 3)%nat /\ 0 <= k < 2 ^ 32 /\
    is_token addr /\ head_is (fun c => negb (is_space c)) rest = false.

Lemma sscanf_five_fields v :
  five_fields v -> short_words max_ice v -> exists r, sscanf_candidate v = Done r /\ (5 <= scan_nb r)%nat.
Proof.
  intros (w & n & p & k & addr & rest & -> & Hw & Hn & Hp & Hpl & Hk & Ha & Hr) Hs. unfold sscanf_candidate. cbv zeta.
  assert (Hshort : forall a b t, w +:+ String " " (dec_of_nonneg n +:+ String " " (p +:+ String " " (dec_of_nonneg k +:+ String " " (addr +:+ rest)))) = a +:+ b +:+ t ->
    is_token b -> ice_token b).
  { intros a b t E Hb. split; [done|]. apply (Hs a b t E). apply Hb. }
  rewrite ice_word_first; [|apply (Hshort EmptyString w _ eq_refl Hw)|done].
  rewrite scan_uint_space by done. cbn [scan_then]. rewrite (scan_word_space 3 p) by (done || apply Hp).
  cbn [scan_then]. rewrite scan_uint_space by done. cbn [scan_then].
  set (pre := w +:+ String " " (dec_of_nonneg n +:+ String " " (p +:+ String " " (dec_of_nonneg k +:+ " ")))).
  assert (E : w +:+ String " " (dec_of_nonneg n +:+ String " " (p +:+ String " " (dec_of_nonneg k +:+ String " " (addr +:+ rest)))) =
    pre +:+ addr +:+ rest).
  { unfold pre. repeat (rewrite str_app_assoc || (cbn [String.append]; fold String.append) || f_equal). }
  rewrite ice_word_space; [|by apply (Hshort pre addr rest)|done].
  assert (Hrest : short_words max_ice rest)
    by (eapply short_words_rest; [exact Hs|]; rewrite E; exists (pre +:+ addr); by rewrite str_app_assoc).
  set (P := fun o : outcome candidate_scan => exists r, o = Done r /\ (5 <= scan_nb r)%nat).
  assert (HP : forall m proto c, (5 <= m)%nat -> P (Done (mkCandidateScan m proto c))) by (intros; by eexists).
  match goal with |- exists r, ?o = Done r /\ _ => change (P o) end.
  apply scan_int_then_rest; [by apply HP; lia|]. intros port s1 H1.
  apply scan_lit_then_rest; [by apply HP; lia|]. intros s2 H2. pose proof (rest_of_trans _ _ _ H2 H1) as R2.
  apply ice_word_short; [by eapply short_words_rest|by apply HP; lia|]. intros type s3 H3.
  pose proof (rest_of_trans _ _ _ H3 R2) as R3.
  apply scan_lit_then_rest; [by apply HP; lia|]. intros s4 H4. pose proof (rest_of_trans _ _ _ H4 R3) as R4.
  apply ice_word_short; [by eapply short_words_rest|by apply HP; lia|]. intros raddr s5 H5.
  apply scan_lit_then_rest; [by apply HP; lia|]. intros s6 H6.
  apply scan_int_then_rest; [by apply HP; lia|]. intros rport s7 H7. apply HP. lia.
Qed.

Lemma read_remote_short n l v : short_words max_ice v -> exists l', read_remote_candidates n l v = Done l'.
Proof.
  revert l v. induction n as [|n IH]; intros l v Hv; cbn [read_remote_candidates]; [by eexists|].
  unfold scan_then at 1. destruct (scan_uint v) as [[id s]|] eqn:E; [|by eexists]. apply scan_uint_rest in E.
  apply ice_word_short; [by eapply short_words_rest|by eexists|]. intros addr s' Hs'.
  unfold scan_then. destruct (scan_uint s') as [[port s2]|] eqn:E2; [|by eexists]. apply scan_uint_rest in E2.
  cbv zeta. assert (R : rest_of s2 v) by (eapply rest_of_trans; [exact E2|]; by eapply rest_of_trans).
  destruct s2 as [|c t]; [by eexists|].
  destruct (Ascii.eqb c " "); apply IH; eapply short_words_rest; try exact Hv; first [exact (rest_of_cons _ _ _ R)|exact R].
Qed.

Section Lines.
Context {lib : MediaLib} {sdp : SdpLib} {ortp : OrtpRtcp}.

(** ** Lines that are read *)

(** What a peer has to respect for its media line to be read: complete
    candidates of short words, and a value where the reader expects one. *)
Record readable_line (m : belle_sdp_media_description) : Prop := {
  rl_candidate : forall a v, In a (media_attributes m) -> belle_sdp_attribute_get_name a = "candidate" ->
    belle_sdp_attribute_get_value a = Some v -> five_fields v /\ short_words max_ice v;
  rl_remote : forall a v, In a (media_attributes m) -> belle_sdp_attribute_get_name a = "remote-candidates" ->
    belle_sdp_attribute_get_value a = Some v -> short_words max_ice v;
  rl_extmap : forall a, In a (media_attributes m) -> strcasecmp_eq (belle_sdp_attribute_get_name a) "extmap" = true ->
    belle_sdp_attribute_get_value a <> None;
  rl_fingerprint : forall a, belle_sdp_media_description_get_attribute m "fingerprint" = Some a ->
    belle_sdp_attribute_get_value a <> None
}.

Lemma ofold_total {A B} (f : A -> B -> outcome A) acc l :
  (forall a x, In x l -> exists b, f a x = Done b) -> exists b, ofold f acc l = Done b.
Proof.
  revert acc. induction l as [|x l IH]; intros acc H; cbn [ofold]; [by eexists|].
  destruct (H acc x) as [b ->]; [by left|]. cbn [obind]. apply IH. intros a y Hy. apply H. by right.
Qed.

Lemma read_ice_readable m st a :
  readable_line m -> In a (media_attributes m) -> exists st', read_ice_attribute st a = Done st'.
Proof.
  intros Hm Ha. unfold read_ice_attribute. cbv zeta. destruct (belle_sdp_attribute_get_value a) as [v|] eqn:Ev.
  - destruct (String.eqb_spec "candidate" (belle_sdp_attribute_get_name a)) as [E|_].
    { destruct (rl_candidate m Hm a v Ha (eq_sym E) Ev) as [H5 Hs].
      destruct (sscanf_five_fields v H5 Hs) as (r & Hr & Hn). unfold read_candidate. rewrite Hr. cbn [obind].
      rewrite (proj2 (Nat.ltb_ge _ _) Hn). destruct (_ && _); cbn [obind]; by eexists. }
    destruct (String.eqb_spec "remote-candidates" (belle_sdp_attribute_get_name a)) as [E|_].
    { destruct (read_remote_short (S (String.length v)) (sd_ice_remote_candidates st) v) as [l ->];
        [by apply (rl_remote m Hm a)|]. cbn [obind]. by eexists. }
    destruct (String.eqb _ _); [by eexists|]. destruct (String.eqb _ _); [by eexists|].
    destruct (String.eqb _ _); by eexists.
  - destruct (String.eqb _ _); by eexists.
Qed.

Lemma read_dtls_readable m c : readable_line m -> exists c', read_dtls c m = Done c'.
Proof.
  intros Hm. unfold read_dtls. cbv zeta. destruct (_ && _); [|by eexists].
  destruct (belle_sdp_media_description_get_attribute m "fingerprint") as [a|] eqn:E; [|by eexists].
  pose proof (rl_fingerprint m Hm a E). destruct (belle_sdp_attribute_get_value a); [by eexists|done].
Qed.

Lemma readable_line_done this md s m :
  readable_line m -> exists st, fillStreamDescriptionFromSdp this md s m = Done st.
Proof.
  intros Hm. unfold fillStreamDescriptionFromSdp, createActualCfg. cbv zeta.
  match goal with |- context [read_dtls ?c m] => destruct (read_dtls_readable m c Hm) as [c' ->] end. cbn [obind].
  match goal with |- context [sdpParseMediaIceParameters ?st m] =>
    destruct (ofold_total read_ice_attribute st (media_attributes m)) as [st' Hst] end.
  { intros st a Ha. by apply (read_ice_readable m). }
  unfold sdpParseMediaIceParameters. rewrite Hst. cbn [obind].
  match goal with |- context [ofold read_custom_attribute ?x _] =>
    destruct (ofold_total read_custom_attribute x (media_attributes m)) as [[custom c2] ->] end.
  { intros x a Ha. unfold read_custom_attribute. cbv zeta.
    destruct (strcasecmp_eq _ _) eqn:E; [|by eexists]. pose proof (rl_extmap m Hm a Ha E).
    destruct (belle_sdp_attribute_get_value a); [by eexists|done]. }
  cbn [obind]. by eexists.
Qed.

(** ** Lines that are not *)

(** The attributes that take the reader into undefined behaviour: a candidate
    whose first word does not fit 64 bytes, one that stops before its address,
    remote candidates with an address that long, an [extmap] without a value. *)
Inductive fatal_attribute : belle_sdp_attribute -> Prop :=
| fatal_foundation w rest :
    is_token w -> (max_ice <= String.length w)%nat -> head_is (fun c => negb (is_space c)) rest = false ->
    fatal_attribute (RawAttribute "candidate" (Some (w +:+ rest)))
| fatal_component w rest :
    ice_token w -> head_is (fun c => negb (is_space c)) rest = false -> scan_uint rest = None ->
    fatal_attribute (RawAttribute "candidate" (Some (w +:+ rest)))
| fatal_remote id addr rest :
    0 <= id < 2 ^ 32 -> is_token addr -> (max_ice <= String.length addr)%nat ->
    head_is (fun c => negb (is_space c)) rest = false ->
    fatal_attribute (RawAttribute "remote-candidates" (Some (dec_of_nonneg id +:+ String " " (addr +:+ rest))))
| fatal_extmap name :
    strcasecmp_eq name "extmap" = true -> fatal_attribute (RawAttribute name None).

Lemma ofold_undefined {A B} (f : A -> B -> outcome A) acc l x :
  (forall a y, f a y <> Thrown) -> In x l -> (forall a, f a x = Undefined) -> ofold f acc l = Undefined.
Proof.
  intros Ht Hx Hu. revert acc. induction l as [|y l IH]; intros acc; [destruct Hx|]. cbn [ofold].
  destruct Hx as [->|Hx]; [by rewrite Hu|]. destruct (f acc y) eqn:E; cbn [obind]; [by apply IH|done|by destruct (Ht acc y)].
Qed.
Lemma ofold_not_thrown {A B} (f : A -> B -> outcome A) acc l :
  (forall a y, f a y <> Thrown) -> ofold f acc l <> Thrown.
Proof.
  intros Ht. revert acc. induction l as [|y l IH]; intros acc; cbn [ofold]; [done|].
  destruct (f acc y) eqn:E; cbn [obind]; [apply IH|done|by destruct (Ht acc y)].
Qed.

Lemma ice_word_not_thrown {B} s stop (k : string -> string -> outcome B) :
  stop <> Thrown -> (forall w t, k w t <> Thrown) -> ice_word s stop k <> Thrown.
Proof.
  intros H1 H2. unfold ice_word, scan_str_then, scan_then. destruct (scan_str s) as [[w t]|]; [|done].
  destruct (_ <=? _)%nat; [done|apply H2].
Qed.
Lemma scan_then_not_thrown {A B} (r : option (A * string)) stop (k : A -> string -> outcome B) :
  stop <> Thrown -> (forall w t, k w t <> Thrown) -> scan_then r stop k <> Thrown.
Proof. intros H1 H2. unfold scan_then. destruct r as [[w t]|]; [apply H2|done]. Qed.
Lemma scan_lit_not_thrown {B} lit s stop (k : string -> outcome B) :
  stop <> Thrown -> (forall t, k t <> Thrown) -> scan_lit_then lit s stop k <> Thrown.
Proof. intros H1 H2. unfold scan_lit_then. destruct (scan_lit _ _); [apply H2|done]. Qed.

Lemma read_ice_not_thrown st a : read_ice_attribute st a <> Thrown.
Proof.
  unfold read_ice_attribute. cbv zeta. destruct (belle_sdp_attribute_get_value a) as [v|]; [|by destruct (String.eqb _ _)].
  destruct (String.eqb _ _).
  { unfold read_candidate, sscanf_candidate. cbv zeta.
    match goal with |- obind (obind ?x _) _ <> _ => assert (Hx : x <> Thrown) end.
    { repeat first [apply ice_word_not_thrown; [done|]; intros ? ?|apply scan_then_not_thrown; [done|]; intros ? ?
        |apply scan_lit_not_thrown; [done|]; intros ?]. done. }
    match goal with |- obind (obind ?x _) _ <> _ => destruct x; cbn [obind]; try done end.
    destruct (_ <? _)%nat; [done|]. by destruct (_ && _). }
  destruct (String.eqb _ _).
  { match goal with |- obind ?x _ <> _ => assert (Hx : x <> Thrown); [|by destruct x] end.
    generalize (S (String.length v)) as n, (sd_ice_remote_candidates st) as l. intros n. revert v.
    induction n as [|n IH]; intros v l; cbn [read_remote_candidates]; [done|].
    apply scan_then_not_thrown; [done|]. intros id s. apply ice_word_not_thrown; [done|]. intros addr s'.
    apply scan_then_not_thrown; [done|]. intros port s2. cbv zeta. destruct s2 as [|c t]; [done|].
    destruct (Ascii.eqb c " "); apply IH. }
  repeat (destruct (String.eqb _ _); [done|]). done.
Qed.

Lemma ice_word_long {B} s w t stop (k : string -> string -> outcome B) :
  scan_str s = Some (w, t) -> (max_ice <= String.length w)%nat -> ice_word s stop k = Undefined.
Proof.
  intros Hs Hl. unfold ice_word, scan_str_then, scan_then. rewrite Hs. apply Nat.leb_le in Hl. unfold max_ice in Hl.
  by rewrite Hl.
Qed.

(** Either the ICE loop or the loop on all attributes stops at the attribute. *)
Lemma fatal_stops a :
  fatal_attribute a ->
  (forall st, read_ice_attribute st a = Undefined) \/ (forall st, read_custom_attribute st a = Undefined).
Proof.
  intros [w rest Hw Hl Hr|w rest Hw Hr Hn|id addr rest Hid Ha Hl Hr|name Hname].
  - left. intros st. unfold read_ice_attribute. cbn. unfold read_candidate, sscanf_candidate. cbv zeta.
    by rewrite (ice_word_long _ w rest) by (done || by apply scan_str_token).
  - left. intros st. unfold read_ice_attribute. cbn. unfold read_candidate, sscanf_candidate. cbv zeta.
    rewrite ice_word_first by done. by rewrite Hn.
  - left. intros st. unfold read_ice_attribute. cbn [belle_sdp_attribute_get_value belle_sdp_attribute_get_name].
    change (String.eqb "candidate" "remote-candidates") with false.
    change (String.eqb "remote-candidates" "remote-candidates") with true. cbv iota zeta.
    cbn [read_remote_candidates]. rewrite scan_uint_dec by done. cbn [scan_then].
    by rewrite (ice_word_long _ addr rest) by (done || by apply scan_str_space).
  - right. intros st. unfold read_custom_attribute. cbn [belle_sdp_attribute_get_name belle_sdp_attribute_get_value].
    cbv zeta. by rewrite Hname.
Qed.

Lemma fatal_line_undefined this md s m a :
  In a (media_attributes m) -> fatal_attribute a -> fillStreamDescriptionFromSdp this md s m = Undefined.
Proof.
  intros Ha Hf. unfold fillStreamDescriptionFromSdp, createActualCfg. cbv zeta.
  match goal with |- context [read_dtls ?c m] => assert (Hd : read_dtls c m <> Thrown); [|destruct (read_dtls c m)] end.
  { unfold read_dtls. cbv zeta. destruct (_ && _); [|done].
    destruct (belle_sdp_media_description_get_attribute m "fingerprint") as [f|]; [|done].
    by destruct (belle_sdp_attribute_get_value f). }
  2: done.
  2: done.
  cbn [obind]. unfold sdpParseMediaIceParameters. destruct (fatal_stops a Hf) as [Hi|Hi].
  { by rewrite (ofold_undefined _ _ _ a read_ice_not_thrown Ha Hi). }
  match goal with |- context [ofold read_ice_attribute ?st ?l] =>
    pose proof (ofold_not_thrown read_ice_attribute st l read_ice_not_thrown) as Hn;
    destruct (ofold read_ice_attribute st l); [|done|done] end.
  cbn [obind]. rewrite (ofold_undefined _ _ _ a); [done| |done|done].
  intros x y. unfold read_custom_attribute. cbv zeta. destruct (strcasecmp_eq _ _); [|done].
  by destruct (belle_sdp_attribute_get_value y).
Qed.
End Lines.
