(* ===== verification/SdpProps.v ===== *)
(** What the readers and writers of a media line guarantee: round trips,
    termination of the scans, and the text that makes the reader fail. *)
From S2P Require Import Prelude Sscanf SalTypes Payload SalStreamConfiguration ReferenceLib StreamDescriptionProps PotentialCfgGraph SalStreamBundle SalStreamDescription SalMediaDescription SdpObjects SalSdp StreamSdpReader StreamSdpWriter IceAttributes WrittenLine FeedbackAttributes LineLookup LineReading LineRoundtrip SdpTyping SdpErrors ReferenceSdp.

(** ** The scan of remote candidates *)

(** What one turn of [while (3 == sscanf(ptr, "%u %s %u%n", ...))] does. *)
Inductive remote_turn (l : list SalIceRemoteCandidate) (ptr : string) :
    outcome (list SalIceRemoteCandidate) + (list SalIceRemoteCandidate * string) -> Prop :=
| turn_no_component :
    scan_uint ptr = None -> remote_turn l ptr (inl (Done l))
| turn_no_address id s :
    scan_uint ptr = Some (id, s) -> scan_str s = None -> remote_turn l ptr (inl (Done l))
| turn_overflow id s addr s' :
    scan_uint ptr = Some (id, s) -> scan_str s = Some (addr, s') ->
    (SAL_MEDIA_DESCRIPTION_MAX_ICE_ADDR_LEN <= String.length addr)%nat -> remote_turn l ptr (inl Undefined)
| turn_no_port id s addr s' :
    scan_uint ptr = Some (id, s) -> scan_str s = Some (addr, s') ->
    (String.length addr < SAL_MEDIA_DESCRIPTION_MAX_ICE_ADDR_LEN)%nat -> scan_uint s' = None ->
    remote_turn l ptr (inl (Done l))
| turn_last id s addr s' port :
    scan_uint ptr = Some (id, s) -> scan_str s = Some (addr, s') ->
    (String.length addr < SAL_MEDIA_DESCRIPTION_MAX_ICE_ADDR_LEN)%nat -> scan_uint s' = Some (port, EmptyString) ->
    remote_turn l ptr (inl (Done (store_remote_candidate l id (mkIceRemoteCandidate addr (i32 port)))))
| turn_next id s addr s' port c t :
    scan_uint ptr = Some (id, s) -> scan_str s = Some (addr, s') ->
    (String.length addr < SAL_MEDIA_DESCRIPTION_MAX_ICE_ADDR_LEN)%nat -> scan_uint s' = Some (port, String c t) ->
    remote_turn l ptr
      (inr (store_remote_candidate l id (mkIceRemoteCandidate addr (i32 port)), if Ascii.eqb c " " then t else String c t)).

(** The loop: turns until one stops. *)
Inductive remote_loop : list SalIceRemoteCandidate -> string -> outcome (list SalIceRemoteCandidate) -> Prop :=
| loop_stop l ptr r : remote_turn l ptr (inl r) -> remote_loop l ptr r
| loop_turn l ptr l' ptr' r : remote_turn l ptr (inr (l', ptr')) -> remote_loop l' ptr' r -> remote_loop l ptr r.

Lemma remote_turn_deterministic l ptr r1 r2 : remote_turn l ptr r1 -> remote_turn l ptr r2 -> r1 = r2.
Proof. intros H1 H2. destruct H1; inversion H2; simplify_eq; try done; lia. Qed.

Lemma remote_turn_shorter l ptr l' ptr' :
  remote_turn l ptr (inr (l', ptr')) -> (String.length ptr' < String.length ptr)%nat.
Proof.
  inversion 1 as [| | | | |id s addr s' port c t H1 H2 _ H3]; subst.
  apply scan_uint_shorter in H1, H3. apply scan_str_shorter in H2. destruct (Ascii.eqb c " "); simpl in *; lia.
Qed.

Lemma read_remote_is_loop n l ptr :
  (String.length ptr < n)%nat -> remote_loop l ptr (read_remote_candidates n l ptr).
Proof.
  revert l ptr. induction n as [|n IH]; intros l ptr Hn; [lia|]. cbn [read_remote_candidates].
  unfold ice_word, scan_str_then, scan_then.
  destruct (scan_uint ptr) as [[id s]|] eqn:E1; [|by apply loop_stop, turn_no_component].
  destruct (scan_str s) as [[addr s']|] eqn:E2; [|by eapply loop_stop, turn_no_address].
  destruct (Nat.leb_spec SAL_MEDIA_DESCRIPTION_MAX_ICE_ADDR_LEN (String.length addr)) as [Ha|Ha];
    [by eapply loop_stop, turn_overflow|].
  destruct (scan_uint s') as [[port [|c t]]|] eqn:E3; [by eapply loop_stop, turn_last| |by eapply loop_stop, turn_no_port].
  pose proof (turn_next l ptr id s addr s' port c t E1 E2 Ha E3) as Ht. eapply loop_turn; [exact Ht|].
  apply remote_turn_shorter in Ht. destruct (Ascii.eqb c " "); apply IH; lia.
Qed.

Lemma remote_loop_deterministic l ptr r1 r2 : remote_loop l ptr r1 -> remote_loop l ptr r2 -> r1 = r2.
Proof.
  intros H. revert r2. induction H as [l ptr r H|l ptr l' ptr' r H _ IH]; intros r2 H2;
    inversion H2 as [? ? ? H'|? ? ? ? ? H']; subst; pose proof (remote_turn_deterministic _ _ _ _ H H'); simplify_eq; [done|].
  by apply IH.
Qed.

(** The [while] loop on the remote candidates of an attribute ends whatever
    the text is, with one result, and the model gives the loop enough turns to
    reach it. *)
Theorem remote_candidates_scan_terminates l value :
  remote_loop l value (read_remote_candidates (S (String.length value)) l value) /\
  forall r, remote_loop l value r -> r = read_remote_candidates (S (String.length value)) l value.
Proof.
  assert (H := read_remote_is_loop (S (String.length value)) l value ltac:(lia)).
  split; [exact H|]. intros r Hr. exact (remote_loop_deterministic _ _ _ _ Hr H).
Qed.

(** ** A media line *)

(** C3. What [toSdpMediaDescription] writes for a stream,
    [fillStreamDescriptionFromSdp] reads back as the same stream: its transport,
    address, ports, bandwidth, labels, ICE parameters and candidates, payload
    types with their feedback parameters, SRTP algorithms, DTLS role and
    fingerprint, media id, header extensions and multiplexing flags. *)
Theorem media_line_roundtrip {lib : MediaLib} {sdp : SdpLib} {ortp : OrtpRtcp} {spec : SdpLibSpec sdp}
    {ospec : OrtpRtcpSpec ortp} this md md' s sess :
  capabilityNegotiationSupported (md_params md) = false -> good_stream this -> plain_session sess ->
  exists st,
    fillStreamDescriptionFromSdp empty_stream md' sess (toSdpMediaDescription this md s).1.1 = Done st /\
    stream_read this md md' s st.
Proof.
  intros Hc Hg Hs. rewrite toSdpMediaDescription_line by done. by apply line_roundtrip.
Qed.

(** An audio stream with SRTP and ICE. *)
Definition ex_candidate : SalIceCandidate := mkIceCandidate "192.0.2.1" "10.0.0.2" "1" "srflx" 1 2130706431 7078 7078.
Definition ex_line_cfg : SalStreamConfiguration :=
  (ex_cfg SalProtoRtpSavp SalStreamSendOnly [ref_pt "PCMU" 8000 0; ref_pt "PCMA" 8000 8])
  <| cfg_crypto := [mkCrypto 1 1 "WVNfX19zZW1jdGwgKCkgewkyMjA7fQp9CnVubGVz"] |>
  <| cfg_mid := "as" |> <| cfg_mid_rtp_ext_header_id := 1 |> <| cfg_rtcp_mux := true |>.
Definition ex_line_stream : SalStreamDescription :=
  (ex_stream SalAudio "192.0.2.1" 7078 ex_line_cfg)
  <| sd_rtcp_port := 7079 |> <| sd_label := "main" |> <| sd_ice_ufrag := "abcd" |> <| sd_ice_pwd := "0123456789" |>
  <| sd_ice_candidates := [ex_candidate] |> <| sd_ice_remote_candidates := [mkIceRemoteCandidate "198.51.100.7" 5000] |>.
Definition ex_session : belle_sdp_session_description :=
  mkSessionDescription 0 (mkOrigin None 0 0 "IP4" "") None None [] None [] [].

Lemma ex_token w : forallb (fun c => negb (is_space c)) (list_ascii_of_string w) && negb (str_empty w) &&
  (String.length w <? SAL_MEDIA_DESCRIPTION_MAX_ICE_ADDR_LEN)%nat = true -> ice_token w.
Proof.
  intros [[H1 H2%negb_true_iff]%andb_true_iff H3%Nat.ltb_lt]%andb_true_iff. split; [|done]. split.
  - by apply str_empty_false.
  - clear -H1. induction w as [|c w IH]; [done|]. cbn in *. apply andb_true_iff in H1 as [-> H1]. by apply IH.
Qed.

Lemma ex_line_good : @good_stream ref_lib ref_ortp ex_line_stream.
Proof.
  split.
  - reflexivity.
  - discriminate.
  - discriminate.
  - split; try (by split).
    + intros _. constructor; [|constructor]. exists "AES_CM_128_HMAC_SHA1_80", None.
      split; split; try reflexivity; try discriminate; cbn; repeat split; try discriminate; lia.
    + apply Nat.le_0_l.
  - discriminate.
  - constructor; [|constructor; [|constructor]]; (repeat split; try discriminate; try (cbn; lia)); eexists; by repeat split.
  - repeat (apply List.NoDup_cons; [intros H; cbn in H; intuition congruence|]). apply List.NoDup_nil.
  - intros H. discriminate.
  - by left.
  - constructor.
  - split.
    + constructor; [|constructor]. split; try (apply ex_token; reflexivity); try (cbn; lia).
      right. split; [by apply ex_token|cbn; lia].
    + reflexivity.
    + constructor; [|constructor]. left. split; [by apply ex_token|cbn; lia].
    + intros c [= <-]. split; [by apply ex_token|cbn; lia].
    + cbn. lia.
    + discriminate.
  - split; [cbn; lia|intros H; discriminate].
Qed.

Lemma media_line_roundtrip_witness :
  exists st,
    @fillStreamDescriptionFromSdp ref_lib ref_sdp ref_ortp empty_stream ex_local ex_session
      (@toSdpMediaDescription ref_lib ref_sdp ref_ortp ex_line_stream ex_local ex_session).1.1 = Done st /\
    @stream_read ref_sdp ref_ortp ex_line_stream ex_local ex_local ex_session st.
Proof.
  apply (@media_line_roundtrip ref_lib ref_sdp ref_ortp ref_sdp_spec ref_ortp_spec).
  - reflexivity.
  - exact ex_line_good.
  - by split.
Defined.

(** C5. Whatever media line the reader accepts, the stream it makes is well
    formed: one configuration, the actual one, chosen; header extension ids of
    4 bits; SRTP algorithms only for an SRTP transport and never the invalid
    one; a ZRTP hash, ICE words and numbers that fit their buffers and
    integers. *)
Theorem read_stream_typed {lib : MediaLib} {sdp : SdpLib} {ortp : OrtpRtcp} md s m st :
  fillStreamDescriptionFromSdp empty_stream md s m = Done st -> stream_typed st.
Proof. apply fill_stream_typed. Qed.

Definition ex_line (attributes : list belle_sdp_attribute) : belle_sdp_media_description :=
  mkMediaDescription "audio" 7078 1 "UDP/TLS/RTP/SAVP" [0] None (Some 64) attributes.
Definition ex_attributes : list belle_sdp_attribute :=
  [RawAttribute "setup" (Some "actpass"); RawAttribute "fingerprint" (Some "sha-256 AB:CD");
   RawAttribute "candidate" (Some "1 1 UDP 2130706431 192.0.2.1 7078 typ host");
   RawAttribute "remote-candidates" (Some "1 198.51.100.7 5000"); RawAttribute "extmap" (Some "16 urn:x")].

Lemma read_stream_typed_witness :
  exists st, @fillStreamDescriptionFromSdp ref_lib ref_sdp ref_ortp empty_stream ex_local ex_session (ex_line ex_attributes)
    = Done st /\ @stream_typed ref_lib st.
Proof.
  destruct (@fillStreamDescriptionFromSdp ref_lib ref_sdp ref_ortp empty_stream ex_local ex_session (ex_line ex_attributes))
    as [st| |] eqn:E.
  - exists st. split; [done|]. exact (@read_stream_typed ref_lib ref_sdp ref_ortp _ _ _ _ E).
  - vm_compute in E. discriminate.
  - vm_compute in E. discriminate.
Defined.

(** C6. A media line is always read when its candidates have the five first
    fields of ICE, the words of its ICE attributes are shorter than 64
    characters, and its [extmap] and [fingerprint] attributes have a value:
    nothing else a peer sends makes the reader fail. *)
Theorem conforming_line_is_read {lib : MediaLib} {sdp : SdpLib} {ortp : OrtpRtcp} this md s m :
  readable_line m -> exists st, fillStreamDescriptionFromSdp this md s m = Done st.
Proof. apply readable_line_done. Qed.

Lemma conforming_line_is_read_witness :
  exists st, @fillStreamDescriptionFromSdp ref_lib ref_sdp ref_ortp empty_stream ex_local ex_session (ex_line ex_attributes)
    = Done st.
Proof.
  apply (@conforming_line_is_read ref_lib ref_sdp ref_ortp). split.
  - intros a v Ha Hn Hv. repeat (destruct Ha as [<-|Ha]; [try discriminate|]); [|destruct Ha].
    injection Hv as <-. split; [|apply short_words_length; cbn; unfold max_ice, SAL_MEDIA_DESCRIPTION_MAX_ICE_ADDR_LEN; lia].
    exists "1", 1, "UDP", 2130706431, "192.0.2.1", " 7078 typ host".
    split; [reflexivity|]. split; [by split|]. split; [lia|]. split; [by split|]. split; [cbn; lia|]. split; [lia|]. by split.
  - intros a v Ha Hn Hv. repeat (destruct Ha as [<-|Ha]; [try discriminate|]); [|destruct Ha].
    injection Hv as <-. apply short_words_length. cbn. unfold max_ice, SAL_MEDIA_DESCRIPTION_MAX_ICE_ADDR_LEN. lia.
  - intros a Ha _. by repeat (destruct Ha as [<-|Ha]; [try discriminate|]).
  - by intros a [= <-].
Defined.

(** C7. A candidate whose first word has 64 characters or more, or that has no
    number after its first word, remote candidates with an address that long,
    and an [extmap] attribute without a value each take the reader of the line
    into undefined behaviour, wherever they are on the line. *)
Theorem fatal_attribute_undefined {lib : MediaLib} {sdp : SdpLib} {ortp : OrtpRtcp} this md s m a :
  In a (media_attributes m) -> fatal_attribute a -> fillStreamDescriptionFromSdp this md s m = Undefined.
Proof. apply fatal_line_undefined. Qed.

Lemma fatal_attribute_undefined_witness :
  @fillStreamDescriptionFromSdp ref_lib ref_sdp ref_ortp empty_stream ex_local ex_session
    (ex_line [RawAttribute "candidate" (Some "1 UDP")]) = Undefined.
Proof.
  apply (@fatal_attribute_undefined ref_lib ref_sdp ref_ortp _ _ _ _ (RawAttribute "candidate" (Some "1 UDP"))).
  - by left.
  - apply (fatal_component "1" " UDP"); [by apply ex_token|reflexivity|reflexivity].
Defined.

(** Reading an [rtcp-xr] attribute never sets a statistics flag, whatever
    flags it lists, and what is then written for the configuration that was read
    lists none. *)
Theorem rtcp_xr_flags_lost {sdp : SdpLib} {ortp : OrtpRtcp} {ospec : OrtpRtcpSpec ortp} a config :
  let read := sdp_parse_rtcp_xr_parameters (Some a) config in
  stat_summary_flags read = OrtpRtcpXrStatSummaryNone /\ stat_summary_enabled read = xr_stat_summary a /\
  forall x, create_rtcp_xr_attribute read = RtcpXrAttribute x ->
    xr_stat_summary_flags x = xr_stat_summary_flags belle_sdp_rtcp_xr_attribute_new.
Proof.
  cbv zeta.
  assert (E : forall l c, read_stat_summary_flags c l = c) by (intros l c; apply read_stat_summary_flags_id).
  assert (Hread : stat_summary_flags (sdp_parse_rtcp_xr_parameters (Some a) config) = OrtpRtcpXrStatSummaryNone /\
    stat_summary_enabled (sdp_parse_rtcp_xr_parameters (Some a) config) = xr_stat_summary a).
  { unfold sdp_parse_rtcp_xr_parameters. cbv zeta. rewrite E.
    destruct (xr_rcvr_rtt_mode a) as [mode|]; [destruct (strcasecmp_eq mode "all"); [|destruct (strcasecmp_eq mode "sender")]|];
      by destruct (stat_summary_enabled _). }
  destruct Hread as [Hf He]. split; [exact Hf|]. split; [exact He|].
  intros x. unfold create_rtcp_xr_attribute. cbv zeta. rewrite Hf, stat_none_zero. unfold has_bit. rewrite !Z.bits_0.
  generalize (sdp_parse_rtcp_xr_parameters (Some a) config) as c. intros c.
  destruct (negb (rcvr_rtt_mode c =? _)); [destruct (rcvr_rtt_mode c =? _); [|destruct (rcvr_rtt_mode c =? _)]|];
    destruct (stat_summary_enabled c); by intros [= <-].
Qed.

Lemma rtcp_xr_flags_lost_witness :
  let a := mkRtcpXrAttribute None 0 true ["loss"; "dup"] false in
  let read := @sdp_parse_rtcp_xr_parameters ref_ortp (Some a) (mkRtcpXr false 0 0 false 0 false) in
  stat_summary_flags read = 0 /\ stat_summary_enabled read = true /\
  forall x, @create_rtcp_xr_attribute ref_sdp ref_ortp read = RtcpXrAttribute x -> xr_stat_summary_flags x = [].
Proof. apply (@rtcp_xr_flags_lost ref_sdp ref_ortp ref_ortp_spec). Defined.
