(* ===== verification/MediaDescriptionProps.v ===== *)
(** What [SalMediaDescription] promises: the owner of the transport of a bundle,
    the searches on streams, the direction of a session and the comparison of
    two descriptions. *)
From S2P Require Import Prelude SalTypes Payload SalStreamConfiguration ReferenceLib SalStreamBundle SalStreamDescription SalMediaDescription ReferenceSdp.

(** ** Transport owners *)

Lemma lookupMid_spec this mid i :
  lookupMid this mid = Z.of_nat i <->
  exists s, md_streams this !! i = Some s /\ getMid s = mid /\
    forall j t, (j < i)%nat -> md_streams this !! j = Some t -> getMid t <> mid.
Proof.
  unfold lookupMid. rewrite idx_or_minus1_found, find_idx_Some. split.
  - intros (s & Hs & Hm & Hlt). exists s. split; [done|]. split; [by apply String.eqb_eq in Hm|].
    intros j t Hj Ht. apply Hlt in Ht; [|done]. by apply String.eqb_neq in Ht.
  - intros (s & Hs & Hm & Hlt). exists s. split; [done|]. split; [by apply String.eqb_eq|].
    intros j t Hj Ht. apply String.eqb_neq. by eapply Hlt.
Qed.

(** [b] is the first bundle with that mid. *)
Definition first_bundle (this : SalMediaDescription) (mid : string) (b : SalStreamBundle) : Prop :=
  exists pre post, md_bundles this = pre ++ b :: post /\ In mid b /\ Forall (fun b' => ~ In mid b') pre.

Lemma getBundleFromMid_spec this mid b :
  In mid b -> (getBundleFromMid this mid = b <-> first_bundle this mid b).
Proof.
  intros Hin. unfold getBundleFromMid, first_bundle. induction (md_bundles this) as [|b0 bs IH]; simpl.
  - split; [intros <-; destruct Hin|]. intros (pre & post & H & _). by apply app_cons_not_nil in H.
  - destruct (hasMid b0 mid) eqn:E.
    + apply hasMid_In in E. split.
      * intros <-. exists [], bs. auto.
      * intros (pre & post & H & _ & Hpre). destruct pre as [|x pre]; injection H as -> H; [done|].
        inversion Hpre; tauto.
    + assert (Hn : ~ In mid b0) by (by rewrite <- hasMid_In, E). rewrite IH. split.
      * intros (pre & post & -> & _ & Hpre). exists (b0 :: pre), post. auto.
      * intros (pre & post & H & _ & Hpre). destruct pre as [|x pre]; injection H as -> H; [tauto|].
        inversion Hpre; subst. eauto.
Qed.

Lemma getBundleFromMid_In this mid : In mid (getBundleFromMid this mid) \/ getBundleFromMid this mid = [].
Proof.
  unfold getBundleFromMid. destruct (List.find _ _) as [b|] eqn:E; [|auto].
  apply List.find_some in E as [_ E]. left. by apply hasMid_In.
Qed.

Lemma getIndexOfTransportOwner_spec this sd i :
  getIndexOfTransportOwner this sd = Z.of_nat i <->
  getMid sd <> EmptyString /\
  exists b owner s, first_bundle this (getMid sd) b /\ head b = Some owner /\ owner <> EmptyString /\
    md_streams this !! i = Some s /\ getMid s = owner /\
    forall j t, (j < i)%nat -> md_streams this !! j = Some t -> getMid t <> owner.
Proof.
  unfold getIndexOfTransportOwner. destruct (str_empty (getMid sd)) eqn:Em.
  { apply str_empty_spec in Em. split; [lia|tauto]. }
  apply str_empty_false in Em. cbv zeta.
  set (b := getBundleFromMid this (getMid sd)).
  destruct (bool_decide_reflect (b = [])) as [Hb|Hb]; unfold bundle_eq; [rewrite (bool_decide_true _ Hb)|rewrite (bool_decide_false _ Hb)].
  - split; [lia|]. intros (_ & b' & owner & s & Hf & _). exfalso.
    assert (Hin : In (getMid sd) b') by (by destruct Hf as (? & ? & _ & ? & _)).
    apply (getBundleFromMid_spec _ _ _ Hin) in Hf. fold b in Hf. by rewrite <- Hf, Hb in Hin.
  - assert (Hin : In (getMid sd) b) by (by destruct (getBundleFromMid_In this (getMid sd))).
    assert (Hf : first_bundle this (getMid sd) b) by (by apply (getBundleFromMid_spec _ _ _ Hin)).
    destruct b as [|owner rest] eqn:Eb; [done|]. cbn [getMidOfTransportOwner].
    assert (Huniq : forall b', first_bundle this (getMid sd) b' -> b' = owner :: rest).
    { intros b' Hf'. assert (Hin' : In (getMid sd) b') by (by destruct Hf' as (? & ? & _ & ? & _)).
      apply (getBundleFromMid_spec _ _ _ Hin') in Hf'. subst b. congruence. }
    destruct (str_empty owner) eqn:Eo.
    + apply str_empty_spec in Eo. split; [lia|]. intros (_ & b' & o & s & Hf' & Ho & Hne & _).
      apply Huniq in Hf'. subst b'. injection Ho as <-. done.
    + apply str_empty_false in Eo. rewrite lookupMid_spec. split.
      * intros (s & Hs & Hm & Hlt). split; [done|]. exists (owner :: rest), owner, s. done.
      * intros (_ & b' & o & s & Hf' & Ho & Hne & Hs & Hm & Hlt). apply Huniq in Hf'. subst b'.
        injection Ho as <-. eauto.
Qed.

(** ** The best stream of a type *)

(** The transports from the most to the least wanted. *)
Definition preferred_protos : list SalMediaProto :=
  [SalProtoUdpTlsRtpSavpf; SalProtoUdpTlsRtpSavp; SalProtoRtpSavpf; SalProtoRtpSavp; SalProtoRtpAvpf; SalProtoRtpAvp].

Definition usable (type : SalStreamType) (proto : SalMediaProto) (s : SalStreamDescription) : Prop :=
  enabled s = true /\ getProto s = proto /\ sd_type s = type.

Lemma usable_iff type proto s :
  enabled s && (getProto s =e proto) && (sd_type s =e type) = true <-> usable type proto s.
Proof. unfold usable. rewrite !andb_true_iff, !bool_decide_eq_true. tauto. Qed.

Lemma findIdxStream_found this proto type i :
  findIdxStream this proto type = Z.of_nat i <->
  exists s, md_streams this !! i = Some s /\ usable type proto s /\
    forall j t, (j < i)%nat -> md_streams this !! j = Some t -> ~ usable type proto t.
Proof.
  unfold findIdxStream, findStreamIt. rewrite idx_or_minus1_found, find_idx_Some.
  setoid_rewrite usable_iff. setoid_rewrite <- not_true_iff_false. setoid_rewrite usable_iff. done.
Qed.

Lemma findIdxStream_none this proto type :
  findIdxStream this proto type = -1 <-> forall s, In s (md_streams this) -> ~ usable type proto s.
Proof.
  unfold findIdxStream, findStreamIt. rewrite idx_or_minus1_none, find_idx_None.
  setoid_rewrite <- not_true_iff_false. setoid_rewrite usable_iff. done.
Qed.

Lemma findIdxStream_cases this proto type :
  findIdxStream this proto type = -1 \/ exists i, findIdxStream this proto type = Z.of_nat i.
Proof.
  unfold findIdxStream. destruct (findStreamIt this proto type) as [i|]; [right; by exists i|by left].
Qed.

Lemma findIdxBestStream_fold this type :
  findIdxBestStream this type =
  fold_left (fun idx proto => or_else idx (findIdxStream this proto type)) preferred_protos (-1).
Proof. reflexivity. Qed.

(** The first transport of the list some stream has. *)
Lemma or_else_fold_found this type protos i :
  fold_left (fun idx proto => or_else idx (findIdxStream this proto type)) protos (-1) = Z.of_nat i <->
  exists pre proto post, protos = pre ++ proto :: post /\ findIdxStream this proto type = Z.of_nat i /\
    Forall (fun p => findIdxStream this p type = -1) pre.
Proof.
  assert (K : forall protos n, fold_left (fun idx proto => or_else idx (findIdxStream this proto type)) protos (Z.of_nat n) = Z.of_nat n).
  { intros ps n. induction ps as [|p ps IH]; simpl; [done|]. unfold or_else at 2.
    by rewrite (proj2 (Z.eqb_neq (Z.of_nat n) (-1))) by lia. }
  induction protos as [|p ps IH]; cbn [fold_left].
  - split; [lia|]. intros (pre & proto & post & H & _). by apply app_cons_not_nil in H.
  - unfold or_else at 2. rewrite Z.eqb_refl. destruct (findIdxStream_cases this p type) as [E|[n E]]; rewrite E.
    + rewrite IH. split.
      * intros (pre & proto & post & -> & Hf & Hpre). exists (p :: pre), proto, post. auto.
      * intros (pre & proto & post & H & Hf & Hpre). destruct pre as [|x pre]; injection H as -> H; [lia|].
        inversion Hpre; subst. exists pre, proto, post. auto.
    + rewrite K. split.
      * intros H. exists [], p, ps. rewrite E. auto.
      * intros (pre & proto & post & H & Hf & Hpre). destruct pre as [|x pre]; injection H as -> H; [congruence|].
        inversion Hpre; subst. lia.
Qed.

Lemma or_else_fold_none this type protos :
  fold_left (fun idx proto => or_else idx (findIdxStream this proto type)) protos (-1) = -1 <->
  Forall (fun p => findIdxStream this p type = -1) protos.
Proof.
  assert (K : forall protos a, fold_left (fun idx proto => or_else idx (findIdxStream this proto type)) protos a = -1 <->
    a = -1 /\ Forall (fun p => findIdxStream this p type = -1) protos).
  { intros ps. induction ps as [|p ps IH]; intros a; simpl; [split; [auto using List.Forall_nil|tauto]|].
    rewrite IH, or_else_minus1, Forall_cons. tauto. }
  rewrite K. tauto.
Qed.

(** ** The direction of a session *)

Lemma stream_has_dir_cases this d s :
  stream_has_dir this d s = true <->
  getDirection s = d \/
  (getDirection s = SalStreamSendRecv /\ d = SalStreamSendOnly /\
   (isNullAddress (md_addr this) = true \/ isNullAddress (sd_rtp_addr s) = true)).
Proof.
  unfold stream_has_dir. rewrite orb_true_iff, !andb_true_iff, !bool_decide_eq_true, orb_true_iff. tauto.
Qed.

Lemma hasDir_exclusive this d d' : hasDir this d = true -> hasDir this d' = true -> d = d'.
Proof.
  unfold hasDir.
  destruct (containsStreamWithDir this SalStreamRecvOnly), (containsStreamWithDir this SalStreamSendOnly),
    (containsStreamWithDir this SalStreamSendRecv); by destruct d, d'.
Qed.

Lemma hasDir_none this :
  (forall d, hasDir this d = false) <->
  containsStreamWithDir this SalStreamSendOnly = true /\ containsStreamWithDir this SalStreamRecvOnly = true /\
  containsStreamWithDir this SalStreamSendRecv = false.
Proof.
  split.
  - intros H. pose proof (H SalStreamSendRecv) as H1. pose proof (H SalStreamSendOnly) as H2.
    pose proof (H SalStreamRecvOnly) as H3. pose proof (H SalStreamInactive) as H4. revert H1 H2 H3 H4. unfold hasDir.
    by destruct (containsStreamWithDir this SalStreamRecvOnly), (containsStreamWithDir this SalStreamSendOnly),
      (containsStreamWithDir this SalStreamSendRecv).
  - intros (H1 & H2 & H3) d. unfold hasDir. rewrite H1, H2, H3. by destruct d.
Qed.

(** ** The bits of a comparison *)

Definition in17 (z : Z) : Prop := Z.land z (Z.ones 17) = z.

Lemma in17_range z : in17 z <-> 0 <= z < 2 ^ 17.
Proof.
  unfold in17. rewrite Z.land_ones by done. split; [intros <-; by apply Z.mod_pos_bound|by apply Z.mod_small].
Qed.

Lemma in17_lor a b : in17 a -> in17 b -> in17 (Z.lor a b).
Proof. unfold in17. intros Ha Hb. by rewrite Z.land_lor_distr_l, Ha, Hb. Qed.

Lemma in17_flag b mask r : in17 mask -> in17 r -> in17 (flag_if b mask r).
Proof. unfold flag_if. destruct b; auto using in17_lor. Qed.

Ltac in17 := repeat first
  [ match goal with |- in17 (if ?b then _ else _) => destruct b end
  | apply in17_flag; [done|] | apply in17_lor; [|done] | done ].

Lemma in17_cryptos l1 l2 r : in17 r -> in17 (equal_cryptos l1 l2 r).
Proof. revert l2 r. induction l1 as [|c l1 IH]; intros [|c' l2] r Hr; cbn [equal_cryptos]; try done. apply IH. in17. Qed.

Lemma in17_configuration a b : in17 (SalStreamConfiguration.equal a b).
Proof. unfold SalStreamConfiguration.equal. cbv zeta. in17. apply in17_cryptos. in17. Qed.

Section Bits.
Context {lib : MediaLib}.

Lemma in17_stream_global a b : in17 (SalStreamDescription.globalEqual a b).
Proof.
  unfold SalStreamDescription.globalEqual. cbv zeta.
  in17.
Qed.

Lemma in17_cfgs m m' r : in17 r -> in17 (equal_cfgs m m' r).
Proof.
  revert m' r. induction m as [|[k c] m IH]; intros [|[k' c'] m'] r Hr; cbn [equal_cfgs]; try done.
  apply IH, in17_lor; [done|apply in17_configuration].
Qed.

Lemma in17_stream a b : in17 (SalStreamDescription.equal a b).
Proof. unfold SalStreamDescription.equal. cbv zeta. in17. apply in17_cfgs. in17. Qed.

Lemma in17_stream_actual a b : in17 (SalStreamDescription.compareToActualConfiguration a b).
Proof. apply in17_lor; [apply in17_stream_global|apply in17_configuration]. Qed.
Lemma in17_stream_chosen a b : in17 (SalStreamDescription.compareToChosenConfiguration a b).
Proof. apply in17_lor; [apply in17_stream_global|apply in17_configuration]. Qed.

Lemma in17_streams cmp l l' r :
  (forall a b, in17 (cmp a b)) -> in17 r -> in17 (compare_streams cmp l l' r).
Proof.
  intros Hc. revert l' r. induction l as [|s l IH]; intros [|s' l'] r Hr; cbn [compare_streams]; try done.
  destruct (_ && _); apply IH; [done|]. by apply in17_lor.
Qed.

Lemma in17_global a b : in17 (globalEqual a b).
Proof. unfold globalEqual. cbv zeta. in17. Qed.
End Bits.

(** ** Printing differences *)

Definition difference_text (r : Z) : string :=
  String.concat EmptyString (map snd (List.filter (fun p => negb (Z.land r (fst p) =? 0)) difference_names)).

Lemma ldiff_disjoint r m : Z.land r m = 0 -> Z.ldiff r m = r.
Proof.
  intros H. apply Z.bits_inj'. intros n Hn. rewrite Z.ldiff_spec.
  pose proof (Z.land_spec r m n) as Hs. rewrite H, Z.bits_0 in Hs.
  by destruct (Z.testbit r n), (Z.testbit m n).
Qed.

Lemma land_ldiff_other r m m' : Z.land m m' = 0 -> Z.land (Z.ldiff r m) m' = Z.land r m'.
Proof.
  intros H. apply Z.bits_inj'. intros n Hn. rewrite !Z.land_spec, Z.ldiff_spec.
  pose proof (Z.land_spec m m' n) as Hs. rewrite H, Z.bits_0 in Hs.
  by destruct (Z.testbit r n), (Z.testbit m n), (Z.testbit m' n).
Qed.

Fixpoint disjoint_masks (l : list (Z * string)) : bool :=
  match l with
  | [] => true
  | p :: l => forallb (fun q => Z.land (fst p) (fst q) =? 0) l && disjoint_masks l
  end.

Lemma filter_ldiff r m (l : list (Z * string)) :
  Forall (fun q => Z.land m (fst q) = 0) l ->
  List.filter (fun p => negb (Z.land (Z.ldiff r m) (fst p) =? 0)) l = List.filter (fun p => negb (Z.land r (fst p) =? 0)) l.
Proof.
  induction 1 as [|q l Hq Hl IH]; simpl; [done|]. by rewrite land_ldiff_other, IH.
Qed.

Lemma printDifferences_fold l r out :
  disjoint_masks l = true ->
  fold_left (fun '(result, out) '(mask, text) =>
      if negb (Z.land result mask =? 0) then (Z.ldiff result mask, out +:+ text) else (result, out)) l (r, out) =
  (Z.ldiff r (fold_right (fun p m => Z.lor (fst p) m) 0 l),
   out +:+ String.concat EmptyString (map snd (List.filter (fun p => negb (Z.land r (fst p) =? 0)) l))).
Proof.
  revert r out. induction l as [|[m t] l IH]; intros r out Hd; cbn [fold_left fold_right List.filter fst].
  - by rewrite Z.ldiff_0_r, str_app_nil.
  - apply andb_true_iff in Hd as [Hm Hd]. rewrite forallb_forall in Hm.
    assert (Hm' : Forall (fun q => Z.land m (fst q) = 0) l)
      by (apply List.Forall_forall; intros q Hq; by apply Hm, Z.eqb_eq in Hq).
    destruct (Z.land r m =? 0) eqn:E; cbn [negb].
    + apply Z.eqb_eq in E. rewrite IH by done. f_equal. rewrite <- Z.ldiff_ldiff_l. by rewrite (ldiff_disjoint r m E).
    + rewrite IH by done. rewrite filter_ldiff by done. rewrite Z.ldiff_ldiff_l. f_equal.
      cbn [map snd]. by rewrite concat_empty_cons, str_app_assoc.
Qed.

Lemma printDifferences_spec r :
  0 <= r ->
  printDifferences r = if r <? 2 ^ 17 then Some (if r =? 0 then "NONE" else difference_text r) else None.
Proof.
  intros Hr. unfold printDifferences. rewrite printDifferences_fold by (vm_compute; reflexivity).
  change (fold_right (fun p m => Z.lor (fst p) m) 0 difference_names) with (Z.ones 17).
  change (EmptyString +:+ ?x) with x. fold (difference_text r).
  assert (Hl : (Z.ldiff r (Z.ones 17) =? 0) = (r <? 2 ^ 17)).
  { rewrite Z.ldiff_ones_r by done. rewrite Z.shiftl_mul_pow2, Z.shiftr_div_pow2 by done.
    apply eq_true_iff_eq. rewrite Z.eqb_eq, Z.ltb_lt. split; intros H.
    - assert (r / 2 ^ 17 = 0) by lia. apply Z.div_small_iff in H0; lia.
    - by rewrite Z.div_small. }
  rewrite Hl. destruct (Z.ltb_spec r (2 ^ 17)) as [Hlt|Hge]; cbn [negb]; [|done]. f_equal.
  destruct (Z.eqb_spec r 0) as [->|Hne]; [done|].
  assert (str_empty (difference_text r) = false) as ->; [|done].
  unfold difference_text. destruct (List.filter _ difference_names) as [|p ps] eqn:E.
  - exfalso. apply Hne. assert (Hz : Z.land r (Z.ones 17) = 0).
    { assert (Hall : Forall (fun p => Z.land r (fst p) = 0) difference_names).
      { apply List.Forall_forall. intros p Hp. destruct (Z.eqb_spec (Z.land r (fst p)) 0) as [?|Hn]; [done|].
        assert (Hin : In p (List.filter (fun p => negb (Z.land r (fst p) =? 0)) difference_names)).
        { apply List.filter_In. split; [done|]. by apply negb_true_iff, Z.eqb_neq. }
        by rewrite E in Hin. }
      change (Z.ones 17) with (fold_right (fun p m => Z.lor (fst p) m) 0 difference_names).
      clear E. induction Hall as [|p l Hp Hl' IH]; cbn [fold_right]; [apply Z.land_0_r|].
      by rewrite Z.land_lor_distr_r, Hp, IH. }
    rewrite Z.land_ones in Hz by done. rewrite Z.mod_small in Hz by lia. done.
  - assert (Hin : In p difference_names).
    { assert (In p (p :: ps)) as Hin by (by left). rewrite <- E in Hin. by apply List.filter_In in Hin as [? _]. }
    assert (Hall : forallb (fun p => negb (str_empty (snd p))) difference_names = true) by reflexivity.
    rewrite forallb_forall in Hall. apply Hall, negb_true_iff, str_empty_false in Hin. cbn [map].
    rewrite concat_empty_cons.
    apply str_empty_false. by destruct (snd p).
Qed.

(** ** A description compared with itself *)

Section Reflexive.
Context {lib : MediaLib}.

Lemma neq_refl {A} `{EqDecision A} (x : A) : (x <>e x) = false.
Proof. by rewrite bool_decide_true. Qed.

Lemma stream_global_refl s : SalStreamDescription.globalEqual s s = 0.
Proof.
  unfold SalStreamDescription.globalEqual. cbv zeta.
  rewrite !neq_refl, !String.eqb_refl, !Z.eqb_refl, !xorb_nilpotent, !andb_false_r. done.
Qed.

Lemma configuration_equal_refl c : SalStreamConfiguration.equal c c = 0.
Proof. pose proof (SalStreamConfiguration.operator_eq_refl c) as H. by apply Z.eqb_eq in H. Qed.

Lemma equal_cfgs_refl m r : equal_cfgs m m r = r.
Proof.
  revert r. induction m as [|[k c] m IH]; intros r; cbn [equal_cfgs]; [done|].
  by rewrite configuration_equal_refl, Z.lor_0_r, IH.
Qed.

Lemma stream_equal_refl s : SalStreamDescription.equal s s = 0.
Proof.
  unfold SalStreamDescription.equal. cbv zeta.
  rewrite stream_global_refl, Nat.eqb_refl, equal_cfgs_refl, !String.eqb_refl. done.
Qed.

Lemma media_global_refl a : globalEqual a a = 0.
Proof.
  unfold globalEqual. cbv zeta.
  rewrite !String.eqb_refl, !Z.eqb_refl, !Nat.eqb_refl, !xorb_nilpotent, !andb_false_r. done.
Qed.

Lemma compare_streams_refl cmp l r :
  (forall s, cmp s s = 0) -> compare_streams cmp l l r = r.
Proof.
  intros Hc. revert r. induction l as [|s l IH]; intros r; cbn [compare_streams]; [done|].
  rewrite Hc, Z.lor_0_r. destruct (_ && _); apply IH.
Qed.
End Reflexive.

(** ** Active streams *)

Lemma active_stream_past type l idx :
  Z.of_nat (length l) <= idx < 2 ^ 32 -> active_stream_loop type idx l = None.
Proof.
  revert idx. induction l as [|s l IH]; intros idx Hi; cbn [active_stream_loop]; [done|].
  cbn [length] in Hi. destruct (enabled s); [|apply IH; lia].
  destruct (Z.eqb_spec idx 0); [lia|]. cbn [andb]. rewrite u32_small by lia. apply IH. lia.
Qed.

Lemma active_stream_nth type l idx :
  Z.of_nat (length l) < 2 ^ 32 -> 0 <= idx < 2 ^ 32 ->
  active_stream_loop type idx l =
  match List.filter enabled l !! Z.to_nat idx with
  | Some s => if sd_type s =e type then Some s else None
  | None => None
  end.
Proof.
  revert idx. induction l as [|s l IH]; intros idx Hl Hi; cbn [active_stream_loop List.filter length] in *; [done|].
  destruct (enabled s); [|apply IH; lia].
  destruct (Z.eqb_spec idx 0) as [->|Hne]; cbn [andb].
  - change (Z.to_nat 0) with 0%nat. simpl. destruct (sd_type s =e type); [done|]. apply active_stream_past.
    change (u32 (0 - 1)) with (2 ^ 32 - 1). lia.
  - rewrite u32_small by lia. rewrite IH by lia.
    replace (Z.to_nat idx) with (S (Z.to_nat (idx - 1))) by lia. done.
Qed.

(** ** Properties *)

(** The transport owner of a stream: an index is given exactly when the
    stream has a mid, a bundle has that mid and the first mid of the first such
    bundle is not empty, and it is then the index of the first stream with that
    first mid. *)
Theorem transport_owner_found this sd i :
  getIndexOfTransportOwner this sd = Z.of_nat i <->
  getMid sd <> EmptyString /\
  exists b owner s, first_bundle this (getMid sd) b /\ head b = Some owner /\ owner <> EmptyString /\
    md_streams this !! i = Some s /\ getMid s = owner /\
    forall j t, (j < i)%nat -> md_streams this !! j = Some t -> getMid t <> owner.
Proof. apply getIndexOfTransportOwner_spec. Qed.

(** The best stream of a type: it is enabled, has the type and one of the
    six RTP transports, no enabled stream of the type has a transport preferred
    to its own (DTLS, then SRTP, then plain, AVPF before AVP), and no stream
    before it has the same one.  There is none exactly when no enabled stream of
    the type has such a transport. *)
Theorem best_stream_is_preferred this type :
  (forall i, findIdxBestStream this type = Z.of_nat i <->
     exists pre proto post s, preferred_protos = pre ++ proto :: post /\
       md_streams this !! i = Some s /\ usable type proto s /\
       (forall j t, (j < i)%nat -> md_streams this !! j = Some t -> ~ usable type proto t) /\
       Forall (fun p => forall t, In t (md_streams this) -> ~ usable type p t) pre) /\
  (findIdxBestStream this type = -1 <->
     Forall (fun p => forall t, In t (md_streams this) -> ~ usable type p t) preferred_protos).
Proof.
  assert (Hn : forall l, Forall (fun p => findIdxStream this p type = -1) l <->
    Forall (fun p => forall t, In t (md_streams this) -> ~ usable type p t) l).
  { intros l. rewrite !List.Forall_forall. by setoid_rewrite findIdxStream_none. }
  rewrite findIdxBestStream_fold. split; [|by rewrite or_else_fold_none, Hn].
  intros i. rewrite or_else_fold_found. split.
  - intros (pre & proto & post & Hp & Hf & Hpre). apply findIdxStream_found in Hf as (s & Hs & Hu & Hlt).
    exists pre, proto, post, s. by rewrite <- Hn.
  - intros (pre & proto & post & s & Hp & Hs & Hu & Hlt & Hpre). exists pre, proto, post. rewrite Hn.
    split; [done|]. split; [|done]. apply findIdxStream_found. eauto.
Qed.

(** A session has one direction at most; it has none exactly when it has
    enabled streams to send and enabled streams to receive, but none for both. *)
Theorem session_direction_unique this :
  (forall d d', hasDir this d = true -> hasDir this d' = true -> d = d') /\
  ((forall d, hasDir this d = false) <->
   containsStreamWithDir this SalStreamSendOnly = true /\ containsStreamWithDir this SalStreamRecvOnly = true /\
   containsStreamWithDir this SalStreamSendRecv = false).
Proof. split; [intros d d'; apply hasDir_exclusive|apply hasDir_none]. Qed.

(** Printing differences: the text has the name of every bit that is set, in
    the order of the table, or NONE; it aborts exactly when a bit outside the
    17 known ones is set. *)
Theorem printDifferences_names_bits r :
  0 <= r ->
  printDifferences r = if r <? 2 ^ 17 then Some (if r =? 0 then "NONE" else difference_text r) else None.
Proof. apply printDifferences_spec. Qed.

Lemma printDifferences_names_bits_witness :
  difference_text 5 = "NETWORK_CHANGED CRYPTO_KEYS_CHANGED " /\
  printDifferences 5 = if 5 <? 2 ^ 17 then Some (if 5 =? 0 then "NONE" else difference_text 5) else None.
Proof. split; [reflexivity|]. apply (printDifferences_names_bits 5). lia. Defined.

(** Comparisons can always be printed: none of the three sets a bit
    [printDifferences] does not know, so it never aborts on their results. *)
Theorem comparisons_printable (lib : MediaLib) a b :
  printDifferences (equal a b) <> None /\ printDifferences (compareToActualConfiguration a b) <> None /\
  printDifferences (compareToChosenConfiguration a b) <> None.
Proof.
  assert (H : forall z, in17 z -> printDifferences z <> None).
  { intros z Hz. apply in17_range in Hz as [H0 H1]. rewrite printDifferences_spec by done.
    by replace (z <? 2 ^ 17) with true by (symmetry; by apply Z.ltb_lt). }
  repeat split; apply H; apply in17_streams; auto using in17_global, in17_stream, in17_stream_actual, in17_stream_chosen.
Qed.

(** A description compares equal to itself, stream by stream. *)
Theorem comparison_reflexive (lib : MediaLib) a :
  operator_eq a a = true /\ forall s, In s (md_streams a) -> SalStreamDescription.operator_eq s s = true.
Proof.
  unfold operator_eq, SalStreamDescription.operator_eq, equal. split.
  - rewrite media_global_refl, compare_streams_refl by apply stream_equal_refl. done.
  - intros s _. by rewrite stream_equal_refl.
Qed.

(** The active stream of a type at an index is the enabled stream at that
    index among those of all types, if it has the type: streams of other types
    count, so that the first active video stream after an audio one is not at
    index 0. *)
Theorem active_stream_counts_all_types this type idx :
  Z.of_nat (length (md_streams this)) < 2 ^ 32 -> 0 <= idx < 2 ^ 32 ->
  getActiveStreamOfType this type idx =
  match List.filter enabled (md_streams this) !! Z.to_nat idx with
  | Some s => if sd_type s =e type then s else empty_stream
  | None => empty_stream
  end.
Proof.
  intros Hl Hi. unfold getActiveStreamOfType. rewrite active_stream_nth by done.
  destruct (_ !! _) as [s|]; [|done]. by destruct (sd_type s =e type).
Qed.

Lemma active_stream_counts_all_types_witness :
  nbActiveStreamsOfType ex_local SalVideo = 1 /\
  getActiveStreamOfType ex_local SalVideo 0 = empty_stream /\
  getActiveStreamOfType ex_local SalVideo 1 = ex_video.
Proof.
  split; [reflexivity|]. split.
  - rewrite (active_stream_counts_all_types ex_local SalVideo 0); [reflexivity|simpl; lia|lia].
  - rewrite (active_stream_counts_all_types ex_local SalVideo 1); [reflexivity|simpl; lia|lia].
Defined.
