(* ===== verification/OfferAnswerEngine.v ===== *)
(** The SDP offer/answer engine (RFC 3264): [OfferAnswerEngine]
    ([src/src/sal/offeranswer.h] and [.cpp]).  From a local and a remote
    description it computes the description a call runs with.

    The engine works through references: a matching provider may write in the
    local payload types, a configuration negotiation may lower the transport of
    the local or remote configuration ([const_cast]), and the index of the
    chosen configuration is a [mutable] member.  Every function that reaches
    one of these effects returns the local and remote objects as it leaves
    them. *)
From S2P Require Import Prelude SalTypes Payload SalStreamConfiguration PotentialCfgGraph SalStreamBundle SalStreamDescription SalMediaDescription.

Record OfferAnswerEngine := mkEngine {
  mUseOneMatchingCodec : bool;
  mAnswerWithOwnNumbering : bool
}.
#[export] Instance OfferAnswerEngine_eta : Eta OfferAnswerEngine :=
  fun r => mkEngine (mUseOneMatchingCodec r) (mAnswerWithOwnNumbering r).
Definition default_engine : OfferAnswerEngine := mkEngine false false.

Definition setOneMatchingCodecPolicy (this : OfferAnswerEngine) (value : bool) : OfferAnswerEngine :=
  this <| mUseOneMatchingCodec := value |>.
Definition setAnswerWithOwnNumberingPolicy (this : OfferAnswerEngine) (value : bool) : OfferAnswerEngine :=
  this <| mAnswerWithOwnNumbering := value |>.

(** ** Payload types *)

Definition onlyTelephoneEvent (l : list OrtpPayloadType) : bool := forallb (mime_is "telephone-event") l.

(** The first local payload type with the mime type, clock rate and channels of
    the remote one. *)
Definition generic_matches (refpt pt : OrtpPayloadType) : bool :=
  match mime_type pt, mime_type refpt with
  | Some m, Some m' => strcasecmp_eq m m' && (clock_rate pt =? clock_rate refpt) && (channels pt =? channels refpt)
  | _, _ => false
  end.
Definition genericMatch (local_payloads : list OrtpPayloadType) (refpt : OrtpPayloadType)
    (remote_payloads : list OrtpPayloadType) : option OrtpPayloadType :=
  List.find (generic_matches refpt) local_payloads.

(** [std::list::sort] with the comparator [lt]: stable. *)
Fixpoint stable_insert {A} (lt : A -> A -> bool) (x : A) (l : list A) : list A :=
  match l with
  | [] => [x]
  | y :: l' => if lt x y then x :: l else y :: stable_insert lt x l'
  end.
Definition stable_sort {A} (lt : A -> A -> bool) (l : list A) : list A :=
  fold_left (fun acc x => stable_insert lt x acc) l [].

Definition priority_lt (p1 p2 : OrtpPayloadType) : bool :=
  has_flag PAYLOAD_TYPE_PRIORITY_BONUS p1 && negb (has_flag PAYLOAD_TYPE_PRIORITY_BONUS p2).

Section PayloadMatching.
Context {lib : MediaLib} (this : OfferAnswerEngine).

Definition findPayloadTypeBestMatch (local_payloads : list OrtpPayloadType) (refpt : OrtpPayloadType)
    (remote_payloads : list OrtpPayloadType) (reading_response : bool)
    : option OrtpPayloadType * list OrtpPayloadType :=
  match mime_type refpt with
  | Some m =>
      match ms_factory_create_offer_answer_context m with
      | Some ctx => ctx local_payloads refpt remote_payloads reading_response
      | None => (genericMatch local_payloads refpt remote_payloads, local_payloads)
      end
  | None => (genericMatch local_payloads refpt remote_payloads, local_payloads)
  end.

(** AVPF: the common features and the larger [trr-int]. *)
Definition negotiate_avpf (matched p2 : OrtpPayloadType) : OrtpPayloadType :=
  if has_flag PAYLOAD_TYPE_RTCP_FEEDBACK_ENABLED matched && has_flag PAYLOAD_TYPE_RTCP_FEEDBACK_ENABLED p2 then
    let matched := payload_type_set_flag {[PAYLOAD_TYPE_RTCP_FEEDBACK_ENABLED]} matched in
    let a := avpf matched in
    let a := a <| features := (Z.land (features a) (features (avpf p2))) |> in
    let a := a <| rpsi_compatibility := rpsi_compatibility (avpf p2) |> in
    let a := if trr_interval a <? trr_interval (avpf p2) then a <| trr_interval := trr_interval (avpf p2) |> else a in
    matched <| avpf := a |>
  else payload_type_unset_flag {[PAYLOAD_TYPE_RTCP_FEEDBACK_ENABLED]} matched.

(** What is pushed for a match: one payload type, or two when an answer uses
    another number than the offer did. *)
Definition matched_payloads (matched p2 : OrtpPayloadType) (reading_response : bool) : list OrtpPayloadType :=
  let local_number := number matched in
  let remote_number := number p2 in
  let matched := match send_fmtp p2 with
                 | Some fmtp => payload_type_append_send_fmtp matched fmtp
                 | None => matched
                 end in
  let matched := payload_type_set_flag {[PAYLOAD_TYPE_FLAG_CAN_RECV; PAYLOAD_TYPE_FLAG_CAN_SEND]} matched in
  let matched := negotiate_avpf matched p2 in
  let matched := matched <| number :=
    (if negb reading_response && mAnswerWithOwnNumbering this then local_number else remote_number) |> in
  let matched := payload_type_set_flag {[PAYLOAD_TYPE_FROZEN_NUMBER]} matched in
  if reading_response && negb (remote_number =? local_number) then
    let again := matched <| number := local_number |> in
    let again := payload_type_set_flag {[PAYLOAD_TYPE_FLAG_CAN_RECV]} again in
    let again := payload_type_unset_flag {[PAYLOAD_TYPE_FLAG_CAN_SEND]} again in
    let again := payload_type_set_flag {[PAYLOAD_TYPE_FROZEN_NUMBER]} again in
    [matched; again]
  else [matched].

(** The loop on the remote payload types; [all_remote] is the whole list. *)
Fixpoint match_loop (local all_remote remote : list OrtpPayloadType) (reading_response bundle_enabled found_codec : bool)
    (res : list OrtpPayloadType) : list OrtpPayloadType * list OrtpPayloadType :=
  match remote with
  | [] => (res, local)
  | p2 :: rest =>
      let '(matched, local) := findPayloadTypeBestMatch local p2 all_remote reading_response in
      match matched with
      | None => match_loop local all_remote rest reading_response bundle_enabled found_codec res
      | Some matched =>
          let real_codec := mUseOneMatchingCodec this && negb (mime_is "telephone-event" matched) in
          if real_codec && found_codec
          then match_loop local all_remote rest reading_response bundle_enabled found_codec res
          else
            let found_codec := found_codec || real_codec in
            if mime_is "flexfec" matched && negb bundle_enabled
            then match_loop local all_remote rest reading_response bundle_enabled found_codec res
            else match_loop local all_remote rest reading_response bundle_enabled found_codec
                   (res ++ matched_payloads matched p2 reading_response)
      end
  end.

(** The result and the local payload types as the providers leave them.  With
    no common number, an answer's result also gets the first local payload
    type ([front] of an empty list, undefined in C++, adds nothing here). *)
Definition matchPayloads (local remote : list OrtpPayloadType) (reading_response bundle_enabled : bool)
    : list OrtpPayloadType * list OrtpPayloadType :=
  let '(res, local) := match_loop local remote remote reading_response bundle_enabled false [] in
  if reading_response then
    let found := existsb (fun p1 => existsb (fun p2 => number p2 =? number p1) remote) local in
    if negb found then
      match local with
      | p1 :: _ =>
          let cloned_p1 := payload_type_set_flag {[PAYLOAD_TYPE_FLAG_CAN_RECV]} p1 in
          let cloned_p1 := payload_type_set_flag {[PAYLOAD_TYPE_FROZEN_NUMBER]} cloned_p1 in
          (res ++ [cloned_p1], local)
      | [] => (res, local)
      end
    else (res, local)
  else (stable_sort priority_lt res, local).
End PayloadMatching.

(** ** SRTP, directions, header extensions *)

(** The inner loop: the first local algorithm equal to [rc]'s. *)
Fixpoint match_one_crypto (local : list SalSrtpCryptoAlgo) (rc : SalSrtpCryptoAlgo) (use_local_key : bool)
    : option SalSrtpCryptoAlgo :=
  match local with
  | [] => None
  | lc :: rest =>
      if algo rc =? algo lc then
        Some (if use_local_key then mkCrypto (tag rc) (algo rc) (master_key lc)
              else mkCrypto (tag lc) (algo rc) (master_key rc))
      else match_one_crypto rest rc use_local_key
  end.

(** [Some result] when the C++ returns [true]. *)
Fixpoint matchCryptoAlgo (local remote : list SalSrtpCryptoAlgo) (use_local_key : bool) : option SalSrtpCryptoAlgo :=
  match remote with
  | [] => None
  | rc :: rest =>
      if algo rc =? 0 then None
      else
        match match_one_crypto local rc use_local_key with
        | Some result => Some result
        | None => matchCryptoAlgo local rest use_local_key
        end
  end.

Definition computeDirOutgoing (local answered : SalStreamDir) : SalStreamDir :=
  let res := local in
  let res :=
    if local =e SalStreamSendRecv then
      if answered =e SalStreamRecvOnly then SalStreamSendOnly
      else if answered =e SalStreamSendOnly then SalStreamRecvOnly
      else res
    else res in
  if answered =e SalStreamInactive then SalStreamInactive else res.

Definition computeDirIncoming (local offered : SalStreamDir) : SalStreamDir :=
  if local =e SalStreamSendRecv then
    if offered =e SalStreamSendOnly then SalStreamRecvOnly
    else if offered =e SalStreamRecvOnly then SalStreamSendOnly
    else if offered =e SalStreamInactive then SalStreamInactive
    else SalStreamSendRecv
  else if local =e SalStreamSendOnly then
    if (offered =e SalStreamRecvOnly) || (offered =e SalStreamSendRecv) then SalStreamSendOnly else SalStreamInactive
  else if local =e SalStreamRecvOnly then
    if (offered =e SalStreamSendOnly) || (offered =e SalStreamSendRecv) then SalStreamRecvOnly else SalStreamInactive
  else SalStreamInactive.

Definition computeConferenceStreamDir (dir : SalStreamDir) : SalStreamDir :=
  match dir with
  | SalStreamSendRecv => SalStreamSendRecv
  | SalStreamSendOnly => SalStreamRecvOnly
  | SalStreamRecvOnly => SalStreamSendOnly
  | SalStreamInactive => SalStreamInactive
  end.

Definition getExtensionId (localExtensionId remoteExtensionId : Z) : Z :=
  if (localExtensionId =? 0) || (remoteExtensionId =? 0) then 0
  else if negb (localExtensionId =? remoteExtensionId) then remoteExtensionId
  else localExtensionId.

Definition areProtoCompatibles (localProto otherProto : SalMediaProto) : bool :=
  match localProto with
  | SalProtoRtpAvp | SalProtoRtpAvpf => (otherProto =e SalProtoRtpAvp) || (otherProto =e SalProtoRtpAvpf)
  | SalProtoRtpSavp | SalProtoRtpSavpf => (otherProto =e SalProtoRtpSavp) || (otherProto =e SalProtoRtpSavpf)
  | SalProtoUdpTlsRtpSavp | SalProtoUdpTlsRtpSavpf =>
      (otherProto =e SalProtoUdpTlsRtpSavp) || (otherProto =e SalProtoUdpTlsRtpSavpf)
  | SalProtoOther => otherProto =e localProto
  end.

Definition areProtoInStreamCompatibles (localStream otherStream : SalStreamDescription) : bool :=
  existsb (fun otherCfg =>
    existsb (fun localCfg => areProtoCompatibles (cfg_proto (snd localCfg)) (cfg_proto (snd otherCfg)))
      (getAllCfgs localStream)) (getAllCfgs otherStream).

Definition has_enc (enc : LinphoneMediaEncryption) (l : list LinphoneMediaEncryption) : bool :=
  existsb (fun e => e =e enc) l.

(** [Some resultCfg] when the C++ returns [true]. *)
Definition fillZrtpAttributes (localStream : SalStreamDescription) (localCfgIdx : Z)
    (remoteStream : SalStreamDescription) (remoteCfgIdx : Z) (resultCfg : SalStreamConfiguration)
    : option SalStreamConfiguration :=
  let localCfg := getConfigurationAtIndex localStream localCfgIdx in
  let remoteCfg := getConfigurationAtIndex remoteStream remoteCfgIdx in
  let isLocalActualCfg := getActualConfigurationIndex localStream =? localCfgIdx in
  let isRemoteActualCfg := getActualConfigurationIndex remoteStream =? remoteCfgIdx in
  if (negb isLocalActualCfg || negb isRemoteActualCfg)
     && negb (cfg_haveZrtpHash localCfg =? cfg_haveZrtpHash remoteCfg) then None
  else if (cfg_haveZrtpHash remoteCfg =? 1) || (cfg_haveZrtpHash localCfg =? 1) then
    let availableEncs := sd_supportedEncryption localStream in
    let zrtpFound :=
      if negb isLocalActualCfg || negb isRemoteActualCfg
      then has_enc LinphoneMediaEncryptionZRTP availableEncs else true in
    if negb zrtpFound then None
    else
      let resultCfg :=
        if negb (str_empty (cfg_zrtphash localCfg)) then resultCfg <| cfg_zrtphash := cfg_zrtphash localCfg |>
        else resultCfg in
      Some (resultCfg <| cfg_haveZrtpHash :=
        (if negb (str_empty (cfg_zrtphash localCfg)) || negb (str_empty (cfg_zrtphash remoteCfg)) then 1 else 0) |>)
  else Some resultCfg.

(** ** One pair of configurations *)

(** A modification through the reference [getConfigurationAtIndex] returns. *)
Definition update_cfg (idx : Z) (f : SalStreamConfiguration -> SalStreamConfiguration) (s : SalStreamDescription)
    : SalStreamDescription :=
  match om_find cfg_rank idx (sd_cfgs s) with
  | Some c => s <| sd_cfgs := om_set cfg_rank idx (f c) (sd_cfgs s) |>
  | None => s
  end.
Definition set_payloads (payloads : list OrtpPayloadType) (c : SalStreamConfiguration) : SalStreamConfiguration :=
  c <| cfg_payloads := payloads |>.
Definition set_proto (proto : SalMediaProto) (c : SalStreamConfiguration) : SalStreamConfiguration :=
  c <| cfg_proto := proto |>.

Definition dtls_usable (localCfg remoteCfg : SalStreamConfiguration) : bool :=
  (cfg_dtls_role localCfg <>e SalDtlsRoleInvalid) && (cfg_dtls_role remoteCfg <>e SalDtlsRoleInvalid)
  && negb (str_empty (cfg_dtls_fingerprint localCfg)) && negb (str_empty (cfg_dtls_fingerprint remoteCfg)).

Definition is_multicast_stream {lib : MediaLib} (s : SalStreamDescription) : bool :=
  negb (str_empty (sd_rtp_addr s)) && ms_is_multicast (sd_rtp_addr s).

Definition set_extension_ids (localCfg remoteCfg resultCfg : SalStreamConfiguration) : SalStreamConfiguration :=
  resultCfg
  <| cfg_mixer_to_client_extension_id :=
       (getExtensionId (cfg_mixer_to_client_extension_id localCfg) (cfg_mixer_to_client_extension_id remoteCfg)) |>
  <| cfg_client_to_mixer_extension_id :=
       (getExtensionId (cfg_client_to_mixer_extension_id localCfg) (cfg_client_to_mixer_extension_id remoteCfg)) |>
  <| cfg_frame_marking_extension_id :=
       (getExtensionId (cfg_frame_marking_extension_id localCfg) (cfg_frame_marking_extension_id remoteCfg)) |>.

(** SRTP: the configuration with the only crypto that was agreed on. *)
Definition negotiate_srtp (availableEncs : list LinphoneMediaEncryption) (localCfg remoteCfg resultCfg : SalStreamConfiguration)
    (use_local_key : bool) : option SalStreamConfiguration :=
  if SalStreamConfiguration.hasSrtp resultCfg then
    if negb (has_enc LinphoneMediaEncryptionSRTP availableEncs) then None
    else
      match matchCryptoAlgo (cfg_crypto localCfg) (cfg_crypto remoteCfg) use_local_key with
      | None => None
      | Some crypto_result => Some (resultCfg <| cfg_crypto := [crypto_result] |>)
      end
  else Some resultCfg.

Notation "'let?' x := e 'in' b" := (match e with Some x => b | None => None end)
  (at level 10, x pattern, e at level 200, b at level 200).

Section Configurations.
Context {lib : MediaLib} (this : OfferAnswerEngine).

(** [initiateOutgoingConfiguration] from the point where it has no more effect
    on the local offer; [localCfg] and [remoteCfg] are the configurations as
    they are there. *)
Definition outgoing_result (local_offer remote_answer : SalStreamDescription)
    (localCfg remoteCfg resultCfg : SalStreamConfiguration) (localCfgIdx remoteCfgIdx : Z)
    : option SalStreamConfiguration :=
  let availableEncs := sd_supportedEncryption local_offer in
  let resultCfg := resultCfg <| cfg_proto := cfg_proto remoteCfg |> in
  let? resultCfg :=
    (if is_multicast_stream local_offer then
       if (0 <? cfg_ptime localCfg) && negb (cfg_ptime localCfg =? cfg_ptime remoteCfg) then None
       else if (0 <? cfg_ttl localCfg) && negb (cfg_ttl localCfg =? cfg_ttl remoteCfg) then None
       else Some (resultCfg <| cfg_ttl := cfg_ttl localCfg |> <| cfg_dir := cfg_dir localCfg |>)
     else Some (resultCfg <| cfg_dir := (computeDirOutgoing (cfg_dir localCfg) (cfg_dir remoteCfg)) |>)) in
  let resultCfg := resultCfg <| cfg_rtcp_mux := (cfg_rtcp_mux remoteCfg && cfg_rtcp_mux localCfg) |> in
  let resultCfg :=
    if negb (str_empty (cfg_mid remoteCfg)) && negb (str_empty (cfg_mid localCfg)) then
      resultCfg
      <| cfg_mid := cfg_mid remoteCfg |>
      <| cfg_mid_rtp_ext_header_id := cfg_mid_rtp_ext_header_id remoteCfg |>
      <| cfg_bundle_only := cfg_bundle_only remoteCfg |>
      <| cfg_rtcp_mux := true |>
    else resultCfg in
  let resultCfg := set_extension_ids localCfg remoteCfg resultCfg in
  let resultCfg := resultCfg <| cfg_conference_ssrc := cfg_conference_ssrc remoteCfg |> in
  if is_nil (cfg_payloads resultCfg) || onlyTelephoneEvent (cfg_payloads resultCfg) then None
  else
    let resultCfg := resultCfg <| cfg_ptime := cfg_ptime remoteCfg |> <| cfg_maxptime := cfg_maxptime remoteCfg |> in
    let? resultCfg := negotiate_srtp availableEncs localCfg remoteCfg resultCfg false in
    let resultCfg := resultCfg <| cfg_rtp_ssrc := cfg_rtp_ssrc localCfg |>
                               <| cfg_rtcp_cname := cfg_rtcp_cname localCfg |> in
    let? resultCfg := fillZrtpAttributes local_offer localCfgIdx remote_answer remoteCfgIdx resultCfg in
    let? resultCfg :=
      (if dtls_usable localCfg remoteCfg then
         if negb (has_enc LinphoneMediaEncryptionDTLS availableEncs) then None
         else Some (resultCfg
           <| cfg_dtls_fingerprint := cfg_dtls_fingerprint remoteCfg |>
           <| cfg_dtls_role :=
                (if cfg_dtls_role remoteCfg =e SalDtlsRoleIsClient then SalDtlsRoleIsServer else SalDtlsRoleIsClient) |>)
       else Some (resultCfg <| cfg_dtls_fingerprint := EmptyString |> <| cfg_dtls_role := SalDtlsRoleInvalid |>)) in
    Some (resultCfg
      <| cfg_implicit_rtcp_fb := (cfg_implicit_rtcp_fb localCfg && cfg_implicit_rtcp_fb remoteCfg) |>
      <| cfg_acapIndexes := cfg_acapIndexes remoteCfg |>
      <| cfg_tcapIndex := cfg_tcapIndex remoteCfg |>
      <| cfg_index := cfg_index remoteCfg |>).

Definition initiateOutgoingConfiguration (local_offer remote_answer result : SalStreamDescription)
    (localCfgIdx remoteCfgIdx : Z) : option SalStreamConfiguration * SalStreamDescription :=
  let resultCfg := getActualConfiguration result in
  let localCfg := getConfigurationAtIndex local_offer localCfgIdx in
  let remoteCfg := getConfigurationAtIndex remote_answer remoteCfgIdx in
  if SalStreamConfiguration.operator_eq localCfg empty_cfg || SalStreamConfiguration.operator_eq remoteCfg empty_cfg
  then (None, local_offer)
  else
    let resultCfg := resultCfg
      <| cfg_delete_media_attributes := cfg_delete_media_attributes localCfg |>
      <| cfg_delete_session_attributes := cfg_delete_session_attributes localCfg |>
      <| cfg_rtcp_mux := (cfg_rtcp_mux remoteCfg && cfg_rtcp_mux localCfg) |> in
    let '(resultCfg, bundle_enabled) :=
      if negb (str_empty (cfg_mid remoteCfg)) && negb (str_empty (cfg_mid localCfg)) then
        (resultCfg
         <| cfg_mid := cfg_mid remoteCfg |>
         <| cfg_mid_rtp_ext_header_id := cfg_mid_rtp_ext_header_id remoteCfg |>
         <| cfg_bundle_only := cfg_bundle_only remoteCfg |>
         <| cfg_rtcp_mux := true |>, true)
      else (resultCfg, false) in
    let '(payloads, local_payloads) :=
      matchPayloads this (cfg_payloads localCfg) (cfg_payloads remoteCfg) true bundle_enabled in
    let resultCfg := resultCfg <| cfg_payloads := payloads |> in
    let local_offer := update_cfg localCfgIdx (set_payloads local_payloads) local_offer in
    if negb (areProtoCompatibles (cfg_proto localCfg) (cfg_proto remoteCfg)) then (None, local_offer)
    else
      let '(localCfg, local_offer) :=
        if (cfg_proto localCfg <>e cfg_proto remoteCfg) && SalStreamConfiguration.hasAvpf localCfg
        then (set_proto (cfg_proto remoteCfg) localCfg,
              update_cfg localCfgIdx (set_proto (cfg_proto remoteCfg)) local_offer)
        else (localCfg, local_offer) in
      (outgoing_result local_offer remote_answer localCfg remoteCfg resultCfg localCfgIdx remoteCfgIdx, local_offer).

(** [initiateIncomingConfiguration] from the point where it has no more effect
    on the remote offer. *)
Definition incoming_result (local_cap remote_offer : SalStreamDescription)
    (localCfg remoteCfg resultCfg : SalStreamConfiguration) (localCfgIdx remoteCfgIdx : Z)
    : option SalStreamConfiguration :=
  let availableEncs := sd_supportedEncryption local_cap in
  let resultCfg := resultCfg <| cfg_proto := cfg_proto remoteCfg |>
    <| cfg_dir := (computeDirIncoming (cfg_dir localCfg) (cfg_dir remoteCfg)) |>
    <| cfg_delete_media_attributes := cfg_delete_media_attributes localCfg |>
    <| cfg_delete_session_attributes := cfg_delete_session_attributes localCfg |> in
  let? resultCfg :=
    (if is_multicast_stream remote_offer then
       if SalStreamConfiguration.hasSrtp resultCfg then None
       else Some (resultCfg <| cfg_dir := cfg_dir remoteCfg |> <| cfg_ptime := cfg_ptime remoteCfg |>
              <| cfg_maxptime := cfg_maxptime remoteCfg |> <| cfg_ttl := cfg_ttl remoteCfg |>)
     else Some (resultCfg <| cfg_ptime := cfg_ptime localCfg |> <| cfg_maxptime := cfg_maxptime localCfg |>)) in
  if is_nil (cfg_payloads resultCfg) || onlyTelephoneEvent (cfg_payloads resultCfg) || negb (enabled remote_offer)
  then None
  else
    let resultCfg := resultCfg <| cfg_rtcp_mux := (cfg_rtcp_mux remoteCfg && cfg_rtcp_mux localCfg) |> in
    let resultCfg := set_extension_ids localCfg remoteCfg resultCfg in
    let resultCfg := resultCfg <| cfg_conference_ssrc := cfg_conference_ssrc localCfg |> in
    let? resultCfg := negotiate_srtp availableEncs localCfg remoteCfg resultCfg true in
    let? resultCfg := fillZrtpAttributes local_cap localCfgIdx remote_offer remoteCfgIdx resultCfg in
    let resultCfg := resultCfg <| cfg_set_nortpproxy := cfg_set_nortpproxy localCfg |>
      <| cfg_rtp_ssrc := cfg_rtp_ssrc localCfg |> <| cfg_rtcp_cname := cfg_rtcp_cname localCfg |> in
    let? resultCfg :=
      (if dtls_usable localCfg remoteCfg then
         if negb (has_enc LinphoneMediaEncryptionDTLS availableEncs) then None
         else
           let resultCfg := resultCfg <| cfg_dtls_fingerprint := cfg_dtls_fingerprint localCfg |> in
           Some (if cfg_dtls_role remoteCfg =e SalDtlsRoleUnset
                 then resultCfg <| cfg_dtls_role := SalDtlsRoleIsClient |> else resultCfg)
       else Some (resultCfg <| cfg_dtls_fingerprint := EmptyString |> <| cfg_dtls_role := SalDtlsRoleInvalid |>)) in
    Some (resultCfg
      <| cfg_implicit_rtcp_fb := (cfg_implicit_rtcp_fb localCfg && cfg_implicit_rtcp_fb remoteCfg) |>
      <| cfg_tcapIndex := cfg_tcapIndex remoteCfg |>
      <| cfg_acapIndexes := cfg_acapIndexes remoteCfg |>
      <| cfg_index := cfg_index remoteCfg |>).

Definition incoming_bundle (localCfg remoteCfg : SalStreamConfiguration) (bundle_owner_mid : string) : bool :=
  negb (str_empty (cfg_mid localCfg)) && negb (str_empty (cfg_mid remoteCfg)) && negb (str_empty bundle_owner_mid)
  && negb (cfg_mid_rtp_ext_header_id localCfg =? 0) && negb (cfg_mid_rtp_ext_header_id remoteCfg =? 0).

Definition initiateIncomingConfiguration (local_cap remote_offer result : SalStreamDescription)
    (bundle_owner_mid : string) (localCfgIdx remoteCfgIdx : Z)
    : option SalStreamConfiguration * SalStreamDescription * SalStreamDescription :=
  let resultCfg :=
    if hasConfigurationAtIndex result (getActualConfigurationIndex result)
    then getActualConfiguration result else empty_cfg in
  let localCfg := getConfigurationAtIndex local_cap localCfgIdx in
  let remoteCfg := getConfigurationAtIndex remote_offer remoteCfgIdx in
  if SalStreamConfiguration.operator_eq localCfg empty_cfg || SalStreamConfiguration.operator_eq remoteCfg empty_cfg
  then (None, local_cap, remote_offer)
  else
    let '(resultCfg, bundle_enabled) :=
      if incoming_bundle localCfg remoteCfg bundle_owner_mid then
        let resultCfg := resultCfg
          <| cfg_mid := cfg_mid remoteCfg |>
          <| cfg_mid_rtp_ext_header_id := cfg_mid_rtp_ext_header_id remoteCfg |> in
        let resultCfg :=
          if negb (String.eqb (cfg_mid remoteCfg) bundle_owner_mid)
          then resultCfg <| cfg_bundle_only := true |> else resultCfg in
        (resultCfg <| cfg_rtcp_mux := true |>, true)
      else (resultCfg, false) in
    let '(payloads, local_payloads) :=
      matchPayloads this (cfg_payloads localCfg) (cfg_payloads remoteCfg) false bundle_enabled in
    let resultCfg := resultCfg <| cfg_payloads := payloads |> in
    let local_cap := update_cfg localCfgIdx (set_payloads local_payloads) local_cap in
    if negb (areProtoCompatibles (cfg_proto localCfg) (cfg_proto remoteCfg)) then (None, local_cap, remote_offer)
    else
      let '(remoteCfg, remote_offer) :=
        if (cfg_proto localCfg <>e cfg_proto remoteCfg) && SalStreamConfiguration.hasAvpf remoteCfg
        then (set_proto (cfg_proto localCfg) remoteCfg,
              update_cfg remoteCfgIdx (set_proto (cfg_proto localCfg)) remote_offer)
        else (remoteCfg, remote_offer) in
      (incoming_result local_cap remote_offer localCfg remoteCfg resultCfg localCfgIdx remoteCfgIdx,
       local_cap, remote_offer).
End Configurations.

(** ** One stream *)

Section Streams.
Context {lib : MediaLib} (this : OfferAnswerEngine).

(** The loop on the [acfg] lines: each line is tried, with its index, until
    one gives a configuration. *)
Fixpoint try_outgoing (answerCfgs : uint_map string) (local_offer remote_answer result : SalStreamDescription)
    (localCfgIdx remoteCfgIdx : Z) : option SalStreamConfiguration * SalStreamDescription * Z :=
  match answerCfgs with
  | [] => (None, local_offer, localCfgIdx)
  | (idx, _) :: rest =>
      let '(resultNegCfg, local_offer) :=
        initiateOutgoingConfiguration this local_offer remote_answer result idx remoteCfgIdx in
      match resultNegCfg with
      | Some c => (Some c, local_offer, idx)
      | None => try_outgoing rest local_offer remote_answer result idx remoteCfgIdx
      end
  end.

Definition outgoing_negotiation (local_offer remote_answer result : SalStreamDescription)
    (allowCapabilityNegotiation : bool) : option SalStreamConfiguration * SalStreamDescription * Z :=
  let remoteCfgIdx := getActualConfigurationIndex remote_answer in
  let localCfgIdx := getActualConfigurationIndex local_offer in
  if allowCapabilityNegotiation then
    let answerUnparsedCfgs := List.filter (fun p => str_contains "acfg" (snd p)) (sd_unparsed_cfgs remote_answer) in
    match answerUnparsedCfgs with
    | [] =>
        let '(r, local_offer) :=
          initiateOutgoingConfiguration this local_offer remote_answer result localCfgIdx remoteCfgIdx in
        (r, local_offer, localCfgIdx)
    | _ => try_outgoing answerUnparsedCfgs local_offer remote_answer result localCfgIdx remoteCfgIdx
    end
  else
    let '(r, local_offer) :=
      initiateOutgoingConfiguration this local_offer remote_answer result localCfgIdx remoteCfgIdx in
    (r, local_offer, localCfgIdx).

(** The first checks on a multicast offer. *)
Definition multicast_answer_matches (local_offer remote_answer : SalStreamDescription) : bool :=
  String.eqb (sd_rtp_addr local_offer) (sd_rtp_addr remote_answer)
  && (sd_rtp_port local_offer =? sd_rtp_port remote_answer)
  && (getDirection local_offer =e getDirection remote_answer)
  && (sd_bandwidth local_offer =? sd_bandwidth remote_answer).

Definition initiateOutgoingStream (local_offer remote_answer : SalStreamDescription)
    (allowCapabilityNegotiation : bool) : SalStreamDescription * SalStreamDescription * SalStreamDescription :=
  let result := empty_stream in
  let result := setLabel result (sd_label local_offer) in
  let result := setContent result (sd_content local_offer) in
  let result := result <| sd_type := sd_type local_offer |> in
  if is_multicast_stream local_offer && negb (multicast_answer_matches local_offer remote_answer)
  then (result <| sd_rtp_port := 0 |>, local_offer, remote_answer)
  else
    let result := if is_multicast_stream local_offer then result <| sd_multicast_role := SalMulticastSender |> else result in
    if enabled remote_answer then
      let remoteCfgIdx := getActualConfigurationIndex remote_answer in
      let '(resultNegCfg, local_offer, localCfgIdx) :=
        outgoing_negotiation local_offer remote_answer result allowCapabilityNegotiation in
      match resultNegCfg with
      | Some resultCfg =>
          let result := addActualConfiguration result resultCfg in
          let remote_answer := remote_answer <| sd_cfgIndex := remoteCfgIdx |> in
          let local_offer := local_offer <| sd_cfgIndex := localCfgIdx |> in
          if negb (is_nil (cfg_payloads resultCfg)) && negb (onlyTelephoneEvent (cfg_payloads resultCfg)) then
            (result
             <| sd_rtp_addr := sd_rtp_addr remote_answer |>
             <| sd_rtp_port := sd_rtp_port remote_answer |>
             <| sd_rtcp_addr := sd_rtcp_addr remote_answer |>
             <| sd_rtcp_port := sd_rtcp_port remote_answer |>
             <| sd_bandwidth := sd_bandwidth remote_answer |>, local_offer, remote_answer)
          else (disable result, local_offer, remote_answer)
      | None => (disable result, local_offer, remote_answer)
      end
    else (disable result, local_offer, remote_answer).

(** The nested loops of [initiateIncomingStream] on the pairs of indexes,
    the remote one first; the pair tried last is kept. *)
Fixpoint try_incoming (pairs : list (Z * Z)) (local_cap remote_offer result : SalStreamDescription)
    (bundle_owner_mid : string) (localCfgIdx remoteCfgIdx : Z)
    : option SalStreamConfiguration * SalStreamDescription * SalStreamDescription * Z * Z :=
  match pairs with
  | [] => (None, local_cap, remote_offer, localCfgIdx, remoteCfgIdx)
  | (remoteIdx, localIdx) :: rest =>
      let '(resultNegCfg, local_cap, remote_offer) :=
        initiateIncomingConfiguration this local_cap remote_offer result bundle_owner_mid localIdx remoteIdx in
      match resultNegCfg with
      | Some c => (Some c, local_cap, remote_offer, localIdx, remoteIdx)
      | None => try_incoming rest local_cap remote_offer result bundle_owner_mid localIdx remoteIdx
      end
  end.

(** [getAllCfgs] is a copy: the indexes are the ones of the start. *)
Definition cfg_pairs (local_cap remote_offer : SalStreamDescription) : list (Z * Z) :=
  list_prod (om_keys (getAllCfgs remote_offer)) (om_keys (getAllCfgs local_cap)).

Definition incoming_negotiation (local_cap remote_offer result : SalStreamDescription) (bundle_owner_mid : string)
    (allowCapabilityNegotiation : bool)
    : option SalStreamConfiguration * SalStreamDescription * SalStreamDescription * Z * Z :=
  let remoteCfgIdx := getActualConfigurationIndex remote_offer in
  let localCfgIdx := getActualConfigurationIndex local_cap in
  if allowCapabilityNegotiation
  then try_incoming (cfg_pairs local_cap remote_offer) local_cap remote_offer result bundle_owner_mid localCfgIdx remoteCfgIdx
  else
    let '(r, local_cap, remote_offer) :=
      initiateIncomingConfiguration this local_cap remote_offer result bundle_owner_mid localCfgIdx remoteCfgIdx in
    (r, local_cap, remote_offer, localCfgIdx, remoteCfgIdx).

(** What an accepted configuration makes of the stream of the answer. *)
Definition accept_incoming_stream (local_cap remote_offer result : SalStreamDescription)
    (resultCfg : SalStreamConfiguration) : SalStreamDescription :=
  let result := addActualConfiguration result resultCfg in
  let result :=
    if is_multicast_stream remote_offer then
      result
      <| sd_rtp_addr := sd_rtp_addr remote_offer |>
      <| sd_rtcp_addr := sd_rtcp_addr remote_offer |>
      <| sd_rtp_port := sd_rtp_port remote_offer |>
      <| sd_rtcp_port := 0 |>
      <| sd_bandwidth := sd_bandwidth remote_offer |>
      <| sd_multicast_role := SalMulticastReceiver |>
    else
      result
      <| sd_rtp_addr := sd_rtp_addr local_cap |>
      <| sd_rtcp_addr := sd_rtcp_addr local_cap |>
      <| sd_rtp_port := sd_rtp_port local_cap |>
      <| sd_rtcp_port := sd_rtcp_port local_cap |>
      <| sd_bandwidth := sd_bandwidth local_cap |> in
  let result := if cfg_bundle_only resultCfg then result <| sd_rtp_port := 0 |> else result in
  if cfg_rtcp_mux resultCfg then result <| sd_rtcp_port := 0 |> else result.

Definition initiateIncomingStream (local_cap remote_offer : SalStreamDescription) (bundle_owner_mid : string)
    (allowCapabilityNegotiation : bool) : SalStreamDescription * SalStreamDescription * SalStreamDescription :=
  let result := empty_stream in
  let result := result <| sd_name := sd_name local_cap |> <| sd_type := sd_type local_cap |> in
  let result := if sd_type result =e SalOther then result <| sd_typeother := sd_typeother remote_offer |> else result in
  let result := result
    <| sd_ice_pwd := sd_ice_pwd local_cap |>
    <| sd_ice_ufrag := sd_ice_ufrag local_cap |>
    <| sd_ice_mismatch := sd_ice_mismatch local_cap |>
    <| sd_ice_candidates := sd_ice_candidates local_cap |>
    <| sd_ice_remote_candidates := sd_ice_remote_candidates local_cap |> in
  let '(resultNegCfg, local_cap, remote_offer, localCfgIdx, remoteCfgIdx) :=
    incoming_negotiation local_cap remote_offer result bundle_owner_mid allowCapabilityNegotiation in
  let result :=
    if str_empty (sd_label remote_offer) then setLabel result (sd_label local_cap)
    else setLabel result (sd_label remote_offer) in
  let result := setContent result (sd_content local_cap) in
  match resultNegCfg with
  | Some resultCfg =>
      let remote_offer := remote_offer <| sd_cfgIndex := remoteCfgIdx |> in
      let local_cap := local_cap <| sd_cfgIndex := localCfgIdx |> in
      (accept_incoming_stream local_cap remote_offer result resultCfg, local_cap, remote_offer)
  | None =>
      let remoteCfg := getActualConfiguration remote_offer in
      let result := result <| sd_cfgs :=
        om_alter cfg_rank empty_cfg (set_proto (cfg_proto remoteCfg)) (getActualConfigurationIndex result)
          (sd_cfgs result) |> in
      (disable result, local_cap, remote_offer)
  end.
End Streams.

(** ** A whole description *)

Section Descriptions.
Context {lib : MediaLib} (this : OfferAnswerEngine).

Definition stream_nth (i : nat) (md : SalMediaDescription) : SalStreamDescription :=
  default empty_stream (md_streams md !! i).
Definition set_stream (i : nat) (s : SalStreamDescription) (md : SalMediaDescription) : SalMediaDescription :=
  md <| md_streams := <[i := s]> (md_streams md) |>.

(** A stream whose transport owner is not the one of both sides is disabled;
    the owners are looked up in the result as the former turns left it. *)
Definition verify_bundle_of (local remote result : SalMediaDescription) (i : nat) : SalMediaDescription :=
  if (i <? length (md_streams local))%nat then
    let s := stream_nth i result in
    let result_owner_index := getIndexOfTransportOwner result s in
    let local_owner_index := getIndexOfTransportOwner local (stream_nth i local) in
    let remote_owner_index := getIndexOfTransportOwner remote (stream_nth i remote) in
    if ((0 <=? result_owner_index)
        && (negb (local_owner_index =? result_owner_index) || negb (remote_owner_index =? result_owner_index)))
       || ((result_owner_index <? 0) && (0 <=? local_owner_index) && (0 <=? remote_owner_index))
    then set_stream i (disable s) result
    else result
  else result.
Definition verifyBundles (local remote result : SalMediaDescription) : SalMediaDescription :=
  fold_left (verify_bundle_of local remote) (seq 0 (length (md_streams result))) result.

(** The loop that builds the only bundle of a result: the streams with a mid
    are added in order to the front of [bundles].  [cfgs[index]] creates the
    configuration when it does not exist. *)
Fixpoint bundle_streams (streams : list SalStreamDescription) (bundles : list SalStreamBundle)
    : list SalStreamDescription * list SalStreamBundle :=
  match streams with
  | [] => ([], bundles)
  | s :: rest =>
      let mid := getMid s in
      let '(s, bundles) :=
        if negb (str_empty mid) then
          let '(bundle, bundles) := match bundles with [] => ([], []) | b :: bs => (b, bs) end in
          let '(bundle, cfg) := addStream bundle (getChosenConfiguration s) mid in
          (alter_chosen (fun _ => cfg) s, bundle :: bundles)
        else (alter_chosen (fun c => c) s, bundles) in
      let '(rest, bundles) := bundle_streams rest bundles in
      (s :: rest, bundles)
  end.

(** The RTCP attributes of an outgoing stream. *)
Definition outgoing_rtcp (ls rs : SalStreamDescription) (actualCfg : SalStreamConfiguration) : SalStreamConfiguration :=
  let lc := getChosenConfiguration ls in
  let rc := getChosenConfiguration rs in
  let actualCfg := actualCfg <| cfg_rtcp_xr := cfg_rtcp_xr lc |> in
  let actualCfg :=
    if xr_enabled (cfg_rtcp_xr lc) && negb (xr_enabled (cfg_rtcp_xr rc))
    then actualCfg <| cfg_rtcp_xr := (cfg_rtcp_xr actualCfg) <| xr_enabled := false |> |> else actualCfg in
  actualCfg <| cfg_rtcp_fb := (cfg_rtcp_fb actualCfg)
    <| generic_nack_enabled := (generic_nack_enabled (cfg_rtcp_fb lc) && generic_nack_enabled (cfg_rtcp_fb rc)) |>
    <| tmmbr_enabled := (tmmbr_enabled (cfg_rtcp_fb lc) && tmmbr_enabled (cfg_rtcp_fb rc)) |>
    <| goog_remb_enabled := (goog_remb_enabled (cfg_rtcp_fb lc) && goog_remb_enabled (cfg_rtcp_fb rc)) |> |>.

(** One turn of the loop of [initiateOutgoing] (the answer has a stream [i]). *)
Definition outgoing_stream (capabilityNegotiation : bool) (ls rs : SalStreamDescription)
    : SalStreamDescription * SalStreamDescription * SalStreamDescription :=
  if (sd_type rs =e sd_type ls) && areProtoInStreamCompatibles ls rs then
    let '(stream, ls, rs) := initiateOutgoingStream this ls rs capabilityNegotiation in
    (addActualConfiguration stream (outgoing_rtcp ls rs (getActualConfiguration stream)), ls, rs)
  else (empty_stream, ls, rs).

Fixpoint outgoing_streams (capabilityNegotiation : bool) (locals remotes : list SalStreamDescription)
    : list SalStreamDescription * list SalStreamDescription * list SalStreamDescription :=
  match locals, remotes with
  | ls :: locals', rs :: remotes' =>
      let '(stream, ls, rs) := outgoing_stream capabilityNegotiation ls rs in
      let '(streams, locals', remotes') := outgoing_streams capabilityNegotiation locals' remotes' in
      (stream :: streams, ls :: locals', rs :: remotes')
  | _, _ => ([], locals, remotes)
  end.

(** The result, the local offer and the remote answer. *)
Definition initiateOutgoing (local_offer remote_answer : SalMediaDescription)
    : SalMediaDescription * SalMediaDescription * SalMediaDescription :=
  let result := media_of_params (md_params local_offer) in
  let capabilityNegotiation := capabilityNegotiationSupported (md_params result) in
  let '(streams, locals, remotes) :=
    outgoing_streams capabilityNegotiation (md_streams local_offer) (md_streams remote_answer) in
  let local_offer := local_offer <| md_streams := locals |> in
  let remote_answer := remote_answer <| md_streams := remotes |> in
  let result := result
    <| md_streams := streams |>
    <| md_times := md_times local_offer |>
    <| md_bandwidth := md_bandwidth remote_answer |>
    <| md_origin_addr := md_origin_addr remote_answer |>
    <| md_addr := md_addr remote_answer |>
    <| md_ice_pwd := md_ice_pwd local_offer |>
    <| md_ice_ufrag := md_ice_ufrag local_offer |>
    <| md_rtcp_xr := md_rtcp_xr local_offer |> in
  let result :=
    if xr_enabled (md_rtcp_xr local_offer) && negb (xr_enabled (md_rtcp_xr remote_answer))
    then result <| md_rtcp_xr := (md_rtcp_xr result) <| xr_enabled := false |> |> else result in
  let result :=
    if negb (is_nil (md_bundles local_offer)) && negb (is_nil (md_bundles remote_answer)) then
      let '(streams, bundles) := bundle_streams (md_streams result) (md_bundles result) in
      result <| md_streams := streams |> <| md_bundles := bundles |>
    else result in
  let result := verifyBundles local_offer remote_answer result in
  let result :=
    if (md_record local_offer <>e SalMediaRecordNone) && (md_record remote_answer <>e SalMediaRecordNone)
    then result <| md_record := md_record remote_answer |> else result in
  (result, local_offer, remote_answer).
End Descriptions.

Section Incoming.
Context {lib : MediaLib} (this : OfferAnswerEngine).

(** The RTCP attributes of an answered stream. *)
Definition incoming_rtcp (local_capabilities : SalMediaDescription) (ls rs : SalStreamDescription)
    (actualCfg : SalStreamConfiguration) : SalStreamConfiguration :=
  let lc := getChosenConfiguration ls in
  let rc := getChosenConfiguration rs in
  let actualCfg := actualCfg <| cfg_rtcp_fb := (cfg_rtcp_fb actualCfg)
    <| generic_nack_enabled := generic_nack_enabled (cfg_rtcp_fb rc) |>
    <| tmmbr_enabled := tmmbr_enabled (cfg_rtcp_fb rc) |>
    <| goog_remb_enabled := goog_remb_enabled (cfg_rtcp_fb rc) |> |> in
  let actualCfg := actualCfg <| cfg_rtcp_xr := rtcp_xr_default |> in
  if xr_enabled (cfg_rtcp_xr rc) then
    if xr_enabled (cfg_rtcp_xr lc) then actualCfg <| cfg_rtcp_xr := cfg_rtcp_xr lc |>
    else if xr_enabled (md_rtcp_xr local_capabilities)
    then actualCfg <| cfg_rtcp_xr := md_rtcp_xr local_capabilities |>
    else actualCfg <| cfg_rtcp_xr := (cfg_rtcp_xr actualCfg) <| xr_enabled := false |> |>
  else actualCfg.

(** The mid of the transport owner of the bundle of a remote stream. *)
Definition bundle_owner_mid_of (local_capabilities remote_offer : SalMediaDescription) (rs : SalStreamDescription)
    : string :=
  if md_accept_bundles local_capabilities then
    let owner_index := getIndexOfTransportOwner remote_offer rs in
    if 0 <=? owner_index then getMid (stream_nth (Z.to_nat owner_index) remote_offer) else EmptyString
  else EmptyString.

(** A declined media line. *)
Definition declined_stream (rs : SalStreamDescription) : SalStreamDescription * SalStreamConfiguration :=
  let actualCfg := empty_cfg <| cfg_dir := SalStreamInactive |> <| cfg_proto := getProto rs |> in
  let stream := empty_stream <| sd_rtp_port := 0 |> <| sd_type := sd_type rs |> in
  let stream := if sd_type rs =e SalOther then stream <| sd_typeother := sd_typeother rs |> else stream in
  let actualCfg :=
    if getProto rs =e SalProtoOther
    then actualCfg <| cfg_proto_other := cfg_proto_other (getChosenConfiguration rs) |> else actualCfg in
  (stream, actualCfg).

(** Turn [i] of the loop on the offered streams: the stream of the answer and
    both descriptions as the turn leaves them. *)
Definition incoming_turn (capabilityNegotiation : bool) (i : nat) (local_capabilities remote_offer : SalMediaDescription)
    : SalStreamDescription * SalMediaDescription * SalMediaDescription :=
  let rs := stream_nth i remote_offer in
  let ls := stream_nth i local_capabilities in
  let has_local := (i <? length (md_streams local_capabilities))%nat in
  let '(stream, actualCfg, ls, rs) :=
    if has_local && (sd_type rs =e sd_type ls) && areProtoInStreamCompatibles ls rs then
      let bundle_owner_mid := bundle_owner_mid_of local_capabilities remote_offer rs in
      let '(stream, ls, rs) := initiateIncomingStream this ls rs bundle_owner_mid capabilityNegotiation in
      (stream, incoming_rtcp local_capabilities ls rs (getActualConfiguration stream), ls, rs)
    else
      let '(stream, actualCfg) := declined_stream rs in
      (stream, actualCfg, ls, rs) in
  let stream :=
    if has_local then stream <| sd_custom_sdp_attributes := sd_custom_sdp_attributes ls |> else stream in
  (addActualConfiguration stream actualCfg, set_stream i ls local_capabilities, set_stream i rs remote_offer).

Fixpoint incoming_turns (capabilityNegotiation : bool) (indexes : list nat)
    (local_capabilities remote_offer : SalMediaDescription)
    : list SalStreamDescription * SalMediaDescription * SalMediaDescription :=
  match indexes with
  | [] => ([], local_capabilities, remote_offer)
  | i :: rest =>
      let '(stream, local_capabilities, remote_offer) :=
        incoming_turn capabilityNegotiation i local_capabilities remote_offer in
      let '(streams, local_capabilities, remote_offer) :=
        incoming_turns capabilityNegotiation rest local_capabilities remote_offer in
      (stream :: streams, local_capabilities, remote_offer)
  end.

(** The answer, the local capabilities and the remote offer. *)
Definition initiateIncoming (local_capabilities remote_offer : SalMediaDescription)
    : SalMediaDescription * SalMediaDescription * SalMediaDescription :=
  let result := media_of_params (md_params local_capabilities) in
  let result :=
    if (md_record remote_offer <>e SalMediaRecordNone) && (md_record local_capabilities <>e SalMediaRecordNone)
    then result <| md_record := md_record local_capabilities |> else result in
  let capabilityNegotiation := capabilityNegotiationSupported (md_params result) in
  let '(streams, local_capabilities, remote_offer) :=
    incoming_turns capabilityNegotiation (seq 0 (length (md_streams remote_offer))) local_capabilities remote_offer in
  let result := result
    <| md_streams := streams |>
    <| md_username := md_username local_capabilities |>
    <| md_addr := md_addr local_capabilities |>
    <| md_times := md_times remote_offer |>
    <| md_bandwidth := md_bandwidth local_capabilities |>
    <| md_origin_addr := md_origin_addr local_capabilities |>
    <| md_session_ver := md_session_ver local_capabilities |>
    <| md_session_id := md_session_id local_capabilities |>
    <| md_ice_pwd := md_ice_pwd local_capabilities |>
    <| md_ice_ufrag := md_ice_ufrag local_capabilities |>
    <| md_ice_lite := md_ice_lite local_capabilities |>
    <| md_set_nortpproxy := md_set_nortpproxy local_capabilities |>
    <| md_custom_sdp_attributes := md_custom_sdp_attributes local_capabilities |>
    <| md_name := md_name local_capabilities |>
    <| md_rtcp_xr := rtcp_xr_default |> in
  let result :=
    if xr_enabled (md_rtcp_xr remote_offer) then
      if xr_enabled (md_rtcp_xr local_capabilities) && (md_dir local_capabilities =e SalStreamSendRecv)
      then result <| md_rtcp_xr := md_rtcp_xr local_capabilities |>
      else result <| md_rtcp_xr := (md_rtcp_xr result) <| xr_enabled := false |> |>
    else result in
  let '(streams, bundles) := bundle_streams (md_streams result) (md_bundles result) in
  let result := result <| md_streams := streams |> <| md_bundles := bundles |> in
  (verifyBundles local_capabilities remote_offer result, local_capabilities, remote_offer).
End Incoming.
