(* ===== verification/OfferAnswerMatching.v ===== *)
(** What the parts of the offer/answer engine that match one list against
    another guarantee: directions, SRTP crypto attributes, header extensions
    and payload types. *)
From S2P Require Import Prelude SalTypes Payload SalStreamConfiguration ReferenceLib SalStreamDescription OfferAnswerEngine.

(** ** Specifications *)

(** What a direction allows an endpoint to do. *)
Definition may_send (d : SalStreamDir) : bool :=
  match d with SalStreamSendRecv | SalStreamSendOnly => true | _ => false end.
Definition may_receive (d : SalStreamDir) : bool :=
  match d with SalStreamSendRecv | SalStreamRecvOnly => true | _ => false end.

(** The algorithm both sides settle on: the first acceptable algorithm of the
    offer, with the first local entry that has it. *)
Definition agreed_crypto (local remote : list SalSrtpCryptoAlgo) (lc rc : SalSrtpCryptoAlgo) : Prop :=
  exists pre post lpre lpost,
    remote = pre ++ rc :: post /\ local = lpre ++ lc :: lpost /\
    algo rc <> 0 /\ algo lc = algo rc /\
    Forall (fun r => algo r <> 0 /\ Forall (fun l => algo l <> algo r) local) pre /\
    Forall (fun l => algo l <> algo rc) lpre.

(** The local payload type [p] is for the format the remote one [p2] names, and
    [q] has the channels that go with it.  With no provider for that name: the same
    name but for the case, the same clock rate and number of channels.  With one of
    the providers this program registers: what its matcher looks for. *)
Definition same_format {lib : MediaLib} (p p2 q : OrtpPayloadType) : Prop :=
  match mime_type p2 with
  | None => False
  | Some m2 =>
      match ms_factory_create_offer_answer_context m2 with
      | None => mime_is m2 p = true /\ clock_rate p = clock_rate p2 /\ channels q = channels p2
      | Some f =>
          (f = opus_match -> mime_is "opus" p = true /\ (channels p2 = 2 \/ channels p2 = 1 /\ channels q = 1)) /\
          (f = g729A_match -> mime_is "G729" p = true /\ channels q = channels p2) /\
          (f = red_match -> mime_is payload_type_t140_red_mime p = true)
      end
  end.

(** [q] is what negotiating the local payload type [p] against the remote one
    [p2] gives. *)
Record negotiated {lib : MediaLib} (engine : OfferAnswerEngine) (reading bundle : bool) (p p2 q : OrtpPayloadType) : Prop := {
  neg_kind : pt_kind q = pt_kind p;
  neg_mime : mime_type q = mime_type p;
  neg_rate : clock_rate q = clock_rate p;
  neg_number : number q = (if negb reading && mAnswerWithOwnNumbering engine then number p else number p2);
  neg_send : has_flag PAYLOAD_TYPE_FLAG_CAN_SEND q = true;
  neg_recv : has_flag PAYLOAD_TYPE_FLAG_CAN_RECV q = true;
  neg_frozen : has_flag PAYLOAD_TYPE_FROZEN_NUMBER q = true;
  neg_bonus : has_flag PAYLOAD_TYPE_PRIORITY_BONUS q = has_flag PAYLOAD_TYPE_PRIORITY_BONUS p;
  neg_avpf : has_flag PAYLOAD_TYPE_RTCP_FEEDBACK_ENABLED q =
    has_flag PAYLOAD_TYPE_RTCP_FEEDBACK_ENABLED p && has_flag PAYLOAD_TYPE_RTCP_FEEDBACK_ENABLED p2;
  neg_features : has_flag PAYLOAD_TYPE_RTCP_FEEDBACK_ENABLED q = true ->
    features (avpf q) = Z.land (features (avpf p)) (features (avpf p2)) /\
    trr_interval (avpf q) = Z.max (trr_interval (avpf p)) (trr_interval (avpf p2));
  neg_flexfec : mime_is "flexfec" p = true -> bundle = true;
  neg_format : same_format p p2 q
}.

(** The second payload type pushed for a codec answered under another number:
    the same one, received only, under the number that was offered. *)
Record receive_only_twin {lib : MediaLib} (p p2 q : OrtpPayloadType) : Prop := {
  twin_mime : mime_type q = mime_type p;
  twin_number : number q = number p;
  twin_differs : number p <> number p2;
  twin_recv : has_flag PAYLOAD_TYPE_FLAG_CAN_RECV q = true;
  twin_send : has_flag PAYLOAD_TYPE_FLAG_CAN_SEND q = false;
  twin_format : same_format p p2 q
}.

(** Every provider of the factory returns a codec of the local list. *)
Class ProvidersSound (lib : MediaLib) : Prop :=
  providers_sound : forall m f, ms_factory_create_offer_answer_context m = Some f -> matcher_sound f.

(** ** Directions *)

Lemma computeDirIncoming_may_send local offered :
  may_send (computeDirIncoming local offered) = may_send local && may_receive offered.
Proof. by destruct local, offered. Qed.

Lemma computeDirIncoming_may_receive local offered :
  may_receive (computeDirIncoming local offered) = may_receive local && may_send offered.
Proof. by destruct local, offered. Qed.

(** ** Crypto attributes *)

Lemma match_one_crypto_Some local rc ulk r :
  match_one_crypto local rc ulk = Some r <->
  exists lpre lc lpost, local = lpre ++ lc :: lpost /\ algo lc = algo rc /\ Forall (fun l => algo l <> algo rc) lpre /\
    r = if ulk then mkCrypto (tag rc) (algo rc) (master_key lc) else mkCrypto (tag lc) (algo rc) (master_key rc).
Proof.
  induction local as [|lc local IH]; simpl.
  - split; [done|]. intros (lpre & lc & lpost & H & _). by apply app_cons_not_nil in H.
  - destruct (Z.eqb_spec (algo rc) (algo lc)) as [E|E].
    + split.
      * intros [= <-]. exists [], lc, local. repeat split; [by symmetry|constructor].
      * intros (lpre & lc' & lpost & H & Ha & Hf & ->). destruct lpre as [|l lpre]; simpl in H; injection H as <- H.
        -- done.
        -- inversion Hf; congruence.
    + rewrite IH. split.
      * intros (lpre & lc' & lpost & -> & Ha & Hf & ->). exists (lc :: lpre), lc', lpost.
        repeat split; [done|]. constructor; congruence.
      * intros (lpre & lc' & lpost & H & Ha & Hf & ->). destruct lpre as [|l lpre]; simpl in H; injection H as <- H.
        -- congruence.
        -- inversion Hf; subst. eauto 8.
Qed.

Lemma match_one_crypto_None local rc ulk :
  match_one_crypto local rc ulk = None <-> Forall (fun l => algo l <> algo rc) local.
Proof.
  induction local as [|lc local IH]; simpl; [split; [constructor|done]|].
  destruct (Z.eqb_spec (algo rc) (algo lc)) as [E|E].
  - split; [done|]. intros H. inversion H; congruence.
  - rewrite IH. split; [intros; constructor; congruence|intros H; by inversion H].
Qed.

Lemma matchCryptoAlgo_agreed local remote ulk r :
  matchCryptoAlgo local remote ulk = Some r <->
  exists lc rc, agreed_crypto local remote lc rc /\
    r = if ulk then mkCrypto (tag rc) (algo rc) (master_key lc) else mkCrypto (tag lc) (algo rc) (master_key rc).
Proof.
  induction remote as [|rc remote IH]; simpl.
  - split; [done|]. intros (lc & rc & (pre & post & lpre & lpost & H & _) & _). by apply app_cons_not_nil in H.
  - destruct (Z.eqb_spec (algo rc) 0) as [E0|E0].
    + split; [done|]. intros (lc & rc' & (pre & post & lpre & lpost & H & _ & Hnz & _ & Hpre & _) & _).
      destruct pre as [|x pre]; simpl in H; injection H as <- H; [congruence|]. inversion Hpre; tauto.
    + destruct (match_one_crypto local rc ulk) as [r'|] eqn:Hm.
      * apply match_one_crypto_Some in Hm as (lpre & lc & lpost & Hl & Ha & Hf & ->). split.
        -- intros [= <-]. exists lc, rc. split; [|done]. exists [], remote, lpre, lpost. auto 7.
        -- intros (lc' & rc' & (pre & post & lpre' & lpost' & H & Hl' & _ & Ha' & Hpre & Hf') & ->).
           destruct pre as [|x pre]; simpl in H; injection H as <- H.
           ++ assert (lc' = lc) as ->; [|done].
              assert (G : match_one_crypto local rc true = Some (mkCrypto (tag rc) (algo rc) (master_key lc'))
                       /\ match_one_crypto local rc false = Some (mkCrypto (tag lc') (algo rc) (master_key rc))).
              { split; apply match_one_crypto_Some; exists lpre', lc', lpost'; auto. }
              assert (G' : match_one_crypto local rc true = Some (mkCrypto (tag rc) (algo rc) (master_key lc))
                       /\ match_one_crypto local rc false = Some (mkCrypto (tag lc) (algo rc) (master_key rc))).
              { split; apply match_one_crypto_Some; exists lpre, lc, lpost; auto. }
              destruct lc as [t a k], lc' as [t' a' k']; simpl in *. intuition congruence.
           ++ inversion Hpre as [|? ? [_ Hn] _]; subst. rewrite Forall_app in Hn. destruct Hn as [_ Hn].
              inversion Hn; congruence.
      * apply match_one_crypto_None in Hm. rewrite IH. split.
        -- intros (lc & rc' & (pre & post & lpre & lpost & -> & Hl & Hnz & Ha & Hpre & Hf) & ->).
           exists lc, rc'. split; [|done]. exists (rc :: pre), post, lpre, lpost. repeat split; auto.
        -- intros (lc & rc' & (pre & post & lpre & lpost & H & Hl & Hnz & Ha & Hpre & Hf) & ->).
           exists lc, rc'. split; [|done]. destruct pre as [|x pre]; simpl in H; injection H as <- H.
           ++ rewrite Hl, Forall_app in Hm. destruct Hm as [_ Hm]. inversion Hm; congruence.
           ++ inversion Hpre; subst. exists pre, post, lpre, lpost. auto 7.
Qed.

(** The offerer reads the only crypto of an answer made from its own offer. *)
Lemma crypto_answer_read_back local offer a :
  matchCryptoAlgo local offer true = Some a ->
  matchCryptoAlgo offer [a] false = Some a.
Proof.
  rewrite matchCryptoAlgo_agreed. intros (lc & rc & (pre & post & lpre & lpost & Ho & Hl & Hnz & Ha & Hpre & Hf) & ->).
  apply matchCryptoAlgo_agreed. exists rc, (mkCrypto (tag rc) (algo rc) (master_key lc)). split; [|done].
  exists [], [], pre, post. simpl. repeat split; auto.
  eapply List.Forall_impl; [|exact Hpre]. intros r [_ Hr] Heq.
  rewrite Hl, Forall_app in Hr. destruct Hr as [_ Hr]. inversion Hr; congruence.
Qed.

(** ** One payload type *)

(** The parts of a payload type that no step of the negotiation changes. *)
Definition same_identity (a b : OrtpPayloadType) : Prop :=
  pt_kind a = pt_kind b /\ mime_type a = mime_type b /\ clock_rate a = clock_rate b.

Lemma negotiate_avpf_identity m p2 :
  same_identity (negotiate_avpf m p2) m /\ number (negotiate_avpf m p2) = number m.
Proof. unfold negotiate_avpf. destruct (_ && _); by repeat split. Qed.

Lemma negotiate_avpf_channels m p2 : channels (negotiate_avpf m p2) = channels m.
Proof. unfold negotiate_avpf. by destruct (_ && _). Qed.

Lemma same_format_ext {lib : MediaLib} p p' p2 q q' :
  mime_type p = mime_type p' -> clock_rate p = clock_rate p' -> channels q = channels q' ->
  same_format p p2 q -> same_format p' p2 q'.
Proof. unfold same_format, mime_is. intros -> -> ->. tauto. Qed.

(** The flags other than the feedback one are kept. *)
Lemma negotiate_avpf_flag f m p2 :
  f <> PAYLOAD_TYPE_RTCP_FEEDBACK_ENABLED -> has_flag f (negotiate_avpf m p2) = has_flag f m.
Proof.
  intros Hf. unfold negotiate_avpf. destruct (_ && _).
  - change (has_flag f (payload_type_set_flag {[PAYLOAD_TYPE_RTCP_FEEDBACK_ENABLED]} m) = has_flag f m).
    rewrite has_flag_set, bool_decide_false, orb_false_r; [done|]. by rewrite elem_of_singleton.
  - rewrite has_flag_unset, bool_decide_true, andb_true_r; [done|]. by rewrite elem_of_singleton.
Qed.

Lemma negotiate_avpf_feedback m p2 :
  has_flag PAYLOAD_TYPE_RTCP_FEEDBACK_ENABLED (negotiate_avpf m p2) =
  has_flag PAYLOAD_TYPE_RTCP_FEEDBACK_ENABLED m && has_flag PAYLOAD_TYPE_RTCP_FEEDBACK_ENABLED p2.
Proof.
  unfold negotiate_avpf. destruct (_ && _) eqn:E.
  - change (has_flag PAYLOAD_TYPE_RTCP_FEEDBACK_ENABLED
      (payload_type_set_flag {[PAYLOAD_TYPE_RTCP_FEEDBACK_ENABLED]} m) = true).
    by rewrite has_flag_set, (bool_decide_true _ (elem_of_singleton_2 _ _ eq_refl)), orb_true_r.
  - rewrite has_flag_unset, bool_decide_false, andb_false_r; [done|].
    intros H. by apply H, elem_of_singleton.
Qed.

Lemma negotiate_avpf_params m p2 :
  has_flag PAYLOAD_TYPE_RTCP_FEEDBACK_ENABLED (negotiate_avpf m p2) = true ->
  features (avpf (negotiate_avpf m p2)) = Z.land (features (avpf m)) (features (avpf p2)) /\
  trr_interval (avpf (negotiate_avpf m p2)) = Z.max (trr_interval (avpf m)) (trr_interval (avpf p2)).
Proof.
  rewrite negotiate_avpf_feedback. unfold negotiate_avpf. intros ->. cbv zeta. simpl.
  destruct (Z.ltb_spec (trr_interval (avpf m)) (trr_interval (avpf p2))); simpl; split; (done || lia).
Qed.

Lemma elem_flag (f : pt_flag) (fs : gset pt_flag) : bool_decide (f ∈ fs) = true <-> f ∈ fs.
Proof. apply bool_decide_eq_true. Qed.

Section OnePayload.
Context {lib : MediaLib} {libspec : MediaLibSpec lib} (engine : OfferAnswerEngine).

(** The payload type a provider matched, with the remote format parameters. *)
Definition with_remote_fmtp (m p2 : OrtpPayloadType) : OrtpPayloadType :=
  match send_fmtp p2 with
  | Some fmtp => payload_type_append_send_fmtp m fmtp
  | None => m
  end.

Lemma with_remote_fmtp_eq m p2 : exists s, with_remote_fmtp m p2 = m <| send_fmtp := s |>.
Proof.
  unfold with_remote_fmtp. destruct (send_fmtp p2) as [f|].
  - eexists. apply append_send_fmtp_only.
  - exists (send_fmtp m). by destruct m.
Qed.

Lemma matched_head m p2 reading :
  exists q rest, matched_payloads engine m p2 reading = q :: rest /\
    q = payload_type_set_flag {[PAYLOAD_TYPE_FROZEN_NUMBER]}
          ((negotiate_avpf
             (payload_type_set_flag {[PAYLOAD_TYPE_FLAG_CAN_RECV; PAYLOAD_TYPE_FLAG_CAN_SEND]} (with_remote_fmtp m p2)) p2)
           <| number := (if negb reading && mAnswerWithOwnNumbering engine then number m else number p2) |>) /\
    (rest = [] \/ (reading = true /\ number p2 <> number m /\
       rest = [payload_type_set_flag {[PAYLOAD_TYPE_FROZEN_NUMBER]}
                (payload_type_unset_flag {[PAYLOAD_TYPE_FLAG_CAN_SEND]}
                  (payload_type_set_flag {[PAYLOAD_TYPE_FLAG_CAN_RECV]} (q <| number := number m |>)))])).
Proof.
  unfold matched_payloads. fold (with_remote_fmtp m p2).
  destruct reading; cbn [andb negb].
  - destruct (Z.eqb_spec (number p2) (number m)); cbn [negb]; do 2 eexists; repeat split; [auto|].
    right. repeat split; done.
  - do 2 eexists; repeat split. auto.
Qed.

(** The flag [f] of the payload type pushed, from the flags of the match. *)
Lemma negotiated_head m p p2 q reading bundle rest :
  same_codec m p -> same_format m p2 m -> (mime_is "flexfec" m && negb bundle = false) ->
  matched_payloads engine m p2 reading = q :: rest -> negotiated engine reading bundle p p2 q.
Proof.
  intros (Hk & Hm & Hr & Hn & Hf & Ha & _) Hfmt Hflex Hq.
  destruct (matched_head m p2 reading) as (q' & rest' & Hq' & Heq & _).
  rewrite Hq in Hq'. injection Hq' as -> _. clear Hq rest rest'. subst q'.
  destruct (with_remote_fmtp_eq m p2) as [s Hs]. rewrite Hs. clear Hs.
  set (w := payload_type_set_flag _ (m <| send_fmtp := s |>)).
  destruct (negotiate_avpf_identity w p2) as [(Ik & Im & Ir) In].
  pose proof (negotiate_avpf_feedback w p2) as Hfb. pose proof (negotiate_avpf_params w p2) as Hpar.
  assert (Hflag : forall f, has_flag f m = has_flag f p) by (intros f; unfold has_flag; by rewrite Hf).
  assert (Hw : forall f, has_flag f w = has_flag f p ||
                 bool_decide (f ∈ ({[PAYLOAD_TYPE_FLAG_CAN_RECV; PAYLOAD_TYPE_FLAG_CAN_SEND]} : gset pt_flag))).
  { intros f. unfold w. rewrite has_flag_set. by rewrite <- Hflag. }
  assert (Hfr : forall f r, has_flag f (payload_type_set_flag {[PAYLOAD_TYPE_FROZEN_NUMBER]} (r <| number := 
                 (if negb reading && mAnswerWithOwnNumbering engine then number m else number p2) |>)) =
                 has_flag f r || bool_decide (f ∈ ({[PAYLOAD_TYPE_FROZEN_NUMBER]} : gset pt_flag))).
  { intros f r. by rewrite has_flag_set. }
  split; rewrite ?Hfr; simpl.
  - by rewrite Ik.
  - by rewrite Im.
  - by rewrite Ir.
  - by rewrite Hn.
  - rewrite negotiate_avpf_flag, Hw by done. by rewrite orb_true_r.
  - rewrite negotiate_avpf_flag, Hw by done. by rewrite orb_true_r.
  - by rewrite orb_true_r.
  - rewrite negotiate_avpf_flag, Hw by done. by rewrite !orb_false_r.
  - rewrite Hfb, Hw. by rewrite !orb_false_r.
  - rewrite orb_false_r. intros H. destruct (Hpar H) as [H1 H2]. simpl in H1, H2. by rewrite H1, H2, Ha.
  - intros Hfx. unfold mime_is in *. rewrite Hm, Hfx in Hflex. by destruct bundle.
  - eapply same_format_ext; [exact Hm|exact Hr| |exact Hfmt]. cbn. by rewrite negotiate_avpf_channels.
Qed.

Lemma negotiated_twin m p p2 q reading rest :
  same_codec m p -> same_format m p2 m -> matched_payloads engine m p2 reading = q :: rest ->
  forall q', In q' rest -> reading = true /\ receive_only_twin p p2 q'.
Proof.
  intros (Hk & Hm & Hr & Hn & Hf & Ha & _) Hfmt Hq q' Hin.
  destruct (matched_head m p2 reading) as (q0 & rest' & Hq' & Heq & Hrest).
  rewrite Hq in Hq'. injection Hq' as <- <-.
  destruct Hrest as [->|(-> & Hne & ->)]; [done|]. destruct Hin as [<-|[]]. split; [done|].
  destruct (with_remote_fmtp_eq m p2) as [s Hs]. rewrite Hs in Heq.
  destruct (negotiate_avpf_identity (payload_type_set_flag {[PAYLOAD_TYPE_FLAG_CAN_RECV; PAYLOAD_TYPE_FLAG_CAN_SEND]}
    (m <| send_fmtp := s |>)) p2) as [(_ & Im & _) _].
  split.
  - subst q. simpl in *. by rewrite Im.
  - simpl. done.
  - congruence.
  - rewrite has_flag_set, has_flag_unset, has_flag_set. by rewrite orb_true_r.
  - rewrite has_flag_set, has_flag_unset. by rewrite andb_false_r.
  - eapply same_format_ext; [exact Hm|exact Hr| |exact Hfmt]. subst q. cbn. by rewrite negotiate_avpf_channels.
Qed.

(** Only the identity, the flags and the AVPF parameters of the local payload type
    matter. *)
Lemma negotiated_same_codec reading bundle p p0 p2 q :
  same_codec p p0 -> negotiated engine reading bundle p p2 q -> negotiated engine reading bundle p0 p2 q.
Proof.
  intros (Hk & Hm & Hr & Hn & Hf & Ha & _) [].
  assert (Hflag : forall f, has_flag f p = has_flag f p0) by (intros f; unfold has_flag; by rewrite Hf).
  split; rewrite <- ?Hk, <- ?Hm, <- ?Hr, <- ?Hn, <- ?Ha, <- ?Hflag; try done.
  - unfold mime_is in *. by rewrite <- Hm.
  - by eapply same_format_ext; [exact Hm|exact Hr| |].
Qed.

Lemma receive_only_twin_same_codec p p0 p2 q :
  same_codec p p0 -> receive_only_twin p p2 q -> receive_only_twin p0 p2 q.
Proof.
  intros (Hk & Hm & Hr & Hn & _) []. split; rewrite <- ?Hm, <- ?Hn; try done.
  by eapply same_format_ext; [exact Hm|exact Hr| |].
Qed.
End OnePayload.

(** ** The loop on the remote payload types *)

Lemma same_codec_trans a b c : same_codec a b -> same_codec b c -> same_codec a c.
Proof. unfold same_codec. intuition congruence. Qed.

Lemma same_codec_list_trans l1 l2 l3 :
  Forall2 same_codec l1 l2 -> Forall2 same_codec l2 l3 -> Forall2 same_codec l1 l3.
Proof.
  apply Forall2_trans_rel. eauto using same_codec_trans.
Qed.

Lemma same_codec_list_In l l0 p : Forall2 same_codec l l0 -> In p l -> exists p0, In p0 l0 /\ same_codec p p0.
Proof.
  induction 1 as [|a b l l0 Hab Hl IH]; intros Hin; [done|].
  destruct Hin as [<-|Hin]; [exists b; split; [by left|done]|].
  destruct (IH Hin) as (p0 & ? & ?). exists p0. split; [by right|done].
Qed.

Lemma genericMatch_sound local refpt remote pt :
  genericMatch local refpt remote = Some pt -> In pt local /\ generic_matches refpt pt = true.
Proof. apply find_In. Qed.

Section MatchLoop.
Context {lib : MediaLib} {libspec : MediaLibSpec lib} {prov : ProvidersSound lib} (engine : OfferAnswerEngine).

Lemma findPayloadTypeBestMatch_sound : matcher_sound (findPayloadTypeBestMatch).
Proof.
  intros local refpt remote reading. unfold findPayloadTypeBestMatch.
  assert (G : forall r, r = genericMatch local refpt remote ->
            Forall2 same_codec local local /\
            forall pt, r = Some pt -> exists p, In p local /\ same_codec pt p).
  { intros r ->. split; [apply same_codec_list_refl|]. intros pt Hpt.
    apply genericMatch_sound in Hpt as [Hpt _]. eauto using same_codec_refl. }
  destruct (mime_type refpt) as [m|]; [|by apply G].
  destruct (ms_factory_create_offer_answer_context m) as [f|] eqn:Hf; [|by apply G].
  exact (prov m f Hf local refpt remote reading).
Qed.

Lemma opus_match_loop_format local refpt legacy pt :
  (forall l, legacy = Some l -> mime_is "opus" l = true /\ channels refpt = 1) ->
  opus_match_loop local refpt legacy = Some pt ->
  mime_is "opus" pt = true /\ (channels refpt = 2 \/ channels refpt = 1 /\ channels pt = 1).
Proof.
  revert legacy. induction local as [|q local IH]; intros legacy Hl; cbn [opus_match_loop].
  - destruct legacy as [l|]; [|done]. intros [= <-]. destruct (Hl l eq_refl) as [Hm Hc].
    split; [exact Hm|]. right. by split.
  - destruct (mime_is "opus" q) eqn:Hq; [|by apply IH].
    destruct (Z.eqb_spec (channels refpt) 1) as [E1|E1].
    + apply IH. by intros l [= <-].
    + destruct (Z.eqb_spec (channels refpt) 2) as [E2|E2]; [|by apply IH]. intros [= <-]. auto.
Qed.

Lemma g729A_match_format local refpt remote reading pt :
  fst (g729A_match local refpt remote reading) = Some pt -> mime_is "G729" pt = true /\ channels pt = channels refpt.
Proof.
  cbn [g729A_match fst].
  enough (H : forall c, (forall x, c = Some x -> mime_is "G729" x = true /\ channels x = channels refpt) ->
    fold_left (fun candidate p => if mime_is "G729" p && (channels refpt =? channels p) then Some p else candidate)
      local c = Some pt -> mime_is "G729" pt = true /\ channels pt = channels refpt) by (apply H; discriminate).
  induction local as [|q local IH]; intros c Hc; cbn [fold_left]; [apply Hc|]. apply IH. intros x.
  destruct (mime_is "G729" q) eqn:Hq; [|apply Hc].
  destruct (Z.eqb_spec (channels refpt) (channels q)) as [E|E]; [|apply Hc]. by intros [= <-].
Qed.

Lemma red_match_loop_format local remote pt :
  fst (red_match_loop local remote) = Some pt -> mime_is payload_type_t140_red_mime pt = true.
Proof.
  induction local as [|q local IH]; cbn [red_match_loop]; [done|].
  destruct (mime_is payload_type_t140_red_mime q) eqn:Hq.
  - destruct (List.find _ remote); cbn [fst]; by intros [= <-].
  - destruct (red_match_loop local remote). exact IH.
Qed.

(** What is found is for the format of the remote payload type. *)
Lemma findPayloadTypeBestMatch_format local refpt remote reading pt :
  fst (findPayloadTypeBestMatch local refpt remote reading) = Some pt -> same_format pt refpt pt.
Proof.
  unfold findPayloadTypeBestMatch, same_format. destruct (mime_type refpt) as [m|] eqn:Hm.
  - destruct (ms_factory_create_offer_answer_context m) as [f|]; cbn [fst].
    + intros H. split; [|split]; intros ->.
      * exact (opus_match_loop_format _ _ None _ (fun l E => ltac:(discriminate E)) H).
      * exact (g729A_match_format _ _ _ _ _ H).
      * exact (red_match_loop_format _ _ _ H).
    + intros [_ H]%genericMatch_sound. unfold generic_matches, mime_is in *. rewrite Hm in H.
      destruct (mime_type pt); [|done]. apply andb_true_iff in H as [[H1 H2]%andb_true_iff H3].
      apply Z.eqb_eq in H2, H3. auto.
  - cbn [fst]. intros [_ H]%genericMatch_sound. unfold generic_matches in H. rewrite Hm in H.
    by destruct (mime_type pt).
Qed.

(** A payload type the loop may push. *)
Definition pushed (reading bundle : bool) (local remote : list OrtpPayloadType) (q : OrtpPayloadType) : Prop :=
  exists p p2, In p local /\ In p2 remote /\
    (negotiated engine reading bundle p p2 q \/ (reading = true /\ receive_only_twin p p2 q)).

Lemma match_loop_sound local0 all_remote reading bundle remote local found res :
  Forall2 same_codec local local0 -> incl remote all_remote ->
  Forall (pushed reading bundle local0 all_remote) res ->
  let '(res', local') := match_loop engine local all_remote remote reading bundle found res in
  Forall (pushed reading bundle local0 all_remote) res' /\ Forall2 same_codec local' local0.
Proof.
  revert local found res. induction remote as [|p2 rest IH]; intros local found res Hl Hincl Hres;
    cbn [match_loop]; [done|].
  pose proof (findPayloadTypeBestMatch_sound local p2 all_remote reading) as Hm.
  pose proof (findPayloadTypeBestMatch_format local p2 all_remote reading) as Hfmt.
  destruct (findPayloadTypeBestMatch local p2 all_remote reading) as [[m|] local1].
  all: destruct Hm as [Hl1 Hm].
  all: assert (Hl10 : Forall2 same_codec local1 local0) by eauto using same_codec_list_trans.
  all: assert (Hi : incl rest all_remote) by (intros x Hx; apply Hincl; by right).
  - destruct (Hm m eq_refl) as (p & Hp & Hmp). destruct (same_codec_list_In _ _ _ Hl Hp) as (p0 & Hp0 & Hpp0).
    assert (Hm0 : same_codec m p0) by eauto using same_codec_trans.
    specialize (Hfmt m eq_refl).
    destruct (_ && found); [by apply IH|].
    destruct (mime_is "flexfec" m && negb bundle) eqn:Hflex; [by apply IH|].
    apply IH; [done..|]. apply Forall_app. split; [done|].
    destruct (matched_head engine m p2 reading) as (q & tl & Hq & _ & _).
    apply List.Forall_forall. intros q' Hq'. exists p0, p2.
    split; [done|]. split; [apply Hincl; by left|]. rewrite Hq in Hq'. destruct Hq' as [<-|Hq'].
    + left. by eapply negotiated_head.
    + right. by eapply negotiated_twin.
  - by apply IH.
Qed.

(** Real codecs: everything but [telephone-event]. *)
Definition real_codecs (l : list OrtpPayloadType) : nat :=
  length (List.filter (fun q => negb (mime_is "telephone-event" q)) l).

Lemma real_codecs_app a b : real_codecs (a ++ b) = (real_codecs a + real_codecs b)%nat.
Proof. unfold real_codecs. by rewrite List.filter_app, length_app. Qed.

Lemma mime_is_ext s a b : mime_type a = mime_type b -> mime_is s a = mime_is s b.
Proof. unfold mime_is. by intros ->. Qed.

Lemma match_loop_one_codec all_remote bundle remote local (found : bool) res :
  mUseOneMatchingCodec engine = true ->
  (real_codecs res <= if found then 1 else 0)%nat ->
  (real_codecs (match_loop engine local all_remote remote false bundle found res).1 <= 1)%nat.
Proof.
  intros Hpol. revert local found res. induction remote as [|p2 rest IH]; intros local found res Hres;
    cbn [match_loop]; [simpl; destruct found; lia|].
  destruct (findPayloadTypeBestMatch local p2 all_remote false) as [[m|] local1]; [|by apply IH].
  rewrite Hpol, andb_true_l.
  destruct (matched_head engine m p2 false) as (q & tl & Hq & Heq & [->|(? & _)]); [|done].
  assert (Hmime : mime_is "telephone-event" q = mime_is "telephone-event" m).
  { apply mime_is_ext. subst q. destruct (with_remote_fmtp_eq m p2) as [s Hs]. rewrite Hs.
    match goal with |- context [negotiate_avpf ?a ?b] =>
      destruct (negotiate_avpf_identity a b) as [(_ & Im & _) _] end. simpl in *. by rewrite Im. }
  rewrite Hq. destruct (mime_is "telephone-event" m) eqn:Ht; cbn [negb andb orb].
  - destruct (_ && negb bundle); rewrite orb_false_r; apply IH; [done|].
    rewrite real_codecs_app. unfold real_codecs at 2. simpl. rewrite Hmime. simpl. lia.
  - destruct found; [by apply IH|]. cbn [orb].
    destruct (_ && negb bundle); apply IH; [lia|].
    rewrite real_codecs_app. unfold real_codecs at 2. simpl. rewrite Hmime. simpl. lia.
Qed.
End MatchLoop.

(** ** The stable sort *)

Lemma stable_insert_priority x a b :
  Forall (fun y => has_flag PAYLOAD_TYPE_PRIORITY_BONUS y = true) a ->
  Forall (fun y => has_flag PAYLOAD_TYPE_PRIORITY_BONUS y = false) b ->
  stable_insert priority_lt x (a ++ b) =
  if has_flag PAYLOAD_TYPE_PRIORITY_BONUS x then a ++ x :: b else a ++ b ++ [x].
Proof.
  intros Ha Hb. unfold priority_lt. induction Ha as [|y a Hy Ha IH]; simpl.
  - destruct (has_flag PAYLOAD_TYPE_PRIORITY_BONUS x) eqn:Hx.
    + destruct Hb as [|z b Hz Hb]; simpl; [done|]. by rewrite Hx, Hz.
    + induction Hb as [|z b Hz Hb IH]; simpl; [done|]. by rewrite Hx, IH.
  - rewrite Hy, andb_false_r. rewrite IH. by destruct (has_flag _ x).
Qed.

(** Sorting by priority puts the payload types with the bonus first and keeps
    the order inside both groups. *)
Lemma stable_sort_priority l :
  stable_sort priority_lt l =
  List.filter (has_flag PAYLOAD_TYPE_PRIORITY_BONUS) l ++
  List.filter (fun y => negb (has_flag PAYLOAD_TYPE_PRIORITY_BONUS y)) l.
Proof.
  unfold stable_sort.
  enough (G : forall a b,
    Forall (fun y => has_flag PAYLOAD_TYPE_PRIORITY_BONUS y = true) a ->
    Forall (fun y => has_flag PAYLOAD_TYPE_PRIORITY_BONUS y = false) b ->
    fold_left (fun acc x => stable_insert priority_lt x acc) l (a ++ b) =
    (a ++ List.filter (has_flag PAYLOAD_TYPE_PRIORITY_BONUS) l) ++
    (b ++ List.filter (fun y => negb (has_flag PAYLOAD_TYPE_PRIORITY_BONUS y)) l)) 
      by (apply (G [] []); constructor).
  induction l as [|x l IH]; intros a b Ha Hb; simpl; [by rewrite !app_nil_r|].
  rewrite stable_insert_priority by done. destruct (has_flag PAYLOAD_TYPE_PRIORITY_BONUS x) eqn:Hx; simpl.
  - change (a ++ x :: b) with (a ++ [x] ++ b). rewrite List.app_assoc, IH.
    + by rewrite <- !List.app_assoc.
    + apply Forall_app. auto.
    + done.
  - rewrite IH; [by rewrite <- !List.app_assoc|done|]. apply Forall_app. auto.
Qed.

Lemma stable_sort_In l q : In q (stable_sort priority_lt l) <-> In q l.
Proof.
  rewrite stable_sort_priority, in_app_iff, !List.filter_In.
  destruct (has_flag PAYLOAD_TYPE_PRIORITY_BONUS q); simpl; tauto.
Qed.

Lemma stable_sort_perm l : Permutation (stable_sort priority_lt l) l.
Proof.
  rewrite stable_sort_priority. induction l as [|x l IH]; simpl; [done|].
  destruct (has_flag PAYLOAD_TYPE_PRIORITY_BONUS x); simpl; [by rewrite IH|].
  rewrite <- Permutation_middle. by rewrite IH.
Qed.

(** The providers leave the local codecs in place. *)
Lemma matchPayloads_local (lib : MediaLib) (libspec : MediaLibSpec lib) (prov : ProvidersSound lib)
    engine local remote reading bundle :
  Forall2 same_codec (matchPayloads engine local remote reading bundle).2 local.
Proof.
  unfold matchPayloads.
  pose proof (match_loop_sound engine local remote reading bundle remote local false []
    (same_codec_list_refl local) (incl_refl remote) (List.Forall_nil _)) as H.
  destruct (match_loop engine local remote remote reading bundle false []) as [res local'].
  destruct H as [_ H]. destruct reading; [|exact H]. destruct (negb _); [|exact H]. by destruct local'.
Qed.

(** What an answer is read as; see [response_payloads_sound]. *)
Lemma matchPayloads_response (lib : MediaLib) (libspec : MediaLibSpec lib) (prov : ProvidersSound lib)
    engine local remote bundle :
  Forall (fun q =>
      (exists p p2, In p local /\ In p2 remote /\
         (negotiated engine true bundle p p2 q \/ receive_only_twin p p2 q)) \/
      (exists p, head local = Some p /\ mime_type q = mime_type p /\ clock_rate q = clock_rate p /\ number q = number p /\
         has_flag PAYLOAD_TYPE_FLAG_CAN_RECV q = true /\
         forall p1 p2, In p1 local -> In p2 remote -> number p1 <> number p2))
    (matchPayloads engine local remote true bundle).1.
Proof.
  unfold matchPayloads.
  pose proof (match_loop_sound engine local remote true bundle remote local false []
    (same_codec_list_refl local) (incl_refl remote) (List.Forall_nil _)) as H.
  destruct (match_loop engine local remote remote true bundle false []) as [res local'].
  destruct H as [H Hl].
  assert (Hres : Forall (fun q => exists p p2, In p local /\ In p2 remote /\
         (negotiated engine true bundle p p2 q \/ receive_only_twin p p2 q)) res).
  { eapply List.Forall_impl; [|exact H]. intros q (p & p2 & ? & ? & [?|[_ ?]]); eauto 8. }
  assert (Hor : forall Q, Forall (fun q => (exists p p2, In p local /\ In p2 remote /\
         (negotiated engine true bundle p p2 q \/ receive_only_twin p p2 q)) \/ Q q) res).
  { intros Q. eapply List.Forall_impl; [|exact Hres]. auto. }
  destruct (existsb _ local') eqn:Hf; cbn [negb fst]; [apply Hor|].
  destruct Hl as [|p1 p local' local Hp Hl]; cbn [fst]; [apply Hor|].
  apply Forall_app. split; [apply Hor|]. constructor; [|constructor]. right. exists p.
  destruct Hp as (_ & Hm & Hr & Hn & _). repeat split; [done..| |].
  - by rewrite has_flag_set, has_flag_set, orb_true_r.
  - intros a b Ha Hb Heq. apply not_true_iff_false in Hf. apply Hf, existsb_exists.
    assert (Ha' : exists a', In a' (p1 :: local') /\ number a' = number a).
    { destruct Ha as [<-|Ha]; [exists p1; split; [by left|done]|].
      clear - Hl Ha. induction Hl as [|x y l l' Hxy Hl IH]; [done|].
      destruct Ha as [<-|Ha]; [exists x; split; [right; by left|apply Hxy]|].
      destruct (IH Ha) as (a' & Hin & ?). exists a'. split; [|done].
      destruct Hin as [->|Hin]; [by left|right; by right]. }
    destruct Ha' as (a' & Hin & Hna). exists a'. split; [done|].
    apply existsb_exists. exists b. split; [done|]. apply Z.eqb_eq. congruence.
Qed.

(** ** Theorems *)

(** Directions: the answer sends exactly when the local capability sends and
    the offer receives, and receives exactly when the local capability receives
    and the offer sends; the direction the offerer computes from the answer is
    the mirror of the answer, so that each side sends only what the other one
    receives. *)
Theorem direction_negotiation local offered :
  may_send (computeDirIncoming local offered) = may_send local && may_receive offered /\
  may_receive (computeDirIncoming local offered) = may_receive local && may_send offered /\
  computeDirOutgoing offered (computeDirIncoming local offered) =
    computeConferenceStreamDir (computeDirIncoming local offered).
Proof.
  rewrite computeDirIncoming_may_send, computeDirIncoming_may_receive. by destruct local, offered.
Qed.

(** C40. SRTP: the answerer chooses the first algorithm of the offer, before a
    null one, that it supports, with its own first key for it and the tag of the
    offer; when the offerer reads that answer back against its offer it selects
    the same algorithm, tag and key. *)
Theorem srtp_crypto_agreement local offer a :
  matchCryptoAlgo local offer true = Some a ->
  (exists lc rc, agreed_crypto local offer lc rc /\ a = mkCrypto (tag rc) (algo rc) (master_key lc)) /\
  matchCryptoAlgo offer [a] false = Some a.
Proof.
  intros H. split; [|by eapply crypto_answer_read_back].
  by apply matchCryptoAlgo_agreed in H.
Qed.

Lemma srtp_crypto_agreement_witness :
  matchCryptoAlgo [mkCrypto 1 3 "k13"; mkCrypto 2 2 "k22"] [mkCrypto 7 5 "a"; mkCrypto 8 2 "b"] true
    = Some (mkCrypto 8 2 "k22") /\
  matchCryptoAlgo [mkCrypto 7 5 "a"; mkCrypto 8 2 "b"] [mkCrypto 8 2 "k22"] false = Some (mkCrypto 8 2 "k22").
Proof.
  split; [reflexivity|].
  apply (srtp_crypto_agreement [mkCrypto 1 3 "k13"; mkCrypto 2 2 "k22"]). reflexivity.
Defined.

(** C39. Answering an offer: every payload type of the answer comes from a local
    payload type and an offered one that are for the same format: the same name, but
    for the case, clock rate and channels, or, for the codecs with a provider, what
    its matcher looks for; it has the identity of the local one, the
    number of the offered one (or its own under that policy), can be sent and
    received, and has AVPF exactly when both have it, with their common
    features and the larger trr-int.  [flexfec] is only kept in a bundle. *)
Theorem answer_payloads_sound (lib : MediaLib) (libspec : MediaLibSpec lib) (prov : ProvidersSound lib)
    engine local remote bundle :
  Forall (fun q => exists p p2, In p local /\ In p2 remote /\ negotiated engine false bundle p p2 q)
    (matchPayloads engine local remote false bundle).1.
Proof.
  unfold matchPayloads.
  pose proof (match_loop_sound engine local remote false bundle remote local false []
    (same_codec_list_refl local) (incl_refl remote) (List.Forall_nil _)) as H.
  destruct (match_loop engine local remote remote false bundle false []) as [res local'].
  destruct H as [H _]. simpl. rewrite List.Forall_forall in *. intros q Hq.
  apply stable_sort_In, H in Hq as (p & p2 & ? & ? & [?|[[=] _]]). eauto.
Qed.

Lemma answer_payloads_sound_witness :
  Forall (fun q => exists p p2, In p [ref_pt "PCMU" 8000 0; ref_pt "speex" 16000 96] /\
      In p2 [ref_pt "SPEEX" 16000 110] /\ negotiated (lib := ref_lib) default_engine false false p p2 q)
    (@matchPayloads ref_lib default_engine [ref_pt "PCMU" 8000 0; ref_pt "speex" 16000 96]
       [ref_pt "SPEEX" 16000 110] false false).1.
Proof. exact (answer_payloads_sound ref_lib ref_lib_spec ref_providers_sound _ _ _ _). Defined.

(** The one matching codec policy: an answer then has at most one payload
    type besides [telephone-event]. *)
Theorem one_matching_codec (lib : MediaLib) (libspec : MediaLibSpec lib) engine local remote bundle :
  mUseOneMatchingCodec engine = true ->
  (real_codecs (matchPayloads engine local remote false bundle).1 <= 1)%nat.
Proof.
  intros H. unfold matchPayloads.
  pose proof (match_loop_one_codec engine remote bundle remote local false [] H (Nat.le_0_l _)) as Hl.
  destruct (match_loop engine local remote remote false bundle false []) as [res local'].
  simpl in *. unfold real_codecs in *.
  erewrite Permutation_length; [exact Hl|].
  pose proof (stable_sort_perm res) as Hp. clear Hl.
  induction Hp; simpl; repeat case_match; simpl; eauto using perm_trans, Permutation.
Qed.

Lemma one_matching_codec_witness :
  let engine := setOneMatchingCodecPolicy default_engine true in
  let local := [ref_pt "PCMU" 8000 0; ref_pt "PCMA" 8000 8; ref_pt "telephone-event" 8000 101] in
  (@matchPayloads ref_lib engine local local false false).1 <> [] /\
  (real_codecs (@matchPayloads ref_lib engine local local false false).1 <= 1)%nat.
Proof.
  intros engine local. split; [vm_compute; discriminate|].
  apply (one_matching_codec ref_lib ref_lib_spec). reflexivity.
Defined.

(** The order of an answer: the payload types with the priority bonus come
    first; inside both groups the order is the one of the matching loop, which
    follows the offer. *)
Theorem answer_payloads_order (lib : MediaLib) engine local remote bundle :
  let res := (match_loop engine local remote remote false bundle false []).1 in
  (matchPayloads engine local remote false bundle).1 =
    List.filter (has_flag PAYLOAD_TYPE_PRIORITY_BONUS) res ++
    List.filter (fun q => negb (has_flag PAYLOAD_TYPE_PRIORITY_BONUS q)) res.
Proof.
  unfold matchPayloads. destruct (match_loop engine local remote remote false bundle false []) as [res local'].
  apply stable_sort_priority.
Qed.

(** Reading an answer: every payload type of the result is negotiated from a
    local and an answered one, or is its receive-only twin under the number that
    was offered, or is the first local payload type, which is added when the
    answer has no number in common with the offer. *)
Theorem response_payloads_sound (lib : MediaLib) (libspec : MediaLibSpec lib) (prov : ProvidersSound lib)
    engine local remote bundle :
  Forall (fun q =>
      (exists p p2, In p local /\ In p2 remote /\
         (negotiated engine true bundle p p2 q \/ receive_only_twin p p2 q)) \/
      (exists p, head local = Some p /\ mime_type q = mime_type p /\ clock_rate q = clock_rate p /\ number q = number p /\
         has_flag PAYLOAD_TYPE_FLAG_CAN_RECV q = true /\
         forall p1 p2, In p1 local -> In p2 remote -> number p1 <> number p2))
    (matchPayloads engine local remote true bundle).1.
Proof. by apply matchPayloads_response. Qed.

Lemma response_payloads_sound_witness :
  let local := [ref_pt "PCMU" 8000 0; ref_pt "speex" 16000 96] in
  let remote := [ref_pt "speex" 16000 110] in
  length (@matchPayloads ref_lib default_engine local remote true false).1 = 3%nat /\
  Forall (fun q =>
      (exists p p2, In p local /\ In p2 remote /\
         (negotiated (lib := ref_lib) default_engine true false p p2 q \/ receive_only_twin (lib := ref_lib) p p2 q)) \/
      (exists p, head local = Some p /\ mime_type q = mime_type p /\ clock_rate q = clock_rate p /\ number q = number p /\
         has_flag PAYLOAD_TYPE_FLAG_CAN_RECV q = true /\
         forall p1 p2, In p1 local -> In p2 remote -> number p1 <> number p2))
    (@matchPayloads ref_lib default_engine local remote true false).1.
Proof.
  intros local remote. split; [vm_compute; reflexivity|].
  exact (response_payloads_sound ref_lib ref_lib_spec ref_providers_sound _ _ _ _).
Defined.
