(* ===== verification/OfferAnswerNegotiation.v ===== *)
(** What negotiating a pair of configurations, and then a pair of streams,
    guarantees. *)
From S2P Require Import Prelude SalTypes Payload SalStreamConfiguration ReferenceLib PotentialCfgGraph SalStreamDescription SalMediaDescription ReferenceSdp OfferAnswerEngine OfferAnswerMatching.

(** ** Transport protocols *)

Lemma areProtoCompatibles_refl p : areProtoCompatibles p p = true.
Proof. by destruct p. Qed.

Lemma areProtoCompatibles_sym p q : areProtoCompatibles p q = areProtoCompatibles q p.
Proof. by destruct p, q. Qed.

Lemma areProtoCompatibles_trans p q r :
  areProtoCompatibles p q = true -> areProtoCompatibles q r = true -> areProtoCompatibles p r = true.
Proof. by destruct p, q, r. Qed.

#[export] Hint Resolve areProtoCompatibles_refl : sal.

(** The transport both engines end with: the remote one, or for an offer or a
    local configuration with AVPF only on one side, the one without it. *)
Definition negotiated_proto (local remote : SalMediaProto) : SalMediaProto :=
  match local, remote with
  | SalProtoRtpAvp, SalProtoRtpAvpf => SalProtoRtpAvp
  | SalProtoRtpSavp, SalProtoRtpSavpf => SalProtoRtpSavp
  | SalProtoUdpTlsRtpSavp, SalProtoUdpTlsRtpSavpf => SalProtoUdpTlsRtpSavp
  | _, _ => remote
  end.

(** ** The helpers of both directions *)

Lemma has_enc_In e l : has_enc e l = true <-> In e l.
Proof. unfold has_enc. rewrite existsb_exists. setoid_rewrite bool_decide_eq_true. firstorder congruence. Qed.

Lemma negotiate_srtp_Some encs l r c ulk c' :
  negotiate_srtp encs l r c ulk = Some c' ->
  (SalStreamConfiguration.hasSrtp c = false /\ c' = c) \/
  (SalStreamConfiguration.hasSrtp c = true /\ In LinphoneMediaEncryptionSRTP encs /\
   exists k, matchCryptoAlgo (cfg_crypto l) (cfg_crypto r) ulk = Some k /\ c' = c <| cfg_crypto := [k] |>).
Proof.
  unfold negotiate_srtp. destruct (SalStreamConfiguration.hasSrtp c); [|intros [= <-]; auto].
  destruct (has_enc _ encs) eqn:E; cbn [negb]; [|done]. apply has_enc_In in E.
  destruct (matchCryptoAlgo _ _ _) as [k|]; [|done]. intros [= <-]. right. eauto.
Qed.

Lemma fillZrtpAttributes_Some ls li rs ri c c' :
  fillZrtpAttributes ls li rs ri c = Some c' ->
  exists z h, c' = c <| cfg_zrtphash := z |> <| cfg_haveZrtpHash := h |>.
Proof.
  unfold fillZrtpAttributes. cbv zeta.
  destruct (_ && _); [done|]. destruct (_ || _).
  - match goal with |- (if ?b then None else _) = _ -> _ => destruct b; [done|] end.
    destruct (negb (str_empty (cfg_zrtphash (getConfigurationAtIndex ls li)))); intros [= <-].
    + eexists _, _. reflexivity.
    + exists (cfg_zrtphash c). eexists. by destruct c.
  - intros [= <-]. exists (cfg_zrtphash c), (cfg_haveZrtpHash c). by destruct c.
Qed.

Lemma dtls_usable_true l r :
  dtls_usable l r = true ->
  cfg_dtls_role l <> SalDtlsRoleInvalid /\ cfg_dtls_role r <> SalDtlsRoleInvalid /\
  cfg_dtls_fingerprint l <> EmptyString /\ cfg_dtls_fingerprint r <> EmptyString.
Proof.
  unfold dtls_usable. rewrite !andb_true_iff, !negb_true_iff, !bool_decide_eq_false, !str_empty_false. tauto.
Qed.

(** ** Frames: what a negotiation may write in the descriptions it is given *)

(** [s'] is [s] up to the transport and the payload types of its configurations
    and the index of the chosen one. *)
Definition same_cfg_shape (c c' : SalStreamConfiguration) : Prop :=
  c' = c <| cfg_proto := cfg_proto c' |> <| cfg_payloads := cfg_payloads c' |>.

Definition same_entry (p p' : Z * SalStreamConfiguration) : Prop :=
  fst p' = fst p /\ same_cfg_shape (snd p) (snd p').

Definition stream_frame (s s' : SalStreamDescription) : Prop :=
  s' = s <| sd_cfgs := sd_cfgs s' |> <| sd_cfgIndex := sd_cfgIndex s' |> /\
  Forall2 same_entry (sd_cfgs s) (sd_cfgs s').

Lemma same_cfg_shape_refl c : same_cfg_shape c c.
Proof. by destruct c. Qed.

Lemma same_cfg_shape_trans a b c : same_cfg_shape a b -> same_cfg_shape b c -> same_cfg_shape a c.
Proof. unfold same_cfg_shape. intros Hab Hbc. rewrite Hbc, Hab at 1. by destruct a. Qed.

Lemma same_entry_refl p : same_entry p p.
Proof. split; [done|apply same_cfg_shape_refl]. Qed.

Lemma same_entry_trans p q r : same_entry p q -> same_entry q r -> same_entry p r.
Proof.
  intros [Hk Hs] [Hk' Hs']. split; [congruence|]. eapply same_cfg_shape_trans; eauto.
Qed.

Lemma stream_frame_refl s : stream_frame s s.
Proof. split; [by destruct s|]. apply Forall2_refl_rel, same_entry_refl. Qed.

Lemma stream_frame_trans a b c : stream_frame a b -> stream_frame b c -> stream_frame a c.
Proof.
  intros [Hab Fab] [Hbc Fbc]. split; [rewrite Hbc, Hab at 1; by destruct a|].
  eapply Forall2_trans_rel; eauto using same_entry_trans.
Qed.

Lemma set_index_frame s i : stream_frame s (s <| sd_cfgIndex := i |>).
Proof. split; [by destruct s|]. apply (stream_frame_refl s). Qed.

Lemma om_set_found_frame idx c c' (m : cfg_map) :
  om_sorted cfg_rank m -> om_find cfg_rank idx m = Some c -> same_cfg_shape c c' ->
  Forall2 same_entry m (om_set cfg_rank idx c' m).
Proof.
  intros Hs Hf Hc. induction m as [|[k v] m IH]; [done|].
  cbn [om_set]. destruct (cfg_rank idx <? cfg_rank k) eqn:Hlt.
  - apply Z.ltb_lt in Hlt. by rewrite (om_find_lt cfg_rank idx k v m Hs Hlt) in Hf.
  - simpl in Hf. destruct (cfg_rank idx =? cfg_rank k).
    + injection Hf as ->. constructor; [done|]. apply Forall2_refl_rel, same_entry_refl.
    + apply StronglySorted_inv in Hs as [Hs _]. constructor; [apply same_entry_refl|by apply IH].
Qed.

Lemma update_cfg_frame idx f s :
  cfg_map_wf (sd_cfgs s) -> (forall c, same_cfg_shape c (f c)) -> stream_frame s (update_cfg idx f s).
Proof.
  intros [Hs _] Hf. unfold update_cfg. destruct (om_find cfg_rank idx (sd_cfgs s)) as [c|] eqn:E;
    [|apply stream_frame_refl].
  split; [by destruct s|]. simpl. by eapply om_set_found_frame.
Qed.

Lemma set_payloads_shape l c : same_cfg_shape c (set_payloads l c).
Proof. by destruct c. Qed.
Lemma set_proto_shape p c : same_cfg_shape c (set_proto p c).
Proof. by destruct c. Qed.

#[export] Hint Resolve stream_frame_refl set_payloads_shape set_proto_shape set_index_frame : sal.

Lemma stream_frame_keys s s' : stream_frame s s' -> om_keys (sd_cfgs s') = om_keys (sd_cfgs s).
Proof. intros [_ H]. unfold om_keys. induction H as [|p p' l l' [Hk _] Hl IH]; simpl; congruence. Qed.

Lemma stream_frame_wf s s' : stream_frame s s' -> cfg_map_wf (sd_cfgs s) -> cfg_map_wf (sd_cfgs s').
Proof.
  intros [_ H] [Hs Hk]. split.
  - induction H as [|p p' l l' [Hp _] Hl IH]; [constructor|].
    apply StronglySorted_inv in Hs as [Hs Hlt]. inversion Hk; subst. constructor; [by apply IH|].
    rewrite Hp. clear - Hl Hlt. induction Hl as [|x y l l' [Hx _] Hl IH]; [constructor|].
    inversion Hlt; subst. constructor; [by rewrite Hx|by apply IH].
  - induction H as [|p p' l l' [Hp _] Hl IH]; [constructor|].
    inversion Hk; subst. constructor; [by rewrite Hp|].
    apply IH; [|done]. by apply StronglySorted_inv in Hs as [Hs _].
Qed.

(** The offer is left alone but for its chosen index and its transports, which
    stay compatible with the offered ones. *)
Definition offer_frame (s s' : SalStreamDescription) : Prop :=
  stream_frame s s' /\
  forall k, cfg_payloads (getConfigurationAtIndex s' k) = cfg_payloads (getConfigurationAtIndex s k) /\
    areProtoCompatibles (cfg_proto (getConfigurationAtIndex s' k)) (cfg_proto (getConfigurationAtIndex s k)) = true.

Lemma offer_frame_refl s : offer_frame s s.
Proof. split; [apply stream_frame_refl|auto with sal]. Qed.

Lemma offer_frame_trans a b c : offer_frame a b -> offer_frame b c -> offer_frame a c.
Proof.
  intros [F P] [F' P']. split; [by eapply stream_frame_trans|]. intros k.
  destruct (P k) as [Pk Ck], (P' k) as [Pk' Ck']. split; [congruence|]. by eapply areProtoCompatibles_trans.
Qed.

Lemma offer_frame_index s i : offer_frame s (s <| sd_cfgIndex := i |>).
Proof. split; [apply set_index_frame|]. intros k. split; [done|apply areProtoCompatibles_refl]. Qed.

Lemma offer_frame_wf s s' : offer_frame s s' -> cfg_map_wf (sd_cfgs s) -> cfg_map_wf (sd_cfgs s').
Proof. intros [F _]. by apply stream_frame_wf. Qed.

Lemma offer_frame_set_proto idx p s :
  cfg_map_wf (sd_cfgs s) -> areProtoCompatibles p (cfg_proto (getConfigurationAtIndex s idx)) = true ->
  offer_frame s (update_cfg idx (set_proto p) s).
Proof.
  intros Hs Hp. split; [apply update_cfg_frame; auto with sal|]. intros k. revert Hp. unfold update_cfg.
  unfold getConfigurationAtIndex at 1. destruct (om_find cfg_rank idx (sd_cfgs s)) as [c|] eqn:E;
    [|by split; [done|apply areProtoCompatibles_refl]].
  unfold getConfigurationAtIndex. simpl. intros Hp. destruct (Z.eq_dec (cfg_rank k) (cfg_rank idx)) as [Hr|Hr].
  - rewrite om_find_set_same, (om_find_rank cfg_rank k idx), E by done. done.
  - rewrite om_find_set_ne by done. split; [done|apply areProtoCompatibles_refl].
Qed.

#[export] Hint Resolve offer_frame_refl offer_frame_index offer_frame_set_proto : sal.

(** ** Accepted configurations *)

(** The guarantees common to both directions: [encs] are the local encryptions,
    [use_local_key] says whose key is kept. *)
Record accepted_cfg (engine : OfferAnswerEngine) (encs : list LinphoneMediaEncryption) (use_local_key : bool)
    (localCfg remoteCfg c : SalStreamConfiguration) : Prop := {
  acc_payloads : cfg_payloads c <> [];
  acc_real : onlyTelephoneEvent (cfg_payloads c) = false;
  acc_compatible : areProtoCompatibles (cfg_proto localCfg) (cfg_proto remoteCfg) = true;
  acc_srtp : SalStreamConfiguration.hasSrtp c = true ->
    In LinphoneMediaEncryptionSRTP encs /\
    exists k, matchCryptoAlgo (cfg_crypto localCfg) (cfg_crypto remoteCfg) use_local_key = Some k /\ cfg_crypto c = [k];
  acc_dtls : cfg_dtls_fingerprint c <> EmptyString ->
    In LinphoneMediaEncryptionDTLS encs /\ dtls_usable localCfg remoteCfg = true;
  acc_ext :
    cfg_mixer_to_client_extension_id c =
      getExtensionId (cfg_mixer_to_client_extension_id localCfg) (cfg_mixer_to_client_extension_id remoteCfg) /\
    cfg_client_to_mixer_extension_id c =
      getExtensionId (cfg_client_to_mixer_extension_id localCfg) (cfg_client_to_mixer_extension_id remoteCfg) /\
    cfg_frame_marking_extension_id c =
      getExtensionId (cfg_frame_marking_extension_id localCfg) (cfg_frame_marking_extension_id remoteCfg);
  acc_rtcp_fb : cfg_implicit_rtcp_fb c = cfg_implicit_rtcp_fb localCfg && cfg_implicit_rtcp_fb remoteCfg;
  acc_echo : cfg_index c = cfg_index remoteCfg /\ cfg_tcapIndex c = cfg_tcapIndex remoteCfg /\
    cfg_acapIndexes c = cfg_acapIndexes remoteCfg
}.

(** The steps after the crypto negotiation, which only add to the configuration. *)
Lemma negotiate_srtp_crypto encs l r c ulk c' :
  negotiate_srtp encs l r c ulk = Some c' ->
  c' = c <| cfg_crypto := cfg_crypto c' |> /\
  (SalStreamConfiguration.hasSrtp c = true -> In LinphoneMediaEncryptionSRTP encs /\
     exists k, matchCryptoAlgo (cfg_crypto l) (cfg_crypto r) ulk = Some k /\ cfg_crypto c' = [k]).
Proof.
  intros H. apply negotiate_srtp_Some in H as [[Hs ->]|(Hs & Hin & k & Hk & ->)].
  - split; [by destruct c|congruence].
  - split; [by destruct c|]. eauto.
Qed.

Lemma not_empty_payloads l :
  is_nil l || onlyTelephoneEvent l = false -> l <> [] /\ onlyTelephoneEvent l = false.
Proof. destruct l; simpl; [done|]. intros H. done. Qed.

Section Accepted.
Context {lib : MediaLib} (engine : OfferAnswerEngine).

Lemma incoming_result_accepted ls rs l r c li ri c' :
  areProtoCompatibles (cfg_proto l) (cfg_proto r) = true ->
  incoming_result ls rs l r c li ri = Some c' ->
  accepted_cfg engine (sd_supportedEncryption ls) true l r c' /\
  enabled rs = true /\ cfg_proto c' = cfg_proto r /\ cfg_payloads c' = cfg_payloads c /\
  cfg_mid c' = cfg_mid c /\ cfg_bundle_only c' = cfg_bundle_only c /\
  cfg_rtcp_mux c' = cfg_rtcp_mux r && cfg_rtcp_mux l /\
  (if is_multicast_stream rs
   then cfg_dir c' = cfg_dir r /\ SalStreamConfiguration.hasSrtp c' = false
   else cfg_dir c' = computeDirIncoming (cfg_dir l) (cfg_dir r)) /\
  (cfg_dtls_fingerprint c' = EmptyString \/ cfg_dtls_fingerprint c' = cfg_dtls_fingerprint l).
Proof.
  intros Hcompat. unfold incoming_result. cbv zeta.
  set (c1 := _ <| cfg_delete_session_attributes := _ |>).
  destruct (is_multicast_stream rs) eqn:Hmc.
  1: destruct (SalStreamConfiguration.hasSrtp c1) eqn:Hsrtp; [done|].
  all: destruct (_ || _ || negb (enabled rs)) eqn:Hpay; [done|].
  all: apply orb_false_iff in Hpay as [Hpay Hen]; apply negb_false_iff in Hen.
  all: apply not_empty_payloads in Hpay as [Hpay Hreal].
  all: destruct (negotiate_srtp _ _ _ _ _) as [c2|] eqn:Hc2; [|done].
  all: apply negotiate_srtp_crypto in Hc2 as [Hc2 Hcr].
  all: destruct (fillZrtpAttributes _ _ _ _ c2) as [c3|] eqn:Hc3; [|done].
  all: apply fillZrtpAttributes_Some in Hc3 as (z & h & Hc3).
  all: remember (cfg_crypto c2) as k2; clear Heqk2; subst c2 c3.
  all: destruct (dtls_usable l r) eqn:Hdtls.
  1,3: destruct (has_enc LinphoneMediaEncryptionDTLS _) eqn:Henc; cbn [negb]; [|done]; apply has_enc_In in Henc.
  all: intros [= <-].
  1,2: destruct (cfg_dtls_role r =e SalDtlsRoleUnset); cbn.
  all: repeat split; try done; cbn; try tauto; try (intros; split; done).
Qed.

Lemma outgoing_result_accepted ls rs l r c li ri c' :
  areProtoCompatibles (cfg_proto l) (cfg_proto r) = true ->
  outgoing_result ls rs l r c li ri = Some c' ->
  accepted_cfg engine (sd_supportedEncryption ls) false l r c' /\
  cfg_proto c' = cfg_proto r /\ cfg_payloads c' = cfg_payloads c /\
  cfg_rtcp_mux c' = (negb (str_empty (cfg_mid r)) && negb (str_empty (cfg_mid l)))
                    || (cfg_rtcp_mux r && cfg_rtcp_mux l) /\
  cfg_dir c' = (if is_multicast_stream ls then cfg_dir l else computeDirOutgoing (cfg_dir l) (cfg_dir r)) /\
  (cfg_dtls_fingerprint c' = EmptyString \/ cfg_dtls_fingerprint c' = cfg_dtls_fingerprint r).
Proof.
  intros Hcompat. unfold outgoing_result. cbv zeta.
  destruct (is_multicast_stream ls) eqn:Hmc.
  1: destruct (_ && negb (cfg_ptime l =? cfg_ptime r)); [done|];
     destruct (_ && negb (cfg_ttl l =? cfg_ttl r)); [done|].
  all: destruct (negb (str_empty (cfg_mid r)) && negb (str_empty (cfg_mid l))) eqn:Hmid.
  all: destruct (is_nil _ || _) eqn:Hpay; [done|].
  all: apply not_empty_payloads in Hpay as [Hpay Hreal].
  all: destruct (negotiate_srtp _ _ _ _ _) as [c2|] eqn:Hc2; [|done].
  all: apply negotiate_srtp_crypto in Hc2 as [Hc2 Hcr].
  all: destruct (fillZrtpAttributes _ _ _ _ _) as [c3|] eqn:Hc3; [|done].
  all: apply fillZrtpAttributes_Some in Hc3 as (z & h & Hc3).
  all: remember (cfg_crypto c2) as k2; clear Heqk2; subst c2 c3.
  all: destruct (dtls_usable l r) eqn:Hdtls.
  all: try (destruct (has_enc LinphoneMediaEncryptionDTLS _) eqn:Henc; cbn [negb]; [|done]; apply has_enc_In in Henc).
  all: intros [= <-].
  all: repeat split; try done; cbn; try tauto; try (intros; split; done).
Qed.
End Accepted.

Lemma frame_config s s' k :
  stream_frame s s' -> same_cfg_shape (getConfigurationAtIndex s k) (getConfigurationAtIndex s' k).
Proof.
  intros [_ H]. unfold getConfigurationAtIndex. induction H as [|p p' m m' [Hk Hs] Hm IH]; [done|].
  destruct p as [a x], p' as [b y]. simpl in *. subst b. by destruct (cfg_rank k =? cfg_rank a).
Qed.

Lemma frame_encs s s' : stream_frame s s' -> sd_supportedEncryption s' = sd_supportedEncryption s.
Proof. intros [-> _]. done. Qed.

Lemma frame_enabled s s' :
  stream_frame s s' -> sd_cfgIndex s' = sd_cfgIndex s -> enabled s' = enabled s.
Proof.
  intros Hf Hi. unfold enabled, isBundleOnly, getDirection, getChosenConfiguration, getChosenConfigurationIndex.
  rewrite Hi. rewrite (frame_config s s' (sd_cfgIndex s) Hf). destruct Hf as [-> _]. done.
Qed.

Lemma frame_multicast {lib : MediaLib} s s' : stream_frame s s' -> is_multicast_stream s' = is_multicast_stream s.
Proof. intros [-> _]. done. Qed.

Lemma accepted_set_proto_r engine encs ulk l r c p :
  areProtoCompatibles (cfg_proto l) (cfg_proto r) = true ->
  accepted_cfg engine encs ulk l (set_proto p r) c -> accepted_cfg engine encs ulk l r c.
Proof. intros Hc []. split; assumption. Qed.

Lemma accepted_set_proto_l engine encs ulk l r c p :
  areProtoCompatibles (cfg_proto l) (cfg_proto r) = true ->
  accepted_cfg engine encs ulk (set_proto p l) r c -> accepted_cfg engine encs ulk l r c.
Proof. intros Hc []. split; assumption. Qed.

(** The transport after the downgrade of the side that has AVPF alone. *)
Lemma downgraded_remote l r :
  areProtoCompatibles (cfg_proto l) (cfg_proto r) = true ->
  cfg_proto (if (cfg_proto l <>e cfg_proto r) && SalStreamConfiguration.hasAvpf r
             then set_proto (cfg_proto l) r else r) = negotiated_proto (cfg_proto l) (cfg_proto r).
Proof.
  unfold SalStreamConfiguration.hasAvpf, set_proto. destruct l as [? pl], r as [? pr]; simpl.
  destruct pl, pr; simpl; try done; intros [=].
Qed.

Section Configuration.
Context {lib : MediaLib} (engine : OfferAnswerEngine).

(** Whatever the outcome, a negotiation writes transports and payload types
    only. *)
Lemma initiateIncomingConfiguration_frame lc ro res mid li ri :
  cfg_map_wf (sd_cfgs lc) -> cfg_map_wf (sd_cfgs ro) ->
  let '(_, lc', ro') := initiateIncomingConfiguration engine lc ro res mid li ri in
  stream_frame lc lc' /\ offer_frame ro ro' /\ sd_cfgIndex lc' = sd_cfgIndex lc /\ sd_cfgIndex ro' = sd_cfgIndex ro.
Proof.
  intros Hlc Hro. unfold initiateIncomingConfiguration. cbv zeta.
  destruct (_ || _); [auto with sal|]. destruct (if incoming_bundle _ _ _ then _ else _) as [c b].
  destruct (matchPayloads _ _ _ _ _) as [pl lpl].
  assert (Hi : forall idx f s, sd_cfgIndex (update_cfg idx f s) = sd_cfgIndex s).
  { intros idx f s. unfold update_cfg. by destruct (om_find _ _ _). }
  assert (Hf : stream_frame lc (update_cfg li (set_payloads lpl) lc)) by (apply update_cfg_frame; auto with sal).
  destruct (areProtoCompatibles _ _) eqn:Hc; cbn [negb]; [|rewrite ?Hi; auto with sal].
  destruct (_ && SalStreamConfiguration.hasAvpf _); rewrite ?Hi;
    (split; [exact Hf|]); (split; [|done]); auto with sal.
Qed.

Lemma initiateOutgoingConfiguration_frame lo ra res li ri :
  cfg_map_wf (sd_cfgs lo) ->
  let '(_, lo') := initiateOutgoingConfiguration engine lo ra res li ri in
  stream_frame lo lo' /\ sd_cfgIndex lo' = sd_cfgIndex lo.
Proof.
  intros Hlo. unfold initiateOutgoingConfiguration. cbv zeta.
  destruct (_ || _); [auto with sal|]. destruct (if _ && _ then _ else _) as [c b].
  destruct (matchPayloads _ _ _ _ _) as [pl lpl].
  assert (Hi : forall idx f s, sd_cfgIndex (update_cfg idx f s) = sd_cfgIndex s).
  { intros idx f s. unfold update_cfg. by destruct (om_find _ _ _). }
  assert (Hf : stream_frame lo (update_cfg li (set_payloads lpl) lo)) by (apply update_cfg_frame; auto with sal).
  destruct (negb (areProtoCompatibles _ _)); [rewrite ?Hi; auto with sal|].
  destruct (_ && SalStreamConfiguration.hasAvpf _); rewrite ?Hi; (split; [|done]); [|done].
  eapply stream_frame_trans; [exact Hf|]. apply update_cfg_frame; auto with sal.
  by eapply stream_frame_wf.
Qed.

(** Everything an accepted pair guarantees about the answer. *)
Record accepted_incoming (lc ro : SalStreamDescription) (mid : string) (li ri : Z)
    (c : SalStreamConfiguration) : Prop := {
  inc_cfg : accepted_cfg engine (sd_supportedEncryption lc) true
              (getConfigurationAtIndex lc li) (getConfigurationAtIndex ro ri) c;
  inc_enabled : enabled ro = true;
  inc_proto : cfg_proto c =
    negotiated_proto (cfg_proto (getConfigurationAtIndex lc li)) (cfg_proto (getConfigurationAtIndex ro ri));
  inc_payloads : cfg_payloads c =
    (matchPayloads engine (cfg_payloads (getConfigurationAtIndex lc li)) (cfg_payloads (getConfigurationAtIndex ro ri))
       false (incoming_bundle (getConfigurationAtIndex lc li) (getConfigurationAtIndex ro ri) mid)).1;
  inc_dir :
    if is_multicast_stream ro
    then cfg_dir c = cfg_dir (getConfigurationAtIndex ro ri) /\ SalStreamConfiguration.hasSrtp c = false
    else cfg_dir c = computeDirIncoming (cfg_dir (getConfigurationAtIndex lc li)) (cfg_dir (getConfigurationAtIndex ro ri));
  inc_mux : cfg_rtcp_mux c =
    cfg_rtcp_mux (getConfigurationAtIndex ro ri) && cfg_rtcp_mux (getConfigurationAtIndex lc li);
  inc_dtls : cfg_dtls_fingerprint c = EmptyString \/
    cfg_dtls_fingerprint c = cfg_dtls_fingerprint (getConfigurationAtIndex lc li)
}.

Lemma set_proto_sharp (b : bool) p r :
  (if b then set_proto p r else r) = set_proto (cfg_proto (if b then set_proto p r else r)) r.
Proof. by destruct b, r. Qed.

Lemma initiateIncomingConfiguration_accepted lc ro res mid li ri c lc' ro' :
  cfg_map_wf (sd_cfgs lc) -> cfg_map_wf (sd_cfgs ro) ->
  initiateIncomingConfiguration engine lc ro res mid li ri = (Some c, lc', ro') ->
  accepted_incoming lc ro mid li ri c.
Proof.
  intros Hlc Hro H.
  pose proof (initiateIncomingConfiguration_frame lc ro res mid li ri Hlc Hro) as Hfr.
  rewrite H in Hfr. destruct Hfr as (Flc & [Fro _] & _ & Iro).
  revert H. unfold initiateIncomingConfiguration. cbv zeta.
  set (l := getConfigurationAtIndex lc li). set (r := getConfigurationAtIndex ro ri).
  destruct (_ || _); [done|].
  destruct (if incoming_bundle l r mid then _ else _) as [rc b] eqn:Eb.
  assert (Hb : b = incoming_bundle l r mid) by (by destruct (incoming_bundle l r mid); injection Eb).
  destruct (matchPayloads engine _ _ false b) as [pl lpl] eqn:Ep.
  destruct (areProtoCompatibles (cfg_proto l) (cfg_proto r)) eqn:Hcompat; cbn [negb]; [|done].
  rewrite (surjective_pairing (if _ && SalStreamConfiguration.hasAvpf r then _ else _)).
  set (pr := (if _ && SalStreamConfiguration.hasAvpf r then _ else _)).
  assert (Hr1 : pr.1 = if (cfg_proto l <>e cfg_proto r) && SalStreamConfiguration.hasAvpf r
                       then set_proto (cfg_proto l) r else r) by (subst pr; by destruct (_ && _)).
  intros [= Hres Hlc' Hro']. rewrite Hro', Hlc' in Hres.
  assert (Hp : cfg_proto pr.1 = negotiated_proto (cfg_proto l) (cfg_proto r)).
  { rewrite Hr1. by apply downgraded_remote. }
  assert (Hr2 : pr.1 = set_proto (cfg_proto pr.1) r) by (rewrite Hr1; apply set_proto_sharp).
  assert (Hcompat' : areProtoCompatibles (cfg_proto l) (cfg_proto pr.1) = true).
  { rewrite Hp. by destruct (cfg_proto l), (cfg_proto r). }
  apply (incoming_result_accepted engine) in Hres as (Hacc & Hen & Hpr & Hpl & _ & _ & Hmux & Hdir & Hfp);
    [|done].
  rewrite Hr2 in Hacc, Hmux, Hdir, Hpr. apply accepted_set_proto_r in Hacc; [|done].
  rewrite (frame_encs _ _ Flc) in Hacc. rewrite (frame_enabled _ _ Fro Iro) in Hen.
  rewrite (frame_multicast _ _ Fro) in Hdir.
  split; fold l; fold r; try done.
  - by rewrite Hpr.
  - by rewrite Hpl, <- Hb, Ep.
Qed.

(** The same for a pair the offerer accepts. *)
Record accepted_outgoing (lo ra : SalStreamDescription) (li ri : Z) (c : SalStreamConfiguration) : Prop := {
  out_cfg : accepted_cfg engine (sd_supportedEncryption lo) false
              (getConfigurationAtIndex lo li) (getConfigurationAtIndex ra ri) c;
  out_proto : cfg_proto c = cfg_proto (getConfigurationAtIndex ra ri);
  out_payloads : exists b, cfg_payloads c =
    (matchPayloads engine (cfg_payloads (getConfigurationAtIndex lo li)) (cfg_payloads (getConfigurationAtIndex ra ri))
       true b).1;
  out_dir : cfg_dir c =
    if is_multicast_stream lo then cfg_dir (getConfigurationAtIndex lo li)
    else computeDirOutgoing (cfg_dir (getConfigurationAtIndex lo li)) (cfg_dir (getConfigurationAtIndex ra ri));
  out_mux : cfg_rtcp_mux c =
    (negb (str_empty (cfg_mid (getConfigurationAtIndex ra ri)))
     && negb (str_empty (cfg_mid (getConfigurationAtIndex lo li))))
    || (cfg_rtcp_mux (getConfigurationAtIndex ra ri) && cfg_rtcp_mux (getConfigurationAtIndex lo li));
  out_dtls : cfg_dtls_fingerprint c = EmptyString \/
    cfg_dtls_fingerprint c = cfg_dtls_fingerprint (getConfigurationAtIndex ra ri)
}.

Lemma initiateOutgoingConfiguration_accepted lo ra res li ri c lo' :
  cfg_map_wf (sd_cfgs lo) ->
  initiateOutgoingConfiguration engine lo ra res li ri = (Some c, lo') ->
  accepted_outgoing lo ra li ri c.
Proof.
  intros Hlo H.
  pose proof (initiateOutgoingConfiguration_frame lo ra res li ri Hlo) as Hfr.
  rewrite H in Hfr. destruct Hfr as (Flo & _).
  revert H. unfold initiateOutgoingConfiguration. cbv zeta.
  set (l := getConfigurationAtIndex lo li). set (r := getConfigurationAtIndex ra ri).
  destruct (_ || _); [done|].
  destruct (if _ && negb (str_empty (cfg_mid l)) then _ else _) as [rc b].
  destruct (matchPayloads engine _ _ true b) as [pl lpl] eqn:Ep.
  destruct (areProtoCompatibles (cfg_proto l) (cfg_proto r)) eqn:Hcompat; cbn [negb]; [|done].
  rewrite (surjective_pairing (if _ && SalStreamConfiguration.hasAvpf l then _ else _)).
  set (pr := (if _ && SalStreamConfiguration.hasAvpf l then _ else _)).
  assert (Hl2 : exists p, pr.1 = set_proto p l /\ areProtoCompatibles p (cfg_proto r) = true).
  { subst pr. destruct (_ && _); simpl; [exists (cfg_proto r); auto with sal|].
    exists (cfg_proto l). split; [by destruct l|done]. }
  destruct Hl2 as (p & Hl2 & Hp). rewrite Hl2. intros [= Hres Hlo'].
  rewrite Hlo' in Hres.
  apply (outgoing_result_accepted engine) in Hres as (Hacc & Hpr & Hpl & Hmux & Hdir & Hfp); [|done].
  apply accepted_set_proto_l in Hacc; [|done].
  rewrite (frame_encs _ _ Flo) in Hacc. rewrite (frame_multicast _ _ Flo) in Hdir.
  split; fold l; fold r; try done.
  exists b. by rewrite Hpl, Ep.
Qed.
End Configuration.

(** ** Streams *)

Section IncomingStream.
Context {lib : MediaLib} (engine : OfferAnswerEngine).

(** The pairs before the accepted one were refused and left the descriptions
    [lc1] and [ro1] the accepted pair was negotiated in. *)
Lemma try_incoming_spec pairs lc ro res mid li0 ri0 :
  cfg_map_wf (sd_cfgs lc) -> cfg_map_wf (sd_cfgs ro) ->
  let '(r, lc', ro', li, ri) := try_incoming engine pairs lc ro res mid li0 ri0 in
  stream_frame lc lc' /\ offer_frame ro ro' /\
  sd_cfgIndex lc' = sd_cfgIndex lc /\ sd_cfgIndex ro' = sd_cfgIndex ro /\
  forall c, r = Some c ->
    exists pre post lc1 ro1 li1 ri1,
      pairs = pre ++ (ri, li) :: post /\
      try_incoming engine pre lc ro res mid li0 ri0 = (None, lc1, ro1, li1, ri1) /\
      stream_frame lc lc1 /\ offer_frame ro ro1 /\ sd_cfgIndex ro1 = sd_cfgIndex ro /\
      accepted_incoming engine lc1 ro1 mid li ri c.
Proof.
  revert lc ro li0 ri0. induction pairs as [|[ri li] pairs IH]; intros lc ro li0 ri0 Hlc Hro; cbn [try_incoming].
  - repeat match goal with |- _ /\ _ => split end; auto with sal. done.
  - pose proof (initiateIncomingConfiguration_frame engine lc ro res mid li ri Hlc Hro) as Hfr.
    destruct (initiateIncomingConfiguration engine lc ro res mid li ri) as [[[c|] lc1] ro1] eqn:E;
      destruct Hfr as (Flc & Fro & Ilc & Iro).
    + split; [done|]. split; [done|]. split; [done|]. split; [done|]. intros c' [= <-].
      exists [], pairs, lc, ro, li0, ri0. split; [done|]. split; [done|].
      split; [apply stream_frame_refl|]. split; [apply offer_frame_refl|]. split; [done|].
      by eapply initiateIncomingConfiguration_accepted.
    + specialize (IH lc1 ro1 li ri (stream_frame_wf _ _ Flc Hlc) (offer_frame_wf _ _ Fro Hro)).
      destruct (try_incoming engine pairs lc1 ro1 res mid li ri) as [[[[r lc'] ro'] li'] ri'].
      destruct IH as (F1 & F2 & I1 & I2 & Hacc).
      split; [by eapply stream_frame_trans|]. split; [by eapply offer_frame_trans|].
      split; [congruence|]. split; [congruence|]. intros c Hc.
      destruct (Hacc c Hc) as (pre & post & lc2 & ro2 & li2 & ri2 & -> & Ht & F3 & F4 & I4 & Ha).
      exists ((ri, li) :: pre), post, lc2, ro2, li2, ri2. split; [done|]. cbn [try_incoming]. rewrite E.
      split; [done|]. split; [by eapply stream_frame_trans|]. split; [by eapply offer_frame_trans|].
      split; [congruence|done].
Qed.

(** The pairs a negotiation tries. *)
Definition tried_pairs (lc ro : SalStreamDescription) (allowCapabilityNegotiation : bool) : list (Z * Z) :=
  if allowCapabilityNegotiation then cfg_pairs lc ro
  else [(actualConfigurationIndex, actualConfigurationIndex)].

Lemma incoming_negotiation_try lc ro res mid cap :
  incoming_negotiation engine lc ro res mid cap =
  try_incoming engine (tried_pairs lc ro cap) lc ro res mid actualConfigurationIndex actualConfigurationIndex.
Proof.
  unfold incoming_negotiation, tried_pairs. destruct cap; [done|].
  cbn [try_incoming]. unfold getActualConfigurationIndex.
  by destruct (initiateIncomingConfiguration _ _ _ _ _ _ _) as [[[c|] lc'] ro'].
Qed.

(** Only the configurations of the stream under construction matter, and it
    has none. *)
Lemma try_incoming_result pairs lc ro res mid li ri :
  sd_cfgs res = [] ->
  try_incoming engine pairs lc ro res mid li ri = try_incoming engine pairs lc ro empty_stream mid li ri.
Proof.
  intros Hr. revert lc ro li ri. induction pairs as [|[ri li] pairs IH]; intros lc ro li0 ri0; cbn [try_incoming]; [done|].
  assert (initiateIncomingConfiguration engine lc ro res mid li ri =
          initiateIncomingConfiguration engine lc ro empty_stream mid li ri) as ->.
  { unfold initiateIncomingConfiguration, hasConfigurationAtIndex. by rewrite Hr. }
  destruct (initiateIncomingConfiguration engine lc ro empty_stream mid li ri) as [[[c|] lc1] ro1]; [done|apply IH].
Qed.

(** No pair of the list gives a configuration. *)
Definition refused (pairs : list (Z * Z)) (lc ro : SalStreamDescription) (mid : string) : Prop :=
  (try_incoming engine pairs lc ro empty_stream mid actualConfigurationIndex actualConfigurationIndex).1.1.1.1 = None.

(** The result of [initiateIncomingStream] once a configuration is accepted. *)
Record answered_stream (lc ro res : SalStreamDescription) (c : SalStreamConfiguration) : Prop := {
  ans_cfg : getActualConfiguration res = c;
  ans_index : sd_cfgIndex res = actualConfigurationIndex;
  ans_type : sd_type res = sd_type lc;
  ans_typeother : sd_type lc = SalOther -> sd_typeother res = sd_typeother ro;
  ans_addr : sd_rtp_addr res = if is_multicast_stream ro then sd_rtp_addr ro else sd_rtp_addr lc;
  ans_port : sd_rtp_port res =
    if cfg_bundle_only c then 0 else if is_multicast_stream ro then sd_rtp_port ro else sd_rtp_port lc;
  ans_rtcp_port : cfg_rtcp_mux c = true -> sd_rtcp_port res = 0;
  ans_label : sd_label res = if str_empty (sd_label ro) then sd_label lc else sd_label ro
}.

(** A declined stream: port 0, disabled, with the type of the local stream. *)
Record rejected_stream (lc ro res : SalStreamDescription) : Prop := {
  rej_enabled : enabled res = false;
  rej_port : sd_rtp_port res = 0;
  rej_dir : getDirection res = SalStreamInactive;
  rej_index : sd_cfgIndex res = actualConfigurationIndex;
  rej_type : sd_type res = sd_type lc;
  rej_typeother : sd_type lc = SalOther -> sd_typeother res = sd_typeother ro
}.

Lemma accept_incoming_answered lc ro r c :
  sd_cfgIndex r = actualConfigurationIndex -> sd_type r = sd_type lc ->
  (sd_type lc = SalOther -> sd_typeother r = sd_typeother ro) ->
  sd_label r = (if str_empty (sd_label ro) then sd_label lc else sd_label ro) ->
  answered_stream lc ro (accept_incoming_stream lc ro r c) c.
Proof.
  intros Hi Ht Hto Hl. unfold accept_incoming_stream. cbv zeta.
  pose proof (getActualConfiguration_add r c) as Hc.
  assert (Ha : let a := addActualConfiguration r c in
    sd_cfgIndex a = actualConfigurationIndex /\ sd_type a = sd_type lc /\ sd_typeother a = sd_typeother r /\
    sd_label a = sd_label r) by (repeat split; done).
  destruct Ha as (Ai & At & Ato & Al). revert Hc Ai At Ato Al.
  generalize (addActualConfiguration r c). intros a Hc Ai At Ato Al.
  destruct a. cbn in *.
  destruct (is_multicast_stream ro) eqn:Em, (cfg_bundle_only c) eqn:Ebo, (cfg_rtcp_mux c) eqn:Emux; cbn;
    (split; rewrite ?Em, ?Ebo, ?Emux; cbn; try done; try exact Hc; try congruence;
     try (intros; rewrite Ato; auto)).
Qed.

(** The stream of an answer only reads what the negotiation leaves alone. *)
Lemma answered_stream_frame lc ro lc1 ro1 lc2 ro2 r c :
  stream_frame lc lc1 -> stream_frame ro ro1 -> stream_frame lc1 lc2 -> stream_frame ro1 ro2 ->
  answered_stream lc2 ro2 r c -> answered_stream lc ro r c.
Proof.
  intros F1 F2 F3 F4. pose proof (stream_frame_trans _ _ _ F1 F3) as [Fl _].
  pose proof (stream_frame_trans _ _ _ F2 F4) as [Fr _].
  assert (Hm : is_multicast_stream ro2 = is_multicast_stream ro) by (rewrite Fr; done).
  intros [Hc Hi Ht Hto Ha Hp Hr Hl]. rewrite Hm in Ha, Hp. rewrite Fl in Ht. rewrite Fl, Fr in Hto.
  rewrite Fl, Fr in Ha. rewrite Fl, Fr in Hp. rewrite Fl, Fr in Hl. cbn in *. split; done.
Qed.

Lemma initiateIncomingStream_outcome lc ro mid cap :
  cfg_map_wf (sd_cfgs lc) -> cfg_map_wf (sd_cfgs ro) ->
  let '(res, lc', ro') := initiateIncomingStream engine lc ro mid cap in
  stream_frame lc lc' /\ offer_frame ro ro' /\
  ((exists pre post lc1 ro1 c,
      tried_pairs lc ro cap = pre ++ (sd_cfgIndex ro', sd_cfgIndex lc') :: post /\ refused pre lc ro mid /\
      stream_frame lc lc1 /\ offer_frame ro ro1 /\ sd_cfgIndex ro1 = sd_cfgIndex ro /\
      accepted_incoming engine lc1 ro1 mid (sd_cfgIndex lc') (sd_cfgIndex ro') c /\
      answered_stream lc ro res c) \/
   (refused (tried_pairs lc ro cap) lc ro mid /\ rejected_stream lc ro res /\ getProto res = cfg_proto (getActualConfiguration ro') /\
    sd_cfgIndex lc' = sd_cfgIndex lc /\ sd_cfgIndex ro' = sd_cfgIndex ro)).
Proof.
  intros Hlc Hro. unfold initiateIncomingStream. cbv zeta.
  set (r0 := _ <| sd_ice_remote_candidates := _ |>). rewrite incoming_negotiation_try.
  pose proof (try_incoming_spec (tried_pairs lc ro cap) lc ro r0 mid
    actualConfigurationIndex actualConfigurationIndex Hlc Hro) as H.
  assert (Hr0 : sd_type r0 = sd_type lc /\ (sd_type lc = SalOther -> sd_typeother r0 = sd_typeother ro) /\
    sd_cfgs r0 = [] /\ sd_cfgIndex r0 = actualConfigurationIndex).
  { subst r0. cbn. destruct (bool_decide_reflect (sd_type lc = SalOther)) as [E|E]; cbn;
      (split; [done|split; [intros; done|split; done]]). }
  destruct Hr0 as (Ht & Hto & Hc0 & Hi0). clearbody r0.
  rewrite try_incoming_result in H |- * by done.
  destruct (try_incoming engine (tried_pairs lc ro cap) _ _ _ _ _ _) as [[[[r lc'] ro'] li] ri] eqn:Htry.
  destruct H as (Flc & Fro & Ilc & Iro & Hacc).
  assert (Hlab : sd_label ro' = sd_label ro) by (by destruct Fro as [[-> _] _]).
  assert (Hlab' : sd_label lc' = sd_label lc) by (by destruct Flc as [-> _]).
  destruct r as [c|].
  - split; [eapply stream_frame_trans; [exact Flc|apply set_index_frame]|].
    split; [eapply offer_frame_trans; [exact Fro|apply offer_frame_index]|]. left.
    destruct (Hacc c eq_refl) as (pre & post & lc1 & ro1 & li1 & ri1 & Hp & Hpre & F1 & F2 & I2 & Ha).
    exists pre, post, lc1, ro1, c. split; [done|]. split.
    { unfold refused. rewrite <- (try_incoming_result pre lc ro r0) by done. by rewrite Hpre. }
    split; [done|]. split; [done|]. split; [done|]. split; [done|].
    eapply answered_stream_frame; [exact Flc|apply Fro|apply set_index_frame|apply set_index_frame|].
    assert (Htl : sd_type lc' = sd_type lc) by (by destruct Flc as [-> _]).
    assert (Htr : sd_typeother ro' = sd_typeother ro) by (by destruct Fro as [[-> _] _]).
    rewrite Hlab, Hlab'.
    apply accept_incoming_answered; cbn; rewrite ?Hlab, ?Hlab', ?Htl, ?Htr;
      destruct (str_empty (sd_label ro)) eqn:El; unfold str_empty in El; by rewrite ?El.
  - split; [done|]. split; [done|]. right.
    assert (Hch : forall s p, sd_cfgs s = [] -> sd_cfgIndex s = actualConfigurationIndex ->
      getChosenConfiguration (s <| sd_cfgs := om_alter cfg_rank empty_cfg (set_proto p)
        (getActualConfigurationIndex s) (sd_cfgs s) |>) = set_proto p empty_cfg).
    { intros s p Hs Hi. unfold getChosenConfiguration, getConfigurationAtIndex, getChosenConfigurationIndex.
      cbn. by rewrite Hs, Hi. }
    set (b := if str_empty _ then _ else _).
    assert (Hb : sd_cfgs b = [] /\ sd_cfgIndex b = actualConfigurationIndex /\ sd_type b = sd_type lc /\
      (sd_type lc = SalOther -> sd_typeother b = sd_typeother ro)).
    { subst b. by destruct (str_empty _). }
    destruct Hb as (Hb1 & Hb2 & Hb3 & Hb4). clearbody b.
    split; [|split; [|split; [|done]]].
    + unfold refused. by rewrite Htry.
    + split; try done; [apply disable_not_enabled|apply disable_direction].
    + rewrite disable_proto. unfold getProto. by rewrite Hch.
Qed.
End IncomingStream.

(** ** The streams of an answer the offerer reads *)

(** The transports of a local offer stay compatible with the offered ones. *)
Definition proto_frame (s s' : SalStreamDescription) : Prop :=
  forall k, areProtoCompatibles (cfg_proto (getConfigurationAtIndex s' k)) (cfg_proto (getConfigurationAtIndex s k)) = true.

Lemma proto_frame_refl s : proto_frame s s.
Proof. intros k. apply areProtoCompatibles_refl. Qed.

Lemma proto_frame_trans a b c : proto_frame a b -> proto_frame b c -> proto_frame a c.
Proof. intros H H' k. eapply areProtoCompatibles_trans; [apply H'|apply H]. Qed.

Lemma update_cfg_proto_frame idx f s :
  areProtoCompatibles (cfg_proto (f (getConfigurationAtIndex s idx))) (cfg_proto (getConfigurationAtIndex s idx)) = true ->
  proto_frame s (update_cfg idx f s).
Proof.
  intros Hp k. revert Hp. unfold update_cfg, getConfigurationAtIndex.
  destruct (om_find cfg_rank idx (sd_cfgs s)) as [c|] eqn:E; [|intros _; apply areProtoCompatibles_refl].
  simpl. intros Hp. destruct (Z.eq_dec (cfg_rank k) (cfg_rank idx)) as [Hr|Hr].
  - rewrite om_find_set_same, (om_find_rank cfg_rank k idx), E by done. done.
  - rewrite om_find_set_ne by done. apply areProtoCompatibles_refl.
Qed.

(** Its codecs stay the offered ones, but for what a provider writes in them. *)
Definition codecs_frame (s s' : SalStreamDescription) : Prop :=
  forall k, Forall2 same_codec (cfg_payloads (getConfigurationAtIndex s' k)) (cfg_payloads (getConfigurationAtIndex s k)).

Lemma codecs_frame_refl s : codecs_frame s s.
Proof. intros k. apply same_codec_list_refl. Qed.

Lemma codecs_frame_trans a b c : codecs_frame a b -> codecs_frame b c -> codecs_frame a c.
Proof. intros H H' k. eapply same_codec_list_trans; [apply H'|apply H]. Qed.

Lemma update_cfg_codecs_frame idx f s :
  Forall2 same_codec (cfg_payloads (f (getConfigurationAtIndex s idx))) (cfg_payloads (getConfigurationAtIndex s idx)) ->
  codecs_frame s (update_cfg idx f s).
Proof.
  intros Hp k. revert Hp. unfold update_cfg, getConfigurationAtIndex.
  destruct (om_find cfg_rank idx (sd_cfgs s)) as [c|] eqn:E; [|intros _; apply same_codec_list_refl].
  simpl. intros Hp. destruct (Z.eq_dec (cfg_rank k) (cfg_rank idx)) as [Hr|Hr].
  - rewrite om_find_set_same, (om_find_rank cfg_rank k idx), E by done. done.
  - rewrite om_find_set_ne by done. apply same_codec_list_refl.
Qed.

Section OutgoingStream.
Context {lib : MediaLib} (engine : OfferAnswerEngine).

(** What a negotiation does to the local offer; its codecs are kept when the
    providers keep what they promise. *)
Definition local_frame (s s' : SalStreamDescription) : Prop :=
  stream_frame s s' /\ proto_frame s s' /\ (MediaLibSpec lib -> ProvidersSound lib -> codecs_frame s s').

Lemma local_frame_refl s : local_frame s s.
Proof. split; [apply stream_frame_refl|]. split; [apply proto_frame_refl|]. intros _ _. apply codecs_frame_refl. Qed.

Lemma local_frame_trans a b c : local_frame a b -> local_frame b c -> local_frame a c.
Proof.
  intros (F & P & C) (F' & P' & C'). split; [by eapply stream_frame_trans|]. split; [by eapply proto_frame_trans|].
  intros S V. by eapply codecs_frame_trans; [apply C|apply C'].
Qed.

Lemma set_index_local_frame s i : local_frame s (s <| sd_cfgIndex := i |>).
Proof.
  split; [apply set_index_frame|]. split; intros; [intros k; apply areProtoCompatibles_refl|].
  intros k. apply same_codec_list_refl.
Qed.

Lemma initiateOutgoingConfiguration_codecs (S : MediaLibSpec lib) (V : ProvidersSound lib) lo ra res li ri :
  codecs_frame lo (initiateOutgoingConfiguration engine lo ra res li ri).2.
Proof.
  unfold initiateOutgoingConfiguration. cbv zeta.
  destruct (_ || _); [apply codecs_frame_refl|]. destruct (if _ && _ then _ else _) as [c b].
  pose proof (matchPayloads_local lib S V engine (cfg_payloads (getConfigurationAtIndex lo li))
    (cfg_payloads (getConfigurationAtIndex ra ri)) true b) as Hl.
  destruct (matchPayloads _ _ _ _ _) as [pl lpl]. cbn [snd] in Hl.
  assert (Hset : codecs_frame lo (update_cfg li (set_payloads lpl) lo)) by by apply update_cfg_codecs_frame.
  destruct (areProtoCompatibles _ _); cbn [negb]; [|exact Hset].
  destruct (_ && SalStreamConfiguration.hasAvpf _); [|exact Hset].
  eapply codecs_frame_trans; [exact Hset|]. apply update_cfg_codecs_frame, same_codec_list_refl.
Qed.

Lemma initiateOutgoingConfiguration_local lo ra res li ri :
  cfg_map_wf (sd_cfgs lo) ->
  let '(_, lo') := initiateOutgoingConfiguration engine lo ra res li ri in
  local_frame lo lo' /\ sd_cfgIndex lo' = sd_cfgIndex lo.
Proof.
  intros Hlo. pose proof (initiateOutgoingConfiguration_frame engine lo ra res li ri Hlo) as Hf.
  enough (Hp : proto_frame lo (initiateOutgoingConfiguration engine lo ra res li ri).2 /\
    (MediaLibSpec lib -> ProvidersSound lib -> codecs_frame lo (initiateOutgoingConfiguration engine lo ra res li ri).2)).
  { destruct (initiateOutgoingConfiguration engine lo ra res li ri) as [r lo']. simpl in Hp.
    destruct Hf as [F I]. split; [by split|done]. }
  clear Hf. split; [|intros S V]; [|exact (initiateOutgoingConfiguration_codecs S V lo ra res li ri)]. unfold initiateOutgoingConfiguration. cbv zeta.
  destruct (_ || _); [apply proto_frame_refl|]. destruct (if _ && _ then _ else _) as [c b].
  destruct (matchPayloads _ _ _ _ _) as [pl lpl].
  assert (Hset : proto_frame lo (update_cfg li (set_payloads lpl) lo))
    by (apply update_cfg_proto_frame, areProtoCompatibles_refl).
  destruct (areProtoCompatibles _ _) eqn:Hc; cbn [negb]; [|exact Hset].
  destruct (_ && SalStreamConfiguration.hasAvpf _); [|exact Hset].
  eapply proto_frame_trans; [exact Hset|]. apply update_cfg_proto_frame.
  specialize (Hset li). rewrite areProtoCompatibles_sym in Hset.
  cbn [snd set_proto cfg_proto]. eapply areProtoCompatibles_trans; [|exact Hset].
  simpl. by rewrite areProtoCompatibles_sym.
Qed.

Lemma try_outgoing_spec cfgs lo ra res li0 ri :
  cfg_map_wf (sd_cfgs lo) ->
  let '(r, lo', li) := try_outgoing engine cfgs lo ra res li0 ri in
  local_frame lo lo' /\ sd_cfgIndex lo' = sd_cfgIndex lo /\
  forall c, r = Some c -> exists lo1, local_frame lo lo1 /\ accepted_outgoing engine lo1 ra li ri c.
Proof.
  revert lo li0. induction cfgs as [|[li line] cfgs IH]; intros lo li0 Hlo; cbn [try_outgoing].
  - split; [apply local_frame_refl|]. split; done.
  - pose proof (initiateOutgoingConfiguration_local lo ra res li ri Hlo) as Hfr.
    destruct (initiateOutgoingConfiguration engine lo ra res li ri) as [[c|] lo1] eqn:E; destruct Hfr as (F & I).
    + split; [done|]. split; [done|]. intros c' [= <-]. exists lo. split; [apply local_frame_refl|].
      by eapply initiateOutgoingConfiguration_accepted.
    + specialize (IH lo1 li (stream_frame_wf _ _ (proj1 F) Hlo)).
      destruct (try_outgoing engine cfgs lo1 ra res li ri) as [[r lo'] li'].
      destruct IH as (F1 & I1 & Hacc). split; [by eapply local_frame_trans|]. split; [congruence|].
      intros c Hc. destruct (Hacc c Hc) as (lo2 & F2 & Ha). exists lo2. split; [by eapply local_frame_trans|done].
Qed.

(** The indexes tried against the only configuration of an answer. *)
Definition tried_lines (ra : SalStreamDescription) (allowCapabilityNegotiation : bool) : uint_map string :=
  let lines := List.filter (fun p => str_contains "acfg" (snd p)) (sd_unparsed_cfgs ra) in
  if allowCapabilityNegotiation && negb (is_nil lines) then lines else [(actualConfigurationIndex, EmptyString)].

Lemma outgoing_negotiation_try lo ra res cap :
  outgoing_negotiation engine lo ra res cap =
  try_outgoing engine (tried_lines ra cap) lo ra res actualConfigurationIndex actualConfigurationIndex.
Proof.
  unfold outgoing_negotiation, tried_lines. cbv zeta. unfold getActualConfigurationIndex.
  destruct cap, (List.filter _ _) as [|l ls]; cbn [andb negb is_nil]; try done; cbn [try_outgoing];
    by destruct (initiateOutgoingConfiguration _ _ _ _ _ _) as [[c|] lo'].
Qed.

(** A multicast answer repeats the address, port, direction and bandwidth of the
    offer (RFC 3264, section 6.2). *)
Definition repeats_offer (offer answer : SalStreamDescription) : Prop :=
  sd_rtp_addr answer = sd_rtp_addr offer /\ sd_rtp_port answer = sd_rtp_port offer /\
  getDirection answer = getDirection offer /\ sd_bandwidth answer = sd_bandwidth offer.

Lemma multicast_answer_matches_true lo ra : multicast_answer_matches lo ra = true -> repeats_offer lo ra.
Proof.
  unfold multicast_answer_matches, repeats_offer.
  rewrite !andb_true_iff, String.eqb_eq, !Z.eqb_eq, bool_decide_eq_true. intuition congruence.
Qed.

(** The stream built from an answered one. *)
Record applied_stream (lo ra res : SalStreamDescription) (c : SalStreamConfiguration) : Prop := {
  app_cfg : getActualConfiguration res = c;
  app_enabled : enabled ra = true;
  app_addr : sd_rtp_addr res = sd_rtp_addr ra /\ sd_rtp_port res = sd_rtp_port ra;
  app_rtcp : sd_rtcp_addr res = sd_rtcp_addr ra /\ sd_rtcp_port res = sd_rtcp_port ra;
  app_bandwidth : sd_bandwidth res = sd_bandwidth ra;
  app_multicast : is_multicast_stream lo = true -> repeats_offer lo ra
}.

Lemma initiateOutgoingStream_outcome lo ra cap :
  cfg_map_wf (sd_cfgs lo) ->
  let '(res, lo', ra') := initiateOutgoingStream engine lo ra cap in
  local_frame lo lo' /\ ra' = ra <| sd_cfgIndex := sd_cfgIndex ra' |> /\
  sd_type res = sd_type lo /\ sd_label res = sd_label lo /\ sd_cfgIndex res = actualConfigurationIndex /\
  ((exists c lo1, local_frame lo lo1 /\ applied_stream lo ra res c /\
      accepted_outgoing engine lo1 ra (sd_cfgIndex lo') actualConfigurationIndex c) \/
   (enabled res = false /\ sd_rtp_port res = 0)).
Proof.
  intros Hlo. unfold initiateOutgoingStream. cbv zeta.
  set (r0 := _ <| sd_type := _ |>).
  assert (H0 : sd_type r0 = sd_type lo /\ sd_label r0 = sd_label lo /\ sd_cfgIndex r0 = actualConfigurationIndex /\
    sd_cfgs r0 = []) by done. clearbody r0.
  destruct (is_multicast_stream lo && negb _) eqn:Em.
  { destruct H0 as (Ht & Hl & Hi & Hc). split; [apply local_frame_refl|]. split; [by destruct ra|].
    repeat (split; [done|]). right. split; [|done]. unfold enabled, isBundleOnly, getChosenConfiguration,
      getConfigurationAtIndex. simpl. by rewrite Hc. }
  assert (Hmc : is_multicast_stream lo = true -> repeats_offer lo ra).
  { intros H. rewrite H in Em. by apply multicast_answer_matches_true, negb_false_iff. }
  set (r1 := if is_multicast_stream lo then _ else r0).
  assert (H1 : sd_type r1 = sd_type lo /\ sd_label r1 = sd_label lo /\ sd_cfgIndex r1 = actualConfigurationIndex)
    by (subst r1; destruct (is_multicast_stream lo); simpl; tauto).
  clearbody r1. destruct H1 as (Ht & Hl & Hi).
  assert (Hdis : forall s, sd_type s = sd_type lo -> sd_label s = sd_label lo -> sd_cfgIndex s = actualConfigurationIndex ->
    sd_type (disable s) = sd_type lo /\ sd_label (disable s) = sd_label lo /\
    sd_cfgIndex (disable s) = actualConfigurationIndex /\ enabled (disable s) = false /\ sd_rtp_port (disable s) = 0).
  { intros s ? ? ?. repeat (split; [done|]). split; [apply disable_not_enabled|done]. }
  destruct (enabled ra) eqn:Een.
  2: { destruct (Hdis r1 Ht Hl Hi) as (? & ? & ? & ? & ?). split; [apply local_frame_refl|]. split; [by destruct ra|].
       repeat (split; [done|]). by right. }
  rewrite outgoing_negotiation_try.
  pose proof (try_outgoing_spec (tried_lines ra cap) lo ra r1 actualConfigurationIndex actualConfigurationIndex Hlo) as H.
  destruct (try_outgoing engine _ lo ra r1 _ _) as [[[c|] lo'] li]; destruct H as (F & I & Ha).
  2: { destruct (Hdis r1 Ht Hl Hi) as (? & ? & ? & ? & ?). split; [done|]. split; [by destruct ra|].
       repeat (split; [done|]). by right. }
  destruct (Ha c eq_refl) as (lo1 & F1 & Hacc).
  assert (Hpay : negb (is_nil (cfg_payloads c)) && negb (onlyTelephoneEvent (cfg_payloads c)) = true).
  { destruct Hacc as [[Hp Hr] _]. by destruct (cfg_payloads c); [|rewrite Hr]. }
  rewrite Hpay. split.
  { eapply local_frame_trans; [exact F|apply set_index_local_frame]. }
  split; [done|]. split; [done|]. split; [done|]. split; [done|]. left.
  exists c, lo1. split; [done|]. split; [|done].
  split; try done. apply (getActualConfiguration_add r1 c).
Qed.
End OutgoingStream.

(** ** Properties *)

(** C37. A pair of configurations the answerer accepts: the result has a codec
    besides [telephone-event], the compatible transport both sides negotiated,
    the matched payload types, the direction computed from both sides (the
    offered one in multicast, where SRTP is refused); SRTP and DTLS only with
    the local encryption enabled, and with an agreed algorithm or usable
    fingerprints; the header extension ids both sides know; RTCP multiplexing
    and implicit feedback only when both have them; and it echoes the indexes of
    the potential configuration. *)
Theorem incoming_configuration_accepted (lib : MediaLib) engine local_cap remote_offer res mid li ri c lc' ro' :
  cfg_map_wf (sd_cfgs local_cap) -> cfg_map_wf (sd_cfgs remote_offer) ->
  initiateIncomingConfiguration engine local_cap remote_offer res mid li ri = (Some c, lc', ro') ->
  accepted_incoming engine local_cap remote_offer mid li ri c.
Proof. apply initiateIncomingConfiguration_accepted. Qed.

(** The same for the offerer that reads an answer. *)
Theorem outgoing_configuration_accepted (lib : MediaLib) engine local_offer remote_answer res li ri c lo' :
  cfg_map_wf (sd_cfgs local_offer) ->
  initiateOutgoingConfiguration engine local_offer remote_answer res li ri = (Some c, lo') ->
  accepted_outgoing engine local_offer remote_answer li ri c.
Proof. apply initiateOutgoingConfiguration_accepted. Qed.

Definition ex_remote_audio : SalStreamDescription := stream_nth 0 ex_remote.

Lemma ex_streams_wf : cfg_map_wf (sd_cfgs ex_audio) /\ cfg_map_wf (sd_cfgs ex_remote_audio).
Proof. split; repeat constructor; vm_compute; congruence. Qed.

Lemma incoming_configuration_accepted_witness :
  exists c lc' ro',
    @initiateIncomingConfiguration ref_lib default_engine ex_audio ex_remote_audio empty_stream EmptyString 0 0
      = (Some c, lc', ro') /\
    @accepted_incoming ref_lib default_engine ex_audio ex_remote_audio EmptyString 0 0 c.
Proof.
  destruct (@initiateIncomingConfiguration ref_lib default_engine ex_audio ex_remote_audio empty_stream EmptyString 0 0)
    as [[[c|] lc'] ro'] eqn:E; [|exfalso; vm_compute in E; discriminate].
  exists c, lc', ro'. split; [reflexivity|].
  exact (incoming_configuration_accepted ref_lib _ _ _ _ _ _ _ _ _ _ (proj1 ex_streams_wf) (proj2 ex_streams_wf) E).
Defined.

Lemma outgoing_configuration_accepted_witness :
  exists c lo',
    @initiateOutgoingConfiguration ref_lib default_engine ex_audio ex_remote_audio empty_stream 0 0 = (Some c, lo') /\
    @accepted_outgoing ref_lib default_engine ex_audio ex_remote_audio 0 0 c.
Proof.
  destruct (@initiateOutgoingConfiguration ref_lib default_engine ex_audio ex_remote_audio empty_stream 0 0)
    as [[c|] lo'] eqn:E; [|exfalso; vm_compute in E; discriminate].
  exists c, lo'. split; [reflexivity|].
  exact (outgoing_configuration_accepted ref_lib _ _ _ _ _ _ _ _ (proj1 ex_streams_wf) E).
Defined.

(** Answering one stream: the pairs of configurations are tried in order and
    the first one that is not refused gives the stream of the answer, with the
    local address and port (the offered ones in multicast, port 0 when the
    stream is only in the bundle) and without an RTCP port when it is
    multiplexed; when every pair is refused the stream is declined: port 0, no
    direction, the transport of the offer.  Either way the offer is left alone
    but for its transports and chosen index. *)
Theorem incoming_stream_outcome (lib : MediaLib) engine local_cap remote_offer mid cap :
  cfg_map_wf (sd_cfgs local_cap) -> cfg_map_wf (sd_cfgs remote_offer) ->
  let '(res, lc', ro') := initiateIncomingStream engine local_cap remote_offer mid cap in
  stream_frame local_cap lc' /\ offer_frame remote_offer ro' /\
  ((exists pre post lc1 ro1 c,
      tried_pairs local_cap remote_offer cap = pre ++ (sd_cfgIndex ro', sd_cfgIndex lc') :: post /\
      refused engine pre local_cap remote_offer mid /\
      stream_frame local_cap lc1 /\ offer_frame remote_offer ro1 /\ sd_cfgIndex ro1 = sd_cfgIndex remote_offer /\
      accepted_incoming engine lc1 ro1 mid (sd_cfgIndex lc') (sd_cfgIndex ro') c /\
      answered_stream local_cap remote_offer res c) \/
   (refused engine (tried_pairs local_cap remote_offer cap) local_cap remote_offer mid /\
    rejected_stream local_cap remote_offer res /\ getProto res = cfg_proto (getActualConfiguration ro') /\
    sd_cfgIndex lc' = sd_cfgIndex local_cap /\ sd_cfgIndex ro' = sd_cfgIndex remote_offer)).
Proof. apply initiateIncomingStream_outcome. Qed.

Lemma incoming_stream_outcome_witness :
  exists res lc' ro', @initiateIncomingStream ref_lib default_engine ex_audio ex_remote_audio EmptyString true = (res, lc', ro') /\
    stream_frame ex_audio lc' /\ offer_frame ex_remote_audio ro'.
Proof.
  pose proof (incoming_stream_outcome ref_lib default_engine ex_audio ex_remote_audio EmptyString true
    (proj1 ex_streams_wf) (proj2 ex_streams_wf)) as H.
  destruct (@initiateIncomingStream ref_lib default_engine ex_audio ex_remote_audio EmptyString true) as [[res lc'] ro'].
  exists res, lc', ro'. split; [reflexivity|]. split; apply H.
Defined.

(** C38. Reading the answer for one stream: the stream has the type and the label
    of the offer; either a configuration of the offer is accepted against the
    only one of the answer, the stream of the answer is enabled and the result
    goes to its address, ports and bandwidth (which are the offered ones in
    multicast), or the result is disabled with port 0.  A multicast answer that
    does not repeat the offer is always in the second case. *)
Theorem outgoing_stream_outcome (lib : MediaLib) engine local_offer remote_answer cap :
  cfg_map_wf (sd_cfgs local_offer) ->
  let '(res, lo', ra') := initiateOutgoingStream engine local_offer remote_answer cap in
  local_frame local_offer lo' /\ ra' = remote_answer <| sd_cfgIndex := sd_cfgIndex ra' |> /\
  sd_type res = sd_type local_offer /\ sd_label res = sd_label local_offer /\
  sd_cfgIndex res = actualConfigurationIndex /\
  ((exists c lo1, local_frame local_offer lo1 /\ applied_stream local_offer remote_answer res c /\
      accepted_outgoing engine lo1 remote_answer (sd_cfgIndex lo') actualConfigurationIndex c) \/
   (enabled res = false /\ sd_rtp_port res = 0)).
Proof. apply initiateOutgoingStream_outcome. Qed.

Lemma outgoing_stream_outcome_witness :
  let '(res, lo', ra') := @initiateOutgoingStream ref_lib default_engine ex_audio ex_remote_audio false in
  local_frame (lib := ref_lib) ex_audio lo' /\ enabled res = true /\
  exists c, @applied_stream ref_lib ex_audio ex_remote_audio res c.
Proof.
  pose proof (outgoing_stream_outcome ref_lib default_engine ex_audio ex_remote_audio false (proj1 ex_streams_wf)) as H.
  assert (He : enabled (@initiateOutgoingStream ref_lib default_engine ex_audio ex_remote_audio false).1.1 = true)
    by (vm_compute; reflexivity).
  destruct (@initiateOutgoingStream ref_lib default_engine ex_audio ex_remote_audio false) as [[res lo'] ra'].
  destruct H as (Hf & _ & _ & _ & _ & [(c & lo1 & _ & Ha & _)|[Hd _]]); [|simpl in He; congruence].
  split; [exact Hf|]. split; [exact He|]. exists c. exact Ha.
Defined.

(** Compatible transports are the ones with the same security, with or
    without feedback: an equivalence whose only classes with two elements pair a
    profile with its AVPF variant. *)
Theorem compatible_transports :
  (forall p, areProtoCompatibles p p = true) /\
  (forall p q, areProtoCompatibles p q = areProtoCompatibles q p) /\
  (forall p q r, areProtoCompatibles p q = true -> areProtoCompatibles q r = true -> areProtoCompatibles p r = true) /\
  (forall p q, areProtoCompatibles p q = true <->
     p = q \/ (forall c, SalStreamConfiguration.hasAvpf (set_proto p c) <> SalStreamConfiguration.hasAvpf (set_proto q c) /\
       SalStreamConfiguration.hasSrtp (set_proto p c) = SalStreamConfiguration.hasSrtp (set_proto q c) /\
       SalStreamConfiguration.hasDtls (set_proto p c) = SalStreamConfiguration.hasDtls (set_proto q c) /\
       p <> SalProtoOther /\ q <> SalProtoOther)).
Proof.
  split; [apply areProtoCompatibles_refl|]. split; [apply areProtoCompatibles_sym|].
  split; [apply areProtoCompatibles_trans|]. intros p q. split.
  - destruct p, q; intros [=]; auto; right; intros c; vm_compute; intuition congruence.
  - intros [->|H]; [apply areProtoCompatibles_refl|]. specialize (H empty_cfg). revert H.
    destruct p, q; vm_compute; intuition congruence.
Qed.
