(* ===== verification/OfferAnswerSpec.v ===== *)
(** The abstract contract of an offer/answer exchange (RFC 3264), as relations
    between an offer and an answer that do not mention the engine's loops.  The
    engine is shown to implement it in [OfferAnswerSession]. *)
From S2P Require Import Prelude SalTypes Payload SalStreamConfiguration ReferenceLib SalStreamBundle SalStreamDescription SalMediaDescription OfferAnswerEngine OfferAnswerMatching OfferAnswerNegotiation.

(** What identifies a media line in an offer and its answer. *)
Definition mline (s : SalStreamDescription) : SalStreamType * string := (sd_type s, getTypeAsString s).

(** A media line the answer refuses: port 0 and no direction. *)
Definition rejected_line (answer : SalStreamDescription) : Prop :=
  sd_rtp_port answer = 0 /\ getDirection answer = SalStreamInactive.

(** What a configuration [c] of an answer may say when [offered] is the
    configuration of the offer it was made from. *)
Record answers_cfg {lib : MediaLib} (engine : OfferAnswerEngine) (multicast : bool)
    (offered c : SalStreamConfiguration) : Prop := {
  ans_payloads : cfg_payloads c <> [] /\ onlyTelephoneEvent (cfg_payloads c) = false;
  ans_codecs : Forall (fun q => exists p p2 bundle,
    In p2 (cfg_payloads offered) /\ negotiated engine false bundle p p2 q) (cfg_payloads c);
  ans_send : may_send (cfg_dir c) = true ->
    if multicast then may_send (cfg_dir offered) = true else may_receive (cfg_dir offered) = true;
  ans_receive : may_receive (cfg_dir c) = true ->
    if multicast then may_receive (cfg_dir offered) = true else may_send (cfg_dir offered) = true;
  ans_proto : areProtoCompatibles (cfg_proto c) (cfg_proto offered) = true;
  ans_mux : cfg_rtcp_mux c = true -> cfg_rtcp_mux offered = true;
  ans_srtp : SalStreamConfiguration.hasSrtp c = true ->
    exists k rc, cfg_crypto c = [k] /\ In rc (cfg_crypto offered) /\ tag k = tag rc /\ algo k = algo rc /\ algo k <> 0
}.

(** The answer to a media line of the offer: the same kind of line, refused or
    made from one of the configurations the line offers. *)
Definition answers_line {lib : MediaLib} (engine : OfferAnswerEngine) (offer answer : SalStreamDescription) : Prop :=
  mline answer = mline offer /\
  (rejected_line answer \/
   enabled offer = true /\
   exists idx, answers_cfg engine (is_multicast_stream offer) (getConfigurationAtIndex offer idx)
                 (getChosenConfiguration answer)).

(** An answer has exactly the media lines of the offer, in order, its time line
    and a single, actual, configuration per line. *)
Record answers {lib : MediaLib} (engine : OfferAnswerEngine) (offer answer : SalMediaDescription) : Prop := {
  ans_lines : Forall2 (answers_line engine) (md_streams offer) (md_streams answer);
  ans_times : md_times answer = md_times offer;
  ans_actual : Forall (fun s => sd_cfgIndex s = actualConfigurationIndex) (md_streams answer)
}.

(** The direction the offerer runs: never more than it offered, nothing when
    the answer is inactive and, when both directions were offered, the mirror of
    the answer. *)
Definition agreed_direction (offered answered d : SalStreamDir) : Prop :=
  (may_send d = true -> may_send offered = true) /\ (may_receive d = true -> may_receive offered = true) /\
  (answered = SalStreamInactive -> d = SalStreamInactive) /\
  (offered = SalStreamSendRecv -> may_send d = may_receive answered /\ may_receive d = may_send answered).

(** A payload type the offerer keeps: negotiated from one it offered with one of
    the answer for the same format, the receive-only twin of such a one under the
    number it offered, or the first one it offered, to receive, when the answer uses
    none of the numbers of the offer. *)
Definition agreed_payload {lib : MediaLib} (engine : OfferAnswerEngine) (offered answered : list OrtpPayloadType)
    (q : OrtpPayloadType) : Prop :=
  (exists p p2 bundle, In p offered /\ In p2 answered /\
     (negotiated engine true bundle p p2 q \/ receive_only_twin p p2 q)) \/
  (exists p, head offered = Some p /\ mime_type q = mime_type p /\ clock_rate q = clock_rate p /\ number q = number p /\
     has_flag PAYLOAD_TYPE_FLAG_CAN_RECV q = true /\
     forall p1 p2, In p1 offered -> In p2 answered -> number p1 <> number p2).

(** What the offerer may use when [offered] is the configuration the answer
    was made from and [answered] the one of the answer. *)
Record agreed_cfg {lib : MediaLib} (engine : OfferAnswerEngine) (multicast : bool)
    (offered answered c : SalStreamConfiguration) : Prop := {
  agr_payloads : cfg_payloads c <> [] /\ onlyTelephoneEvent (cfg_payloads c) = false;
  agr_codecs : Forall (agreed_payload engine (cfg_payloads offered) (cfg_payloads answered)) (cfg_payloads c);
  agr_proto : cfg_proto c = cfg_proto answered /\ areProtoCompatibles (cfg_proto answered) (cfg_proto offered) = true;
  agr_dir : if multicast then cfg_dir c = cfg_dir offered
    else agreed_direction (cfg_dir offered) (cfg_dir answered) (cfg_dir c);
  agr_mux : cfg_rtcp_mux c = true ->
    cfg_rtcp_mux offered = true /\ cfg_rtcp_mux answered = true \/
    cfg_mid offered <> EmptyString /\ cfg_mid answered <> EmptyString;
  agr_srtp : SalStreamConfiguration.hasSrtp c = true ->
    exists k lc rc, cfg_crypto c = [k] /\ In lc (cfg_crypto offered) /\ In rc (cfg_crypto answered) /\
      tag k = tag lc /\ algo k = algo lc /\ algo k = algo rc /\ master_key k = master_key rc;
  agr_dtls : cfg_dtls_fingerprint c = EmptyString \/
    cfg_dtls_fingerprint c = cfg_dtls_fingerprint answered /\ cfg_dtls_role answered <> SalDtlsRoleInvalid
}.

(** A stream the offerer runs: its media line is in the offer and in the answer,
    where it is enabled, and it goes to the address of the answer. *)
Record agrees_line {lib : MediaLib} (engine : OfferAnswerEngine) (offer answer result : SalStreamDescription) : Prop := {
  agr_type : sd_type answer = sd_type offer /\ sd_type result = sd_type offer;
  agr_enabled : enabled answer = true;
  agr_addr : sd_rtp_addr result = sd_rtp_addr answer /\ sd_rtp_port result = sd_rtp_port answer;
  agr_multicast : is_multicast_stream offer = true -> repeats_offer offer answer;
  agr_cfg : exists idx, agreed_cfg engine (is_multicast_stream offer) (getConfigurationAtIndex offer idx)
    (getActualConfiguration answer) (getChosenConfiguration result)
}.

(** Every stream of the result that is enabled is an agreed one; the result has
    the media lines both sides have and the time line of the offer. *)
Record agrees {lib : MediaLib} (engine : OfferAnswerEngine) (offer answer result : SalMediaDescription) : Prop := {
  agr_length : length (md_streams result) = Nat.min (length (md_streams offer)) (length (md_streams answer));
  agr_lines : forall i o a r, md_streams offer !! i = Some o -> md_streams answer !! i = Some a ->
    md_streams result !! i = Some r -> enabled r = true -> agrees_line engine o a r;
  agr_times : md_times result = md_times offer
}.

(** ** Lemmas *)

Section AnswersCfg.
Context {lib : MediaLib} (libspec : MediaLibSpec lib) (prov : ProvidersSound lib) (engine : OfferAnswerEngine).

Lemma matchPayloads_negotiated local remote bundle :
  Forall (fun q => exists p p2, In p local /\ In p2 remote /\ negotiated engine false bundle p p2 q)
    (matchPayloads engine local remote false bundle).1.
Proof.
  unfold matchPayloads.
  pose proof (match_loop_sound engine local remote false bundle remote local false []
    (same_codec_list_refl local) (incl_refl remote) (List.Forall_nil _)) as H.
  destruct (match_loop engine local remote remote false bundle false []) as [res local'].
  destruct H as [H _]. simpl. rewrite List.Forall_forall in *. intros q Hq.
  apply stable_sort_In, H in Hq as (p & p2 & ? & ? & [?|[[=] _]]). eauto.
Qed.

(** Changing the RTCP attributes or the mid keeps an answer an answer. *)
Lemma answers_cfg_ext multicast offered c c' :
  cfg_payloads c' = cfg_payloads c -> cfg_dir c' = cfg_dir c -> cfg_proto c' = cfg_proto c ->
  cfg_rtcp_mux c' = cfg_rtcp_mux c -> cfg_crypto c' = cfg_crypto c ->
  answers_cfg engine multicast offered c -> answers_cfg engine multicast offered c'.
Proof.
  intros Hp Hd Hpr Hm Hc []. split; rewrite ?Hp, ?Hd, ?Hpr, ?Hm, ?Hc; try done.
  intros Hs. apply ans_srtp0. unfold SalStreamConfiguration.hasSrtp in *. by rewrite <- Hpr.
Qed.

Lemma negotiated_proto_compatible p q :
  areProtoCompatibles p q = true -> areProtoCompatibles (negotiated_proto p q) q = true.
Proof. by destruct p, q. Qed.

(** A pair of configurations the engine accepts gives an answer to the offered
    one, as it was before the pairs tried first. *)
Lemma accepted_incoming_answers lc ro ro1 mid li ri c :
  offer_frame ro ro1 -> sd_cfgIndex ro1 = sd_cfgIndex ro -> accepted_incoming engine lc ro1 mid li ri c ->
  enabled ro = true /\ answers_cfg engine (is_multicast_stream ro) (getConfigurationAtIndex ro ri) c.
Proof.
  intros [Hf Hp] Hi [[] Hen Hproto Hpay Hdir Hmux _].
  rewrite (frame_enabled _ _ Hf Hi) in Hen. split; [done|].
  rewrite (frame_multicast _ _ Hf) in Hdir. destruct (Hp ri) as [Hpl Hcomp].
  pose proof (frame_config _ _ ri Hf) as Hs. revert Hproto Hpay Hdir Hmux acc_compatible acc_srtp Hpl Hcomp.
  rewrite Hs. generalize (getConfigurationAtIndex ro ri) (getConfigurationAtIndex lc li)
    (cfg_proto (getConfigurationAtIndex ro1 ri)) (cfg_payloads (getConfigurationAtIndex ro1 ri)).
  intros r l p pl. cbn. intros Hproto Hpay Hdir Hmux Hc Hsrtp -> Hcomp.
  split; rewrite ?Hproto, ?Hmux; try done.
  - rewrite Hpay. eapply List.Forall_impl; [|apply matchPayloads_negotiated]. cbn. intros q (a & b & _ & ? & ?). eauto.
  - destruct (is_multicast_stream ro); [by destruct Hdir as [-> _]|].
    rewrite Hdir, computeDirIncoming_may_send. by intros [_ ?]%andb_true_iff.
  - destruct (is_multicast_stream ro); [by destruct Hdir as [-> _]|].
    rewrite Hdir, computeDirIncoming_may_receive. by intros [_ ?]%andb_true_iff.
  - eapply areProtoCompatibles_trans; [|exact Hcomp]. by apply negotiated_proto_compatible.
  - by intros [? _]%andb_true_iff.
  - intros Hh. destruct (Hsrtp Hh) as (_ & k & Hk & ->).
    apply matchCryptoAlgo_agreed in Hk as (a & b & (pre & post & lpre & lpost & Hro & _ & Hnz & _) & ->).
    exists (mkCrypto (tag b) (algo b) (master_key a)), b. rewrite Hro. repeat split; auto.
    apply in_or_app. right. by left.
Qed.

Lemma computeDirOutgoing_agreed local answered :
  agreed_direction local answered (computeDirOutgoing local answered).
Proof. destruct local, answered; by repeat split. Qed.

Lemma matchPayloads_agreed offered local remote bundle :
  Forall2 same_codec local offered ->
  Forall (agreed_payload engine offered remote) (matchPayloads engine local remote true bundle).1.
Proof.
  intros Hl. eapply List.Forall_impl; [|by apply matchPayloads_response]. cbn.
  intros q [(p & p2 & Hp & Hp2 & Hq)|(p & Hp & Hm & Hr & Hn & Hf & Hd)].
  - destruct (same_codec_list_In _ _ _ Hl Hp) as (p0 & Hp0 & Hs). left. exists p0, p2, bundle.
    split; [exact Hp0|]. split; [exact Hp2|].
    destruct Hq as [Hq|Hq]; [left; by eapply negotiated_same_codec|right; by eapply receive_only_twin_same_codec].
  - right. destruct Hl as [|p' p0 local offered Hs Hl]; [done|]. injection Hp as ->. exists p0.
    pose proof Hs as (_ & Hm0 & Hr0 & Hn0 & _).
    repeat split; try congruence. intros p1 p2 Hp1 Hp2.
    enough (exists p1', In p1' (p :: local) /\ number p1' = number p1) as (p1' & Hi & <-) by by apply Hd.
    destruct Hp1 as [<-|Hp1]; [exists p; split; [by left|exact Hn0]|].
    clear - Hl Hp1. induction Hl as [|x y l l' Hxy Hl IH]; [done|].
    destruct Hp1 as [<-|Hp1]; [exists x; split; [right; by left|apply Hxy]|].
    destruct (IH Hp1) as (x' & [Hi|Hi] & Hx'); exists x'; (split; [|exact Hx']); [by left|right; by right].
Qed.

Lemma agreed_cfg_ext multicast offered answered c c' :
  cfg_payloads c' = cfg_payloads c -> cfg_dir c' = cfg_dir c -> cfg_proto c' = cfg_proto c ->
  cfg_rtcp_mux c' = cfg_rtcp_mux c -> cfg_crypto c' = cfg_crypto c ->
  cfg_dtls_fingerprint c' = cfg_dtls_fingerprint c ->
  agreed_cfg engine multicast offered answered c -> agreed_cfg engine multicast offered answered c'.
Proof.
  intros Hp Hd Hpr Hm Hc Hf []. split; rewrite ?Hp, ?Hd, ?Hpr, ?Hm, ?Hc, ?Hf; try done.
  intros Hs. apply agr_srtp0. unfold SalStreamConfiguration.hasSrtp in *. by rewrite <- Hpr.
Qed.

(** A pair of configurations the offerer accepts is agreed, as regards the
    offer before the lines tried first. *)
Lemma accepted_outgoing_agrees lo lo1 ra li ri c :
  local_frame lo lo1 -> accepted_outgoing engine lo1 ra li ri c ->
  agreed_cfg engine (is_multicast_stream lo) (getConfigurationAtIndex lo li) (getConfigurationAtIndex ra ri) c.
Proof.
  intros (Hf & Hp & Hcod) [[] Hproto Hpay Hdir Hmux Hfp]. rewrite (frame_multicast _ _ Hf) in Hdir. specialize (Hp li).
  specialize (Hcod libspec prov li).
  pose proof (frame_config _ _ li Hf) as Hs. revert Hpay Hdir Hmux acc_compatible acc_srtp acc_dtls Hp Hcod. rewrite Hs.
  generalize (getConfigurationAtIndex lo li) (cfg_proto (getConfigurationAtIndex lo1 li))
    (cfg_payloads (getConfigurationAtIndex lo1 li)).
  intros l p pl. cbn. intros Hpay Hdir Hmux Hc Hsrtp Hdtls Hp Hcod. split; try done.
  - destruct Hpay as [b ->]. by apply matchPayloads_agreed.
  - split; [done|]. rewrite areProtoCompatibles_sym in Hc. by eapply areProtoCompatibles_trans.
  - destruct (is_multicast_stream lo); [done|]. rewrite Hdir. apply computeDirOutgoing_agreed.
  - rewrite Hmux. intros [[Ha Hb]%andb_true_iff|[Ha Hb]%andb_true_iff]%orb_true_iff; [right|by left].
    apply negb_true_iff, str_empty_false in Ha. apply negb_true_iff, str_empty_false in Hb. by split.
  - intros Hh. destruct (Hsrtp Hh) as (_ & k & Hk & ->).
    apply matchCryptoAlgo_agreed in Hk as (a & b & (pre & post & lpre & lpost & Hro & Hlo & _ & Halgo & _) & ->).
    eexists _, a, b. split; [done|]. rewrite Hro, Hlo. repeat split; try (apply in_or_app; right; by left); done.
  - destruct (str_empty (cfg_dtls_fingerprint c)) eqn:E; [left; by apply str_empty_spec|].
    apply str_empty_false in E. destruct Hfp as [Hfp|Hfp]; [by left|right]. split; [done|].
    destruct (Hdtls E) as [_ Hu]. apply dtls_usable_true in Hu. tauto.
Qed.
End AnswersCfg.
