(* ===== verification/OfferAnswerSession.v ===== *)
(** What a whole offer/answer exchange guarantees about the description it
    produces: the media lines, the bundles and the session attributes. *)
From S2P Require Import Prelude SalTypes Payload SalStreamConfiguration ReferenceLib PotentialCfgGraph SalStreamBundle SalStreamDescription SalMediaDescription ReferenceSdp OfferAnswerEngine OfferAnswerMatching OfferAnswerNegotiation OfferAnswerSpec.

(** ** Media lines *)

Definition streams_wf (md : SalMediaDescription) : Prop :=
  Forall (fun s => cfg_map_wf (sd_cfgs s)) (md_streams md).

Lemma stream_nth_wf i md : streams_wf md -> cfg_map_wf (sd_cfgs (stream_nth i md)).
Proof.
  intros H. unfold stream_nth. destruct (md_streams md !! i) as [s|] eqn:E; simpl; [|split; constructor].
  by eapply (Forall_lookup_1 _ _ _ _ H) in E.
Qed.

Lemma stream_nth_set_ne i j s md : i <> j -> stream_nth i (set_stream j s md) = stream_nth i md.
Proof. intros H. unfold stream_nth, set_stream. simpl. by rewrite list_lookup_insert_ne by done. Qed.

(** A negotiation leaves a description alone but for the chosen indexes, the
    transports and the payload types of its streams. *)
Definition desc_frame (md md' : SalMediaDescription) : Prop :=
  md' = md <| md_streams := md_streams md' |> /\ Forall2 stream_frame (md_streams md) (md_streams md').

Lemma desc_frame_refl md : desc_frame md md.
Proof. split; [by destruct md|]. apply Forall2_refl_rel, stream_frame_refl. Qed.

Lemma desc_frame_trans a b c : desc_frame a b -> desc_frame b c -> desc_frame a c.
Proof.
  intros [E F] [E' F']. split; [rewrite E', E at 1; done|].
  eapply Forall2_trans_rel; [apply stream_frame_trans|done..].
Qed.

Lemma desc_frame_wf a b : desc_frame a b -> streams_wf a -> streams_wf b.
Proof. intros [_ F] H. eapply Forall_transfer; [exact H|exact F|]. intros s s' Hs Hf. by eapply stream_frame_wf. Qed.

Lemma desc_frame_set i s md :
  stream_frame (stream_nth i md) s -> desc_frame md (set_stream i s md).
Proof.
  intros F. split; [done|]. unfold stream_nth, set_stream in *. simpl.
  destruct (md_streams md !! i) as [s0|] eqn:E; simpl in F.
  - rewrite <- (list_insert_id (md_streams md) i s0 E) at 1. apply Forall2_insert; [|exact F].
    apply Forall2_refl_rel, stream_frame_refl.
  - rewrite list_insert_ge by (by apply lookup_ge_None). apply Forall2_refl_rel, stream_frame_refl.
Qed.

Section Turns.
Context {lib : MediaLib} (libspec : MediaLibSpec lib) (prov : ProvidersSound lib) (engine : OfferAnswerEngine).

Lemma mline_eq_types s rs :
  sd_type s = sd_type rs -> (sd_type rs = SalOther -> sd_typeother s = sd_typeother rs) -> mline s = mline rs.
Proof.
  intros Ht Ho. unfold mline, getTypeAsString. rewrite Ht.
  destruct (bool_decide_reflect (sd_type rs = SalOther)) as [E|E]; [by rewrite Ho|done].
Qed.

(** The stream of an answer only depends on its chosen configuration. *)
Lemma answers_line_chosen offer s s' :
  mline s' = mline s -> sd_rtp_port s' = sd_rtp_port s ->
  getChosenConfiguration s' = getChosenConfiguration s ->
  answers_line engine offer s -> answers_line engine offer s'.
Proof.
  intros Hm Hp Hc [Hl H]. split; [congruence|]. unfold rejected_line, getDirection in *. by rewrite Hp, Hc.
Qed.

Lemma answers_line_disabled offer s : answers_line engine offer s -> answers_line engine offer (disable s).
Proof. intros [Hl _]. split; [done|]. left. split; [done|apply disable_direction]. Qed.

Lemma declined_answers rs :
  let s := addActualConfiguration (declined_stream rs).1 (declined_stream rs).2 in
  answers_line engine rs s /\ sd_cfgIndex s = actualConfigurationIndex.
Proof.
  unfold declined_stream. cbv zeta. cbn [fst snd].
  set (c := if getProto rs =e SalProtoOther then _ else _).
  assert (Hc : cfg_dir c = SalStreamInactive) by (subst c; by destruct (_ =e SalProtoOther)).
  set (s := if sd_type rs =e SalOther then _ else _).
  assert (Hs : sd_type s = sd_type rs /\ (sd_type rs = SalOther -> sd_typeother s = sd_typeother rs) /\
    sd_rtp_port s = 0 /\ sd_cfgIndex s = actualConfigurationIndex).
  { subst s. destruct (bool_decide_reflect (sd_type rs = SalOther)); cbn; tauto. }
  clearbody s c. destruct Hs as (Ht & Ho & Hp & Hi). split; [|done]. split; [by apply mline_eq_types|]. left.
  split; [done|]. unfold getDirection, getChosenConfiguration, getChosenConfigurationIndex. simpl. rewrite Hi.
  pose proof (getActualConfiguration_add s c) as G. unfold getActualConfiguration, getActualConfigurationIndex in G.
  by rewrite G.
Qed.

Lemma incoming_rtcp_answers lc ls rs multicast offered c :
  answers_cfg engine multicast offered c -> answers_cfg engine multicast offered (incoming_rtcp lc ls rs c).
Proof. apply answers_cfg_ext; unfold incoming_rtcp; cbv zeta; by repeat case_match. Qed.

Lemma incoming_rtcp_dir lc ls rs c : cfg_dir (incoming_rtcp lc ls rs c) = cfg_dir c.
Proof. unfold incoming_rtcp; cbv zeta; by repeat case_match. Qed.

Lemma add_actual_chosen s c :
  sd_cfgIndex s = actualConfigurationIndex -> getChosenConfiguration (addActualConfiguration s c) = c.
Proof.
  intros Hi. unfold getChosenConfiguration, getChosenConfigurationIndex. simpl. rewrite Hi.
  apply getActualConfiguration_add.
Qed.

(** A negotiated stream, with its RTCP attributes. *)
Lemma negotiated_answers cap lc ls rs mid :
  cfg_map_wf (sd_cfgs ls) -> cfg_map_wf (sd_cfgs rs) -> sd_type rs = sd_type ls ->
  let '(s, ls', rs') := initiateIncomingStream engine ls rs mid cap in
  stream_frame ls ls' /\ stream_frame rs rs' /\ sd_cfgIndex s = actualConfigurationIndex /\
  answers_line engine rs (addActualConfiguration s (incoming_rtcp lc ls' rs' (getActualConfiguration s))).
Proof.
  intros Hls Hrs Ht. pose proof (initiateIncomingStream_outcome engine ls rs mid cap Hls Hrs) as H.
  destruct (initiateIncomingStream engine ls rs mid cap) as [[s ls'] rs'].
  destruct H as (Fl & [Fr _] & [(pre & post & lc1 & ro1 & c & _ & _ & _ & Fo & Hi & Ha & Hs)|(_ & Hrej & _)]).
  - destruct Hs. split; [done|]. split; [done|]. split; [done|]. split.
    + apply mline_eq_types; simpl; [congruence|]. rewrite Ht. done.
    + right. destruct (accepted_incoming_answers libspec prov engine _ _ _ _ _ _ _ Fo Hi Ha) as [He Hc].
      split; [done|]. eexists. rewrite add_actual_chosen by done. apply incoming_rtcp_answers.
      rewrite ans_cfg. exact Hc.
  - destruct Hrej. split; [done|]. split; [done|]. split; [done|]. split.
    + apply mline_eq_types; simpl; [congruence|]. rewrite Ht. done.
    + left. split; [done|]. unfold getDirection. rewrite add_actual_chosen by done.
      rewrite incoming_rtcp_dir. revert rej_dir. unfold getDirection, getChosenConfiguration.
      unfold getChosenConfigurationIndex. by rewrite rej_index.
Qed.

Lemma incoming_turn_spec cap i lc ro :
  streams_wf lc -> streams_wf ro ->
  let '(s, lc', ro') := incoming_turn engine cap i lc ro in
  answers_line engine (stream_nth i ro) s /\ sd_cfgIndex s = actualConfigurationIndex /\
  desc_frame lc lc' /\ desc_frame ro ro' /\ forall j, j <> i -> stream_nth j ro' = stream_nth j ro.
Proof.
  intros Hl Hr. unfold incoming_turn. cbv zeta.
  set (rs := stream_nth i ro). set (ls := stream_nth i lc).
  assert (Hend : forall s a ls' rs' (b : bool), stream_frame ls ls' -> stream_frame rs rs' ->
    answers_line engine rs (addActualConfiguration s a) -> sd_cfgIndex s = actualConfigurationIndex ->
    let s' := addActualConfiguration (if b then s <| sd_custom_sdp_attributes := sd_custom_sdp_attributes ls' |> else s) a in
    answers_line engine rs s' /\ sd_cfgIndex s' = actualConfigurationIndex /\
    desc_frame lc (set_stream i ls' lc) /\ desc_frame ro (set_stream i rs' ro) /\
    forall j, j <> i -> stream_nth j (set_stream i rs' ro) = stream_nth j ro).
  { intros s a ls' rs' b Fl Fr Ha Hi. cbv zeta.
    repeat match goal with |- _ /\ _ => split end; try by apply desc_frame_set.
    - by destruct b.
    - by destruct b.
    - intros j Hj. by apply stream_nth_set_ne. }
  destruct ((i <? length (md_streams lc))%nat && (sd_type rs =e sd_type ls) && areProtoInStreamCompatibles ls rs) eqn:Hc.
  - apply andb_true_iff in Hc as [Hc _]; apply andb_true_iff in Hc as [_ Ht]; apply bool_decide_eq_true in Ht.
    pose proof (negotiated_answers cap lc ls rs (bundle_owner_mid_of lc ro rs)
      (stream_nth_wf i lc Hl) (stream_nth_wf i ro Hr) Ht) as H.
    destruct (initiateIncomingStream engine ls rs _ cap) as [[s ls'] rs'].
    destruct H as (Fl & Fr & Hi & Ha). by apply Hend.
  - pose proof (declined_answers rs) as [Hd Hi]. destruct (declined_stream rs) as [s a]. simpl in Hd, Hi.
    by apply Hend; [apply stream_frame_refl..| |].
Qed.

Lemma incoming_turns_spec cap indexes lc ro :
  NoDup indexes -> streams_wf lc -> streams_wf ro ->
  let '(streams, lc', ro') := incoming_turns engine cap indexes lc ro in
  Forall2 (fun i s => answers_line engine (stream_nth i ro) s) indexes streams /\
  Forall (fun s => sd_cfgIndex s = actualConfigurationIndex) streams /\
  desc_frame lc lc' /\ desc_frame ro ro'.
Proof.
  revert lc ro. induction indexes as [|i indexes IH]; intros lc ro Hnd Hl Hr; cbn [incoming_turns].
  - repeat match goal with |- _ /\ _ => split end; try done; apply desc_frame_refl.
  - inversion Hnd as [|? ? Hni Hnd']; subst.
    pose proof (incoming_turn_spec cap i lc ro Hl Hr) as H.
    destruct (incoming_turn engine cap i lc ro) as [[s lc1] ro1].
    destruct H as (Ha & Hi & Fl & Fr & Ho).
    assert (Hl1 := desc_frame_wf _ _ Fl Hl). assert (Hr1 := desc_frame_wf _ _ Fr Hr).
    specialize (IH lc1 ro1 Hnd' Hl1 Hr1). destruct (incoming_turns engine cap indexes lc1 ro1) as [[ss lc2] ro2].
    destruct IH as (Has & His & Fl2 & Fr2).
    repeat match goal with |- _ /\ _ => split end; try by eapply desc_frame_trans.
    + constructor; [done|]. eapply Forall2_impl_In; [|exact Has].
      intros j t Hj Hjt. rewrite <- Ho; [done|]. intros ->. by apply Hni.
    + by constructor.
Qed.
End Turns.

(** ** Bundles *)

(** [s'] is [s], or [s] after it was disabled. *)
Definition kept_or_disabled (s s' : SalStreamDescription) : Prop := s' = s \/ s' = disable s.

(** Verifying the bundles disables some streams and changes nothing else. *)
Lemma verify_bundle_of_spec local remote result i :
  verify_bundle_of local remote result i = result \/
  verify_bundle_of local remote result i = set_stream i (disable (stream_nth i result)) result.
Proof.
  unfold verify_bundle_of. cbv zeta. destruct (_ <? _)%nat; [|auto]. destruct (_ || _); auto.
Qed.

Lemma verifyBundles_fold local remote n start result :
  (start + n = length (md_streams result))%nat ->
  let r := fold_left (verify_bundle_of local remote) (seq start n) result in
  r = result <| md_streams := md_streams r |> /\
  length (md_streams r) = length (md_streams result) /\
  forall i s, md_streams result !! i = Some s ->
    exists s', md_streams r !! i = Some s' /\ (if (i <? start)%nat then s' = s else kept_or_disabled s s').
Proof.
  revert start result. induction n as [|n IH]; intros start result Hn; cbn [seq fold_left].
  - split; [by destruct result|]. split; [done|]. intros i s Hs. exists s. split; [done|].
    destruct (_ <? _)%nat; [done|by left].
  - set (r1 := verify_bundle_of local remote result start).
    assert (H1 : length (md_streams r1) = length (md_streams result) /\
       r1 = result <| md_streams := md_streams r1 |> /\
       forall i s, md_streams result !! i = Some s ->
         exists s', md_streams r1 !! i = Some s' /\ (if (i =? start)%nat then kept_or_disabled s s' else s' = s)).
    { subst r1. destruct (verify_bundle_of_spec local remote result start) as [->| ->].
      - split; [done|]. split; [by destruct result|]. intros i s Hs. exists s. split; [done|].
        destruct (_ =? _)%nat; [by left|done].
      - split; [apply length_insert|]. split; [done|]. intros i s Hs. simpl.
        destruct (Nat.eqb_spec i start) as [->|Hne].
        + exists (disable s). unfold stream_nth. rewrite Hs. simpl. split; [|by right].
          apply list_lookup_insert_eq. by apply lookup_lt_Some in Hs.
        + exists s. by rewrite list_lookup_insert_ne by done. }
    destruct H1 as (L1 & E1 & H1).
    destruct (IH (S start) r1 ltac:(lia)) as (E & L & H). split; [rewrite E, E1 at 1; done|].
    split; [congruence|]. intros i s Hs. destruct (H1 i s Hs) as (s1 & Hs1 & R1).
    destruct (H i s1 Hs1) as (s2 & Hs2 & R2). exists s2. split; [done|].
    destruct (Nat.eqb_spec i start) as [->|Hne].
    + rewrite Nat.ltb_irrefl. replace (start <? S start)%nat with true in R2 by (symmetry; apply Nat.ltb_lt; lia).
      by subst.
    + subst s1. destruct (Nat.ltb_spec i start).
      * by replace (i <? S start)%nat with true in R2 by (symmetry; apply Nat.ltb_lt; lia).
      * by replace (i <? S start)%nat with false in R2 by (symmetry; apply Nat.ltb_ge; lia).
Qed.

Lemma verifyBundles_spec local remote result :
  verifyBundles local remote result = result <| md_streams := md_streams (verifyBundles local remote result) |> /\
  Forall2 kept_or_disabled (md_streams result) (md_streams (verifyBundles local remote result)).
Proof.
  unfold verifyBundles. destruct (verifyBundles_fold local remote (length (md_streams result)) 0 result eq_refl) as (E & L & H).
  split; [done|]. apply Forall2_same_length_lookup_2; [done|].
  intros i s s' Hs Hs'. destruct (H i s Hs) as (s2 & Hs2 & R). simpl in R. congruence.
Qed.

Lemma getMid_alter_self s : getMid (alter_chosen (fun c => c) s) = getMid s.
Proof. unfold getMid. by rewrite getChosen_alter. Qed.

Lemma bundle_streams_cons s streams bundles :
  (length bundles <= 1)%nat -> getMid s <> EmptyString ->
  bundle_streams (s :: streams) bundles =
    let '(b, cfg) := addStream (hd [] bundles) (getChosenConfiguration s) (getMid s) in
    let '(rest, bundles') := bundle_streams streams [b] in
    (alter_chosen (fun _ => cfg) s :: rest, bundles').
Proof.
  intros Hb Hm. cbn [bundle_streams]. rewrite (proj2 (str_empty_false _) Hm). cbn [negb].
  destruct bundles as [|b [|]]; simpl in Hb; [| |lia]; cbn [hd];
    by destruct (addStream _ (getChosenConfiguration s) (getMid s)).
Qed.

(** [s'] is [s] but for the entries of its configurations other than the chosen
    one. *)
Definition same_chosen (s s' : SalStreamDescription) : Prop :=
  s' = s <| sd_cfgs := sd_cfgs s' |> /\ getChosenConfiguration s' = getChosenConfiguration s.

Lemma same_chosen_mids l l' :
  Forall2 same_chosen l l' -> map getMid l' = map getMid l.
Proof. induction 1 as [|s s' l l' [_ Hs] Hl IH]; simpl; [done|]. unfold getMid at 1 3. by rewrite Hs, IH. Qed.

Lemma same_chosen_alter_id f s : f (getChosenConfiguration s) = getChosenConfiguration s -> same_chosen s (alter_chosen f s).
Proof. intros H. split; [done|]. by rewrite getChosen_alter. Qed.

Lemma bundle_streams_spec streams bundles :
  (length bundles <= 1)%nat ->
  let '(streams', bundles') := bundle_streams streams bundles in
  Forall2 same_chosen streams streams' /\
  (length bundles' <= 1)%nat /\
  (forall b m, bundles = [b] -> m <> EmptyString -> In m b -> exists b', bundles' = [b'] /\ In m b') /\
  forall s, In s streams' -> getMid s <> EmptyString -> exists b', bundles' = [b'] /\ In (getMid s) b'.
Proof.
  revert bundles. induction streams as [|s streams IH]; intros bundles Hb.
  - cbn [bundle_streams]. repeat match goal with |- _ /\ _ => split end; try done. intros b m -> _ Hin. eauto.
  - destruct (str_empty (getMid s)) eqn:Em.
    + cbn [bundle_streams]. rewrite Em. cbn [negb]. specialize (IH bundles Hb). destruct (bundle_streams streams bundles) as [ss bs].
      destruct IH as (H1 & H4 & H5 & H6).
      repeat match goal with |- _ /\ _ => split end; try done; [constructor; [by apply same_chosen_alter_id|done]|].
      intros t [<-|Hin] Ht; [|by apply H6]. rewrite getMid_alter_self in Ht. by apply str_empty_spec in Em.
    + apply str_empty_false in Em. rewrite (bundle_streams_cons _ _ _ Hb Em).
      set (b0 := hd [] bundles). assert (Hb0 : forall b, bundles = [b] -> b0 = b) by (by intros b ->).
      pose proof (addStream_spec b0 (getChosenConfiguration s) (getMid s)) as (A1 & A2 & A3).
      destruct (addStream b0 (getChosenConfiguration s) (getMid s)) as [b1 cfg]. simpl in A1, A2, A3.
      specialize (IH [b1] (Nat.le_refl 1)). destruct (bundle_streams streams [b1]) as [ss bs].
      destruct IH as (H1 & H4 & H5 & H6).
      assert (Hmid : getMid (alter_chosen (fun _ => cfg) s) = getMid s) by (unfold getMid at 1; by rewrite getChosen_alter, A1).
      repeat match goal with |- _ /\ _ => split end; try done.
      * constructor; [|done]. apply same_chosen_alter_id. rewrite A1. unfold getMid. by destruct (getChosenConfiguration s).
      * intros b m Hbm Hm Hin. apply (H5 b1 m eq_refl Hm), A3; [done|]. by rewrite (Hb0 b Hbm).
      * intros t [<-|Hin] Ht; [|by apply H6]. rewrite Hmid. by apply (H5 b1 (getMid s) eq_refl).
Qed.

(** ** Theorems *)

Lemma answers_line_kept {lib : MediaLib} engine offer s s' :
  answers_line engine offer s -> kept_or_disabled s s' -> answers_line engine offer s'.
Proof. intros H [->| ->]; [done|by apply answers_line_disabled]. Qed.

Lemma answers_line_same {lib : MediaLib} engine offer s s' :
  answers_line engine offer s -> same_chosen s s' -> answers_line engine offer s'.
Proof. intros H [E C]. eapply answers_line_chosen; [..|exact H]; [by rewrite E..|done]. Qed.

Section InitiateIncoming.
Context {lib : MediaLib} (libspec : MediaLibSpec lib) (prov : ProvidersSound lib) (engine : OfferAnswerEngine).

Lemma lookup_stream_nth md i s : md_streams md !! i = Some s -> stream_nth i md = s.
Proof. unfold stream_nth. by intros ->. Qed.

Lemma answers_all_streams ro streams :
  Forall2 (fun i s => answers_line engine (stream_nth i ro) s) (seq 0 (length (md_streams ro))) streams ->
  Forall2 (answers_line engine) (md_streams ro) streams.
Proof.
  intros H. pose proof (Forall2_length _ _ _ H) as Hl. rewrite length_seq in Hl.
  apply Forall2_same_length_lookup_2; [done|]. intros i s s' Hs Hs'.
  rewrite <- (lookup_stream_nth _ _ _ Hs). eapply Forall2_lookup_lr in H; [exact H| |exact Hs'].
  apply lookup_seq. split; [done|]. by apply lookup_lt_Some in Hs.
Qed.

Lemma initiateIncoming_spec lc ro :
  streams_wf lc -> streams_wf ro ->
  let '(answer, lc', ro') := initiateIncoming engine lc ro in
  answers engine ro answer /\ desc_frame lc lc' /\ desc_frame ro ro' /\
  (length (md_bundles answer) <= 1)%nat /\
  forall s, In s (md_streams answer) -> getMid s <> EmptyString ->
    exists b, md_bundles answer = [b] /\ In (getMid s) b.
Proof.
  intros Hl Hr. unfold initiateIncoming. cbv zeta.
  set (r0 := if (md_record ro <>e SalMediaRecordNone) && _ then _ else _).
  pose proof (incoming_turns_spec libspec prov engine (capabilityNegotiationSupported (md_params r0))
    (seq 0 (length (md_streams ro))) lc ro ltac:(apply NoDup_seq) Hl Hr) as H.
  destruct (incoming_turns engine _ _ lc ro) as [[streams lc'] ro'].
  destruct H as (Ha & Hi & Fl & Fr). apply answers_all_streams in Ha.
  assert (Ht : md_times ro' = md_times ro) by (by destruct Fr as [-> _]).
  set (r1 := if xr_enabled (md_rtcp_xr ro') then _ else _).
  assert (Hr1 : md_streams r1 = streams /\ md_times r1 = md_times ro' /\ md_bundles r1 = []).
  { subst r1 r0. by repeat case_match. }
  clearbody r1. destruct Hr1 as (E1 & E2 & E3). rewrite E1, E3.
  pose proof (bundle_streams_spec streams [] (Nat.le_0_l _)) as H.
  destruct (bundle_streams streams []) as [streams' bundles]. destruct H as (Hs & Hb & _ & Hin).
  match goal with |- context [verifyBundles lc' ro' ?r] => pose proof (verifyBundles_spec lc' ro' r) as [Ev Hv] end.
  cbn [md_streams] in Hv.
  match type of Hv with Forall2 _ ?l _ => replace l with streams' in Hv by done end.
  split; [|split; [done|split; [done|]]].
  - split.
    + eapply Forall2_compose; [apply answers_line_kept|..]; [|exact Hv].
      eapply Forall2_compose; [apply answers_line_same|exact Ha|exact Hs].
    + rewrite Ev. simpl. by rewrite E2.
    + eapply (Forall_transfer (fun s => sd_cfgIndex s = actualConfigurationIndex)); [|exact Hv|by intros s s' Hx [->| ->]].
      eapply Forall_transfer; [exact Hi|exact Hs|]. intros s s' Hx [Es _]. by rewrite Es.
  - split; [by rewrite Ev|]. intros s Hs' Hm. rewrite Ev. simpl.
    apply list_elem_of_In, list_elem_of_lookup_1 in Hs' as [i Hi'].
    destruct (Forall2_lookup_r _ _ _ _ _ Hv Hi') as (s0 & Hs0 & [->| ->]); [|by rewrite disable_mid in Hm].
    apply Hin; [|done]. by eapply list_elem_of_In, list_elem_of_lookup_2.
Qed.
End InitiateIncoming.

Section InitiateOutgoing.
Context {lib : MediaLib} (libspec : MediaLibSpec lib) (prov : ProvidersSound lib) (engine : OfferAnswerEngine).

Lemma outgoing_rtcp_agrees ls rs multicast offered answered c :
  agreed_cfg engine multicast offered answered c ->
  agreed_cfg engine multicast offered answered (outgoing_rtcp ls rs c).
Proof. apply agreed_cfg_ext; unfold outgoing_rtcp; cbv zeta; by repeat case_match. Qed.

Lemma outgoing_stream_spec cap ls rs :
  cfg_map_wf (sd_cfgs ls) ->
  let '(s, ls', rs') := outgoing_stream engine cap ls rs in
  stream_frame ls ls' /\ rs' = rs <| sd_cfgIndex := sd_cfgIndex rs' |> /\
  sd_cfgIndex s = actualConfigurationIndex /\ (enabled s = true -> agrees_line engine ls rs s).
Proof.
  intros Hls. unfold outgoing_stream.
  destruct ((sd_type rs =e sd_type ls) && areProtoInStreamCompatibles ls rs) eqn:Hc.
  2: { split; [apply stream_frame_refl|]. split; [by destruct rs|]. by split. }
  apply andb_true_iff in Hc as [Ht _]. apply bool_decide_eq_true in Ht.
  pose proof (initiateOutgoingStream_outcome engine ls rs cap Hls) as H.
  destruct (initiateOutgoingStream engine ls rs cap) as [[s ls'] rs'].
  destruct H as (F & Hrs & Hty & _ & Hi & H). split; [apply F|]. split; [done|]. split; [done|].
  set (c := outgoing_rtcp ls' rs' (getActualConfiguration s)).
  assert (Hch : getChosenConfiguration (addActualConfiguration s c) = c) by (by apply add_actual_chosen).
  destruct H as [(c0 & lo1 & Fo & Ha & Hacc)|[Hen Hp]].
  - intros _. destruct Ha as [Hcfg Hen Haddr _ _ Hmc]. split; try done.
    exists (sd_cfgIndex ls'). rewrite Hch. apply outgoing_rtcp_agrees. rewrite Hcfg.
    by eapply accepted_outgoing_agrees.
  - intros He. exfalso. revert He Hen. unfold enabled, isBundleOnly, getDirection. rewrite Hch. simpl.
    unfold getChosenConfiguration, getChosenConfigurationIndex. rewrite Hi. subst c.
    unfold getActualConfiguration, getActualConfigurationIndex, outgoing_rtcp. cbv zeta.
    repeat case_match; simpl; congruence.
Qed.

Lemma outgoing_streams_spec cap locals remotes :
  Forall (fun s => cfg_map_wf (sd_cfgs s)) locals ->
  let '(streams, locals', remotes') := outgoing_streams engine cap locals remotes in
  length streams = Nat.min (length locals) (length remotes) /\
  Forall2 stream_frame locals locals' /\
  Forall2 (fun rs rs' => rs' = rs <| sd_cfgIndex := sd_cfgIndex rs' |>) remotes remotes' /\
  Forall (fun s => sd_cfgIndex s = actualConfigurationIndex) streams /\
  forall i o a r, locals !! i = Some o -> remotes !! i = Some a -> streams !! i = Some r ->
    enabled r = true -> agrees_line engine o a r.
Proof.
  assert (R1 : forall l, Forall2 stream_frame l l) by (intros; apply Forall2_refl_rel, stream_frame_refl).
  assert (R2 : forall l : list SalStreamDescription, Forall2 (fun rs rs' => rs' = rs <| sd_cfgIndex := sd_cfgIndex rs' |>) l l)
    by (intros; apply Forall2_refl_rel; by intros []).
  revert remotes. induction locals as [|ls locals IH]; intros [|rs remotes] Hl; cbn [outgoing_streams];
    try (split; [done|split; [done|split; [done|split; [constructor|intros i ????? Hi; by destruct i]]]]).
  inversion Hl as [|? ? Hls Hl']; subst. pose proof (outgoing_stream_spec cap ls rs Hls) as H.
  destruct (outgoing_stream engine cap ls rs) as [[s ls'] rs']. destruct H as (F & Er & Hi & Ha).
  specialize (IH remotes Hl'). destruct (outgoing_streams engine cap locals remotes) as [[ss locals'] remotes'].
  destruct IH as (Hn & Fl & Fr & His & Hag). split; [simpl; by rewrite Hn|].
  split; [by constructor|]. split; [by constructor|]. split; [by constructor|].
  intros [|i] o a r; simpl; [intros [= <-] [= <-] [= <-]; exact Ha|apply Hag].
Qed.

Lemma agrees_line_same o a r r' :
  agrees_line engine o a r -> same_chosen r r' -> agrees_line engine o a r'.
Proof. intros [] [E C]. split; rewrite ?C; try done; rewrite E; done. Qed.

Lemma enabled_same r r' : same_chosen r r' -> enabled r' = enabled r.
Proof. intros [E C]. unfold enabled, isBundleOnly, getDirection. rewrite C. by rewrite E. Qed.

(** Bundling and verifying the bundles keep the lines that stay enabled. *)
Lemma agreed_lines_kept (locals remotes l l1 l2 : list SalStreamDescription) :
  Forall2 same_chosen l l1 -> Forall2 kept_or_disabled l1 l2 ->
  (forall i o a r, locals !! i = Some o -> remotes !! i = Some a -> l !! i = Some r ->
     enabled r = true -> agrees_line engine o a r) ->
  forall i o a r, locals !! i = Some o -> remotes !! i = Some a -> l2 !! i = Some r ->
     enabled r = true -> agrees_line engine o a r.
Proof.
  intros H1 H2 H i o a r Ho Ha Hr He.
  destruct (Forall2_lookup_r _ _ _ _ _ H2 Hr) as (r1 & Hr1 & [->| ->]).
  2: { by rewrite disable_not_enabled in He. }
  destruct (Forall2_lookup_r _ _ _ _ _ H1 Hr1) as (r0 & Hr0 & Hs).
  eapply agrees_line_same; [|exact Hs]. eapply H; [done..|]. by rewrite <- (enabled_same _ _ Hs).
Qed.

Lemma initiateOutgoing_spec lo ra :
  streams_wf lo ->
  let '(result, lo', ra') := initiateOutgoing engine lo ra in
  agrees engine lo ra result /\
  lo' = lo <| md_streams := md_streams lo' |> /\ Forall2 stream_frame (md_streams lo) (md_streams lo') /\
  ra' = ra <| md_streams := md_streams ra' |> /\
  Forall2 (fun rs rs' => rs' = rs <| sd_cfgIndex := sd_cfgIndex rs' |>) (md_streams ra) (md_streams ra').
Proof.
  intros Hl. unfold initiateOutgoing. cbv zeta.
  pose proof (outgoing_streams_spec (capabilityNegotiationSupported (md_params (media_of_params (md_params lo))))
    _ (md_streams ra) Hl) as H.
  destruct (outgoing_streams engine _ (md_streams lo) (md_streams ra)) as [[streams locals] remotes].
  destruct H as (Hn & Fl & Fr & _ & Hag).
  set (lo' := lo <| md_streams := locals |>). set (ra' := ra <| md_streams := remotes |>).
  set (r1 := if xr_enabled (md_rtcp_xr lo') && _ then _ else _).
  assert (Hr1 : md_streams r1 = streams /\ md_times r1 = md_times lo /\ md_bundles r1 = [])
    by (subst r1; by destruct (_ && _)).
  clearbody r1. destruct Hr1 as (E1 & E2 & E3).
  set (r2 := if negb (is_nil (md_bundles lo')) && _ then _ else r1).
  assert (Hr2 : Forall2 same_chosen streams (md_streams r2) /\ md_times r2 = md_times lo).
  { subst r2. destruct (_ && _).
    - rewrite E1, E3. pose proof (bundle_streams_spec streams [] (Nat.le_0_l _)) as Hb.
      destruct (bundle_streams streams []) as [ss bs]. by destruct Hb as [Hb _].
    - rewrite E1. split; [|done]. apply Forall2_refl_rel. intros s. split; [by destruct s|done]. }
  clearbody r2. destruct Hr2 as (Hs & E4).
  destruct (verifyBundles_spec lo' ra' r2) as [Ev Hv].
  set (r3 := if (md_record lo' <>e SalMediaRecordNone) && _ then _ else _).
  assert (Hr3 : md_streams r3 = md_streams (verifyBundles lo' ra' r2) /\ md_times r3 = md_times r2).
  { subst r3. destruct (_ && _); (split; [done|]); by rewrite Ev. }
  clearbody r3. destruct Hr3 as (E5 & E6).
  split; [|done]. split.
  - rewrite E5, <- (Forall2_length _ _ _ Hv), <- (Forall2_length _ _ _ Hs). exact Hn.
  - rewrite E5. by eapply agreed_lines_kept.
  - by rewrite E6.
Qed.
End InitiateOutgoing.

(** ** Properties *)

(** C1. Answering an offer: the answer has exactly the media lines of the offer,
    in its order and with its time line; each line is refused with port 0 and no
    direction, or is made from one of the configurations the line offers: codecs
    of the offer under agreed numbers, a direction the offer allows, a
    compatible transport, RTCP multiplexing only where offered and, for SRTP, one
    algorithm of the offer with its tag. *)
Theorem answer_refines_rfc3264 (lib : MediaLib) (libspec : MediaLibSpec lib) (prov : ProvidersSound lib)
    engine local_capabilities remote_offer :
  streams_wf local_capabilities -> streams_wf remote_offer ->
  answers engine remote_offer (initiateIncoming engine local_capabilities remote_offer).1.1.
Proof.
  intros Hl Hr. pose proof (initiateIncoming_spec libspec prov engine local_capabilities remote_offer Hl Hr) as H.
  destruct (initiateIncoming engine local_capabilities remote_offer) as [[answer lc'] ro']. apply H.
Qed.

Lemma ex_wf : streams_wf ex_local /\ streams_wf ex_remote.
Proof. split; repeat constructor; vm_compute; congruence. Qed.

Lemma answer_refines_rfc3264_witness :
  map (fun s => (sd_type s, sd_rtp_port s, getDirection s))
    (md_streams (@initiateIncoming ref_lib default_engine ex_local ex_remote).1.1)
    = [(SalAudio, 7078, SalStreamRecvOnly); (SalVideo, 9078, SalStreamSendRecv); (SalText, 0, SalStreamInactive)] /\
  @answers ref_lib default_engine ex_remote (@initiateIncoming ref_lib default_engine ex_local ex_remote).1.1.
Proof.
  split; [vm_compute; reflexivity|].
  apply (answer_refines_rfc3264 ref_lib ref_lib_spec ref_providers_sound); apply ex_wf.
Defined.



(** Bundles of an answer: there is one at most, and it has the mid of every
    stream of the answer that has one. *)
Theorem answer_single_bundle (lib : MediaLib) (libspec : MediaLibSpec lib) (prov : ProvidersSound lib)
    engine local_capabilities remote_offer :
  streams_wf local_capabilities -> streams_wf remote_offer ->
  let answer := (initiateIncoming engine local_capabilities remote_offer).1.1 in
  (length (md_bundles answer) <= 1)%nat /\
  forall s, In s (md_streams answer) -> getMid s <> EmptyString ->
    exists b, md_bundles answer = [b] /\ In (getMid s) b.
Proof.
  intros Hl Hr. pose proof (initiateIncoming_spec libspec prov engine local_capabilities remote_offer Hl Hr) as H.
  destruct (initiateIncoming engine local_capabilities remote_offer) as [[answer lc'] ro']. apply H.
Qed.

Lemma answer_single_bundle_witness :
  let answer := (@initiateIncoming ref_lib default_engine ex_bundle_local ex_bundle_remote).1.1 in
  map getMid (md_streams answer) = ["as"; "vs"] /\
  (length (md_bundles answer) <= 1)%nat /\
  forall s, In s (md_streams answer) -> getMid s <> EmptyString ->
    exists b, md_bundles answer = [b] /\ In (getMid s) b.
Proof.
  split; [vm_compute; reflexivity|].
  apply (answer_single_bundle ref_lib ref_lib_spec ref_providers_sound); repeat constructor; vm_compute; congruence.
Defined.

(** What a negotiation may write: in the local capabilities and in the offer
    it only touches the index of the chosen configuration, the transports and
    the payload types of the configurations that are already there. *)
Theorem negotiation_frame (lib : MediaLib) (libspec : MediaLibSpec lib) (prov : ProvidersSound lib)
    engine local_capabilities remote_offer :
  streams_wf local_capabilities -> streams_wf remote_offer ->
  let '(_, local', remote') := initiateIncoming engine local_capabilities remote_offer in
  desc_frame local_capabilities local' /\ desc_frame remote_offer remote'.
Proof.
  intros Hl Hr. pose proof (initiateIncoming_spec libspec prov engine local_capabilities remote_offer Hl Hr) as H.
  destruct (initiateIncoming engine local_capabilities remote_offer) as [[answer lc'] ro']. split; apply H.
Qed.

Lemma negotiation_frame_witness :
  let '(_, local', remote') := @initiateIncoming ref_lib default_engine ex_local ex_remote in
  desc_frame ex_local local' /\ desc_frame ex_remote remote'.
Proof. apply (negotiation_frame ref_lib ref_lib_spec ref_providers_sound); apply ex_wf. Defined.

(** Verifying the bundles of a result only disables streams: nothing else of
    the description changes and no stream appears or moves. *)
Theorem verifyBundles_only_disables local remote result :
  verifyBundles local remote result = result <| md_streams := md_streams (verifyBundles local remote result) |> /\
  Forall2 kept_or_disabled (md_streams result) (md_streams (verifyBundles local remote result)).
Proof. apply verifyBundles_spec. Qed.
