(* ===== verification/Exchange.v ===== *)
(** A whole exchange, from the SDP of an offer to the SDP of its answer. *)
From S2P Require Import Prelude Sscanf SalTypes Payload SalStreamConfiguration ReferenceLib PotentialCfgGraph SalStreamBundle SalStreamDescription SalMediaDescription SdpObjects SalSdp StreamSdpReader StreamSdpWriter MediaSdp WrittenLine SessionReading ReferenceSdp OfferAnswerEngine OfferAnswerMatching OfferAnswerNegotiation OfferAnswerSpec OfferAnswerSession.

Section Writing.
Context {lib : MediaLib} {sdp : SdpLib} {ortp : OrtpRtcp} {spec : SdpLibSpec sdp}.

(** ** The media lines of a written session *)

(** The media type and port of a line, which only its creation sets. *)
Definition same_head (m m' : belle_sdp_media_description) : Prop :=
  media_type m' = media_type m /\ media_port m' = media_port m.

Lemma add_created_head m name value : same_head m (add_created m name value).
Proof. unfold add_created. by destruct (belle_sdp_attribute_create name value). Qed.

Lemma fold_head {A} (f : belle_sdp_media_description -> A -> belle_sdp_media_description) l m :
  (forall m x, same_head m (f m x)) -> same_head m (fold_left f l m).
Proof.
  intros H. revert m. induction l as [|x l IH]; intros m; [done|]. cbn [fold_left].
  destruct (H m x) as [E1 E2], (IH (f m x)) as [E3 E4]. split; congruence.
Qed.

Lemma add_cfg_head this m p : same_head m (add_cfg_attribute this m p).
Proof.
  unfold add_cfg_attribute. cbv zeta. destruct (negb (str_empty (getSdpString p.2))); [|done].
  destruct (negb (str_empty _)); [apply add_created_head|done].
Qed.

Lemma write_capabilities_head this md b m : same_head m (write_capabilities this md b m).1.
Proof.
  unfold write_capabilities. destruct (capabilityNegotiationSupported _); [|done]. cbv zeta. cbn [fst].
  match goal with |- same_head _ (fold_left _ _ ?m2) => assert (H2 : same_head m m2); [|set (m2' := m2) in *] end.
  { match goal with |- same_head _ (fold_left _ _ ?m1) => assert (H1 : same_head m m1); [|set (m1' := m1) in *] end.
    { apply fold_head. intros. apply add_created_head. }
    pose proof (fold_head (fun m v => add_created m "tcap" (Some v))
      (tcap_texts (tcapLinesMerged (md_params md)) (sd_tcaps this)) m1' (fun m v => add_created_head m _ _)) as H.
    destruct H, H1. split; congruence. }
  match goal with |- same_head _ (fold_left (add_cfg_attribute ?t) ?l _) =>
    pose proof (fold_head (add_cfg_attribute t) l m2' (add_cfg_head t)) as H end.
  destruct H, H2. split; congruence.
Qed.

Lemma line_head this md s :
  let '(m, s', _) := toSdpMediaDescription this md s in
  media_type m = getTypeAsString this /\ media_port m = sd_rtp_port this /\
  session_media_descriptions s' = session_media_descriptions s.
Proof.
  unfold toSdpMediaDescription. cbv zeta. fold (payload_line this).
  destruct (payload_line_frame this) as (formats & attrs & Hp & _).
  rewrite write_connection_line by by rewrite Hp. fold (writes_feedback this). rewrite feedback_step.
  rewrite write_custom_list, !write_text_list, write_rtcp_xr_list, write_actual_list by done.
  rewrite !with_attributes_app.
  match goal with |- context [write_capabilities ?t md ?b ?m] =>
    pose proof (write_capabilities_head t md b m) as [H1 H2]; destruct (write_capabilities t md b m) as [m' t'] end.
  cbn [fst] in H1, H2. rewrite H1, H2, Hp. split; [by destruct (0 <? sd_bandwidth this)|].
  split; [by destruct (0 <? sd_bandwidth this)|]. unfold line_session. by destruct (_ && _ && _).
Qed.

(** The lines of the streams follow those that were there. *)
Definition written_head (st : SalStreamDescription) (m : belle_sdp_media_description) : Prop :=
  media_type m = getTypeAsString st /\ media_port m = sd_rtp_port st.

Lemma write_streams_lines md streams s :
  exists l, session_media_descriptions (write_streams md streams s).1 = session_media_descriptions s ++ l /\
    Forall2 written_head streams l.
Proof.
  revert s. induction streams as [|st streams IH]; intros s; cbn [write_streams].
  { exists []. rewrite app_nil_r. by split. }
  pose proof (line_head st md s) as Hl. destruct (toSdpMediaDescription st md s) as [[m s1] st1].
  destruct Hl as (H1 & H2 & H3).
  destruct (IH (belle_sdp_session_description_add_media_description s1 m)) as (l & Hl & Hf).
  destruct (write_streams md streams _) as [s2 rest]. exists (m :: l). cbn [fst] in *. split; [|by constructor].
  rewrite Hl. cbn. by rewrite H3, <- app_assoc.
Qed.

Lemma session_created_medias s name value :
  session_media_descriptions (session_add_created s name value) = session_media_descriptions s.
Proof. unfold session_add_created. by destruct (belle_sdp_attribute_create name value). Qed.

Lemma fold_medias {A} (f : belle_sdp_session_description -> A -> belle_sdp_session_description) l s :
  (forall s x, session_media_descriptions (f s x) = session_media_descriptions s) ->
  session_media_descriptions (fold_left f l s) = session_media_descriptions s.
Proof. intros H. revert s. induction l as [|x l IH]; intros s; [done|]. cbn [fold_left]. by rewrite IH, H. Qed.

Lemma write_session_medias md s :
  session_media_descriptions (write_session_attributes md s) = session_media_descriptions s.
Proof.
  unfold write_session_attributes, session_text. cbv zeta.
  assert (Hc : forall (b : bool) name value s, session_media_descriptions (if b then session_add_created s name value else s) =
    session_media_descriptions s) by (intros [] name value s'; [apply session_created_medias|done]).
  assert (Hx : forall (b : bool) a s, session_media_descriptions (if b then belle_sdp_session_description_add_attribute s a else s) =
    session_media_descriptions s) by by intros [].
  destruct (capabilityNegotiationSupported _).
  all: repeat first [rewrite session_created_medias|rewrite Hc|rewrite Hx
    |rewrite fold_medias by (intros; try match goal with |- context [addToSdp ?x] => destruct (addToSdp x) end;
       apply session_created_medias)].
  all: reflexivity.
Qed.

Lemma toSdp_lines md :
  Forall2 written_head (md_streams md) (session_media_descriptions (toSdp md).1).
Proof.
  unfold toSdp. cbv zeta.
  match goal with |- context [write_streams md (md_streams md) ?s] =>
    destruct (write_streams_lines md (md_streams md) s) as (l & Hl & Hf);
    assert (H0 : session_media_descriptions s = []) end.
  { rewrite write_session_medias. destruct new_session_empty as (_ & _ & Hm & _).
    by destruct (0 <? md_bandwidth md), (negb (hasDir md SalStreamInactive) || _). }
  rewrite H0 in Hl. destruct (write_streams md (md_streams md) _) as [s' streams]. cbn [fst] in *. by rewrite Hl.
Qed.
End Writing.

(** ** Properties *)

(** What a media line of an answer has to do with the line of the offer. *)
Definition answers_media {sdp : SdpLib} (offered answered : belle_sdp_media_description) : Prop :=
  media_type answered = tolower (media_type offered) /\
  (media_port answered <> 0 -> 0 < media_port offered \/ media_has offered "bundle-only" = true).

(** C4. Reading the SDP of an offer, answering it and writing the SDP of the
    answer gives exactly one media line for each line of the offer, in order and
    of the same media type, and accepts only lines that are offered: a line with
    port 0 that is not bundle-only is refused with port 0. *)
Theorem sdp_answer_lines (lib : MediaLib) (libspec : MediaLibSpec lib) (prov : ProvidersSound lib)
    (sdp : SdpLib) (spec : SdpLibSpec sdp) (ortp : OrtpRtcp) split engine local offer remote :
  streams_wf local -> SalMediaDescription_of_sdp split offer = Done remote ->
  Forall2 answers_media (session_media_descriptions offer)
    (session_media_descriptions (toSdp (initiateIncoming engine local remote).1.1).1).
Proof.
  intros Hl Hr. apply read_session_streams in Hr as Hs.
  assert (Hw : streams_wf remote).
  { unfold streams_wf. clear -Hs. induction Hs as [|m st ms sts H _ IH]; constructor; [apply (sol_wf m st H)|done]. }
  pose proof (initiateIncoming_spec libspec prov engine local remote Hl Hw) as H.
  destruct (initiateIncoming engine local remote) as [[answer lc'] ro']. destruct H as [[Ha _ _] _]. cbn [fst].
  pose proof (toSdp_lines answer) as Ht. clear -Hs Ha Ht.
  revert Ha Ht. generalize (md_streams answer) as l, (session_media_descriptions (toSdp answer).1) as l'.
  induction Hs as [|o r os rs Hor _ IH]; intros l l' Ha Ht; inversion Ha; subst; inversion Ht; subst; constructor; [|by eapply IH].
  match goal with H : answers_line _ _ ?st, H' : written_head ?st ?m |- _ => destruct H as [Hm Hc], H' as [E1 E2] end.
  split.
  - rewrite E1. injection Hm as _ ->. apply (sol_type o r Hor).
  - intros Hne. destruct Hc as [[Hz _]|[He _]]; [congruence|]. unfold enabled in He.
    apply orb_true_iff in He as [He|He].
    + left. rewrite <- (sol_port o r Hor). by apply Z.ltb_lt.
    + right. apply andb_true_iff in He as [He _]. destruct (sol_bundle_only o r Hor) as (c & Hc & <-).
      unfold isBundleOnly, getChosenConfiguration, getChosenConfigurationIndex in He. rewrite (sol_chosen o r Hor) in He.
      unfold getConfigurationAtIndex in He. by rewrite Hc in He.
Qed.

Definition ex_offer_sdp : belle_sdp_session_description :=
  let line type port formats := fold_left ref_append (map (fun p => mkMimeParameter (Some p.1) p.2 8000 1 None (-1) (-1)) formats)
    (belle_sdp_media_description_create type port 1 "RTP/AVP") in
  mkSessionDescription 0 (mkOrigin None 1 1 "IP4" "198.51.100.7") (Some "Talk")
    (Some (mkConnection "IP4" (Some "198.51.100.7") 0)) [(0, 0)] None []
    [line "Audio" 5000 [("PCMA", 8)]; line "video" 0 [("H264", 97)]; line "application" 5004 [("x", 98)]].

Local Notation ex_read := (@SalMediaDescription_of_sdp ref_lib ref_sdp ref_ortp (fun s _ => [s]) ex_offer_sdp).
Local Notation ex_answer_lines remote :=
  (session_media_descriptions (@toSdp ref_lib ref_sdp ref_ortp (@initiateIncoming ref_lib default_engine ex_local remote).1.1).1).

Lemma sdp_answer_lines_witness :
  exists remote, ex_read = Done remote /\
    map (fun m => (media_type m, media_port m)) (ex_answer_lines remote) = [("audio", 7078); ("video", 0); ("application", 0)] /\
    Forall2 (@answers_media ref_sdp) (session_media_descriptions ex_offer_sdp) (ex_answer_lines remote).
Proof.
  assert (H : match ex_read with
    | Done remote => map (fun m => (media_type m, media_port m)) (ex_answer_lines remote)
    | _ => []
    end = [("audio", 7078); ("video", 0); ("application", 0)]) by (vm_compute; reflexivity).
  destruct ex_read as [remote| |] eqn:E; [|discriminate H|discriminate H]. exists remote. split; [done|]. split; [exact H|].
  exact (sdp_answer_lines ref_lib ref_lib_spec ref_providers_sound ref_sdp ref_sdp_spec ref_ortp _ default_engine
    ex_local _ remote (proj1 ex_wf) E).
Defined.
