(* ===== verification/ChatTypes.v ===== *)
(** * Chat messages: states, addresses and what a message knows

    The states of a chat message and the transitions its state machine allows
    ([chat-message.cpp], [fsm-integrity-checker.h]), the reasons of a failure
    ([linphone/types.h]), and the interface of the addresses: an [Address] wraps
    a belle-sip header, so that its operations are parameters. *)
From S2P Require Import Prelude.

(** ** States of a message ([ChatMessage::State]) *)
Inductive State :=
  | Idle | InProgress | Delivered | NotDelivered | FileTransferError | FileTransferDone
  | DeliveredToUser | Displayed | PendingDelivery | FileTransferInProgress | FileTransferCancelling.

#[export] Instance State_eq_dec : EqDecision State.
Proof. solve_decision. Defined.

(** The number of a state, which is also its value in the database. *)
Definition State_int (s : State) : Z :=
  match s with
  | Idle => 0 | InProgress => 1 | Delivered => 2 | NotDelivered => 3
  | FileTransferError => 4 | FileTransferDone => 5 | DeliveredToUser => 6 | Displayed => 7
  | PendingDelivery => 9 | FileTransferInProgress => 8 | FileTransferCancelling => 10
  end.

Definition State_eqb (a b : State) : bool := State_int a =? State_int b.

Inductive Direction := Incoming | Outgoing.

#[export] Instance Direction_eq_dec : EqDecision Direction.
Proof. solve_decision. Defined.

Definition is_outgoing (d : Direction) : bool := bool_decide (d = Outgoing).

(** ** The state machine *)

(** [chatMessageFsmChecker]: the states that may follow each state. *)
Definition chatMessageFsmChecker : list (State * list State) :=
  [(Idle, [PendingDelivery; InProgress; Delivered; NotDelivered; DeliveredToUser; Displayed;
           FileTransferInProgress; FileTransferError; FileTransferDone]);
   (InProgress, [Delivered; NotDelivered; DeliveredToUser; Displayed; FileTransferInProgress;
                 FileTransferError; FileTransferDone]);
   (Delivered, [InProgress; NotDelivered; DeliveredToUser; Displayed; FileTransferInProgress;
                FileTransferError; FileTransferDone]);
   (PendingDelivery, [Idle; InProgress; Delivered; DeliveredToUser; Displayed;
                      FileTransferInProgress; FileTransferError; FileTransferDone]);
   (NotDelivered, [Idle; InProgress; Delivered; DeliveredToUser; Displayed;
                   FileTransferInProgress; FileTransferError; FileTransferDone]);
   (DeliveredToUser, [InProgress; Displayed; FileTransferInProgress; FileTransferError;
                      FileTransferDone]);
   (Displayed, [InProgress; FileTransferInProgress; FileTransferError; FileTransferDone]);
   (FileTransferCancelling, [NotDelivered; FileTransferError]);
   (FileTransferInProgress, [PendingDelivery; InProgress; NotDelivered; Delivered; DeliveredToUser;
                             Displayed; FileTransferError; FileTransferCancelling;
                             FileTransferDone]);
   (FileTransferError, [InProgress; NotDelivered; Delivered; DeliveredToUser; Displayed;
                        FileTransferInProgress; FileTransferDone]);
   (FileTransferDone, [InProgress; NotDelivered; Delivered; PendingDelivery; DeliveredToUser;
                       Displayed; FileTransferInProgress; FileTransferError])].

(** [FsmIntegrityChecker::isValid], for any map of transitions. *)
Definition isValid {S : Type} `{EqDecision S} (mTransitions : list (S * list S))
    (origin destination : S) : bool :=
  match List.find (fun srcIt => bool_decide (srcIt.1 = origin)) mTransitions with
  | None => false
  | Some srcIt => existsb (fun s => bool_decide (s = destination)) srcIt.2
  end.

Notation transition := (isValid chatMessageFsmChecker).

(** [ChatMessagePrivate::isImdnControlledState] *)
Definition isImdnControlledState (state : State) : bool :=
  State_eqb state Displayed || State_eqb state DeliveredToUser || State_eqb state NotDelivered.

(** ** Reasons of a failure ([LinphoneReason]) *)
Inductive LinphoneReason :=
  | ReasonNone | ReasonNoResponse | ReasonForbidden | ReasonDeclined | ReasonNotFound
  | ReasonNotAnswered | ReasonBusy | ReasonUnsupportedContent | ReasonBadEvent | ReasonIOError
  | ReasonDoNotDisturb | ReasonUnauthorized | ReasonNotAcceptable | ReasonNoMatch
  | ReasonMovedPermanently | ReasonGone | ReasonTemporarilyUnavailable | ReasonAddressIncomplete
  | ReasonNotImplemented | ReasonBadGateway | ReasonSessionIntervalTooSmall
  | ReasonServerTimeout | ReasonUnknown | ReasonTransferred | ReasonConditionalRequestFailed
  | ReasonSasCheckRequired.

#[export] Instance LinphoneReason_eq_dec : EqDecision LinphoneReason.
Proof. solve_decision. Defined.

(** ** Addresses

    An [Address] holds a belle-sip header address; what the chat code does with
    it is comparing, dropping the [gr] parameter, printing it as the database
    stores it, and reading it back. *)
Class AddressLib := {
  Address : Type;
  (** [Address::operator==] *)
  address_equal : Address -> Address -> bool;
  (** [Address::weakEqual]: same user, host and port. *)
  weakEqual : Address -> Address -> bool;
  (** [Address::isValid] *)
  address_isValid : Address -> bool;
  getUriWithoutGruu : Address -> Address;
  toStringUriOnlyOrdered : Address -> string;
  (** [Address::create] on a string. *)
  Address_create : string -> Address;
  (** [Address()], which holds no header. *)
  no_address : Address;
}.

(** ** Facts on the state machine *)

Lemma State_int_inj a b : State_int a = State_int b -> a = b.
Proof. destruct a, b; intros H; first [reflexivity | discriminate H]. Qed.

Lemma State_eqb_spec a b : State_eqb a b = true <-> a = b.
Proof. unfold State_eqb. rewrite Z.eqb_eq. split; [apply State_int_inj|by intros ->]. Qed.

Lemma State_eqb_refl a : State_eqb a a = true.
Proof. by apply State_eqb_spec. Qed.

Lemma State_eqb_ne a b : a <> b -> State_eqb a b = false.
Proof. intros N. apply not_true_iff_false. by rewrite State_eqb_spec. Qed.

(** No state follows itself. *)
Lemma transition_irreflexive s : transition s s = false.
Proof. by destruct s. Qed.

Lemma transition_ne a b : transition a b = true -> a <> b.
Proof. intros H ->. by rewrite transition_irreflexive in H. Qed.

(** What follows a displayed or read message is never an earlier stage of
    delivery. *)
Lemma displayed_final s :
  transition Displayed s = true ->
  s = InProgress \/ s = FileTransferInProgress \/ s = FileTransferError \/ s = FileTransferDone.
Proof. destruct s; intros H; first [discriminate H | tauto]. Qed.

#[export] Hint Rewrite State_eqb_refl transition_irreflexive : sal.
