(* ===== verification/ImdnHandler.v ===== *)
(** * Delivery and display notifications ([chat/notification/imdn.cpp])

    A chat room has one [Imdn] object, which collects the messages the room has
    to acknowledge, waits half a second when aggregation is on, and then makes
    [ImdnMessage]s of them ([ChatRoom::createImdnMessages], [imdn-message.cpp])
    and sends these.

    The handler holds shared pointers on messages: here a message is a number,
    and [info] gives what the message holds when it is read.  The XML of a
    notification is generated code; a content is the data it is made from. *)
From S2P Require Import Prelude ChatTypes.

Section Handler.
Context `{AddressLib}.

(** ** Data *)

(** What a notification reads of the message it is about. *)
Record MessageInfo := {
  mi_imdnMessageId : string;
  mi_time : Z;
  mi_fromAddress : Address;
  mi_direction : Direction;
  (** [getParticipantsState().size()] *)
  mi_participants : Z;
}.

(** [Imdn::MessageReason] *)
Record MessageReason := { mr_message : nat; mr_reason : LinphoneReason }.

Inductive ImdnType := DeliveryType | DisplayType.

(** The content of a notification: the arguments of [Imdn::createXml]. *)
Record ImdnContent := {
  ic_message : nat;
  ic_imdnMessageId : string;
  ic_time : Z;
  ic_type : ImdnType;
  ic_reason : LinphoneReason;
}.

(** [ImdnMessagePrivate::Context], with the room the message is sent in and the
    contents the constructor makes. *)
Record ImdnMessage := {
  im_id : nat;
  im_peer : Address;
  im_deliveredMessages : list nat;
  im_displayedMessages : list nat;
  im_nonDeliveredMessages : list MessageReason;
  im_contents : list ImdnContent;
  im_encryptionPrevented : bool;
}.

Record Imdn := mkImdn {
  deliveredMessages : list nat;
  displayedMessages : list nat;
  nonDeliveredMessages : list MessageReason;
  sentImdnMessages : list ImdnMessage;
  (** Is the timer running? *)
  timer : bool;
  aggregationAllowed : bool;
  (** The number the next [ImdnMessage] gets. *)
  next_imdn : nat;
}.

#[global] Instance eta_Imdn : Eta Imdn := fun h =>
  mkImdn (deliveredMessages h) (displayedMessages h) (nonDeliveredMessages h) (sentImdnMessages h)
    (timer h) (aggregationAllowed h) (next_imdn h).

(** What the room and the core tell the handler. *)
Record ImdnEnv := {
  canHandleCpim : bool;
  canHandleMultipart : bool;
  isGroup : bool;
  (** [ChatRoom::getPeerAddress] *)
  peerAddress : option Address;
  (** [Core::getImdnToEverybodyThreshold] *)
  imdnToEverybodyThreshold : Z;
  core_alive : bool;
  send_imdn_if_unregistered : bool;
  (** The state of the related proxy configuration: is it registered? *)
  relatedProxyConfig : option bool;
  networkReachable : bool;
}.

Context (env : ImdnEnv).
Variable info : nat -> MessageInfo.

(** ** Making the messages *)

(** [ChatRoom::getImdnChatRoomPeerAddress] *)
Definition getImdnChatRoomPeerAddress (message : nat) : Address :=
  let m := info message in
  let peer :=
    if negb (isGroup env) || (mi_participants m <=? imdnToEverybodyThreshold env)
    then peerAddress env
    else match mi_direction m with Incoming => Some (mi_fromAddress m) | Outgoing => None end in
  match peer with Some a => getUriWithoutGruu a | None => no_address end.

(** The loops of the constructor: a message without a Message-ID is skipped. *)
Definition imdn_content (type : ImdnType) (reason : LinphoneReason) (message : nat)
    : option ImdnContent :=
  let m := info message in
  if str_empty (mi_imdnMessageId m) then None
  else Some {| ic_message := message; ic_imdnMessageId := mi_imdnMessageId m; ic_time := mi_time m;
               ic_type := type; ic_reason := reason |}.

Definition ImdnMessage_make (id : nat) (peer : Address) (delivered displayed : list nat)
    (nonDelivered : list MessageReason) : ImdnMessage :=
  {| im_id := id; im_peer := peer;
     im_deliveredMessages := delivered; im_displayedMessages := displayed;
     im_nonDeliveredMessages := nonDelivered;
     im_contents :=
       omap (imdn_content DeliveryType ReasonNone) delivered ++
       omap (imdn_content DisplayType ReasonNone) displayed ++
       omap (fun mr => imdn_content DeliveryType (mr_reason mr) (mr_message mr)) nonDelivered;
     im_encryptionPrevented := match nonDelivered with [] => false | _ => true end |}.

(** [messagesByImdnChatRoom[peer]]: a [std::map] on addresses, ordered by their
    text; [f] changes the entry of a peer, made from [dflt] when it is new. *)
Fixpoint by_room_alter {V} (dflt : V) (f : V -> V) (peer : Address) (m : list (Address * V))
    : list (Address * V) :=
  match m with
  | [] => [(peer, f dflt)]
  | (a, v) :: m' =>
      match String.compare (toStringUriOnlyOrdered peer) (toStringUriOnlyOrdered a) with
      | Eq => (a, f v) :: m'
      | Lt => (peer, f dflt) :: m
      | Gt => (a, v) :: by_room_alter dflt f peer m'
      end
  end.

(** One round of the loops that group messages by the room of their peer. *)
Definition group_by_room {V M} (dflt : V) (add : M -> V -> V) (message_of : M -> nat)
    (m : list (Address * V)) (x : M) : list (Address * V) :=
  let peer := getImdnChatRoomPeerAddress (message_of x) in
  if address_isValid peer then by_room_alter dflt (add x) peer m else m.

(** A [list<shared_ptr<ImdnMessage>>] from the arguments of their constructors,
    numbered from [id]. *)
Definition number_messages (id : nat)
    (args : list (Address * (list nat * list nat * list MessageReason))) : list ImdnMessage :=
  imap (fun i arg => let '(peer, (dl, ds, nd)) := arg in ImdnMessage_make (id + i) peer dl ds nd) args.

Definition add_delivered (x : nat) (p : list nat * list nat) := (p.1 ++ [x], p.2).
Definition add_displayed (x : nat) (p : list nat * list nat) := (p.1, p.2 ++ [x]).

(** The room of one message, when its peer is known. *)
Definition alone {M V} (message_of : M -> nat) (mk : M -> V) (x : M) : option (Address * V) :=
  let peer := getImdnChatRoomPeerAddress (message_of x) in
  if address_isValid peer then Some (peer, mk x) else None.

(** [ChatRoom::createImdnMessages] for delivered and displayed messages. *)
Definition createImdnMessages (delivered displayed : list nat) (aggregate : bool)
    : list (Address * (list nat * list nat * list MessageReason)) :=
  if aggregate then
    let m := fold_left (group_by_room ([], []) add_delivered id) delivered [] in
    let m := fold_left (group_by_room ([], []) add_displayed id) displayed m in
    map (fun e => (e.1, (e.2.1, e.2.2, []))) m
  else
    omap (alone id (fun x => ([x], [], []))) delivered ++
    omap (alone id (fun x => ([], [x], []))) displayed.

(** [ChatRoom::createImdnMessages] for messages that could not be delivered. *)
Definition createErrorImdnMessages (nonDelivered : list MessageReason) (aggregate : bool)
    : list (Address * (list nat * list nat * list MessageReason)) :=
  if aggregate then
    let m := fold_left (group_by_room [] (fun mr l => l ++ [mr]) mr_message) nonDelivered [] in
    map (fun e => (e.1, ([], [], e.2))) m
  else omap (alone mr_message (fun mr => ([], [], [mr]))) nonDelivered.

(** ** Sending *)

Definition aggregationEnabled (h : Imdn) : bool :=
  canHandleCpim env && canHandleMultipart env && aggregationAllowed h.

(** The conditions of [Imdn::send] on the account and the network. *)
Definition can_send : bool :=
  core_alive env &&
  (send_imdn_if_unregistered env ||
   (match relatedProxyConfig env with Some registered => registered | None => false end &&
    networkReachable env)).

Definition is_nil {A} (l : list A) : bool := match l with [] => true | _ => false end.

(** The messages [Imdn::send] makes.  [imdnMessages] is assigned twice when
    both kinds of notifications are pending. *)
Definition imdn_to_send (h : Imdn) : list (Address * (list nat * list nat * list MessageReason)) :=
  let imdnMessages :=
    if negb (is_nil (deliveredMessages h)) || negb (is_nil (displayedMessages h))
    then createImdnMessages (deliveredMessages h) (displayedMessages h) (aggregationEnabled h)
    else [] in
  if negb (is_nil (nonDeliveredMessages h))
  then createErrorImdnMessages (nonDeliveredMessages h) (aggregationEnabled h)
  else imdnMessages.

(** [Imdn::send]: the handler afterwards and the messages given to
    [sendChatMessage]. *)
Definition send (h : Imdn) : Imdn * list ImdnMessage :=
  if is_nil (deliveredMessages h) && is_nil (displayedMessages h) && is_nil (nonDeliveredMessages h)
  then (h, [])
  else if negb can_send then (h, [])
  else
    let messages := number_messages (next_imdn h) (imdn_to_send h) in
    let sent := List.filter (fun m => negb (is_nil (im_contents m))) messages in
    (h <| deliveredMessages := [] |> <| displayedMessages := [] |> <| nonDeliveredMessages := [] |>
       <| sentImdnMessages := sentImdnMessages h ++ sent |>
       <| next_imdn := (next_imdn h + length messages)%nat |>, sent).

(** [Imdn::startTimer] *)
Definition startTimer (h : Imdn) : Imdn * list ImdnMessage :=
  if negb (aggregationEnabled h) then send h else (h <| timer := true |>, []).

(** [Imdn::stopTimer] *)
Definition stopTimer (h : Imdn) : Imdn := h <| timer := false |>.

(** ** Notifications of one message *)

Definition has_message (m : nat) (l : list nat) : bool := existsb (Nat.eqb m) l.

Definition notifyDelivery (message : nat) (h : Imdn) : Imdn * list ImdnMessage :=
  if has_message message (deliveredMessages h) then (h, [])
  else startTimer (h <| deliveredMessages := deliveredMessages h ++ [message] |>).

Definition notifyDeliveryError (message : nat) (reason : LinphoneReason) (h : Imdn)
    : Imdn * list ImdnMessage :=
  if has_message message (map mr_message (nonDeliveredMessages h)) then (h, [])
  else startTimer (h <| nonDeliveredMessages :=
                     nonDeliveredMessages h ++ [{| mr_message := message; mr_reason := reason |}] |>).

(** [list.erase(find(...))]: the first occurrence only. *)
Fixpoint erase_first (m : nat) (l : list nat) : list nat :=
  match l with
  | [] => []
  | x :: l' => if Nat.eqb m x then l' else x :: erase_first m l'
  end.

Definition notifyDisplay (message : nat) (h : Imdn) : Imdn * list ImdnMessage :=
  let h := h <| deliveredMessages := erase_first message (deliveredMessages h) |> in
  if has_message message (displayedMessages h) then (h, [])
  else startTimer (h <| displayedMessages := displayedMessages h ++ [message] |>).

(** ** Events *)

(** [list.remove(value)]: every occurrence. *)
Definition remove_all (m : nat) (l : list nat) : list nat :=
  List.filter (fun x => negb (Nat.eqb m x)) l.

Definition remove_reason (mr : MessageReason) (l : list MessageReason) : list MessageReason :=
  List.filter (fun x => negb (Nat.eqb (mr_message mr) (mr_message x) &&
                              bool_decide (mr_reason mr = mr_reason x))) l.

Definition remove_sent (message : ImdnMessage) (h : Imdn) : list ImdnMessage :=
  List.filter (fun x => negb (Nat.eqb (im_id message) (im_id x))) (sentImdnMessages h).

(** [Imdn::onImdnMessageDelivered]; the flags it clears in the database belong
    to the acknowledged messages. *)
Definition onImdnMessageDelivered (message : ImdnMessage) (h : Imdn) : Imdn :=
  h <| deliveredMessages := fold_left (fun l m => remove_all m l) (im_deliveredMessages message) (deliveredMessages h) |>
    <| displayedMessages := fold_left (fun l m => remove_all m l) (im_displayedMessages message) (displayedMessages h) |>
    <| nonDeliveredMessages :=
         fold_left (fun l m => remove_reason m l) (im_nonDeliveredMessages message) (nonDeliveredMessages h) |>
    <| sentImdnMessages := remove_sent message h |>.

Definition onImdnMessageNotDelivered (message : ImdnMessage) (h : Imdn) : Imdn :=
  h <| sentImdnMessages := remove_sent message h |>.

Definition isCurrentlySendingImdnMessages (h : Imdn) : bool :=
  if negb (send_imdn_if_unregistered env) &&
     negb (match relatedProxyConfig env with Some registered => registered | None => false end)
  then false
  else timer h || negb (is_nil (sentImdnMessages h)).

Definition onLinphoneCoreStop (h : Imdn) : Imdn :=
  h <| deliveredMessages := [] |> <| displayedMessages := [] |> <| nonDeliveredMessages := [] |>
    <| sentImdnMessages := [] |>.

(** [Imdn::onRegistrationStateChanged]: [ok] when the account of the room is
    now registered. *)
Definition onRegistrationStateChanged (ok : bool) (h : Imdn) : Imdn * list ImdnMessage :=
  if ok then send (h <| sentImdnMessages := [] |>) else (h, []).

Definition onNetworkReachable (sipNetworkReachable : bool) (h : Imdn) : Imdn * list ImdnMessage :=
  if sipNetworkReachable && match relatedProxyConfig env with None => true | Some _ => false end
  then send (h <| sentImdnMessages := [] |>) else (h, []).

(** [Imdn::onGlobalStateChanged]: [shutdown] for [LinphoneGlobalShutdown]. *)
Definition onGlobalStateChanged (shutdown : bool) (h : Imdn) : Imdn * list ImdnMessage :=
  if shutdown then send (stopTimer h) else (h, []).

Definition timerExpired (h : Imdn) : Imdn * list ImdnMessage := send (stopTimer h).

End Handler.
