(* ===== verification/ChatMessage.v ===== *)
(** * A chat message ([chat/chat-message/chat-message.cpp])

    The state of one message, the rows the database keeps for it
    ([db/main-db.cpp]), and the operations that change the state:
    [setParticipantState] and [setState], which call each other, and what calls
    them.  Everything one of them reads or writes is in a [World]: the message,
    its database rows, the notification handler of its room, and a log of what
    the application, the listeners and the network are told. *)
From S2P Require Import Prelude ChatTypes ImdnHandler.

Section Message.
Context `{AddressLib}.

(** ** Data *)

(** A file content, the part of a [FileContent] that changes here. *)
Record FileContent := { fc_name : string; fc_relatedChatMessageId : string }.

(** A content of a message: [isFileTransfer()] tells a [FileTransferContent],
    which may have the [FileContent] it was made from. *)
Inductive Content :=
  | OtherContent (body : string)
  | AFileContent (file : FileContent)
  | FileTransferContent (fileContent : option FileContent).

Definition isFileTransfer (c : Content) : bool :=
  match c with FileTransferContent _ => true | _ => false end.

(** A row of the table [chat_message_participant]. *)
Record ParticipantRow := mkRow {
  pr_address : string;
  pr_state : State;
  pr_time : Z;
}.

#[global] Instance eta_ParticipantRow : Eta ParticipantRow := fun r =>
  mkRow (pr_address r) (pr_state r) (pr_time r).

(** The rows of a message: [conference_chat_message_event], its contents, its
    participants and its ephemeral event. *)
Record EventRow := mkEventRow {
  ev_state : State;
  ev_imdnMessageId : string;
  ev_markedAsRead : bool;
  ev_contents : list Content;
  ev_participants : list ParticipantRow;
  ev_expiredTime : option Z;
}.

#[global] Instance eta_EventRow : Eta EventRow := fun r =>
  mkEventRow (ev_state r) (ev_imdnMessageId r) (ev_markedAsRead r) (ev_contents r)
    (ev_participants r) (ev_expiredTime r).

(** The members of [ChatMessagePrivate] and [ChatMessage] the state operations
    use.  [salOp] is the reason in the error information of the operation. *)
Record ChatMessage := mkMessage {
  state : State;
  direction : Direction;
  storageId : Z;
  imdnId : string;
  time : Z;
  fromAddress : Address;
  mMeAddress : Address;
  contents : list Content;
  contentsNotLoadedFromDatabase : bool;
  isReadOnly : bool;
  markedAsRead : bool;
  mAutomaticallyResent : bool;
  positiveDeliveryNotificationRequired : bool;
  negativeDeliveryNotificationRequired : bool;
  displayNotificationRequired : bool;
  isEphemeral : bool;
  ephemeralLifetime : Z;
  ephemeralExpireTime : Z;
  isInAggregationQueue : bool;
  isAutoDownloadAttachedFilesInProgress : bool;
  salOp : option LinphoneReason;
  mResendTimer : bool;
  listeners : list nat;
}.

#[global] Instance eta_ChatMessage : Eta ChatMessage := fun m =>
  mkMessage (state m) (direction m) (storageId m) (imdnId m) (time m) (fromAddress m) (mMeAddress m)
    (contents m) (contentsNotLoadedFromDatabase m) (isReadOnly m) (markedAsRead m)
    (mAutomaticallyResent m) (positiveDeliveryNotificationRequired m)
    (negativeDeliveryNotificationRequired m) (displayNotificationRequired m) (isEphemeral m)
    (ephemeralLifetime m) (ephemeralExpireTime m) (isInAggregationQueue m)
    (isAutoDownloadAttachedFilesInProgress m) (salOp m) (mResendTimer m) (listeners m).

(** [ChatParams::Backend] *)
Inductive Backend := Basic | FlexisipChat.

#[global] Instance Backend_eq_dec : EqDecision Backend.
Proof. solve_decision. Defined.

(** The room of the message, the policy and the configuration of the core. *)
Record ChatRoom := {
  backend : Backend;
  (** [Capabilities::Basic] and [Capabilities::Conference] *)
  capability_basic : bool;
  capability_conference : bool;
  (** The address of [getMe()]. *)
  room_me : Address;
  (** The addresses of the participants of the conference. *)
  room_participants : list Address;
  send_imdn_delivered : bool;
  send_imdn_delivery_error : bool;
  send_imdn_displayed : bool;
  (** [misc/enable_simple_group_chat_message_state] *)
  enable_simple_group_chat_message_state : bool;
  (** [linphone_core_conference_server_enabled] *)
  conference_server_enabled : bool;
  (** [ms_time(nullptr)] and [std::time(nullptr)] *)
  now : Z;
  room_imdn : ImdnEnv;
  (** What the other messages of the room hold. *)
  other_messages : nat -> MessageInfo;
  (** The number of the message in the handler. *)
  self : nat;
  (** How many of the other messages of the room the database has as unread. *)
  other_unread : Z;
}.

Definition basicBackend (room : ChatRoom) : bool := bool_decide (backend room = Basic).

(** What the code tells the outside, in order. *)
Inductive Event :=
  (** The [msg_state_changed] callbacks and the listeners. *)
  | StateChanged (s : State) (told : list nat)
  (** The [participant_imdn_state_changed] callbacks; the participant may not
      be found. *)
  | ParticipantStateChanged (participant : option Address) (s : State) (at_time : Z)
  (** A notification given to [sendChatMessage]. *)
  | ImdnSent (m : ImdnMessage)
  (** [ChatRoom::handleMessageRejected] *)
  | MessageRejected
  | EphemeralCountDown (expire : Z)
  (** [registerListener], for the network and the registration. *)
  | ListenForNetwork
  (** The [chat_room_read] callbacks. *)
  | ChatRoomRead.

Record World := mkWorld {
  msg : ChatMessage;
  (** The event the storage id stands for. *)
  db : option EventRow;
  (** [unreadChatMessageCountCache], for the room. *)
  unreadCount : option Z;
  imdn : Imdn;
  (** Is the message among the transient messages, its event among the transient
      events of the room? *)
  transientMessage : bool;
  transientEvent : bool;
  log : list Event;
}.

#[global] Instance eta_World : Eta World := fun w =>
  mkWorld (msg w) (db w) (unreadCount w) (imdn w) (transientMessage w) (transientEvent w) (log w).

(** A member of the message, and the message changed in a world. *)
Definition on_msg (f : ChatMessage -> ChatMessage) (w : World) : World := w <| msg := f (msg w) |>.
Definition tell (e : Event) (w : World) : World := w <| log := log w ++ [e] |>.

(** ** Reading the message *)

Definition ChatMessage_isValid (w : World) : bool := 0 <=? storageId (msg w).

Definition hasFileTransferContent (m : ChatMessage) : bool := existsb isFileTransfer (contents m).

(** [mainDb->getEvent(mainDb, getStorageId())] *)
Definition getEvent (w : World) : option EventRow :=
  if storageId (msg w) <? 0 then None else db w.

(** The database key of an address: [selectSipAddressId] looks for this text. *)
Definition sip_address (a : Address) : string := toStringUriOnlyOrdered a.

Definition participant_row (key : string) (rows : list ParticipantRow) : option ParticipantRow :=
  List.find (fun r => String.eqb (pr_address r) key) rows.

(** [MainDb::getChatMessageParticipantState] *)
Definition getChatMessageParticipantState (ev : EventRow) (a : Address) : State :=
  match participant_row (sip_address a) (ev_participants ev) with
  | Some r => pr_state r
  | None => Idle
  end.

(** [MainDbPrivate::setChatMessageParticipantState] *)
Definition setChatMessageParticipantState (a : Address) (s : State) (stateChangeTime : Z)
    (rows : list ParticipantRow) : list ParticipantRow :=
  let key := sip_address (getUriWithoutGruu a) in
  match participant_row key rows with
  | None => rows ++ [mkRow key s stateChangeTime]
  | Some r =>
      let dbState := pr_state r in
      if (State_int s <? State_int dbState) &&
         (State_eqb dbState Displayed || State_eqb dbState DeliveredToUser)
      then rows
      else map (fun r => if String.eqb (pr_address r) key
                         then r <| pr_state := s |> <| pr_time := stateChangeTime |> else r) rows
  end.

Section WithRoom.
Context (room : ChatRoom).

(** [Conference::isMe] *)
Definition isMe (a : Address) : bool :=
  if negb (address_isValid a) then false
  else address_equal (getUriWithoutGruu (room_me room)) (getUriWithoutGruu a).

(** [Conference::findParticipant] *)
Definition findParticipant (a : Address) : option Address :=
  List.find (fun p => weakEqual p a) (room_participants room).

(** [ChatMessage::getParticipantsState]: the participant of the room a row is
    about, with the state in the row. *)
Definition getParticipantsState (w : World) : list (Address * State) :=
  if basicBackend room || negb (ChatMessage_isValid w) then []
  else match getEvent w with
       | None => []
       | Some ev =>
           omap (fun r =>
             let a := Address_create (pr_address r) in
             let participant := if isMe a then Some (room_me room) else findParticipant a in
             option_map (fun p => (p, pr_state r)) participant) (ev_participants ev)
       end.

(** [ChatMessage::getParticipantState] *)
Definition getParticipantState (w : World) (a : Address) : State :=
  if basicBackend room then state (msg w)
  else match getEvent w with
       | Some ev => getChatMessageParticipantState ev a
       | None => Idle
       end.

(** [ChatMessage::getParticipantsByImdnState]; the participants are compared by
    identity, here by address. *)
Definition getParticipantsByImdnState (w : World) (s : State) : list (Address * Z) :=
  if basicBackend room || negb (ChatMessage_isValid w) then []
  else match getEvent w with
       | None => []
       | Some ev =>
           let from := fromAddress (msg w) in
           let participant a := if isMe a then Some (room_me room) else findParticipant a in
           let sender := participant from in
           omap (fun r =>
             match participant (Address_create (pr_address r)) with
             | Some p =>
                 match sender with
                 | Some q => if address_equal p q then None else Some (p, pr_time r)
                 | None => Some (p, pr_time r)
                 end
             | None => None
             end) (List.filter (fun r => State_eqb (pr_state r) s) (ev_participants ev))
       end.

(** ** The database *)

(** [MainDbPrivate::updateConferenceChatMessageEvent] *)
Definition stored_state (s dbState : State) : State :=
  if State_eqb s InProgress || State_eqb s FileTransferDone || State_eqb s FileTransferInProgress ||
     State_eqb s FileTransferError
  then dbState else s.

(** The state of [me] the function looks up: the last row of its address. *)
Definition me_participant_state (rows : list ParticipantRow) : State :=
  fold_left (fun s r => if String.eqb (pr_address r) (sip_address (room_me room)) then pr_state r else s)
    rows Idle.

Definition stateRequiresUpdatingParticipants (s dbState : State) (rows : list ParticipantRow) : bool :=
  if State_eqb s NotDelivered then State_eqb (me_participant_state rows) NotDelivered
  else negb (isImdnControlledState dbState) && State_eqb s Delivered.

(** The loop on the participants, over the rows read before it. *)
Definition set_all_participants (s : State) (rows : list ParticipantRow) : list ParticipantRow :=
  fold_left (fun rows r => setChatMessageParticipantState (Address_create (pr_address r)) s (now room) rows)
    rows rows.

Definition updateConferenceChatMessageEvent (m : ChatMessage) (ev : EventRow) : EventRow :=
  let s := state m in
  let rows := ev_participants ev in
  let updateParticipants :=
    is_outgoing (direction m) && stateRequiresUpdatingParticipants s (ev_state ev) rows &&
    capability_conference room && (0 <=? storageId m) in
  ev <| ev_state := stored_state s (ev_state ev) |>
     <| ev_imdnMessageId := imdnId m |>
     <| ev_markedAsRead := markedAsRead m |>
     <| ev_contents := contents m |>
     <| ev_participants := if updateParticipants then set_all_participants s rows else rows |>.

Definition unread_after_update (m : ChatMessage) (ev : EventRow) (count : option Z) : option Z :=
  if negb (is_outgoing (direction m)) && markedAsRead m && negb (ev_markedAsRead ev)
  then option_map (fun c => c - 1) count else count.

(** [ChatMessagePrivate::loadContentsFromDatabase] *)
Definition loadContentsFromDatabase (w : World) : World :=
  if contentsNotLoadedFromDatabase (msg w) then
    on_msg (fun m => m <| contentsNotLoadedFromDatabase := false |>
                       <| contents := contents m ++ match db w with Some ev => ev_contents ev | None => [] end |>
                       <| isReadOnly := true |>) w
  else w.

(** [ChatMessagePrivate::updateInDb] *)
Definition updateInDb (w : World) : World :=
  if negb (ChatMessage_isValid w) then w
  else match getEvent w with
       | None => w
       | Some ev =>
           let w := loadContentsFromDatabase w in
           let w := w <| db := Some (updateConferenceChatMessageEvent (msg w) ev) |>
                      <| unreadCount := unread_after_update (msg w) ev (unreadCount w) |> in
           let done :=
             match direction (msg w) with
             | Incoming => negb (hasFileTransferContent (msg w))
             | Outgoing => State_eqb (state (msg w)) Delivered || State_eqb (state (msg w)) NotDelivered
             end in
           if done then w <| transientEvent := false |> else w
       end.

(** ** Notifications *)

(** What the handler reads of this message and of the others. *)
Definition info_of (w : World) (n : nat) : MessageInfo :=
  if Nat.eqb n (self room) then
    {| mi_imdnMessageId := imdnId (msg w); mi_time := time (msg w);
       mi_fromAddress := fromAddress (msg w); mi_direction := direction (msg w);
       mi_participants := Z.of_nat (length (getParticipantsState w)) |}
  else other_messages room n.

(** An operation of the handler, with the messages it sends. *)
Definition on_imdn (op : (nat -> MessageInfo) -> Imdn -> Imdn * list ImdnMessage) (w : World) : World :=
  let '(h, sent) := op (info_of w) (imdn w) in
  fold_left (fun w m => tell (ImdnSent m) w) sent (w <| imdn := h |>).

(** [ChatRoom::sendDeliveryErrorNotification] *)
Definition sendDeliveryErrorNotification (reason : LinphoneReason) (w : World) : World :=
  if (send_imdn_delivered room || send_imdn_delivery_error room) &&
     negativeDeliveryNotificationRequired (msg w)
  then on_imdn (fun info => notifyDeliveryError (room_imdn room) info (self room) reason)
         (on_msg (fun m => m <| negativeDeliveryNotificationRequired := false |>) w)
  else w.

(** [ChatRoom::sendDeliveryNotification] *)
Definition sendDeliveryNotification (w : World) : World :=
  if send_imdn_delivered room && positiveDeliveryNotificationRequired (msg w)
  then on_imdn (fun info => notifyDelivery (room_imdn room) info (self room))
         (on_msg (fun m => m <| positiveDeliveryNotificationRequired := false |>) w)
  else w.

(** [ChatRoom::sendDisplayNotification] *)
Definition sendDisplayNotification (w : World) : World :=
  if send_imdn_displayed room && displayNotificationRequired (msg w)
  then on_imdn (fun info => notifyDisplay (room_imdn room) info (self room))
         (on_msg (fun m => m <| positiveDeliveryNotificationRequired := false |>
                             <| displayNotificationRequired := false |>) w)
  else w.

(** The [switch] of [setParticipantState] that acknowledges the message. *)
Definition acknowledge (newState : State) (reason : LinphoneReason) (w : World) : World :=
  match newState with
  | Displayed => sendDisplayNotification w
  | DeliveredToUser => sendDeliveryNotification w
  | NotDelivered =>
      if bool_decide (reason = ReasonNone) then w else sendDeliveryErrorNotification reason w
  | _ => w
  end.

(** ** The state of the message *)

(** The loop of [setParticipantState] on the states of the participants: the
    numbers of recipients, of displayed, delivered to user, delivered and not
    delivered states. *)
Record Counts := mkCounts {
  nbRecipients : nat;
  nbDisplayedStates : nat;
  nbDeliveredToUserStates : nat;
  nbDeliveredStates : nat;
  nbNotDeliveredStates : nat;
}.

Definition count_participant (from : Address) (c : Counts) (imdnState : Address * State) : Counts :=
  let '(participant, s) := imdnState in
  let one b := if b : bool then 1%nat else 0%nat in
  if weakEqual from participant then
    mkCounts (nbRecipients c) (nbDisplayedStates c) (nbDeliveredToUserStates c) (nbDeliveredStates c)
      (nbNotDeliveredStates c + one (State_eqb s NotDelivered))
  else
    mkCounts (nbRecipients c + 1) (nbDisplayedStates c + one (State_eqb s Displayed))
      (nbDeliveredToUserStates c + one (State_eqb s DeliveredToUser))
      (nbDeliveredStates c + one (State_eqb s Delivered))
      (nbNotDeliveredStates c + one (State_eqb s NotDelivered)).

Definition count_participants (from : Address) (states : list (Address * State)) : Counts :=
  fold_left (count_participant from) states (mkCounts 0 0 0 0 0).

(** The state the participants give the message, if they give one. *)
Definition state_of_counts (c : Counts) : option State :=
  if (0 <? nbNotDeliveredStates c)%nat then Some NotDelivered
  else if (0 <? nbRecipients c)%nat && (nbDisplayedStates c =? nbRecipients c)%nat then Some Displayed
  else if (0 <? nbRecipients c)%nat &&
          (nbDisplayedStates c + nbDeliveredToUserStates c =? nbRecipients c)%nat
  then Some DeliveredToUser
  else if (0 <? nbRecipients c)%nat &&
          (nbDeliveredStates c + nbDisplayedStates c + nbDeliveredToUserStates c =? nbRecipients c)%nat
  then Some Delivered
  else None.

(** The calls that [setState] and [setParticipantState] make of each other. *)
Inductive Call :=
  | SetState (newState : State)
  | SetParticipantState (participantAddress : Address) (newState : State) (stateChangeTime : Z)
      (reason : LinphoneReason).

(** [ChatMessagePrivate::startEphemeralCountDown] *)
Definition startEphemeralCountDown (w : World) : World :=
  let expire := now room + ephemeralLifetime (msg w) in
  let w := on_msg (fun m => m <| ephemeralExpireTime := expire |>) w in
  let w := w <| db := option_map (fun ev => ev <| ev_expiredTime :=
                        option_map (fun _ => expire) (ev_expiredTime ev) |>) (db w) |> in
  match getEvent w with
  | Some _ => tell (EphemeralCountDown expire) w
  | None => w
  end.

(** [ChatMessagePrivate::restoreFileTransferContentAsFileContent] *)
Definition restore_content (imdnId : string) (c : Content) : Content :=
  match c with
  | FileTransferContent (Some f) =>
      AFileContent {| fc_name := fc_name f; fc_relatedChatMessageId := imdnId |}
  | _ => c
  end.

Definition restoreFileTransferContentAsFileContent (m : ChatMessage) : ChatMessage :=
  m <| contents := map (restore_content (imdnId m)) (contents m) |>.

(** The state in which the application and the listeners are told. *)
Definition notify_state (w : World) : World :=
  let s := state (msg w) in
  let w := tell (StateChanged s (listeners (msg w))) w in
  if State_eqb s Displayed then on_msg (fun m => m <| listeners := [] |>) w else w.

(** [mAutomaticallyResent] is dropped once the message gets somewhere. *)
Definition clear_resent (newState : State) (m : ChatMessage) : ChatMessage :=
  if mAutomaticallyResent m &&
     (State_eqb newState PendingDelivery || State_eqb newState Delivered ||
      State_eqb newState DeliveredToUser || State_eqb newState Displayed)
  then m <| mAutomaticallyResent := false |> else m.

Definition final_state (s : State) : bool :=
  State_eqb s NotDelivered || State_eqb s Delivered || State_eqb s DeliveredToUser ||
  State_eqb s Displayed.

(** The end of [setState], from its step 4: the ephemeral countdown, the
    database, the operation and the resend timer. *)
Definition finish_state (hasBeenAutomaticallyResent : bool) (w : World) : World :=
  let s := state (msg w) in
  let w := if isEphemeral (msg w) && State_eqb s Displayed then startEphemeralCountDown w else w in
  let w := if negb (State_eqb s InProgress) && negb (State_eqb s FileTransferError) &&
              negb (State_eqb s FileTransferInProgress) && negb (State_eqb s FileTransferCancelling)
           then updateInDb w else w in
  let failed := State_eqb s PendingDelivery || State_eqb s NotDelivered in
  let needResend :=
    failed && match salOp (msg w) with
              | Some reason => bool_decide (reason = ReasonIOError) || bool_decide (reason = ReasonNoResponse)
              | None => false
              end in
  let w := if failed
           then on_msg (fun m => restoreFileTransferContentAsFileContent (m <| salOp := None |>)) w
           else w in
  if State_eqb s PendingDelivery then
    let w := tell ListenForNetwork w in
    if is_outgoing (direction (msg w)) && negb hasBeenAutomaticallyResent && needResend &&
       negb (mResendTimer (msg w))
    then on_msg (fun m => m <| mResendTimer := true |>) w else w
  else w.

Variable rec : Call -> World -> option World.

(** One round of the loop of [setState] on the participants. *)
Definition deliver_participant (w : option World) (imdnState : Address * State) : option World :=
  w ≫= fun w =>
  if isMe imdnState.1 then Some w
  else rec (SetParticipantState imdnState.1 (state (msg w)) (time (msg w)) ReasonNone) w.

(** [ChatMessagePrivate::setState] *)
Definition setState_body (newState : State) (w : World) : option World :=
  if negb (transition (state (msg w)) newState) then Some w
  else
    let hasBeenAutomaticallyResent := mAutomaticallyResent (msg w) in
    let oldState := state (msg w) in
    let w := on_msg (fun m => (clear_resent newState m) <| state := newState |>) w in
    (if is_outgoing (direction (msg w)) then
       (if State_eqb (state (msg w)) Delivered
        then fold_left deliver_participant (getParticipantsState w) (Some w)
        else Some w) ≫= fun w =>
       Some (if final_state (state (msg w)) then w <| transientMessage := false |> else w)
     else Some w) ≫= fun w =>
    let w := notify_state w in
    if State_eqb (state (msg w)) FileTransferDone && negb (is_outgoing (direction (msg w))) &&
       negb (hasFileTransferContent (msg w)) && markedAsRead (msg w)
    then rec (SetParticipantState (room_me room) Displayed (now room) ReasonNone) w
    else if State_eqb (state (msg w)) Delivered && State_eqb oldState Idle &&
            negb (is_outgoing (direction (msg w))) && negb (ChatMessage_isValid w)
    then Some w
    else Some (finish_state hasBeenAutomaticallyResent w).

(** The participant, its new state and the state of the message, in a room that
    keeps the state of each participant. *)
Definition setParticipantState_in_group (participantAddress : Address) (newState : State)
    (stateChangeTime : Z) (reason : LinphoneReason) (w : World) : option World :=
  let me := weakEqual participantAddress (room_me room) in
  let w := match getEvent w with
           | Some ev =>
               w <| db := Some (ev <| ev_participants :=
                      setChatMessageParticipantState participantAddress newState stateChangeTime
                        (ev_participants ev) |>) |>
           | None => w
           end in
  (if me && negb (isImdnControlledState newState) then rec (SetState newState) w else Some w)
  ≫= fun w =>
  (if isImdnControlledState newState then
     match state_of_counts (count_participants (fromAddress (msg w)) (getParticipantsState w)) with
     | Some s => rec (SetState s) w
     | None => Some w
     end
   else Some w) ≫= fun w =>
  if me then
    (if weakEqual (fromAddress (msg w)) participantAddress && State_eqb newState DeliveredToUser
     then rec (SetParticipantState participantAddress Displayed (now room) ReasonNone) w
     else Some w) ≫= fun w =>
    Some (if State_eqb newState NotDelivered && bool_decide (reason = ReasonForbidden)
          then tell MessageRejected w else w)
  else Some w.

(** [ChatMessagePrivate::setParticipantState] *)
Definition setParticipantState_body (participantAddress : Address) (newState : State)
    (stateChangeTime : Z) (reason : LinphoneReason) (w : World) : option World :=
  if negb (transition (getParticipantState w participantAddress) newState) then Some w
  else
    let me := weakEqual participantAddress (room_me room) in
    let w := if me then acknowledge newState reason w else w in
    if negb (ChatMessage_isValid w) &&
       (match getEvent w with Some _ => true | None => false end || State_eqb newState NotDelivered)
    then if State_eqb newState NotDelivered then rec (SetState newState) w else Some w
    else if basicBackend room then rec (SetState newState) w
    else
      (if enable_simple_group_chat_message_state room then rec (SetState newState) w
       else setParticipantState_in_group participantAddress newState stateChangeTime reason w)
      ≫= fun w =>
      let participant := if me then Some (room_me room) else findParticipant participantAddress in
      Some (tell (ParticipantStateChanged participant newState stateChangeTime) w).

End WithRoom.

(** The two functions: calls nested deeper than [fuel] have no result. *)
Fixpoint perform (room : ChatRoom) (fuel : nat) (call : Call) (w : World) : option World :=
  match fuel with
  | O => None
  | S fuel =>
      match call with
      | SetState s => setState_body room (perform room fuel) s w
      | SetParticipantState a s t reason => setParticipantState_body room (perform room fuel) a s t reason w
      end
  end.

(** No call nests deeper than this: [ChatMessageProps.calls_end]. *)
Definition call_depth : nat := 6.

Section Operations.
Context (room : ChatRoom).

Definition setParticipantState (a : Address) (s : State) (t : Z) (reason : LinphoneReason) (w : World)
    : option World :=
  perform room call_depth (SetParticipantState a s t reason) w.

(** [MainDb::getUnreadChatMessageCount], and the cache it fills. *)
Definition getUnreadChatMessageCount (w : World) : Z * World :=
  match unreadCount w with
  | Some c => (c, w)
  | None =>
      let own := match db w with Some ev => if ev_markedAsRead ev then 0 else 1 | None => 0 end in
      let c := other_unread room + own in
      (c, w <| unreadCount := Some c |>)
  end.

(** [ChatMessage::markAsRead] *)
Definition markAsRead (w : World) : option World :=
  if negb (ChatMessage_isValid w) then Some w
  else
    let w := on_msg (fun m => m <| markedAsRead := true |>) w in
    (if negb (hasFileTransferContent (msg w))
     then setParticipantState (mMeAddress (msg w)) Displayed (now room) ReasonNone w
     else Some w) ≫= fun w =>
    let w := if State_eqb (state (msg w)) Displayed then w else updateInDb room w in
    let '(count, w) := getUnreadChatMessageCount w in
    Some (if count =? 0 then tell ChatRoomRead w else w).

(** [ChatMessagePrivate::endMessageReception] *)
Definition endMessageReception (w : World) : option World :=
  let w := w <| transientMessage := false |> in
  setParticipantState (mMeAddress (msg w)) Delivered (now room) ReasonNone w ≫= fun w =>
  if negb (capability_basic room) && negb (isInAggregationQueue (msg w))
  then setParticipantState (mMeAddress (msg w)) DeliveredToUser (now room) ReasonNone w
  else Some w.

(** [ChatMessage::cancelFileTransfer]; [inProgress] is what the file transfer
    says of itself. *)
Definition cancelFileTransfer (inProgress : bool) (w : World) : option World :=
  if inProgress && State_eqb (state (msg w)) FileTransferInProgress then
    if isAutoDownloadAttachedFilesInProgress (msg w) then
      setParticipantState (mMeAddress (msg w)) Delivered (now room) ReasonNone w ≫= fun w =>
      Some (w <| transientMessage := false |>)
    else setParticipantState (mMeAddress (msg w)) NotDelivered (now room) ReasonNone w
  else Some w.

(** The loop of [ChatMessagePrivate::send] on a message sent again: the states
    of the participants go back to [Idle]. *)
Definition reset_participant (w : option World) (imdnState : Address * State) : option World :=
  w ≫= fun w => setParticipantState imdnState.1 Idle (time (msg w)) ReasonNone w.

Definition reset_participants (w : World) : option World :=
  fold_left reset_participant (getParticipantsState room w) (Some w) ≫= fun w =>
  Some (updateInDb room w).

(** [MainDbPrivate::insertConferenceChatMessageEvent]: the rows of a new event. *)
Definition insertConferenceChatMessageEvent (m : ChatMessage) : EventRow :=
  {| ev_state := state m; ev_imdnMessageId := imdnId m; ev_markedAsRead := markedAsRead m;
     ev_contents := contents m;
     ev_participants := map (fun p => mkRow (sip_address p) (state m) (time m)) (room_participants room);
     ev_expiredTime := if isEphemeral m then Some (ephemeralExpireTime m) else None |}.

(** [ChatRoom::addEvent] on the event of the message; [eventId] is the number the
    database gives it, unless it fails. *)
Definition addEvent (eventId : option Z) (w : World) : World :=
  match eventId with
  | Some id =>
      on_msg (fun m => m <| storageId := id |>)
        (w <| db := Some (insertConferenceChatMessageEvent (msg w)) |>
           <| unreadCount := if negb (is_outgoing (direction (msg w))) && negb (markedAsRead (msg w))
                             then option_map (fun c => c + 1) (unreadCount w) else unreadCount w |>)
  | None => w
  end.

(** [ChatMessagePrivate::storeInDb] *)
Definition storeInDb (eventId : option Z) (w : World) : option World :=
  if conference_server_enabled room then Some w
  else if ChatMessage_isValid w then Some (updateInDb room w)
  else
    let w := addEvent eventId (loadContentsFromDatabase w) in
    (if bool_decide (backend room = FlexisipChat)
     then setParticipantState (mMeAddress (msg w)) (state (msg w)) (now room) ReasonNone w
     else Some w) ≫= fun w =>
    Some (if is_outgoing (direction (msg w)) || hasFileTransferContent (msg w)
          then w <| transientEvent := true |> else w).

(** [SalMessageDeliveryStatus] and [chatStatusSal2Linphone] of
    [coreapi/callbacks.c]; [ioError] and [coreOn] are what it reads of the error
    and of the core. *)
Inductive SalMessageDeliveryStatus := MessageDeliveryInProgress | MessageDeliveryDone | MessageDeliveryFailed.

Definition chatStatusSal2Linphone (status : SalMessageDeliveryStatus) (ioError coreOn : bool) : State :=
  match status with
  | MessageDeliveryInProgress => InProgress
  | MessageDeliveryDone => Delivered
  | MessageDeliveryFailed => if ioError && coreOn then PendingDelivery else NotDelivered
  end.

(** [message_delivery_update], once the core is running and the message has its
    room. *)
Definition message_delivery_update (status : SalMessageDeliveryStatus)
    (ioError coreOn : bool) (reason : LinphoneReason) (w : World) : option World :=
  setParticipantState (room_me room) (chatStatusSal2Linphone status ioError coreOn) (now room) reason w.

End Operations.

End Message.
