(* ===== verification/ChatExamples.v ===== *)
(** * A small group

    Addresses as strings, a group of three and a message in it: the hypotheses of
    the theorems on chat messages hold here, and the definitions are run. *)
From S2P Require Import Prelude ChatTypes ImdnHandler ChatMessage.

(** The text of an address up to its parameters. *)
Fixpoint before_params (s : string) : string :=
  match s with
  | EmptyString => EmptyString
  | String c s' => if Ascii.eqb c ";" then EmptyString else String c (before_params s')
  end.

#[export] Instance string_addresses : AddressLib := {|
  Address := string;
  address_equal := String.eqb;
  weakEqual := fun a b => String.eqb (before_params a) (before_params b);
  address_isValid := fun a => negb (str_empty a);
  getUriWithoutGruu := before_params;
  toStringUriOnlyOrdered := fun a => a;
  Address_create := fun s => s;
  no_address := EmptyString;
|}.

Definition alice : Address := "sip:alice@example.org"%string.
Definition bob : Address := "sip:bob@example.org"%string.
Definition carol : Address := "sip:carol@example.org"%string.

Definition group_imdn : ImdnEnv := {|
  canHandleCpim := true; canHandleMultipart := true; isGroup := true;
  peerAddress := Some "sip:group@example.org"%string; imdnToEverybodyThreshold := 10;
  core_alive := true; send_imdn_if_unregistered := false;
  relatedProxyConfig := Some true; networkReachable := true;
|}.

Definition other_info (n : nat) : MessageInfo := {|
  mi_imdnMessageId := to_dec (Z.of_nat n); mi_time := 0; mi_fromAddress := bob;
  mi_direction := Incoming; mi_participants := 2;
|}.

(** The group as [me] sees it. *)
Definition group_of (me : Address) : ChatRoom := {|
  backend := FlexisipChat; capability_basic := false; capability_conference := true;
  room_me := me; room_participants := [alice; bob; carol];
  send_imdn_delivered := true; send_imdn_delivery_error := true; send_imdn_displayed := true;
  enable_simple_group_chat_message_state := false; conference_server_enabled := false;
  now := 100; room_imdn := group_imdn; other_messages := other_info; self := 1%nat; other_unread := 0;
|}.

Definition handler : Imdn := {|
  deliveredMessages := []; displayedMessages := []; nonDeliveredMessages := [];
  sentImdnMessages := []; timer := false; aggregationAllowed := true; next_imdn := 0%nat;
|}.

(** A message of [alice], as [me] has it. *)
Definition message_of_alice (me : Address) (d : Direction) (s : State) : ChatMessage := {|
  state := s; direction := d; storageId := 7; imdnId := "id"%string; time := 50;
  fromAddress := alice; mMeAddress := me; contents := [OtherContent "hello"];
  contentsNotLoadedFromDatabase := false; isReadOnly := true; markedAsRead := false;
  mAutomaticallyResent := false; positiveDeliveryNotificationRequired := true;
  negativeDeliveryNotificationRequired := true; displayNotificationRequired := true;
  isEphemeral := false; ephemeralLifetime := 0; ephemeralExpireTime := 0;
  isInAggregationQueue := false; isAutoDownloadAttachedFilesInProgress := false;
  salOp := Some ReasonIOError; mResendTimer := false; listeners := [];
|}.

Definition row (a : Address) (s : State) : ParticipantRow := mkRow a s 50.

Definition world_of (me : Address) (d : Direction) (s : State) (rows : list ParticipantRow) : World := {|
  msg := message_of_alice me d s;
  db := Some {| ev_state := s; ev_imdnMessageId := "id"%string; ev_markedAsRead := false;
                ev_contents := [OtherContent "hello"]; ev_participants := rows; ev_expiredTime := None |};
  unreadCount := Some 1; imdn := handler; transientMessage := true; transientEvent := true; log := [];
|}.

(** The message [alice] sent, received by [bob] and not yet by [carol]. *)
Definition sent_world : World :=
  world_of alice Outgoing Delivered [row alice Displayed; row bob DeliveredToUser; row carol Delivered].

(** The same message as [bob] receives it. *)
Definition received_world : World :=
  world_of bob Incoming Delivered [row alice Displayed; row bob Delivered; row carol Delivered].

Example first_display_is_not_enough :
  option_map (fun w => state (msg w)) (setParticipantState (group_of alice) bob Displayed 60 ReasonNone sent_world)
  = Some Delivered.
Proof. vm_compute. reflexivity. Qed.
