(* ===== verification/ImdnProps.v ===== *)
(** * Properties of the notification handler

    What is pending is what is sent: grouping the notifications by room loses
    and repeats none of them.  The exception is a handler with both pending
    acknowledgements and pending errors. *)
From S2P Require Import Prelude ChatTypes ImdnHandler ChatMessage ChatExamples.

Lemma if_both {A} (b : bool) (x : A) : (if b then x else x) = x.
Proof. by destruct b. Qed.

Section Props.
Context `{AddressLib}.
Context (env : ImdnEnv).
Variable info : nat -> MessageInfo.

(** ** Notices

    A notice is a message, the type of its notification and the reason of the
    failure. *)
Definition Notice : Type := nat * ImdnType * LinphoneReason.
Definition NoticeArgs : Type := Address * (list nat * list nat * list MessageReason).

Definition delivered_notice (m : nat) : Notice := (m, DeliveryType, ReasonNone).
Definition displayed_notice (m : nat) : Notice := (m, DisplayType, ReasonNone).
Definition error_notice (mr : MessageReason) : Notice := (mr_message mr, DeliveryType, mr_reason mr).

Definition notices (p : list nat * list nat * list MessageReason) : list Notice :=
  map delivered_notice p.1.1 ++ map displayed_notice p.1.2 ++ map error_notice p.2.

(** The notices of messages that are made, each with the room it is sent in. *)
Definition addressed (args : list NoticeArgs) : list (string * Notice) :=
  flat_map (fun e => map (pair (toStringUriOnlyOrdered e.1)) (notices e.2)) args.

(** The room of one notice, when its peer is known. *)
Definition address_notice (n : Notice) : option (string * Notice) :=
  let peer := getImdnChatRoomPeerAddress env info n.1.1 in
  if address_isValid peer then Some (toStringUriOnlyOrdered peer, n) else None.

(** ** Grouping by room *)

Section Grouping.
Context {V M : Type} (flat : V -> list Notice) (dflt : V) (add : M -> V -> V) (message_of : M -> nat)
  (notice_of : M -> Notice).
Hypothesis flat_dflt : flat dflt = [].
Hypothesis flat_add : forall x v, flat (add x v) ≡ₚ notice_of x :: flat v.
Hypothesis notice_message : forall x, (notice_of x).1.1 = message_of x.

Definition group_notices (m : list (Address * V)) : list (string * Notice) :=
  flat_map (fun e => map (pair (toStringUriOnlyOrdered e.1)) (flat e.2)) m.

Lemma by_room_alter_notices x peer m :
  group_notices (by_room_alter dflt (add x) peer m) ≡ₚ
  (toStringUriOnlyOrdered peer, notice_of x) :: group_notices m.
Proof.
  induction m as [|[a v] m IH]; cbn.
  - rewrite flat_add, flat_dflt. done.
  - destruct (String.compare _ _) eqn:C; cbn.
    + apply String.compare_eq_iff in C. by rewrite C, flat_add.
    + by rewrite flat_add, flat_dflt.
    + rewrite IH. by rewrite Permutation_middle.
Qed.

Lemma group_by_room_notices l m :
  group_notices (fold_left (group_by_room env info dflt add message_of) l m) ≡ₚ
  group_notices m ++ omap address_notice (map notice_of l).
Proof.
  revert m. induction l as [|x l IH]; intros m; cbn; [by rewrite app_nil_r|].
  rewrite IH. unfold group_by_room, address_notice. rewrite notice_message.
  destruct (address_isValid _); cbn; [|done].
  rewrite by_room_alter_notices. cbn. by rewrite Permutation_middle.
Qed.

End Grouping.

Lemma alone_notices {M} (message_of : M -> nat) (mk : M -> list nat * list nat * list MessageReason)
    (notice_of : M -> Notice) l :
  (forall x, notices (mk x) = [notice_of x]) -> (forall x, (notice_of x).1.1 = message_of x) ->
  addressed (omap (alone env info message_of mk) l) = omap address_notice (map notice_of l).
Proof.
  intros N E. induction l as [|x l IH]; [done|]. unfold addressed in *. cbn.
  unfold alone at 1, address_notice at 1. rewrite E.
  destruct (address_isValid _); cbn; [|done]. rewrite N, IH. done.
Qed.

(** The notices of delivered and displayed messages, grouped or not. *)
Lemma createImdnMessages_notices delivered displayed aggregate :
  addressed (createImdnMessages env info delivered displayed aggregate) ≡ₚ
  omap address_notice (map delivered_notice delivered ++ map displayed_notice displayed).
Proof.
  unfold createImdnMessages. destruct aggregate.
  - set (flat := fun p : list nat * list nat => map delivered_notice p.1 ++ map displayed_notice p.2).
    assert (forall m : list (Address * (list nat * list nat)),
      addressed (map (fun e => (e.1, (e.2.1, e.2.2, []))) m) = group_notices flat m) as G.
    { intros m. unfold addressed, group_notices. rewrite flat_map_concat_map, map_map, flat_map_concat_map.
      f_equal. apply map_ext. intros [a [dl ds]]. unfold notices, flat. cbn. by rewrite app_nil_r. }
    rewrite G, omap_app.
    rewrite (group_by_room_notices flat ([], []) add_displayed id displayed_notice); try done;
      [|intros x [dl ds]; unfold flat; cbn; rewrite map_app, app_assoc; apply Permutation_sym;
        apply Permutation_cons_append].
    rewrite (group_by_room_notices flat ([], []) add_delivered id delivered_notice); try done.
    intros x [dl ds]. unfold flat. cbn. rewrite map_app, <- app_assoc. cbn.
    by rewrite <- Permutation_middle.
  - unfold addressed. rewrite flat_map_app. fold addressed. rewrite omap_app. f_equiv.
    + by rewrite <- (alone_notices id (fun x => ([x], [], []))).
    + by rewrite <- (alone_notices id (fun x => ([], [x], []))).
Qed.

Lemma createErrorImdnMessages_notices nonDelivered aggregate :
  addressed (createErrorImdnMessages env info nonDelivered aggregate) ≡ₚ
  omap address_notice (map error_notice nonDelivered).
Proof.
  unfold createErrorImdnMessages. destruct aggregate.
  - assert (forall m : list (Address * list MessageReason),
      addressed (map (fun e => (e.1, ([], [], e.2))) m) = group_notices (map error_notice) m) as G.
    { intros m. unfold addressed, group_notices. by rewrite flat_map_concat_map, map_map, flat_map_concat_map. }
    rewrite G.
    rewrite (group_by_room_notices (map error_notice) [] (fun mr l => l ++ [mr]) mr_message error_notice); try done.
    intros x l. rewrite map_app. cbn. by rewrite <- Permutation_cons_append.
  - by rewrite <- (alone_notices mr_message (fun mr => ([], [], [mr]))).
Qed.

(** ** What a handler sends *)

(** The content of a notice, when its peer is known and its message has an id. *)
Definition owed (n : Notice) : option ImdnContent :=
  if address_isValid (getImdnChatRoomPeerAddress env info n.1.1)
  then imdn_content info n.1.2 n.2 n.1.1 else None.

Definition pending_acks (h : Imdn) : list Notice :=
  map delivered_notice (deliveredMessages h) ++ map displayed_notice (displayedMessages h).
Definition pending_errors (h : Imdn) : list Notice := map error_notice (nonDeliveredMessages h).

Lemma make_contents id peer p :
  im_contents (ImdnMessage_make info id peer p.1.1 p.1.2 p.2) =
  omap (fun n => imdn_content info n.1.2 n.2 n.1.1) (notices p).
Proof.
  unfold notices. cbn. rewrite !omap_app. f_equal; [|f_equal].
  - by induction p.1.1 as [|m l IH]; cbn; [|rewrite IH].
  - by induction p.1.2 as [|m l IH]; cbn; [|rewrite IH].
  - by induction p.2 as [|m l IH]; cbn; [|rewrite IH].
Qed.

Lemma numbered_contents id args :
  flat_map im_contents (number_messages info id args) =
  omap (fun e => imdn_content info e.2.1.2 e.2.2 e.2.1.1) (addressed args).
Proof.
  revert id. induction args as [|[a [[dl ds] nd]] args IH]; intros id; [done|].
  unfold number_messages, addressed in *. cbn [imap flat_map]. rewrite omap_app. f_equal.
  - pose proof (make_contents (id + 0) a (dl, ds, nd)) as K. cbn [fst snd] in K. rewrite K. cbn [fst snd].
    clear K. by induction (notices (dl, ds, nd)) as [|n l IHl]; cbn; [|rewrite IHl].
  - rewrite <- (IH (S id)). f_equal. apply imap_ext. intros i [b [[dl' ds'] nd']] _. cbn.
    by rewrite Nat.add_succ_r.
Qed.

Lemma filter_contents (l : list ImdnMessage) :
  flat_map im_contents (List.filter (fun m => negb (is_nil (im_contents m))) l) = flat_map im_contents l.
Proof.
  induction l as [|m l IH]; [done|]. cbn. destruct (im_contents m) eqn:E; cbn; [done|]. by rewrite E, IH.
Qed.

Lemma addressed_contents (l : list Notice) :
  omap (fun e => imdn_content info e.2.1.2 e.2.2 e.2.1.1) (omap address_notice l) = omap owed l.
Proof.
  induction l as [|n l IH]; [done|]. cbn. unfold address_notice at 1, owed at 1.
  destruct (address_isValid _); cbn; by rewrite IH.
Qed.

Lemma is_nil_spec {A} (l : list A) : is_nil l = true <-> l = [].
Proof. by destruct l. Qed.

Lemma to_send_contents h :
  omap owed (if is_nil (nonDeliveredMessages h) then pending_acks h else pending_errors h) ≡ₚ
  omap (fun e => imdn_content info e.2.1.2 e.2.2 e.2.1.1) (addressed (imdn_to_send env info h)).
Proof.
  unfold imdn_to_send. rewrite <- addressed_contents.
  destruct (is_nil (nonDeliveredMessages h)) eqn:E; cbn [negb].
  - destruct (is_nil (deliveredMessages h)) eqn:E1, (is_nil (displayedMessages h)) eqn:E2; cbn [orb negb];
      try by rewrite createImdnMessages_notices.
    apply is_nil_spec in E1, E2. unfold pending_acks. by rewrite E1, E2.
  - by rewrite createErrorImdnMessages_notices.
Qed.

Lemma sent_contents h :
  can_send env = true ->
  flat_map im_contents (send env info h).2 ≡ₚ
  omap owed (if is_nil (nonDeliveredMessages h) then pending_acks h else pending_errors h).
Proof.
  intros C. unfold send. rewrite C. cbn [negb].
  destruct (_ && _) eqn:E.
  - apply andb_true_iff in E as [E E3]. apply andb_true_iff in E as [E1 E2].
    rewrite E3. apply is_nil_spec in E1, E2. unfold pending_acks. by rewrite E1, E2.
  - cbv zeta. cbn [snd]. rewrite filter_contents, numbered_contents. symmetry. apply to_send_contents.
Qed.

(** Nothing is pending once a handler has sent. *)
Lemma sent_nothing_pending h :
  can_send env = true ->
  let h' := (send env info h).1 in
  deliveredMessages h' = [] /\ displayedMessages h' = [] /\ nonDeliveredMessages h' = [].
Proof.
  intros C. unfold send. rewrite C. cbn [negb].
  destruct (_ && _) eqn:E; [|done].
  apply andb_true_iff in E as [E E3]. apply andb_true_iff in E as [E1 E2].
  by apply is_nil_spec in E1, E2, E3.
Qed.

Lemma error_args errors aggregate :
  Forall (fun e => e.2.1 = ([], [])) (createErrorImdnMessages env info errors aggregate).
Proof.
  unfold createErrorImdnMessages. destruct aggregate.
  - apply List.Forall_map, Forall_true. done.
  - induction errors as [|mr l IH]; [done|]. cbn. unfold alone at 1. destruct (address_isValid _); [|done].
    by constructor.
Qed.

Lemma numbered_error_args id args :
  Forall (fun e => e.2.1 = ([], [])) args ->
  Forall (fun m => im_deliveredMessages m = [] /\ im_displayedMessages m = []) (number_messages info id args).
Proof.
  intros F. unfold number_messages. apply Forall_lookup. intros i m L.
  rewrite list_lookup_imap in L. destruct (args !! i) as [[a [[dl ds] nd]]|] eqn:E; [|discriminate L].
  apply (Forall_lookup_1 _ _ _ _ F) in E. cbn in E, L. injection L as <-. by injection E as -> ->.
Qed.

(** C14. With no error pending, a handler that can send leaves nothing pending and
    the messages it sends hold exactly one notification for each pending one, for
    every message that has an id and a known peer. *)
Theorem pending_notifications_sent h :
  can_send env = true -> nonDeliveredMessages h = [] ->
  let h' := (send env info h).1 in let sent := (send env info h).2 in
  deliveredMessages h' = [] /\ displayedMessages h' = [] /\
  flat_map im_contents sent ≡ₚ
  omap owed (map delivered_notice (deliveredMessages h) ++ map displayed_notice (displayedMessages h)).
Proof.
  intros C N. pose proof (sent_contents h C) as S. pose proof (sent_nothing_pending h C) as (E1 & E2 & _).
  by rewrite N in S.
Qed.

(** C13. When a handler that can send has pending errors, its pending
    acknowledgements are dropped: none is sent, and none is pending any more. *)
Theorem acknowledgements_lost h :
  can_send env = true -> nonDeliveredMessages h <> [] ->
  let h' := (send env info h).1 in let sent := (send env info h).2 in
  deliveredMessages h' = [] /\ displayedMessages h' = [] /\
  flat_map im_contents sent ≡ₚ omap owed (map error_notice (nonDeliveredMessages h)) /\
  Forall (fun m => im_deliveredMessages m = [] /\ im_displayedMessages m = []) sent.
Proof.
  intros C N. pose proof (sent_contents h C) as S. pose proof (sent_nothing_pending h C) as (E1 & E2 & _).
  assert (is_nil (nonDeliveredMessages h) = false) as E3 by by destruct (nonDeliveredMessages h).
  unfold send, imdn_to_send in *. rewrite C, E3, andb_false_r in *. cbn [negb] in *. cbv zeta in *.
  cbn [fst snd] in *. repeat split; [done..|].
  apply Forall_forall. intros m M.
  apply list_elem_of_In, filter_In in M as [M _]. apply list_elem_of_In in M.
  revert m M. apply Forall_forall, numbered_error_args, error_args.
Qed.

(** C15. Sending notifications room by room or one by one makes the same
    notifications, in the same rooms. *)
Theorem aggregation_same_notifications delivered displayed errors :
  addressed (createImdnMessages env info delivered displayed true) ≡ₚ
  addressed (createImdnMessages env info delivered displayed false) /\
  addressed (createErrorImdnMessages env info errors true) ≡ₚ
  addressed (createErrorImdnMessages env info errors false).
Proof. by rewrite !createImdnMessages_notices, !createErrorImdnMessages_notices. Qed.

(** ** Counting the notifications of a message *)

Inductive Ack := AckDelivery | AckDisplay | AckError.

#[global] Instance Ack_eq_dec : EqDecision Ack.
Proof. solve_decision. Defined.

Definition ack_of (n : Notice) : Ack :=
  match n.1.2 with
  | DisplayType => AckDisplay
  | DeliveryType => if bool_decide (n.2 = ReasonNone) then AckDelivery else AckError
  end.

Definition is_ack (m : nat) (k : Ack) (n : Notice) : bool := Nat.eqb n.1.1 m && bool_decide (ack_of n = k).

Definition count_acks (m : nat) (k : Ack) (l : list Notice) : nat := length (List.filter (is_ack m k) l).

Definition content_notice (c : ImdnContent) : Notice := (ic_message c, ic_type c, ic_reason c).

Definition pending (h : Imdn) : list Notice := pending_acks h ++ pending_errors h.

(** How many notifications of a kind the messages hold for a message. *)
Definition sent_acks (m : nat) (k : Ack) (sent : list ImdnMessage) : nat :=
  count_acks m k (map content_notice (flat_map im_contents sent)).

Lemma count_acks_app m k l l' : count_acks m k (l ++ l') = (count_acks m k l + count_acks m k l')%nat.
Proof. unfold count_acks. by rewrite List.filter_app, length_app. Qed.

#[global] Instance count_acks_perm m k : Proper ((≡ₚ) ==> eq) (count_acks m k).
Proof. intros l l' P. apply Permutation_length. induction P; cbn; repeat case_match; eauto using Permutation. Qed.

Lemma count_acks_owed m k l : (count_acks m k (map content_notice (omap owed l)) <= count_acks m k l)%nat.
Proof.
  induction l as [|n l IH]; [done|]. change (n :: l) with ([n] ++ l). rewrite omap_app, map_app, !count_acks_app.
  enough (count_acks m k (map content_notice (omap owed [n])) <= count_acks m k [n])%nat by lia.
  cbn. unfold owed, imdn_content. destruct (address_isValid _); cbn; [|lia].
  destruct (str_empty _); cbn; [lia|]. destruct n as [[x t] r]. reflexivity.
Qed.

(** An operation of the handler that adds at most [extra] notifications to the
    pending and sent ones. *)
Definition within (m : nat) (k : Ack) (extra : nat) (h : Imdn) (r : Imdn * list ImdnMessage) : Prop :=
  (sent_acks m k r.2 + count_acks m k (pending r.1) <= count_acks m k (pending h) + extra)%nat.

Lemma within_none m k extra h : within m k extra h (h, []).
Proof. unfold within. cbn [fst snd]. change (sent_acks m k []) with 0%nat. lia. Qed.

Lemma send_within m k h : within m k 0 h (send env info h).
Proof.
  unfold within. destruct (can_send env) eqn:C.
  - unfold sent_acks. rewrite (Permutation_map content_notice (sent_contents h C)).
    destruct (sent_nothing_pending h C) as (E1 & E2 & E3).
    unfold pending at 1, pending_acks at 2, pending_errors at 2. rewrite E1, E2, E3. cbn [map app].
    etransitivity; [apply Nat.add_le_mono_r, count_acks_owed|]. unfold pending. rewrite count_acks_app.
    change (count_acks m k []) with 0%nat. case_match; lia.
  - unfold send. rewrite C. cbn [negb]. rewrite if_both. cbn [fst snd]. change (sent_acks m k []) with 0%nat. lia.
Qed.

Lemma startTimer_within m k h : within m k 0 h (startTimer env info h).
Proof.
  unfold startTimer. destruct (negb _); [apply send_within|]. apply (within_none m k 0 h).
Qed.

Lemma within_more m k extra h h' r :
  within m k 0 h' r -> (count_acks m k (pending h') <= count_acks m k (pending h) + extra)%nat ->
  within m k extra h r.
Proof. unfold within. lia. Qed.

Lemma notifyDelivery_within m k message h :
  within m k (count_acks m k [delivered_notice message]) h (notifyDelivery env info message h).
Proof.
  unfold notifyDelivery. destruct (has_message _ _); [apply within_none|].
  eapply within_more; [apply startTimer_within|]. unfold pending, pending_acks, pending_errors. cbn [deliveredMessages displayedMessages nonDeliveredMessages update].
  rewrite map_app, !count_acks_app. cbn [map]. lia.
Qed.

Lemma notifyDeliveryError_within m k message reason h :
  within m k (count_acks m k [error_notice {| mr_message := message; mr_reason := reason |}]) h
    (notifyDeliveryError env info message reason h).
Proof.
  unfold notifyDeliveryError. destruct (has_message _ _); [apply within_none|].
  eapply within_more; [apply startTimer_within|]. unfold pending, pending_acks, pending_errors. cbn [deliveredMessages displayedMessages nonDeliveredMessages update].
  rewrite map_app, !count_acks_app. cbn [map]. lia.
Qed.

Lemma erase_first_count m k message l :
  (count_acks m k (map delivered_notice (erase_first message l)) <= count_acks m k (map delivered_notice l))%nat.
Proof.
  induction l as [|x l IH]; cbn [erase_first]; [done|].
  assert (forall l, count_acks m k (map delivered_notice (x :: l)) =
                    (count_acks m k [delivered_notice x] + count_acks m k (map delivered_notice l))%nat) as E.
  { intros l'. apply (count_acks_app _ _ [_]). }
  rewrite E. destruct (Nat.eqb message x); [lia|]. rewrite E. lia.
Qed.

Lemma notifyDisplay_within m k message h :
  within m k (count_acks m k [displayed_notice message]) h (notifyDisplay env info message h).
Proof.
  pose proof (erase_first_count m k message (deliveredMessages h)) as E.
  unfold notifyDisplay. cbv zeta. destruct (has_message _ _).
  - unfold within, pending, pending_acks, pending_errors. cbn [deliveredMessages displayedMessages nonDeliveredMessages update fst snd].
    rewrite !count_acks_app. unfold sent_acks. cbn [flat_map map]. change (count_acks m k []) with 0%nat. lia.
  - eapply within_more; [apply startTimer_within|].
    unfold pending, pending_acks, pending_errors. cbn [deliveredMessages displayedMessages nonDeliveredMessages update].
    rewrite map_app, !count_acks_app. cbn [map]. lia.
Qed.

End Props.

(** Two messages received and one read. *)
Lemma pending_notifications_sent_witness :
  let h := handler <| deliveredMessages := [2; 3]%nat |> <| displayedMessages := [1]%nat |> in
  let h' := (send group_imdn other_info h).1 in let sent := (send group_imdn other_info h).2 in
  deliveredMessages h' = [] /\ displayedMessages h' = [] /\
  flat_map im_contents sent ≡ₚ
  omap (owed group_imdn other_info) [delivered_notice 2; delivered_notice 3; displayed_notice 1].
Proof.
  exact (pending_notifications_sent group_imdn other_info
    (handler <| deliveredMessages := [2; 3]%nat |> <| displayedMessages := [1]%nat |>) eq_refl eq_refl).
Defined.

(** A message read while the failure of another one waits: its notification is
    lost. *)
Lemma acknowledgements_lost_witness :
  let h := handler <| displayedMessages := [1]%nat |>
                   <| nonDeliveredMessages := [{| mr_message := 2; mr_reason := ReasonNotAcceptable |}] |> in
  let h' := (send group_imdn other_info h).1 in let sent := (send group_imdn other_info h).2 in
  displayedMessages h' = [] /\ Forall (fun m => im_displayedMessages m = []) sent.
Proof.
  cbv zeta.
  destruct (acknowledgements_lost group_imdn other_info
    (handler <| displayedMessages := [1]%nat |>
             <| nonDeliveredMessages := [{| mr_message := 2; mr_reason := ReasonNotAcceptable |}] |>))
    as (_ & D & _ & F); [reflexivity|discriminate|].
  split; [exact D|]. eapply Forall_impl; [exact F|]. intros m [_ E]. exact E.
Defined.
