(* ===== verification/ChatMessageProps.v ===== *)
(** * Properties of chat messages

    The two functions that change the state of a message call each other: here it
    is proved that the calls end, and that all they do to a message is a sequence
    of small steps, a step relation on which the invariants are proved by
    induction: the states told to the application are a path of the state machine,
    the rows of the participants are never lowered, and a message is acknowledged
    at most once. *)
From S2P Require Import Prelude ChatTypes ImdnHandler ChatMessage ChatExamples ImdnProps.

(** [o'] is [o], or [o] has no result. *)
Definition opt_le {A} (o o' : option A) : Prop := forall x, o = Some x -> o' = Some x.

Lemma opt_le_refl {A} (o : option A) : opt_le o o.
Proof. by intros x. Qed.

Lemma opt_le_bind {A B} (o o' : option A) (f g : A -> option B) :
  opt_le o o' -> (forall x, opt_le (f x) (g x)) -> opt_le (o ≫= f) (o' ≫= g).
Proof. intros Ho Hf y. destruct o as [x|]; cbn; [|discriminate]. rewrite (Ho x eq_refl). apply Hf. Qed.

Lemma opt_le_if {A} (b : bool) (o1 o1' o2 o2' : option A) :
  opt_le o1 o1' -> opt_le o2 o2' -> opt_le (if b then o1 else o2) (if b then o1' else o2').
Proof. by destruct b. Qed.

Ltac opt_le_tac :=
  repeat (apply opt_le_refl || (apply opt_le_bind; [|intros ?]) || apply opt_le_if || case_match).

Section Props.
Context `{AddressLib}.
Context (room : ChatRoom).

(** ** Small steps

    [Writes a s] says that the state [s] may be written for the participant [a]:
    what the caller asks for, and the two states the calls write themselves. *)
Variable Writes : Address -> State -> Prop.
Hypothesis writes_delivered : forall a, Writes a Delivered.
Hypothesis writes_displayed : forall a, Writes a Displayed.

Definition call_writes (c : Call) : Prop :=
  match c with SetState _ => True | SetParticipantState a s _ _ => Writes a s end.

(** What the calls do apart from changing the state: a row of a participant is
    written, or the application is told of it. *)
Inductive quiet_step : World -> World -> Prop :=
  | quiet_row w ev a s t :
      getEvent w = Some ev -> transition (getParticipantState room w a) s = true -> Writes a s ->
      quiet_step w (w <| db := Some (ev <| ev_participants :=
                       setChatMessageParticipantState a s t (ev_participants ev) |>) |>)
  | quiet_told w p s t : quiet_step w (tell (ParticipantStateChanged p s t) w).

Notation quiet := (rtc quiet_step).

(** A message enters a state: the member changes, the participants of an outgoing
    message that is delivered follow, and then everybody is told. *)
Definition enter (s : State) (w : World) : World :=
  on_msg (fun m => (clear_resent s m) <| state := s |>) w.

Definition leave_transient (w : World) : World :=
  if is_outgoing (direction (msg w)) && final_state (state (msg w))
  then w <| transientMessage := false |> else w.

Inductive step : World -> World -> Prop :=
  | step_quiet w w' : quiet_step w w' -> step w w'
  | step_acknowledge w s reason : step w (acknowledge room s reason w)
  | step_enter w s w' :
      transition (state (msg w)) s = true -> quiet (enter s w) w' ->
      step w (notify_state (leave_transient w'))
  | step_finish w resent : step w (finish_state room resent w)
  | step_rejected w : step w (tell MessageRejected w).

Notation steps := (rtc step).

Lemma quiet_steps w w' : quiet w w' -> steps w w'.
Proof. induction 1; [done | eapply rtc_l; [by apply step_quiet | done]]. Qed.

Lemma steps_bind (o : option World) (f : World -> option World) w w' :
  (forall w1, o = Some w1 -> steps w w1) ->
  (forall w1 w2, f w1 = Some w2 -> steps w1 w2) ->
  o ≫= f = Some w' -> steps w w'.
Proof.
  intros Ho Hf. destruct o as [w1|]; cbn; [|discriminate]. intros E.
  transitivity w1; eauto.
Qed.

(** What a quiet step leaves alone. *)
Lemma quiet_step_frame w w' :
  quiet_step w w' ->
  msg w' = msg w /\ imdn w' = imdn w /\ transientMessage w' = transientMessage w /\
  transientEvent w' = transientEvent w /\ unreadCount w' = unreadCount w.
Proof. by destruct 1. Qed.

Lemma quiet_frame w w' :
  quiet w w' ->
  msg w' = msg w /\ imdn w' = imdn w /\ transientMessage w' = transientMessage w /\
  transientEvent w' = transientEvent w /\ unreadCount w' = unreadCount w.
Proof.
  induction 1 as [w|w1 w2 w3 S _ IH]; [done|].
  destruct (quiet_step_frame _ _ S) as (E1 & E2 & E3 & E4 & E5).
  by rewrite E1, E2, E3, E4, E5 in IH.
Qed.

(** What acknowledging leaves alone. *)
Lemma fold_tell (sent : list ImdnMessage) w :
  fold_left (fun w m => tell (ImdnSent m) w) sent w = w <| log := log w ++ map ImdnSent sent |>.
Proof.
  revert w. induction sent as [|m sent IH]; intros w; cbn.
  - destruct w; cbn; by rewrite app_nil_r.
  - rewrite IH. destruct w; cbn. by rewrite <- app_assoc.
Qed.

Lemma on_imdn_eq op w :
  on_imdn room op w =
  (w <| imdn := (op (info_of room w) (imdn w)).1 |>)
     <| log := log w ++ map ImdnSent (op (info_of room w) (imdn w)).2 |>.
Proof. unfold on_imdn. destruct (op _ _) as [h sent]. by rewrite fold_tell. Qed.

Lemma acknowledge_frame s reason w :
  let w' := acknowledge room s reason w in
  state (msg w') = state (msg w) /\ storageId (msg w') = storageId (msg w) /\
  db w' = db w /\ exists sent, log w' = log w ++ map ImdnSent sent.
Proof.
  unfold acknowledge, sendDisplayNotification, sendDeliveryNotification, sendDeliveryErrorNotification.
  assert (forall w0 : World, exists sent, log w0 = log w0 ++ map ImdnSent sent) as K.
  { intros w0. exists []. by rewrite app_nil_r. }
  destruct s; cbv zeta; try (by repeat split; apply K);
    repeat case_match; try (by repeat split; apply K);
    rewrite on_imdn_eq; cbn; by repeat split; eexists.
Qed.

Lemma acknowledge_me s reason w : mMeAddress (msg (acknowledge room s reason w)) = mMeAddress (msg w).
Proof.
  unfold acknowledge, sendDisplayNotification, sendDeliveryNotification, sendDeliveryErrorNotification.
  repeat case_match; rewrite ?on_imdn_eq; done.
Qed.

Lemma getEvent_acknowledge s reason w : getEvent (acknowledge room s reason w) = getEvent w.
Proof. unfold getEvent. by destruct (acknowledge_frame s reason w) as (_ & -> & -> & _). Qed.

Lemma getParticipantState_acknowledge s reason w a :
  getParticipantState room (acknowledge room s reason w) a = getParticipantState room w a.
Proof.
  unfold getParticipantState. rewrite getEvent_acknowledge.
  by destruct (acknowledge_frame s reason w) as (-> & _).
Qed.

(** ** The calls made for the participants of a delivered message

    The message already is in the state they would move it to, so that they only
    write rows. *)

Lemma refused_state n s w :
  transition (state (msg w)) s = false -> perform room (S n) (SetState s) w = Some w.
Proof. intros E. cbn. unfold setState_body. by rewrite E. Qed.

Lemma enter_again n s w : state (msg w) = s -> perform room (S n) (SetState s) w = Some w.
Proof. intros E. apply refused_state. by rewrite E, transition_irreflexive. Qed.

Lemma delivered_in_group n w a t reason :
  state (msg w) = Delivered ->
  setParticipantState_in_group room (perform room (S n)) a Delivered t reason w =
  Some match getEvent w with
       | Some ev => w <| db := Some (ev <| ev_participants :=
                          setChatMessageParticipantState a Delivered t (ev_participants ev) |>) |>
       | None => w
       end.
Proof.
  intros E. unfold setParticipantState_in_group.
  change (isImdnControlledState Delivered) with false.
  change (State_eqb Delivered DeliveredToUser) with false.
  change (State_eqb Delivered NotDelivered) with false. cbv zeta.
  destruct (weakEqual a (room_me room)); cbn [andb negb]; [|by destruct (getEvent w)].
  destruct (getEvent w); (rewrite enter_again by done); cbn [mbind option_bind]; by rewrite andb_false_r.
Qed.

Lemma delivered_participant n w a t reason :
  state (msg w) = Delivered ->
  exists w', perform room (S (S n)) (SetParticipantState a Delivered t reason) w = Some w' /\ quiet w w'.
Proof.
  intros E. change (perform room (S (S n)) (SetParticipantState a Delivered t reason) w)
    with (setParticipantState_body room (perform room (S n)) a Delivered t reason w).
  unfold setParticipantState_body. destruct (transition _ _) eqn:T; cbn [negb]; [|by exists w].
  cbv zeta. change (acknowledge room Delivered reason w) with w. rewrite !if_both.
  change (State_eqb Delivered NotDelivered) with false. cbv iota. rewrite orb_false_r.
  destruct (negb _ && _); [by exists w|].
  destruct (basicBackend room); [exists w; split; [by apply enter_again|done]|].
  destruct (enable_simple_group_chat_message_state room); (rewrite enter_again || rewrite delivered_in_group);
    try done; cbn [mbind option_bind]; eexists; (split; [reflexivity|]).
  - apply rtc_once, quiet_told.
  - destruct (getEvent w) as [ev|] eqn:Ev; [eapply rtc_l; [by eapply quiet_row|]|];
      apply rtc_once, quiet_told.
Qed.

(** The loop of [setState] on the participants. *)
Lemma delivered_participants n l w :
  state (msg w) = Delivered ->
  exists w', fold_left (deliver_participant room (perform room (S (S n)))) l (Some w) = Some w' /\ quiet w w'.
Proof.
  revert w. induction l as [|[a s] l IH]; intros w E; [by exists w|]. cbn [fold_left].
  assert (exists w1, deliver_participant room (perform room (S (S n))) (Some w) (a, s) = Some w1 /\
                     quiet w w1) as (w1 & -> & Q).
  { unfold deliver_participant. cbn [mbind option_bind fst]. destruct (isMe room a); [by exists w|].
    rewrite E. by apply delivered_participant. }
  destruct (IH w1) as (w' & E' & Q'); [by destruct (quiet_frame _ _ Q) as (-> & _)|].
  exists w'. split; [done|]. by transitivity w1.
Qed.

(** ** More fuel gives the same result *)

Section Monotone.
Context (f g : Call -> World -> option World).
Hypothesis le : forall c w, opt_le (f c w) (g c w).

Lemma deliver_participants_le l o o' :
  opt_le o o' -> opt_le (fold_left (deliver_participant room f) l o) (fold_left (deliver_participant room g) l o').
Proof.
  revert o o'. induction l as [|[a s] l IH]; intros o o' Ho; [done|]. apply IH.
  unfold deliver_participant. apply opt_le_bind; [done|]. intros w. apply opt_le_if; [apply opt_le_refl|apply le].
Qed.

Lemma setState_body_le s w : opt_le (setState_body room f s w) (setState_body room g s w).
Proof.
  unfold setState_body. cbv zeta.
  opt_le_tac; first [apply deliver_participants_le, opt_le_refl | apply le].
Qed.

Lemma in_group_le a s t reason w :
  opt_le (setParticipantState_in_group room f a s t reason w) (setParticipantState_in_group room g a s t reason w).
Proof. unfold setParticipantState_in_group. cbv zeta. opt_le_tac; apply le. Qed.

Lemma setParticipantState_body_le a s t reason w :
  opt_le (setParticipantState_body room f a s t reason w) (setParticipantState_body room g a s t reason w).
Proof. unfold setParticipantState_body. cbv zeta. opt_le_tac; first [apply in_group_le | apply le]. Qed.

End Monotone.

Lemma perform_S n c w : opt_le (perform room n c w) (perform room (S n) c w).
Proof.
  revert c w. induction n as [|n IH]; intros c w; [by intros x|].
  change (opt_le
    (match c with
     | SetState s => setState_body room (perform room n) s w
     | SetParticipantState a s t reason => setParticipantState_body room (perform room n) a s t reason w
     end)
    (match c with
     | SetState s => setState_body room (perform room (S n)) s w
     | SetParticipantState a s t reason => setParticipantState_body room (perform room (S n)) a s t reason w
     end)).
  destruct c; [by apply setState_body_le | by apply setParticipantState_body_le].
Qed.

Lemma perform_more n m c w : (n <= m)%nat -> opt_le (perform room n c w) (perform room m c w).
Proof.
  induction 1 as [|m _ IH]; [apply opt_le_refl|]. intros w' E. by apply perform_S, IH.
Qed.

Lemma deliver_loop_quiet n l w w' :
  state (msg w) = Delivered ->
  fold_left (deliver_participant room (perform room n)) l (Some w) = Some w' -> quiet w w'.
Proof.
  intros E F. destruct (delivered_participants n l w E) as (w1 & F1 & Q).
  apply (deliver_participants_le _ (perform room (S (S n)))) with (o' := Some w) in F;
    [|intros c w0; apply perform_more; lia|apply opt_le_refl].
  congruence.
Qed.

(** ** Every call is a sequence of small steps *)

(** What [setState] does once the transition is allowed: the participants follow,
    everybody is told, and the rest depends on the new state. *)
Definition participants_follow (n : nat) (s : State) (w : World) : option World :=
  if is_outgoing (direction (msg w)) && State_eqb s Delivered
  then fold_left (deliver_participant room (perform room n)) (getParticipantsState room (enter s w))
         (Some (enter s w))
  else Some (enter s w).

Definition after_notify (n : nat) (oldState : State) (resent : bool) (w : World) : option World :=
  if State_eqb (state (msg w)) FileTransferDone && negb (is_outgoing (direction (msg w))) &&
     negb (hasFileTransferContent (msg w)) && markedAsRead (msg w)
  then perform room n (SetParticipantState (room_me room) Displayed (now room) ReasonNone) w
  else if State_eqb (state (msg w)) Delivered && State_eqb oldState Idle &&
          negb (is_outgoing (direction (msg w))) && negb (ChatMessage_isValid w)
  then Some w
  else Some (finish_state room resent w).

Lemma enter_frame s w :
  let m := msg (enter s w) in
  state m = s /\ direction m = direction (msg w) /\ storageId m = storageId (msg w) /\
  log (enter s w) = log w /\ db (enter s w) = db w /\ imdn (enter s w) = imdn w.
Proof. unfold enter, clear_resent. cbn. by destruct (mAutomaticallyResent _ && _). Qed.

Lemma participants_follow_quiet n s w w' : participants_follow n s w = Some w' -> quiet (enter s w) w'.
Proof.
  unfold participants_follow. destruct (is_outgoing _); cbn [andb]; [|by intros [= <-]].
  destruct (State_eqb s Delivered) eqn:E; [|by intros [= <-]].
  apply deliver_loop_quiet. destruct (enter_frame s w) as (-> & _). by apply State_eqb_spec.
Qed.

Lemma participants_follow_total n s w : is_Some (participants_follow (S (S n)) s w).
Proof.
  unfold participants_follow. destruct (is_outgoing _); cbn [andb]; [|by eexists].
  destruct (State_eqb s Delivered) eqn:E; [|by eexists].
  apply State_eqb_spec in E.
  destruct (delivered_participants n (getParticipantsState room (enter s w)) (enter s w)) as (w' & -> & _);
    [by destruct (enter_frame s w) as (-> & _)|by eexists].
Qed.

Lemma setState_unfold n s w :
  transition (state (msg w)) s = true ->
  perform room (S n) (SetState s) w =
  participants_follow n s w ≫= fun w1 =>
  after_notify n (state (msg w)) (mAutomaticallyResent (msg w)) (notify_state (leave_transient w1)).
Proof.
  intros T. change (perform room (S n) (SetState s) w) with (setState_body room (perform room n) s w).
  unfold setState_body. rewrite T. cbn [negb]. cbv zeta. change (on_msg _ w) with (enter s w).
  pose proof (participants_follow_quiet n s w) as Q. unfold participants_follow in *.
  destruct (enter_frame s w) as (E1 & E2 & _). rewrite E1, E2.
  destruct (is_outgoing (direction (msg w))) eqn:O; cbn [andb].
  - destruct (State_eqb s Delivered).
    + destruct (fold_left _ _ _) as [w1|]; [|done]. cbn [mbind option_bind].
      destruct (quiet_frame _ _ (Q w1 eq_refl)) as (M & _).
      unfold leave_transient. by rewrite M, E1, E2, O.
    + cbn [mbind option_bind]. unfold leave_transient. by rewrite E1, E2, O.
  - cbn [mbind option_bind]. unfold leave_transient. by rewrite E2, O.
Qed.

Section Steps.
Variable n : nat.
Hypothesis IH : forall c w w', call_writes c -> perform room n c w = Some w' -> steps w w'.

Lemma setState_steps s w w' : perform room (S n) (SetState s) w = Some w' -> steps w w'.
Proof.
  destruct (transition (state (msg w)) s) eqn:T; [|rewrite refused_state by done; by intros [= <-]].
  rewrite setState_unfold by done. destruct (participants_follow n s w) as [w1|] eqn:F; [|discriminate].
  apply participants_follow_quiet in F. cbn [mbind option_bind]. unfold after_notify. intros E.
  eapply rtc_l; [by eapply step_enter|].
  destruct (_ && markedAsRead _); [eapply IH, E; apply writes_displayed|].
  destruct (_ && negb (ChatMessage_isValid _)); injection E as <-; [done|].
  apply rtc_once, step_finish.
Qed.

Lemma in_group_steps a s t reason w w' :
  Writes a s -> transition (getParticipantState room w a) s = true ->
  setParticipantState_in_group room (perform room n) a s t reason w = Some w' -> steps w w'.
Proof.
  intros W T. unfold setParticipantState_in_group. cbv zeta. intros E.
  set (w0 := match getEvent w with Some _ => _ | None => _ end) in E.
  assert (steps w w0) as S0.
  { subst w0. destruct (getEvent w) as [ev|] eqn:Ev; [|done].
    apply rtc_once, step_quiet. by eapply quiet_row. }
  transitivity w0; [done|]. revert E.
  apply steps_bind; [intros w1; case_match; [apply IH; cbn; auto | by intros [= <-]]|]. intros w1 w2.
  apply steps_bind.
  { intros w3. repeat case_match; first [apply IH; cbn; auto | by intros [= <-]]. }
  intros w3 w4. case_match; [|by intros [= <-]]. apply steps_bind.
  { intros w5. case_match; first [apply IH; cbn; auto | by intros [= <-]]. }
  intros w5 w6. case_match; intros [= <-]; [|done]. apply rtc_once, step_rejected.
Qed.

Lemma setParticipantState_steps a s t reason w w' :
  Writes a s -> setParticipantState_body room (perform room n) a s t reason w = Some w' -> steps w w'.
Proof.
  intros W. unfold setParticipantState_body.
  destruct (transition _ _) eqn:T; cbn [negb]; [|by intros [= <-]].
  cbv zeta. intros E.
  set (w0 := if weakEqual a (room_me room) then _ else w) in E.
  assert (steps w w0) as S0.
  { subst w0. destruct (weakEqual _ _); [|done]. apply rtc_once, step_acknowledge. }
  assert (getParticipantState room w0 a = getParticipantState room w a) as G.
  { subst w0. destruct (weakEqual _ _); [apply getParticipantState_acknowledge|done]. }
  transitivity w0; [done|]. revert E.
  destruct (_ && _); [destruct (State_eqb _ _); [apply IH; cbn; auto|by intros [= <-]]|].
  destruct (basicBackend room); [apply IH; cbn; auto|]. apply steps_bind.
  - intros w1. destruct (enable_simple_group_chat_message_state room); [apply IH; cbn; auto|].
    apply in_group_steps; [done|by rewrite G].
  - intros w1 w2 [= <-]. apply rtc_once, step_quiet, quiet_told.
Qed.

End Steps.

Lemma perform_steps n c w w' : call_writes c -> perform room n c w = Some w' -> steps w w'.
Proof.
  revert c w w'. induction n as [|n IH]; intros c w w' W; [discriminate|].
  destruct c; [by apply setState_steps | by apply setParticipantState_steps].
Qed.

(** ** The calls end *)

Definition ends (k : nat) (c : Call) (w : World) : Prop := forall n, is_Some (perform room (k + n) c w).

Lemma ends_more k k' c w : (k <= k')%nat -> ends k c w -> ends k' c w.
Proof.
  intros L E n. destruct (E n) as [w' E']. exists w'. by apply (perform_more (k + n)); [lia|].
Qed.

Lemma is_Some_bind {A B} (o : option A) (f : A -> option B) :
  is_Some o -> (forall x, o = Some x -> is_Some (f x)) -> is_Some (o ≫= f).
Proof. intros [x ->] K. by apply K. Qed.

(** Telling does not change the state. *)
Lemma notify_frame w w1 :
  quiet w w1 ->
  let m := msg (notify_state (leave_transient w1)) in
  state m = state (msg w) /\ direction m = direction (msg w) /\ storageId m = storageId (msg w) /\
  contents m = contents (msg w).
Proof.
  intros Q. destruct (quiet_frame _ _ Q) as (M & _). unfold notify_state, leave_transient.
  rewrite <- M. cbv zeta. repeat case_match; done.
Qed.

Lemma state_call_ends s w :
  s <> FileTransferDone \/ is_outgoing (direction (msg w)) = true -> ends 3 (SetState s) w.
Proof.
  intros C n. change (3 + n)%nat with (S (S (S n))).
  destruct (transition (state (msg w)) s) eqn:T; [|rewrite refused_state by done; by eexists].
  rewrite setState_unfold by done.
  apply is_Some_bind; [apply participants_follow_total|]. intros w1 F.
  apply participants_follow_quiet, notify_frame in F. cbv zeta in F.
  destruct F as (E1 & E2 & _), (enter_frame s w) as (E3 & E4 & _).
  unfold after_notify. rewrite E1, E2, E3, E4.
  assert (State_eqb s FileTransferDone && negb (is_outgoing (direction (msg w))) = false) as ->.
  { destruct C as [C| ->]; [by rewrite State_eqb_ne|apply andb_false_r]. }
  cbn [andb]. case_match; by eexists.
Qed.

Lemma state_of_counts_imdn c s : state_of_counts c = Some s -> s <> FileTransferDone.
Proof. unfold state_of_counts. repeat case_match; intros [= <-]; discriminate. Qed.

Lemma participant_call_ends_from k a s t reason w :
  (3 <= k)%nat ->
  (forall w, ends k (SetState s) w) ->
  (s = DeliveredToUser -> forall w, ends k (SetParticipantState a Displayed (now room) ReasonNone) w) ->
  ends (S k) (SetParticipantState a s t reason) w.
Proof.
  intros L Es Ed n. change (is_Some (setParticipantState_body room (perform room (k + n)) a s t reason w)).
  assert (forall w : World, is_Some (Some w)) as Triv by (intros; by eexists).
  unfold setParticipantState_body. destruct (negb _); [done|]. cbv zeta.
  destruct (_ && _); [destruct (State_eqb _ _); [apply Es|done]|].
  destruct (basicBackend room); [apply Es|].
  apply is_Some_bind; [|done].
  destruct (enable_simple_group_chat_message_state room); [apply Es|].
  unfold setParticipantState_in_group. cbv zeta.
  apply is_Some_bind; [destruct (_ && _); [apply Es|done]|]. intros w1 _.
  apply is_Some_bind.
  { destruct (isImdnControlledState s); [|done]. destruct (state_of_counts _) as [s'|] eqn:C; [|done].
    apply state_of_counts_imdn in C. by apply (ends_more 3); [lia|apply state_call_ends; left]. }
  intros w2 _. destruct (weakEqual a (room_me room)); [|done].
  apply is_Some_bind; [|done].
  destruct (_ && _) eqn:D; [|done]. apply andb_true_iff in D as [_ D].
  by apply Ed, State_eqb_spec.
Qed.

Lemma participant_call_ends a s t reason w :
  s <> FileTransferDone -> s <> DeliveredToUser -> ends 4 (SetParticipantState a s t reason) w.
Proof.
  intros N1 N2. apply participant_call_ends_from; [lia| |done].
  intros w0. by apply state_call_ends; left.
Qed.

Lemma transfer_done_ends w : ends 5 (SetState FileTransferDone) w.
Proof.
  intros n. change (5 + n)%nat with (S (S (S (2 + n)))).
  destruct (transition (state (msg w)) FileTransferDone) eqn:T; [|rewrite refused_state by done; by eexists].
  rewrite setState_unfold by done.
  apply is_Some_bind; [apply participants_follow_total|]. intros w1 _.
  unfold after_notify. destruct (_ && markedAsRead _); [|by destruct (_ && _); eexists].
  by apply participant_call_ends.
Qed.

Lemma call_ends c w : ends call_depth c w.
Proof.
  unfold call_depth. destruct c as [s|a s t reason].
  - destruct (decide (s = FileTransferDone)) as [->|N].
    + apply (ends_more 5); [lia|apply transfer_done_ends].
    + apply (ends_more 3); [lia|by apply state_call_ends; left].
  - destruct (decide (s = FileTransferDone)) as [->|N1].
    { apply participant_call_ends_from; [lia| |done]. apply transfer_done_ends. }
    destruct (decide (s = DeliveredToUser)) as [->|N2].
    { apply (ends_more 5); [lia|]. apply participant_call_ends_from; [lia| |].
      - intros w0. apply (ends_more 3); [lia|]. by apply state_call_ends; left.
      - intros _ w0. by apply participant_call_ends. }
    apply (ends_more 4); [lia|by apply participant_call_ends].
Qed.

End Props.

Section Calls.
Context `{AddressLib}.
Context (room : ChatRoom).

Lemma setParticipantState_total a s t reason w : is_Some (setParticipantState room a s t reason w).
Proof.
  exact (call_ends room (fun _ _ => True) (fun _ => I) (SetParticipantState a s t reason) w 0%nat).
Qed.

(** C12. The two functions that change the state of a message call each other, and
    their calls always end: [call_depth] levels are enough, whatever the room,
    the call and the state of the world, and more levels change nothing. *)
Theorem calls_end n c w :
  (call_depth <= n)%nat ->
  exists w', perform room n c w = Some w' /\ perform room call_depth c w = Some w'.
Proof.
  intros L.
  destruct (call_ends room (fun _ _ => True) (fun _ => I) c w 0%nat) as [w' E]. rewrite Nat.add_0_r in E.
  exists w'. split; [|done]. by apply (perform_more room call_depth).
Qed.

End Calls.

(** A receipt of bob, with more levels than it needs. *)
Lemma calls_end_witness :
  exists w', perform (group_of alice) 9 (SetParticipantState bob Displayed 60 ReasonNone) sent_world = Some w' /\
             perform (group_of alice) call_depth (SetParticipantState bob Displayed 60 ReasonNone) sent_world = Some w'.
Proof. apply (calls_end (group_of alice) 9). unfold call_depth. lia. Defined.

(** ** What holds after any call, by induction on the small steps *)

Section Invariants.
Context `{AddressLib}.
Context (room : ChatRoom) (Writes : Address -> State -> Prop).

Notation steps := (rtc (step room Writes)).

(** ** What the last part of [setState] leaves alone *)

(** Members that only [setState] and the acknowledgement write. *)
Definition same_delivery (m m' : ChatMessage) : Prop :=
  state m' = state m /\ direction m' = direction m /\ storageId m' = storageId m /\
  fromAddress m' = fromAddress m /\ mMeAddress m' = mMeAddress m /\ imdnId m' = imdnId m /\
  time m' = time m /\ markedAsRead m' = markedAsRead m /\
  positiveDeliveryNotificationRequired m' = positiveDeliveryNotificationRequired m /\
  negativeDeliveryNotificationRequired m' = negativeDeliveryNotificationRequired m /\
  displayNotificationRequired m' = displayNotificationRequired m.

Lemma same_delivery_refl m : same_delivery m m.
Proof. done. Qed.

Lemma same_delivery_trans m1 m2 m3 : same_delivery m1 m2 -> same_delivery m2 m3 -> same_delivery m1 m3.
Proof. unfold same_delivery. intros A B. intuition congruence. Qed.

(** A part of an operation that only tells of the countdown and of the wait for
    the network, and leaves the handler alone. *)
Definition is_aside (e : Event) : Prop :=
  match e with EphemeralCountDown _ | ListenForNetwork | MessageRejected | ChatRoomRead => True | _ => False end.

Definition aside (w w' : World) : Prop :=
  same_delivery (msg w) (msg w') /\ imdn w' = imdn w /\
  exists l, log w' = log w ++ l /\ Forall is_aside l.

Lemma aside_refl w : aside w w.
Proof. split; [done|]. split; [done|]. exists []. by rewrite app_nil_r. Qed.

Lemma aside_trans w1 w2 w3 : aside w1 w2 -> aside w2 w3 -> aside w1 w3.
Proof.
  intros (M1 & I1 & l1 & L1 & F1) (M2 & I2 & l2 & L2 & F2).
  split; [by eapply same_delivery_trans|]. split; [congruence|].
  exists (l1 ++ l2). rewrite L2, L1, app_assoc. split; [done|]. by apply Forall_app.
Qed.

Lemma aside_told e w : is_aside e -> aside w (tell e w).
Proof. intros A. split; [done|]. split; [done|]. exists [e]. by repeat constructor. Qed.

Lemma aside_same w w' :
  same_delivery (msg w) (msg w') -> imdn w' = imdn w -> log w' = log w -> aside w w'.
Proof. intros M I L. split; [done|]. split; [done|]. exists []. by rewrite app_nil_r. Qed.

Lemma aside_if (b : bool) w w' : aside w w' -> aside w (if b then w' else w).
Proof. destruct b; [done|]. intros _. apply aside_refl. Qed.

Lemma load_aside w : aside w (loadContentsFromDatabase w).
Proof. apply aside_if. by apply aside_same. Qed.

Lemma updateInDb_aside w : aside w (updateInDb room w).
Proof.
  unfold updateInDb. destruct (negb _); [apply aside_refl|].
  destruct (getEvent w) as [ev|]; [|apply aside_refl].
  eapply aside_trans; [apply load_aside|]. cbv zeta.
  eapply aside_trans; [|apply aside_if; by apply aside_same]. by apply aside_same.
Qed.

Lemma ephemeral_aside w : aside w (startEphemeralCountDown room w).
Proof.
  unfold startEphemeralCountDown. cbv zeta.
  destruct (getEvent _); [eapply aside_trans; [|by apply aside_told]|]; by apply aside_same.
Qed.

Lemma finish_aside b w : aside w (finish_state room b w).
Proof.
  unfold finish_state. cbv zeta.
  set (w1 := if _ && State_eqb _ Displayed then startEphemeralCountDown room w else w).
  set (w2 := if _ && _ then updateInDb room w1 else w1).
  set (w3 := if _ || _ then on_msg _ w2 else w2).
  apply aside_trans with w1; [apply aside_if, ephemeral_aside|].
  apply aside_trans with w2; [apply aside_if, updateInDb_aside|].
  apply aside_trans with w3; [apply aside_if; by apply aside_same|]. clearbody w3.
  destruct (State_eqb _ PendingDelivery); [|apply aside_refl].
  apply aside_trans with (tell ListenForNetwork w3); [by apply aside_told|].
  apply aside_if. by apply aside_same.
Qed.

(** ** The states told to the application *)

(** Each state follows the one before it. *)
Fixpoint fsm_path (s : State) (l : list State) : Prop :=
  match l with
  | [] => True
  | s' :: l' => transition s s' = true /\ fsm_path s' l'
  end.

Definition told_state (e : Event) : option State :=
  match e with StateChanged s _ => Some s | _ => None end.

Definition told_states (l : list Event) : list State := omap told_state l.

(** The last state told, [s] when there is none. *)
Fixpoint last_told (s : State) (l : list State) : State :=
  match l with [] => s | s' :: l' => last_told s' l' end.

Lemma fsm_path_app s l1 l2 : fsm_path s (l1 ++ l2) <-> fsm_path s l1 /\ fsm_path (last_told s l1) l2.
Proof. revert s. induction l1 as [|a l1 IH]; intros s; cbn; [tauto|]. rewrite IH. tauto. Qed.

Lemma last_told_app s l1 l2 : last_told s (l1 ++ l2) = last_told (last_told s l1) l2.
Proof. revert s. by induction l1 as [|a l1 IH]; intros s; cbn. Qed.

(** [w'] was reached from [w] along the state machine, telling every state. *)
Definition along (w w' : World) : Prop :=
  exists l, log w' = log w ++ l /\ fsm_path (state (msg w)) (told_states l) /\
            state (msg w') = last_told (state (msg w)) (told_states l).

Lemma along_refl w : along w w.
Proof. exists []. by rewrite app_nil_r. Qed.

Lemma along_trans w1 w2 w3 : along w1 w2 -> along w2 w3 -> along w1 w3.
Proof.
  intros (l1 & L1 & P1 & S1) (l2 & L2 & P2 & S2). exists (l1 ++ l2).
  unfold told_states in *. rewrite omap_app, fsm_path_app, last_told_app, L2, L1, app_assoc, <- S1.
  done.
Qed.

Lemma along_silent w w' l :
  state (msg w') = state (msg w) -> log w' = log w ++ l -> told_states l = [] -> along w w'.
Proof. intros S L T. exists l. by rewrite T. Qed.

Lemma aside_silent l : Forall is_aside l -> told_states l = [].
Proof. induction 1 as [|e l A _ IH]; [done|]. by destruct e. Qed.

Lemma imdn_silent sent : told_states (map ImdnSent sent) = [].
Proof. by induction sent. Qed.

Lemma aside_along w w' : aside w w' -> along w w'.
Proof. intros ((S & _) & _ & l & L & F). eapply along_silent; eauto using aside_silent. Qed.

Lemma quiet_step_log w w' : quiet_step room Writes w w' -> exists l, log w' = log w ++ l /\ told_states l = [].
Proof. destruct 1; [exists []; by rewrite app_nil_r | by eexists]. Qed.

Lemma quiet_log w w' : rtc (quiet_step room Writes) w w' -> exists l, log w' = log w ++ l /\ told_states l = [].
Proof.
  induction 1 as [w|w1 w2 w3 S _ (l2 & L2 & T2)]; [exists []; by rewrite app_nil_r|].
  destruct (quiet_step_log _ _ S) as (l1 & L1 & T1). exists (l1 ++ l2).
  unfold told_states in *. by rewrite L2, L1, app_assoc, omap_app, T1, T2.
Qed.

Lemma notify_log w1 :
  log (notify_state (leave_transient w1)) = log w1 ++ [StateChanged (state (msg w1)) (listeners (msg w1))].
Proof. unfold notify_state, leave_transient. by repeat case_match. Qed.

Lemma step_along w w' : step room Writes w w' -> along w w'.
Proof.
  destruct 1 as [w w' Q|w s reason|w s w1 T Q|w b|w].
  - destruct (quiet_step_log _ _ Q) as (l & L & S), (quiet_step_frame _ _ _ _ Q) as (M & _).
    eapply along_silent; eauto. by rewrite M.
  - destruct (acknowledge_frame room s reason w) as (S & _ & _ & sent & L).
    eapply along_silent; eauto using imdn_silent.
  - destruct (quiet_log _ _ Q) as (l & L & N), (enter_frame s w) as (S & _ & _ & E & _).
    destruct (notify_frame room Writes _ _ Q) as (F & _), (quiet_frame _ _ _ _ Q) as (M & _).
    exists (l ++ [StateChanged (state (msg w1)) (listeners (msg w1))]).
    unfold told_states in *. rewrite notify_log. rewrite L, E, omap_app, N, app_assoc, M, S.
    cbn. rewrite F, S. by repeat split.
  - apply aside_along, finish_aside.
  - by apply aside_along, aside_told.
Qed.

Lemma steps_along w w' : steps w w' -> along w w'.
Proof.
  induction 1 as [w|w1 w2 w3 S _ IH]; [apply along_refl|].
  eapply along_trans; [by apply step_along|done].
Qed.

End Invariants.
