(* ===== verification/ChatMessageHistory.v ===== *)
(** * The history of a chat message

    Everything that can happen to a message, in any order, the room changing
    between two operations (participants, network, time): the invariants of
    [ChatMessageProps] hold over whole histories. *)
From S2P Require Import Prelude ChatTypes ImdnHandler ImdnProps ChatMessage ChatExamples ChatMessageProps.

Section History.
Context `{AddressLib}.

(** ** Operations *)

(** What the core tells the notification handler. *)
Inductive HandlerEvent :=
  | TimerExpired
  | RegistrationStateChanged (ok : bool)
  | NetworkReachable (sipNetworkReachable : bool)
  | GlobalStateChanged (shutdown : bool)
  | LinphoneCoreStop
  | ImdnMessageDelivered (message : ImdnMessage)
  | ImdnMessageNotDelivered (message : ImdnMessage).

Definition handle (env : ImdnEnv) (e : HandlerEvent) (info : nat -> MessageInfo) (h : Imdn)
    : Imdn * list ImdnMessage :=
  match e with
  | TimerExpired => timerExpired env info h
  | RegistrationStateChanged ok => onRegistrationStateChanged env info ok h
  | NetworkReachable b => onNetworkReachable env info b h
  | GlobalStateChanged b => onGlobalStateChanged env info b h
  | LinphoneCoreStop => (onLinphoneCoreStop h, [])
  | ImdnMessageDelivered m => (onImdnMessageDelivered m h, [])
  | ImdnMessageNotDelivered m => (onImdnMessageNotDelivered m h, [])
  end.

Inductive Operation :=
  | OpSetParticipantState (a : Address) (s : State) (t : Z) (reason : LinphoneReason)
  | OpMarkAsRead
  | OpEndMessageReception
  | OpCancelFileTransfer (inProgress : bool)
  | OpResetParticipants
  | OpStoreInDb (eventId : option Z)
  | OpUpdateInDb
  | OpDeliveryUpdate (status : SalMessageDeliveryStatus) (ioError coreOn : bool) (reason : LinphoneReason)
  | OpHandler (e : HandlerEvent).

Definition run_operation (room : ChatRoom) (o : Operation) (w : World) : option World :=
  match o with
  | OpSetParticipantState a s t reason => setParticipantState room a s t reason w
  | OpMarkAsRead => markAsRead room w
  | OpEndMessageReception => endMessageReception room w
  | OpCancelFileTransfer inProgress => cancelFileTransfer room inProgress w
  | OpResetParticipants => reset_participants room w
  | OpStoreInDb eventId => storeInDb room eventId w
  | OpUpdateInDb => Some (updateInDb room w)
  | OpDeliveryUpdate status ioError coreOn reason => message_delivery_update room status ioError coreOn reason w
  | OpHandler e => Some (on_imdn room (handle (room_imdn room) e) w)
  end.

(** Operations one after the other, each in the room as it is then. *)
Fixpoint run_history (history : list (ChatRoom * Operation)) (w : World) : option World :=
  match history with
  | [] => Some w
  | (room, o) :: history => run_operation room o w ≫= run_history history
  end.

(** ** Steps of an operation *)

Section Steps.
Context (room : ChatRoom) (Writes : Address -> State -> Prop).

(** The states up to [Displayed] may be written for anyone. *)
Hypothesis writes_early : forall a s, State_int s <= State_int Displayed -> Writes a s.

Inductive happens : World -> World -> Prop :=
  | happens_step w w' : step room Writes w w' -> happens w w'
  | happens_update w : happens w (updateInDb room w)
  | happens_mark w : happens w (on_msg (fun m => m <| markedAsRead := true |>) w)
  | happens_members w tm te uc :
      happens w (w <| transientMessage := tm |> <| transientEvent := te |> <| unreadCount := uc |>)
  | happens_read w : happens w (tell ChatRoomRead w)
  | happens_load w : happens w (loadContentsFromDatabase w)
  | happens_add w eventId : storageId (msg w) < 0 -> happens w (addEvent room eventId w)
  | happens_handler w e : happens w (on_imdn room (handle (room_imdn room) e) w).

Notation happen := (rtc happens).

(** The states an operation itself may write. *)
Definition operation_writes (o : Operation) (w : World) : Prop :=
  match o with
  | OpSetParticipantState a s _ _ => Writes a s
  | OpStoreInDb _ => forall s, Writes (mMeAddress (msg w)) s
  | OpDeliveryUpdate _ _ _ _ => forall s, Writes (room_me room) s
  | _ => True
  end.

Lemma step_happen w w' : rtc (step room Writes) w w' -> happen w w'.
Proof. induction 1; [done|eapply rtc_l; [by apply happens_step|done]]. Qed.

Lemma participant_happens a s t reason w w' :
  Writes a s -> setParticipantState room a s t reason w = Some w' -> happen w w'.
Proof.
  intros W E. eapply step_happen, perform_steps; [| | |exact E]; [..|done]; intros b; by apply writes_early.
Qed.

Lemma early_happens a s t reason w w' :
  State_int s <= State_int Displayed -> setParticipantState room a s t reason w = Some w' -> happen w w'.
Proof. intros L. by apply participant_happens, writes_early. Qed.

Lemma happen_bind (o : option World) (f : World -> option World) w w' :
  (forall w1, o = Some w1 -> happen w w1) ->
  (forall w1, f w1 = Some w' -> happen w1 w') ->
  o ≫= f = Some w' -> happen w w'.
Proof. intros Ho Hf. destruct o as [w1|]; cbn; [|discriminate]. intros E. transitivity w1; eauto. Qed.

Lemma happens_transientMessage b w : happens w (w <| transientMessage := b |>).
Proof. exact (happens_members w b (transientEvent w) (unreadCount w)). Qed.

Lemma happens_transientEvent b w : happens w (w <| transientEvent := b |>).
Proof. exact (happens_members w (transientMessage w) b (unreadCount w)). Qed.

Lemma happens_count w : happen w (getUnreadChatMessageCount room w).2.
Proof.
  unfold getUnreadChatMessageCount. destruct (unreadCount w); [done|]. apply rtc_once.
  exact (happens_members w (transientMessage w) (transientEvent w) _).
Qed.

Lemma markAsRead_happens w w' : markAsRead room w = Some w' -> happen w w'.
Proof.
  unfold markAsRead. destruct (negb _); [by intros [= <-]|]. cbv zeta. intros E.
  eapply rtc_l; [apply happens_mark|]. revert E. apply happen_bind.
  - intros w1. destruct (negb _); [by apply early_happens|by intros [= <-]].
  - intros w1. set (w2 := if State_eqb _ _ then w1 else updateInDb room w1).
    assert (happen w1 w2) as S by (subst w2; destruct (State_eqb _ _); [done|apply rtc_once, happens_update]).
    pose proof (happens_count w2) as C. destruct (getUnreadChatMessageCount room w2) as [c w3].
    intros [= <-]. transitivity w2; [done|]. transitivity w3; [done|].
    destruct (c =? 0); [apply rtc_once, happens_read|done].
Qed.

Lemma endMessageReception_happens w w' : endMessageReception room w = Some w' -> happen w w'.
Proof.
  unfold endMessageReception. cbv zeta. intros E.
  eapply rtc_l; [apply (happens_transientMessage false)|]. revert E. apply happen_bind.
  - intros w1. by apply early_happens.
  - intros w1. destruct (_ && _); [by apply early_happens|by intros [= <-]].
Qed.

Lemma cancelFileTransfer_happens b w w' : cancelFileTransfer room b w = Some w' -> happen w w'.
Proof.
  unfold cancelFileTransfer. destruct (_ && _); [|by intros [= <-]].
  destruct (isAutoDownloadAttachedFilesInProgress _); [|by apply early_happens]. apply happen_bind.
  - intros w1. by apply early_happens.
  - intros w1 [= <-]. apply rtc_once, happens_transientMessage.
Qed.

Lemma reset_participants_happens w w' : reset_participants room w = Some w' -> happen w w'.
Proof.
  unfold reset_participants. apply happen_bind; [|intros w1 [= <-]; apply rtc_once, happens_update].
  generalize (getParticipantsState room w). intros l. revert w. induction l as [|p l IH]; intros w w1.
  - by intros [= <-].
  - cbn [fold_left]. unfold reset_participant at 2. cbn [mbind option_bind].
    destruct (setParticipantState _ _ _ _ _ _) as [w2|] eqn:E; intros F.
    + transitivity w2; [by eapply early_happens, E|by apply IH].
    + exfalso. clear -F. induction l as [|q l IH]; [discriminate F|]. apply IH, F.
Qed.

Lemma storeInDb_happens eventId w w' :
  (forall s, Writes (mMeAddress (msg w)) s) -> storeInDb room eventId w = Some w' -> happen w w'.
Proof.
  intros W. unfold storeInDb. destruct (conference_server_enabled room); [by intros [= <-]|].
  destruct (ChatMessage_isValid w) eqn:V; [intros [= <-]; apply rtc_once, happens_update|]. cbv zeta. intros E.
  assert (storageId (msg (loadContentsFromDatabase w)) < 0) as L.
  { destruct (load_aside w) as ((_ & _ & -> & _) & _). unfold ChatMessage_isValid in V. by apply Z.leb_gt in V. }
  eapply rtc_l; [apply happens_load|]. eapply rtc_l; [by apply (happens_add _ eventId)|].
  revert E. apply happen_bind; [|intros w1 [= <-]; case_match; [apply rtc_once, happens_transientEvent|done]].
  intros w1. destruct (bool_decide _); [|by intros [= <-]]. apply participant_happens.
  assert (mMeAddress (msg (addEvent room eventId (loadContentsFromDatabase w))) = mMeAddress (msg w)) as ->; [|done].
  destruct (load_aside w) as ((_ & _ & _ & _ & E & _) & _). rewrite <- E. by destruct eventId.
Qed.

Lemma operation_happens o w w' : operation_writes o w -> run_operation room o w = Some w' -> happen w w'.
Proof.
  destruct o; cbn [operation_writes run_operation]; intros W.
  - by apply participant_happens.
  - apply markAsRead_happens.
  - apply endMessageReception_happens.
  - apply cancelFileTransfer_happens.
  - apply reset_participants_happens.
  - by apply storeInDb_happens.
  - intros [= <-]. apply rtc_once, happens_update.
  - by apply participant_happens.
  - intros [= <-]. apply rtc_once, happens_handler.
Qed.

(** ** Every happening goes along the state machine *)

Lemma happens_along w w' : happens w w' -> along w w'.
Proof.
  assert (forall w0 w1, state (msg w1) = state (msg w0) -> log w1 = log w0 -> along w0 w1) as K.
  { intros w0 w1 S L. apply (along_silent _ _ []); [done| |done]. by rewrite app_nil_r. }
  destruct 1 as [w w' S|w|w|w tm te uc|w|w|w id V|w e].
  - by eapply step_along.
  - apply aside_along, updateInDb_aside.
  - by apply K.
  - by apply K.
  - by apply aside_along, aside_told.
  - apply aside_along, load_aside.
  - apply K; by destruct id.
  - rewrite on_imdn_eq. eapply along_silent; [done|reflexivity|apply imdn_silent].
Qed.

Lemma happen_along w w' : happen w w' -> along w w'.
Proof.
  induction 1 as [w|w1 w2 w3 S _ IH]; [apply along_refl|]. eapply along_trans; [by apply happens_along|done].
Qed.

End Steps.

(** ** Histories end *)

Lemma bind_total (o : option World) (f : World -> option World) :
  is_Some o -> (forall w, is_Some (f w)) -> is_Some (o ≫= f).
Proof. intros [w ->] K. apply K. Qed.

Lemma total_if (b : bool) (o o' : option World) : is_Some o -> is_Some o' -> is_Some (if b then o else o').
Proof. by destruct b. Qed.

Lemma total_some (w : World) : is_Some (Some w).
Proof. by eexists. Qed.

Ltac total :=
  cbv zeta;
  repeat lazymatch goal with
  | |- is_Some (setParticipantState _ _ _ _ _ _) => apply setParticipantState_total
  | |- is_Some (Some _) => apply total_some
  | |- is_Some (if _ then _ else _) => apply total_if
  | |- is_Some (_ ≫= _) => apply bind_total; [|intros ?]
  | |- is_Some (let '(_, _) := ?p in _) => destruct p
  end.

Lemma reset_participants_total room w : is_Some (reset_participants room w).
Proof.
  unfold reset_participants. apply bind_total; [|intros ?; apply total_some].
  generalize (getParticipantsState room w). intros l.
  revert w. induction l as [|p l IH]; intros w; [apply total_some|].
  change (is_Some (fold_left (reset_participant room) l (setParticipantState room p.1 Idle (time (msg w)) ReasonNone w))).
  destruct (setParticipantState_total room p.1 Idle (time (msg w)) ReasonNone w) as [w1 ->]. apply IH.
Qed.

Lemma run_operation_total room o w : is_Some (run_operation room o w).
Proof.
  destruct o; cbn [run_operation]; try apply reset_participants_total;
    unfold markAsRead, endMessageReception, cancelFileTransfer, storeInDb, message_delivery_update; total.
Qed.

Lemma run_history_total history w : is_Some (run_history history w).
Proof.
  revert w. induction history as [|[room o] history IH]; intros w; [apply total_some|].
  apply bind_total; [apply run_operation_total|done].
Qed.

Lemma run_history_along history w w' : run_history history w = Some w' -> along w w'.
Proof.
  revert w. induction history as [|[room o] history IH]; intros w; [intros [= <-]; apply along_refl|].
  cbn [run_history]. destruct (run_operation room o w) as [w1|] eqn:E; [|discriminate]. cbn [mbind option_bind].
  intros R. eapply along_trans; [|by apply IH].
  eapply (happen_along room (fun _ _ => True)), (operation_happens room (fun _ _ => True)); [done| |exact E].
  by destruct o.
Qed.

(** C8. Whatever happens to a message, in any order, in a room that changes
    meanwhile, every operation ends, the states the application is told are a path
    of the state machine from the state the message had, and the message is in
    the last one. *)
Theorem told_states_follow_the_machine history w :
  exists w' l,
    run_history history w = Some w' /\ log w' = log w ++ l /\
    fsm_path (state (msg w)) (told_states l) /\ state (msg w') = last_told (state (msg w)) (told_states l).
Proof.
  destruct (run_history_total history w) as [w' E]. exists w'.
  destruct (run_history_along history w w' E) as (l & L & P & S). by exists l.
Qed.

(** ** Acknowledgements

    Each kind of notification has a flag on the message, which is cleared when
    the notification is handed to the handler.  The notifications sent, those
    pending and the flag together are a budget that never grows. *)

Definition sent_message (e : Event) : option ImdnMessage :=
  match e with ImdnSent m => Some m | _ => None end.

(** The notifications of a kind sent for the message [n] so far. *)
Definition acks_sent (n : nat) (k : Ack) (w : World) : nat := sent_acks n k (omap sent_message (log w)).

Definition still_required (k : Ack) (m : ChatMessage) : bool :=
  match k with
  | AckDelivery => positiveDeliveryNotificationRequired m
  | AckDisplay => displayNotificationRequired m
  | AckError => negativeDeliveryNotificationRequired m
  end.

Definition budget (n : nat) (k : Ack) (w : World) : nat :=
  acks_sent n k w + count_acks n k (pending (imdn w)) + (if still_required k (msg w) then 1 else 0).

Section Budget.
Context (room : ChatRoom) (k : Ack).
Notation remaining := (budget (self room) k).

Lemma acks_sent_app w w' l :
  log w' = log w ++ l -> acks_sent (self room) k w' = (acks_sent (self room) k w + sent_acks (self room) k (omap sent_message l))%nat.
Proof.
  intros L. unfold acks_sent, sent_acks.
  by rewrite L, omap_app, flat_map_app, map_app, count_acks_app.
Qed.

Lemma sent_messages sent : omap sent_message (map ImdnSent sent) = sent.
Proof. induction sent as [|m l IH]; [done|]. cbn. by rewrite IH. Qed.

Lemma budget_same w w' l :
  log w' = log w ++ l -> omap sent_message l = [] -> imdn w' = imdn w ->
  still_required k (msg w') = still_required k (msg w) -> remaining w' = remaining w.
Proof.
  intros L N I S. unfold budget. rewrite (acks_sent_app w w' l L), N, I, S.
  change (sent_acks _ _ []) with 0%nat. lia.
Qed.

Lemma same_delivery_required m m' : same_delivery m m' -> still_required k m' = still_required k m.
Proof. intros (_ & _ & _ & _ & _ & _ & _ & _ & P & N & D). by destruct k. Qed.

Lemma aside_budget w w' : aside w w' -> remaining w' = remaining w.
Proof.
  intros (M & I & l & L & F). apply (budget_same _ _ l); [done| |done|by apply same_delivery_required].
  clear L. induction F as [|e l A _ IH]; [done|]. by destruct e.
Qed.

(** An operation of the handler, on a message whose flags are those of [w]. *)
Lemma on_imdn_budget w w0 op extra :
  (forall info h, within (self room) k extra h (op info h)) ->
  log w0 = log w -> imdn w0 = imdn w ->
  (extra + (if still_required k (msg w0) then 1 else 0) <= if still_required k (msg w) then 1 else 0)%nat ->
  (remaining (on_imdn room op w0) <= remaining w)%nat.
Proof.
  intros W L I F. rewrite on_imdn_eq. specialize (W (info_of room w0) (imdn w0)). unfold within in W.
  unfold budget at 1.
  rewrite (acks_sent_app w _ (map ImdnSent (op (info_of room w0) (imdn w0)).2)) by (cbn; by rewrite L).
  rewrite sent_messages. cbn [imdn msg log update]. rewrite I in W |- *.
  unfold budget. lia.
Qed.

Lemma on_imdn_budget_0 w op :
  (forall info h, within (self room) k 0 h (op info h)) -> (remaining (on_imdn room op w) <= remaining w)%nat.
Proof. intros W. by apply (on_imdn_budget w w op 0). Qed.

Lemma count_own n : n.1.1 = self room -> count_acks (self room) k [n] = if bool_decide (ack_of n = k) then 1%nat else 0%nat.
Proof. intros E. unfold count_acks, is_ack. cbn. rewrite E, Nat.eqb_refl. by case_bool_decide. Qed.

Lemma acknowledge_budget s reason w : (remaining (acknowledge room s reason w) <= remaining w)%nat.
Proof.
  destruct s; cbn [acknowledge]; try done.
  - destruct (bool_decide (reason = ReasonNone)) eqn:R; [done|].
    unfold sendDeliveryErrorNotification. destruct (_ && _) eqn:E; [|done]. apply andb_true_iff in E as [_ E].
    eapply on_imdn_budget; [intros info h; apply notifyDeliveryError_within|done|done|].
    rewrite count_own by done. unfold ack_of. cbn. rewrite R. clear R.
    destruct k; cbn [still_required]; case_bool_decide; try congruence; cbn; rewrite ?E; repeat case_match; lia.
  - unfold sendDeliveryNotification. destruct (_ && _) eqn:E; [|done]. apply andb_true_iff in E as [_ E].
    eapply on_imdn_budget; [intros info h; apply notifyDelivery_within|done|done|].
    rewrite count_own by done. change (ack_of (delivered_notice (self room))) with AckDelivery.
    destruct k; cbn [still_required]; case_bool_decide; try congruence; cbn; rewrite ?E; repeat case_match; lia.
  - unfold sendDisplayNotification. destruct (_ && _) eqn:E; [|done]. apply andb_true_iff in E as [_ E].
    eapply on_imdn_budget; [intros info h; apply notifyDisplay_within|done|done|].
    rewrite count_own by done. change (ack_of (displayed_notice (self room))) with AckDisplay.
    destruct k; cbn [still_required]; case_bool_decide; try congruence; cbn; rewrite ?E; repeat case_match; lia.
Qed.

(** Removing messages from a list of the handler. *)
Lemma removed_acks {M R} (f : M -> Notice) (rem : R -> list M -> list M) rs l :
  (forall r l, exists p, rem r l = List.filter p l) ->
  (count_acks (self room) k (map f (fold_left (fun l r => rem r l) rs l)) <= count_acks (self room) k (map f l))%nat.
Proof.
  intros F. revert l. induction rs as [|r rs IH]; intros l; [done|]. cbn. etransitivity; [apply IH|].
  destruct (F r l) as [p ->]. unfold count_acks. induction l as [|x l IHl]; [done|]. cbn.
  destruct (p x); cbn; destruct (is_ack _ _ _); cbn; lia.
Qed.

Lemma handle_within env e info h : within (self room) k 0 h (handle env e info h).
Proof.
  assert (forall b h0, pending h0 = pending h ->
    within (self room) k 0 h (if b : bool then send env info h0 else (h, []))) as K.
  { intros b h0 E. destruct b; [|apply within_none]. eapply within_more; [apply send_within|]. rewrite E. lia. }
  destruct e; cbn [handle].
  - apply (K true). done.
  - by apply K.
  - by apply K.
  - by apply K.
  - unfold within. cbn. lia.
  - unfold within, sent_acks. cbn [fst snd flat_map map]. change (count_acks _ _ []) with 0%nat.
    unfold pending, pending_acks, pending_errors, onImdnMessageDelivered.
    cbn [deliveredMessages displayedMessages nonDeliveredMessages update]. rewrite !count_acks_app.
    pose proof (removed_acks delivered_notice remove_all (im_deliveredMessages message) (deliveredMessages h)
      (fun r l => ex_intro _ _ eq_refl)).
    pose proof (removed_acks displayed_notice remove_all (im_displayedMessages message) (displayedMessages h)
      (fun r l => ex_intro _ _ eq_refl)).
    pose proof (removed_acks error_notice remove_reason (im_nonDeliveredMessages message) (nonDeliveredMessages h)
      (fun r l => ex_intro _ _ eq_refl)). lia.
  - apply (within_none _ _ 0 h).
Qed.

Lemma quiet_budget Writes w w' : rtc (quiet_step room Writes) w w' -> remaining w' = remaining w.
Proof.
  induction 1 as [w|w1 w2 w3 S _ IH]; [done|]. rewrite IH. destruct S.
  - by apply (budget_same _ _ []); rewrite ?app_nil_r.
  - by eapply (budget_same _ _ [_]).
Qed.

Lemma step_budget Writes w w' : step room Writes w w' -> (remaining w' <= remaining w)%nat.
Proof.
  destruct 1 as [w w' Q|w s reason|w s w1 T Q|w b|w].
  - by rewrite (quiet_budget Writes w w') by (by apply rtc_once).
  - apply acknowledge_budget.
  - rewrite <- (Nat.eq_le_incl (remaining (enter s w)) (remaining w)).
    + rewrite <- (quiet_budget _ _ _ Q). apply Nat.eq_le_incl. eapply budget_same; [apply notify_log|done|..];
        unfold notify_state, leave_transient; repeat case_match; done.
    + destruct (enter_frame s w) as (_ & _ & _ & L & _ & I).
      apply (budget_same _ _ []); rewrite ?app_nil_r; [done..|].
      unfold enter, clear_resent. cbn. destruct k; by repeat case_match.
  - by rewrite (aside_budget _ _ (finish_aside room b w)).
  - by rewrite (aside_budget _ _ (aside_told MessageRejected w I)).
Qed.

Lemma happens_budget Writes w w' : happens room Writes w w' -> (remaining w' <= remaining w)%nat.
Proof.
  destruct 1 as [w w' S|w|w|w tm te uc|w|w|w id V|w e].
  - by eapply step_budget.
  - by rewrite (aside_budget _ _ (updateInDb_aside room w)).
  - apply Nat.eq_le_incl. apply (budget_same _ _ []); rewrite ?app_nil_r; done.
  - apply Nat.eq_le_incl. apply (budget_same _ _ []); rewrite ?app_nil_r; done.
  - by rewrite (aside_budget _ _ (aside_told ChatRoomRead w I)).
  - by rewrite (aside_budget _ _ (load_aside w)).
  - apply Nat.eq_le_incl. destruct id; apply (budget_same _ _ []); rewrite ?app_nil_r; done.
  - apply on_imdn_budget_0. intros info h. apply handle_within.
Qed.

Lemma happen_budget Writes w w' : rtc (happens room Writes) w w' -> (remaining w' <= remaining w)%nat.
Proof.
  induction 1 as [|w1 w2 w3 S _ IH]; [done|]. etransitivity; [exact IH|]. by eapply happens_budget.
Qed.

End Budget.

Lemma run_history_budget n k history w w' :
  Forall (fun x => self x.1 = n) history -> run_history history w = Some w' ->
  (budget n k w' <= budget n k w)%nat.
Proof.
  revert w. induction history as [|[room o] history IH]; intros w F; [by intros [= <-]|].
  inversion F as [|x l E F']; subst. cbn [run_history fst].
  destruct (run_operation room o w) as [w1|] eqn:R; [|discriminate]. cbn [mbind option_bind]. intros R'.
  etransitivity; [by apply IH|]. cbn [fst].
  eapply (happen_budget room k (fun _ _ => True)), (operation_happens room (fun _ _ => True)); [done| |exact R].
  by destruct o.
Qed.

(** C11. Whatever happens to a message that has not been acknowledged yet, at most
    one notification of each kind (delivery, display, error) is ever sent for it,
    and none of a kind that was not required. *)
Theorem acknowledged_at_most_once n k history w w' :
  Forall (fun x => self x.1 = n) history ->
  acks_sent n k w = 0%nat -> count_acks n k (pending (imdn w)) = 0%nat ->
  run_history history w = Some w' ->
  (acks_sent n k w' <= if still_required k (msg w) then 1 else 0)%nat.
Proof.
  intros F S P R. pose proof (run_history_budget n k history w w' F R) as B.
  unfold budget in B. rewrite S, P in B. lia.
Qed.

End History.

(** Bob reads a message, twice, and the timer of the notifications expires: one
    display notification is sent. *)
Lemma acknowledged_at_most_once_witness :
  exists w',
    run_history [(group_of bob, OpMarkAsRead); (group_of bob, OpHandler TimerExpired);
                 (group_of bob, OpMarkAsRead); (group_of bob, OpHandler TimerExpired)] received_world = Some w' /\
    acks_sent 1 AckDisplay w' = 1%nat /\
    (acks_sent 1 AckDisplay w' <= if still_required AckDisplay (msg received_world) then 1 else 0)%nat.
Proof.
  eexists. split; [vm_compute; reflexivity|]. split; [vm_compute; reflexivity|].
  eapply acknowledged_at_most_once with
    (history := [(group_of bob, OpMarkAsRead); (group_of bob, OpHandler TimerExpired);
                 (group_of bob, OpMarkAsRead); (group_of bob, OpHandler TimerExpired)]);
    [repeat constructor|vm_compute; reflexivity|vm_compute; reflexivity|vm_compute; reflexivity].
Defined.
