(* ===== verification/ChatMessageRows.v ===== *)
(** * The rows of the participants

    The database keeps a state for each participant of a message.  Here: what
    [setChatMessageParticipantState] does to the rows, that a participant who has
    displayed a message stays so through every history, and that sending a
    message again forgets the failures. *)
From S2P Require Import Prelude ChatTypes ImdnHandler ImdnProps ChatMessage ChatExamples ChatMessageProps ChatMessageHistory.

Section Rows.
Context `{AddressLib}.

(** ** One row *)

Lemma participant_row_app k rows r :
  participant_row k (rows ++ [r]) =
  match participant_row k rows with
  | Some r' => Some r'
  | None => if String.eqb (pr_address r) k then Some r else None
  end.
Proof. unfold participant_row. rewrite find_app. by destruct (List.find _ rows). Qed.

(** Changing the state and the time of the rows of an address. *)
Definition set_row (key : string) (s : State) (t : Z) (r : ParticipantRow) : ParticipantRow :=
  if String.eqb (pr_address r) key then r <| pr_state := s |> <| pr_time := t |> else r.

Lemma set_row_address key s t r : pr_address (set_row key s t r) = pr_address r.
Proof. unfold set_row. by destruct (String.eqb _ _). Qed.

Lemma participant_row_map key s t k rows :
  participant_row k (map (set_row key s t) rows) = option_map (set_row key s t) (participant_row k rows).
Proof.
  unfold participant_row. induction rows as [|r rows IH]; [done|]. cbn. rewrite set_row_address.
  by destruct (String.eqb (pr_address r) k).
Qed.

Lemma participant_row_address k rows r : participant_row k rows = Some r -> pr_address r = k.
Proof. intros F. apply find_some in F as [_ F]. by apply String.eqb_eq. Qed.

(** What is written for an address: a new row, the row as it was when that would
    take back that the message was read or received, or the row changed. *)
Lemma set_participant_row a s t rows k :
  participant_row k (setChatMessageParticipantState a s t rows) =
  match participant_row k rows with
  | None => if String.eqb (sip_address (getUriWithoutGruu a)) k then Some (mkRow k s t) else None
  | Some r =>
      if String.eqb (sip_address (getUriWithoutGruu a)) k &&
         negb ((State_int s <? State_int (pr_state r)) &&
               (State_eqb (pr_state r) Displayed || State_eqb (pr_state r) DeliveredToUser))
      then Some (mkRow k s t) else Some r
  end.
Proof.
  unfold setChatMessageParticipantState. cbv zeta. set (key := sip_address _).
  destruct (String.eqb_spec key k) as [<-|N].
  - destruct (participant_row key rows) as [r|] eqn:E.
    + destruct (_ && _); cbn [negb andb]; [done|]. fold (set_row key s t).
      rewrite participant_row_map, E. cbn. apply participant_row_address in E. unfold set_row.
      rewrite E, String.eqb_refl. by destruct r; cbn in *; subst.
    + rewrite participant_row_app, E. cbn. by rewrite String.eqb_refl.
  - cbn [andb]. destruct (participant_row key rows) as [r|].
    + destruct (_ && _); [by destruct (participant_row k rows)|]. fold (set_row key s t).
      rewrite participant_row_map. destruct (participant_row k rows) as [r'|] eqn:E; [|done]. cbn.
      apply participant_row_address in E. unfold set_row. rewrite E.
      by rewrite (proj2 (String.eqb_neq k key) (not_eq_sym N)).
    + rewrite participant_row_app. cbn. apply String.eqb_neq in N as ->. by destruct (participant_row k rows).
Qed.

(** ** A participant who has the message keeps it *)

(** Only later: a displayed message stays displayed, a received one is received or
    displayed. *)
Definition kept (s s' : State) : Prop :=
  (s = Displayed -> s' = Displayed) /\ (s = DeliveredToUser -> s' = DeliveredToUser \/ s' = Displayed).

Lemma kept_refl s : kept s s.
Proof. split; auto. Qed.

Lemma kept_trans s1 s2 s3 : kept s1 s2 -> kept s2 s3 -> kept s1 s3.
Proof. unfold kept. intros A B. intuition. Qed.

(** The states a file transfer or a postponed delivery give are numbered after
    [Displayed]; [spares k] allows them for everyone but [k]. *)
Definition spares (k : string) (a : Address) (s : State) : Prop :=
  State_int Displayed < State_int s -> sip_address (getUriWithoutGruu a) <> k.

Definition rows_kept (k : string) (rows rows' : list ParticipantRow) : Prop :=
  forall r, participant_row k rows = Some r ->
  exists r', participant_row k rows' = Some r' /\ kept (pr_state r) (pr_state r').

Lemma rows_kept_refl k rows : rows_kept k rows rows.
Proof. intros r E. exists r. auto using kept_refl. Qed.

Lemma rows_kept_trans k rows1 rows2 rows3 :
  rows_kept k rows1 rows2 -> rows_kept k rows2 rows3 -> rows_kept k rows1 rows3.
Proof.
  intros A B r E. destruct (A r E) as (r' & E' & K), (B r' E') as (r'' & E'' & K').
  exists r''. eauto using kept_trans.
Qed.

Lemma written_state_kept s dbState :
  State_int s <= State_int Displayed ->
  (State_int s <? State_int dbState) && (State_eqb dbState Displayed || State_eqb dbState DeliveredToUser) = false ->
  kept dbState s.
Proof. intros L. split; intros ->; destruct s; cbn in *; try discriminate; try lia; auto. Qed.

Lemma set_participant_kept k a s t rows :
  spares k a s -> rows_kept k rows (setChatMessageParticipantState a s t rows).
Proof.
  intros W r E. rewrite set_participant_row, E.
  destruct (String.eqb_spec (sip_address (getUriWithoutGruu a)) k) as [K|K]; cbn [andb]; [|exists r; auto using kept_refl].
  destruct (_ && _) eqn:G; cbn [negb]; [exists r; auto using kept_refl|].
  eexists. split; [done|]. apply written_state_kept; [|done].
  destruct (Z.le_gt_cases (State_int s) (State_int Displayed)) as [|G']; [done|]. by destruct (W G').
Qed.

Lemma set_all_kept k room s rows :
  State_int s <= State_int Displayed -> rows_kept k rows (set_all_participants room s rows).
Proof.
  intros L. unfold set_all_participants. generalize rows at 2 as l. intros l. revert rows.
  induction l as [|r l IH]; intros rows; [apply rows_kept_refl|]. cbn.
  eapply rows_kept_trans; [|apply IH]. apply set_participant_kept. unfold spares. lia.
Qed.

Lemma update_event_kept k room m ev :
  rows_kept k (ev_participants ev) (ev_participants (updateConferenceChatMessageEvent room m ev)).
Proof.
  unfold updateConferenceChatMessageEvent. cbv zeta. cbn [ev_participants update].
  destruct (_ && _) eqn:E; [|apply rows_kept_refl]. apply set_all_kept.
  unfold stateRequiresUpdatingParticipants in E.
  destruct (State_eqb (state m) NotDelivered) eqn:E1; [apply State_eqb_spec in E1; rewrite E1; done|].
  destruct (State_eqb (state m) Delivered) eqn:E2; [apply State_eqb_spec in E2; rewrite E2; done|].
  by rewrite !andb_false_r in E.
Qed.

(** A stored message stays stored, with the rows of [k] kept. *)
Definition world_kept (k : string) (w w' : World) : Prop :=
  0 <= storageId (msg w) ->
  storageId (msg w') = storageId (msg w) /\ mMeAddress (msg w') = mMeAddress (msg w) /\
  forall ev, db w = Some ev ->
  exists ev', db w' = Some ev' /\ rows_kept k (ev_participants ev) (ev_participants ev').

Lemma world_kept_refl k w : world_kept k w w.
Proof. intros _. split; [done|]. split; [done|]. intros ev E. eauto using rows_kept_refl. Qed.

Lemma world_kept_trans k w1 w2 w3 : world_kept k w1 w2 -> world_kept k w2 w3 -> world_kept k w1 w3.
Proof.
  intros A B V. destruct (A V) as (S & M & D). rewrite <- S in V. destruct (B V) as (S' & M' & D').
  split; [congruence|]. split; [congruence|]. intros ev E. destruct (D ev E) as (ev1 & E1 & K1).
  destruct (D' ev1 E1) as (ev2 & E2 & K2). eauto using rows_kept_trans.
Qed.

Lemma world_kept_same k w w' :
  storageId (msg w') = storageId (msg w) -> mMeAddress (msg w') = mMeAddress (msg w) -> db w' = db w ->
  world_kept k w w'.
Proof. intros S M E _. split; [done|]. split; [done|]. rewrite E. intros ev D. eauto using rows_kept_refl. Qed.

Lemma updateInDb_kept k room w : world_kept k w (updateInDb room w).
Proof.
  intros V. destruct (updateInDb_aside room w) as ((_ & _ & S & _ & M & _) & _).
  split; [done|]. split; [done|]. intros ev E. unfold updateInDb.
  destruct (negb _); [eauto using rows_kept_refl|].
  unfold getEvent. destruct (storageId (msg w) <? 0); [eauto using rows_kept_refl|]. rewrite E. cbv zeta.
  exists (updateConferenceChatMessageEvent room (msg (loadContentsFromDatabase w)) ev).
  split; [by repeat case_match|apply update_event_kept].
Qed.

Lemma world_kept_if k (b : bool) w w' : world_kept k w w' -> world_kept k w (if b then w' else w).
Proof. destruct b; [done|]. intros _. apply world_kept_refl. Qed.

Lemma ephemeral_kept k room w : world_kept k w (startEphemeralCountDown room w).
Proof.
  intros V. unfold startEphemeralCountDown. cbv zeta.
  destruct (getEvent _); (split; [done|]); (split; [done|]);
    intros ev E; cbn; rewrite E; cbn; eauto using rows_kept_refl.
Qed.

Lemma finish_kept k room b w : world_kept k w (finish_state room b w).
Proof.
  unfold finish_state. cbv zeta.
  set (w1 := if _ && State_eqb _ Displayed then startEphemeralCountDown room w else w).
  set (w2 := if _ && _ then updateInDb room w1 else w1).
  set (w3 := if _ || _ then on_msg _ w2 else w2).
  apply world_kept_trans with w1; [apply world_kept_if, ephemeral_kept|].
  apply world_kept_trans with w2; [apply world_kept_if, updateInDb_kept|].
  apply world_kept_trans with w3; [apply world_kept_if; by apply world_kept_same|].
  clearbody w3. destruct (State_eqb _ PendingDelivery); [|apply world_kept_refl].
  apply world_kept_trans with (tell ListenForNetwork w3); [by apply world_kept_same|].
  apply world_kept_if. by apply world_kept_same.
Qed.

Section Room.
Context (room : ChatRoom) (k : string).

Lemma quiet_kept w w' : rtc (quiet_step room (spares k)) w w' -> world_kept k w w'.
Proof.
  induction 1 as [|w1 w2 w3 S _ IH]; [apply world_kept_refl|]. eapply world_kept_trans; [|exact IH].
  destruct S as [w ev a s t E T W|w p s t]; [|by apply world_kept_same].
  intros V. split; [done|]. split; [done|]. intros ev' E'. cbn. eexists. split; [done|].
  assert (ev' = ev) as ->.
  { unfold getEvent in E. destruct (storageId (msg w) <? 0); congruence. }
  by apply set_participant_kept.
Qed.

Lemma step_kept w w' : step room (spares k) w w' -> world_kept k w w'.
Proof.
  destruct 1 as [w w' Q|w s reason|w s w1 T Q|w b|w].
  - by apply quiet_kept, rtc_once.
  - destruct (acknowledge_frame room s reason w) as (_ & S & D & _).
    apply world_kept_same; [done| |done]. apply acknowledge_me.
  - apply world_kept_trans with (enter s w).
    { destruct (enter_frame s w) as (_ & _ & S & _ & D & _). apply world_kept_same; [done| |done].
      unfold enter, clear_resent. cbn. by repeat case_match. }
    apply world_kept_trans with w1; [by apply quiet_kept|].
    unfold notify_state, leave_transient. repeat case_match; by apply world_kept_same.
  - apply finish_kept.
  - by apply world_kept_same.
Qed.

Lemma happens_kept w w' : happens room (spares k) w w' -> world_kept k w w'.
Proof.
  destruct 1 as [w w' S|w|w|w tm te uc|w|w|w id V|w e].
  - by apply step_kept.
  - apply updateInDb_kept.
  - by apply world_kept_same.
  - by apply world_kept_same.
  - by apply world_kept_same.
  - apply world_kept_if. by apply world_kept_same.
  - intros V'. lia.
  - rewrite on_imdn_eq. by apply world_kept_same.
Qed.

Lemma happen_kept w w' : rtc (happens room (spares k)) w w' -> world_kept k w w'.
Proof.
  induction 1 as [|w1 w2 w3 S _ IH]; [apply world_kept_refl|].
  eapply world_kept_trans; [by apply happens_kept|done].
Qed.

End Room.

(** The operations of a history that are not about [k] going back to a file
    transfer or to a postponed delivery; [k] is not the user of this client. *)
Definition about_others (k : string) (x : ChatRoom * Operation) : Prop :=
  sip_address (getUriWithoutGruu (room_me x.1)) <> k /\
  match x.2 with OpSetParticipantState a s _ _ => spares k a s | _ => True end.

Lemma run_history_kept k history w w' :
  sip_address (getUriWithoutGruu (mMeAddress (msg w))) <> k -> 0 <= storageId (msg w) ->
  Forall (about_others k) history -> run_history history w = Some w' -> world_kept k w w'.
Proof.
  revert w. induction history as [|[room o] history IH]; intros w M V F; [intros [= <-]; apply world_kept_refl|].
  inversion F as [|x l [R O] F']; subst. cbn [run_history fst snd] in *.
  destruct (run_operation room o w) as [w1|] eqn:E; [|discriminate]. cbn [mbind option_bind]. intros E'.
  assert (world_kept k w w1) as K.
  { eapply happen_kept, (operation_happens room (spares k)); [| |exact E].
    - intros a s L. unfold spares. lia.
    - destruct o; cbn in O |- *; first [done | by intros s _]. }
  eapply world_kept_trans; [done|]. destruct (K V) as (S & Me & _).
  apply IH; [by rewrite Me|by rewrite S|done|done].
Qed.

(** C36. The receipt of a participant is never taken back: in every history of a
    stored message, the row of another participant that says displayed says so for
    ever, and one that says received says received or displayed, whatever receipts
    of that participant come late, unless one of its states is of those numbered
    after displayed, which file transfers and postponed deliveries have. *)
Theorem receipts_are_kept k history w ev r :
  sip_address (getUriWithoutGruu (mMeAddress (msg w))) <> k -> 0 <= storageId (msg w) ->
  Forall (about_others k) history ->
  db w = Some ev -> participant_row k (ev_participants ev) = Some r ->
  exists w' ev' r',
    run_history history w = Some w' /\ db w' = Some ev' /\
    participant_row k (ev_participants ev') = Some r' /\ kept (pr_state r) (pr_state r').
Proof.
  intros M V F D E. destruct (run_history_total history w) as [w' R].
  destruct (run_history_kept k history w w' M V F R V) as (_ & _ & K). destruct (K ev D) as (ev' & D' & K').
  destruct (K' r E) as (r' & E' & G). by exists w', ev', r'.
Qed.

End Rows.

(** Bob has displayed the message of alice; a late receipt, an update and a
    message sent again do not take that back. *)
Lemma receipts_are_kept_witness :
  let w := world_of alice Outgoing NotDelivered [row alice NotDelivered; row bob Displayed; row carol Delivered] in
  let history := [(group_of alice, OpSetParticipantState bob DeliveredToUser 70 ReasonNone);
                  (group_of alice, OpResetParticipants); (group_of alice, OpUpdateInDb)] in
  exists w' ev' r',
    run_history history w = Some w' /\ db w' = Some ev' /\
    participant_row bob (ev_participants ev') = Some r' /\ kept Displayed (pr_state r').
Proof.
  cbv zeta.
  match goal with |- exists w' ev' r', run_history ?h ?w = _ /\ _ =>
    apply (receipts_are_kept bob h w {| ev_state := NotDelivered; ev_imdnMessageId := "id"%string;
             ev_markedAsRead := false; ev_contents := [OtherContent "hello"];
             ev_participants := [row alice NotDelivered; row bob Displayed; row carol Delivered];
             ev_expiredTime := None |} (row bob Displayed))
  end.
  - discriminate.
  - cbn. lia.
  - repeat constructor; cbn; discriminate.
  - reflexivity.
  - reflexivity.
Defined.
