(* ===== verification/ChatMessageOutcome.v ===== *)
(** * What the participants make of a message

    The state a group gives a message is a summary of the states of its
    participants: here it is compared with a direct reading of the rules, and
    the result of a receipt and of a postponed delivery are computed. *)
From S2P Require Import Prelude ChatTypes ImdnHandler ImdnProps ChatMessage ChatExamples ChatMessageProps ChatMessageHistory ChatMessageRows.

Section Outcome.
Context `{AddressLib}.

(** ** The summary of the participants *)

(** The recipients are the participants other than the sender. *)
Definition recipients (from : Address) (states : list (Address * State)) : list State :=
  map snd (List.filter (fun p => negb (weakEqual from p.1)) states).

Definition has_displayed (s : State) : bool := State_eqb s Displayed.
Definition has_received (s : State) : bool := State_eqb s Displayed || State_eqb s DeliveredToUser.
Definition has_been_sent (s : State) : bool :=
  State_eqb s Displayed || State_eqb s DeliveredToUser || State_eqb s Delivered.

(** The rules: one failure is a failure; otherwise the message is as far as the
    recipient who is the least far, and there must be one. *)
Definition summary (from : Address) (states : list (Address * State)) : option State :=
  let rs := recipients from states in
  if existsb (fun p => State_eqb p.2 NotDelivered) states then Some NotDelivered
  else if is_nil rs then None
  else if forallb has_displayed rs then Some Displayed
  else if forallb has_received rs then Some DeliveredToUser
  else if forallb has_been_sent rs then Some Delivered
  else None.

Definition count_if (p : State -> bool) (l : list State) : nat := length (List.filter p l).

Lemma count_if_all p l : (count_if p l =? length l)%nat = forallb p l.
Proof.
  unfold count_if. induction l as [|s l IH]; [done|]. cbn. destruct (p s); cbn; [done|].
  apply Nat.eqb_neq. pose proof (List.filter_length_le p l). lia.
Qed.

Lemma counts_of_participants from states :
  let c := count_participants from states in
  let rs := recipients from states in
  nbRecipients c = length rs /\
  nbDisplayedStates c = count_if (fun s => State_eqb s Displayed) rs /\
  nbDeliveredToUserStates c = count_if (fun s => State_eqb s DeliveredToUser) rs /\
  nbDeliveredStates c = count_if (fun s => State_eqb s Delivered) rs /\
  nbNotDeliveredStates c = length (List.filter (fun p => State_eqb p.2 NotDelivered) states).
Proof.
  cbv zeta. unfold count_participants, count_if.
  assert (forall c0,
    let c := fold_left (count_participant from) states c0 in
    let rs := recipients from states in
    (nbRecipients c = nbRecipients c0 + length rs /\
     nbDisplayedStates c = nbDisplayedStates c0 + length (List.filter (fun s => State_eqb s Displayed) rs) /\
     nbDeliveredToUserStates c =
       nbDeliveredToUserStates c0 + length (List.filter (fun s => State_eqb s DeliveredToUser) rs) /\
     nbDeliveredStates c = nbDeliveredStates c0 + length (List.filter (fun s => State_eqb s Delivered) rs) /\
     nbNotDeliveredStates c =
       nbNotDeliveredStates c0 + length (List.filter (fun p => State_eqb p.2 NotDelivered) states))%nat) as K;
    [|exact (K (mkCounts 0 0 0 0 0))].
  induction states as [|[p s] states IH]; intros c0; cbv zeta; [cbn; lia|].
  cbn [fold_left]. destruct (IH (count_participant from c0 (p, s))) as (E1 & E2 & E3 & E4 & E5).
  rewrite E1, E2, E3, E4, E5. unfold recipients, count_participant. cbn [List.filter fst snd].
  destruct (weakEqual from p); cbn; destruct s; cbn; lia.
Qed.

Lemma count_two p q l :
  (forall s, p s = true -> q s = false) ->
  (count_if p l + count_if q l)%nat = count_if (fun s => p s || q s) l.
Proof.
  intros D. unfold count_if. induction l as [|s l IH]; [done|]. cbn. specialize (D s).
  destruct (p s) eqn:P, (q s); cbn; lia.
Qed.

Lemma existsb_count {A} (p : A -> bool) l : (0 <? length (List.filter p l))%nat = existsb p l.
Proof. induction l as [|x l IH]; [done|]. cbn. by destruct (p x). Qed.

(** The counting of [setParticipantState] computes the summary. *)
Lemma counting_is_summary from states :
  state_of_counts (count_participants from states) = summary from states.
Proof.
  destruct (counts_of_participants from states) as (E1 & E2 & E3 & E4 & E5).
  unfold state_of_counts, summary. rewrite E1, E2, E3, E4, E5, existsb_count.
  set (rs := recipients from states).
  assert ((0 <? length rs)%nat = negb (is_nil rs)) as -> by by destruct rs.
  rewrite (count_two (fun s => State_eqb s Displayed)) by by intros [].
  rewrite <- (Nat.add_assoc (count_if (fun s => State_eqb s Delivered) rs)).
  rewrite (count_two (fun s => State_eqb s Displayed)) by by intros [].
  rewrite Nat.add_comm, (count_two _ (fun s => State_eqb s Delivered)) by by intros [].
  rewrite !count_if_all. unfold has_displayed, has_received, has_been_sent.
  destruct (existsb _ states); [done|]. by destruct (is_nil rs).
Qed.

(** ** A receipt *)

Section Receipt.
Context (room : ChatRoom).

(** The state a message goes to when [s] is asked for. *)
Definition goes_to (from s : State) : State := if transition from s then s else from.

Lemma state_call_state n s w :
  s <> FileTransferDone ->
  exists w', perform room (S (S (S n))) (SetState s) w = Some w' /\ state (msg w') = goes_to (state (msg w)) s.
Proof.
  intros N. unfold goes_to. destruct (transition (state (msg w)) s) eqn:T.
  2:{ rewrite refused_state by done. by exists w. }
  set (any := fun (_ : Address) (_ : State) => True).
  rewrite (setState_unfold room any (fun _ => I)) by done.
  destruct (participants_follow_total room any (fun _ => I) n s w) as [w1 F]. rewrite F. cbn [mbind option_bind].
  apply (participants_follow_quiet room any (fun _ => I)), (notify_frame room any) in F. cbv zeta in F.
  destruct F as (E1 & _), (enter_frame s w) as (E3 & _).
  unfold after_notify. rewrite E1, E3, State_eqb_ne by done. cbn [andb].
  destruct (_ && _); [exists (notify_state (leave_transient w1)); by rewrite E1|].
  eexists. split; [done|]. destruct (finish_aside room (mAutomaticallyResent (msg w)) (notify_state (leave_transient w1))) as ((-> & _) & _).
  by rewrite E1.
Qed.

(** The world with the row of a participant written. *)
Definition with_row (a : Address) (s : State) (t : Z) (w : World) : World :=
  w <| db := option_map (fun ev => ev <| ev_participants :=
               setChatMessageParticipantState a s t (ev_participants ev) |>) (db w) |>.

(** The rows are the same, or those that an update of the database leaves. *)
Definition rows_updated (s : State) (rows rows' : list ParticipantRow) : Prop :=
  rows' = rows \/ (s = NotDelivered \/ s = Delivered) /\ rows' = set_all_participants room s rows.

Definition same_rows (w w' : World) : Prop :=
  forall ev, db w = Some ev -> exists ev', db w' = Some ev' /\ ev_participants ev' = ev_participants ev.

Lemma same_rows_refl w w' : db w' = db w -> same_rows w w'.
Proof. intros E ev D. exists ev. by rewrite E. Qed.

Lemma update_event_rows m ev :
  rows_updated (state m) (ev_participants ev) (ev_participants (updateConferenceChatMessageEvent room m ev)).
Proof.
  unfold updateConferenceChatMessageEvent. cbv zeta. cbn [ev_participants update].
  destruct (_ && _) eqn:E; [|by left]. right. split; [|done]. unfold stateRequiresUpdatingParticipants in E.
  destruct (State_eqb (state m) NotDelivered) eqn:E1; [left; by apply State_eqb_spec|].
  destruct (State_eqb (state m) Delivered) eqn:E2; [right; by apply State_eqb_spec|].
  by rewrite !andb_false_r in E.
Qed.

Lemma ephemeral_rows w : same_rows w (startEphemeralCountDown room w).
Proof. intros ev D. unfold startEphemeralCountDown. cbv zeta. destruct (getEvent _); cbn; rewrite D; by eexists. Qed.

Lemma updateInDb_rows w ev :
  db w = Some ev ->
  exists ev', db (updateInDb room w) = Some ev' /\ rows_updated (state (msg w)) (ev_participants ev) (ev_participants ev').
Proof.
  intros D. unfold updateInDb, getEvent. destruct (negb _); [exists ev; split; [done|by left]|].
  destruct (storageId _ <? 0); [exists ev; split; [done|by left]|]. rewrite D. cbv zeta.
  assert (S : state (msg (loadContentsFromDatabase w)) = state (msg w))
    by (unfold loadContentsFromDatabase; by destruct (contentsNotLoadedFromDatabase _)).
  pose proof (update_event_rows (msg (loadContentsFromDatabase w)) ev) as U. rewrite S in U.
  eexists. split; [repeat case_match; reflexivity|exact U].
Qed.

Lemma finish_rows b w ev :
  db w = Some ev ->
  exists ev', db (finish_state room b w) = Some ev' /\ rows_updated (state (msg w)) (ev_participants ev) (ev_participants ev').
Proof.
  intros D. unfold finish_state. cbv zeta.
  set (w1 := if _ && State_eqb _ Displayed then startEphemeralCountDown room w else w).
  assert (exists ev1, db w1 = Some ev1 /\ ev_participants ev1 = ev_participants ev /\ state (msg w1) = state (msg w))
    as (ev1 & D1 & R1 & S1).
  { subst w1. destruct (_ && _); [|by exists ev]. destruct (ephemeral_rows w ev D) as (ev1 & D1 & R1). exists ev1.
    split; [done|]. split; [done|]. unfold startEphemeralCountDown. cbv zeta. by destruct (getEvent _). }
  clearbody w1. set (w2 := if _ && _ then updateInDb room w1 else w1).
  assert (exists ev2, db w2 = Some ev2 /\ rows_updated (state (msg w)) (ev_participants ev) (ev_participants ev2))
    as (ev2 & D2 & R2).
  { rewrite <- R1, <- S1. subst w2. destruct (_ && _); [by apply updateInDb_rows|]. exists ev1. split; [done|by left]. }
  exists ev2. split; [|exact R2]. rewrite <- D2. repeat case_match; reflexivity.
Qed.

(** What a change of state does to the rows. *)
Lemma state_call_rows n s w w' ev :
  isImdnControlledState s = true -> db w = Some ev ->
  perform room (S (S (S n))) (SetState s) w = Some w' ->
  exists ev', db w' = Some ev' /\ rows_updated s (ev_participants ev) (ev_participants ev').
Proof.
  intros I D E. destruct (transition (state (msg w)) s) eqn:T.
  2:{ rewrite refused_state in E by done. injection E as <-. exists ev. split; [done|by left]. }
  set (any := fun (_ : Address) (_ : State) => True).
  rewrite (setState_unfold room any (fun _ => Logic.I)) in E by done.
  assert (N : s <> Delivered /\ s <> FileTransferDone) by (split; by intros ->).
  unfold participants_follow in E. rewrite (State_eqb_ne s Delivered (proj1 N)), andb_false_r in E.
  cbn [mbind option_bind] in E. set (w1 := notify_state (leave_transient (enter s w))) in E.
  assert (F : state (msg w1) = s /\ db w1 = Some ev).
  { destruct (enter_frame s w) as (S1 & _ & _ & _ & D1 & _). subst w1.
    unfold notify_state, leave_transient. rewrite D in D1. repeat case_match; split; first [exact S1|exact D1]. }
  clearbody w1. destruct F as [S1 D1]. unfold after_notify in E.
  rewrite S1, !State_eqb_ne in E by apply N. cbn [andb] in E. injection E as <-.
  rewrite <- S1. by apply finish_rows.
Qed.

Lemma state_call_kept k n s w w' : perform room n (SetState s) w = Some w' -> world_kept k w w'.
Proof.
  intros E. assert (rtc (step room (spares k)) w w') as S.
  { eapply perform_steps; [| | |exact E]; [..|done]; intros a; unfold spares; cbn; lia. }
  clear E.
  induction S as [|w1 w2 w3 S _ IH]; [apply world_kept_refl|].
  eapply world_kept_trans; [by eapply step_kept|]. apply IH.
Qed.

(** The row of a participant whose receipt is allowed. *)
Lemma receipt_row a s t ev :
  isImdnControlledState s = true -> sip_address (getUriWithoutGruu a) = sip_address a ->
  transition (getChatMessageParticipantState ev a) s = true ->
  participant_row (sip_address a) (setChatMessageParticipantState a s t (ev_participants ev)) = Some (mkRow (sip_address a) s t).
Proof.
  intros I K T. rewrite set_participant_row, K, String.eqb_refl. unfold getChatMessageParticipantState in T.
  destruct (participant_row _ _) as [r|]; [|done]. cbn [andb]. destruct (pr_state r), s; by cbn in *.
Qed.

(** Whoever the receipt is of has a row then, that says no less than the receipt. *)
Lemma written_row_kept a s t rows :
  exists r, participant_row (sip_address (getUriWithoutGruu a)) (setChatMessageParticipantState a s t rows) = Some r /\
    kept s (pr_state r).
Proof.
  rewrite set_participant_row, String.eqb_refl. destruct (participant_row _ rows) as [r|]; cbn [andb].
  - destruct (_ && _) eqn:E; cbn [negb]; [|eexists; split; [done|apply kept_refl]]. exists r. split; [done|].
    destruct s, (pr_state r); cbn in *; try done; split; auto; discriminate.
  - eexists. split; [done|apply kept_refl].
Qed.

(** C10. A receipt of another participant, in a group of the server that keeps the
    state of each one, for a stored message.  When the state machine refuses it
    nothing changes.  Otherwise the row of the participant is written with the state
    and the time of the receipt, and the message goes to the summary of all rows if
    the state machine allows it.  After that the rows are those, unless the summary
    is a failure, which may be written in all of them, or that the message is sent,
    which no row that says more loses; in every case the participant still has a
    row, that says received or displayed if the receipt did.  The application is
    told of the receipt last. *)
Theorem receipt_gives_summary a s t reason w ev :
  backend room = FlexisipChat -> enable_simple_group_chat_message_state room = false ->
  weakEqual a (room_me room) = false -> isImdnControlledState s = true ->
  0 <= storageId (msg w) -> db w = Some ev ->
  exists w', setParticipantState room a s t reason w = Some w' /\
  if transition (getParticipantState room w a) s
  then
    let rows := setChatMessageParticipantState a s t (ev_participants ev) in
    let outcome := summary (fromAddress (msg w)) (getParticipantsState room (with_row a s t w)) in
    (sip_address (getUriWithoutGruu a) = sip_address a ->
       participant_row (sip_address a) rows = Some (mkRow (sip_address a) s t)) /\
    state (msg w') = match outcome with Some s' => goes_to (state (msg w)) s' | None => state (msg w) end /\
    List.last (log w') MessageRejected = ParticipantStateChanged (findParticipant room a) s t /\
    exists ev', db w' = Some ev' /\
      match outcome with
      | Some Delivered => forall k, rows_kept k rows (ev_participants ev')
      | Some s' => rows_updated s' rows (ev_participants ev')
      | None => ev_participants ev' = rows
      end /\
      exists r, participant_row (sip_address (getUriWithoutGruu a)) (ev_participants ev') = Some r /\ kept s (pr_state r)
  else w' = w.
Proof.
  intros B G M I V D. unfold setParticipantState, call_depth.
  change (perform room 6 (SetParticipantState a s t reason) w)
    with (setParticipantState_body room (perform room 5) a s t reason w).
  unfold setParticipantState_body. destruct (transition _ _) eqn:T; cbn [negb]; [|by exists w].
  cbv zeta. rewrite M. unfold ChatMessage_isValid, basicBackend.
  rewrite (proj2 (Z.leb_le _ _) V), B, G. cbn [negb andb]. rewrite bool_decide_eq_false_2 by discriminate.
  unfold setParticipantState_in_group. rewrite M, I. unfold getEvent. rewrite (proj2 (Z.ltb_ge _ _) V), D.
  cbv zeta. cbn [andb negb].
  replace (w <| db := Some (ev <| ev_participants := setChatMessageParticipantState a s t (ev_participants ev) |>) |>)
    with (with_row a s t w) by (unfold with_row; by rewrite D).
  set (rows := setChatMessageParticipantState a s t (ev_participants ev)).
  cbn [mbind option_bind]. rewrite counting_is_summary.
  change (fromAddress (msg (with_row a s t w))) with (fromAddress (msg w)).
  assert (Hrow : sip_address (getUriWithoutGruu a) = sip_address a ->
    participant_row (sip_address a) rows = Some (mkRow (sip_address a) s t)).
  { intros K. apply receipt_row; [done..|]. unfold getParticipantState, basicBackend, getEvent in T.
    rewrite B, bool_decide_eq_false_2, (proj2 (Z.ltb_ge _ _) V), D in T by discriminate. exact T. }
  pose proof (written_row_kept a s t (ev_participants ev)) as Hrow'. change (setChatMessageParticipantState _ _ _ _) with rows in Hrow'.
  assert (D0 : exists ev0, db (with_row a s t w) = Some ev0 /\ ev_participants ev0 = rows)
    by (unfold with_row; cbn; rewrite D; by eexists).
  destruct D0 as (ev0 & D0 & R0).
  destruct (summary _ _) as [s'|] eqn:S.
  2:{ eexists. split; [reflexivity|]. split; [exact Hrow|]. split; [done|]. split; [apply List.last_last|].
      exists ev0. split; [exact D0|]. rewrite R0. by split. }
  pose proof S as S'. rewrite <- counting_is_summary in S'.
  destruct (state_call_state 2 s' (with_row a s t w) (state_of_counts_imdn _ _ S')) as (w1 & E1 & F1). rewrite E1.
  eexists. split; [reflexivity|]. split; [exact Hrow|]. split; [exact F1|]. split; [apply List.last_last|].
  assert (V0 : 0 <= storageId (msg (with_row a s t w))) by exact V.
  assert (Hk : exists ev', db w1 = Some ev' /\ forall k, rows_kept k rows (ev_participants ev')).
  { destruct (state_call_kept EmptyString _ _ _ _ E1 V0) as (_ & _ & K). destruct (K ev0 D0) as (ev' & D' & _).
    exists ev'. split; [done|]. intros k. destruct (state_call_kept k _ _ _ _ E1 V0) as (_ & _ & K').
    destruct (K' ev0 D0) as (ev'' & D'' & R). rewrite D' in D''. injection D'' as <-. by rewrite <- R0. }
  destruct Hk as (ev' & D' & Hk). exists ev'. split; [exact D'|]. split.
  - assert (Hc : s' = Delivered \/ isImdnControlledState s' = true).
    { unfold summary in S. repeat case_match; try discriminate S; injection S as <-; auto. }
    assert (Hu : isImdnControlledState s' = true -> rows_updated s' rows (ev_participants ev')).
    { intros I'. destruct (state_call_rows 2 s' _ w1 ev0 I' D0 E1) as (ev'' & D'' & U).
      rewrite D' in D''. injection D'' as <-. by rewrite R0 in U. }
    destruct Hc as [->|Hc]; [exact Hk|]. destruct s'; try discriminate Hc; by apply Hu.
  - destruct Hrow' as (r & Hr & K). destruct (Hk _ r Hr) as (r' & Hr' & K'). exists r'.
    split; [exact Hr'|]. by eapply kept_trans.
Qed.

(** ** A postponed delivery *)

Lemma updateInDb_msg w :
  msg (updateInDb room w) = msg w \/ msg (updateInDb room w) = msg (loadContentsFromDatabase w).
Proof.
  unfold updateInDb. destruct (negb _); [by left|]. destruct (getEvent w); [|by left]. right. cbv zeta.
  match goal with |- msg (if ?b then _ else _) = _ => by destruct b end.
Qed.

(** Members that the database does not give back. *)
Definition same_sending (m m' : ChatMessage) : Prop :=
  salOp m' = salOp m /\ mResendTimer m' = mResendTimer m /\ direction m' = direction m /\
  state m' = state m /\ mAutomaticallyResent m' = mAutomaticallyResent m.

Lemma updateInDb_sending w : same_sending (msg w) (msg (updateInDb room w)).
Proof.
  destruct (updateInDb_msg w) as [-> | ->]; [done|]. unfold loadContentsFromDatabase.
  by destruct (contentsNotLoadedFromDatabase (msg w)).
Qed.

(** The message of [w], postponed: what [setState] makes of it before it looks at
    the failure. *)
Lemma enter_pending w :
  same_sending ((msg w) <| state := PendingDelivery |> <| mAutomaticallyResent := false |>)
    (msg (notify_state (leave_transient (enter PendingDelivery w)))).
Proof.
  assert (forall m, mAutomaticallyResent (clear_resent PendingDelivery m) = false /\
    salOp (clear_resent PendingDelivery m) = salOp m /\
    mResendTimer (clear_resent PendingDelivery m) = mResendTimer m /\
    direction (clear_resent PendingDelivery m) = direction m) as K.
  { intros m. unfold clear_resent. destruct (mAutomaticallyResent m) eqn:E; cbn; [done|]. by rewrite E. }
  destruct (K (msg w)) as (K1 & K2 & K3 & K4).
  destruct (enter_frame PendingDelivery w) as (E & _).
  unfold notify_state, leave_transient. rewrite E. change (final_state PendingDelivery) with false.
  rewrite andb_false_r, E. change (State_eqb PendingDelivery Displayed) with false. unfold same_sending, enter. cbn. split_and!; auto.
Qed.

Definition network_failure (m : ChatMessage) : bool :=
  match salOp m with
  | Some reason => bool_decide (reason = ReasonIOError) || bool_decide (reason = ReasonNoResponse)
  | None => false
  end.

Definition no_file_transfer (c : Content) : Prop :=
  match c with FileTransferContent (Some _) => False | _ => True end.

Lemma restored_contents id l : Forall no_file_transfer (map (restore_content id) l).
Proof. induction l as [|c l IH]; [constructor|]. constructor; [|exact IH]. by destruct c as [| |[f|]]. Qed.

Lemma finish_pending resent w :
  state (msg w) = PendingDelivery ->
  let m := msg w in let m' := msg (finish_state room resent w) in
  state m' = PendingDelivery /\ salOp m' = None /\ mAutomaticallyResent m' = mAutomaticallyResent m /\
  Forall no_file_transfer (contents m') /\
  List.last (log (finish_state room resent w)) MessageRejected = ListenForNetwork /\
  mResendTimer m' = mResendTimer m || (is_outgoing (direction m) && negb resent && network_failure m).
Proof.
  intros E. unfold finish_state. rewrite E. cbv zeta.
  change (State_eqb PendingDelivery Displayed) with false. rewrite andb_false_r.
  change (State_eqb PendingDelivery PendingDelivery || _) with true.
  change (State_eqb PendingDelivery PendingDelivery) with true.
  change (negb (State_eqb PendingDelivery InProgress) && _ && _ && _) with true. cbv iota. cbn [andb].
  destruct (updateInDb_sending w) as (U1 & U2 & U3 & U4 & U5).
  set (w2 := updateInDb room w) in *. clearbody w2. rewrite U1. fold (network_failure (msg w)).
  set (w3 := tell ListenForNetwork _).
  assert (state (msg w3) = PendingDelivery /\ salOp (msg w3) = None /\
    mAutomaticallyResent (msg w3) = mAutomaticallyResent (msg w) /\ Forall no_file_transfer (contents (msg w3)) /\
    List.last (log w3) MessageRejected = ListenForNetwork /\ direction (msg w3) = direction (msg w) /\
    mResendTimer (msg w3) = mResendTimer (msg w)) as (E1 & E2 & E3 & E4 & E5 & E6 & E7).
  { split_and!; [by rewrite <- E|done|done|apply restored_contents|apply List.last_last|done|done]. }
  clearbody w3. rewrite E6, E7.
  destruct (_ && negb (mResendTimer _)) eqn:B.
  - apply andb_true_iff in B as [B _]. split_and!; try done. cbn. by rewrite B, orb_true_r.
  - split_and!; try done. rewrite E7. destruct (mResendTimer (msg w)); [done|]. rewrite andb_true_r in B. by rewrite B.
Qed.

(** Postponing the delivery of a message: the operation is dropped, file
    contents are restored, the message waits for the network, and the resend timer
    is armed only for an outgoing message that failed for a network reason and was
    not already sent again. *)
Theorem postponed_delivery n w :
  transition (state (msg w)) PendingDelivery = true ->
  exists w', perform room (S (S (S n))) (SetState PendingDelivery) w = Some w' /\
  let m := msg w in let m' := msg w' in
  state m' = PendingDelivery /\ salOp m' = None /\ mAutomaticallyResent m' = false /\
  Forall no_file_transfer (contents m') /\
  List.last (log w') MessageRejected = ListenForNetwork /\
  mResendTimer m' =
    mResendTimer m || (is_outgoing (direction m) && negb (mAutomaticallyResent m) && network_failure m).
Proof.
  intros T. set (any := fun (_ : Address) (_ : State) => True).
  rewrite (setState_unfold room any (fun _ => I)) by done.
  unfold participants_follow. rewrite andb_false_r. cbn [mbind option_bind].
  destruct (enter_pending w) as (S1 & S2 & S3 & S4 & S5). set (w1 := notify_state _) in *. clearbody w1.
  cbn in S1, S2, S3, S4, S5. unfold after_notify. rewrite S4.
  change (State_eqb PendingDelivery FileTransferDone) with false.
  change (State_eqb PendingDelivery Delivered) with false. cbn [andb].
  eexists. split; [reflexivity|]. cbv zeta.
  destruct (finish_pending (mAutomaticallyResent (msg w)) w1 S4) as (F1 & F2 & F3 & F4 & F5 & F6).
  split_and!; [done..| |done|done|]; [by rewrite F3|]. rewrite F6, S2, S3. unfold network_failure. by rewrite S1.
Qed.

End Receipt.

End Outcome.

(** Carol, the last recipient, displays the message after bob. *)
Lemma receipt_gives_summary_witness :
  let w := world_of alice Outgoing DeliveredToUser [row alice Displayed; row bob Displayed; row carol DeliveredToUser] in
  exists w' ev', setParticipantState (group_of alice) carol Displayed 60 ReasonNone w = Some w' /\
             state (msg w') = Displayed /\ db w' = Some ev' /\
             ev_participants ev' = [row alice Displayed; row bob Displayed; mkRow carol Displayed 60].
Proof.
  cbv zeta.
  match goal with |- exists w' ev', setParticipantState ?room ?a ?s ?t ?r ?w = _ /\ _ =>
    destruct (receipt_gives_summary room a s t r w
      {| ev_state := DeliveredToUser; ev_imdnMessageId := "id"%string;
         ev_markedAsRead := false; ev_contents := [OtherContent "hello"];
         ev_participants := [row alice Displayed; row bob Displayed; row carol DeliveredToUser];
         ev_expiredTime := None |}) as (w' & E & _ & S & _ & ev' & D & R & _);
      [reflexivity|reflexivity|reflexivity|reflexivity|cbn; lia|reflexivity|]
  end.
  exists w', ev'. split; [exact E|]. split; [exact S|]. split; [exact D|].
  destruct R as [R|[[R|R] _]]; [exact R|discriminate R|discriminate R].
Defined.

(** A message of alice that fails for lack of a network. *)
Lemma postponed_delivery_witness :
  let w := world_of alice Outgoing Idle [row alice Idle; row bob Idle; row carol Idle] in
  exists w', perform (group_of alice) 3 (SetState PendingDelivery) w = Some w' /\
             state (msg w') = PendingDelivery /\ mResendTimer (msg w') = true.
Proof.
  cbv zeta.
  match goal with |- exists w', perform ?room _ _ ?w = _ /\ _ =>
    destruct (postponed_delivery room 0 w) as (w' & E & S & _ & _ & _ & _ & T); [reflexivity|] end.
  exists w'. split; [exact E|]. split; [exact S|]. exact T.
Defined.
