(* ===== verification/LpConfig.v ===== *)
(** The configuration of the library: [LinphoneConfig]
    ([src/coreapi/lpconfig.c]), an ordered list of sections that hold items and
    comments, with its lookups, its updates and the conversions of its values.

    A pointer on a section or an item of a list is its index in that list.  The
    strings are C strings: they have no null character. *)
From S2P Require Import Prelude Sscanf.

(** ** Data *)

(** An item or a comment; a comment has no key (a null pointer, never read). *)
Record LpItem := mkLpItem {
  it_key : string;
  it_value : string;
  it_is_comment : bool;
  (** If set to true, will add overwrite=true when converted to XML. *)
  it_overwrite : bool;
  (** If set to true, won't be dumped when converted to XML. *)
  it_skip : bool;
}.
#[global] Instance eta_LpItem : Eta LpItem := fun i =>
  mkLpItem (it_key i) (it_value i) (it_is_comment i) (it_overwrite i) (it_skip i).

Record LpSectionParam := mkLpSectionParam { sp_key : string; sp_value : string }.

Record LpSection := mkLpSection {
  sec_name : string;
  sec_items : list LpItem;
  sec_params : list LpSectionParam;
  sec_overwrite : bool;
  sec_skip : bool;
}.
#[global] Instance eta_LpSection : Eta LpSection := fun s =>
  mkLpSection (sec_name s) (sec_items s) (sec_params s) (sec_overwrite s) (sec_skip s).

Record LpConfig := mkLpConfig {
  lp_filename : option string;
  lp_tmpfilename : option string;
  lp_factory_filename : option string;
  lp_sections : list LpSection;
  lp_modified : bool;
  lp_readonly : bool;
  lp_abort_sync : bool;
}.
#[global] Instance eta_LpConfig : Eta LpConfig := fun c =>
  mkLpConfig (lp_filename c) (lp_tmpfilename c) (lp_factory_filename c) (lp_sections c) (lp_modified c)
    (lp_readonly c) (lp_abort_sync c).

(** ** Creation *)

Definition lp_item_new (key value : string) : LpItem := mkLpItem key value false false false.

(** The text before the first [c], or the whole text. *)
Definition cut_at (c : ascii) (s : string) : string := fst (str_span (fun d => negb (Ascii.eqb d c)) s).

Definition CR : ascii := "013"%char.
Definition LF : ascii := "010"%char.

(** The end of line is the first carriage return or, without one, the first
    line feed. *)
Definition cut_line (s : string) : string := if str_has CR s then cut_at CR s else cut_at LF s.

Definition lp_comment_new (comment : string) : LpItem := mkLpItem EmptyString (cut_line comment) true false false.

Definition lp_section_param_new (key value : string) : LpSectionParam := mkLpSectionParam key value.

Definition lp_section_new (name : string) : LpSection := mkLpSection name [] [] false false.

(** [belle_sip_object_new(LinphoneConfig)]: every member is zero. *)
Definition LinphoneConfig_new : LpConfig := mkLpConfig None None None [] false false false.

(** ** Lists *)

Definition lp_section_add_item (sec : LpSection) (item : LpItem) : LpSection :=
  sec <| sec_items := sec_items sec ++ [item] |>.

Definition linphone_config_add_section (lpconfig : LpConfig) (section : LpSection) : LpConfig :=
  lpconfig <| lp_sections := lp_sections lpconfig ++ [section] |>.

Definition linphone_config_add_section_param (section : LpSection) (param : LpSectionParam) : LpSection :=
  section <| sec_params := sec_params section ++ [param] |>.

Definition linphone_config_remove_section (lpconfig : LpConfig) (section : nat) : LpConfig :=
  lpconfig <| lp_sections := delete section (lp_sections lpconfig) |>.

Definition lp_section_remove_item (sec : LpSection) (item : nat) : LpSection :=
  sec <| sec_items := delete item (sec_items sec) |>.

(** ** Lookups *)

Definition linphone_config_find_section (lpconfig : LpConfig) (name : string) : option nat :=
  find_idx (fun sec => String.eqb (sec_name sec) name) (lp_sections lpconfig).

Definition lp_section_find_param (sec : LpSection) (key : string) : option LpSectionParam :=
  List.find (fun param => String.eqb (sp_key param) key) (sec_params sec).

Definition lp_section_find_comment (sec : LpSection) (comment : string) : option nat :=
  find_idx (fun item => it_is_comment item && String.eqb (it_value item) comment) (sec_items sec).

Definition lp_section_find_item (sec : LpSection) (name : string) : option nat :=
  find_idx (fun item => negb (it_is_comment item) && String.eqb (it_key item) name) (sec_items sec).

Definition lp_section_get_items (sec : LpSection) : list LpItem :=
  List.filter (fun item => negb (it_is_comment item)) (sec_items sec).

(** The section of that name, and its item of that key, as values. *)
Definition find_section (lpconfig : LpConfig) (section : string) : option LpSection :=
  linphone_config_find_section lpconfig section ≫= fun i => lp_sections lpconfig !! i.

Definition find_item (lpconfig : LpConfig) (section key : string) : option LpItem :=
  find_section lpconfig section ≫= fun sec => lp_section_find_item sec key ≫= fun i => sec_items sec !! i.

(** What a pointer on a section, then on an item of it, writes. *)
Definition with_section (lpconfig : LpConfig) (i : nat) (f : LpSection -> LpSection) : LpConfig :=
  lpconfig <| lp_sections := alter f i (lp_sections lpconfig) |>.

Definition with_item (sec : LpSection) (i : nat) (f : LpItem -> LpItem) : LpSection :=
  sec <| sec_items := alter f i (sec_items sec) |>.

Definition linphone_config_has_section (lpconfig : LpConfig) (section : string) : bool :=
  match linphone_config_find_section lpconfig section with
  | Some _ => true
  | None => false
  end.

Definition linphone_config_has_entry (lpconfig : LpConfig) (section key : string) : bool :=
  match find_section lpconfig section with
  | Some sec => match lp_section_find_item sec key with Some _ => true | None => false end
  | None => false
  end.

Definition linphone_config_get_section_param_string (lpconfig : LpConfig) (section key : string)
    (default_value : option string) : option string :=
  match find_section lpconfig section with
  | Some sec =>
      match lp_section_find_param sec key with
      | Some param => Some (sp_value param)
      | None => default_value
      end
  | None => default_value
  end.

Definition linphone_config_get_string (lpconfig : LpConfig) (section key : string) (default_string : option string)
    : option string :=
  match find_item lpconfig section key with
  | Some item => Some (it_value item)
  | None => default_string
  end.

Definition linphone_config_get_overwrite_flag_for_entry (lpconfig : LpConfig) (section key : string) : bool :=
  match find_item lpconfig section key with
  | Some item => it_overwrite item
  | None => false
  end.

Definition linphone_config_get_overwrite_flag_for_section (lpconfig : LpConfig) (section : string) : bool :=
  match find_section lpconfig section with
  | Some sec => sec_overwrite sec
  | None => false
  end.

Definition linphone_config_get_skip_flag_for_entry (lpconfig : LpConfig) (section key : string) : bool :=
  match find_item lpconfig section key with
  | Some item => it_skip item
  | None => false
  end.

Definition linphone_config_get_skip_flag_for_section (lpconfig : LpConfig) (section : string) : bool :=
  match find_section lpconfig section with
  | Some sec => sec_skip sec
  | None => false
  end.

(** [linphone_config_for_each_section] and [linphone_config_for_each_entry]: the
    names the callback is called with, in order. *)
Definition linphone_config_for_each_section (lpconfig : LpConfig) : list string :=
  map sec_name (lp_sections lpconfig).

Definition linphone_config_for_each_entry (lpconfig : LpConfig) (section : string) : list string :=
  match find_section lpconfig section with
  | Some sec => map it_key (List.filter (fun item => negb (it_is_comment item)) (sec_items sec))
  | None => []
  end.

Definition linphone_config_get_sections_names (lpconfig : LpConfig) : list string :=
  map sec_name (lp_sections lpconfig).

Definition linphone_config_get_sections_names_list (lpconfig : LpConfig) : list string :=
  map sec_name (lp_sections lpconfig).

Definition linphone_config_get_keys_names_list (lpconfig : LpConfig) (section : string) : list string :=
  match find_section lpconfig section with
  | Some sec => map it_key (lp_section_get_items sec)
  | None => []
  end.

(** ** Updates *)

(** [value != NULL && value[0] != '\0'] *)
Definition non_empty (value : option string) : option string :=
  match value with
  | Some v => if str_empty v then None else Some v
  | None => None
  end.

(** The assignment copies the text: assigning an item its own value changes
    nothing. *)
Definition lp_item_set_value (item : LpItem) (value : string) : LpItem := item <| it_value := value |>.

Definition linphone_config_set_string (lpconfig : LpConfig) (section key : string) (value : option string) : LpConfig :=
  match linphone_config_find_section lpconfig section with
  | Some i =>
      match lp_sections lpconfig !! i with
      | Some sec =>
          match lp_section_find_item sec key with
          | Some j =>
              match non_empty value with
              | Some v =>
                  if (match sec_items sec !! j with Some item => String.eqb v (it_value item) | None => false end)
                  then lpconfig
                  else (with_section lpconfig i (fun sec => with_item sec j (fun item => lp_item_set_value item v)))
                         <| lp_modified := true |>
              | None => (with_section lpconfig i (fun sec => lp_section_remove_item sec j)) <| lp_modified := true |>
              end
          | None =>
              match non_empty value with
              | Some v =>
                  (with_section lpconfig i (fun sec => lp_section_add_item sec (lp_item_new key v)))
                    <| lp_modified := true |>
              | None => lpconfig <| lp_modified := true |>
              end
          end
      | None => lpconfig
      end
  | None =>
      match non_empty value with
      | Some v =>
          (linphone_config_add_section lpconfig (lp_section_add_item (lp_section_new section) (lp_item_new key v)))
            <| lp_modified := true |>
      | None => lpconfig <| lp_modified := true |>
      end
  end.

(** [if (sec != NULL) f(sec);] and [if (item != NULL) f(item);] *)
Definition if_section (lpconfig : LpConfig) (section : string) (f : LpSection -> LpSection) : LpConfig :=
  match linphone_config_find_section lpconfig section with
  | Some i => with_section lpconfig i f
  | None => lpconfig
  end.

Definition if_item (lpconfig : LpConfig) (section key : string) (f : LpItem -> LpItem) : LpConfig :=
  if_section lpconfig section (fun sec =>
    match lp_section_find_item sec key with
    | Some j => with_item sec j f
    | None => sec
    end).

Definition linphone_config_set_overwrite_flag_for_entry (lpconfig : LpConfig) (section key : string) (value : bool)
    : LpConfig := if_item lpconfig section key (fun item => item <| it_overwrite := value |>).

Definition linphone_config_set_overwrite_flag_for_section (lpconfig : LpConfig) (section : string) (value : bool)
    : LpConfig := if_section lpconfig section (fun sec => sec <| sec_overwrite := value |>).

Definition linphone_config_set_skip_flag_for_entry (lpconfig : LpConfig) (section key : string) (value : bool)
    : LpConfig := if_item lpconfig section key (fun item => item <| it_skip := value |>).

Definition linphone_config_set_skip_flag_for_section (lpconfig : LpConfig) (section : string) (value : bool)
    : LpConfig := if_section lpconfig section (fun sec => sec <| sec_skip := value |>).

Definition linphone_config_clean_section (lpconfig : LpConfig) (section : string) : LpConfig :=
  (match linphone_config_find_section lpconfig section with
   | Some sec => linphone_config_remove_section lpconfig sec
   | None => lpconfig
   end) <| lp_modified := true |>.

Definition linphone_config_clean_entry (lpconfig : LpConfig) (section key : string) : LpConfig :=
  if_section lpconfig section (fun sec =>
    match lp_section_find_item sec key with
    | Some item => lp_section_remove_item sec item
    | None => sec
    end).

Definition linphone_config_needs_commit (lpconfig : LpConfig) : bool := lp_modified lpconfig.

Definition linphone_config_is_readonly (lpconfig : LpConfig) : bool :=
  match lp_filename lpconfig with
  | None => true
  | Some _ => lp_readonly lpconfig
  end.

Definition linphone_config_simulate_crash_during_sync (lpconfig : LpConfig) (value : bool) : LpConfig :=
  lpconfig <| lp_abort_sync := value |>.

(** ** The dump *)

Definition TAB : string := String "009" EmptyString.
Definition NL : string := String LF EmptyString.

(** [ms_strcat_printf] appends to a buffer that may be null. *)
Definition ms_strcat (buffer : option string) (s : string) : option string :=
  match buffer with
  | Some b => Some (b +:+ s)
  | None => Some s
  end.

Definition dump_entry (conf : LpConfig) (section : string) (buffer : option string) (entry : string) : option string :=
  let value := linphone_config_get_string conf section entry (Some EmptyString) in
  ms_strcat buffer (TAB +:+ entry +:+ "=" +:+ default EmptyString value +:+ NL).

Definition dump_section (conf : LpConfig) (buffer : option string) (section : string) : option string :=
  fold_left (dump_entry conf section) (linphone_config_for_each_entry conf section)
    (ms_strcat buffer ("[" +:+ section +:+ "]" +:+ NL)).

Definition linphone_config_dump (lpconfig : LpConfig) : option string :=
  fold_left (dump_section lpconfig) (linphone_config_for_each_section lpconfig) None.
