(* ===== verification/LpConfigValues.v ===== *)
(** The typed accessors of the configuration ([src/coreapi/lpconfig.c]):
    integers, booleans, ranges, lists and floats are stored as text. *)
From S2P Require Import Prelude Sscanf LpConfig.

(** ** The conversions of the C library *)

Definition i64_min : Z := - 2 ^ 63.
Definition i64_max : Z := 2 ^ 63 - 1.

(** [strtoll(s, NULL, 10)]: the value is clamped to the range of the type. *)
Definition strtoll10 (s : string) : Z :=
  let '(neg, s) := scan_sign (scan_ws s) in
  let '(ds, _) := str_span is_digit s in
  Z.max i64_min (Z.min i64_max (signed neg (horner 0 ds))).

(** [atoll], and [atoi], which converts a [long] to an [int]. *)
Definition atoll (s : string) : Z := strtoll10 s.
Definition atoi (s : string) : Z := i32 (strtoll10 s).

(** [%x]: an optional sign, an optional prefix and digits in base 16; the
    value is stored in 32 bits, here those of an [int]. *)
Definition scan_hex (s : string) : option Z :=
  let '(neg, s) := scan_sign (scan_ws s) in
  let s := if String.prefix "0x" s || String.prefix "0X" s then String.substring 2 (String.length s) s else s in
  match str_span is_hex s with
  | (EmptyString, _) => None
  | (ds, _) => Some (i32 (signed neg (horner_in 16 0 ds)))
  end.

(** [snprintf] of [%x], for an [unsigned int]. *)
Definition hex_char (d : Z) : ascii := ascii_of_nat (Z.to_nat (if d <? 10 then 48 + d else 87 + d)).

Fixpoint hex_digits (fuel : nat) (n : Z) (acc : string) : string :=
  match fuel with
  | O => acc
  | S fuel' =>
      let acc' := String (hex_char (n mod 16)) acc in
      if n / 16 =? 0 then acc' else hex_digits fuel' (n / 16) acc'
  end.

(** Eight digits hold 32 bits. *)
Definition to_hex (n : Z) : string := hex_digits 8 (u32 n) EmptyString.

(** [snprintf(tmp, size, ...)]: at most [size - 1] characters are kept. *)
Definition snprintf (size : nat) (text : string) : string := String.substring 0 (size - 1) text.

(** The text before the first [c] and the text after it. *)
Fixpoint split_at (c : ascii) (s : string) : option (string * string) :=
  match s with
  | EmptyString => None
  | String d s' =>
      if Ascii.eqb d c then Some (EmptyString, s')
      else match split_at c s' with Some (a, b) => Some (String d a, b) | None => None end
  end.

(** The pieces of a text between the separators [c]. *)
Fixpoint split_on (c : ascii) (s : string) : list string :=
  match s with
  | EmptyString => [EmptyString]
  | String d s' =>
      if Ascii.eqb d c then EmptyString :: split_on c s'
      else match split_on c s' with
           | p :: ps => String d p :: ps
           | [] => [String d EmptyString]
           end
  end.

(** ** Lists *)

Definition linphone_config_get_string_list (lpconfig : LpConfig) (section key : string) (default_list : list string)
    : list string :=
  match find_item lpconfig section key with
  | Some item => split_on "," (it_value item)
  | None => default_list
  end.

(** The loop that joins the elements; the text is null before the first one. *)
Definition join_element (strvalue : option string) (elem : string) : option string :=
  match strvalue with
  | Some s => Some (s +:+ "," +:+ elem)
  | None => Some elem
  end.

Definition linphone_config_set_string_list (lpconfig : LpConfig) (section key : string) (value : list string)
    : LpConfig :=
  linphone_config_set_string lpconfig section key (fold_left join_element value None).

(** ** Ranges *)

(** The result, the minimum and the maximum. *)
Definition linphone_config_get_range (lpconfig : LpConfig) (section key : string) (default_min default_max : Z)
    : bool * Z * Z :=
  match linphone_config_get_string lpconfig section key None with
  | Some str =>
      match split_at "-" str with
      | None => (false, default_min, default_max)
      | Some (EmptyString, _) => (false, default_min, default_max)
      | Some (_, after) => (true, atoi str, atoi after)
      end
  | None => (true, default_min, default_max)
  end.

Definition linphone_config_set_range (lpconfig : LpConfig) (section key : string) (min_value max_value : Z) : LpConfig :=
  linphone_config_set_string lpconfig section key (Some (snprintf 30 (to_dec min_value +:+ "-" +:+ to_dec max_value))).

(** ** Integers and booleans *)

(** [int ret = 0; sscanf(str, ..., &ret);] *)
Definition scanned {A} (r : option A) (ret : A) : A := default ret r.

Definition linphone_config_get_int (lpconfig : LpConfig) (section key : string) (default_value : Z) : Z :=
  match linphone_config_get_string lpconfig section key None with
  | Some str =>
      if String.prefix "0x" str then scanned (scan_hex str) 0 else scanned (option_map fst (scan_int_base str)) 0
  | None => default_value
  end.

Definition linphone_config_get_bool (lpconfig : LpConfig) (section key : string) (default_value : bool) : bool :=
  match linphone_config_get_string lpconfig section key None with
  | Some str => negb (scanned (option_map fst (scan_int_base str)) 0 =? 0)
  | None => default_value
  end.

Definition linphone_config_get_int64 (lpconfig : LpConfig) (section key : string) (default_value : Z) : Z :=
  match linphone_config_get_string lpconfig section key None with
  | Some str => atoll str
  | None => default_value
  end.

Definition linphone_config_set_int (lpconfig : LpConfig) (section key : string) (value : Z) : LpConfig :=
  linphone_config_set_string lpconfig section key (Some (snprintf 30 (to_dec value))).

Definition linphone_config_set_bool (lpconfig : LpConfig) (section key : string) (value : bool) : LpConfig :=
  if value then linphone_config_set_int lpconfig section key 1 else linphone_config_set_int lpconfig section key 0.

Definition linphone_config_set_int_hex (lpconfig : LpConfig) (section key : string) (value : Z) : LpConfig :=
  linphone_config_set_string lpconfig section key (Some (snprintf 30 ("0x" +:+ to_hex value))).

Definition linphone_config_set_int64 (lpconfig : LpConfig) (section key : string) (value : Z) : LpConfig :=
  linphone_config_set_string lpconfig section key (Some (snprintf 30 (to_dec value))).

(** ** Floats

    The [%f] conversions of the C library are parameters. *)
Class FloatText := {
  cfloat : Type;
  (** [%f] of [printf] *)
  print_float : cfloat -> string;
  (** [%f] of [scanf] *)
  scan_float : string -> option cfloat;
}.

Section Floats.
Context {ft : FloatText}.

Definition linphone_config_get_float (lpconfig : LpConfig) (section key : string) (default_value : cfloat) : cfloat :=
  match linphone_config_get_string lpconfig section key None with
  | Some str => scanned (scan_float str) default_value
  | None => default_value
  end.

Definition linphone_config_set_float (lpconfig : LpConfig) (section key : string) (value : cfloat) : LpConfig :=
  linphone_config_set_string lpconfig section key (Some (snprintf 30 (print_float value))).

End Floats.

(** ** Default values *)

Definition MAX_LEN : nat := 16384.
Definition DEFAULT_VALUES_SUFFIX : string := "_default_values".

(** [strcpy] and [strcat] into a buffer of [MAX_LEN] bytes. *)
Definition default_section (section : string) : outcome string :=
  let name := section +:+ DEFAULT_VALUES_SUFFIX in
  if (MAX_LEN <=? String.length name)%nat then Undefined else Done name.

Definition linphone_config_get_default_int (lpconfig : LpConfig) (section key : string) (default_value : Z)
    : outcome Z :=
  let* name := default_section section in Done (linphone_config_get_int lpconfig name key default_value).

Definition linphone_config_get_default_int64 (lpconfig : LpConfig) (section key : string) (default_value : Z)
    : outcome Z :=
  let* name := default_section section in Done (linphone_config_get_int64 lpconfig name key default_value).

Definition linphone_config_get_default_float {ft : FloatText} (lpconfig : LpConfig) (section key : string)
    (default_value : cfloat) : outcome cfloat :=
  let* name := default_section section in Done (linphone_config_get_float lpconfig name key default_value).

Definition linphone_config_get_default_string (lpconfig : LpConfig) (section key : string)
    (default_value : option string) : outcome (option string) :=
  let* name := default_section section in Done (linphone_config_get_string lpconfig name key default_value).
