(* ===== verification/LpConfigFile.v ===== *)
(** Reading and writing the file of a configuration ([src/coreapi/lpconfig.c]):
    the parser of a line, the writer, and the two files [linphone_config_sync]
    and [_linphone_config_init_from_files] use so that a crash leaves a
    configuration. *)
From S2P Require Import Prelude Sscanf LpConfig LpConfigValues.

(** ** Parsing one line *)

Definition NUL : ascii := "000"%char.

(** The C string at a position of memory, given as the text from there on. *)
Definition c_str (mem : string) : string := fst (str_span (fun c => negb (Ascii.eqb c NUL)) mem).

(** [ptr += n]: the memory from there on; beyond its end nothing can be read. *)
Fixpoint advance (n : nat) (mem : string) : option string :=
  match n, mem with
  | O, _ => Some mem
  | S n', String _ mem' => advance n' mem'
  | S _, EmptyString => None
  end.

(** The loop on the parameters of a section.  [pos2] is the memory from [pos2]
    to the end of the line, whose null character is part of it; the loop may take
    it past the [']'], which is a null character by now, and past the end of the
    line: then the next search is undefined.  Every turn that goes on moves
    [pos2] by four characters or more, so that the length of the line bounds the
    number of turns. *)
Fixpoint parse_section_params (fuel : nat) (cur : LpSection) (pos2 : string) : outcome LpSection :=
  match fuel with
  | O => Done cur
  | S fuel' =>
      if str_empty pos2 then Undefined
      else match split_at "=" (c_str pos2) with
      | None => Done cur
      | Some (before, _) =>
          let pos2 :=
            match split_at "=" pos2 with Some (_, after) => before +:+ String " " after | None => pos2 end in
          match scan_str (c_str pos2) with
          | Some (key, rest) =>
              match scan_str rest with
              | Some (value, _) =>
                  let cur := linphone_config_add_section_param cur (lp_section_param_new key value) in
                  match advance (String.length key + String.length value + 2) pos2 with
                  | Some pos2 => parse_section_params fuel' cur pos2
                  | None => Undefined
                  end
              | None => Done cur
              end
          | None => Done cur
          end
      end
  end.

Definition is_first_char (before : string) : bool := str_all (fun c => Ascii.eqb c " ") before.

Definition is_a_comment (str : string) : bool :=
  match snd (str_span (fun c => Ascii.eqb c " ") str) with
  | String c _ => Ascii.eqb c "#"
  | EmptyString => false
  end.

(** Removing the white space at the end. *)
Fixpoint strip_end (s : string) : string :=
  match s with
  | EmptyString => EmptyString
  | String c s' =>
      let s' := strip_end s' in
      if str_empty s' && Ascii.eqb c " " then EmptyString else String c s'
  end.

(** The text between [[] and []] and what follows []] in the line. *)
Definition parse_section_line (lpconfig : LpConfig) (inside after : string) (cur : option nat)
    : outcome (LpConfig * option nat) :=
  match scan_str inside with
  | Some (secname, _) =>
      let '(lpconfig, cur) :=
        match linphone_config_find_section lpconfig secname with
        | Some i => (lpconfig, i)
        | None =>
            (linphone_config_add_section lpconfig (lp_section_new secname), length (lp_sections lpconfig))
        end in
      if (String.length secname <? String.length inside)%nat then
        match advance (String.length secname + 1) (inside +:+ String NUL (after +:+ String NUL EmptyString)),
              lp_sections lpconfig !! cur with
        | Some pos2, Some sec =>
            let* sec := parse_section_params (S (String.length pos2)) sec pos2 in
            Done (with_section lpconfig cur (fun _ => sec), Some cur)
        | _, _ => Undefined
        end
      else Done (lpconfig, Some cur)
  | None => Done (lpconfig, cur)
  end.

Definition parse_comment (line : string) (sec : LpSection) : LpSection :=
  let comment := lp_comment_new line in
  let sec :=
    match lp_section_find_comment sec (it_value comment) with
    | Some item => lp_section_remove_item sec item
    | None => sec
    end in
  lp_section_add_item sec comment.

Definition parse_item (key value : string) (sec : LpSection) : LpSection :=
  match lp_section_find_item sec key with
  | None => lp_section_add_item sec (lp_item_new key value)
  | Some j => with_item sec j (fun item => item <| it_value := value |>)
  end.

(** [if (cur) ...] *)
Definition in_current (lpconfig : LpConfig) (cur : option nat) (f : LpSection -> LpSection) : LpConfig :=
  match cur with
  | Some i => with_section lpconfig i f
  | None => lpconfig
  end.

(** One line: the configuration and the current section after it. *)
Definition linphone_config_parse_line (lpconfig : LpConfig) (line : string) (cur : option nat)
    : outcome (LpConfig * option nat) :=
  let section_start :=
    match split_at "[" line with
    | Some (before, after) => if is_first_char before then Some after else None
    | None => None
    end in
  match section_start with
  | Some after =>
      match split_at "]" after with
      | Some (inside, rest) => parse_section_line lpconfig inside rest cur
      | None => Done (lpconfig, cur)
      end
  | None =>
      if is_a_comment line then Done (in_current lpconfig cur (parse_comment line), cur)
      else
        match split_at "=" line with
        | Some (before, after) =>
            match scan_str before with
            | Some (key, _) =>
                let value := strip_end (cut_line after) in
                if str_empty value then Done (lpconfig, cur)
                else Done (in_current lpconfig cur (parse_item key value), cur)
            | None => Done (lpconfig, cur)
            end
        | None => Done (lpconfig, cur)
        end
  end.

Definition parse_lines (lpconfig : LpConfig) (lines : list string) : outcome (LpConfig * option nat) :=
  ofold (fun '(lpconfig, cur) line => linphone_config_parse_line lpconfig line cur) (lpconfig, None) lines.

(** [strtok_r(ptr, LF)]: the non empty pieces. *)
Definition strtok_lines (buffer : string) : list string :=
  List.filter (fun l => negb (str_empty l)) (split_on LF buffer).

Definition linphone_config_new_from_buffer (buffer : string) : outcome LpConfig :=
  let* (lpconfig, _) := parse_lines LinphoneConfig_new (strtok_lines buffer) in Done lpconfig.

(** ** Writing

    A writer is the list of the texts it gives to [bctbx_file_fprintf], in
    order. *)

Definition lp_item_write (item : LpItem) : list string :=
  if it_is_comment item then [it_value item +:+ NL]
  else if str_empty (it_value item) then []
  else [it_key item +:+ "=" +:+ it_value item +:+ NL].

Definition lp_section_param_write (param : LpSectionParam) : list string :=
  if str_empty (sp_value param) then [] else [" " +:+ sp_key param +:+ "=" +:+ sp_value param].

Definition lp_section_write (sec : LpSection) : list string :=
  [("[" +:+ sec_name sec)%string] ++ concat (map lp_section_param_write (sec_params sec)) ++
  [("]" +:+ NL)%string] ++ concat (map lp_item_write (sec_items sec)) ++ [NL].

Definition config_write (lpconfig : LpConfig) : list string := concat (map lp_section_write (lp_sections lpconfig)).

(** ** The file system *)

(** What a file name designates. *)
Notation Disk := (gmap string string).

(** The file operations of the C library and of bctoolbox. *)
Class Vfs := {
  (** [lp_realpath], which fails on a file that does not exist *)
  lp_realpath : Disk -> string -> option string;
  (** whether opening a file that exists with ["r"] and with ["r+"] succeeds *)
  can_read : string -> bool;
  can_update : string -> bool;
  (** the lines [bctbx_file_get_nxtline] reads in a file of this content *)
  nxtlines : string -> list string;
  dirname : string -> string;
}.

(** What a [linphone_config_sync] meets: whether the temporary file opens,
    whether each [bctbx_file_fprintf] writes, whether the file is renamed. *)
Record SyncEnv := mkSyncEnv {
  opens : bool;
  writes : nat -> bool;
  renames : bool;
}.

(** The states of the disk while the texts are written one after the other from
    the [n]-th one, and what the file holds then. *)
Fixpoint write_states (env : SyncEnv) (file : string) (n : nat) (texts : list string) (content : string) (disk : Disk)
    : list Disk * string :=
  match texts with
  | [] => ([], content)
  | text :: texts' =>
      let content := if writes env n then content +:+ text else content in
      let disk := <[file := content]> disk in
      let '(states, final) := write_states env file (S n) texts' content disk in
      (disk :: states, final)
  end.

(** The status, the configuration and the states of the disk, from the one
    [linphone_config_sync] finds to the one it leaves.  A crash leaves one of
    them. *)
Definition linphone_config_sync (env : SyncEnv) (lpconfig : LpConfig) (disk : Disk) : Z * LpConfig * list Disk :=
  match lp_filename lpconfig with
  | None => (-1, lpconfig, [disk])
  | Some filename =>
      if lp_readonly lpconfig then (0, lpconfig, [disk])
      else match lp_tmpfilename lpconfig with
      | Some tmp =>
          if opens env then
            let opened := <[tmp := EmptyString]> disk in
            if lp_abort_sync lpconfig then (-1, lpconfig, [disk; opened])
            else
              let '(states, content) := write_states env tmp 0 (config_write lpconfig) EmptyString opened in
              let renamed := if renames env then [<[filename := content]> (delete tmp disk)] else [] in
              (0, lpconfig <| lp_modified := false |>, [disk; opened] ++ states ++ renamed)
          else (-1, lpconfig <| lp_readonly := true |>, [disk])
      | None => (-1, lpconfig <| lp_readonly := true |>, [disk])
      end
  end.

Section Files.
Context {vfs : Vfs}.

Definition bctbx_file_exist (disk : Disk) (path : string) : bool := bool_decide (is_Some (disk !! path)).

(** [bctbx_file_open] for reading: what the file holds. *)
Definition open_with (mode : string -> bool) (disk : Disk) (path : string) : option string :=
  if mode path then disk !! path else None.

(** [linphone_config_parse]: every line of the file. *)
Definition linphone_config_parse (lpconfig : LpConfig) (content : string) : outcome LpConfig :=
  let* (lpconfig, _) := parse_lines lpconfig (nxtlines content) in Done lpconfig.

(** The path is null when [lp_realpath] fails: opening it fails. *)
Definition linphone_config_read_file (disk : Disk) (lpconfig : LpConfig) (filename : string)
    : outcome (Z * LpConfig) :=
  match lp_realpath disk filename ≫= open_with can_read disk with
  | Some content => let* lpconfig := linphone_config_parse lpconfig content in Done (0, lpconfig)
  | None => Done (-1, lpconfig)
  end.

Definition _linphone_config_apply_factory_config (disk : Disk) (lpconfig : LpConfig) : outcome LpConfig :=
  match lp_factory_filename lpconfig with
  | Some factory => let* (_, lpconfig) := linphone_config_read_file disk lpconfig factory in Done lpconfig
  | None => Done lpconfig
  end.

(** The file to read: the configuration or, when it does not open, its
    temporary file. *)
Definition file_to_parse (simulate_read_failure : bool) (disk : Disk) (filename tmp : string) (file_exists : bool)
    : option string :=
  if simulate_read_failure then None
  else
    match (if file_exists then open_with can_update disk filename else None) with
    | Some content => Some content
    | None => if bctbx_file_exist disk tmp then open_with can_read disk tmp else None
    end.

Definition _linphone_config_init_from_files (simulate_read_failure : bool) (disk : Disk) (lpconfig : LpConfig)
    (config_filename : option string) : outcome (Z * LpConfig) :=
  match non_empty config_filename with
  | None => let* lpconfig := _linphone_config_apply_factory_config disk lpconfig in Done (0, lpconfig)
  | Some name =>
      let file_exists := bctbx_file_exist disk name in
      match (if file_exists then lp_realpath disk name else Some name) with
      | None => Done (-1, lpconfig)
      | Some filename =>
          let tmp := filename +:+ ".tmp" in
          let lpconfig := lpconfig <| lp_filename := Some filename |> <| lp_tmpfilename := Some tmp |> in
          match file_to_parse simulate_read_failure disk filename tmp file_exists with
          | Some content =>
              let* lpconfig := linphone_config_parse lpconfig content in
              let* lpconfig := _linphone_config_apply_factory_config disk (lpconfig <| lp_modified := false |>) in
              Done (0, lpconfig)
          | None =>
              if file_exists || bctbx_file_exist disk tmp then Done (-1, lpconfig)
              else let* lpconfig := _linphone_config_apply_factory_config disk lpconfig in Done (0, lpconfig)
          end
      end
  end.

Definition linphone_config_new_with_factory (simulate_read_failure : bool) (disk : Disk)
    (config_filename factory_config_filename : option string) : outcome (option LpConfig) :=
  let lpconfig := LinphoneConfig_new <| lp_factory_filename := non_empty factory_config_filename |> in
  let* (status, lpconfig) := _linphone_config_init_from_files simulate_read_failure disk lpconfig config_filename in
  Done (if status =? 0 then Some lpconfig else None).

Definition linphone_config_new (simulate_read_failure : bool) (disk : Disk) (filename : option string)
    : outcome (option LpConfig) :=
  linphone_config_new_with_factory simulate_read_failure disk filename None.

Definition linphone_config_reload (disk : Disk) (lpconfig : LpConfig) : outcome LpConfig :=
  let lpconfig := lpconfig <| lp_sections := [] |> in
  match lp_filename lpconfig with
  | Some filename => let* (_, lpconfig) := linphone_config_read_file disk lpconfig filename in Done lpconfig
  | None => Done lpconfig
  end.

(** ** Files beside the configuration *)

Definition relative_path (filename relative : string) : string := dirname filename +:+ "/" +:+ relative.

Definition linphone_config_relative_file_exists (disk : Disk) (lpconfig : LpConfig) (filename : string) : bool :=
  match lp_filename lpconfig with
  | None => false
  | Some conf =>
      match lp_realpath disk (relative_path conf filename) ≫= open_with can_read disk with
      | Some _ => true
      | None => false
      end
  end.

(** [can_write]: whether opening the file with ["w"] succeeds. *)
Definition linphone_config_write_relative_file (can_write : string -> bool) (disk : Disk) (lpconfig : LpConfig)
    (filename data : string) : Disk :=
  match lp_filename lpconfig with
  | None => disk
  | Some conf =>
      if str_empty data then disk
      else match lp_realpath disk (relative_path conf filename) with
      | None => disk
      | Some path => if can_write path then <[path := data]> disk else disk
      end
  end.

(** [bctbx_file_read(pFile, data, count, offset)]: the bytes read. *)
Definition bctbx_file_read (content : string) (count offset : nat) : string := String.substring offset count content.

(** The status and the bytes that are stored in [data]. *)
Definition linphone_config_read_relative_file (disk : Disk) (lpconfig : LpConfig) (filename : string)
    (max_length : nat) : Z * string :=
  match lp_filename lpconfig with
  | None => (-1, EmptyString)
  | Some conf =>
      match lp_realpath disk (relative_path conf filename) ≫= open_with can_read disk with
      | None => (-1, EmptyString)
      | Some content => (0, bctbx_file_read content 1 max_length)
      end
  end.

End Files.
