(* ===== verification/LpConfigSpec.v ===== *)
(** The configuration as a map from a section and a key to a value: what the
    lookups, the updates and the parser do to that map, and the invariant that
    names of sections and keys of items are not repeated. *)
From S2P Require Import Prelude Sscanf LpConfig LpConfigValues LpConfigFile.

(** ** Lists searched by key

    [p k] recognises the elements of key [k]. *)
Section Keyed.
Context {A : Type} (p : string -> A -> bool).
Hypothesis key_unique : forall k k' x, p k x = true -> p k' x = true -> k = k'.

(** No two elements have the same key. *)
Definition keys_distinct (l : list A) : Prop :=
  forall i j x y k, l !! i = Some x -> l !! j = Some y -> p k x = true -> p k y = true -> i = j.

Lemma find_idx_find (q : A -> bool) l : find_idx q l ≫= (fun i => l !! i) = List.find q l.
Proof.
  induction l as [|x l IH]; [done|]. cbn. destruct (q x); [done|].
  rewrite <- IH. by destruct (find_idx q l).
Qed.

Lemma find_idx_found (q : A -> bool) l i : find_idx q l = Some i -> exists x, l !! i = Some x /\ List.find q l = Some x.
Proof.
  intros H. rewrite <- find_idx_find, H. cbn.
  apply find_idx_lt, lookup_lt_is_Some in H as [x Hx]. by exists x.
Qed.

Lemma find_idx_absent (q : A -> bool) l : find_idx q l = None <-> List.find q l = None.
Proof.
  rewrite <- find_idx_find. destruct (find_idx q l) as [i|] eqn:E; cbn; [|done].
  apply find_idx_lt, lookup_lt_is_Some in E as [x ->]. by split.
Qed.

Lemma find_alter k k' f i l :
  (forall k x, p k (f x) = p k x) -> find_idx (p k) l = Some i ->
  List.find (p k') (alter f i l) = if String.eqb k' k then option_map f (List.find (p k') l) else List.find (p k') l.
Proof.
  intros Hf. revert i. induction l as [|x l IH]; intros i; cbn; [done|]. destruct (p k x) eqn:Hx.
  - intros [= <-]. cbn. rewrite Hf. destruct (String.eqb_spec k' k) as [->|Hk]; [by rewrite Hx|].
    destruct (p k' x) eqn:Hx'; [|done]. by destruct Hk; eapply key_unique.
  - destruct (find_idx (p k) l) as [j|] eqn:E; intros [= <-]. cbn. rewrite (IH j) by done.
    destruct (p k' x) eqn:Hx'; [|done]. destruct (String.eqb_spec k' k) as [->|]; [congruence|done].
Qed.

Lemma find_snoc k' x l :
  List.find (p k') (l ++ [x]) =
  match List.find (p k') l with Some y => Some y | None => if p k' x then Some x else None end.
Proof. rewrite find_app. by destruct (List.find (p k') l). Qed.

Lemma find_delete k k' i l :
  keys_distinct l -> find_idx (p k) l = Some i ->
  List.find (p k') (delete i l) = if String.eqb k' k then None else List.find (p k') l.
Proof.
  intros D H. pose proof (proj1 (find_idx_Some _ _ _) H) as (x & Hx & Hp & _).
  pose proof (find_idx_found _ _ _ H) as (x' & Hx' & Hfind). rewrite Hx in Hx'. injection Hx' as <-.
  destruct (String.eqb_spec k' k) as [->|Hk].
  - apply find_idx_absent, find_idx_None. intros y Hy. apply not_true_is_false. intros Hpy.
    apply list_elem_of_In, list_elem_of_lookup in Hy as [j Hj].
    destruct (decide (j < i)%nat) as [Hlt|Hge].
    + rewrite list_lookup_delete_lt in Hj by done. pose proof (D j i y x k Hj Hx Hpy Hp). lia.
    + rewrite list_lookup_delete_ge in Hj by lia. pose proof (D (S j) i y x k Hj Hx Hpy Hp). lia.
  - clear D Hfind. revert i x Hx Hp H. induction l as [|a l IH]; intros [|i] x Hx Hp H; cbn in *; try done.
    + injection Hx as ->. destruct (p k' x) eqn:E; [|done]. by destruct Hk; eapply key_unique.
    + destruct (p k' a); [done|]. destruct (p k a); [done|].
      destruct (find_idx (p k) l) as [j|] eqn:E; [|done]. injection H as ->. by eapply IH.
Qed.

Lemma keys_distinct_alter f i l :
  (forall k x, p k (f x) = p k x) -> keys_distinct l -> keys_distinct (alter f i l).
Proof.
  intros Hf D a b x y k Ha Hb Hx Hy.
  assert (forall c z, alter f i l !! c = Some z -> p k z = true -> exists z', l !! c = Some z' /\ p k z' = true)
    as Hback.
  { intros c z Hz Hpz. destruct (decide (i = c)) as [<-|].
    - rewrite list_lookup_alter_eq in Hz. apply fmap_Some in Hz as (z' & Hz' & ->). exists z'. by rewrite Hf in Hpz.
    - rewrite list_lookup_alter_ne in Hz by done. by exists z. }
  apply Hback in Ha as (x' & ? & ?); [|done]. apply Hback in Hb as (y' & ? & ?); [|done]. by eapply D.
Qed.

Lemma keys_distinct_snoc x l :
  (forall k, p k x = true -> List.find (p k) l = None) -> keys_distinct l -> keys_distinct (l ++ [x]).
Proof.
  intros Hn D a b y z k Ha Hb Hy Hz.
  assert (forall c w, l !! c = Some w -> p k w = true -> p k x = true -> False) as Habs.
  { intros c w Hc Hw Hkx. apply Hn, find_idx_absent in Hkx. rewrite find_idx_None in Hkx.
    rewrite (Hkx w) in Hw; [done|]. by apply list_elem_of_In, list_elem_of_lookup; exists c. }
  apply lookup_app_Some in Ha as [Ha|[La Ha]]; apply lookup_app_Some in Hb as [Hb|[Lb Hb]];
    try (apply list_lookup_singleton_Some in Ha as [? <-]);
    try (apply list_lookup_singleton_Some in Hb as [? <-]).
  - by eapply D.
  - by destruct (Habs a y).
  - by destruct (Habs b z).
  - lia.
Qed.

Lemma keys_distinct_delete i l : keys_distinct l -> keys_distinct (delete i l).
Proof.
  intros D a b x y k Ha Hb Hx Hy.
  assert (forall c w, delete i l !! c = Some w -> l !! (if decide (c < i)%nat then c else S c) = Some w) as Hback.
  { intros c w Hc. destruct (decide (c < i)%nat); [by rewrite list_lookup_delete_lt in Hc|].
    by rewrite list_lookup_delete_ge in Hc by lia. }
  apply Hback in Ha. apply Hback in Hb. pose proof (D _ _ _ _ _ Ha Hb Hx Hy) as E.
  destruct (decide (a < i)%nat), (decide (b < i)%nat); lia.
Qed.

End Keyed.

(** ** The invariant *)

Definition is_section (name : string) (sec : LpSection) : bool := String.eqb (sec_name sec) name.
Definition is_item (key : string) (item : LpItem) : bool := negb (it_is_comment item) && String.eqb (it_key item) key.

Lemma is_section_unique k k' sec : is_section k sec = true -> is_section k' sec = true -> k = k'.
Proof. unfold is_section. rewrite !String.eqb_eq. congruence. Qed.

Lemma is_item_unique k k' item : is_item k item = true -> is_item k' item = true -> k = k'.
Proof. unfold is_item. rewrite !andb_true_iff, !String.eqb_eq. intuition congruence. Qed.

Definition section_wf (sec : LpSection) : Prop := keys_distinct is_item (sec_items sec).

(** No two sections have the same name, no two items of a section the same key. *)
Record config_wf (c : LpConfig) : Prop := {
  sections_distinct : keys_distinct is_section (lp_sections c);
  items_distinct : Forall section_wf (lp_sections c);
}.

Lemma find_section_find c s : find_section c s = List.find (is_section s) (lp_sections c).
Proof. apply find_idx_find. Qed.

Lemma find_item_find c s k :
  find_item c s k = List.find (is_section s) (lp_sections c) ≫= fun sec => List.find (is_item k) (sec_items sec).
Proof.
  unfold find_item. rewrite find_section_find. destruct (List.find _ _) as [sec|]; [|done]. apply find_idx_find.
Qed.

Lemma find_section_idx c s i :
  linphone_config_find_section c s = Some i ->
  exists sec, lp_sections c !! i = Some sec /\ find_section c s = Some sec /\ sec_name sec = s.
Proof.
  intros H. pose proof (find_idx_found _ _ _ H) as (sec & Hi & Hf). exists sec.
  rewrite find_section_find. split_and!; [done..|]. apply find_In in Hf as [_ Hf]. by apply String.eqb_eq.
Qed.

Lemma find_section_none c s : linphone_config_find_section c s = None -> find_section c s = None.
Proof. intros H. rewrite find_section_find. by apply find_idx_absent. Qed.

Lemma section_wf_find c s sec : config_wf c -> find_section c s = Some sec -> section_wf sec.
Proof.
  intros [_ W] H. rewrite find_section_find in H. apply find_In in H as [H _].
  rewrite List.Forall_forall in W. by apply W.
Qed.

(** A change of the items of a section, by cases on the item looked for. *)
Definition items_after (sec : LpSection) (k : string) : option LpItem := List.find (is_item k) (sec_items sec).

Lemma item_found sec k j :
  lp_section_find_item sec k = Some j -> exists item, sec_items sec !! j = Some item /\ items_after sec k = Some item.
Proof. apply find_idx_found. Qed.

Lemma item_absent sec k : lp_section_find_item sec k = None -> items_after sec k = None.
Proof. apply find_idx_absent. Qed.

(** What [f] does to the section named [s] is what it does to the lookups. *)
Lemma if_section_find c s s' f :
  (forall sec, sec_name (f sec) = sec_name sec) ->
  find_section (if_section c s f) s' =
  if String.eqb s' s then option_map f (find_section c s') else find_section c s'.
Proof.
  intros Hf. unfold if_section. destruct (linphone_config_find_section c s) as [i|] eqn:E.
  - rewrite !find_section_find. apply (find_alter is_section is_section_unique); [|done].
    intros k x. unfold is_section. by rewrite Hf.
  - destruct (String.eqb_spec s' s) as [->|]; [|done]. apply find_section_none in E. by rewrite E.
Qed.

Lemma if_section_wf c s f :
  (forall sec, sec_name (f sec) = sec_name sec) -> (forall sec, section_wf sec -> section_wf (f sec)) ->
  config_wf c -> config_wf (if_section c s f).
Proof.
  intros Hn Hf [D W]. unfold if_section. destruct (linphone_config_find_section c s) as [i|]; [|by split].
  split; cbn.
  - apply keys_distinct_alter; [|done]. intros k x. unfold is_section. by rewrite Hn.
  - apply Forall_alter; [done|]. intros x _. apply Hf.
Qed.

(** ** What each change of a section does to its items *)

Lemma with_item_find sec j k k' f :
  (forall item, it_key (f item) = it_key item /\ it_is_comment (f item) = it_is_comment item) ->
  lp_section_find_item sec k = Some j ->
  items_after (with_item sec j f) k' =
  if String.eqb k' k then option_map f (items_after sec k') else items_after sec k'.
Proof.
  intros Hf H. apply (find_alter is_item is_item_unique); [|done].
  intros k0 x. unfold is_item. by destruct (Hf x) as [-> ->].
Qed.

Lemma with_item_wf sec j f :
  (forall item, it_key (f item) = it_key item /\ it_is_comment (f item) = it_is_comment item) ->
  section_wf sec -> section_wf (with_item sec j f).
Proof.
  intros Hf. apply keys_distinct_alter. intros k0 x. unfold is_item. by destruct (Hf x) as [-> ->].
Qed.

Lemma add_item_find sec k k' v :
  lp_section_find_item sec k = None ->
  items_after (lp_section_add_item sec (lp_item_new k v)) k' =
  if String.eqb k' k then Some (lp_item_new k v) else items_after sec k'.
Proof.
  intros H. unfold items_after. cbn. rewrite find_snoc.
  change (is_item k' (lp_item_new k v)) with (String.eqb k k').
  rewrite (String.eqb_sym k k'). destruct (String.eqb_spec k' k) as [->|].
  - by rewrite (proj1 (find_idx_absent (is_item k) _) H).
  - by destruct (List.find _ _).
Qed.

Lemma add_item_wf sec item :
  (it_is_comment item = false -> lp_section_find_item sec (it_key item) = None) ->
  section_wf sec -> section_wf (lp_section_add_item sec item).
Proof.
  intros H. apply keys_distinct_snoc. unfold is_item. intros k. rewrite andb_true_iff, negb_true_iff, String.eqb_eq.
  intros [Hc <-]. by apply find_idx_absent, H.
Qed.

Lemma remove_item_find sec j k k' :
  section_wf sec -> lp_section_find_item sec k = Some j ->
  items_after (lp_section_remove_item sec j) k' = if String.eqb k' k then None else items_after sec k'.
Proof. intros W H. by apply (find_delete is_item is_item_unique). Qed.

Lemma remove_item_wf sec j : section_wf sec -> section_wf (lp_section_remove_item sec j).
Proof. apply keys_distinct_delete. Qed.

(** ** Lookups after an update *)

Definition value_of (c : LpConfig) (s k : string) : option string := linphone_config_get_string c s k None.

Lemma value_of_find c s k : value_of c s k = it_value <$> (find_section c s ≫= fun sec => items_after sec k).
Proof.
  unfold value_of, linphone_config_get_string. rewrite find_item_find, find_section_find.
  destruct (List.find (is_section s) _) as [sec|]; cbn; [|done]. unfold items_after. by destruct (List.find _ _).
Qed.

Lemma get_string_value c s k d :
  linphone_config_get_string c s k d = match value_of c s k with Some v => Some v | None => d end.
Proof. unfold value_of, linphone_config_get_string. by destruct (find_item c s k). Qed.

(** The lookup depends on the sections only. *)
Lemma value_of_modified c b s k : value_of (c <| lp_modified := b |>) s k = value_of c s k.
Proof. done. Qed.

(** A change of the section [s] that does [g] to the value of [k]. *)
Lemma value_of_if_section c s s' k' f (g : option string -> option string) :
  (forall sec, sec_name (f sec) = sec_name sec) ->
  (forall sec, find_section c s = Some sec -> it_value <$> items_after (f sec) k' = g (it_value <$> items_after sec k')) ->
  g None = None ->
  value_of (if_section c s f) s' k' = if String.eqb s' s then g (value_of c s' k') else value_of c s' k'.
Proof.
  intros Hn Hf Hg. rewrite !value_of_find, if_section_find by done.
  destruct (String.eqb_spec s' s) as [->|]; [|done].
  destruct (find_section c s) as [sec|]; cbn; [by apply Hf|done].
Qed.

Lemma with_section_if c s i f : linphone_config_find_section c s = Some i -> with_section c i f = if_section c s f.
Proof. intros H. unfold if_section. by rewrite H. Qed.

(** Setting the value of an item: the section is there. *)
Lemma value_of_set_item c s k v s' k' j sec :
  find_section c s = Some sec -> lp_section_find_item sec k = Some j ->
  value_of (if_section c s (fun sec => with_item sec j (fun item => lp_item_set_value item v))) s' k' =
  if String.eqb s' s && String.eqb k' k then Some v else value_of c s' k'.
Proof.
  intros Hs Hk. destruct (String.eqb_spec k' k) as [->|Hne].
  - rewrite andb_true_r. rewrite !value_of_find, if_section_find by done.
    destruct (String.eqb_spec s' s) as [->|]; [|done]. rewrite Hs. cbn [mbind option_bind option_map].
    rewrite (with_item_find sec j k k) by done. rewrite String.eqb_refl.
    apply item_found in Hk as (item & _ & Hk). by rewrite Hk.
  - rewrite andb_false_r. rewrite (value_of_if_section c s s' k' _ id); [by destruct (String.eqb s' s)|done| |done].
    intros sec' Hs'. rewrite Hs in Hs'. injection Hs' as <-.
    rewrite (with_item_find sec j k k') by done. by rewrite (proj2 (String.eqb_neq _ _) Hne).
Qed.

Lemma value_of_add_item c s k v s' k' sec :
  find_section c s = Some sec -> lp_section_find_item sec k = None ->
  value_of (if_section c s (fun sec => lp_section_add_item sec (lp_item_new k v))) s' k' =
  if String.eqb s' s && String.eqb k' k then Some v else value_of c s' k'.
Proof.
  intros Hs Hk. rewrite !value_of_find, if_section_find by done.
  destruct (String.eqb_spec s' s) as [->|]; [|done]. rewrite Hs. cbn [mbind option_bind option_map andb].
  rewrite add_item_find by done. by destruct (String.eqb_spec k' k) as [->|].
Qed.

Lemma value_of_remove_item c s k s' k' j sec :
  config_wf c -> find_section c s = Some sec -> lp_section_find_item sec k = Some j ->
  value_of (if_section c s (fun sec => lp_section_remove_item sec j)) s' k' =
  if String.eqb s' s && String.eqb k' k then None else value_of c s' k'.
Proof.
  intros W Hs Hk. rewrite !value_of_find, if_section_find by done.
  destruct (String.eqb_spec s' s) as [->|]; [|done]. rewrite Hs. cbn [mbind option_bind option_map andb].
  rewrite (remove_item_find _ _ k) by (done || by eapply section_wf_find).
  by destruct (String.eqb_spec k' k) as [->|].
Qed.

Lemma value_of_absent_item c s k sec :
  find_section c s = Some sec -> lp_section_find_item sec k = None -> value_of c s k = None.
Proof.
  intros Hs Hk. rewrite value_of_find, Hs. cbn. by rewrite item_absent.
Qed.

Lemma find_section_add c sec s :
  find_section (linphone_config_add_section c sec) s =
  match find_section c s with Some x => Some x | None => if String.eqb (sec_name sec) s then Some sec else None end.
Proof. rewrite !find_section_find. apply (find_snoc is_section). Qed.

Lemma add_section_wf c sec :
  linphone_config_find_section c (sec_name sec) = None -> section_wf sec -> config_wf c ->
  config_wf (linphone_config_add_section c sec).
Proof.
  intros Hn Hs [D W]. split; cbn.
  - apply keys_distinct_snoc; [|done]. intros k Hk%String.eqb_eq. subst k. by apply find_idx_absent.
  - apply Forall_app. by repeat constructor.
Qed.

Lemma singleton_distinct {A} (p : string -> A -> bool) x : keys_distinct p [x].
Proof. intros [|i] [|j] a b k Ha Hb; by destruct i, j || done. Qed.

Lemma config_wf_modified c b : config_wf c -> config_wf (c <| lp_modified := b |>).
Proof. by intros [D W]. Qed.

Lemma value_of_set_string c s k v s' k' :
  config_wf c ->
  value_of (linphone_config_set_string c s k v) s' k' =
  if String.eqb s' s && String.eqb k' k then non_empty v else value_of c s' k'.
Proof.
  intros W. unfold linphone_config_set_string.
  destruct (linphone_config_find_section c s) as [i|] eqn:Ei.
  - pose proof (find_section_idx c s i Ei) as (sec & Hi & Hs & _). rewrite Hi.
    destruct (lp_section_find_item sec k) as [j|] eqn:Ej.
    + destruct (non_empty v) as [w|].
      * pose proof (item_found _ _ _ Ej) as (item & Hj & Hf). rewrite Hj.
        destruct (String.eqb_spec w (it_value item)) as [->|];
          [|rewrite (with_section_if c s i) by done; by apply (value_of_set_item c s k w s' k' j sec)].
        destruct (String.eqb_spec s' s) as [->|]; [|done]. destruct (String.eqb_spec k' k) as [->|]; [|done].
        rewrite value_of_find, Hs. cbn. by rewrite Hf.
      * rewrite (with_section_if c s i) by done. by apply (value_of_remove_item c s k s' k' j sec).
    + destruct (non_empty v) as [w|];
        [rewrite (with_section_if c s i) by done; by apply (value_of_add_item c s k w s' k' sec)|].
      rewrite value_of_modified. destruct (String.eqb_spec s' s) as [->|]; [|done].
      destruct (String.eqb_spec k' k) as [->|]; [|done]. by apply (value_of_absent_item c s k sec).
  - pose proof (find_section_none c s Ei) as Hs. destruct (non_empty v) as [w|]; rewrite value_of_modified, !value_of_find.
    + rewrite find_section_add. change (sec_name (lp_section_add_item _ _)) with s.
      destruct (String.eqb_spec s' s) as [->|Hne].
      * rewrite Hs, String.eqb_refl. cbn. unfold items_after. cbn. rewrite (String.eqb_sym k k'). by destruct (String.eqb k' k).
      * rewrite (proj2 (String.eqb_neq s s')) by congruence. by destruct (find_section c s').
    + destruct (String.eqb_spec s' s) as [->|]; [|done]. rewrite Hs. by destruct (String.eqb k' k).
Qed.

Lemma set_string_wf c s k v : config_wf c -> config_wf (linphone_config_set_string c s k v).
Proof.
  intros W. unfold linphone_config_set_string.
  destruct (linphone_config_find_section c s) as [i|] eqn:Ei.
  - pose proof (find_section_idx c s i Ei) as (sec & Hi & Hs & _). rewrite Hi.
    destruct (lp_section_find_item sec k) as [j|] eqn:Ej; destruct (non_empty v) as [w|].
    + destruct (match sec_items sec !! j with Some item => _ | None => _ end); [done|].
      rewrite (with_section_if c s i) by done. apply config_wf_modified, if_section_wf; [done| |done].
      intros sec'. by apply with_item_wf.
    + rewrite (with_section_if c s i) by done. apply config_wf_modified, if_section_wf; [done| |done].
      intros sec'. apply remove_item_wf.
    + destruct W as [D W]. split; cbn.
      * apply keys_distinct_alter; [|done]. intros; done.
      * apply Forall_alter; [done|]. intros x Hx. rewrite Hi in Hx. injection Hx as <-.
        intros Wx. apply add_item_wf; [by intros|done].
    + by apply config_wf_modified.
  - destruct (non_empty v) as [w|]; apply config_wf_modified; [|done].
    apply add_section_wf; [done| |done]. apply singleton_distinct.
Qed.

Lemma value_of_clean_entry c s k s' k' :
  config_wf c ->
  value_of (linphone_config_clean_entry c s k) s' k' =
  if String.eqb s' s && String.eqb k' k then None else value_of c s' k'.
Proof.
  intros W. unfold linphone_config_clean_entry.
  destruct (String.eqb_spec k' k) as [->|Hk]; [rewrite andb_true_r|rewrite andb_false_r].
  - rewrite (value_of_if_section c s s' k _ (fun _ => None)); [done|..|done].
    + intros sec. by destruct (lp_section_find_item sec k).
    + intros sec Hs. destruct (lp_section_find_item sec k) as [j|] eqn:Ej.
      * rewrite (remove_item_find sec j k) by (done || by eapply section_wf_find). by rewrite String.eqb_refl.
      * by rewrite item_absent.
  - rewrite (value_of_if_section c s s' k' _ id); [by destruct (String.eqb s' s)|..|done].
    + intros sec. by destruct (lp_section_find_item sec k).
    + intros sec Hs. destruct (lp_section_find_item sec k) as [j|] eqn:Ej; [|done].
      rewrite (remove_item_find sec j k) by (done || by eapply section_wf_find).
      by rewrite (proj2 (String.eqb_neq _ _) Hk).
Qed.

Lemma clean_entry_wf c s k : config_wf c -> config_wf (linphone_config_clean_entry c s k).
Proof.
  apply if_section_wf; intros sec; destruct (lp_section_find_item sec k); try done. apply remove_item_wf.
Qed.

Lemma value_of_clean_section c s s' k' :
  config_wf c -> value_of (linphone_config_clean_section c s) s' k' = if String.eqb s' s then None else value_of c s' k'.
Proof.
  intros [D _]. unfold linphone_config_clean_section. rewrite value_of_modified, !value_of_find.
  destruct (linphone_config_find_section c s) as [i|] eqn:Ei.
  - rewrite !find_section_find. cbn [lp_sections linphone_config_remove_section update eta eta_LpConfig].
    rewrite (find_delete is_section is_section_unique s) by done. by destruct (String.eqb s' s).
  - apply find_section_none in Ei. destruct (String.eqb_spec s' s) as [->|]; [by rewrite Ei|done].
Qed.

Lemma clean_section_wf c s : config_wf c -> config_wf (linphone_config_clean_section c s).
Proof.
  intros [D W]. unfold linphone_config_clean_section. apply config_wf_modified.
  destruct (linphone_config_find_section c s) as [i|]; [|by split].
  split; cbn; [by apply keys_distinct_delete|]. by apply Forall_delete.
Qed.

(** Flags are not part of a lookup. *)
Lemma value_of_item_flag c s k s' k' f :
  (forall item, it_key (f item) = it_key item /\ it_is_comment (f item) = it_is_comment item /\
                it_value (f item) = it_value item) ->
  value_of (if_item c s k f) s' k' = value_of c s' k'.
Proof.
  intros Hf. unfold if_item. rewrite (value_of_if_section c s s' k' _ id); [by destruct (String.eqb s' s)|..|done].
  - intros sec. by destruct (lp_section_find_item sec k).
  - intros sec _. destruct (lp_section_find_item sec k) as [j|] eqn:Ej; [|done].
    rewrite (with_item_find sec j k) by (done || (intros item; destruct (Hf item) as (? & ? & _); by split)).
    destruct (String.eqb k' k); [|done]. destruct (items_after sec k') as [item|]; [|done].
    cbn. by destruct (Hf item) as (_ & _ & ->).
Qed.

Lemma if_item_wf c s k f :
  (forall item, it_key (f item) = it_key item /\ it_is_comment (f item) = it_is_comment item) ->
  config_wf c -> config_wf (if_item c s k f).
Proof.
  intros Hf. apply if_section_wf; intros sec; destruct (lp_section_find_item sec k); try done. by apply with_item_wf.
Qed.

Lemma value_of_section_flag c s s' k' f :
  (forall sec, sec_name (f sec) = sec_name sec /\ sec_items (f sec) = sec_items sec) ->
  value_of (if_section c s f) s' k' = value_of c s' k'.
Proof.
  intros Hf. rewrite (value_of_if_section c s s' k' _ id); [by destruct (String.eqb s' s)|..|done].
  - intros sec. apply Hf.
  - intros sec _. unfold items_after. by rewrite (proj2 (Hf sec)).
Qed.

Lemma section_flag_wf c s f :
  (forall sec, sec_name (f sec) = sec_name sec /\ sec_items (f sec) = sec_items sec) ->
  config_wf c -> config_wf (if_section c s f).
Proof.
  intros Hf. apply if_section_wf; intros sec; [apply Hf|]. unfold section_wf. by rewrite (proj2 (Hf sec)).
Qed.

(** ** The abstract map *)

(** What a configuration says: the value of each key of each section. *)
Notation Entries := (gmap (string * string) string).

Definition section_entries (sec : LpSection) : list (string * string * string) :=
  map (fun item => (sec_name sec, it_key item, it_value item)) (lp_section_get_items sec).

Definition entries (c : LpConfig) : Entries := list_to_map (concat (map section_entries (lp_sections c))).

Lemma list_to_map_find {K V} `{Countable K} (l : list (K * V)) k :
  (list_to_map l : gmap K V) !! k = snd <$> List.find (fun x => bool_decide (fst x = k)) l.
Proof.
  induction l as [|[k' v] l IH]; [done|]. cbn. case_bool_decide as E.
  - subst k'. by rewrite lookup_insert_eq.
  - by rewrite lookup_insert_ne.
Qed.

Lemma section_entries_find sec s k :
  List.find (fun x => bool_decide (fst x = (s, k))) (section_entries sec) =
  if is_section s sec then option_map (fun item => (s, k, it_value item)) (items_after sec k) else None.
Proof.
  unfold section_entries, lp_section_get_items, items_after, is_section.
  destruct (String.eqb_spec (sec_name sec) s) as [<-|Hne].
  - induction (sec_items sec) as [|item l IH]; [done|]. cbn. unfold is_item at 1.
    destruct (it_is_comment item) eqn:Ec; cbn; [done|].
    destruct (String.eqb_spec (it_key item) k) as [<-|Hk]; [by rewrite bool_decide_eq_true_2|].
    by rewrite bool_decide_eq_false_2 by congruence.
  - induction (List.filter _ (sec_items sec)) as [|item l IH]; [done|]. cbn.
    by rewrite bool_decide_eq_false_2 by congruence.
Qed.

Lemma entries_lookup c s k : config_wf c -> entries c !! (s, k) = value_of c s k.
Proof.
  intros [D _]. unfold entries. rewrite list_to_map_find, value_of_find, find_section_find.
  revert D. induction (lp_sections c) as [|sec l IH]; intros D; [done|]. cbn.
  rewrite find_app, section_entries_find.
  assert (keys_distinct is_section l) as D'.
  { intros i j x y k0 Hi Hj Hx Hy. pose proof (D (S i) (S j) x y k0 Hi Hj Hx Hy). lia. }
  specialize (IH D'). destruct (is_section s sec) eqn:Es; [|done]. cbn.
  destruct (items_after sec k) as [item|]; [done|]. cbn. rewrite IH.
  destruct (List.find (is_section s) l) as [sec'|] eqn:E; [|done].
  apply List.find_some in E as [Hin E]. apply list_elem_of_In, list_elem_of_lookup in Hin as [j Hj].
  pose proof (D 0%nat (S j) sec sec' s eq_refl Hj Es E). lia.
Qed.

(** ** The operations on the configuration and on the map *)

Inductive ConfigOp :=
  | OpSetString (section key : string) (value : option string)
  | OpCleanEntry (section key : string)
  | OpCleanSection (section : string)
  | OpEntryOverwrite (section key : string) (value : bool)
  | OpSectionOverwrite (section : string) (value : bool)
  | OpEntrySkip (section key : string) (value : bool)
  | OpSectionSkip (section : string) (value : bool).

Definition run_op (c : LpConfig) (op : ConfigOp) : LpConfig :=
  match op with
  | OpSetString s k v => linphone_config_set_string c s k v
  | OpCleanEntry s k => linphone_config_clean_entry c s k
  | OpCleanSection s => linphone_config_clean_section c s
  | OpEntryOverwrite s k v => linphone_config_set_overwrite_flag_for_entry c s k v
  | OpSectionOverwrite s v => linphone_config_set_overwrite_flag_for_section c s v
  | OpEntrySkip s k v => linphone_config_set_skip_flag_for_entry c s k v
  | OpSectionSkip s v => linphone_config_set_skip_flag_for_section c s v
  end.

Definition spec_op (m : Entries) (op : ConfigOp) : Entries :=
  match op with
  | OpSetString s k v => match non_empty v with Some v => <[(s, k) := v]> m | None => delete (s, k) m end
  | OpCleanEntry s k => delete (s, k) m
  | OpCleanSection s => filter (fun x => fst (fst x) <> s) m
  | _ => m
  end.

Lemma run_op_wf c op : config_wf c -> config_wf (run_op c op).
Proof.
  destruct op; cbn [run_op]; auto using set_string_wf, clean_entry_wf, clean_section_wf.
  1,3: by apply if_item_wf.
  all: by apply section_flag_wf.
Qed.

Lemma pair_eqb s k s' k' : String.eqb s' s && String.eqb k' k = bool_decide ((s, k) = (s', k')).
Proof.
  destruct (String.eqb_spec s' s) as [->|]; cbn; [|by rewrite bool_decide_eq_false_2 by congruence].
  destruct (String.eqb_spec k' k) as [->|]; [by rewrite bool_decide_eq_true_2|].
  by rewrite bool_decide_eq_false_2 by congruence.
Qed.

Lemma run_op_entries c op : config_wf c -> entries (run_op c op) = spec_op (entries c) op.
Proof.
  intros W. apply map_eq. intros [s' k']. rewrite entries_lookup by by apply run_op_wf.
  destruct op as [s k v|s k|s|s k v|s v|s k v|s v]; cbn [run_op spec_op].
  - rewrite value_of_set_string, <- entries_lookup, pair_eqb by done. case_bool_decide as E.
    + rewrite <- E. destruct (non_empty v); [by rewrite lookup_insert_eq|by rewrite lookup_delete_eq].
    + destruct (non_empty v); [by rewrite lookup_insert_ne|by rewrite lookup_delete_ne].
  - rewrite value_of_clean_entry, <- entries_lookup, pair_eqb by done. case_bool_decide as E.
    + rewrite <- E. by rewrite lookup_delete_eq.
    + by rewrite lookup_delete_ne.
  - rewrite value_of_clean_section, <- entries_lookup by done. rewrite map_lookup_filter. cbn.
    destruct (String.eqb_spec s' s) as [->|Hne]; destruct (entries c !! _) as [v|]; cbn; try done.
    + by rewrite option_guard_False by (intros []; done).
    + by rewrite option_guard_True.
  - unfold linphone_config_set_overwrite_flag_for_entry. by rewrite value_of_item_flag, entries_lookup.
  - unfold linphone_config_set_overwrite_flag_for_section. by rewrite value_of_section_flag, entries_lookup.
  - unfold linphone_config_set_skip_flag_for_entry. by rewrite value_of_item_flag, entries_lookup.
  - unfold linphone_config_set_skip_flag_for_section. by rewrite value_of_section_flag, entries_lookup.
Qed.

Lemma run_ops_wf ops c : config_wf c -> config_wf (fold_left run_op ops c).
Proof. revert c. induction ops as [|op ops IH]; intros c W; [done|]. apply IH. by apply run_op_wf. Qed.

Lemma run_ops_entries ops c : config_wf c -> entries (fold_left run_op ops c) = fold_left spec_op ops (entries c).
Proof.
  revert c. induction ops as [|op ops IH]; intros c W; [done|]. cbn. rewrite IH by by apply run_op_wf.
  by rewrite run_op_entries.
Qed.

Lemma new_wf : config_wf LinphoneConfig_new.
Proof. split; [intros i j x y k H; done|constructor]. Qed.

(** C22. A configuration refines a finite map from a section and a key to a
    value: whatever sequence of updates is made, from a configuration without
    duplicates, every lookup finds what the same updates leave in the map, or
    the default value; an empty value removes the entry. *)
Theorem configuration_refines_map c ops s k d :
  config_wf c ->
  linphone_config_get_string (fold_left run_op ops c) s k d =
  match fold_left spec_op ops (entries c) !! (s, k) with Some v => Some v | None => d end.
Proof.
  intros W. by rewrite get_string_value, <- run_ops_entries, entries_lookup by auto using run_ops_wf.
Qed.

Lemma configuration_refines_map_witness :
  linphone_config_get_string
    (fold_left run_op [OpSetString "sip" "port" (Some "5060"); OpSetString "sip" "port" (Some "5061");
       OpCleanSection "net"; OpEntrySkip "sip" "port" true] LinphoneConfig_new) "sip" "port" None = Some "5061"%string.
Proof.
  rewrite (configuration_refines_map LinphoneConfig_new _ _ _ _ new_wf). vm_compute. reflexivity.
Defined.
