(* ===== verification/LpConfigParse.v ===== *)
(** What the parser of configuration files does: every line is read unless a
    section line goes on after its bracket, and the entries that are read are
    those of a reference reader of lines; the invariant of configurations holds
    of whatever is read. *)
From S2P Require Import Prelude Sscanf LpConfig LpConfigValues LpConfigFile LpConfigSpec.

(** ** Positions in a line *)

Lemma str_cons_app c s : String c s = String c EmptyString +:+ s.
Proof. done. Qed.

Lemma advance_app a b : advance (String.length a) (a +:+ b) = Some b.
Proof. induction a as [|c a IH]; [done|exact IH]. Qed.

Lemma advance_plus n m s : advance (n + m) s = advance n s ≫= advance m.
Proof. revert s. induction n as [|n IH]; intros [|c s]; cbn; try done. Qed.

Lemma advance_length n s t : advance n s = Some t -> String.length s = (n + String.length t)%nat.
Proof.
  revert s. induction n as [|n IH]; intros [|c s] H; cbn in *; try (injection H as <-; done);
    [done|]. by rewrite (IH _ H).
Qed.

Lemma advance_split n s u : advance n s = Some u -> exists pre, s = pre +:+ u /\ String.length pre = n.
Proof.
  revert s. induction n as [|n IH]; intros s Hu; [injection Hu as ->; by exists EmptyString|].
  destruct s as [|c s]; [done|]. destruct (IH s Hu) as (pre & -> & <-). by exists (String c pre).
Qed.

Lemma advance_some n s : (n <= String.length s)%nat -> exists t, advance n s = Some t.
Proof.
  revert s. induction n as [|n IH]; intros s H; [by exists s|]. destruct s as [|c s]; cbn in *; [lia|].
  apply IH. lia.
Qed.

(** A text without the character [c]. *)
Definition lacks (c : ascii) (s : string) : Prop := str_has c s = false.

Lemma lacks_cons c d s : lacks c (String d s) <-> d <> c /\ lacks c s.
Proof.
  unfold lacks. cbn. rewrite orb_false_iff, Ascii.eqb_neq. intuition congruence.
Qed.

Lemma lacks_app c a b : lacks c (a +:+ b) <-> lacks c a /\ lacks c b.
Proof. unfold lacks. by rewrite str_has_app, orb_false_iff. Qed.

Lemma split_at_app c a b : lacks c a -> split_at c (a +:+ String c b) = Some (a, b).
Proof.
  induction a as [|d a IH]; cbn; [by rewrite Ascii.eqb_refl|]. intros [Hd Ha]%lacks_cons.
  apply Ascii.eqb_neq in Hd. by rewrite Hd, IH.
Qed.

Lemma split_on_cons c a b : lacks c a -> split_on c (a +:+ String c b) = a :: split_on c b.
Proof.
  induction a as [|d a IH]; intros H; cbn; [by rewrite Ascii.eqb_refl|]. apply lacks_cons in H as [Hd Ha].
  rewrite (proj2 (Ascii.eqb_neq d c)) by done. by rewrite IH.
Qed.

Lemma split_at_none c s : lacks c s -> split_at c s = None.
Proof.
  induction s as [|d s IH]; cbn; [done|]. intros [Hd Hs]%lacks_cons. apply Ascii.eqb_neq in Hd. by rewrite Hd, IH.
Qed.

Lemma split_at_some c s a b : split_at c s = Some (a, b) -> s = a +:+ String c b /\ lacks c a.
Proof.
  revert a b. induction s as [|d s IH]; intros a b; cbn; [done|].
  destruct (Ascii.eqb_spec d c) as [->|Hd]; [by intros [= <- <-]|].
  destruct (split_at c s) as [[a' b']|] eqn:E; [|done]. intros [= <- <-].
  destruct (IH a' b' eq_refl) as [-> Ha]. split; [done|]. by apply lacks_cons.
Qed.

Lemma split_at_has c s : str_has c s = true -> exists a b, split_at c s = Some (a, b).
Proof.
  intros H. destruct (split_at c s) as [[a b]|] eqn:E; [by exists a, b|].
  assert (lacks c s) as L; [|by unfold lacks in L; congruence].
  clear H. induction s as [|d s IH]; [done|]. cbn in E. destruct (Ascii.eqb_spec d c) as [->|]; [done|].
  destruct (split_at c s) as [[? ?]|]; [done|]. apply lacks_cons. split; [done|]. by apply IH.
Qed.

Lemma c_str_nul s t : lacks NUL s -> c_str (s +:+ String NUL t) = s.
Proof.
  intros H. unfold c_str. rewrite str_span_all; [done| |done].
  revert H. induction s as [|d s IH]; [done|]. intros [Hd Hs]%lacks_cons. cbn.
  apply Ascii.eqb_neq in Hd. rewrite Hd. by apply IH.
Qed.

Lemma str_span_app p s a b : str_span p s = (a, b) -> s = a +:+ b.
Proof.
  revert a b. induction s as [|c s IH]; cbn; intros a b; [by intros [= <- <-]|].
  destruct (p c); [|by intros [= <- <-]]. destruct (str_span p s) as [a' b']. intros [= <- <-]. cbn. f_equal. by apply IH.
Qed.

Lemma str_span_rest p s a b : str_span p s = (a, b) -> head_is p b = false.
Proof.
  revert a b. induction s as [|c s IH]; cbn; intros a b; [by intros [= <- <-]|].
  destruct (p c) eqn:E; [|by intros [= <- <-]]. destruct (str_span p s) as [a' b']. intros [= <- <-]. by eapply IH.
Qed.

Lemma str_span_prefix p s a b : str_span p s = (a, b) -> str_all p a = true.
Proof.
  revert a b. induction s as [|c s IH]; cbn; intros a b; [by intros [= <- <-]|].
  destruct (p c) eqn:E; [|by intros [= <- <-]]. destruct (str_span p s) as [a' b']. intros [= <- <-]. cbn.
  rewrite E. by eapply IH.
Qed.

Lemma str_take_span_whole p n s : (String.length s <= n)%nat -> str_take_span p n s = str_span p s.
Proof.
  revert n. induction s as [|c s IH]; intros [|n] H; cbn in *; try done; [lia|].
  destruct (p c); [|done]. rewrite IH by lia. done.
Qed.

Lemma scan_ws_app s : exists w, s = w +:+ scan_ws s /\ str_all is_space w = true.
Proof.
  unfold scan_ws. destruct (str_span is_space s) as [a b] eqn:E. exists a. split; [by apply str_span_app in E|].
  by apply str_span_prefix in E.
Qed.

(** [%s] reads a word: there is white space before it, and white space or the
    end of the text after it. *)
Lemma scan_str_some s w r :
  scan_str s = Some (w, r) ->
  exists l, s = l +:+ w +:+ r /\ str_all is_space l = true /\ is_token w /\ (r = EmptyString \/ head_is is_space r = true).
Proof.
  unfold scan_str, scan_word. destruct (scan_ws_app s) as (l & Hs & Hl).
  assert (String.length (scan_ws s) <= String.length s)%nat as Hlen.
  { rewrite Hs at 2. rewrite str_length_app. lia. }
  rewrite str_take_span_whole by done.
  destruct (str_span _ (scan_ws s)) as [[|c a] b] eqn:E; [done|]. intros [= <- <-]. exists l.
  pose proof (str_span_app _ _ _ _ E) as Ha. pose proof (str_span_rest _ _ _ _ E) as Hr.
  pose proof (str_span_prefix _ _ _ _ E) as Hp.
  split_and!; [by rewrite <- Ha|done|by split|]. destruct b as [|d b]; [by left|]. right.
  by apply negb_false_iff in Hr.
Qed.

(** Two words in a row are apart. *)
Lemma two_words_length s k r v r' :
  scan_str s = Some (k, r) -> scan_str r = Some (v, r') ->
  (String.length k + String.length v + 1 <= String.length s)%nat.
Proof.
  intros (l & -> & _ & _ & Hr)%scan_str_some Hv. pose proof Hv as (l' & E & _ & [Hv1 Hv2] & _)%scan_str_some.
  rewrite !str_length_app. destruct Hr as [->|Hr].
  { destruct l'; cbn in E; [|done]. by destruct v. }
  destruct l' as [|c l'].
  - cbn in E. rewrite E in Hr. destruct v as [|d v]; [done|]. cbn in Hr, Hv2.
    by rewrite Hr in Hv2.
  - rewrite E, !str_length_app. cbn. lia.
Qed.

(** ** The parameters of a section *)

Lemma split_first_eq s t before after :
  split_at "=" s = Some (before, after) -> split_at "=" (s +:+ t) = Some (before, after +:+ t).
Proof. intros [-> H]%split_at_some. rewrite str_app_assoc. by apply split_at_app. Qed.

(** The loop ends whenever nothing is assigned after the bracket. *)
Definition readable_tail (mem : string) : Prop :=
  (exists s t, mem = s +:+ String NUL t /\ lacks NUL s /\ lacks "=" t /\ t <> EmptyString) \/
  (mem <> EmptyString /\ lacks "=" mem).

Lemma lacks_span c p s : lacks c s -> lacks c (fst (str_span p s)).
Proof.
  destruct (str_span p s) as [a b] eqn:E. apply str_span_app in E as ->. by intros [? _]%lacks_app.
Qed.

Lemma parse_section_params_done fuel cur mem :
  readable_tail mem -> exists cur', parse_section_params fuel cur mem = Done cur'.
Proof.
  revert cur mem. induction fuel as [|fuel IH]; intros cur mem H; [by exists cur|]. cbn [parse_section_params].
  destruct H as [(s & t & -> & Hs & Ht & Hne)|[Hne Hl]].
  2:{ rewrite (proj2 (str_empty_false mem)) by done.
      rewrite split_at_none by by apply lacks_span. by exists cur. }
  rewrite (proj2 (str_empty_false _)) by by destruct s.
  rewrite c_str_nul by done. destruct (split_at "=" s) as [[a b]|] eqn:E; [|by exists cur].
  rewrite (split_first_eq _ _ _ _ E). pose proof (split_at_some _ _ _ _ E) as [-> _].
  set (s' := a +:+ String " " b).
  replace (a +:+ String " " (b +:+ String NUL t)) with (s' +:+ String NUL t) by by unfold s'; rewrite str_app_assoc.
  assert (lacks NUL s') as Hs'.
  { apply lacks_app in Hs as [Ha Hb]. apply lacks_cons in Hb as [_ Hb]. apply lacks_app. split; [done|].
    by apply lacks_cons. }
  rewrite c_str_nul by done. clearbody s'.
  destruct (scan_str s') as [[k r]|] eqn:Ek; [|by exists cur]. destruct (scan_str r) as [[v r']|] eqn:Ev; [|by exists cur].
  pose proof (two_words_length _ _ _ _ _ Ek Ev) as Hlen.
  destruct (decide (String.length k + String.length v + 2 <= String.length s')%nat) as [Hle|Hgt].
  - destruct (advance_some _ _ Hle) as [u Hu].
    apply advance_split in Hu as (pre & -> & Hpre). rewrite str_app_assoc, <- Hpre, advance_app. apply IH. left. exists u, t.
    apply lacks_app in Hs' as [_ Hu']. done.
  - replace (String.length k + String.length v + 2)%nat with (String.length (s' +:+ String NUL EmptyString)).
    2:{ rewrite str_length_app. cbn. lia. }
    replace (s' +:+ String NUL t) with ((s' +:+ String NUL EmptyString) +:+ t) by by rewrite str_app_assoc.
    rewrite advance_app. apply IH. by right.
Qed.

(** The loop only adds parameters to the section. *)
Lemma parse_section_params_frame fuel cur mem cur' :
  parse_section_params fuel cur mem = Done cur' ->
  exists params, cur' = cur <| sec_params := sec_params cur ++ params |>.
Proof.
  revert cur mem. induction fuel as [|fuel IH]; intros cur mem; cbn [parse_section_params].
  { intros [= <-]. exists []. rewrite app_nil_r. by destruct cur. }
  assert (Done cur = Done cur' -> exists params, cur' = cur <| sec_params := sec_params cur ++ params |>) as Hend.
  { intros [= <-]. exists []. rewrite app_nil_r. by destruct cur. }
  destruct (str_empty mem); [done|]. destruct (split_at "=" (c_str mem)) as [[a b]|]; [|done].
  destruct (split_at "=" mem) as [[a' b']|];
    (destruct (scan_str _) as [[k r]|]; [|done]; destruct (scan_str r) as [[v r']|]; [|done];
     destruct (advance _ _) as [mem'|]; [|done]; intros (params & ->)%IH;
     exists (lp_section_param_new k v :: params); cbn; by rewrite <- app_assoc).
Qed.

(** A turn that goes on consumes at least four characters: more turns than the
    length of the line change nothing. *)
Lemma parse_section_params_fuel fuel fuel' cur mem :
  (String.length mem < fuel)%nat -> (String.length mem < fuel')%nat ->
  parse_section_params fuel cur mem = parse_section_params fuel' cur mem.
Proof.
  revert fuel' cur mem. induction fuel as [|fuel IH]; intros [|fuel'] cur mem H H'; try lia. cbn [parse_section_params].
  destruct (str_empty mem); [done|]. destruct (split_at "=" (c_str mem)) as [[a b]|] eqn:E; [|done].
  assert (exists b', split_at "=" mem = Some (a, b')) as [b' Eb].
  { unfold c_str in E. destruct (str_span _ mem) as [x y] eqn:Ex. apply str_span_app in Ex as ->.
    exists (b +:+ y). by apply split_first_eq. }
  rewrite Eb. pose proof (split_at_some _ _ _ _ Eb) as [Em _].
  destruct (scan_str _) as [[k r]|] eqn:Ek; [|done]. destruct (scan_str r) as [[v r']|] eqn:Ev; [|done].
  destruct (advance _ _) as [mem'|] eqn:Ea; [|done]. apply advance_length in Ea.
  apply IH; rewrite Em in H, H'; rewrite !str_length_app in *; cbn in *; lia.
Qed.

(** ** One parameter *)

(** A word of a section line: the name of a section, the key or the value of a
    parameter. *)
Record param_word (s : string) : Prop := {
  word_token : is_token s;
  word_no_nul : lacks NUL s;
  word_no_eq : lacks "=" s;
  word_no_close : lacks "]" s;
}.

Lemma c_str_app s t : lacks NUL s -> c_str (s +:+ t) = s +:+ c_str t.
Proof.
  unfold c_str. induction s as [|d s IH]; intros H; [done|]. apply lacks_cons in H as [Hd Hs]. cbn.
  apply Ascii.eqb_neq in Hd. rewrite Hd. cbn. rewrite <- IH by done. by destruct (str_span _ (s +:+ t)).
Qed.

(** A parameter followed by a white space or by the bracket. *)
Lemma parse_one_param fuel cur k v c rest :
  param_word k -> param_word v -> c = NUL \/ c = " "%char ->
  parse_section_params (S fuel) cur (k +:+ "=" +:+ v +:+ String c rest) =
  parse_section_params fuel (linphone_config_add_section_param cur (lp_section_param_new k v)) rest.
Proof.
  intros Hk Hv Hc. cbn [parse_section_params].
  rewrite (proj2 (str_empty_false _)) by by destruct k as [|? ?]; [destruct (word_token _ Hk)|].
  change ("=" +:+ v +:+ String c rest) with (String "=" (v +:+ String c rest)).
  rewrite c_str_app, (str_cons_app "=") by apply Hk. rewrite (c_str_app (String "=" EmptyString)) by done.
  change (String "=" EmptyString +:+ c_str (v +:+ String c rest)) with (String "=" (c_str (v +:+ String c rest))).
  change (String "=" EmptyString +:+ v +:+ String c rest) with (String "=" (v +:+ String c rest)).
  rewrite !split_at_app by apply Hk.
  rewrite c_str_app, (str_cons_app " ") by apply Hk. rewrite (c_str_app (String " " EmptyString)) by done.
  rewrite c_str_app by apply Hv. set (tail := c_str (String c rest)).
  assert (head_is (fun d => negb (is_space d)) tail = false) as Ht by by unfold tail, c_str; destruct Hc as [-> | ->]; cbn; try destruct (str_span _ _).
  rewrite scan_str_token by by (apply Hk || done).
  change (String " " EmptyString +:+ v +:+ tail) with (String " " (v +:+ tail)).
  rewrite scan_str_space by by (apply Hv || done).
  replace (k +:+ String " " EmptyString +:+ v +:+ String c rest)
    with ((k +:+ String " " EmptyString +:+ v +:+ String c EmptyString) +:+ rest) by by rewrite !str_app_assoc.
  replace (String.length k + String.length v + 2)%nat
    with (String.length (k +:+ String " " EmptyString +:+ v +:+ String c EmptyString)).
  2:{ rewrite !str_length_app. cbn. lia. }
  by rewrite advance_app.
Qed.

(** ** What a line says *)

(** The opening of a section line. *)
Lemma parse_line_section c inside rest cur :
  lacks "]" inside -> linphone_config_parse_line c ("[" +:+ inside +:+ "]" +:+ rest) cur = parse_section_line c inside rest cur.
Proof.
  intros H. unfold linphone_config_parse_line. cbn [String.append split_at Ascii.eqb is_first_char str_all Bool.eqb].
  change (inside +:+ "]" +:+ rest) with (inside +:+ String "]" rest). by rewrite split_at_app.
Qed.

Lemma parse_section_line_params c name inside rest cur :
  param_word name ->
  exists c1 i sec, lp_sections c1 !! i = Some sec /\
    parse_section_line c (name +:+ " " +:+ inside) rest cur =
    let* sec' := parse_section_params (S (String.length (inside +:+ String NUL (rest +:+ String NUL EmptyString)))) sec
      (inside +:+ String NUL (rest +:+ String NUL EmptyString)) in
    Done (with_section c1 i (fun _ => sec'), Some i).
Proof.
  intros Hn. unfold parse_section_line. rewrite scan_str_token by (apply Hn || done).
  set (opened := match linphone_config_find_section c name with Some i => (c, i) | None => _ end).
  assert (exists sec, lp_sections (fst opened) !! snd opened = Some sec) as [sec Hi].
  { unfold opened. destruct (linphone_config_find_section c name) as [i|] eqn:E; cbn.
    - apply find_section_idx in E as (sec & Hi & _). by exists sec.
    - exists (lp_section_new name). by rewrite list_lookup_middle. }
  destruct opened as [c1 i]. cbn [fst snd] in Hi. exists c1, i, sec. split; [done|].
  replace (String.length name <? String.length (name +:+ " " +:+ inside))%nat with true.
  2:{ symmetry. apply Nat.ltb_lt. rewrite str_length_app. cbn. lia. }
  replace ((name +:+ " " +:+ inside) +:+ String NUL (rest +:+ String NUL EmptyString))
    with ((name +:+ " ") +:+ inside +:+ String NUL (rest +:+ String NUL EmptyString)) by by rewrite !str_app_assoc.
  replace (String.length name + 1)%nat with (String.length (name +:+ " ")) by by rewrite str_length_app.
  by rewrite advance_app, Hi.
Qed.

Inductive Meaning :=
  | MSection (name : string)
  | MComment
  | MEntry (key value : string)
  | MNothing.

(** The text from the bracket that starts a section line. *)
Definition section_start (line : string) : option string :=
  match split_at "[" line with
  | Some (before, after) => if is_first_char before then Some after else None
  | None => None
  end.

Definition entry_of_line (line : string) : option (string * string) :=
  match split_at "=" line with
  | Some (before, after) =>
      match scan_str before with
      | Some (key, _) => let value := strip_end (cut_line after) in if str_empty value then None else Some (key, value)
      | None => None
      end
  | None => None
  end.

Definition meaning (line : string) : Meaning :=
  match section_start line with
  | Some after =>
      match split_at "]" after with
      | Some (inside, _) => match scan_str inside with Some (name, _) => MSection name | None => MNothing end
      | None => MNothing
      end
  | None =>
      if is_a_comment line then MComment
      else match entry_of_line line with Some (k, v) => MEntry k v | None => MNothing end
  end.

(** The reference reader: the entries read so far and the current section. *)
Definition spec_line (st : Entries * option string) (line : string) : Entries * option string :=
  let '(m, cur) := st in
  match meaning line with
  | MSection name => (m, Some name)
  | MEntry k v => (match cur with Some s => <[(s, k) := v]> m | None => m end, cur)
  | MComment | MNothing => (m, cur)
  end.

(** The name of the current section. *)
Definition current_name (c : LpConfig) (cur : option nat) : option string :=
  cur ≫= fun i => sec_name <$> lp_sections c !! i.

Definition current_ok (c : LpConfig) (cur : option nat) : Prop :=
  forall i, cur = Some i -> exists sec, lp_sections c !! i = Some sec.

Lemma section_at_index c i sec :
  config_wf c -> lp_sections c !! i = Some sec -> linphone_config_find_section c (sec_name sec) = Some i.
Proof.
  intros [D _] Hi. unfold linphone_config_find_section. apply find_idx_Some. exists sec. split; [done|].
  split; [apply String.eqb_refl|]. intros j y Hj Hy. apply not_true_is_false. intros Hn.
  pose proof (D j i y sec (sec_name sec) Hy Hi Hn (String.eqb_refl _)). lia.
Qed.

(** Two sections of a configuration well formed: what is at an index is what the
    name finds. *)
Lemma section_at_find c i sec :
  config_wf c -> lp_sections c !! i = Some sec -> find_section c (sec_name sec) = Some sec.
Proof.
  intros W Hi. unfold find_section. by rewrite (section_at_index c i sec W Hi).
Qed.

Lemma parse_item_name k v sec : sec_name (parse_item k v sec) = sec_name sec.
Proof. unfold parse_item. by destruct (lp_section_find_item sec k). Qed.

Lemma parse_item_wf k v sec : section_wf sec -> section_wf (parse_item k v sec).
Proof.
  intros W. unfold parse_item. destruct (lp_section_find_item sec k) eqn:E; [by apply with_item_wf|].
  by apply add_item_wf.
Qed.

Lemma parse_item_find k v k' sec :
  it_value <$> items_after (parse_item k v sec) k' = if String.eqb k' k then Some v else it_value <$> items_after sec k'.
Proof.
  unfold parse_item. destruct (lp_section_find_item sec k) as [j|] eqn:E.
  - rewrite (with_item_find sec j k) by done. destruct (String.eqb_spec k' k) as [->|]; [|done].
    apply item_found in E as (item & _ & ->). done.
  - rewrite add_item_find by done. by destruct (String.eqb k' k).
Qed.

Lemma parse_comment_name line sec : sec_name (parse_comment line sec) = sec_name sec.
Proof. unfold parse_comment. by destruct (lp_section_find_comment _ _). Qed.

(** Removing a comment and adding one leaves the items. *)
Lemma delete_comment_find sec j value k :
  lp_section_find_comment sec value = Some j -> items_after (lp_section_remove_item sec j) k = items_after sec k.
Proof.
  unfold lp_section_find_comment, items_after. cbn. revert j.
  induction (sec_items sec) as [|item l IH]; intros j; cbn; [done|].
  destruct (it_is_comment item) eqn:Ec; cbn.
  - destruct (String.eqb (it_value item) value); [intros [= <-]; cbn; unfold is_item at 2; by rewrite Ec|].
    destruct (find_idx _ l) as [i|]; intros [= <-]. cbn. destruct (is_item k item); [done|]. by apply IH.
  - destruct (find_idx _ l) as [i|]; intros [= <-]. cbn. destruct (is_item k item); [done|]. by apply IH.
Qed.

Lemma add_comment_find sec comment k :
  it_is_comment comment = true -> items_after (lp_section_add_item sec comment) k = items_after sec k.
Proof.
  intros Hc. unfold items_after. cbn. rewrite find_snoc. unfold is_item at 2. rewrite Hc. by destruct (List.find _ _).
Qed.

Lemma parse_comment_find line sec k : items_after (parse_comment line sec) k = items_after sec k.
Proof.
  unfold parse_comment. rewrite add_comment_find by done.
  destruct (lp_section_find_comment _ _) as [j|] eqn:E; [|done]. by eapply delete_comment_find.
Qed.

Lemma parse_comment_wf line sec : section_wf sec -> section_wf (parse_comment line sec).
Proof.
  intros W. unfold parse_comment. apply add_item_wf; [done|].
  destruct (lp_section_find_comment _ _); [by apply remove_item_wf|done].
Qed.

Lemma current_name_alter c i f cur :
  (forall sec, sec_name (f sec) = sec_name sec) -> current_name (with_section c i f) cur = current_name c cur.
Proof.
  intros Hf. destruct cur as [j|]; [|done]. cbn. destruct (decide (i = j)) as [<-|Hn].
  - rewrite list_lookup_alter_eq. destruct (lp_sections c !! i); cbn; [|done]. by rewrite Hf.
  - by rewrite list_lookup_alter_ne.
Qed.

Lemma current_ok_alter c i f cur : current_ok c cur -> current_ok (with_section c i f) cur.
Proof.
  intros H j ->. destruct (H j eq_refl) as [sec Hj]. cbn. destruct (decide (i = j)) as [<-|Hn].
  - rewrite list_lookup_alter_eq, Hj. by exists (f sec).
  - rewrite list_lookup_alter_ne by done. by exists sec.
Qed.

(** What writing in the current section does, for a change [f] of a section that
    does [g] to the value of each key. *)
Lemma in_current_spec c cur f (g : string -> option string -> option string) :
  config_wf c -> current_ok c cur ->
  (forall sec, sec_name (f sec) = sec_name sec) -> (forall sec, section_wf sec -> section_wf (f sec)) ->
  (forall sec k, it_value <$> items_after (f sec) k = g k (it_value <$> items_after sec k)) ->
  config_wf (in_current c cur f) /\ current_ok (in_current c cur f) cur /\
  current_name (in_current c cur f) cur = current_name c cur /\
  forall s k, value_of (in_current c cur f) s k =
    if bool_decide (current_name c cur = Some s) then g k (value_of c s k) else value_of c s k.
Proof.
  intros W O Hn Hw Hg. destruct cur as [i|]; [|by split_and!].
  destruct (O i eq_refl) as [sec Hi]. cbn [in_current].
  split_and!; [|by apply current_ok_alter|by apply current_name_alter|].
  - rewrite (with_section_if c (sec_name sec) i f) by by apply section_at_index. by apply if_section_wf.
  - intros s k. cbn [current_name mbind option_bind]. rewrite Hi. cbn [fmap option_fmap option_map].
    rewrite (with_section_if c (sec_name sec) i f) by by apply section_at_index.
    rewrite !value_of_find, if_section_find by done. rewrite (String.eqb_sym s).
    destruct (String.eqb_spec (sec_name sec) s) as [<-|Hne].
    + rewrite bool_decide_eq_true_2 by done. rewrite (section_at_find c i sec W Hi). cbn. apply Hg.
    + by rewrite bool_decide_eq_false_2 by congruence.
Qed.

Lemma current_name_add c sec : current_name (linphone_config_add_section c sec) (Some (length (lp_sections c))) = Some (sec_name sec).
Proof. cbn. by rewrite list_lookup_middle. Qed.

(** Starting a section: the current one is that of the name, the entries are
    the same. *)
Lemma parse_section_line_spec c inside after cur c' cur' :
  config_wf c -> current_ok c cur -> parse_section_line c inside after cur = Done (c', cur') ->
  config_wf c' /\ current_ok c' cur' /\
  (forall s k, value_of c' s k = value_of c s k) /\
  current_name c' cur' = match scan_str inside with Some (name, _) => Some name | None => current_name c cur end.
Proof.
  intros W O. unfold parse_section_line. destruct (scan_str inside) as [[name r]|]; [|by intros [= <- <-]].
  set (opened := match linphone_config_find_section c name with Some i => (c, i) | None => _ end).
  assert (config_wf (fst opened) /\ (exists sec, lp_sections (fst opened) !! snd opened = Some sec /\ sec_name sec = name) /\
    (forall s k, value_of (fst opened) s k = value_of c s k)) as (W1 & (sec & Hi & Hname) & V1).
  { unfold opened. destruct (linphone_config_find_section c name) as [i|] eqn:E; cbn [fst snd].
    - split_and!; [done| |done]. apply find_section_idx in E as (sec & Hi & _ & Hn). by exists sec.
    - split_and!; [by apply add_section_wf; [done|by intros [|i] [|j] ? ? ? ?| ]| |].
      + exists (lp_section_new name). cbn. by rewrite list_lookup_middle.
      + intros s k. rewrite !value_of_find, find_section_add. cbn.
        destruct (find_section c s) as [sec|]; [done|]. by destruct (String.eqb name s). }
  destruct opened as [c1 i]. cbn [fst snd] in *.
  assert (current_ok c1 (Some i) /\ current_name c1 (Some i) = Some name) as [O1 N1].
  { split; [intros j [= <-]; by exists sec|]. cbn. rewrite Hi. cbn. by rewrite Hname. }
  destruct (String.length name <? String.length inside)%nat; [|by intros [= <- <-]].
  destruct (advance _ _) as [mem|]; [|done]. rewrite Hi.
  destruct (parse_section_params _ sec mem) as [sec'| |] eqn:E; [|done..]. intros [= <- <-].
  apply parse_section_params_frame in E as (params & ->).
  set (f := fun s : LpSection => s <| sec_params := sec_params s ++ params |>).
  assert (with_section c1 i (fun _ => sec <| sec_params := sec_params sec ++ params |>) = with_section c1 i f) as ->.
  { unfold with_section. cbn. f_equal. apply list_eq. intros j. destruct (decide (i = j)) as [<-|].
    - by rewrite !list_lookup_alter_eq, Hi.
    - by rewrite !list_lookup_alter_ne. }
  destruct (in_current_spec c1 (Some i) f (fun _ v => v) W1 O1) as (W2 & O2 & N2 & V2); [done..|].
  cbn [in_current] in *. split_and!; [done|done| |by rewrite N2].
  intros s k. rewrite V2, V1. by case_bool_decide.
Qed.

(** One line does what the reference reader does with it. *)
Lemma parse_line_spec c line cur c' cur' :
  config_wf c -> current_ok c cur -> linphone_config_parse_line c line cur = Done (c', cur') ->
  config_wf c' /\ current_ok c' cur' /\
  (entries c', current_name c' cur') = spec_line (entries c, current_name c cur) line.
Proof.
  intros W O. unfold linphone_config_parse_line, spec_line, meaning. fold (section_start line).
  destruct (section_start line) as [after|].
  - destruct (split_at "]" after) as [[inside rest]|]; [|by intros [= <- <-]]. intros H.
    apply parse_section_line_spec in H as (W' & O' & V' & N'); [|done..]. split_and!; [done..|].
    assert (entries c' = entries c) as ->.
    { apply map_eq. intros [s k]. by rewrite !entries_lookup. }
    rewrite N'. by destruct (scan_str inside) as [[]|].
  - destruct (is_a_comment line).
    + intros [= <- <-]. destruct (in_current_spec c cur (parse_comment line) (fun _ v => v) W O)
        as (W' & O' & N' & V'); [apply parse_comment_name|apply parse_comment_wf|intros; by rewrite parse_comment_find|].
      split_and!; [done..|]. f_equal; [|done]. apply map_eq. intros [s k]. rewrite !entries_lookup, V' by done.
      by case_bool_decide.
    + unfold entry_of_line. destruct (split_at "=" line) as [[before after]|]; [|by intros [= <- <-]].
      destruct (scan_str before) as [[key r]|]; [|by intros [= <- <-]]. cbv zeta.
      destruct (str_empty _); [by intros [= <- <-]|]. intros [= <- <-]. set (v := strip_end _).
      destruct (in_current_spec c cur (parse_item key v) (fun k x => if String.eqb k key then Some v else x) W O)
        as (W' & O' & N' & V'); [apply parse_item_name|apply parse_item_wf|intros; apply parse_item_find|].
      split_and!; [done..|]. f_equal; [|done]. apply map_eq. intros [s k]. rewrite entries_lookup, V' by done.
      destruct (current_name c cur) as [name|].
      * destruct (decide ((name, key) = (s, k))) as [[= -> ->]|Hne].
        -- rewrite lookup_insert_eq, bool_decide_eq_true_2, String.eqb_refl by done. done.
        -- rewrite lookup_insert_ne by done. case_bool_decide as Hs; [|by rewrite entries_lookup].
           injection Hs as ->. rewrite (proj2 (String.eqb_neq k key)) by congruence. by rewrite entries_lookup.
      * rewrite bool_decide_eq_false_2 by done. by rewrite entries_lookup.
Qed.

Lemma parse_lines_spec lines c cur c' cur' :
  config_wf c -> current_ok c cur ->
  ofold (fun '(c, cur) line => linphone_config_parse_line c line cur) (c, cur) lines = Done (c', cur') ->
  config_wf c' /\ (entries c', current_name c' cur') = fold_left spec_line lines (entries c, current_name c cur).
Proof.
  revert c cur. induction lines as [|line lines IH]; intros c cur W O; cbn [ofold fold_left].
  - by intros [= <- <-].
  - destruct (linphone_config_parse_line c line cur) as [[c1 cur1]| |] eqn:E; cbn [obind]; [|done..].
    apply parse_line_spec in E as (W1 & O1 & <-); [|done..]. by apply IH.
Qed.

(** ** Which lines are read *)

(** Nothing is assigned after the closing bracket of a section line. *)
Definition readable_line (line : string) : Prop :=
  forall after inside rest, section_start line = Some after -> split_at "]" after = Some (inside, rest) ->
  lacks "=" rest /\ lacks NUL inside.

Lemma parse_line_done c line cur :
  config_wf c -> readable_line line -> exists r, linphone_config_parse_line c line cur = Done r.
Proof.
  intros W R. unfold linphone_config_parse_line. fold (section_start line). destruct (section_start line) as [after|] eqn:Es.
  2:{ destruct (is_a_comment line); [by eexists|]. destruct (split_at "=" line) as [[b a]|]; [|by eexists].
      destruct (scan_str b) as [[k r]|]; [|by eexists]. cbv zeta. destruct (str_empty _); by eexists. }
  destruct (split_at "]" after) as [[inside rest]|] eqn:Eb; [|by eexists].
  destruct (R after inside rest Es Eb) as [Hrest Hin]. unfold parse_section_line.
  destruct (scan_str inside) as [[name r]|] eqn:En; [|by eexists].
  set (opened := match linphone_config_find_section c name with Some i => (c, i) | None => _ end).
  assert (exists sec, lp_sections (fst opened) !! snd opened = Some sec) as [sec Hi].
  { unfold opened. destruct (linphone_config_find_section c name) as [i|] eqn:E; cbn.
    - apply find_section_idx in E as (sec & Hi & _). by exists sec.
    - exists (lp_section_new name). by rewrite list_lookup_middle. }
  destruct opened as [c1 i]. cbn [fst snd] in Hi.
  destruct (String.length name <? String.length inside)%nat eqn:El; [|by eexists]. apply Nat.ltb_lt in El.
  destruct (advance_some (String.length name + 1) inside) as [u Hu]; [lia|].
  apply advance_split in Hu as (pre & -> & Hpre). rewrite str_app_assoc, <- Hpre, advance_app, Hi.
  destruct (parse_section_params_done (S (String.length (u +:+ String NUL (rest +:+ String NUL EmptyString)))) sec
    (u +:+ String NUL (rest +:+ String NUL EmptyString))) as [sec' ->]; [|by eexists].
  left. exists u, (rest +:+ String NUL EmptyString). apply lacks_app in Hin as [_ Hin]. split_and!; [done..| |by destruct rest].
  apply lacks_app. by split.
Qed.

Lemma parse_lines_done lines c cur :
  config_wf c -> current_ok c cur -> Forall readable_line lines ->
  exists r, ofold (fun '(c, cur) line => linphone_config_parse_line c line cur) (c, cur) lines = Done r.
Proof.
  intros W O R. revert c cur W O. induction R as [|line lines Hl R IH]; intros c cur W O; [by eexists|].
  cbn [ofold]. destruct (parse_line_done c line cur W Hl) as [[c1 cur1] E]. rewrite E. cbn [obind].
  apply parse_line_spec in E as (W1 & O1 & _); [|done..]. by apply IH.
Qed.

(** C23. Parsing refines the reference reader: a configuration without duplicates
    that reads lines, none of which assigns anything after the bracket of a
    section, is always read, has no duplicates afterwards, and has the entries
    of the reference reader, where the last value given to a key wins. *)
Theorem parse_refines_reader c lines :
  config_wf c -> Forall readable_line lines ->
  exists c' cur', parse_lines c lines = Done (c', cur') /\ config_wf c' /\
    entries c' = fst (fold_left spec_line lines (entries c, None)).
Proof.
  intros W R. destruct (parse_lines_done lines c None W) as [[c' cur'] E]; [by intros|done|].
  exists c', cur'. split; [exact E|]. apply parse_lines_spec in E as [W' E]; [|done|by intros]. split; [done|].
  cbn [current_name mbind option_bind] in E. by rewrite <- E.
Qed.

(** Lines whose sections end the line are readable. *)
Definition readable_lineb (line : string) : bool :=
  match section_start line with
  | Some after =>
      match split_at "]" after with
      | Some (inside, rest) => negb (str_has "=" rest) && negb (str_has NUL inside)
      | None => true
      end
  | None => true
  end.

Lemma readable_lineb_spec line : readable_lineb line = true -> readable_line line.
Proof.
  unfold readable_lineb. intros H after inside rest Hs Hb. rewrite Hs, Hb in H.
  by apply andb_true_iff in H as [?%negb_true_iff ?%negb_true_iff].
Qed.

Lemma readable_lines lines : forallb readable_lineb lines = true -> Forall readable_line lines.
Proof.
  rewrite List.forallb_forall, List.Forall_forall. intros H x Hx. by apply readable_lineb_spec, H.
Qed.

Definition example_file : list string :=
  ["# a comment"; "[sip overwrite=true]"; "port=5060"; "host = example.org "; "[net]"; "mtu=1300"; "[sip]"; "port=5061"]%string.

Lemma parse_refines_reader_witness :
  Forall readable_line example_file /\
  exists c' cur', parse_lines LinphoneConfig_new example_file = Done (c', cur') /\ config_wf c' /\
    entries c' = fst (fold_left spec_line example_file (entries LinphoneConfig_new, None)).
Proof.
  assert (Forall readable_line example_file) as R by (apply readable_lines; vm_compute; reflexivity).
  split; [exact R|]. exact (parse_refines_reader LinphoneConfig_new example_file new_wf R).
Defined.

Example example_file_port :
  (let* (c, _) := parse_lines LinphoneConfig_new example_file in Done (value_of c "sip" "port", value_of c "sip" "host")) =
  Done (Some "5061", Some " example.org")%string.
Proof. vm_compute. reflexivity. Qed.

(** A section line that assigns a key right after its bracket takes the
    parser past the end of the line, whatever the words are: the search for the
    next parameter reads outside of the text it was given. *)
Theorem assignment_after_bracket_overruns c cur name key value k v :
  param_word name -> param_word key -> param_word value -> param_word k -> param_word v ->
  linphone_config_parse_line c ("[" +:+ (name +:+ " " +:+ key +:+ "=" +:+ value) +:+ "]" +:+ (k +:+ "=" +:+ v)) cur = Undefined.
Proof.
  intros Hn Hkey Hval Hk Hv. rewrite parse_line_section.
  2:{ rewrite !lacks_app. split_and!; by (apply Hn || apply Hkey || apply Hval || done). }
  destruct (parse_section_line_params c name (key +:+ "=" +:+ value) (k +:+ "=" +:+ v) cur Hn) as (c1 & i & sec & _ & ->).
  rewrite !str_app_assoc. rewrite parse_one_param by by (done || left).
  assert (exists n, String.length (key +:+ "=" +:+ value +:+ String NUL (k +:+ "=" +:+ v +:+ String NUL EmptyString)) = S (S n))
    as [n ->].
  { rewrite !str_length_app. cbn. exists (String.length key + String.length value +
      String.length (k +:+ String "=" (v +:+ String NUL EmptyString)))%nat. rewrite str_length_app. cbn. lia. }
  by rewrite parse_one_param by by (done || left).
Qed.

Definition is_param_word (s : string) : bool :=
  negb (str_empty s) && str_all (fun c => negb (is_space c)) s && negb (str_has NUL s) && negb (str_has "=" s) &&
  negb (str_has "]" s).

Lemma is_param_word_spec s : is_param_word s = true -> param_word s.
Proof.
  unfold is_param_word. rewrite !andb_true_iff, !negb_true_iff. intros ((((H1 & H2) & H3) & H4) & H5).
  split; [split; [by apply str_empty_false|done]|done..].
Qed.

Lemma assignment_after_bracket_overruns_witness :
  linphone_config_parse_line LinphoneConfig_new "[sip a=b]c=d" None = Undefined.
Proof.
  apply (assignment_after_bracket_overruns LinphoneConfig_new None "sip" "a" "b" "c" "d");
    apply is_param_word_spec; vm_compute; reflexivity.
Defined.
