(* ===== verification/LpConfigRoundtrip.v ===== *)
(** A configuration that is written to a file and read again is the same, and a
    save that is cut by a crash leaves the configuration as it was before or as
    it should be after. *)
From S2P Require Import Prelude Sscanf LpConfig LpConfigValues LpConfigFile LpConfigSpec LpConfigParse.

(** ** What can be written and read back *)

(** A text of one line. *)
Definition one_line (s : string) : Prop := lacks CR s /\ lacks LF s.

(** A key that starts neither a section nor a comment. *)
Record key_word (s : string) : Prop := {
  key_token : is_token s;
  key_no_eq : lacks "=" s;
  key_head : head_is (fun c => Ascii.eqb c "[" || Ascii.eqb c "#") s = false;
  key_line : one_line s;
}.

(** An item with a value that does not end with a space, or a comment. *)
Definition writable_item (item : LpItem) : Prop :=
  if it_is_comment item then it_key item = EmptyString /\ is_a_comment (it_value item) = true /\ one_line (it_value item)
  else key_word (it_key item) /\ it_value item <> EmptyString /\ strip_end (it_value item) = it_value item /\
       one_line (it_value item).

Definition is_comment_of (value : string) (item : LpItem) : bool :=
  it_is_comment item && String.eqb (it_value item) value.

Record writable_section (sec : LpSection) : Prop := {
  ws_name : param_word (sec_name sec) /\ one_line (sec_name sec);
  ws_params : Forall (fun p => param_word (sp_key p) /\ param_word (sp_value p) /\
                               one_line (sp_key p) /\ one_line (sp_value p)) (sec_params sec);
  ws_items : Forall writable_item (sec_items sec);
  ws_comments : keys_distinct is_comment_of (sec_items sec);
}.

Record writable (c : LpConfig) : Prop := {
  wr_sections : Forall writable_section (lp_sections c);
  wr_wf : config_wf c;
}.

(** What the file keeps of an item and of a section: everything but the flags. *)
Definition kept_item (item : LpItem) : LpItem := item <| it_overwrite := false |> <| it_skip := false |>.
Definition kept_section (sec : LpSection) : LpSection :=
  mkLpSection (sec_name sec) (map kept_item (sec_items sec)) (sec_params sec) false false.
Definition kept_sections (c : LpConfig) : list LpSection := map kept_section (lp_sections c).

(** ** The lines of the file *)

Fixpoint text_of (texts : list string) : string :=
  match texts with
  | [] => EmptyString
  | t :: ts => t +:+ text_of ts
  end.

Lemma text_of_app l l' : text_of (l ++ l') = text_of l +:+ text_of l'.
Proof. induction l as [|t l IH]; [done|]. cbn. by rewrite IH, str_app_assoc. Qed.

Definition param_text (p : LpSectionParam) : string := sp_key p +:+ "=" +:+ sp_value p.
Definition section_inside (sec : LpSection) : string :=
  sec_name sec +:+ text_of (map (fun p => " " +:+ param_text p) (sec_params sec)).
Definition section_line (sec : LpSection) : string := "[" +:+ section_inside sec +:+ "]".
Definition item_line (item : LpItem) : string :=
  if it_is_comment item then it_value item else it_key item +:+ "=" +:+ it_value item.
Definition section_lines (sec : LpSection) : list string :=
  section_line sec :: map item_line (sec_items sec) ++ [EmptyString].
Definition config_lines (c : LpConfig) : list string := concat (map section_lines (lp_sections c)).

(** A text in lines, each of them ended by a line feed. *)
Definition lines_text (lines : list string) : string := text_of (map (fun l => l +:+ NL) lines).

Lemma lines_text_app l l' : lines_text (l ++ l') = lines_text l +:+ lines_text l'.
Proof. unfold lines_text. by rewrite map_app, text_of_app. Qed.

Lemma item_write_line item : writable_item item -> text_of (lp_item_write item) = item_line item +:+ NL.
Proof.
  unfold writable_item, lp_item_write, item_line. destruct (it_is_comment item); [intros _; apply str_app_nil|].
  intros (_ & Hv & _). rewrite (proj2 (str_empty_false _)) by done. cbn [text_of].
  by rewrite str_app_nil, !str_app_assoc.
Qed.

Lemma items_write_lines items :
  Forall writable_item items -> text_of (concat (map lp_item_write items)) = lines_text (map item_line items).
Proof.
  induction 1 as [|item items Hi H IH]; [done|]. cbn [map concat]. rewrite text_of_app, IH, item_write_line by done. done.
Qed.

Lemma params_write params :
  Forall (fun p => param_word (sp_key p) /\ param_word (sp_value p) /\ one_line (sp_key p) /\ one_line (sp_value p)) params ->
  text_of (concat (map lp_section_param_write params)) = text_of (map (fun p => " " +:+ param_text p) params).
Proof.
  induction 1 as [|p params (_ & Hv & _) H IH]; [done|]. cbn [map concat]. rewrite text_of_app, IH.
  unfold lp_section_param_write. rewrite (proj2 (str_empty_false _)) by apply Hv. cbn [text_of].
  by rewrite str_app_nil.
Qed.

Lemma section_write_lines sec : writable_section sec -> text_of (lp_section_write sec) = lines_text (section_lines sec).
Proof.
  intros [_ Hp Hi _]. unfold lp_section_write, section_lines. rewrite !text_of_app, params_write, items_write_lines by done.
  change (section_line sec :: map item_line (sec_items sec) ++ [EmptyString])
    with ([section_line sec] ++ map item_line (sec_items sec) ++ [EmptyString]).
  rewrite !lines_text_app. unfold section_line, section_inside, lines_text. cbn [map text_of].
  by rewrite !str_app_nil, !str_app_assoc.
Qed.

Lemma config_write_lines c : Forall writable_section (lp_sections c) -> text_of (config_write c) = lines_text (config_lines c).
Proof.
  unfold config_write, config_lines. induction 1 as [|sec l Hs H IH]; [done|]. cbn [map concat].
  by rewrite text_of_app, lines_text_app, IH, section_write_lines.
Qed.

(** ** Reading one line back

    A line is read with or without its line feed. *)
Definition line_end (eol : string) : Prop := eol = EmptyString \/ eol = NL.

Lemma split_at_app_line c s eol : line_end eol -> c <> LF -> split_at c s = None -> split_at c (s +:+ eol) = None.
Proof.
  intros He Hc. induction s as [|d s IH]; cbn.
  - intros _. destruct He as [-> | ->]; [done|]. by apply split_at_none, lacks_cons.
  - destruct (Ascii.eqb d c); [done|]. destruct (split_at c s) as [[? ?]|]; [done|]. by intros _; rewrite IH.
Qed.

Lemma cut_line_end s eol : line_end eol -> one_line s -> cut_line (s +:+ eol) = s.
Proof.
  intros He [Hcr Hlf]. unfold cut_line.
  assert (str_has CR (s +:+ eol) = false) as -> by by rewrite str_has_app, Hcr; destruct He as [-> | ->].
  unfold cut_at. rewrite str_span_all; [done| |by destruct He as [-> | ->]].
  revert Hlf. clear. induction s as [|d s IH]; [done|]. intros [Hd Hs]%lacks_cons. cbn.
  rewrite (proj2 (Ascii.eqb_neq d LF)) by done. by apply IH.
Qed.

Lemma section_start_blank c s : c <> "["%char -> c <> " "%char -> section_start (String c s) = None.
Proof.
  intros H1 H2. unfold section_start. cbn. rewrite (proj2 (Ascii.eqb_neq _ _)) by done.
  destruct (split_at "[" s) as [[a b]|]; [|done]. unfold is_first_char. cbn.
  by rewrite (proj2 (Ascii.eqb_neq _ _)) by done.
Qed.

(** A blank line. *)
Lemma parse_blank c eol cur : line_end eol -> linphone_config_parse_line c eol cur = Done (c, cur).
Proof. by intros [-> | ->]. Qed.

(** The first character that is not a space decides. *)
Lemma comment_not_section s : is_a_comment s = true -> section_start s = None.
Proof.
  unfold is_a_comment, section_start. intros H.
  destruct (str_span (fun c => Ascii.eqb c " ") s) as [a b] eqn:E. cbn in H.
  pose proof (str_span_app _ _ _ _ E) as ->. apply str_span_prefix in E.
  destruct b as [|d b]; [done|]. apply Ascii.eqb_eq in H as ->.
  destruct (split_at "[" _) as [[x y]|] eqn:Es; [|done]. apply split_at_some in Es as [Es _].
  assert (is_first_char x = false) as ->; [|done]. revert x Es E. clear.
  induction a as [|e a IH]; intros x Es E.
  - destruct x as [|f x]; [done|]. injection Es as <- _. done.
  - destruct x as [|f x]; [injection Es as -> _; done|]. injection Es as <- Es. cbn in E.
    apply andb_true_iff in E as [_ E]. unfold is_first_char in *. cbn. rewrite (IH x Es E). by rewrite andb_false_r.
Qed.

Lemma is_a_comment_app s t : is_a_comment s = true -> is_a_comment (s +:+ t) = true.
Proof.
  unfold is_a_comment. induction s as [|d s IH]; [done|]. cbn. destruct (Ascii.eqb d " ") eqn:E; [|done].
  destruct (str_span _ s), (str_span _ (s +:+ t)). cbn in *. exact IH.
Qed.

Lemma parse_comment_line c item eol cur :
  it_is_comment item = true -> writable_item item -> line_end eol ->
  linphone_config_parse_line c (item_line item +:+ eol) cur =
  Done (in_current c cur (fun sec => lp_section_add_item
    (match lp_section_find_comment sec (it_value item) with
     | Some i => lp_section_remove_item sec i
     | None => sec
     end) (kept_item item)), cur).
Proof.
  intros Hc W He. unfold writable_item, item_line in *. rewrite Hc in *. destruct W as (Hk & Hv & Hl).
  unfold linphone_config_parse_line. fold (section_start (it_value item +:+ eol)).
  pose proof (is_a_comment_app _ eol Hv) as Hv'. rewrite (comment_not_section _ Hv'), Hv'.
  unfold parse_comment, lp_comment_new. rewrite cut_line_end by done. cbn [it_value].
  repeat f_equal. destruct item as [k v co o sk]. cbn in *. by subst.
Qed.

Lemma key_word_start k t : key_word k -> section_start (k +:+ t) = None /\ is_a_comment (k +:+ t) = false.
Proof.
  intros [[Hne Hs] _ Hh _]. destruct k as [|d k]; [done|]. cbn in Hh, Hs.
  apply orb_false_iff in Hh as [H1 H2]. apply andb_true_iff in Hs as [Hd _].
  assert (d <> " "%char) as Hsp by (intros ->; done). apply Ascii.eqb_neq in H1 as Hb.
  split; [by apply section_start_blank|]. unfold is_a_comment. cbn. by rewrite (proj2 (Ascii.eqb_neq d " ")) by done.
Qed.

Lemma parse_item_line c item eol cur :
  it_is_comment item = false -> writable_item item -> line_end eol ->
  linphone_config_parse_line c (item_line item +:+ eol) cur =
  Done (in_current c cur (parse_item (it_key item) (it_value item)), cur).
Proof.
  intros Hc W He. unfold writable_item, item_line in *. rewrite Hc in *. destruct W as (Hk & Hne & Hv & Hl).
  rewrite !str_app_assoc. unfold linphone_config_parse_line.
  set (line := it_key item +:+ "=" +:+ it_value item +:+ eol). fold (section_start line).
  destruct (key_word_start _ ("=" +:+ it_value item +:+ eol) Hk) as [Hs Hcm]. fold line in Hs, Hcm. rewrite Hs, Hcm.
  unfold line. change ("=" +:+ it_value item +:+ eol) with (String "=" (it_value item +:+ eol)).
  rewrite split_at_app by apply Hk. rewrite <- (str_app_nil (it_key item)) at 1.
  rewrite scan_str_token by by (apply Hk || done). cbv zeta. rewrite cut_line_end, Hv by done.
  by rewrite (proj2 (str_empty_false _)) by done.
Qed.

(** ** Reading one section back *)

Lemma alter_last {A} (f : A -> A) l x : alter f (length l) (l ++ [x]) = l ++ [f x].
Proof. induction l as [|y l IH]; [done|]. cbn. f_equal. exact IH. Qed.

Lemma param_fields p : mkLpSectionParam (sp_key p) (sp_value p) = p.
Proof. by destruct p. Qed.

Lemma parse_written_params ps p fuel cur t :
  Forall (fun p => param_word (sp_key p) /\ param_word (sp_value p)) (p :: ps) ->
  lacks "=" t -> t <> EmptyString -> (S (length ps) < fuel)%nat ->
  parse_section_params fuel cur
    (param_text p +:+ text_of (map (fun p => " " +:+ param_text p) ps) +:+ String NUL t) =
  Done (cur <| sec_params := sec_params cur ++ p :: ps |>).
Proof.
  intros H Ht Hne. revert p fuel cur H. induction ps as [|q ps IH]; intros p fuel cur H Hf;
    apply Forall_cons in H as [[Hk Hv] H]; (destruct fuel as [|fuel]; [cbn in Hf; lia|]); unfold param_text at 1;
    rewrite !str_app_assoc; cbn [map text_of].
  - change (EmptyString +:+ String NUL t) with (String NUL t).
    rewrite parse_one_param by by (done || left). destruct fuel as [|fuel]; [cbn in Hf; lia|].
    cbn [parse_section_params]. rewrite (proj2 (str_empty_false t)) by done.
    rewrite split_at_none by by apply lacks_span. unfold linphone_config_add_section_param, lp_section_param_new.
    by rewrite param_fields.
  - change ((" " +:+ param_text q) +:+ text_of (map (fun p => " " +:+ param_text p) ps))
      with (String " " (param_text q +:+ text_of (map (fun p => " " +:+ param_text p) ps))).
    change (String " " ?s +:+ ?u) with (String " " (s +:+ u)). rewrite parse_one_param by by (done || right).
    rewrite str_app_assoc, IH by (done || (cbn in Hf; lia)). f_equal.
    unfold linphone_config_add_section_param, lp_section_param_new. rewrite param_fields. cbn. f_equal.
    by rewrite <- app_assoc.
Qed.

Lemma lacks_text_of c ts : Forall (lacks c) ts -> lacks c (text_of ts).
Proof. induction 1; [done|]. cbn. by apply lacks_app. Qed.

Lemma section_inside_lacks sec : writable_section sec -> lacks "]" (section_inside sec) /\ one_line (section_inside sec).
Proof.
  intros [[Hn Hl] Hp _ _]. unfold section_inside, one_line. rewrite !lacks_app.
  assert (forall c, Forall (fun p => lacks c (sp_key p) /\ lacks c (sp_value p)) (sec_params sec) -> c <> " "%char ->
    c <> "="%char -> lacks c (text_of (map (fun p => " " +:+ param_text p) (sec_params sec)))) as Hps.
  { intros c Hc Hsp Heq. apply lacks_text_of, Forall_map. eapply Forall_impl; [exact Hc|]. intros p [Hk Hv].
    unfold param_text. cbn. apply lacks_cons. split; [done|]. apply lacks_app. split; [done|]. by apply lacks_cons. }
  split_and!; try apply Hps; try done; try apply Hn; try apply Hl;
    (eapply Forall_impl; [exact Hp|]); intros p (Hk & Hv & Hkl & Hvl); cbn beta; split;
    apply Hk || apply Hv || apply Hkl || apply Hvl.
Qed.

Lemma params_length ps : (length ps <= String.length (text_of (map (fun p => " " +:+ param_text p) ps)))%nat.
Proof. induction ps as [|q ps IH]; [done|]. cbn [map text_of length]. rewrite !str_length_app. cbn [String.length]. lia. Qed.

Lemma parse_written_section_line c sec eol cur :
  writable_section sec -> linphone_config_find_section c (sec_name sec) = None -> line_end eol ->
  linphone_config_parse_line c (section_line sec +:+ eol) cur =
  Done (linphone_config_add_section c (mkLpSection (sec_name sec) [] (sec_params sec) false false),
        Some (length (lp_sections c))).
Proof.
  intros W Hf He. destruct (section_inside_lacks sec W) as [Hin _]. destruct W as [[Hn _] Hp _ _].
  unfold section_line. rewrite !str_app_assoc, parse_line_section by done. unfold parse_section_line, section_inside.
  set (tail := text_of (map (fun p => " " +:+ param_text p) (sec_params sec))).
  rewrite scan_str_token; [|apply Hn|unfold tail; by destruct (sec_params sec)]. rewrite Hf.
  assert (forall params, with_section (linphone_config_add_section c (lp_section_new (sec_name sec))) (length (lp_sections c))
    (fun _ => mkLpSection (sec_name sec) [] params false false) =
    linphone_config_add_section c (mkLpSection (sec_name sec) [] params false false)) as Hadd.
  { intros params. unfold with_section, linphone_config_add_section. cbn. f_equal.
    by rewrite alter_last. }
  unfold tail. clear tail. destruct (sec_params sec) as [|p ps].
  { cbn [map text_of]. rewrite str_app_nil, Nat.ltb_irrefl. done. }
  cbn [map text_of].
  change ((" " +:+ param_text p) +:+ text_of (map (fun p => " " +:+ param_text p) ps))
    with (" " +:+ (param_text p +:+ text_of (map (fun p => " " +:+ param_text p) ps))).
  set (inside := param_text p +:+ text_of (map (fun p => " " +:+ param_text p) ps)).
  replace (String.length (sec_name sec) <? String.length (sec_name sec +:+ " " +:+ inside))%nat with true.
  2:{ symmetry. apply Nat.ltb_lt. rewrite str_length_app. cbn. lia. }
  replace ((sec_name sec +:+ " " +:+ inside) +:+ String NUL (eol +:+ String NUL EmptyString))
    with ((sec_name sec +:+ " ") +:+ inside +:+ String NUL (eol +:+ String NUL EmptyString)) by by rewrite !str_app_assoc.
  replace (String.length (sec_name sec) + 1)%nat with (String.length (sec_name sec +:+ " ")) by by rewrite str_length_app.
  rewrite advance_app. change (lp_sections (linphone_config_add_section c ?s)) with (lp_sections c ++ [s]).
  rewrite list_lookup_middle by done. unfold inside. rewrite str_app_assoc.
  rewrite parse_written_params; [cbn [obind]; by rewrite <- (Hadd (p :: ps))| | | |].
  - eapply Forall_impl; [exact Hp|]. intros q (? & ? & _). done.
  - destruct He as [-> | ->]; done.
  - by destruct eol.
  - pose proof (params_length ps) as Hps. revert Hps. generalize (text_of (map (fun p => " " +:+ param_text p) ps)).
    intros x Hx. unfold param_text. rewrite !str_length_app. cbn. lia.
Qed.

(** The items of the section, read one after the other. *)
Lemma in_current_last c done sec f :
  lp_sections c = done ++ [sec] ->
  in_current c (Some (length done)) f = c <| lp_sections := done ++ [f sec] |>.
Proof.
  intros H. cbn. unfold with_section. rewrite H. by rewrite alter_last.
Qed.

(** Reading back the item that comes after the ones read so far. *)
Lemma read_item c done sec item eol :
  lp_sections c = done ++ [sec] -> writable_item item -> line_end eol ->
  lp_section_find_item sec (it_key item) = None \/ it_is_comment item = true ->
  lp_section_find_comment sec (it_value item) = None \/ it_is_comment item = false ->
  linphone_config_parse_line c (item_line item +:+ eol) (Some (length done)) =
  Done (c <| lp_sections := done ++ [sec <| sec_items := sec_items sec ++ [kept_item item] |>] |>, Some (length done)).
Proof.
  intros Hc W He Hi Hco. destruct (it_is_comment item) eqn:Ec.
  - rewrite parse_comment_line by done. erewrite in_current_last by done.
    destruct Hco as [Hco|]; [|done]. by rewrite Hco.
  - rewrite parse_item_line by done. erewrite in_current_last by done. destruct Hi as [Hi|]; [|done].
    unfold parse_item. rewrite Hi. unfold lp_section_add_item, lp_item_new, kept_item.
    destruct item as [k v co o sk]. cbn in *. by subst.
Qed.

Lemma keys_distinct_prefix {A} (p : string -> A -> bool) l x l' k :
  keys_distinct p (l ++ x :: l') -> p k x = true -> find_idx (p k) l = None.
Proof.
  intros D Hx. apply find_idx_None. intros y Hy. apply not_true_is_false. intros Hp.
  apply list_elem_of_In, list_elem_of_lookup in Hy as [i Hi]. pose proof (lookup_lt_Some _ _ _ Hi) as Hlt.
  pose proof (D i (length l) y x k) as E. rewrite lookup_app_l, list_lookup_middle in E by done.
  specialize (E Hi eq_refl Hp Hx). lia.
Qed.

Lemma kept_find_idx (q : LpItem -> bool) l :
  (forall item, q (kept_item item) = q item) -> find_idx q (map kept_item l) = find_idx q l.
Proof. intros H. induction l as [|x l IH]; [done|]. cbn. by rewrite H, IH. Qed.

(** The lines of the items of a section. *)
Lemma read_items items before c done name params lines :
  lp_sections c = done ++ [mkLpSection name (map kept_item before) params false false] ->
  Forall writable_item items -> keys_distinct is_item (before ++ items) -> keys_distinct is_comment_of (before ++ items) ->
  Forall2 (fun l r => exists eol, line_end eol /\ r = l +:+ eol) (map item_line items) lines ->
  ofold (fun '(c, cur) line => linphone_config_parse_line c line cur) (c, Some (length done)) lines =
  Done (c <| lp_sections := done ++ [mkLpSection name (map kept_item (before ++ items)) params false false] |>, Some (length done)).
Proof.
  intros Hc W. revert before c lines Hc. induction W as [|item items Hi W IH]; intros before c lines Hc Dk Dc Hl.
  - inversion Hl; subst. cbn. rewrite app_nil_r, <- Hc. by destruct c.
  - inversion Hl as [|? r ? lines' (eol & He & ->) Hl']; subst. cbn [ofold].
    erewrite read_item; [|exact Hc|done|done|..].
    + cbn [obind]. rewrite (cons_middle item) in Dk, Dc |- *. rewrite app_assoc in Dk, Dc |- *.
      rewrite (IH (before ++ [item])); [done| |done..]. cbn. by rewrite map_app.
    + destruct (it_is_comment item) eqn:Ec; [by right|left]. unfold lp_section_find_item. cbn [sec_items].
      rewrite kept_find_idx by done. apply (keys_distinct_prefix is_item _ _ _ _ Dk).
      unfold is_item. by rewrite Ec, String.eqb_refl.
    + destruct (it_is_comment item) eqn:Ec; [left|by right]. unfold lp_section_find_comment. cbn [sec_items].
      rewrite kept_find_idx by done. apply (keys_distinct_prefix is_comment_of _ _ _ _ Dc).
      unfold is_comment_of. by rewrite Ec, String.eqb_refl.
Qed.

Definition read_as (l r : string) : Prop := exists eol, line_end eol /\ r = l +:+ eol.

Lemma read_section c sec lines cur :
  writable_section sec -> section_wf sec -> linphone_config_find_section c (sec_name sec) = None ->
  Forall2 read_as (section_lines sec) lines ->
  ofold (fun '(c, cur) line => linphone_config_parse_line c line cur) (c, cur) lines =
  Done (c <| lp_sections := lp_sections c ++ [kept_section sec] |>, Some (length (lp_sections c))).
Proof.
  intros W D Hf H. unfold section_lines in H. inversion H as [|? r ? lines1 (eol & He & ->) H1]; subst.
  apply Forall2_app_inv_l in H1 as (litems & lblank & Hitems & Hblank & ->).
  inversion Hblank as [|? r ? lines2 (eol' & He' & ->) H2]; subst. inversion H2; subst.
  cbn [ofold]. rewrite parse_written_section_line by done. cbn [obind]. rewrite ofold_app.
  rewrite (read_items (sec_items sec) [] _ (lp_sections c) (sec_name sec) (sec_params sec) litems);
    [|done|apply W|exact D|apply W|done].
  cbn [obind ofold]. rewrite parse_blank by done. done.
Qed.

Lemma read_sections secs c lines cur :
  Forall writable_section secs -> Forall section_wf secs -> keys_distinct is_section (lp_sections c ++ map kept_section secs) ->
  Forall2 read_as (concat (map section_lines secs)) lines ->
  exists cur', ofold (fun '(c, cur) line => linphone_config_parse_line c line cur) (c, cur) lines =
    Done (c <| lp_sections := lp_sections c ++ map kept_section secs |>, cur').
Proof.
  intros W. revert c lines cur. induction W as [|sec secs Hs W IH]; intros c lines cur Hw D H.
  - inversion H; subst. exists cur. cbn. rewrite app_nil_r. by destruct c.
  - apply Forall_cons in Hw as [Hsw Hw]. cbn [map concat] in H.
    apply Forall2_app_inv_l in H as (l1 & l2 & H1 & H2 & ->). rewrite ofold_app.
    cbn [map] in D. assert (linphone_config_find_section c (sec_name sec) = None) as Hf.
    { apply (keys_distinct_prefix is_section _ _ _ _ D). apply String.eqb_refl. }
    rewrite (read_section c sec l1 cur) by done. cbn [obind].
    destruct (IH (c <| lp_sections := lp_sections c ++ [kept_section sec] |>) l2 (Some (length (lp_sections c))))
      as [cur' ->]; [done| |done|].
    + cbn. by rewrite <- app_assoc.
    + exists cur'. cbn. by rewrite <- app_assoc.
Qed.

(** The parser on the lines of a configuration. *)
Lemma parse_config_lines c c0 lines :
  writable c -> lp_sections c0 = [] -> Forall2 read_as (config_lines c) lines ->
  exists cur, parse_lines c0 lines = Done (c0 <| lp_sections := kept_sections c |>, cur).
Proof.
  intros [W [D Dw]] H0 H. unfold parse_lines.
  destruct (read_sections (lp_sections c) c0 lines None) as [cur Hc]; [done|done| |done|].
  - rewrite H0. cbn [app]. intros i j x y k Hi Hj Hx Hy. apply list_lookup_fmap_Some in Hi as (x' & -> & Hi).
    apply list_lookup_fmap_Some in Hj as (y' & -> & Hj). by apply (D i j x' y' k).
  - exists cur. rewrite Hc, H0. done.
Qed.

(** ** Files *)

Section Files.
Context {vfs : Vfs}.

(** A line that fits the buffer of the reader. *)
Definition short_line (l : string) : Prop := lacks LF l /\ (S (String.length l) < MAX_LEN)%nat.

(** What bctoolbox documents: a file of short lines is read line by line, with
    or without the line feeds. *)
Class VfsSpec := {
  nxtlines_spec : forall lines, Forall short_line lines -> Forall2 read_as lines (nxtlines (lines_text lines));
}.
Context {spec : VfsSpec}.

Definition short_lines (c : LpConfig) : Prop := Forall (fun l => (S (String.length l) < MAX_LEN)%nat) (config_lines c).

Lemma config_lines_no_lf c : Forall writable_section (lp_sections c) -> Forall (lacks LF) (config_lines c).
Proof.
  unfold config_lines. induction 1 as [|sec l Hs H IH]; cbn [map concat]; [done|]. apply Forall_app. split; [|done].
  destruct (section_inside_lacks sec Hs) as [_ [_ Hin]]. destruct Hs as [_ _ Hi _]. unfold section_lines. constructor.
  - unfold section_line. cbn. apply lacks_cons. split; [done|]. by apply lacks_app.
  - apply Forall_app. split; [|by repeat constructor]. apply Forall_map. eapply Forall_impl; [exact Hi|].
    intros item. unfold writable_item, item_line. destruct (it_is_comment item); [by intros (_ & _ & _ & ?)|].
    intros ([_ _ _ [_ Hk]] & _ & _ & [_ Hv]). apply lacks_app. split; [done|]. cbn. by apply lacks_cons.
Qed.

(** Parsing a file that holds a configuration. *)
Lemma parse_written c c0 :
  writable c -> short_lines c -> lp_sections c0 = [] ->
  linphone_config_parse c0 (text_of (config_write c)) = Done (c0 <| lp_sections := kept_sections c |>).
Proof.
  intros W S H0. unfold linphone_config_parse. rewrite config_write_lines by apply W.
  destruct (parse_config_lines c c0 (nxtlines (lines_text (config_lines c))) W H0) as [cur ->]; [|done].
  apply nxtlines_spec. apply Forall_and. split; [|exact S]. by apply config_lines_no_lf, W.
Qed.

(** ** Saving *)

Lemma write_states_ok env file n texts content disk :
  (forall i, writes env i = true) -> snd (write_states env file n texts content disk) = content +:+ text_of texts.
Proof.
  intros Hw. revert n content disk. induction texts as [|t texts IH]; intros n content disk; cbn; [by rewrite str_app_nil|].
  rewrite Hw. specialize (IH (S n) (content +:+ t) (<[file := content +:+ t]> disk)).
  destruct (write_states _ _ _ _ _ _) as [st fin]. cbn in *. by rewrite IH, str_app_assoc.
Qed.

Lemma write_states_failed env file n texts content disk :
  (forall i, writes env i = false) -> snd (write_states env file n texts content disk) = content.
Proof.
  intros Hw. revert n disk. induction texts as [|t texts IH]; intros n disk; cbn; [done|].
  rewrite Hw. specialize (IH (S n) (<[file := content]> disk)). by destruct (write_states _ _ _ _ _ _).
Qed.

Lemma write_states_other env file n texts content (disk : Disk) other d :
  file <> other -> In d (fst (write_states env file n texts content disk)) -> d !! other = disk !! other.
Proof.
  intros Hne. revert n content disk. induction texts as [|t texts IH]; intros n content disk; cbn; [done|].
  destruct (write_states _ _ _ _ _ _) as [st fin] eqn:E. cbn. intros [<-|Hin]; [by rewrite lookup_insert_ne|].
  specialize (IH (S n) (if writes env n then content +:+ t else content)
    (<[file := if writes env n then content +:+ t else content]> disk)).
  rewrite E in IH. cbn in IH. by rewrite IH, lookup_insert_ne.
Qed.

Lemma tmp_differs f : f +:+ ".tmp" <> f.
Proof. intros H. pose proof (f_equal String.length H) as L. rewrite str_length_app in L. cbn in L. lia. Qed.

(** Where a configuration is saved. *)
Record saved_as (c : LpConfig) (f : string) : Prop := {
  sa_filename : lp_filename c = Some f;
  sa_tmpfilename : lp_tmpfilename c = Some (f +:+ ".tmp");
}.

(** In every state of the disk during a save the file holds what it held before
    or the whole new text. *)
Lemma sync_states env c (disk : Disk) f d :
  saved_as c f -> (forall n, writes env n = true) ->
  In d (snd (linphone_config_sync env c disk)) ->
  d !! f = disk !! f \/ d !! f = Some (text_of (config_write c)).
Proof.
  intros [Hf Ht] Hw. unfold linphone_config_sync. rewrite Hf, Ht. pose proof (tmp_differs f) as Hne.
  destruct (lp_readonly c); cbn [snd]; [intros [<-|[]]; by left|].
  destruct (opens env); cbn [snd]; [|intros [<-|[]]; by left].
  destruct (lp_abort_sync c); cbn [snd].
  { intros [<-|[<-|[]]]; left; [done|by rewrite lookup_insert_ne]. }
  pose proof (write_states_ok env (f +:+ ".tmp") 0 (config_write c) EmptyString (<[f +:+ ".tmp" := EmptyString]> disk) Hw) as Hc.
  pose proof (write_states_other env (f +:+ ".tmp") 0 (config_write c) EmptyString (<[f +:+ ".tmp" := EmptyString]> disk) f d Hne) as Ho.
  destruct (write_states _ _ _ _ _ _) as [st fin]. cbn in Hc, Ho. subst fin. cbn [snd].
  rewrite !in_app_iff. intros [[<-|[<-|[]]]|[Hin|Hin]]; [by left|left; by rewrite lookup_insert_ne| |].
  - left. rewrite Ho by done. by rewrite lookup_insert_ne.
  - destruct (renames env); [|done]. destruct Hin as [<-|[]]. right. by rewrite lookup_insert_eq.
Qed.

(** Loading a file that holds a configuration: nothing else is read. *)
Lemma load_written c (disk : Disk) f :
  writable c -> short_lines c -> f <> EmptyString -> can_update f = true -> lp_realpath disk f = Some f ->
  disk !! f = Some (text_of (config_write c)) ->
  exists c', linphone_config_new false disk (Some f) = Done (Some c') /\ saved_as c' f /\ lp_sections c' = kept_sections c.
Proof.
  intros W S Hne Hu Hr Hd. unfold linphone_config_new, linphone_config_new_with_factory, _linphone_config_init_from_files.
  cbn [non_empty]. rewrite (proj2 (str_empty_false f)) by done.
  assert (bctbx_file_exist disk f = true) as He by (apply bool_decide_eq_true_2; by rewrite Hd). rewrite !He, Hr. cbv zeta. unfold file_to_parse, open_with at 1.
  rewrite Hu, Hd. rewrite parse_written by done. cbn. eexists. split; [reflexivity|]. by split.
Qed.

(** C21. A configuration that is saved and loaded again is the same: after a save
    that opened, wrote and renamed its file, loading the file gives the same
    sections, names, parameters, items and comments, in the same order; only
    the flags of sections and items are not kept. *)
Theorem configuration_roundtrip env c disk f :
  writable c -> short_lines c -> saved_as c f -> f <> EmptyString -> lp_readonly c = false -> lp_abort_sync c = false ->
  opens env = true -> (forall n, writes env n = true) -> renames env = true ->
  can_update f = true -> (forall d, is_Some (d !! f) -> lp_realpath d f = Some f) ->
  exists d c',
    last (snd (linphone_config_sync env c disk)) = Some d /\
    fst (fst (linphone_config_sync env c disk)) = 0 /\
    linphone_config_new false d (Some f) = Done (Some c') /\ saved_as c' f /\ lp_sections c' = kept_sections c.
Proof.
  intros W S [Hf Ht] Hne Hro Hab Ho Hw Hr Hu Hrp. unfold linphone_config_sync. rewrite Hf, Hro, Ht, Ho, Hab.
  pose proof (write_states_ok env (f +:+ ".tmp") 0 (config_write c) EmptyString (<[f +:+ ".tmp" := EmptyString]> disk) Hw) as Hc.
  destruct (write_states _ _ _ _ _ _) as [st fin]. cbn in Hc. subst fin. rewrite Hr. cbn [fst snd].
  set (d := <[f := text_of (config_write c)]> (delete (f +:+ ".tmp") disk)).
  destruct (load_written c d f) as (c' & Hl & Hs & Hk); [done..| | |].
  - apply Hrp. unfold d. by rewrite lookup_insert_eq.
  - apply lookup_insert_eq.
  - exists d, c'. split; [|done]. rewrite app_assoc. apply last_snoc.
Qed.

(** C20. A save that a crash cuts anywhere leaves a configuration: whatever state
    of the disk it stops in, and whether or not it can open or rename its files,
    loading the file gives the configuration saved before or the new one, whole. *)
Theorem save_survives_crash env c0 c disk f d :
  writable c0 -> short_lines c0 -> writable c -> short_lines c -> saved_as c f -> f <> EmptyString ->
  disk !! f = Some (text_of (config_write c0)) -> (forall n, writes env n = true) ->
  can_update f = true -> (forall d, is_Some (d !! f) -> lp_realpath d f = Some f) ->
  In d (snd (linphone_config_sync env c disk)) ->
  exists c', linphone_config_new false d (Some f) = Done (Some c') /\
    (lp_sections c' = kept_sections c0 \/ lp_sections c' = kept_sections c).
Proof.
  intros W0 S0 W S Hs Hne Hd Hw Hu Hrp Hin. destruct (sync_states env c disk f d Hs Hw Hin) as [Hx|Hx].
  - rewrite Hd in Hx. destruct (load_written c0 d f W0 S0 Hne Hu) as (c' & Hl & _ & Hk); [by apply Hrp; rewrite Hx|done|].
    exists c'. auto.
  - destruct (load_written c d f W S Hne Hu) as (c' & Hl & _ & Hk); [by apply Hrp; rewrite Hx|done|].
    exists c'. auto.
Qed.

(** A save does not notice that it fails: once the temporary file is open, the
    save reports success and forgets the modifications although nothing could be
    written, and then the configuration is replaced by an empty file; when the
    file cannot be renamed the old one stays, and success is reported too. *)
Theorem failed_save_reported_as_success env c disk f :
  saved_as c f -> lp_readonly c = false -> lp_abort_sync c = false -> opens env = true ->
  (forall n, writes env n = false) ->
  fst (linphone_config_sync env c disk) = (0, c <| lp_modified := false |>) /\
  exists d, last (snd (linphone_config_sync env c disk)) = Some d /\
    d !! f = if renames env then Some EmptyString else disk !! f.
Proof.
  intros [Hf Ht] Hro Hab Ho Hw. unfold linphone_config_sync. rewrite Hf, Hro, Ht, Ho, Hab.
  pose proof (write_states_failed env (f +:+ ".tmp") 0 (config_write c) EmptyString (<[f +:+ ".tmp" := EmptyString]> disk) Hw) as Hc.
  pose proof (fun d => write_states_other env (f +:+ ".tmp") 0 (config_write c) EmptyString
    (<[f +:+ ".tmp" := EmptyString]> disk) f d (tmp_differs f)) as Hot.
  destruct (write_states _ _ _ _ _ _) as [st fin]. cbn [fst snd] in *. subst fin. split; [done|].
  destruct (renames env).
  - eexists. rewrite app_assoc, last_snoc. split; [done|]. apply lookup_insert_eq.
  - rewrite app_nil_r. destruct st as [|d0 st] using rev_ind.
    + eexists. split; [reflexivity|]. rewrite lookup_insert_ne; [done|apply tmp_differs].
    + exists d0. rewrite app_assoc, last_snoc. split; [done|]. rewrite Hot by (apply in_app_iff; right; by left).
      rewrite lookup_insert_ne; [done|apply tmp_differs].
Qed.

End Files.

(** ** A concrete file system *)

Definition ref_nxtlines (content : string) : list string := removelast (split_on LF content).

#[local] Instance ref_vfs : Vfs := {
  lp_realpath := fun disk path => if bool_decide (is_Some (disk !! path)) then Some path else None;
  can_read := fun _ => true;
  can_update := fun _ => true;
  nxtlines := ref_nxtlines;
  dirname := fun _ => "."%string;
}.

Lemma split_on_lines lines : Forall (lacks LF) lines -> split_on LF (lines_text lines) = lines ++ [EmptyString].
Proof.
  induction 1 as [|l lines Hl H IH]; [done|].
  change (lines_text (l :: lines)) with ((l +:+ String LF EmptyString) +:+ lines_text lines).
  rewrite str_app_assoc. change (String LF EmptyString +:+ lines_text lines) with (String LF (lines_text lines)).
  by rewrite split_on_cons, IH.
Qed.

#[local] Instance ref_vfs_spec : VfsSpec.
Proof.
  constructor. intros lines H. cbn. unfold ref_nxtlines. rewrite split_on_lines.
  - rewrite removelast_last. clear H. induction lines as [|l lines IH]; constructor; [|done].
    exists EmptyString. split; [by left|by rewrite str_app_nil].
  - eapply Forall_impl; [exact H|]. by intros l [Hl _].
Qed.

Definition example_config : LpConfig :=
  mkLpConfig (Some "rc") (Some "rc.tmp") None
    [mkLpSection "sip" [mkLpItem "" "# a comment" true false false; mkLpItem "port" "5060" false true false]
       [mkLpSectionParam "version" "1"] false true;
     mkLpSection "net" [mkLpItem "mtu" "1300 [bytes]" false false false] [] false false]%string true false false.

(** The same with another port. *)
Definition example_config' : LpConfig := linphone_config_set_string example_config "sip" "port" (Some "5061"%string).

Lemma example_word s : is_param_word s && negb (str_has CR s) && negb (str_has LF s) = true -> param_word s /\ one_line s.
Proof.
  rewrite !andb_true_iff, !negb_true_iff. intros [[H1 H2] H3]. split; [by apply is_param_word_spec|by split].
Qed.

Definition is_key_word (s : string) : bool :=
  negb (str_empty s) && str_all (fun c => negb (is_space c)) s && negb (str_has "=" s) &&
  negb (head_is (fun c => Ascii.eqb c "[" || Ascii.eqb c "#") s) && negb (str_has CR s) && negb (str_has LF s).

Lemma is_key_word_spec s : is_key_word s = true -> key_word s.
Proof.
  unfold is_key_word. rewrite !andb_true_iff, !negb_true_iff. intros (((((H1 & H2) & H3) & H4) & H5) & H6).
  split; [split; [by apply str_empty_false|done]|done..].
Qed.

(** A configuration of the shape of the example. *)
Lemma example_writable port :
  port <> EmptyString -> strip_end port = port -> one_line port ->
  writable (mkLpConfig (Some "rc") (Some "rc.tmp") None
    [mkLpSection "sip" [mkLpItem "" "# a comment" true false false; mkLpItem "port" port false true false]
       [mkLpSectionParam "version" "1"] false true;
     mkLpSection "net" [mkLpItem "mtu" "1300 [bytes]" false false false] [] false false]%string true false false).
Proof.
  intros H1 H2 H3. split; [|split].
  - repeat apply List.Forall_cons; try done; split; cbn [sec_name sec_params sec_items]; try by apply example_word.
    + repeat constructor; cbn; try apply is_param_word_spec; done.
    + repeat apply List.Forall_cons; try done; cbn; (split_and!; try done; by apply is_key_word_spec).
    + intros [|[|i]] [|[|j]] x y k; cbn; intros; simplify_eq; done.
    + done.
    + repeat apply List.Forall_cons; try done; cbn; (split_and!; try done; by apply is_key_word_spec).
    + intros [|i] [|j] x y k; cbn; intros; simplify_eq; done.
  - intros i j x y k Hi Hj Hx%String.eqb_eq Hy%String.eqb_eq.
    destruct i as [|[|i]], j as [|[|j]]; cbn in Hi, Hj; simplify_eq; done.
  - repeat apply List.Forall_cons; try done; intros [|[|i]] [|[|j]] x y k; cbn; intros; simplify_eq; done.
Qed.

Definition good_env : SyncEnv := mkSyncEnv true (fun _ => true) true.

Lemma ref_realpath f (d : Disk) : is_Some (d !! f) -> lp_realpath d f = Some f.
Proof. intros H. cbn. by rewrite bool_decide_eq_true_2. Qed.

Lemma short_linesb_spec c :
  forallb (fun l => (S (String.length l) <? MAX_LEN)%nat) (config_lines c) = true -> short_lines c.
Proof.
  rewrite List.forallb_forall. intros H. apply List.Forall_forall. intros l Hl. by apply Nat.ltb_lt, H.
Qed.

Lemma example_short : short_lines example_config /\ short_lines example_config'.
Proof. split; apply short_linesb_spec; vm_compute; reflexivity. Qed.

Lemma configuration_roundtrip_witness :
  exists d c',
    last (snd (linphone_config_sync good_env example_config ∅)) = Some d /\
    fst (fst (linphone_config_sync good_env example_config ∅)) = 0 /\
    linphone_config_new false d (Some "rc"%string) = Done (Some c') /\ saved_as c' "rc" /\
    lp_sections c' = kept_sections example_config.
Proof.
  apply (configuration_roundtrip good_env example_config ∅ "rc"); try reflexivity; try discriminate.
  - by apply example_writable.
  - apply example_short.
  - split; reflexivity.
  - apply ref_realpath.
Defined.

(** The disk after the first two texts are written. *)
Definition example_disk : Disk := <["rc" := text_of (config_write example_config)]> ∅.
Definition example_crash : Disk := List.nth 3 (snd (linphone_config_sync good_env example_config' example_disk)) ∅.

Lemma save_survives_crash_witness :
  exists c', linphone_config_new false example_crash (Some "rc"%string) = Done (Some c') /\
    (lp_sections c' = kept_sections example_config \/ lp_sections c' = kept_sections example_config').
Proof.
  apply (save_survives_crash good_env example_config example_config' example_disk "rc" example_crash); try reflexivity;
    try discriminate.
  - by apply example_writable.
  - apply example_short.
  - by apply (example_writable "5061").
  - apply example_short.
  - split; reflexivity.
  - apply ref_realpath.
  - apply List.nth_In, Nat.ltb_lt. vm_compute. reflexivity.
Defined.

Lemma failed_save_reported_as_success_witness :
  fst (linphone_config_sync (mkSyncEnv true (fun _ => false) true) example_config example_disk) =
    (0, example_config <| lp_modified := false |>) /\
  exists d, last (snd (linphone_config_sync (mkSyncEnv true (fun _ => false) true) example_config example_disk)) = Some d /\
    d !! "rc"%string = Some EmptyString.
Proof.
  apply (failed_save_reported_as_success (mkSyncEnv true (fun _ => false) true) example_config example_disk "rc");
    try reflexivity. split; reflexivity.
Defined.

(** ** Files beside the configuration *)

Lemma substring_past n m s : (String.length s <= n)%nat -> String.substring n m s = EmptyString.
Proof.
  revert n. induction s as [|c s IH]; intros [|n] H; cbn in *; try by destruct m.
  - lia.
  - apply IH. lia.
Qed.

(** Files beside the configuration cannot be used as documented: where
    [realpath] fails on a file that does not exist, writing never creates a file;
    and reading a file that fits the buffer reports success with no data, since
    one byte is read at the offset of the buffer length. *)
Theorem relative_files_unusable {vfs : Vfs} c disk conf name :
  (forall d p, d !! p = None -> lp_realpath d p = None) -> lp_filename c = Some conf ->
  (forall can_write data, disk !! relative_path conf name = None ->
     linphone_config_write_relative_file can_write disk c name data = disk) /\
  (forall path content max_length, lp_realpath disk (relative_path conf name) = Some path ->
     can_read path = true -> disk !! path = Some content -> (String.length content <= max_length)%nat ->
     linphone_config_read_relative_file disk c name max_length = (0, EmptyString)).
Proof.
  intros Hr Hc. split.
  - intros can_write data Hd. unfold linphone_config_write_relative_file. rewrite Hc.
    destruct (str_empty data); [done|]. by rewrite Hr.
  - intros path content max_length Hp Hcr Hd Hl. unfold linphone_config_read_relative_file. rewrite Hc, Hp. cbn.
    unfold open_with. rewrite Hcr, Hd. unfold bctbx_file_read. by rewrite substring_past.
Qed.

Lemma relative_files_unusable_witness :
  linphone_config_write_relative_file (fun _ => true) ∅ example_config "echo" "state" = ∅ /\
  linphone_config_read_relative_file (<["./echo" := "state"]> ∅)%string example_config "echo" 100 = (0, EmptyString).
Proof.
  split.
  - apply (relative_files_unusable example_config ∅ "rc" "echo"); try reflexivity.
    intros d p H. cbn. by rewrite bool_decide_eq_false_2 by (rewrite H; apply is_Some_None).
  - apply (relative_files_unusable example_config (<["./echo" := "state"]> ∅)%string "rc" "echo") with
      (path := "./echo"%string) (content := "state"%string); try reflexivity; [|cbn; lia].
    intros d p H. cbn. by rewrite bool_decide_eq_false_2 by (rewrite H; apply is_Some_None).
Defined.
