(* ===== verification/LpConfigValuesProps.v ===== *)
(** The typed values of a configuration: what is set is what is read, for every
    integer of the width of the type, and the values for which it is not. *)
From S2P Require Import Prelude Sscanf LpConfig LpConfigValues LpConfigFile LpConfigSpec LpConfigParse.

(** ** Printed numbers *)

Lemma substring_whole n s : (String.length s <= n)%nat -> String.substring 0 n s = s.
Proof.
  revert n. induction s as [|c s IH]; intros [|n] H; cbn in *; try done; [lia|]. f_equal. apply IH. lia.
Qed.

Lemma snprintf_fits size s : (String.length s < size)%nat -> snprintf size s = s.
Proof. intros H. apply substring_whole. lia. Qed.

Lemma to_dec_length n k : - 10 ^ Z.of_nat (S k) < n < 10 ^ Z.of_nat (S k) -> (String.length (to_dec n) <= S (S k))%nat.
Proof.
  intros Hn. unfold to_dec, dec_of_nonneg. destruct (n <? 0) eqn:E.
  - apply Z.ltb_lt in E. pose proof (dec_digits_length (S (Z.to_nat (Z.log2 (- n)))) (- n) k EmptyString ltac:(lia)).
    cbn [String.length] in *. lia.
  - apply Z.ltb_ge in E. pose proof (dec_digits_length (S (Z.to_nat (Z.log2 n))) n k EmptyString ltac:(lia)).
    cbn [String.length] in *. lia.
Qed.

(** A printed number is not empty. *)
Lemma to_dec_cons n : exists c s, to_dec n = String c s.
Proof. unfold to_dec. destruct (n <? 0); [by eexists _, _|apply dec_of_nonneg_cons]. Qed.

Lemma to_dec_head n : head_is is_digit (to_dec n) = negb (n <? 0).
Proof.
  unfold to_dec. destruct (n <? 0) eqn:E; [done|]. apply Z.ltb_ge in E.
  pose proof (dec_of_nonneg_digits n E) as H. destruct (dec_of_nonneg_cons n) as (c & s & Hc). rewrite Hc in *.
  cbn in *. apply andb_true_iff in H as [-> _]. done.
Qed.

(** What the readers of numbers find after white space and sign. *)
Lemma scan_to_dec n t :
  scan_sign (scan_ws (to_dec n +:+ t)) = (n <? 0, dec_of_nonneg (Z.abs n) +:+ t).
Proof.
  rewrite scan_ws_id.
  - unfold to_dec. destruct (n <? 0) eqn:E.
    + apply Z.ltb_lt in E. by rewrite Z.abs_neq by lia.
    + apply Z.ltb_ge in E. rewrite Z.abs_eq by lia. by apply dec_no_sign.
  - destruct (to_dec_cons n) as (c & s & Hc). pose proof (to_dec_head n) as H. unfold to_dec in *.
    destruct (n <? 0); [done|]. rewrite Hc in *. cbn in *. by apply digit_not_space.
Qed.

Lemma signed_abs n : signed (n <? 0) (Z.abs n) = n.
Proof. unfold signed. destruct (n <? 0) eqn:E; [apply Z.ltb_lt in E|apply Z.ltb_ge in E]; lia. Qed.

Lemma strtoll10_dec n t :
  - 2 ^ 63 <= n < 2 ^ 63 -> head_is is_digit t = false -> strtoll10 (to_dec n +:+ t) = n.
Proof.
  intros Hn Ht. unfold strtoll10. rewrite scan_to_dec, scan_digits_dec, dec_of_nonneg_horner, signed_abs by (done || lia).
  unfold i64_min, i64_max. lia.
Qed.

Lemma atoi_dec n t : - 2 ^ 31 <= n < 2 ^ 31 -> head_is is_digit t = false -> atoi (to_dec n +:+ t) = n.
Proof. intros Hn Ht. unfold atoi. rewrite strtoll10_dec by (done || lia). by apply i32_small. Qed.

Lemma scan_int_base_to_dec n : - 2 ^ 31 <= n < 2 ^ 31 -> scan_int_base (to_dec n) = Some (n, EmptyString).
Proof.
  intros Hn. unfold scan_int_base. rewrite <- (str_app_nil (to_dec n)), scan_to_dec, str_app_nil.
  pose proof (dec_of_nonneg_horner (Z.abs n) ltac:(lia)) as Hh.
  pose proof (str_span_nil _ _ (dec_of_nonneg_digits (Z.abs n) ltac:(lia))) as Hs.
  destruct (Z.eq_dec n 0) as [->|Hne]; [done|].
  destruct (dec_of_positive_head (Z.abs n) ltac:(lia)) as (c & s & Hc & H0). rewrite Hc in *. rewrite Hs.
  assert (i32 (signed (n <? 0) (horner 0 (String c s))) = n) as E by by rewrite Hh, signed_abs, i32_small.
  destruct c as [[] [] [] [] [] [] [] []]; rewrite ?E; try reflexivity. by destruct H0.
Qed.

(** ** Hexadecimal numbers *)

Lemma hex_char_digit d : 0 <= d < 16 -> hex_digit (hex_char d) = d /\ is_hex (hex_char d) = true.
Proof.
  intros H. assert (d = 0 \/ d = 1 \/ d = 2 \/ d = 3 \/ d = 4 \/ d = 5 \/ d = 6 \/ d = 7 \/ d = 8 \/ d = 9 \/
    d = 10 \/ d = 11 \/ d = 12 \/ d = 13 \/ d = 14 \/ d = 15) as Hd by lia.
  repeat (destruct Hd as [-> |Hd]; [by vm_compute|]). subst. by vm_compute.
Qed.

Lemma hex_digits_horner fuel n acc :
  (0 < fuel)%nat -> 0 <= n < 16 ^ Z.of_nat fuel ->
  horner_in 16 0 (hex_digits fuel n acc) = horner_in 16 n acc /\
  str_all is_hex (hex_digits fuel n acc) = str_all is_hex acc /\
  (acc <> EmptyString \/ 0 < fuel)%nat /\ hex_digits fuel n acc <> EmptyString /\
  (String.length (hex_digits fuel n acc) <= fuel + String.length acc)%nat.
Proof.
  revert n acc. induction fuel as [|fuel IH]; intros n acc Hf Hn; [lia|]. cbn [hex_digits].
  pose proof (Z.mod_pos_bound n 16 eq_refl) as Hb. destruct (hex_char_digit _ Hb) as [Hd Hx].
  pose proof (Z.div_mod n 16 ltac:(lia)) as Hdm.
  destruct (n / 16 =? 0) eqn:E.
  - apply Z.eqb_eq in E. cbn [horner_in str_all String.length]. rewrite Hd, Hx.
    replace (16 * 0 + n mod 16) with n by lia. split_and!; try done; [by right; lia|lia].
  - apply Z.eqb_neq in E. rewrite Nat2Z.inj_succ, Z.pow_succ_r in Hn by lia.
    assert (0 <= n / 16 < 16 ^ Z.of_nat fuel) as Hq.
    { split; [apply Z.div_pos; lia|]. apply Z.div_lt_upper_bound; lia. }
    destruct fuel as [|fuel]; [change (16 ^ Z.of_nat 0) with 1 in Hq; lia|].
    destruct (IH (n / 16) (String (hex_char (n mod 16)) acc) ltac:(lia) Hq) as (H1 & H2 & _ & H4 & H5).
    split_and!; [|by rewrite H2; cbn; rewrite Hx|right; lia|done|cbn [String.length] in H5; lia].
    rewrite H1. cbn [horner_in]. rewrite Hd. f_equal. lia.
Qed.

Lemma to_hex_spec n :
  horner_in 16 0 (to_hex n) = u32 n /\ str_all is_hex (to_hex n) = true /\ to_hex n <> EmptyString /\
  (String.length (to_hex n) <= 8)%nat.
Proof.
  pose proof (u32_range n) as H. change (2 ^ 32) with (16 ^ Z.of_nat 8) in H.
  destruct (hex_digits_horner 8 (u32 n) EmptyString ltac:(lia) H) as (H1 & H2 & _ & H3 & H4). cbn [String.length] in H4.
  by split_and!.
Qed.

Lemma scan_hex_to_hex n : - 2 ^ 31 <= n < 2 ^ 31 -> scan_hex ("0x" +:+ to_hex n) = Some n.
Proof.
  intros Hn. destruct (to_hex_spec n) as (H1 & H2 & H3 & _). unfold scan_hex.
  rewrite scan_ws_id by done. cbn [String.append scan_sign Ascii.eqb Bool.eqb].
  change (String.prefix "0x" (String "0" (String "x" (to_hex n)))) with (String.prefix "" (to_hex n)).
  replace (String.prefix "" (to_hex n)) with true by by destruct (to_hex n).
  cbn [orb String.length String.substring]. rewrite substring_whole by lia.
  rewrite str_span_nil by done. destruct (to_hex n) as [|c s] eqn:E; [done|]. rewrite H1. cbn [signed]. f_equal.
  unfold i32, u32. rewrite <- Zplus_mod_idemp_l, Z.mod_mod, Zplus_mod_idemp_l by lia.
  rewrite Z.mod_small by lia. lia.
Qed.

(** ** Lists *)

Lemma split_on_none c s : lacks c s -> split_on c s = [s].
Proof.
  induction s as [|d s IH]; intros H; [done|]. apply lacks_cons in H as [Hd Hs]. cbn.
  by rewrite (proj2 (Ascii.eqb_neq d c)), IH by done.
Qed.

(** The joined text, from the right. *)
Fixpoint joined (x : string) (l : list string) : string :=
  match l with
  | [] => x
  | y :: l' => x +:+ "," +:+ joined y l'
  end.

Lemma join_fold l x : fold_left join_element l (Some x) = Some (joined x l).
Proof.
  revert x. assert (forall a x, fold_left join_element l (Some (a +:+ x)) = Some (a +:+ joined x l)) as H.
  { induction l as [|y l IH]; intros a x; [done|]. cbn [fold_left join_element joined].
    replace ((a +:+ x) +:+ "," +:+ y) with ((a +:+ x +:+ ",") +:+ y) by by rewrite !str_app_assoc.
    rewrite IH. by rewrite !str_app_assoc. }
  intros x. exact (H EmptyString x).
Qed.

Lemma split_joined x l : Forall (lacks ",") (x :: l) -> split_on "," (joined x l) = x :: l.
Proof.
  revert x. induction l as [|y l IH]; intros x H; apply Forall_cons in H as [Hx H]; cbn [joined]; [by apply split_on_none|].
  change ("," +:+ joined y l) with (String "," (joined y l)). rewrite split_on_cons by done. by rewrite IH.
Qed.

(** ** Values in a configuration *)

Lemma get_after_set c s k v d :
  config_wf c -> v <> EmptyString -> linphone_config_get_string (linphone_config_set_string c s k (Some v)) s k d = Some v.
Proof.
  intros W Hv. rewrite get_string_value, value_of_set_string, !String.eqb_refl by done. cbn.
  by rewrite (proj2 (str_empty_false v)).
Qed.

Lemma prefix_0x_has s : String.prefix "0x" s = true -> str_has "x" s = true.
Proof.
  destruct s as [|c [|d s]]; cbn [String.prefix]; [done|by destruct (ascii_dec "0" c)|].
  destruct (ascii_dec "0" c) as [<-|]; [|done]. by destruct (ascii_dec "x" d) as [<-|].
Qed.

Lemma to_dec_not_hex n : String.prefix "0x" (to_dec n) = false.
Proof.
  apply not_true_is_false. intros H%prefix_0x_has. unfold to_dec in H. destruct (n <? 0) eqn:E.
  - apply Z.ltb_lt in E. cbn in H. rewrite (str_all_not_has is_digit) in H; [done|done|apply dec_of_nonneg_digits; lia].
  - apply Z.ltb_ge in E. rewrite (str_all_not_has is_digit) in H; [done|done|by apply dec_of_nonneg_digits].
Qed.

Lemma to_dec_nonempty n : to_dec n <> EmptyString.
Proof. destruct (to_dec_cons n) as (c & s & ->). done. Qed.

Lemma snprintf_int n : - 2 ^ 63 <= n < 2 ^ 63 -> snprintf 30 (to_dec n) = to_dec n.
Proof.
  intros Hn. apply snprintf_fits. assert (2 ^ 63 < 10 ^ Z.of_nat 20) by (vm_compute; reflexivity).
  pose proof (to_dec_length n 19 ltac:(lia)). lia.
Qed.

Lemma dec_no_minus n : 0 <= n -> lacks "-" (to_dec n).
Proof.
  intros Hn. rewrite to_dec_nonneg by done. apply (str_all_not_has is_digit); [done|by apply dec_of_nonneg_digits].
Qed.

Definition int_range (n : Z) : Prop := - 2 ^ 31 <= n < 2 ^ 31.
Definition int64_range (n : Z) : Prop := - 2 ^ 63 <= n < 2 ^ 63.

Lemma range_text min max :
  int_range min -> int_range max ->
  snprintf 30 (to_dec min +:+ "-" +:+ to_dec max) = to_dec min +:+ String "-" (to_dec max).
Proof.
  unfold int_range. intros Hmin Hmax. apply snprintf_fits. rewrite !str_length_app.
  assert (2 ^ 31 < 10 ^ Z.of_nat 10) by (vm_compute; reflexivity).
  pose proof (to_dec_length min 9 ltac:(lia)). pose proof (to_dec_length max 9 ltac:(lia)). cbn [String.length]. lia.
Qed.

Lemma app_nonempty a c b : a +:+ String c b <> EmptyString.
Proof. by destruct a. Qed.

Lemma get_set_int c s k v d : config_wf c -> int_range v -> linphone_config_get_int (linphone_config_set_int c s k v) s k d = v.
Proof.
  intros W Hv. unfold int_range in Hv. unfold linphone_config_get_int, linphone_config_set_int.
  rewrite snprintf_int by lia. rewrite get_after_set by (done || apply to_dec_nonempty).
  by rewrite to_dec_not_hex, scan_int_base_to_dec.
Qed.

(** C25. What is set as an integer (in decimal or in hexadecimal), a boolean, a
    range that is not negative or a list without commas is read back as it was,
    for every value of the width of the type. *)
Theorem typed_values_roundtrip c s k :
  config_wf c ->
  (forall v d, int_range v -> linphone_config_get_int (linphone_config_set_int c s k v) s k d = v) /\
  (forall v d, int_range v -> linphone_config_get_int (linphone_config_set_int_hex c s k v) s k d = v) /\
  (forall v d, int64_range v -> linphone_config_get_int64 (linphone_config_set_int64 c s k v) s k d = v) /\
  (forall v d, linphone_config_get_bool (linphone_config_set_bool c s k v) s k d = v) /\
  (forall min max dmin dmax, 0 <= min -> int_range min -> int_range max ->
    linphone_config_get_range (linphone_config_set_range c s k min max) s k dmin dmax = (true, min, max)) /\
  (forall x l d, Forall (lacks ",") (x :: l) -> joined x l <> EmptyString ->
    linphone_config_get_string_list (linphone_config_set_string_list c s k (x :: l)) s k d = x :: l).
Proof.
  intros W. split_and!.
  - intros. by apply get_set_int.
  - intros v d Hv. unfold linphone_config_get_int, linphone_config_set_int_hex.
    destruct (to_hex_spec v) as (_ & _ & _ & Hlen). rewrite snprintf_fits by (rewrite str_length_app; cbn [String.length]; lia).
    rewrite get_after_set by done. replace (String.prefix "0x" ("0x" +:+ to_hex v)) with true by by destruct (to_hex v).
    by rewrite scan_hex_to_hex.
  - intros v d Hv. unfold linphone_config_get_int64, linphone_config_set_int64.
    rewrite snprintf_int by done. rewrite get_after_set by (done || apply to_dec_nonempty).
    rewrite <- (str_app_nil (to_dec v)). by apply strtoll10_dec.
  - intros v d. unfold linphone_config_get_bool, linphone_config_set_bool, linphone_config_set_int.
    destruct v; by rewrite get_after_set.
  - intros min max dmin dmax H0 Hmin Hmax. unfold linphone_config_get_range, linphone_config_set_range.
    rewrite range_text, get_after_set by (done || apply app_nonempty).
    rewrite split_at_app by by apply dec_no_minus. pose proof (to_dec_nonempty min) as Hne.
    destruct (to_dec min) as [|a b] eqn:E; [done|]. rewrite <- E.
    rewrite atoi_dec by done. by rewrite <- (str_app_nil (to_dec max)), atoi_dec.
  - intros x l d Hl Hne. unfold linphone_config_get_string_list, linphone_config_set_string_list.
    cbn [fold_left join_element]. rewrite join_fold.
    pose proof (get_after_set c s k (joined x l) None W Hne) as H. unfold linphone_config_get_string in H.
    destruct (find_item _ s k) as [item|]; [|done]. injection H as ->. by apply split_joined.
Qed.

Lemma typed_values_roundtrip_witness :
  linphone_config_get_int (linphone_config_set_int_hex LinphoneConfig_new "sip" "flags" (-1)) "sip" "flags" 0 = -1.
Proof.
  apply (typed_values_roundtrip LinphoneConfig_new "sip" "flags" new_wf). split; vm_compute; congruence.
Defined.

(** A range with a negative minimum is lost: the reader takes the sign for
    the separator and gives the default values, whatever was set. *)
Theorem negative_range_lost c s k min max dmin dmax :
  config_wf c -> min < 0 -> int_range min -> int_range max ->
  linphone_config_get_range (linphone_config_set_range c s k min max) s k dmin dmax = (false, dmin, dmax).
Proof.
  intros W H0 Hmin Hmax. unfold linphone_config_get_range, linphone_config_set_range.
  rewrite range_text, get_after_set by (done || apply app_nonempty). unfold to_dec at 1.
  by rewrite (proj2 (Z.ltb_lt min 0)).
Qed.

Lemma negative_range_lost_witness :
  linphone_config_get_range (linphone_config_set_range LinphoneConfig_new "sound" "gain" (-5) 5) "sound" "gain" 0 0 =
  (false, 0, 0).
Proof. apply negative_range_lost; [apply new_wf|reflexivity|split; vm_compute; congruence..]. Defined.
