(* ===== verification/LpConfigXml.v ===== *)
(** Provisioning: a configuration written as an XML document
    ([src/coreapi/lpc2xml.c]) and an XML document merged into a configuration
    ([src/coreapi/xml2lpc.c], [_linphone_config_xml_convert] of
    [src/coreapi/lpconfig.c]).  libxml2 parses and prints the documents: here a
    document is the tree it makes. *)
From S2P Require Import Prelude Sscanf LpConfig LpConfigValues LpConfigFile.

(** ** Documents *)

(** An attribute: its name and the content of its first child, if it has one. *)
Record XmlAttr := mkXmlAttr { attr_name : string; attr_content : option string }.

(** An element, or a node that has a content: a text, a comment. *)
Inductive XmlNode :=
  | XmlElement (name : string) (attributes : list XmlAttr) (children : list XmlNode)
  | XmlText (content : string).

(** [node->content]: null for an element. *)
Definition node_content (node : XmlNode) : option string :=
  match node with
  | XmlElement _ _ _ => None
  | XmlText content => Some content
  end.

(** ** From XML *)

(** The loop on the attributes of an element: every attribute has its content
    logged, which is undefined when it has none.  [f] reads one of them. *)
Definition read_attributes {A} (f : A -> string -> string -> A) (acc : A) (attributes : list XmlAttr) : outcome A :=
  ofold (fun acc attr =>
    match attr_content attr with
    | Some content => Done (f acc (attr_name attr) content)
    | None => Undefined
    end) acc attributes.

(** The name and the overwrite flag of an entry. *)
Definition entry_attribute (acc : option string * bool) (name content : string) : option string * bool :=
  let '(entry_name, overwrite) := acc in
  if String.eqb name "name" then (Some content, overwrite)
  else if String.eqb name "overwrite" then (if String.eqb content "true" then (entry_name, true) else acc)
  else acc.

Definition processEntry (lpc : LpConfig) (sectionName : string) (attributes : list XmlAttr) (children : list XmlNode)
    : outcome LpConfig :=
  let* (name, overwrite) := read_attributes entry_attribute (None, false) attributes in
  let value :=
    match children with
    | child :: _ => node_content child
    | [] => Some EmptyString
    end in
  Done match name with
  | Some name =>
      match linphone_config_get_string lpc sectionName name None with
      | Some _ => if overwrite then linphone_config_set_string lpc sectionName name value else lpc
      | None => linphone_config_set_string lpc sectionName name value
      end
  | None => lpc
  end.

Definition section_attribute (acc : option string) (name content : string) : option string :=
  if String.eqb name "name" then Some content else acc.

Definition process_section_child (name : string) (lpc : LpConfig) (node : XmlNode) : outcome LpConfig :=
  match node with
  | XmlElement element attributes children =>
      if String.eqb element "entry" then processEntry lpc name attributes children else Done lpc
  | XmlText _ => Done lpc
  end.

Definition processSection (lpc : LpConfig) (attributes : list XmlAttr) (children : list XmlNode) : outcome LpConfig :=
  let* name := read_attributes section_attribute None attributes in
  match name with
  | Some name => ofold (process_section_child name) lpc children
  | None => Done lpc
  end.

Definition process_config_child (lpc : LpConfig) (node : XmlNode) : outcome LpConfig :=
  match node with
  | XmlElement element attributes children =>
      if String.eqb element "section" then processSection lpc attributes children else Done lpc
  | XmlText _ => Done lpc
  end.

Definition processConfig (lpc : LpConfig) (children : list XmlNode) : outcome LpConfig :=
  ofold process_config_child lpc children.

Definition processDoc (lpc : LpConfig) (root : XmlNode) : outcome LpConfig :=
  match root with
  | XmlElement element _ children => if String.eqb element "config" then processConfig lpc children else Done lpc
  | XmlText _ => Done lpc
  end.

(** The document is null when it could not be parsed. *)
Definition xml2lpc_convert (doc : option XmlNode) (lpc : LpConfig) : outcome (Z * LpConfig) :=
  match doc with
  | None => Done (-1, lpc)
  | Some root => let* lpc := processDoc lpc root in Done (0, lpc)
  end.

(** [_linphone_config_xml_convert] with the document that [xml2lpc_set_xml_file]
    or [xml2lpc_set_xml_string] has read: the error message, the configuration
    and the states of the disk. *)
Definition _linphone_config_xml_convert (env : SyncEnv) (lpc : LpConfig) (doc : option XmlNode) (disk : Disk)
    : outcome (option string * LpConfig * list Disk) :=
  match doc with
  | None => Done (Some "invalid xml"%string, lpc, [disk])
  | Some _ =>
      let* (result, lpc) := xml2lpc_convert doc lpc in
      if result =? 0 then
        let lpc :=
          if linphone_config_has_section lpc "proxy_0" && (linphone_config_get_int lpc "sip" "default_proxy" (-1) =? -1)
          then linphone_config_set_int lpc "sip" "default_proxy" 0 else lpc in
        let '(_, lpc, disks) := linphone_config_sync env lpc disk in
        Done (None, lpc, disks)
      else Done (Some "xml to lpc failed"%string, lpc, [disk])
  end.

(** [_linphone_config_load_from_xml_string]: the buffer may be null; [parse] is
    the parser of libxml2. *)
Definition _linphone_config_load_from_xml_string (parse : string -> option XmlNode) (env : SyncEnv) (lpc : LpConfig)
    (buffer : option string) (disk : Disk) : outcome (option string * LpConfig * list Disk) :=
  match buffer with
  | Some buffer => _linphone_config_xml_convert env lpc (parse buffer) disk
  | None => Done (Some "empty provisioning file"%string, lpc, [disk])
  end.

(** ** To XML *)

Section ToXml.
(** The conversion of libxml2 from ISO 8859-1 to UTF-8, which may fail. *)
Context (iso_to_utf8 : string -> option string).

(** [processEntry] of [lpc2xml.c]: the attributes and the children it adds to
    the node.  Adding an empty content adds no child. *)
Definition entry_content (lpc : LpConfig) (section entry : string) : option (list XmlAttr * list XmlNode) :=
  match linphone_config_get_string lpc section entry None with
  | None => None
  | Some content =>
      let content := match iso_to_utf8 content with Some converted => converted | None => content end in
      let overwrite := linphone_config_get_overwrite_flag_for_entry lpc section entry ||
                       linphone_config_get_overwrite_flag_for_section lpc section in
      Some (if overwrite then [mkXmlAttr "overwrite" (Some "true"%string)] else [],
            if str_empty content then [] else [XmlText content])
  end.

(** [processSection_cb]: the entries made so far, or an error. *)
Definition processSection_cb (lpc : LpConfig) (section : string) (acc : option (list XmlNode)) (entry : string)
    : option (list XmlNode) :=
  match acc with
  | None => None
  | Some nodes =>
      if String.prefix "#" entry then Some nodes
      else if linphone_config_get_skip_flag_for_entry lpc section entry then Some nodes
      else match entry_content lpc section entry with
      | Some (attributes, children) =>
          Some (nodes ++ [XmlElement "entry" (mkXmlAttr "name" (Some entry) :: attributes) children])
      | None => None
      end
  end.

Definition section_nodes (lpc : LpConfig) (section : string) : option (list XmlNode) :=
  fold_left (processSection_cb lpc section) (linphone_config_for_each_entry lpc section) (Some []).

Definition processConfig_cb (lpc : LpConfig) (acc : option (list XmlNode)) (section : string) : option (list XmlNode) :=
  match acc with
  | None => None
  | Some nodes =>
      if linphone_config_get_skip_flag_for_section lpc section then Some nodes
      else match section_nodes lpc section with
      | Some entries => Some (nodes ++ [XmlElement "section" [mkXmlAttr "name" (Some section)] entries])
      | None => None
      end
  end.

(** The document, or [None] when the conversion fails. *)
Definition internal_convert_lpc2xml (lpc : LpConfig) : option XmlNode :=
  match fold_left (processConfig_cb lpc) (linphone_config_for_each_section lpc) (Some []) with
  | Some sections =>
      Some (XmlElement "config"
        [mkXmlAttr "schemaLocation" (Some "http://www.linphone.org/xsds/lpconfig.xsd lpconfig.xsd"%string)] sections)
  | None => None
  end.

End ToXml.
