(* ===== verification/LpConfigXmlProps.v ===== *)
(** What provisioning does: a document is merged into a configuration entry by
    entry, and the document of a configuration carries its entries but those
    marked to be skipped. *)
From S2P Require Import Prelude Sscanf LpConfig LpConfigValues LpConfigFile LpConfigSpec LpConfigParse LpConfigXml.

(** ** The entries of a document *)

(** A section, a key, a value (none when the first child of the entry is an
    element) and the overwrite flag. *)
Record XmlEntry := mkXmlEntry { xe_section : string; xe_key : string; xe_value : option string; xe_overwrite : bool }.

Definition attributes_of {A} (f : A -> string -> string -> A) (acc : A) (attributes : list XmlAttr) : A :=
  fold_left (fun acc attr => f acc (attr_name attr) (default EmptyString (attr_content attr))) attributes acc.

Definition node_entry (section : string) (node : XmlNode) : list XmlEntry :=
  match node with
  | XmlElement element attributes children =>
      if String.eqb element "entry" then
        match attributes_of entry_attribute (None, false) attributes with
        | (Some key, overwrite) =>
            [mkXmlEntry section key (match children with child :: _ => node_content child | [] => Some EmptyString end)
               overwrite]
        | (None, _) => []
        end
      else []
  | XmlText _ => []
  end.

Definition node_section (node : XmlNode) : list XmlEntry :=
  match node with
  | XmlElement element attributes children =>
      if String.eqb element "section" then
        match attributes_of section_attribute None attributes with
        | Some name => concat (map (node_entry name) children)
        | None => []
        end
      else []
  | XmlText _ => []
  end.

Definition doc_entries (root : XmlNode) : list XmlEntry :=
  match root with
  | XmlElement element _ children => if String.eqb element "config" then concat (map node_section children) else []
  | XmlText _ => []
  end.

(** Every attribute of an element has a content. *)
Definition with_contents (node : XmlNode) : Prop :=
  match node with
  | XmlElement _ attributes _ => Forall (fun attr => is_Some (attr_content attr)) attributes
  | XmlText _ => True
  end.

Definition children_of (node : XmlNode) : list XmlNode :=
  match node with
  | XmlElement _ _ children => children
  | XmlText _ => []
  end.

(** Sections and entries have contents for all their attributes. *)
Definition readable_doc (root : XmlNode) : Prop :=
  Forall (fun section => with_contents section /\ Forall with_contents (children_of section)) (children_of root).

(** ** The reference merge

    An entry is set when it is new or when it says to overwrite. *)
Definition provision (m : Entries) (e : XmlEntry) : Entries :=
  let key := (xe_section e, xe_key e) in
  if match m !! key with Some _ => xe_overwrite e | None => true end
  then match non_empty (xe_value e) with Some v => <[key := v]> m | None => delete key m end
  else m.

Lemma read_attributes_done {A} (f : A -> string -> string -> A) acc attributes :
  Forall (fun attr => is_Some (attr_content attr)) attributes ->
  read_attributes f acc attributes = Done (attributes_of f acc attributes).
Proof.
  intros H. unfold read_attributes, attributes_of. apply ofold_done. intros a x Hx.
  rewrite List.Forall_forall in H. destruct (H x Hx) as [content ->]. done.
Qed.

(** A step of a fold that does to the entries of a configuration what [g] does
    to the map. *)
Lemma ofold_entries {B} (f : LpConfig -> B -> outcome LpConfig) (g : B -> list XmlEntry) l c :
  (forall c x, config_wf c -> In x l ->
     exists c', f c x = Done c' /\ config_wf c' /\ entries c' = fold_left provision (g x) (entries c)) ->
  config_wf c ->
  exists c', ofold f c l = Done c' /\ config_wf c' /\ entries c' = fold_left provision (concat (map g l)) (entries c).
Proof.
  revert c. induction l as [|x l IH]; intros c H W; cbn [ofold map concat]; [by exists c|].
  destruct (H c x W) as (c1 & E & W1 & E1); [by left|]. rewrite E. cbn [obind].
  destruct (IH c1) as (c2 & E2 & W2 & E3); [intros; apply H; [done|by right]|done|].
  exists c2. split_and!; [done..|]. by rewrite fold_left_app, <- E1.
Qed.

Lemma set_string_entries c s k v : config_wf c ->
  entries (linphone_config_set_string c s k v) =
  match non_empty v with Some w => <[(s, k) := w]> (entries c) | None => delete (s, k) (entries c) end.
Proof. exact (run_op_entries c (OpSetString s k v)). Qed.

Lemma process_section_child_spec name c node :
  config_wf c -> with_contents node ->
  exists c', process_section_child name c node = Done c' /\ config_wf c' /\
    entries c' = fold_left provision (node_entry name node) (entries c).
Proof.
  intros W H. destruct node as [element attributes children|content]; cbn; [|by exists c].
  destruct (String.eqb element "entry"); [|by exists c]. unfold processEntry. cbn in H.
  rewrite read_attributes_done by done. cbn [obind].
  destruct (attributes_of entry_attribute (None, false) attributes) as [[key|] overwrite]; [|by exists c].
  set (value := match children with child :: _ => node_content child | [] => Some EmptyString end).
  fold (value_of c name key). cbn [fold_left]. unfold provision. cbn [xe_section xe_key xe_value xe_overwrite].
  rewrite entries_lookup by done. destruct (value_of c name key) as [old|]; [destruct overwrite|].
  2: by exists c.
  all: eexists; split_and!; [reflexivity|by apply set_string_wf|by apply set_string_entries].
Qed.

Lemma process_config_child_spec c node :
  config_wf c -> with_contents node -> Forall with_contents (children_of node) ->
  exists c', process_config_child c node = Done c' /\ config_wf c' /\
    entries c' = fold_left provision (node_section node) (entries c).
Proof.
  intros W H Hc. destruct node as [element attributes children|content]; cbn; [|by exists c].
  destruct (String.eqb element "section"); [|by exists c]. unfold processSection. cbn in H.
  rewrite read_attributes_done by done. cbn [obind].
  destruct (attributes_of section_attribute None attributes) as [name|]; [|by exists c].
  apply ofold_entries; [|done]. intros c0 x W0 Hx. apply process_section_child_spec; [done|].
  cbn in Hc. rewrite List.Forall_forall in Hc. by apply Hc.
Qed.

(** C24. Provisioning merges: a document whose attributes have contents is read to
    its end, and the entries of the configuration become those of the reference
    merge, which sets an entry when it is new or when it says to overwrite, and
    removes it when it is empty. *)
Theorem provisioning_merges c root :
  config_wf c -> readable_doc root ->
  exists c', xml2lpc_convert (Some root) c = Done (0, c') /\ config_wf c' /\
    entries c' = fold_left provision (doc_entries root) (entries c).
Proof.
  intros W H. unfold xml2lpc_convert.
  assert (exists c', processDoc c root = Done c' /\ config_wf c' /\
    entries c' = fold_left provision (doc_entries root) (entries c)) as (c' & E & W' & E'); [|exists c'; by rewrite E].
  destruct root as [element attributes children|content]; cbn; [|by exists c].
  destruct (String.eqb element "config"); [|by exists c]. apply ofold_entries; [|done].
  intros c0 x W0 Hx. unfold readable_doc in H. cbn in H. rewrite List.Forall_forall in H.
  destruct (H x Hx) as [H1 H2]. by apply process_config_child_spec.
Qed.

(** ** The document of a configuration *)

(** The items of a section that its document has. *)
Definition exported_item (item : LpItem) : bool :=
  negb (it_is_comment item) && negb (it_skip item) && negb (String.prefix "#" (it_key item)).

Definition exported_entry (sec : LpSection) (item : LpItem) : XmlEntry :=
  mkXmlEntry (sec_name sec) (it_key item) (Some (it_value item)) (it_overwrite item || sec_overwrite sec).

Definition exported_section (sec : LpSection) : list XmlEntry :=
  if sec_skip sec then [] else map (exported_entry sec) (List.filter exported_item (sec_items sec)).

Definition exported (c : LpConfig) : list XmlEntry := concat (map exported_section (lp_sections c)).

Definition entry_element (item : LpItem) (sec : LpSection) : XmlNode :=
  XmlElement "entry"
    (mkXmlAttr "name" (Some (it_key item)) ::
     (if it_overwrite item || sec_overwrite sec then [mkXmlAttr "overwrite" (Some "true"%string)] else []))
    (if str_empty (it_value item) then [] else [XmlText (it_value item)]).

Section Dump.
Context (iso_to_utf8 : string -> option string).
(** Texts in ASCII, which the conversion does not change. *)
Hypothesis ascii_texts : forall s, iso_to_utf8 s = Some s \/ iso_to_utf8 s = None.

Lemma find_own_item c i sec item :
  config_wf c -> lp_sections c !! i = Some sec -> In item (sec_items sec) -> it_is_comment item = false ->
  find_item c (sec_name sec) (it_key item) = Some item.
Proof.
  intros W Hi Hin Hc. unfold find_item. rewrite (section_at_find c i sec W Hi). cbn.
  unfold lp_section_find_item. rewrite find_idx_find. destruct W as [_ W].
  rewrite Forall_lookup in W. pose proof (W i sec Hi) as D.
  destruct (List.find _ (sec_items sec)) as [item'|] eqn:E.
  - apply List.find_some in E as [Hin' E]. apply list_elem_of_In, list_elem_of_lookup in Hin as [a Ha].
    apply list_elem_of_In, list_elem_of_lookup in Hin' as [b Hb].
    assert (is_item (it_key item) item = true) as E' by by unfold is_item; rewrite Hc, String.eqb_refl.
    pose proof (D a b item item' _ Ha Hb E' E). congruence.
  - apply (List.find_none _ _ E) in Hin. by rewrite Hc, String.eqb_refl in Hin.
Qed.

Lemma converted_text s : match iso_to_utf8 s with Some converted => converted | None => s end = s.
Proof. by destruct (ascii_texts s) as [-> | ->]. Qed.

Lemma section_nodes_spec c i sec :
  config_wf c -> lp_sections c !! i = Some sec ->
  section_nodes iso_to_utf8 c (sec_name sec) =
  Some (map (fun item => entry_element item sec) (List.filter exported_item (sec_items sec))).
Proof.
  intros W Hi. unfold section_nodes, linphone_config_for_each_entry. rewrite (section_at_find c i sec W Hi).
  assert (forall items acc, (forall item, In item items -> In item (sec_items sec)) ->
    fold_left (processSection_cb iso_to_utf8 c (sec_name sec))
      (map it_key (List.filter (fun item => negb (it_is_comment item)) items)) (Some acc) =
    Some (acc ++ map (fun item => entry_element item sec) (List.filter exported_item items))) as H.
  2:{ by rewrite H. }
  induction items as [|item items IH]; intros acc Hin; cbn [List.filter map]; [by rewrite app_nil_r|].
  unfold exported_item at 1. destruct (it_is_comment item) eqn:Ec; cbn [negb andb].
  { apply IH. intros x Hx. apply Hin. by right. }
  cbn [map fold_left]. unfold processSection_cb at 2.
  pose proof (find_own_item c i sec item W Hi (Hin item (or_introl eq_refl)) Ec) as Hf.
  unfold linphone_config_get_skip_flag_for_entry. rewrite Hf.
  destruct (String.prefix "#" (it_key item)); cbn [negb].
  { rewrite andb_false_r. apply IH. intros x Hx. apply Hin. by right. }
  rewrite andb_true_r. destruct (it_skip item); cbn [negb].
  { apply IH. intros x Hx. apply Hin. by right. }
  unfold entry_content, linphone_config_get_string, linphone_config_get_overwrite_flag_for_entry,
    linphone_config_get_overwrite_flag_for_section. rewrite Hf, (section_at_find c i sec W Hi), converted_text.
  rewrite IH by (intros x Hx; apply Hin; by right). cbn [map]. by rewrite <- app_assoc.
Qed.

Definition section_element (sec : LpSection) : XmlNode :=
  XmlElement "section" [mkXmlAttr "name" (Some (sec_name sec))]
    (map (fun item => entry_element item sec) (List.filter exported_item (sec_items sec))).

Lemma convert_lpc2xml_spec c :
  config_wf c ->
  internal_convert_lpc2xml iso_to_utf8 c =
  Some (XmlElement "config"
    [mkXmlAttr "schemaLocation" (Some "http://www.linphone.org/xsds/lpconfig.xsd lpconfig.xsd"%string)]
    (map section_element (List.filter (fun sec => negb (sec_skip sec)) (lp_sections c)))).
Proof.
  intros W. unfold internal_convert_lpc2xml, linphone_config_for_each_section.
  assert (forall secs acc, (forall sec, In sec secs -> exists i, lp_sections c !! i = Some sec) ->
    fold_left (processConfig_cb iso_to_utf8 c) (map sec_name secs) (Some acc) =
    Some (acc ++ map section_element (List.filter (fun sec => negb (sec_skip sec)) secs))) as H.
  - induction secs as [|sec secs IH]; intros acc Hin; cbn [List.filter map]; [by rewrite app_nil_r|].
    cbn [fold_left]. unfold processConfig_cb at 2. destruct (Hin sec (or_introl eq_refl)) as [i Hi].
    unfold linphone_config_get_skip_flag_for_section. rewrite (section_at_find c i sec W Hi).
    destruct (sec_skip sec); cbn [negb]; [apply IH; intros x Hx; apply Hin; by right|].
    rewrite (section_nodes_spec c i sec W Hi), IH by (intros x Hx; apply Hin; by right).
    cbn [map]. by rewrite <- app_assoc.
  - rewrite H; [done|]. intros sec Hs. by apply list_elem_of_In, list_elem_of_lookup in Hs.
Qed.

Lemma element_entry sec item : node_entry (sec_name sec) (entry_element item sec) = [exported_entry sec item].
Proof.
  unfold node_entry, entry_element, exported_entry. cbn [String.eqb Ascii.eqb Bool.eqb].
  destruct (it_overwrite item || sec_overwrite sec); cbn; (destruct (str_empty (it_value item)) eqn:E; [|done]);
    apply str_empty_spec in E; by rewrite E.
Qed.

Lemma element_section sec : sec_skip sec = false -> node_section (section_element sec) = exported_section sec.
Proof.
  intros Hs. unfold exported_section. rewrite Hs. cbn.
  induction (List.filter exported_item (sec_items sec)) as [|item items IH]; [done|]. cbn [map concat].
  rewrite IH, element_entry. done.
Qed.

Lemma doc_entries_exported c root :
  config_wf c -> internal_convert_lpc2xml iso_to_utf8 c = Some root -> doc_entries root = exported c /\ readable_doc root.
Proof.
  intros W H. rewrite convert_lpc2xml_spec in H by done. injection H as <-. split.
  - cbn. unfold exported. induction (lp_sections c) as [|sec secs IH]; [done|]. cbn [List.filter map concat].
    destruct (sec_skip sec) eqn:E; cbn [negb].
    + unfold exported_section at 1. rewrite E. exact IH.
    + cbn [map concat]. by rewrite IH, element_section.
  - unfold readable_doc. cbn. apply Forall_map. apply Forall_true. intros sec. split.
    + cbn. by repeat constructor.
    + cbn. apply Forall_map, Forall_true. intros item. cbn. constructor; [done|].
      destruct (it_overwrite item || sec_overwrite sec); by repeat constructor.
Qed.

(** ** Merging a configuration into another *)

Definition xe_name (e : XmlEntry) : string * string := (xe_section e, xe_key e).

Lemma provision_other m e q : xe_name e <> q -> provision m e !! q = m !! q.
Proof.
  intros H. unfold provision. fold (xe_name e). destruct (match m !! xe_name e with Some _ => _ | None => _ end); [|done].
  destruct (non_empty (xe_value e)); [by rewrite lookup_insert_ne|by rewrite lookup_delete_ne].
Qed.

Lemma provision_same m m' e : m !! xe_name e = m' !! xe_name e -> provision m e !! xe_name e = provision m' e !! xe_name e.
Proof.
  intros H. unfold provision. fold (xe_name e). rewrite <- H.
  destruct (match m !! xe_name e with Some _ => _ | None => _ end); [|done].
  destruct (non_empty (xe_value e)); [by rewrite !lookup_insert_eq|by rewrite !lookup_delete_eq].
Qed.

Lemma fold_provision l m q :
  NoDup (map xe_name l) ->
  fold_left provision l m !! q =
  match List.find (fun e => bool_decide (xe_name e = q)) l with
  | Some e => provision m e !! q
  | None => m !! q
  end.
Proof.
  revert m. induction l as [|e l IH]; intros m D; [done|]. cbn [map fold_left List.find] in *.
  apply NoDup_cons in D as [Hn D]. rewrite IH by done. case_bool_decide as E.
  - destruct (List.find _ l) as [e'|] eqn:F; [|done]. apply List.find_some in F as [Hin F].
    apply bool_decide_eq_true in F. destruct Hn. rewrite E, <- F. by apply list_elem_of_In, List.in_map.
  - destruct (List.find _ l) as [e'|] eqn:F; [|by apply provision_other]. apply List.find_some in F as [_ F].
    apply bool_decide_eq_true in F as <-. apply provision_same. by apply provision_other.
Qed.

Lemma sections_nodup l : keys_distinct is_section l -> NoDup (map sec_name l).
Proof.
  intros D. apply NoDup_alt. intros i j name Hi Hj. apply list_lookup_fmap_Some in Hi as (x & -> & Hi).
  apply list_lookup_fmap_Some in Hj as (y & E & Hj). eapply (D i j x y (sec_name x)); [done..| |].
  - apply String.eqb_refl.
  - unfold is_section. rewrite E. apply String.eqb_refl.
Qed.

Lemma items_nodup l : keys_distinct is_item l -> NoDup (map it_key (List.filter exported_item l)).
Proof.
  induction l as [|item l IH]; intros D; [constructor|].
  assert (keys_distinct is_item l) as D'.
  { intros i j x y k Hi Hj Hx Hy. pose proof (D (S i) (S j) x y k Hi Hj Hx Hy). lia. }
  cbn [List.filter]. destruct (exported_item item) eqn:E; [|by apply IH]. cbn [map]. apply NoDup_cons. split; [|by apply IH].
  intros Hin. apply list_elem_of_In, List.in_map_iff in Hin as (y & Hk & Hy). apply List.filter_In in Hy as [Hy Ey].
  apply list_elem_of_In, list_elem_of_lookup in Hy as [j Hj].
  assert (forall z, exported_item z = true -> is_item (it_key z) z = true) as Hz.
  { intros z Hz. unfold exported_item in Hz. apply andb_true_iff in Hz as [Hz _]. apply andb_true_iff in Hz as [Hz _].
    unfold is_item. by rewrite Hz, String.eqb_refl. }
  pose proof (D 0%nat (S j) item y (it_key item) eq_refl Hj (Hz _ E)) as H. rewrite <- Hk in H. specialize (H (Hz _ Ey)). lia.
Qed.

Lemma exported_nodup c : config_wf c -> NoDup (map xe_name (exported c)).
Proof.
  intros [D W]. apply sections_nodup in D. unfold exported. induction W as [|sec secs Hs W IH]; [constructor|].
  cbn [map concat] in *. apply NoDup_cons in D as [Hn D]. rewrite map_app. apply NoDup_app. split_and!; [| |by apply IH].
  - unfold exported_section. destruct (sec_skip sec); [constructor|]. rewrite map_map.
    change (fun x => xe_name (exported_entry sec x)) with (fun x => (sec_name sec, it_key x)).
    rewrite <- (map_map it_key (fun k => (sec_name sec, k))). apply NoDup_fmap_2; [by intros ? ? [= ->]|].
    by apply items_nodup.
  - intros [s k] H1 H2. apply Hn. apply list_elem_of_In, List.in_map_iff in H1 as (e & He & H1).
    apply list_elem_of_In, List.in_map_iff in H2 as (e' & He' & H2).
    assert (forall sec e, In e (exported_section sec) -> xe_section e = sec_name sec) as Hx.
    { intros x e0. unfold exported_section. destruct (sec_skip x); [done|]. intros (item & <- & _)%List.in_map_iff. done. }
    apply List.in_concat in H2 as (l & Hl & H2). apply List.in_map_iff in Hl as (sec' & <- & Hl).
    apply Hx in H1, H2. injection He as Hs1 _. injection He' as Hs2 _.
    apply list_elem_of_In, List.in_map_iff. exists sec'. split; [congruence|done].
Qed.

(** The exported entry of a key, if any. *)
Definition exported_at (c : LpConfig) (s k : string) : option XmlEntry :=
  List.find (fun e => bool_decide (xe_name e = (s, k))) (exported c).

(** A configuration written as XML can always be merged into another one, and
    then every entry it exports, neither marked to be skipped nor starting with a
    number sign, has its value there when it was absent or is marked to
    overwrite; every other entry keeps the value it had. *)
Theorem provisioning_with_a_configuration c t :
  config_wf c -> config_wf t ->
  exists root t', internal_convert_lpc2xml iso_to_utf8 c = Some root /\ xml2lpc_convert (Some root) t = Done (0, t') /\
    forall s k, value_of t' s k =
      match exported_at c s k, value_of t s k with
      | Some e, Some old => if xe_overwrite e then non_empty (xe_value e) else Some old
      | Some e, None => non_empty (xe_value e)
      | None, old => old
      end.
Proof.
  intros Wc Wt. pose proof (convert_lpc2xml_spec c Wc) as Hr. eexists.
  destruct (doc_entries_exported c _ Wc Hr) as [He Hd].
  destruct (ofold_entries process_config_child node_section
    (map section_element (List.filter (fun sec => negb (sec_skip sec)) (lp_sections c))) t) as (t' & E & Wt' & Et); [|done|].
  { intros c0 x W0 Hx. unfold readable_doc in Hd. cbn in Hd. rewrite List.Forall_forall in Hd.
    destruct (Hd x Hx). by apply process_config_child_spec. }
  exists t'. split_and!; [exact Hr| |].
  { unfold xml2lpc_convert, processDoc, processConfig. cbn [String.eqb Ascii.eqb Bool.eqb]. by rewrite E. }
  intros s k. rewrite <- (entries_lookup t'), Et by done. cbn in He. rewrite He.
  rewrite fold_provision by by apply exported_nodup. fold (exported_at c s k). rewrite entries_lookup by done.
  destruct (exported_at c s k) as [e|] eqn:F; [|done]. apply List.find_some in F as [_ F]. apply bool_decide_eq_true in F.
  rewrite <- F. unfold provision. fold (xe_name e). rewrite F, entries_lookup by done.
  destruct (value_of t s k) as [old|] eqn:V; [destruct (xe_overwrite e)|]; try (by rewrite entries_lookup);
    destruct (non_empty (xe_value e)); by rewrite ?lookup_insert_eq, ?lookup_delete_eq.
Qed.

End Dump.

(** ** Examples *)

Definition example_source : LpConfig :=
  fold_left run_op [OpSetString "sip" "port" (Some "5060"); OpSetString "sip" "host" (Some "example.org");
    OpSetString "misc" "uuid" (Some "1"); OpEntryOverwrite "sip" "port" true; OpSectionSkip "misc" true]%string LinphoneConfig_new.
Definition example_target : LpConfig :=
  fold_left run_op [OpSetString "sip" "port" (Some "5070"); OpSetString "sip" "host" (Some "localhost")]%string LinphoneConfig_new.

Definition example_doc : XmlNode :=
  XmlElement "config" [] [XmlElement "section" [mkXmlAttr "name" (Some "sip")]
    [XmlElement "entry" [mkXmlAttr "name" (Some "port"); mkXmlAttr "overwrite" (Some "true")] [XmlText "5060"];
     XmlText " ";
     XmlElement "entry" [mkXmlAttr "name" (Some "host")] [XmlText "example.org"]]]%string.

Lemma example_target_wf : config_wf example_target.
Proof. apply run_ops_wf, new_wf. Qed.

Lemma provisioning_merges_witness :
  readable_doc example_doc /\
  exists c', xml2lpc_convert (Some example_doc) example_target = Done (0, c') /\ config_wf c' /\
    entries c' = fold_left provision (doc_entries example_doc) (entries example_target).
Proof.
  assert (readable_doc example_doc) as R.
  { repeat constructor; cbn; eexists; reflexivity. }
  split; [exact R|]. exact (provisioning_merges example_target example_doc example_target_wf R).
Defined.

Lemma provisioning_with_a_configuration_witness :
  exists root t', internal_convert_lpc2xml Some example_source = Some root /\
    xml2lpc_convert (Some root) example_target = Done (0, t') /\
    value_of t' "sip" "port" = Some "5060"%string /\ value_of t' "sip" "host" = Some "localhost"%string.
Proof.
  destruct (provisioning_with_a_configuration Some (fun s => or_introl eq_refl) example_source example_target
    (run_ops_wf _ _ new_wf) example_target_wf) as (root & t' & H1 & H2 & H3).
  exists root, t'. split; [exact H1|]. split; [exact H2|]. rewrite !H3. split; vm_compute; reflexivity.
Defined.
