(* ===== verification/Effects.v ===== *)
(** * Programs that call back

    The monad of the components that keep a state and call other objects, which
    may call them again before they return: a computation reads and changes a
    world, and finishes or stops the program. *)
From S2P Require Import Prelude.

(** Why the program stops: it reads a null pointer, uses a pointer of another
    type or an object that was freed, has another undefined behaviour, lets an
    exception out of a callback, or ends at [lFatal].  [TooDeep] is no
    behaviour of the program: calls were nested deeper than the fuel. *)
Inductive Stop := NullPointer | BadPointer | Freed | UndefinedBehaviour | Uncaught | Aborted | TooDeep.

Inductive Outcome (W A : Type) :=
  | Finished (a : A) (w : W)
  | Stopped (why : Stop) (w : W).
Arguments Finished {W A} a w.
Arguments Stopped {W A} why w.

Definition Eff (W A : Type) := W -> Outcome W A.

#[export] Instance Eff_ret {W} : MRet (Eff W) := fun A a w => Finished a w.

#[export] Instance Eff_bind {W} : MBind (Eff W) := fun A B k m w =>
  match m w with
  | Finished a w' => k a w'
  | Stopped why w' => Stopped why w'
  end.

Notation "'when' b 'do' m" := (if (b : bool) then m else mret tt)
  (at level 90, b at level 89, m at level 89) : sal_scope.

(** The world a computation ends in, however it ends. *)
Definition world_after {W A} (r : Outcome W A) : W := match r with Finished _ w => w | Stopped _ w => w end.

Section Effects.
Context {W : Type}.

Definition stop {A} (why : Stop) : Eff W A := fun w => Stopped why w.
Definition asks {A} (f : W -> A) : Eff W A := fun w => Finished (f w) w.

(** [p->...] for a pointer [p]. *)
Definition the {A} (p : option A) : Eff W A := match p with Some a => mret a | None => stop NullPointer end.

Fixpoint for_each {A} (l : list A) (f : A -> Eff W unit) : Eff W unit :=
  match l with
  | [] => mret tt
  | x :: l' => f x ;; for_each l' f
  end.

Lemma bind_finished {A B} (m : Eff W A) (k : A -> Eff W B) w a w' :
  m w = Finished a w' -> (m ≫= k) w = k a w'.
Proof. unfold mbind, Eff_bind. by intros ->. Qed.

Lemma then_finished {A B} (m : Eff W A) (k : Eff W B) w a w' :
  m w = Finished a w' -> (m ;; k) w = k w'.
Proof. apply (bind_finished m (fun _ => k)). Qed.

Lemma bind_stopped {A B} (m : Eff W A) (k : A -> Eff W B) w why w' :
  m w = Stopped why w' -> (m ≫= k) w = Stopped why w'.
Proof. unfold mbind, Eff_bind. by intros ->. Qed.

(** ** Calls from within calls

    An event is recorded, and then what its receiver calls on the component runs,
    which may have events of its own. *)
Section Nest.
Context {Ev Call : Type}.
Variable record_event : Ev -> W -> W.
Variable react : W -> Ev -> list Call.
Variable serve : (Ev -> Eff W unit) -> Call -> Eff W unit.

Fixpoint nest (fuel : nat) (e : Ev) : Eff W unit := fun w =>
  let w := record_event e w in
  match react w e with
  | [] => Finished tt w
  | calls =>
      match fuel with
      | O => Stopped TooDeep w
      | S fuel => for_each calls (serve (nest fuel)) w
      end
  end.

Lemma nest_quiet fuel e w : react (record_event e w) e = [] -> nest fuel e w = Finished tt (record_event e w).
Proof. destruct fuel; cbn [nest]; by intros ->. Qed.
End Nest.
End Effects.

Ltac unfold_Eff := cbv beta iota delta [mbind Eff_bind mret Eff_ret asks].

(** ** Postconditions *)

(** What holds where a computation ends, and [R] where it stops. *)
Definition triple {W A} (R : W -> Prop) (P : W -> Prop) (m : Eff W A) (Q : A -> W -> Prop) : Prop :=
  forall w, P w -> match m w with Finished a w' => Q a w' | Stopped _ w' => R w' end.

Section Triples.
Context {W : Type} (R : W -> Prop).

Lemma triple_ret {A} (a : A) P : triple R P (mret a) (fun _ => P).
Proof. by intros w Hw. Qed.

Lemma triple_bind {A B} P Q S (m : Eff W A) (k : A -> Eff W B) :
  triple R P m Q -> (forall a, triple R (Q a) (k a) S) -> triple R P (m ≫= k) S.
Proof.
  intros Hm Hk w Hw. specialize (Hm w Hw). unfold mbind, Eff_bind.
  destruct (m w) as [a w'|]; [exact (Hk a w' Hm)|exact Hm].
Qed.

Lemma triple_weaken {A} (P P' : W -> Prop) (Q Q' : A -> W -> Prop) m :
  triple R P m Q -> (forall w, P' w -> P w) -> (forall a w, Q a w -> Q' a w) -> triple R P' m Q'.
Proof. intros Hm HP HQ w Hw. pose proof (Hm w (HP w Hw)) as Hr. destruct (m w); auto. Qed.

Lemma triple_asks {A} (f : W -> A) P : triple R P (asks f) (fun a w => P w /\ a = f w).
Proof. by intros w Hw. Qed.

(** A value of which something is known. *)
Lemma triple_known {A B} P (phi : A -> Prop) (Q : B -> W -> Prop) (m : Eff W A) (k : A -> Eff W B) P' :
  triple R P m (fun a w => P' w /\ phi a) -> (forall a, phi a -> triple R P' (k a) Q) -> triple R P (m ≫= k) Q.
Proof.
  intros Hm Hk. eapply triple_bind; [exact Hm|]. intros a w [Hw Ha]. exact (Hk a Ha w Hw).
Qed.

Lemma triple_for_each {A} (l : list A) P (f : A -> Eff W unit) :
  (forall x, x ∈ l -> triple R P (f x) (fun _ => P)) -> triple R P (for_each l f) (fun _ => P).
Proof.
  induction l as [|x l IH]; intros Hf; cbn [for_each]; [apply triple_ret|].
  eapply triple_bind; [by apply Hf; left|]. intros ?. apply IH. intros y Hy. apply Hf. by right.
Qed.
End Triples.
