(* ===== verification/ErrorInfo.v ===== *)
(** * Error information ([coreapi/error_info.c], [coreapi/misc.c],
    [coreapi/bellesip_sal/sal_op_impl.c], [sal/sal.cpp])

    Why a call, a message or a request failed: the structure of the SAL layer,
    the object given to the application, and the conversions between them and
    with SIP codes.  A pointer on a structure is the value it points to; a
    function that writes through a null pointer has no result ([None]). *)
From S2P Require Import Prelude ChatTypes.

(** ** Reasons *)

Inductive SalReason :=
  | SalReasonNone | SalReasonDeclined | SalReasonBusy | SalReasonRedirect
  | SalReasonTemporarilyUnavailable | SalReasonRequestTimeout | SalReasonNotFound
  | SalReasonDoNotDisturb | SalReasonUnsupportedContent | SalReasonBadEvent | SalReasonForbidden
  | SalReasonUnknown | SalReasonServiceUnavailable | SalReasonRequestPending
  | SalReasonUnauthorized | SalReasonNotAcceptable | SalReasonNoMatch | SalReasonMovedPermanently
  | SalReasonGone | SalReasonAddressIncomplete | SalReasonNotImplemented | SalReasonBadGateway
  | SalReasonServerTimeout | SalReasonSessionIntervalTooSmall | SalReasonIOError
  | SalReasonInternalError | SalReasonConditionalRequestFailed | SalReasonSasCheckRequired.

#[export] Instance SalReason_eq_dec : EqDecision SalReason.
Proof. solve_decision. Defined.

Definition linphone_reason_to_sal (reason : LinphoneReason) : SalReason :=
  match reason with
  | ReasonNone => SalReasonNone
  | ReasonNoResponse => SalReasonRequestTimeout
  | ReasonForbidden => SalReasonForbidden
  | ReasonDeclined => SalReasonDeclined
  | ReasonNotFound => SalReasonNotFound
  | ReasonTemporarilyUnavailable => SalReasonTemporarilyUnavailable
  | ReasonBusy => SalReasonBusy
  | ReasonNotAcceptable => SalReasonNotAcceptable
  | ReasonIOError => SalReasonServiceUnavailable
  | ReasonDoNotDisturb => SalReasonDoNotDisturb
  | ReasonUnauthorized => SalReasonUnauthorized
  | ReasonConditionalRequestFailed => SalReasonConditionalRequestFailed
  | ReasonUnsupportedContent => SalReasonUnsupportedContent
  | ReasonBadEvent => SalReasonBadEvent
  | ReasonNoMatch => SalReasonNoMatch
  | ReasonMovedPermanently => SalReasonMovedPermanently
  | ReasonGone => SalReasonGone
  | ReasonAddressIncomplete => SalReasonAddressIncomplete
  | ReasonNotImplemented => SalReasonNotImplemented
  | ReasonBadGateway => SalReasonBadGateway
  | ReasonSessionIntervalTooSmall => SalReasonSessionIntervalTooSmall
  | ReasonServerTimeout => SalReasonServerTimeout
  | ReasonNotAnswered => SalReasonRequestTimeout
  | ReasonTransferred => SalReasonNone
  | ReasonSasCheckRequired => SalReasonSasCheckRequired
  | ReasonUnknown => SalReasonUnknown
  end.

(** [LinphoneReasonBadCredentials] is another name of [LinphoneReasonForbidden]
    ([linphone/types.h]). *)
Definition linphone_reason_from_sal (r : SalReason) : LinphoneReason :=
  match r with
  | SalReasonNone => ReasonNone
  | SalReasonIOError => ReasonIOError
  | SalReasonUnknown | SalReasonInternalError => ReasonUnknown
  | SalReasonBusy => ReasonBusy
  | SalReasonDeclined => ReasonDeclined
  | SalReasonDoNotDisturb => ReasonDoNotDisturb
  | SalReasonForbidden => ReasonForbidden
  | SalReasonNotAcceptable => ReasonNotAcceptable
  | SalReasonNotFound => ReasonNotFound
  | SalReasonRedirect => ReasonNone
  | SalReasonTemporarilyUnavailable => ReasonTemporarilyUnavailable
  | SalReasonServiceUnavailable => ReasonIOError
  | SalReasonRequestPending => ReasonTemporarilyUnavailable
  | SalReasonUnauthorized => ReasonUnauthorized
  | SalReasonConditionalRequestFailed => ReasonConditionalRequestFailed
  | SalReasonUnsupportedContent => ReasonUnsupportedContent
  | SalReasonBadEvent => ReasonBadEvent
  | SalReasonNoMatch => ReasonNoMatch
  | SalReasonRequestTimeout => ReasonNotAnswered
  | SalReasonMovedPermanently => ReasonMovedPermanently
  | SalReasonGone => ReasonGone
  | SalReasonAddressIncomplete => ReasonAddressIncomplete
  | SalReasonNotImplemented => ReasonNotImplemented
  | SalReasonBadGateway => ReasonBadGateway
  | SalReasonSessionIntervalTooSmall => ReasonSessionIntervalTooSmall
  | SalReasonServerTimeout => ReasonServerTimeout
  | SalReasonSasCheckRequired => ReasonSasCheckRequired
  end.

(** ** SIP codes *)

Definition error_code_reason_map : list (Z * LinphoneReason) :=
  [(200, ReasonNone); (301, ReasonMovedPermanently); (400, ReasonUnknown);
   (401, ReasonUnauthorized); (403, ReasonForbidden); (404, ReasonNotFound); (410, ReasonGone);
   (412, ReasonConditionalRequestFailed); (415, ReasonUnsupportedContent);
   (480, ReasonTemporarilyUnavailable); (481, ReasonNoMatch); (484, ReasonAddressIncomplete);
   (486, ReasonBusy); (488, ReasonNotAcceptable); (489, ReasonBadEvent);
   (501, ReasonNotImplemented); (502, ReasonBadGateway); (503, ReasonIOError);
   (504, ReasonServerTimeout); (600, ReasonDoNotDisturb); (603, ReasonDeclined)].

Definition retry_after_code_reason_map : list (Z * LinphoneReason) :=
  [(404, ReasonNotFound); (480, ReasonTemporarilyUnavailable); (486, ReasonBusy);
   (503, ReasonIOError); (600, ReasonDoNotDisturb); (603, ReasonDeclined)].

Definition linphone_error_code_is_retry_after (err : Z) : bool :=
  existsb (fun entry => fst entry =? err) retry_after_code_reason_map.

Definition linphone_error_code_to_reason (err : Z) : LinphoneReason :=
  match find (fun entry => fst entry =? err) error_code_reason_map with
  | Some entry => snd entry
  | None => ReasonUnknown
  end.

Definition linphone_reason_to_error_code (reason : LinphoneReason) : Z :=
  match find (fun entry => bool_decide (snd entry = reason)) error_code_reason_map with
  | Some entry => fst entry
  | None => 400
  end.

Definition _sal_reason_from_sip_code (code : Z) : SalReason :=
  if (100 <=? code) && (code <? 300) then SalReasonNone else
  match code with
  | 0 => SalReasonIOError
  | 301 => SalReasonMovedPermanently
  | 302 => SalReasonRedirect
  | 401 | 407 => SalReasonUnauthorized
  | 403 => SalReasonForbidden
  | 404 => SalReasonNotFound
  | 408 => SalReasonRequestTimeout
  | 410 => SalReasonGone
  | 412 => SalReasonConditionalRequestFailed
  | 415 => SalReasonUnsupportedContent
  | 422 => SalReasonSessionIntervalTooSmall
  | 480 => SalReasonTemporarilyUnavailable
  | 481 => SalReasonNoMatch
  | 484 => SalReasonAddressIncomplete
  | 486 => SalReasonBusy
  | 487 => SalReasonNone
  | 488 => SalReasonNotAcceptable
  | 489 => SalReasonBadEvent
  | 491 => SalReasonRequestPending
  | 500 => SalReasonInternalError
  | 501 => SalReasonNotImplemented
  | 502 => SalReasonBadGateway
  | 503 => SalReasonServiceUnavailable
  | 504 => SalReasonServerTimeout
  | 600 => SalReasonDoNotDisturb
  | 603 => SalReasonDeclined
  | _ => SalReasonUnknown
  end.

Definition toSipCode (reason : SalReason) : Z :=
  match reason with
  | SalReasonNone => 200
  | SalReasonIOError => 503
  | SalReasonUnknown => 400
  | SalReasonBusy => 486
  | SalReasonDeclined => 603
  | SalReasonDoNotDisturb => 600
  | SalReasonForbidden => 403
  | SalReasonConditionalRequestFailed => 412
  | SalReasonUnsupportedContent => 415
  | SalReasonNotFound => 404
  | SalReasonRedirect => 302
  | SalReasonTemporarilyUnavailable => 480
  | SalReasonServiceUnavailable => 503
  | SalReasonRequestPending => 491
  | SalReasonUnauthorized => 401
  | SalReasonNotAcceptable => 488
  | SalReasonNoMatch => 481
  | SalReasonBadEvent => 489
  | SalReasonRequestTimeout => 408
  | SalReasonMovedPermanently => 301
  | SalReasonGone => 410
  | SalReasonAddressIncomplete => 484
  | SalReasonNotImplemented => 501
  | SalReasonServerTimeout => 504
  | SalReasonBadGateway => 502
  | SalReasonInternalError | SalReasonSessionIntervalTooSmall | SalReasonSasCheckRequired => 500
  end.

(** ** The structures *)

(** [struct SalErrorInfo] *)
Inductive SalErrorInfo := mkSalErrorInfo {
  sal_reason : SalReason;
  sal_status_string : option string;
  sal_protocol_code : Z;
  sal_warnings : option string;
  sal_protocol : option string;
  sal_full_string : option string;
  sal_retry_after : Z;
  sal_sub_sei : option SalErrorInfo;
}.

(** [struct _LinphoneErrorInfo] *)
Inductive ErrorInfo := mkErrorInfo {
  ei_reason : LinphoneReason;
  ei_protocol : option string;
  ei_protocol_code : Z;
  ei_phrase : option string;
  ei_warnings : option string;
  ei_full_string : option string;
  ei_retry_after : Z;
  ei_sub_ei : option ErrorInfo;
}.

#[global] Instance eta_ErrorInfo : Eta ErrorInfo := fun e =>
  mkErrorInfo (ei_reason e) (ei_protocol e) (ei_protocol_code e) (ei_phrase e) (ei_warnings e)
    (ei_full_string e) (ei_retry_after e) (ei_sub_ei e).

#[global] Instance eta_SalErrorInfo : Eta SalErrorInfo := fun e =>
  mkSalErrorInfo (sal_reason e) (sal_status_string e) (sal_protocol_code e) (sal_warnings e)
    (sal_protocol e) (sal_full_string e) (sal_retry_after e) (sal_sub_sei e).

(** [memset(&sei, 0, sizeof(sei))] *)
Definition zero_sei : SalErrorInfo := mkSalErrorInfo SalReasonNone None 0 None None None 0 None.

Definition linphone_error_info_new : ErrorInfo := mkErrorInfo ReasonNone None 0 None None None 0 None.

(** Resetting an object and making a new one give the same fields. *)
Definition linphone_error_info_reset (ei : ErrorInfo) : ErrorInfo := linphone_error_info_new.

(** [belle_sip_object_clone] makes a new object and calls this. *)
Definition error_info_clone (ei other : ErrorInfo) : ErrorInfo :=
  ei <| ei_reason := ei_reason other |> <| ei_protocol := ei_protocol other |>
    <| ei_phrase := ei_phrase other |> <| ei_warnings := ei_warnings other |>
    <| ei_full_string := ei_full_string other |> <| ei_protocol_code := ei_protocol_code other |>
    <| ei_retry_after := ei_retry_after other |>.

Definition linphone_error_info_clone (ei : ErrorInfo) : ErrorInfo :=
  error_info_clone linphone_error_info_new ei.

Definition linphone_error_info_set_reason (ei : ErrorInfo) (reason : LinphoneReason) : ErrorInfo :=
  ei <| ei_reason := reason |>.

Definition linphone_error_info_set (ei : ErrorInfo) (protocol : option string)
    (reason : LinphoneReason) (code : Z) (status_string warning : option string) : ErrorInfo :=
  (linphone_error_info_reset ei) <| ei_reason := reason |> <| ei_protocol_code := code |>
    <| ei_protocol := Some (default "SIP"%string protocol) |> <| ei_phrase := status_string |>
    <| ei_warnings := warning |>.

(** ** From the SAL to the application *)

Definition linphone_error_info_from_sal (ei : ErrorInfo) (sei : SalErrorInfo) : ErrorInfo :=
  ei <| ei_reason := linphone_reason_from_sal (sal_reason sei) |>
    <| ei_phrase := sal_status_string sei |> <| ei_full_string := sal_full_string sei |>
    <| ei_warnings := sal_warnings sei |> <| ei_protocol_code := sal_protocol_code sei |>
    <| ei_retry_after := sal_retry_after sei |> <| ei_protocol := sal_protocol sei |>.

(** A reason header gives a sub object when there is a primary error.  The
    sub object exists when it is written, since it was made just before. *)
Definition linphone_error_info_from_sal_reason_ei (ei : ErrorInfo) (reason_ei : SalErrorInfo)
    : ErrorInfo :=
  if bool_decide (ei_reason ei = ReasonNone)
  then linphone_error_info_from_sal (linphone_error_info_reset ei) reason_ei
  else
    if bool_decide (sal_reason reason_ei = SalReasonNone)
    then ei <| ei_sub_ei := None |>
    else
      let sub := default linphone_error_info_new (ei_sub_ei ei) in
      ei <| ei_sub_ei := Some (linphone_error_info_from_sal sub reason_ei) |>.

(** [op] is what the operation knows of its failure: its error information and
    the one of the Reason header. *)
Definition linphone_error_info_from_sal_op (ei : ErrorInfo)
    (op : option (SalErrorInfo * SalErrorInfo)) : ErrorInfo :=
  match op with
  | None => ei
  | Some (sei, reason_sei) =>
      linphone_error_info_from_sal_reason_ei
        (linphone_error_info_from_sal (linphone_error_info_reset ei) sei) reason_sei
  end.

(** ** From the application to the SAL *)

Definition linphone_error_info_fields_to_sal (ei : ErrorInfo) (sei : SalErrorInfo)
    : SalErrorInfo :=
  sei <| sal_reason := linphone_reason_to_sal (ei_reason ei) |>
    <| sal_status_string := ei_phrase ei |> <| sal_full_string := ei_full_string ei |>
    <| sal_warnings := ei_warnings ei |> <| sal_protocol_code := ei_protocol_code ei |>
    <| sal_retry_after := ei_retry_after ei |> <| sal_protocol := ei_protocol ei |>.

(** The sub object of [ei] is written where [sei->sub_sei] points: there is no
    result when this pointer is null. *)
Fixpoint linphone_error_info_to_sal (ei : ErrorInfo) (sei : SalErrorInfo) : option SalErrorInfo :=
  let sei := linphone_error_info_fields_to_sal ei sei in
  match ei_sub_ei ei with
  | None => Some sei
  | Some sub_ei =>
      sub_sei ← sal_sub_sei sei;
      sub_sei ← linphone_error_info_to_sal sub_ei sub_sei;
      Some (sei <| sal_sub_sei := Some sub_sei |>)
  end.

(** ** Errors of the SAL *)

Definition sal_error_info_reset (ei : SalErrorInfo) : SalErrorInfo :=
  ei <| sal_status_string := None |> <| sal_warnings := None |> <| sal_full_string := None |>
    <| sal_protocol := None |> <| sal_protocol_code := 0 |> <| sal_reason := SalReasonNone |>
    <| sal_sub_sei := None |>.

(** [strcmp] reads [protocol] only when the reason is unknown: with a null
    [protocol] there is then no result. *)
Definition sal_error_info_set (ei : SalErrorInfo) (reason : SalReason) (protocol : option string)
    (code : Z) (status_string warning : option string) : option SalErrorInfo :=
  let ei := sal_error_info_reset ei in
  let full :=
    match status_string, warning with
    | Some s, Some w => Some (s +:+ " " +:+ w)
    | Some s, None => Some s
    | None, _ => None
    end in
  let fill reason code :=
    ei <| sal_reason := reason |> <| sal_protocol_code := code |>
      <| sal_status_string := status_string |> <| sal_warnings := warning |>
      <| sal_protocol := protocol |>
      <| sal_full_string := full |> in
  let plain := fill reason (if code =? 0 then toSipCode reason else code) in
  if bool_decide (reason = SalReasonUnknown) then
    p ← protocol;
    Some (if String.eqb p "SIP" && negb (code =? 0)
          then fill (_sal_reason_from_sip_code code) code else plain)
  else Some plain.

(** ** What survives a conversion *)

Lemma reason_survives_sal r :
  linphone_reason_from_sal (linphone_reason_to_sal r) =
  match r with ReasonNoResponse => ReasonNotAnswered | ReasonTransferred => ReasonNone | _ => r end.
Proof. by destruct r. Qed.

Lemma sal_reason_survives_sip r :
  _sal_reason_from_sip_code (toSipCode r) =
  match r with
  | SalReasonIOError => SalReasonServiceUnavailable
  | SalReasonSessionIntervalTooSmall | SalReasonSasCheckRequired => SalReasonInternalError
  | _ => r
  end.
Proof. by destruct r. Qed.

Lemma error_code_roundtrip code :
  In code (map fst error_code_reason_map) ->
  linphone_reason_to_error_code (linphone_error_code_to_reason code) = code.
Proof. cbn [map fst error_code_reason_map]. intros H. repeat (destruct H as [<-|H]; [by vm_compute|]); done. Qed.

(** The sub objects below an error, and the sub structures that can receive them. *)
Fixpoint ei_depth (ei : ErrorInfo) : nat :=
  match ei_sub_ei ei with None => 0 | Some sub => S (ei_depth sub) end.

Fixpoint sei_depth (sei : SalErrorInfo) : nat :=
  match sal_sub_sei sei with None => 0 | Some sub => S (sei_depth sub) end.

Fixpoint to_sal_defined (ei : ErrorInfo) :
  forall sei, is_Some (linphone_error_info_to_sal ei sei) <-> (ei_depth ei <= sei_depth sei)%nat.
Proof.
  destruct ei as [r p c ph wa fu ra sub]. intros [r' st c' wa' p' fu' ra' sub'].
  destruct sub as [sub|]; cbn.
  - destruct sub' as [sub'|]; cbn.
    + pose proof (to_sal_defined sub sub') as IH. split.
      * intros [x Hx]. destruct (linphone_error_info_to_sal sub sub') eqn:E; [|discriminate].
        assert (ei_depth sub <= sei_depth sub')%nat by (apply IH; eauto). lia.
      * intros Hle. destruct (proj2 IH ltac:(lia)) as [x Hx]. rewrite Hx. cbn. eauto.
    + split; [intros [x Hx]; discriminate|lia].
  - split; [lia|eauto].
Qed.
