(* ===== verification/CallSessionTypes.v ===== *)
(** * The data of a call session ([conference/session/call-session.h],
    [call-session-p.h], [linphone/types.h])

    The state of one [CallSession], what it tells and calls (an event), what may
    be called on it (an entry), and the interface of what it relies on: the SIP
    operation, the core, the accounts, its listeners. *)
From S2P Require Import Prelude Effects LpConfig LpConfigValues ChatTypes ErrorInfo.

(** ** States *)

(** [CallSession::State]; [End_] is [State::End]. *)
Inductive CallState :=
  | Idle | IncomingReceived | PushIncomingReceived | OutgoingInit | OutgoingProgress
  | OutgoingRinging | OutgoingEarlyMedia | Connected | StreamsRunning | Pausing | Paused
  | Resuming | Referred | Error | End_ | PausedByRemote | UpdatedByRemote | IncomingEarlyMedia
  | Updating | Released | EarlyUpdatedByRemote | EarlyUpdating.

#[export] Instance CallState_eq_dec : EqDecision CallState.
Proof. solve_decision. Defined.

Definition state_eqb (a b : CallState) : bool := bool_decide (a = b).

(** [Utils::toString] of a state prints it with this. *)
Definition linphone_call_state_to_string (cs : CallState) : string :=
  match cs with
  | Idle => "LinphoneCallIdle"
  | IncomingReceived => "LinphoneCallIncomingReceived"
  | PushIncomingReceived => "LinphoneCallPushIncomingReceived"
  | OutgoingInit => "LinphoneCallOutgoingInit"
  | OutgoingProgress => "LinphoneCallOutgoingProgress"
  | OutgoingRinging => "LinphoneCallOutgoingRinging"
  | OutgoingEarlyMedia => "LinphoneCallOutgoingEarlyMedia"
  | Connected => "LinphoneCallConnected"
  | StreamsRunning => "LinphoneCallStreamsRunning"
  | Pausing => "LinphoneCallPausing"
  | Paused => "LinphoneCallPaused"
  | Resuming => "LinphoneCallResuming"
  | Referred => "LinphoneCallRefered"
  | Error => "LinphoneCallError"
  | End_ => "LinphoneCallEnd"
  | PausedByRemote => "LinphoneCallPausedByRemote"
  | UpdatedByRemote => "LinphoneCallUpdatedByRemote"
  | IncomingEarlyMedia => "LinphoneCallIncomingEarlyMedia"
  | Updating => "LinphoneCallUpdating"
  | EarlyUpdating => "LinphoneCallEarlyUpdating"
  | Released => "LinphoneCallReleased"
  | EarlyUpdatedByRemote => "LinphoneCallEarlyUpdatedByRemote"
  end.

Definition isEarlyState (s : CallState) : bool :=
  match s with
  | Idle | OutgoingInit | OutgoingEarlyMedia | OutgoingRinging | OutgoingProgress
  | IncomingReceived | PushIncomingReceived | IncomingEarlyMedia | EarlyUpdatedByRemote
  | EarlyUpdating => true
  | _ => false
  end.

Inductive LinphoneCallDir := LinphoneCallOutgoing | LinphoneCallIncoming.

#[export] Instance LinphoneCallDir_eq_dec : EqDecision LinphoneCallDir.
Proof. solve_decision. Defined.

Inductive LinphoneCallStatus :=
  | LinphoneCallSuccess | LinphoneCallAborted | LinphoneCallMissed | LinphoneCallDeclined
  | LinphoneCallEarlyAborted | LinphoneCallAcceptedElsewhere | LinphoneCallDeclinedElsewhere.

#[export] Instance LinphoneCallStatus_eq_dec : EqDecision LinphoneCallStatus.
Proof. solve_decision. Defined.

(** [CallSession::UpdateMethod] *)
Inductive UpdateMethod := DefaultMethod | InviteMethod | UpdateMethod_.

#[export] Instance UpdateMethod_eq_dec : EqDecision UpdateMethod.
Proof. solve_decision. Defined.

(** The conversion [(int)] of a wider integer. *)
Definition to_int (z : Z) : Z := (z + 2 ^ 31) mod 2 ^ 32 - 2 ^ 31.

Lemma to_int_small z : - 2 ^ 31 <= z < 2 ^ 31 -> to_int z = z.
Proof. intros H. unfold to_int. rewrite Z.mod_small; lia. Qed.

(** ** Records *)

Section Types.
Context `{AddressLib}.

(** The members of [CallLog] a session writes or reads. *)
Record CallLog := mkCallLog {
  log_direction : LinphoneCallDir;
  log_status : LinphoneCallStatus;
  log_from : Address;
  log_to : Address;
  log_startTime : Z;
  log_connectedTime : Z;
  log_duration : Z;
  log_callId : string;
  log_errorInfo : option ErrorInfo;
  log_conferenceUri : option Address;
}.

#[global] Instance eta_CallLog : Eta CallLog := fun l =>
  mkCallLog (log_direction l) (log_status l) (log_from l) (log_to l) (log_startTime l)
    (log_connectedTime l) (log_duration l) (log_callId l) (log_errorInfo l) (log_conferenceUri l).

(** [CallLog::CallLog] *)
Definition CallLog_create (now : Z) (dir : LinphoneCallDir) (from to : Address) : CallLog :=
  mkCallLog dir LinphoneCallAborted from to now 0 0 "" None None.

(** The parameters the session uses; [cp_privacy] is [None] for the default. *)
Record CallSessionParams := mkParams {
  cp_inConference : bool;
  cp_internalCallUpdate : bool;
  cp_noUserConsent : bool;
  cp_conferenceCreation : bool;
  cp_capabilityNegotiation : bool;
  cp_endTime : Z;
  cp_privacy : option Z;
  cp_referer : option nat;
  cp_customHeaders : list (string * string);
  cp_customContents : list string;
  cp_account : option nat;
}.

#[global] Instance eta_CallSessionParams : Eta CallSessionParams := fun p =>
  mkParams (cp_inConference p) (cp_internalCallUpdate p) (cp_noUserConsent p)
    (cp_conferenceCreation p) (cp_capabilityNegotiation p) (cp_endTime p) (cp_privacy p)
    (cp_referer p) (cp_customHeaders p) (cp_customContents p) (cp_account p).

(** The members of [CallSessionPrivate] and [CallSession].  Operations, accounts,
    listeners, other sessions and pending actions are objects, told apart by a
    number; the current parameters are their privacy and their account. *)
Record Session := mkSession {
  listeners : list nat;
  params : option CallSessionParams;
  currentPrivacy : Z;
  currentAccount : option nat;
  subject : string;
  direction : LinphoneCallDir;
  state : CallState;
  messageState : string;
  prevState : CallState;
  prevMessageState : string;
  lastStableState : CallState;
  lastStableMessageState : string;
  transferState : CallState;
  account : option nat;
  ei : ErrorInfo;
  log : CallLog;
  referToAddress : option Address;
  op : option nat;
  pingOp : option nat;
  pingReplied : bool;
  referer : option nat;
  transferTarget : option nat;
  broken : bool;
  deferIncomingNotification : bool;
  deferUpdate : bool;
  deferUpdateInternal : bool;
  needLocalIpRefresh : bool;
  nonOpError : bool;
  notifyRinging : bool;
  referPending : bool;
  reinviteOnCancelResponseRequested : bool;
  pendingActions : list nat;
  mIsAccepting : bool;
}.

#[global] Instance eta_Session : Eta Session := fun s =>
  mkSession (listeners s) (params s) (currentPrivacy s) (currentAccount s) (subject s)
    (direction s) (state s) (messageState s) (prevState s) (prevMessageState s)
    (lastStableState s) (lastStableMessageState s) (transferState s) (account s) (ei s) (log s)
    (referToAddress s) (op s) (pingOp s) (pingReplied s) (referer s) (transferTarget s)
    (broken s) (deferIncomingNotification s) (deferUpdate s) (deferUpdateInternal s)
    (needLocalIpRefresh s) (nonOpError s) (notifyRinging s) (referPending s)
    (reinviteOnCancelResponseRequested s) (pendingActions s) (mIsAccepting s).

(** ** Events *)

(** What a listener is told ([CallSessionListener]). *)
Inductive Told :=
  | OnStateChanged (s : CallState) (message : string)
  | OnTransferStateChanged (s : CallState)
  | OnSetTerminated | OnSetReleased
  | OnAckBeingSent | OnAckReceived | OnInfoReceived
  | OnStartRingtone | OnIncomingNotified | OnIncomingStarted
  | OnAccepting | OnCheckForAcceptation
  | OnBackgroundTaskToBeStarted | OnBackgroundTaskToBeStopped
  | OnIncomingTimeoutCheck (elapsed : Z) (oneSecondElapsed : bool)
  | OnPushTimeoutCheck (elapsed : Z).

(** What is called on an operation ([SalCallOp], [SalOp]). *)
Inductive OpCall :=
  | OpAccept
  | OpTerminate (sei : option SalErrorInfo)
  | OpDecline (reason : SalReason)
  | OpReplyWithErrorInfo (sei : SalErrorInfo) (redirection : option Address) (expire : Z)
  | OpCall_ (from to : Address) (subject : string)
  | OpUpdate (subject : string) (noUserConsent : bool)
  | OpCancelInvite
  | OpNotifyRinging (earlyMedia : bool)
  | OpKillDialog
  | OpRelease
  | OpSetUserPointer (mine : bool)
  | OpSetLocalBodies (bodies : list string)
  | OpAddLocalBody (body : string)
  | OpSetContactAddress (contact : option Address)
  | OpSetReplaces (callId fromTag toTag : string)
  | OpResetRetryFunction
  | OpRefer (to : Address)
  | OpReferWithReplaces (other : option nat)
  | OpNotifyReferState (newOp : option nat)
  | OpSetReferrer (other : option nat)
  | OpSetPrivacy (privacy : Z)
  | OpSetSentCustomHeaders (headers : list (string * string))
  | OpEnableCapabilityNegotiation (enabled : bool)
  | OpEnableCnxIpTo0000IfSendOnly (enabled : bool)
  | OpCopyLocalMediaDescription (from : nat)
  | OpConfigure (to : Address) (account : option nat)
  | OpSetRouteAddress
  | OpPing (from to : Address)
  | OpPingBack.

(** Everything the session does outside of its own members.  [Moving] is the
    line it logs when it changes its state; [Fatal] a line of [lFatal]. *)
Inductive Event :=
  | Tell (listener : nat) (t : Told)
  | OnOp (op : nat) (c : OpCall)
  | Moving (from to : CallState)
  | Fatal
  | CreateOp (op : nat)
  | ReportConferenceEvent (ended connected : bool)
  | InsertConferenceInfo (uri : Address)
  | UpdateCallLog
  | CountMissedCall (account : option nat)
  | TerminateSession (other : nat)
  | RunAction (action : nat)
  | DoLater.

(** ** Entries *)

(** What the application, the core and the SAL call on a session.  A callback of
    the SAL names its operation, through whose user pointer the session is found. *)
Inductive Entry :=
  (* [coreapi/callbacks.c] *)
  | CallRinging (op : nat)
  | CallAccepted (op : nat)
  | CallRefreshed (op : nat)
  | CallRefreshing (op : nat)
  | CallUpdating (op : nat) (isUpdate : bool)
  | CallAckReceived (op : nat)
  | CallAckBeingSent (op : nat)
  | CallTerminated (op : nat)
  | CallFailure (op : nat)
  | CallReleased (op : nat)
  | CallCancelDone (op : nat)
  | CallReferReceived (op : nat) (referTo : option Address)
  | CallInfoReceived (op : nat)
  | PingReply (pingOp : nat)
  (* the core *)
  | NetworkReachable (sipNetworkReachable : bool)
  | RegistrationStateChanged (account : option nat) (ok : bool)
  | CallStateChanged
  | ExecutePendingActions
  | ReplaceOp (newOp : nat)
  | Iterate (currentRealTime : Z) (oneSecondElapsed : bool)
  | StartIncomingNotification (notifyRinging : bool)
  | StartPushIncomingNotification
  | CreateOperation
  | InitiateOutgoing
  | StartInvite (destination : option Address) (subject : string) (content : option string)
  | SetTransferState (s : CallState)
  | Abort_ (message : string)
  (* the application *)
  | Accept (csp : option CallSessionParams)
  | Accepting
  | AcceptUpdate (csp : option CallSessionParams)
  | Decline (reason : LinphoneReason)
  | DeclineWithInfo (ei : option ErrorInfo)
  | DeclineNotAnswered (reason : LinphoneReason)
  | DeferUpdate
  | Redirect (to : Address)
  | Terminate (ei : option ErrorInfo)
  | TransferTo (to : Address)
  | Transfer (dest : nat)
  | Update_ (csp : option CallSessionParams) (method : UpdateMethod) (subject : string)
      (content : option string)
  | SetStateToEnded
  | AddListener (l : nat)
  | RemoveListener (l : nat)
  | ClearListeners
  | AddPendingAction (action : nat).

(** ** The world

    The session, the operations made so far, the ones whose user pointer is this
    session, the ones whose user pointer is its private part, and everything done,
    last first. *)
Record World := mkWorld {
  ses : Session;
  nextOp : nat;
  bound : list nat;
  bound_private : list nat;
  history : list Event;
}.

#[global] Instance eta_World : Eta World := fun w =>
  mkWorld (ses w) (nextOp w) (bound w) (bound_private w) (history w).

(** ** What a session relies on *)

(** What the session reads of an operation: [ov_replaces] is [getReplaces()], and
    the session its user pointer is, with its state. *)
Record OpView := {
  ov_hasDialog : bool;
  ov_hasRetryFunction : bool;
  ov_dialogRequestPending : bool;
  ov_errorInfo : SalErrorInfo;
  ov_reasonErrorInfo : SalErrorInfo;
  ov_replaces : option (option (nat * CallState));
  ov_remoteContactAddress : option Address;
  ov_remoteContactIsFocus : bool;
  ov_contactAddress : option Address;
  ov_requestAddress : Address;
  ov_to : Address;
  ov_from : Address;
  ov_toHasConfId : bool;
  ov_localTag : string;
  ov_remoteTag : string;
  ov_callId : string;
  ov_privacy : Z;
  ov_localBodies : list string;
  ov_localSdp : bool;
  ov_remoteSdp : bool;
  ov_assertedIdentity : option string;
}.

(** What it reads of the core, its configuration included. *)
Record CoreView := {
  cv_config : LpConfig;
  cv_alive : bool;
  cv_now : Z;
  cv_networkReachable : bool;
  cv_mediaNetworkState : bool;
  cv_pingWithOptions : bool;
  cv_autoSendRinging : bool;
  cv_conferenceServer : bool;
  cv_capabilityNegotiation : bool;
  cv_hasDb : bool;
  cv_delayed_timeout : Z;
  cv_in_call_timeout : Z;
  cv_primaryContact : option Address;
  cv_identity : Address;
}.

Record AccountView := {
  av_contactAddress : option Address;
  av_hasOp : bool;
  av_opContactAddress : option Address;
  av_hasDependency : bool;
  av_registerEnabled : bool;
  av_registrationOk : bool;
  av_identityAddress : Address;
}.

(** The surroundings of a session.  All may depend on everything that was done;
    [react] is what is called on the session, in order, before an event returns:
    a listener or an operation may call the session again. *)
Class Environment := {
  view_op : World -> nat -> OpView;
  view_core : World -> CoreView;
  view_account : World -> nat -> AccountView;
  (** The result of a call on an operation, and of a pending action. *)
  op_result : World -> nat -> OpCall -> Z;
  action_result : World -> nat -> Z;
  listener_alive : World -> nat -> bool;
  react : World -> Event -> list Entry;
  (** Whether [lFatal] ends the program. *)
  fatal_aborts : bool;
  (** The operation of another session. *)
  session_op : World -> nat -> option nat;
  (** [Core::getCallByCallId] *)
  call_by_call_id : World -> string -> bool;
  (** The conference of the core a server operation is for, as a listener. *)
  server_conference : World -> nat -> option nat;
  (** The URI in [Utils::createConferenceInfoFromOp]. *)
  conference_uri_of_op : World -> nat -> Address;
  (** [Core::findConference] of the session. *)
  session_has_conference : World -> bool;
  (** The conference the events of the call are for: whether it is created, and
      whether it supports media. *)
  reported_conference : World -> option (bool * bool);
  (** The address of the conference of a session whose contact is the argument. *)
  conference_contact : World -> Address -> option Address;
  (** [Address::merge], and the addresses a session rewrites. *)
  address_merge : Address -> Address -> Address;
  with_contact_parameters : CallSessionParams -> Address -> Address;
  without_local_ip : Address -> Address;
  (** The accounts of the core. *)
  account_by_factory : World -> Address -> option nat;
  account_by_identity : World -> Address -> option nat;
  account_of_identity : World -> Address -> option nat;
  guess_account : World -> Address -> Address -> option nat;
}.

(** ** Running a session *)

#[local] Notation M := (Eff World).

(** Reading the session, and writing its members. *)
Definition gets {A} (f : Session -> A) : M A := fun w => Finished (f (ses w)) w.
Definition modify (f : Session -> Session) : M unit := fun w =>
  Finished tt (w <| ses := f (ses w) |>).

Definition record_event (e : Event) (w : World) : World := w <| history := e :: history w |>.

(** [lFatal() << ...;] *)
Definition fatal `{Environment} : M unit := fun w =>
  let w := record_event Fatal w in
  if fatal_aborts then Stopped Aborted w else Finished tt w.

(** What is written in the log. *)
Definition log_line (e : Event) : M unit := fun w => Finished tt (record_event e w).

(** The members of the world that follow the operations. *)
Definition fresh_op : M nat := fun w =>
  Finished (nextOp w) (w <| nextOp := S (nextOp w) |>).
Definition bind_op (o : nat) : M unit := fun w => Finished tt (w <| bound := o :: bound w |>).
Definition new_op : M nat := o ← fresh_op; bind_op o ;; mret o.
Definition bind_private (o : nat) : M unit := fun w =>
  Finished tt (w <| bound_private := o :: bound_private w |>).
Definition unbind_op (o : nat) : M unit := fun w =>
  Finished tt (w <| bound := filter (.≠ o) (bound w) |>).

End Types.

Notation M := (Eff World).
