(* ===== verification/CallSession.v ===== *)
(** * A call session ([conference/session/call-session.cpp], and the callbacks
    of [coreapi/callbacks.c] that reach it)

    Every operation of [CallSession] and [CallSessionPrivate], for a session of
    that class itself, as those of the participants of chat rooms are.  What is
    done outside of the session is an event: [raise] stands for it and for all
    that is called on the session before it returns.  [perform] ties the knot. *)
From S2P Require Import Prelude Effects LpConfig LpConfigValues ChatTypes ErrorInfo CallSessionTypes.

Section Ops.
Context `{AddressLib} `{!Environment}.
Variable raise : Event -> M unit.

(** ** Reading and calling *)

Definition core {A} (f : CoreView -> A) : M A := asks (fun w => f (view_core w)).
Definition of_op {A} (o : nat) (f : OpView -> A) : M A := asks (fun w => f (view_op w o)).
Definition config_int (section key : string) (default_value : Z) : M Z :=
  core (fun c => linphone_config_get_int (cv_config c) section key default_value).
(** [linphone_config_get_default_int] on a section whose name fits its buffer. *)
Definition config_default_int (section key : string) (default_value : Z) : M Z :=
  config_int (section +:+ DEFAULT_VALUES_SUFFIX) key default_value.

(** [d->op->call(...)] and its result. *)
Definition on_op (o : nat) (c : OpCall) : M Z := raise (OnOp o c) ;; asks (fun w => op_result w o c).
Definition the_op : M nat := o ← gets op; the o.
Definition op_do (c : OpCall) : M Z := o ← the_op; on_op o c.

(** [SalOp::release] forgets the user pointer first. *)
Definition op_release (o : nat) : M unit := unbind_op o ;; on_op o OpRelease ;; mret tt.

(** The listeners are copied before they are called. *)
Definition notify (t : Told) : M unit :=
  ls ← gets listeners;
  for_each ls (fun l =>
    alive ← asks (fun w => listener_alive w l);
    when alive do raise (Tell l t)).

Definition the_params : M CallSessionParams := p ← gets params; the p.
Definition modify_log (f : CallLog -> CallLog) : M unit := modify (fun s => s <| log := f (log s) |>).

Definition updateCallLog : M unit := db ← core cv_hasDb; when db do raise UpdateCallLog.

(** ** Reading the session *)

Definition op_errors : M (option (SalErrorInfo * SalErrorInfo)) :=
  o ← gets op;
  match o with
  | None => mret None
  | Some o => of_op o (fun v => Some (ov_errorInfo v, ov_reasonErrorInfo v))
  end.

Definition getErrorInfo : M ErrorInfo :=
  nonOp ← gets nonOpError;
  when (negb nonOp) do (
    errors ← op_errors;
    modify (fun s => s <| ei := linphone_error_info_from_sal_op (ei s) errors |>)) ;;
  gets ei.

Definition getReason : M LinphoneReason := e ← getErrorInfo; mret (ei_reason e).

Definition computeDuration : M Z :=
  l ← gets log;
  now ← core cv_now;
  mret (if log_connectedTime l =? 0
        then if log_startTime l =? 0 then 0 else to_int (now - log_startTime l)
        else to_int (now - log_connectedTime l)).

Definition getDuration : M Z :=
  st ← gets state;
  match st with
  | End_ | Error | Released => l ← gets log; mret (log_duration l)
  | _ => computeDuration
  end.

Definition sdpFoundInRemoteBody : M bool :=
  o ← gets op; match o with None => mret false | Some o => of_op o ov_remoteSdp end.
Definition sdpFoundInLocalBody : M bool :=
  o ← gets op; match o with None => mret false | Some o => of_op o ov_localSdp end.

Definition isCapabilityNegotiationEnabled : M bool :=
  p ← gets params;
  match p with
  | Some p => mret (cp_capabilityNegotiation p)
  | None => core cv_capabilityNegotiation
  end.

Definition getLocalAddress : M Address :=
  s ← gets (fun s => s);
  mret (if bool_decide (direction s = LinphoneCallIncoming) then log_to (log s) else log_from (log s)).
Definition getRemoteAddress : M Address :=
  s ← gets (fun s => s);
  mret (if bool_decide (direction s = LinphoneCallIncoming) then log_from (log s) else log_to (log s)).

Definition isInConference : M bool := p ← the_params; mret (cp_inConference p).

Definition isReadyForInvite : M bool :=
  s ← gets (fun s => s);
  mret (if pingOp s is Some _ then pingReplied s else true).

Definition reportEvents : M bool :=
  p ← the_params;
  conference ← asks reported_conference;
  mret (negb (cp_conferenceCreation p) &&
        match conference with None => true | Some (created, media) => created && media end).

(** ** Listeners *)

Definition addListener (l : nat) : M unit :=
  modify (fun s => if bool_decide (l ∈ listeners s) then s else s <| listeners := listeners s ++ [l] |>).

Fixpoint erase_first (l : nat) (ls : list nat) : list nat :=
  match ls with
  | [] => []
  | x :: ls' => if Nat.eqb x l then ls' else x :: erase_first l ls'
  end.

Definition removeListener (l : nat) : M unit :=
  modify (fun s => s <| listeners := erase_first l (listeners s) |>).

Definition clearListeners : M unit := modify (fun s => s <| listeners := [] |>).

(** ** The state *)

(** The status of the call log when the call ends. *)
Definition ended_status (reason : LinphoneReason) (code : Z) (l : CallLog) : LinphoneCallStatus :=
  let incoming := bool_decide (log_direction l = LinphoneCallIncoming) in
  match reason with
  | ReasonDeclined =>
      if bool_decide (log_status l = LinphoneCallMissed) then log_status l else LinphoneCallDeclined
  | ReasonNotAnswered => if incoming then LinphoneCallMissed else log_status l
  | ReasonNone =>
      if incoming then
        if (200 <=? code) && (code <? 300) then LinphoneCallAcceptedElsewhere
        else if code =? 487 then LinphoneCallMissed else log_status l
      else log_status l
  | ReasonDoNotDisturb =>
      if incoming then
        if (600 <=? code) && (code <? 700) then LinphoneCallDeclinedElsewhere else log_status l
      else log_status l
  | _ => log_status l
  end.

(** An incoming call of a conference of the core. *)
Definition enter_IncomingReceived : M unit :=
  o ← gets op;
  match o with
  | None => mret tt
  | Some o =>
      callId ← of_op o ov_callId;
      call ← asks (fun w => call_by_call_id w callId);
      when call do (
        conf ← of_op o ov_toHasConfId;
        if conf : bool then
          conference ← asks (fun w => server_conference w o);
          match conference with Some l => addListener l | None => mret tt end
        else
          contact ← of_op o ov_remoteContactAddress;
          focus ← of_op o ov_remoteContactIsFocus;
          when (bool_decide (contact <> None) && focus) do (
            uri ← asks (fun w => conference_uri_of_op w o);
            when (address_isValid uri) do (
              db ← core cv_hasDb;
              (when db do raise (InsertConferenceInfo uri)) ;;
              modify_log (fun l => l <| log_conferenceUri := Some uri |>))))
  end.

Definition enter_state (newState : CallState) : M unit :=
  match newState with
  | IncomingReceived => enter_IncomingReceived
  | End_ | Error =>
      reason ← getReason;
      modify (fun s => s <| log := (log s) <| log_status :=
        ended_status reason (ei_protocol_code (ei s)) (log s) |> |>)
  | Connected =>
      now ← core cv_now;
      modify_log (fun l => l <| log_status := LinphoneCallSuccess |> <| log_connectedTime := now |>) ;;
      remote ← sdpFoundInRemoteBody;
      found ← (if remote : bool then mret true else sdpFoundInLocalBody);
      when found do (report ← reportEvents; when report do raise (ReportConferenceEvent false true))
  | _ => mret tt
  end.

Definition completeLog : M unit :=
  l ← gets log;
  duration ← (if log_connectedTime l =? 0 then mret 0 else computeDuration);
  modify (fun s => s <| log := (log s) <| log_duration := duration |>
                       <| log_errorInfo := Some (linphone_error_info_clone (ei s)) |> |>) ;;
  l ← gets log;
  a ← gets account;
  (when (bool_decide (log_status l = LinphoneCallMissed)) do raise (CountMissedCall a)) ;;
  report ← reportEvents;
  when report do raise (ReportConferenceEvent true false).

Definition setTerminated : M unit := completeLog ;; notify OnSetTerminated.

Definition setReleased : M unit :=
  o ← gets op;
  match o with
  | None => mret tt
  | Some o =>
      nonOp ← gets nonOpError;
      errors ← op_errors;
      (when (negb nonOp) do
         modify (fun s => s <| ei := linphone_error_info_from_sal_op (ei s) errors |>)) ;;
      op_release o ;;
      modify (fun s => s <| op := None |>)
  end ;;
  modify (fun s => s <| referer := None |> <| transferTarget := None |> <| pendingActions := [] |>) ;;
  notify OnSetReleased.

Definition is_final (s : CallState) : bool := match s with End_ | Error => true | _ => false end.

(** The transitions the sanity checks refuse, [prev] being the member the
    change has just written. *)
Definition abnormal (old new prev : CallState) : bool :=
  if is_final old then negb (state_eqb new Released)
  else state_eqb new Released && negb (state_eqb prev Error) && negb (state_eqb prev End_).

Definition leave_state (s : Session) : Session :=
  let s := s <| prevState := state s |> <| prevMessageState := messageState s |> in
  match state s with
  | StreamsRunning | Paused =>
      s <| lastStableState := state s |> <| lastStableMessageState := messageState s |>
  | _ => s
  end.

Definition setState (newState : CallState) (message : string) : M unit :=
  old ← gets state;
  if state_eqb old newState then mret tt
  else
    modify leave_state ;;
    prev ← gets prevState;
    if abnormal old newState prev then fatal
    else
      log_line (Moving old newState) ;;
      (when (negb (state_eqb newState Referred)) do
         modify (fun s => s <| state := newState |> <| messageState := message |>)) ;;
      enter_state newState ;;
      (when (is_final newState) do setTerminated) ;;
      notify (OnStateChanged newState message) ;;
      when (state_eqb newState Released) do setReleased.

Definition restorePreviousState : M unit :=
  s ← gets (fun s => s); setState (prevState s) (prevMessageState s).

Definition setStateToEnded : M unit := setState End_ "Call ended".

Definition abort (errorMsg : string) : M unit := op_do (OpTerminate None) ;; setState Error errorMsg.

(** ** Contact addresses *)

Definition of_account {A} (a : nat) (f : AccountView -> A) : M A :=
  asks (fun w => f (view_account w a)).

(** The contact address the account gives, if it may be used. *)
Definition account_contact (a : nat) : M (option Address) :=
  addr ← of_account a av_contactAddress;
  hasOp ← of_account a av_hasOp;
  dependency ← of_account a av_hasDependency;
  server ← core cv_conferenceServer;
  mret (if hasOp || dependency || server then addr else None).

Definition contact_of_op (o : option nat) : M (option Address) :=
  match o with None => mret None | Some o => of_op o ov_contactAddress end.

Definition getFixedContact : M (option Address) :=
  o ← gets op;
  fixed ← contact_of_op o;
  p ← gets pingOp;
  pinged ← contact_of_op p;
  a ← gets account;
  guessed ← match a with None => mret None | Some a => account_contact a end;
  primary ← core cv_primaryContact;
  mret (match fixed, pinged, guessed with
        | Some addr, _, _ => Some addr
        | None, Some addr, _ => Some addr
        | None, None, Some addr => Some addr
        | None, None, None => without_local_ip <$> primary
        end).

(** The address of the conference of the session takes the place of its contact. *)
Definition contact_in_conference (contact : Address) : M Address :=
  the_op ;;
  conference ← asks (fun w => conference_contact w contact);
  mret (match conference with
        | Some c =>
            if address_isValid c
            then if address_isValid contact then address_merge c contact else c
            else contact
        | None => contact
        end).

Definition setContactOp : M unit :=
  contact ← getFixedContact;
  match contact with
  | Some c =>
      when (address_isValid c) do (
        p ← the_params;
        let c := with_contact_parameters p c in
        c ← (if cp_inConference p then contact_in_conference c else mret c);
        op_do (OpSetContactAddress (Some c)) ;; mret tt)
  | None => mret tt
  end.

Definition refreshContactAddress : M unit :=
  o ← gets op;
  match o with
  | None => mret tt
  | Some o =>
      a ← gets account;
      contact ← match a with
                | None => mret no_address
                | Some a =>
                    hasOp ← of_account a av_hasOp;
                    opContact ← of_account a av_opContactAddress;
                    own ← of_account a av_contactAddress;
                    server ← core cv_conferenceServer;
                    mret (if hasOp : bool then default no_address opContact
                          else if server : bool then default no_address own else no_address)
                end;
      contact ← (if address_isValid contact && bool_decide (a <> None)
                 then p ← the_params; mret (with_contact_parameters p contact)
                 else mret contact);
      on_op o (OpSetContactAddress (if address_isValid contact then Some contact else None)) ;;
      mret tt
  end.

Definition updateContactAddressInOp : M unit :=
  a ← gets account;
  o ← gets op;
  fixed ← contact_of_op o;
  contact ← match a with
            | Some a =>
                hasOp ← of_account a av_hasOp;
                opContact ← of_account a av_opContactAddress;
                own ← of_account a av_contactAddress;
                server ← core cv_conferenceServer;
                mret (match hasOp, opContact with
                      | true, Some c => c
                      | _, _ => if server : bool then default no_address own else no_address
                      end)
            | None =>
                match fixed with Some c => mret c | None => core cv_identity end
            end;
  p ← the_params;
  match o with
  | None => mret tt
  | Some o => on_op o (OpSetContactAddress (Some (with_contact_parameters p contact))) ;; mret tt
  end.

(** ** Operations of the SIP dialog *)

Definition setParams (csp : CallSessionParams) : M unit := modify (fun s => s <| params := Some csp |>).

Definition createOpTo (to : Address) : M unit :=
  old ← gets op;
  match old with None => mret tt | Some old => op_release old end ;;
  o ← new_op;
  log_line (CreateOp o) ;;
  modify (fun s => s <| op := Some o |>) ;;
  p ← the_params;
  match cp_referer p with
  | None => mret tt
  | Some r => ro ← asks (fun w => session_op w r); on_op o (OpSetReferrer ro) ;; mret tt
  end ;;
  a ← gets account;
  on_op o (OpConfigure to a) ;;
  match cp_privacy p with
  | None => mret tt
  | Some privacy => on_op o (OpSetPrivacy privacy) ;; mret tt
  end.

Definition createOp : M unit := l ← gets log; createOpTo (log_to l).

(** The operation of an OPTIONS request.  Its user pointer is a pointer on the
    private part of the session: see [from_op]. *)
Definition startPing : M bool :=
  ping ← core cv_pingWithOptions;
  if (ping : bool) then
    n ← fresh_op;
    log_line (CreateOp n) ;;
    modify (fun s => s <| pingReplied := false |> <| pingOp := Some n |>) ;;
    s ← gets (fun s => s);
    match direction s with
    | LinphoneCallIncoming =>
        the_op ;; on_op n OpSetRouteAddress ;; on_op n OpPingBack
    | LinphoneCallOutgoing => on_op n (OpPing (log_from (log s)) (log_to (log s)))
    end ;;
    bind_private n ;;
    mret true
  else mret false.

Definition initiateOutgoing : M bool :=
  setState OutgoingInit "Starting outgoing call" ;;
  a ← gets account;
  match a with None => startPing | Some _ => mret false end.

Definition restartInvite : M bool := createOp ;; initiateOutgoing.

Definition startInvite (destination : option Address) (subj : string) (content : option string) : M Z :=
  modify (fun s => s <| subject := subj |>) ;;
  setContactOp ;;
  l ← gets log;
  let destinationAddress := default (log_to l) destination in
  op_do (OpSetLocalBodies []) ;;
  for_each (option_list content) (fun c => op_do (OpAddLocalBody c) ;; mret tt) ;;
  p ← the_params;
  for_each (cp_customContents p) (fun c => op_do (OpAddLocalBody c) ;; mret tt) ;;
  l ← gets log;
  result ← op_do (OpCall_ (log_from l) destinationAddress subj);
  (if result <? 0 then
     st ← gets state;
     match st with
     | Error | Released => mret tt
     | _ => setState Error "Call failed"
     end
   else
     o ← the_op;
     callId ← of_op o ov_callId;
     modify_log (fun l => l <| log_callId := callId |>) ;;
     setState OutgoingProgress "Outgoing call in progress" ;;
     found ← sdpFoundInLocalBody;
     when found do (report ← reportEvents; when report do raise (ReportConferenceEvent false false))) ;;
  mret result.

(** ** Updates *)

(** The state to enter while the update is made, if it may be made. *)
Definition isUpdateAllowed : M (option CallState) :=
  o ← the_op;
  retry ← of_op o ov_hasRetryFunction;
  st ← gets state;
  mret (if retry : bool then None else
        match st with
        | IncomingReceived | PushIncomingReceived | IncomingEarlyMedia | OutgoingRinging
        | OutgoingEarlyMedia => Some EarlyUpdating
        | Connected | StreamsRunning | PausedByRemote | UpdatedByRemote => Some Updating
        | Paused => Some Pausing
        | OutgoingProgress | Pausing | Resuming | Updating | EarlyUpdating => Some st
        | _ => None
        end).

Definition predefined_subject (p : CallSessionParams) : string :=
  if cp_inConference p then "Conference"
  else if cp_internalCallUpdate p then "ICE processing concluded"
  else if cp_noUserConsent p then "Refreshing"
  else "Media change".

Definition startUpdate (method : UpdateMethod) (subj : string) : M Z :=
  newSubject ← (if str_empty subj then
                  conference ← asks session_has_conference;
                  if conference : bool then mret EmptyString else p ← the_params; mret (predefined_subject p)
                else mret subj);
  refreshContactAddress ;;
  p ← the_params;
  op_do (OpSetSentCustomHeaders (cp_customHeaders p)) ;;
  updateContactAddressInOp ;;
  p ← the_params;
  let noUserConsent :=
    match method with
    | DefaultMethod => cp_noUserConsent p
    | InviteMethod => false
    | UpdateMethod_ => true
    end in
  op_do (OpUpdate newSubject noUserConsent).

Definition update (csp : option CallSessionParams) (method : UpdateMethod) (subj : string)
    (content : option string) : M Z :=
  initialState ← gets state;
  allowed ← isUpdateAllowed;
  match allowed with
  | None => mret (-1)
  | Some nextState =>
      setState nextState "Updating call" ;;
      match csp with None => mret tt | Some csp => setParams csp end ;;
      p ← the_params;
      op_do (OpSetLocalBodies (option_list content ++ cp_customContents p)) ;;
      result ← startUpdate method subj;
      st ← gets state;
      (when (negb (result =? 0) && negb (state_eqb st initialState)) do
         setState initialState "Restore initial state") ;;
      mret result
  end.

Definition startAcceptUpdate (nextState : CallState) (stateInfo : string) : M Z :=
  op_do OpAccept ;; setState nextState stateInfo ;; mret 0.

Definition p_acceptUpdate (csp : option CallSessionParams) (nextState : CallState)
    (stateInfo : string) : M Z :=
  startAcceptUpdate nextState stateInfo.

Definition acceptUpdate (csp : option CallSessionParams) : M Z :=
  st ← gets state;
  if state_eqb st UpdatedByRemote then
    prev ← gets prevState;
    p_acceptUpdate csp prev (linphone_call_state_to_string prev)
  else mret (-1).

Definition deferUpdate_ : M Z :=
  st ← gets state;
  if state_eqb st UpdatedByRemote then modify (fun s => s <| deferUpdate := true |>) ;; mret 0
  else mret (-1).

Definition updatedByRemote : M unit :=
  setState UpdatedByRemote "Call updated by remote" ;;
  s ← gets (fun s => s);
  if deferUpdate s || deferUpdateInternal s then mret tt
  else when (state_eqb (state s) UpdatedByRemote) do (acceptUpdate None ;; mret tt).

(** [sal_error_info_set] on a cleared structure, with the protocol "SIP". *)
Definition sip_error (reason : SalReason) (status_string : option string) : SalErrorInfo :=
  default zero_sei (sal_error_info_set zero_sei reason (Some "SIP"%string) 0 status_string None).

(** [updated] in the state [localState]; the member [state] may change meanwhile. *)
Definition updated_in (isUpdate : bool) (localState : CallState) : M unit :=
  match localState with
  | PausedByRemote => updatedByRemote
  | OutgoingRinging | OutgoingEarlyMedia | IncomingEarlyMedia =>
      when isUpdate do (
        setState EarlyUpdatedByRemote "EarlyUpdatedByRemote" ;;
        prev ← gets prevState;
        p_acceptUpdate None prev (linphone_call_state_to_string prev) ;; mret tt)
  | StreamsRunning | Connected | UpdatedByRemote => updatedByRemote
  | Paused =>
      setState UpdatedByRemote "Call updated by remote (while in Paused)" ;;
      p_acceptUpdate None Paused "Paused" ;; mret tt
  | Pausing | Updating | Resuming =>
      setState UpdatedByRemote
        "Call updated by remote while in transcient state (Pausing/Updating/Resuming)" ;;
      p_acceptUpdate None localState (linphone_call_state_to_string localState) ;; mret tt
  | End_ | Released =>
      op_do (OpReplyWithErrorInfo (sip_error SalReasonNoMatch (Some "Incompatible SDP"%string)) None 0) ;;
      mret tt
  | _ => mret tt
  end.

Definition updated (isUpdate : bool) : M unit :=
  defer ← config_int "sip" "defer_update_default" 0;
  modify (fun s => s <| deferUpdate := negb (defer =? 0) |>) ;;
  localState ← gets state;
  updated_in isUpdate localState.

Definition refreshed : M unit := setState UpdatedByRemote "Session refresh" ;; restorePreviousState.

(** ** Ending *)

(** [CallSessionPrivate::terminate] *)
Definition terminate_private : M unit :=
  st ← gets state;
  match st with
  | IncomingReceived | IncomingEarlyMedia =>
      modify (fun s =>
        if bool_decide (ei_reason (ei s) = ReasonNone)
        then s <| ei := linphone_error_info_set_reason (ei s) ReasonDeclined |> <| nonOpError := true |>
        else if bool_decide (ei_reason (ei s) = ReasonNotAnswered) then s
        else s <| nonOpError := true |>)
  | _ => mret tt
  end ;;
  setState End_ "Call terminated" ;;
  o ← gets op;
  dialog ← match o with None => mret false | Some o => of_op o ov_hasDialog end;
  when (negb dialog) do setState Released "Call released".

(** [linphone_error_info_to_sal] on a structure, null pointers included. *)
Definition to_sal (e : ErrorInfo) (sei : SalErrorInfo) : M SalErrorInfo :=
  the (linphone_error_info_to_sal e sei).

Definition set_error_info (reason : LinphoneReason) (code : Z) (phrase : option string) : M unit :=
  modify (fun s => s <| ei := linphone_error_info_set (ei s) None reason code phrase None |>).

(** [decline] with an error information: a structure with one sub structure
    is given to the SAL. *)
Definition declineWithInfo (e : option ErrorInfo) : M Z :=
  s ← gets (fun s => s);
  if state_eqb (state s) PushIncomingReceived && bool_decide (op s = None) then
    set_error_info ReasonDeclined 3 (Some "Declined"%string) ;;
    terminate_private ;;
    setState Released "Call released" ;;
    mret 0
  else
    match state s with
    | IncomingReceived | IncomingEarlyMedia | PushIncomingReceived =>
        match e with
        | Some e =>
            set_error_info (ei_reason e) (ei_protocol_code e) (ei_phrase e) ;;
            sei ← to_sal e (zero_sei <| sal_sub_sei := Some zero_sei |>);
            op_do (OpReplyWithErrorInfo sei None 0)
        | None => op_do (OpDecline SalReasonDeclined)
        end ;;
        terminate_private ;;
        mret 0
    | _ => mret (-1)
    end.

Definition decline (reason : LinphoneReason) : M Z :=
  declineWithInfo (Some (linphone_error_info_set linphone_error_info_new (Some "SIP"%string) reason
    (linphone_reason_to_error_code reason) None None)).

Definition declineNotAnswered (reason : LinphoneReason) : M Z :=
  modify_log (fun l => l <| log_status := LinphoneCallMissed |>) ;;
  modify (fun s => s <| nonOpError := true |>) ;;
  set_error_info reason (linphone_reason_to_error_code reason) (Some "Not answered"%string) ;;
  decline reason.

(** [CallSession::terminate]: the structure given to the SAL has
    no sub structure. *)
Definition terminate (e : option ErrorInfo) : M Z :=
  st ← gets state;
  match st with
  | Released | End_ | Error => mret (-1)
  | IncomingReceived | PushIncomingReceived | IncomingEarlyMedia => declineWithInfo e
  | OutgoingInit =>
      o ← the_op;
      op_release o ;;
      modify (fun s => s <| op := None |>) ;;
      terminate_private ;; mret 0
  | Idle => terminate_private ;; mret 0
  | _ =>
      match e with
      | Some e => sei ← to_sal e zero_sei; op_do (OpTerminate (Some sei))
      | None => op_do (OpTerminate None)
      end ;;
      terminate_private ;; mret 0
  end.

Definition redirect (to : Address) : M Z :=
  st ← gets state;
  match st with
  | IncomingReceived | PushIncomingReceived =>
      if address_isValid to then
        o ← the_op;
        p ← the_params;
        on_op o (OpReplyWithErrorInfo (sip_error SalReasonRedirect None) (Some to)
                   (if cp_endTime p <? 0 then 0 else cp_endTime p)) ;;
        set_error_info ReasonMovedPermanently 302 (Some "Call redirected"%string) ;;
        modify (fun s => s <| nonOpError := true |>) ;;
        terminate_private ;; mret 0
      else mret (-1)
  | _ => mret (-1)
  end.

(** ** Accepting *)

Definition checkForAcceptation : M Z :=
  st ← gets state;
  match st with
  | IncomingReceived | IncomingEarlyMedia | PushIncomingReceived =>
      notify OnCheckForAcceptation ;;
      o ← the_op;
      replaced ← of_op o ov_replaces;
      match replaced with
      | Some (Some (other, _)) => raise (TerminateSession other)
      | _ => mret tt
      end ;;
      mret 0
  | _ => mret (-1)
  end.

(** [CallSessionPrivate::accept] *)
Definition accept_private (csp : option CallSessionParams) : M unit :=
  setContactOp ;;
  match csp with None => mret tt | Some csp => setParams csp end ;;
  p ← gets params;
  match p with
  | None => mret tt
  | Some p =>
      negotiation ← isCapabilityNegotiationEnabled;
      op_do (OpEnableCapabilityNegotiation negotiation) ;;
      p ← the_params;
      op_do (OpSetSentCustomHeaders (cp_customHeaders p)) ;; mret tt
  end ;;
  op_do OpAccept ;;
  setState Connected "Connected".

Definition accept (csp : option CallSessionParams) : M Z :=
  result ← checkForAcceptation;
  if result <? 0 then mret result else accept_private csp ;; mret 0.

Definition acceptOrTerminateReplacedSessionInIncomingNotification : M unit :=
  auto ← config_int "sip" "auto_answer_replacing_calls" 1;
  when (negb (auto =? 0)) do (
    o ← the_op;
    replaces ← of_op o ov_replaces;
    match replaces with
    | Some (Some (_, (StreamsRunning | Connected | Paused | PausedByRemote | Pausing))) =>
        accept None ;; mret tt
    | _ => mret tt
    end).

Definition handleIncomingReceivedStateInIncomingNotification : M unit :=
  setContactOp ;;
  s ← gets (fun s => s);
  (when (notifyRinging s && negb (state_eqb (state s) IncomingEarlyMedia)) do
     (op_do (OpNotifyRinging false) ;; mret tt)) ;;
  acceptOrTerminateReplacedSessionInIncomingNotification.

Definition handleIncoming (tryStartRingtone : bool) : M unit :=
  (when tryStartRingtone do notify OnStartRingtone) ;;
  handleIncomingReceivedStateInIncomingNotification.

(** [CallSessionPrivate::startIncomingNotification] *)
Definition startIncomingNotification_private : M unit :=
  st ← gets state;
  let tryStartRingtone := negb (state_eqb st PushIncomingReceived) in
  (when tryStartRingtone do notify OnIncomingStarted) ;;
  setState IncomingReceived "Incoming call received" ;;
  notify OnBackgroundTaskToBeStopped ;;
  st ← gets state;
  ringing ← core cv_autoSendRinging;
  (when (state_eqb st IncomingReceived && ringing || state_eqb st IncomingEarlyMedia) do
     handleIncoming tryStartRingtone) ;;
  accepting ← gets mIsAccepting;
  when accepting do notify OnAccepting.

Definition startBasicIncomingNotification (notifyRinging_ : bool) : M unit :=
  modify (fun s => s <| notifyRinging := notifyRinging_ |>) ;;
  notify OnIncomingNotified ;;
  notify OnBackgroundTaskToBeStarted.

Definition startIncomingNotification (notifyRinging_ : bool) : M unit :=
  st ← gets state;
  (when (negb (state_eqb st PushIncomingReceived)) do startBasicIncomingNotification notifyRinging_) ;;
  deferred ← gets deferIncomingNotification;
  if deferred : bool then mret tt else startIncomingNotification_private.

Definition startPushIncomingNotification : M unit :=
  notify OnIncomingStarted ;;
  notify OnStartRingtone ;;
  setState PushIncomingReceived "Push notification received".

(** ** Transfers *)

Definition setTransferState (newState : CallState) : M unit :=
  st ← gets transferState;
  if state_eqb newState st then mret tt
  else
    modify (fun s => s <| transferState := newState |>) ;;
    notify (OnTransferStateChanged newState) ;;
    when (state_eqb newState Connected) do (
      upon ← config_int "sip" "terminate_call_upon_transfer_completion" 1;
      when (negb (upon =? 0)) do (terminate None ;; mret tt)).

Definition transfer (dest : nat) : M Z :=
  o ← the_op;
  other ← asks (fun w => session_op w dest);
  result ← on_op o (OpReferWithReplaces other);
  setTransferState OutgoingInit ;;
  mret result.

Definition transferTo (to : Address) : M Z :=
  if address_isValid to then
    op_do (OpRefer to) ;;
    setTransferState OutgoingInit ;;
    mret 0
  else mret (-1).

Definition notifyReferState (r : nat) : M unit :=
  refererOp ← asks (fun w => session_op w r);
  match refererOp with
  | None => mret tt
  | Some ro => o ← gets op; on_op ro (OpNotifyReferState o) ;; mret tt
  end.

(** ** Callbacks of the SAL *)

Definition accepted : M unit :=
  st ← gets state;
  match st with
  | OutgoingProgress | OutgoingRinging | OutgoingEarlyMedia => setState Connected "Connected"
  | _ => mret tt
  end ;;
  o ← the_op;
  privacy ← of_op o ov_privacy;
  modify (fun s => s <| currentPrivacy := privacy |>).

Definition ackBeingSent : M unit := notify OnAckBeingSent.
Definition ackReceived : M unit := notify OnAckReceived.

(** [setState(prevState, ei->full_string)] makes a string of a pointer. *)
Definition restore_after_error (sei : SalErrorInfo) : M unit :=
  prev ← gets prevState;
  text ← the (sal_full_string sei);
  setState prev text.

Definition end_after_error (sei : SalErrorInfo) : M unit :=
  st ← gets state;
  when (negb (is_final st)) do (
    if bool_decide (sal_reason sei = SalReasonDeclined) then setState End_ "Call declined"
    else
      let errorString := default EmptyString (sal_full_string sei) in
      if isEarlyState st then setState Error errorString else setState End_ errorString).

(** The failure ends the session; the referer is told. *)
Definition fatal_failure (sei : SalErrorInfo) : M bool :=
  end_after_error sei ;;
  r ← gets referer;
  match r with None => mret tt | Some r => notifyReferState r end ;;
  mret false.

(** [failure] in the state [st]: the structure, the redirection and the retry
    function are those of the operation. *)
Definition failure_in (sei : SalErrorInfo) (redirection : option Address) (retry : bool)
    (st : CallState) : M bool :=
  match sal_reason sei, st, redirection with
  | SalReasonRedirect, (OutgoingInit | OutgoingProgress | OutgoingRinging | OutgoingEarlyMedia), Some to =>
      modify_log (fun l => l <| log_to := to |>) ;;
      restartInvite ;;
      mret true
  | _, _, _ =>
      match st with
      | Updating | Pausing | Resuming | StreamsRunning =>
          if bool_decide (sal_reason sei = SalReasonRequestPending) then
            (if retry then mret tt
             else
               stable ← gets lastStableState;
               setState stable "Restore stable state because no retry function has been set") ;;
            mret true
          else if bool_decide (sal_reason sei = SalReasonNoMatch) then fatal_failure sei
          else restore_after_error sei ;; mret true
      | _ => fatal_failure sei
      end
  end.

Definition failure : M bool :=
  o ← the_op;
  sei ← of_op o ov_errorInfo;
  redirection ← of_op o ov_remoteContactAddress;
  retry ← of_op o ov_hasRetryFunction;
  st ← gets state;
  failure_in sei redirection retry st.

Definition infoReceived : M unit := the_op ;; notify OnInfoReceived.

Definition referred (referToAddr : option Address) : M unit :=
  modify (fun s =>
    (if referToAddr is Some _ then s <| referToAddress := referToAddr |> else s) <| referPending := true |>) ;;
  setState Referred "Referred".

Definition updateToFromAssertedIdentity : M unit :=
  o ← the_op;
  asserted ← of_op o ov_assertedIdentity;
  use ← config_int "sip" "call_logs_use_asserted_id_instead_of_from" 0;
  match asserted with
  | Some id =>
      when (negb (use =? 0)) do (
        modify_log (fun l => l <| log_to := Address_create id |>) ;;
        updateCallLog)
  | None => mret tt
  end.

Definition remoteRinging : M unit :=
  updateToFromAssertedIdentity ;;
  o ← the_op;
  privacy ← of_op o ov_privacy;
  modify (fun s => s <| currentPrivacy := privacy |>) ;;
  setState OutgoingRinging "Remote ringing".

Definition terminated : M unit :=
  st ← gets state;
  match st with
  | End_ | Error => mret tt
  | IncomingReceived | IncomingEarlyMedia =>
      o ← the_op;
      sei ← of_op o ov_reasonErrorInfo;
      (when (str_empty (default EmptyString (sal_protocol sei))) do (
         set_error_info ReasonNotAnswered 0 (Some "Incoming call cancelled"%string) ;;
         modify (fun s => s <| nonOpError := true |>))) ;;
      setState End_ "Call ended"
  | _ => setState End_ "Call ended"
  end.

(** ** A lost network *)

Definition setBroken : M unit :=
  st ← gets state;
  match st with
  | OutgoingInit | OutgoingProgress | OutgoingRinging | OutgoingEarlyMedia | IncomingReceived
  | IncomingEarlyMedia | StreamsRunning | Updating | Pausing | Resuming | Paused | PausedByRemote
  | UpdatedByRemote => modify (fun s => s <| broken := true |> <| needLocalIpRefresh := true |>)
  | _ => mret tt
  end.

Definition reinviteToRecoverFromConnectionLoss : M unit :=
  o ← gets op;
  match o with None => mret tt | Some o => on_op o OpResetRetryFunction ;; mret tt end ;;
  p ← gets params;
  update p InviteMethod EmptyString None ;; mret tt.

(** [contentToRestore] is the first local body of the operation. *)
Definition repairByNewInvite (withReplaces : bool) : M unit :=
  o ← the_op;
  on_op o OpResetRetryFunction ;;
  bodies ← of_op o ov_localBodies;
  callId ← of_op o ov_callId;
  fromTag ← of_op o ov_localTag;
  toTag ← of_op o ov_remoteTag;
  op_do OpKillDialog ;;
  createOp ;;
  (when withReplaces do
     (op_do (OpSetReplaces callId fromTag (if str_empty toTag then "0" else toTag)) ;; mret tt)) ;;
  defer ← initiateOutgoing;
  subj ← gets subject;
  when (negb defer) do (startInvite None subj (head bodies) ;; mret tt).

(** [sip/repair_broken_calls], and a core and an account that can be used. *)
Definition repair_possible : M bool :=
  alive ← core cv_alive;
  media ← core cv_mediaNetworkState;
  b ← gets broken;
  repair ← config_int "sip" "repair_broken_calls" 1;
  a ← gets account;
  registered ← match a with
               | None => mret true
               | Some a =>
                   enabled ← of_account a av_registerEnabled;
                   ok ← of_account a av_registrationOk;
                   mret (negb enabled || ok)
               end;
  mret (alive && media && b && negb (repair =? 0) && registered).

Definition not_broken : M unit := modify (fun s => s <| broken := false |>).

(** The pending INVITE is cancelled; [cancelDone] makes the next one. *)
Definition cancel_first : M unit :=
  result ← op_do OpCancelInvite;
  when (result =? 0) do
    modify (fun s => s <| reinviteOnCancelResponseRequested := true |> <| broken := false |>).

Definition request_pending : M bool := o ← the_op; of_op o ov_dialogRequestPending.

Definition repair : M unit :=
  st ← gets state;
  match st with
  | Updating | Pausing => pending ← request_pending; when pending do cancel_first
  | StreamsRunning | Paused | PausedByRemote =>
      pending ← request_pending;
      when (negb pending) do (reinviteToRecoverFromConnectionLoss ;; not_broken)
  | UpdatedByRemote =>
      pending ← request_pending;
      (when pending do
         (op_do (OpReplyWithErrorInfo (sip_error SalReasonServiceUnavailable None) None 0) ;; mret tt)) ;;
      reinviteToRecoverFromConnectionLoss ;; not_broken
  | OutgoingInit | OutgoingProgress => cancel_first
  | OutgoingEarlyMedia | OutgoingRinging =>
      o ← the_op;
      remoteTag ← of_op o ov_remoteTag;
      if str_empty remoteTag then cancel_first else repairByNewInvite true ;; not_broken
  | IncomingEarlyMedia | IncomingReceived | PushIncomingReceived => mret tt
  | _ => not_broken
  end.

Definition repairIfBroken : M unit :=
  possible ← repair_possible;
  when possible do (refreshContactAddress ;; repair).

Definition cancelDone : M unit :=
  requested ← gets reinviteOnCancelResponseRequested;
  when requested do (
    modify (fun s => s <| reinviteOnCancelResponseRequested := false |>) ;;
    o ← the_op;
    dialog ← of_op o ov_hasDialog;
    if dialog : bool then reinviteToRecoverFromConnectionLoss else repairByNewInvite false).

Definition onNetworkReachable (sipNetworkReachable : bool) : M unit :=
  if sipNetworkReachable then repairIfBroken else setBroken.

Definition onRegistrationStateChanged (changed : option nat) (ok : bool) : M unit :=
  a ← gets account;
  when (bool_decide (changed = a) && ok) do repairIfBroken.

Definition pingReply : M unit :=
  st ← gets state;
  when (state_eqb st OutgoingInit) do (
    modify (fun s => s <| pingReplied := true |>) ;;
    ready ← isReadyForInvite;
    when ready do (startInvite None EmptyString None ;; mret tt)).

(** ** Another operation takes the place of the one of the session *)

Definition replaceOp (newOp : nat) : M unit :=
  oldOp ← gets op;
  oldState ← gets state;
  modify (fun s => s <| op := Some newOp |>) ;;
  bind_op newOp ;;
  oldOp ← the oldOp;
  on_op newOp (OpCopyLocalMediaDescription oldOp) ;;
  callId ← of_op newOp ov_callId;
  modify_log (fun l => l <| log_callId := callId |>) ;;
  updateCallLog ;;
  st ← gets state;
  match st with
  | IncomingEarlyMedia | IncomingReceived =>
      op_do (OpNotifyRinging (state_eqb st IncomingEarlyMedia)) ;; mret tt
  | Connected | StreamsRunning => op_do OpAccept ;; mret tt
  | _ => mret tt
  end ;;
  match oldState with
  | IncomingEarlyMedia | IncomingReceived =>
      unbind_op oldOp ;;
      o ← the_op;
      replaces ← of_op o ov_replaces;
      on_op oldOp (if replaces is Some _ then OpTerminate None else OpKillDialog) ;; mret tt
  | Connected | StreamsRunning =>
      on_op oldOp (OpTerminate None) ;;
      on_op oldOp OpKillDialog ;; mret tt
  | _ => mret tt
  end ;;
  op_release oldOp.

(** ** Timers and pending actions *)

Definition isOpConfigured : M bool := o ← gets op; mret (bool_decide (o <> None)).

Definition iterate (currentRealTime : Z) (oneSecondElapsed : bool) : M unit :=
  s ← gets (fun s => s);
  let elapsed := to_int (currentRealTime - log_startTime (log s)) in
  delayed ← core cv_delayed_timeout;
  (when (state_eqb (state s) OutgoingInit && (delayed <? elapsed) && bool_decide (pingOp s <> None)) do
     (startInvite None EmptyString None ;; mret tt)) ;;
  st ← gets state;
  (when (state_eqb st IncomingReceived || state_eqb st IncomingEarlyMedia) do
     notify (OnIncomingTimeoutCheck elapsed oneSecondElapsed)) ;;
  dir ← gets direction;
  configured ← isOpConfigured;
  (when (bool_decide (dir = LinphoneCallIncoming) && negb configured) do
     notify (OnPushTimeoutCheck elapsed)) ;;
  timeout ← core cv_in_call_timeout;
  l ← gets log;
  when ((0 <? timeout) && negb (log_connectedTime l =? 0)
        && (timeout <? currentRealTime - log_connectedTime l)) do (terminate None ;; mret tt).

Definition addPendingAction (f : nat) : M unit :=
  modify (fun s => s <| pendingActions := pendingActions s ++ [f] |>).

(** The actions that were pending are run; those that fail come after the ones
    added meanwhile. *)
Fixpoint run_actions (actions : list nat) : M (list nat) :=
  match actions with
  | [] => mret []
  | f :: actions' =>
      raise (RunAction f) ;;
      result ← asks (fun w => action_result w f);
      unsuccessful ← run_actions actions';
      mret (if result =? 0 then unsuccessful else f :: unsuccessful)
  end.

Definition executePendingActions : M unit :=
  reachable ← core cv_networkReachable;
  st ← gets state;
  when (reachable && negb (is_final st) && negb (state_eqb st Released)) do (
    copy ← gets pendingActions;
    modify (fun s => s <| pendingActions := [] |>) ;;
    unsuccessful ← run_actions copy;
    modify (fun s => s <| pendingActions := pendingActions s ++ unsuccessful |>)).

Definition onCallStateChanged : M unit := raise DoLater.

(** ** A new session *)

(** [setDestAccount] *)
Definition setDestAccount (a : option nat) : M unit :=
  modify (fun s => s <| account := a |>
    <| params := (fun p => p <| cp_account := a |>) <$> params s |> <| currentAccount := a |>).

Definition getRequestAddress : M Address :=
  o ← gets op; match o with Some o => of_op o ov_requestAddress | None => mret no_address end.

Definition assignAccount (a : option nat) : M unit :=
  setDestAccount a ;;
  match a with
  | Some _ => mret tt
  | None =>
      l ← gets log;
      found ←
        match log_direction l with
        | LinphoneCallIncoming =>
            server ← core cv_conferenceServer;
            factory ← (if server : bool then asks (fun w => account_by_factory w (log_to l)) else mret None);
            match factory with
            | Some a => mret (Some a)
            | None =>
                own ← asks (fun w => account_by_identity w (log_to l));
                match own with
                | Some a => mret (Some a)
                | None =>
                    guess ← asks (fun w => guess_account w (log_to l) (log_from l));
                    guess ← match guess with
                            | Some a => mret (Some a)
                            | None =>
                                request ← getRequestAddress;
                                asks (fun w => guess_account w request (log_from l))
                            end;
                    match guess with
                    | Some a =>
                        identity ← of_account a av_identityAddress;
                        modify_log (fun l => l <| log_to := identity |>)
                    | None => mret tt
                    end ;;
                    mret guess
                end
            end
        | LinphoneCallOutgoing => asks (fun w => account_of_identity w (log_from l))
        end;
      match found with Some a => setDestAccount (Some a) | None => mret tt end
  end.

(** [CallSession::CallSession]: [csp] are its parameters, when it is given any. *)
Definition new_session (csp : option CallSessionParams) (l : CallLog) : Session :=
  mkSession [] csp 0 None EmptyString LinphoneCallOutgoing Idle EmptyString Idle EmptyString Idle
    EmptyString Idle None linphone_error_info_new l None None None false None None false false false
    false false false true false false [] false.

(** [configure] with the operation of an incoming call, or none.  [default_params]
    are those of [initDefault]. *)
Definition configure (dir : LinphoneCallDir) (a : option nat) (o : option nat) (from to : Address)
    (default_params : CallSessionParams) : M unit :=
  now ← core cv_now;
  modify (fun s => s <| direction := dir |> <| log := CallLog_create now dir from to |>) ;;
  match o with
  | None => mret tt
  | Some o =>
      modify (fun s => s <| op := Some o |>) ;;
      bind_op o ;;
      negotiation ← isCapabilityNegotiationEnabled;
      on_op o (OpEnableCapabilityNegotiation negotiation) ;;
      cnx ← config_default_int "sip" "cnx_ip_to_0000_if_sendonly_enabled" 0;
      on_op o (OpEnableCnxIpTo0000IfSendOnly (negb (cnx =? 0))) ;;
      callId ← of_op o ov_callId;
      modify_log (fun l => l <| log_callId := callId |>)
  end ;;
  p ← gets params;
  match dir with
  | LinphoneCallOutgoing =>
      p ← the p;
      (when (bool_decide (cp_referer p <> None)) do modify (fun s => s <| referer := cp_referer p |>)) ;;
      startPing ;; mret tt
  | LinphoneCallIncoming => if p is Some _ then mret tt else setParams default_params
  end ;;
  assignAccount a ;;
  when (bool_decide (dir = LinphoneCallIncoming)) do (
    found ← sdpFoundInRemoteBody;
    when found do (report ← reportEvents; when report do raise (ReportConferenceEvent false false))).

(** [configure] for a call announced by a push notification. *)
Definition configure_push (dir : LinphoneCallDir) (callid : string) (anonymous : Address)
    (default_params : CallSessionParams) : M unit :=
  now ← core cv_now;
  modify (fun s => s <| direction := dir |>
    <| log := (CallLog_create now dir anonymous anonymous) <| log_callId := callid |> |>
    <| params := Some (default default_params (params s)) |>).

(** The two ways a session is configured once it is made. *)
Inductive Beginning :=
  | Configure (dir : LinphoneCallDir) (a o : option nat) (from to : Address)
      (default_params : CallSessionParams)
  | ConfigurePush (dir : LinphoneCallDir) (callid : string) (anonymous : Address)
      (default_params : CallSessionParams).

Definition begin_session (b : Beginning) : M unit :=
  match b with
  | Configure dir a o from to default_params => configure dir a o from to default_params
  | ConfigurePush dir callid anonymous default_params =>
      configure_push dir callid anonymous default_params
  end.

(** ** Entries *)

(** A callback of the SAL on the operation [o], whose user pointer leads to the
    session or is null, or to its private part, which is taken for the session. *)
Definition from_op (o : nat) (m : M unit) : M unit :=
  wrong ← asks (fun w => bool_decide (o ∈ bound_private w));
  mine ← asks (fun w => bool_decide (o ∈ bound w));
  if wrong : bool then stop BadPointer else when mine do m.

Definition ignore {A} (m : M A) : M unit := m ;; mret tt.

Definition run_entry (e : Entry) : M unit :=
  match e with
  | CallRinging o => from_op o remoteRinging
  | CallAccepted o => from_op o accepted
  | CallRefreshed o => from_op o refreshed
  | CallRefreshing o => from_op o (setState Updating "Session refreshing")
  | CallUpdating o isUpdate => from_op o (updated isUpdate)
  | CallAckReceived o => from_op o ackReceived
  | CallAckBeingSent o => from_op o ackBeingSent
  | CallTerminated o => from_op o terminated
  | CallFailure o => from_op o (ignore failure)
  | CallReleased o => from_op o (setState Released "Call released")
  | CallCancelDone o => from_op o cancelDone
  | CallReferReceived o referTo => from_op o (referred referTo)
  | CallInfoReceived o => from_op o infoReceived
  | PingReply o => from_op o pingReply
  | NetworkReachable reachable => onNetworkReachable reachable
  | RegistrationStateChanged a ok => onRegistrationStateChanged a ok
  | CallStateChanged => onCallStateChanged
  | ExecutePendingActions => executePendingActions
  | ReplaceOp newOp => replaceOp newOp
  | Iterate now oneSecondElapsed => iterate now oneSecondElapsed
  | StartIncomingNotification ringing => startIncomingNotification ringing
  | StartPushIncomingNotification => startPushIncomingNotification
  | CreateOperation => createOp
  | InitiateOutgoing => ignore initiateOutgoing
  | StartInvite destination subj content => ignore (startInvite destination subj content)
  | SetTransferState s => setTransferState s
  | Abort_ message => abort message
  | Accept csp => ignore (accept csp)
  | Accepting => modify (fun s => s <| mIsAccepting := true |>)
  | AcceptUpdate csp => ignore (acceptUpdate csp)
  | Decline reason => ignore (decline reason)
  | DeclineWithInfo e => ignore (declineWithInfo e)
  | DeclineNotAnswered reason => ignore (declineNotAnswered reason)
  | DeferUpdate => ignore deferUpdate_
  | Redirect to => ignore (redirect to)
  | Terminate e => ignore (terminate e)
  | TransferTo to => ignore (transferTo to)
  | Transfer dest => ignore (transfer dest)
  | Update_ csp method subj content => ignore (update csp method subj content)
  | SetStateToEnded => setStateToEnded
  | AddListener l => addListener l
  | RemoveListener l => removeListener l
  | ClearListeners => clearListeners
  | AddPendingAction f => addPendingAction f
  end.

End Ops.

(** ** Calls from within calls

    What listeners and operations call on the session from within its callbacks. *)
Section Perform.
Context `{AddressLib} `{!Environment}.

Definition perform : nat -> Event -> M unit := nest record_event react run_entry.

(** What the application, the core and the SAL call, one after the other. *)
Definition run (fuel : nat) (entries : list Entry) : M unit :=
  for_each entries (run_entry (perform fuel)).

(** A session from its construction on; [n] operations were made before. *)
Definition new_world (csp : option CallSessionParams) (l : CallLog) (n : nat) : World :=
  mkWorld (new_session csp l) n [] [] [].

Definition run_session (fuel : nat) (b : Beginning) (entries : list Entry) : M unit :=
  begin_session (perform fuel) b ;; run fuel entries.

End Perform.
