(* ===== verification/CallSessionRules.v ===== *)
(** * Rules for the computations of a session

    A property of computations that the primitives have, and that sequences keep,
    is a property of every operation of a session: [Closed] lists the primitives,
    [closed_run_entry] concludes.  What holds of every session, whatever its
    surroundings do, is proved through it. *)
From S2P Require Import Prelude Effects LpConfig LpConfigValues ChatTypes ErrorInfo CallSessionTypes CallSession.

Definition move_of `{AddressLib} (e : Event) : option (CallState * CallState) :=
  match e with Moving old new => Some (old, new) | _ => None end.

(** A call that has ended may only be released, and is released from there only. *)
Definition allowed (old new : CallState) : bool :=
  if is_final old then state_eqb new Released else negb (state_eqb new Released).

Definition stable_after (s stable : CallState) : CallState :=
  match s with StreamsRunning | Paused => s | _ => stable end.

Ltac unfold_M := cbv beta iota delta [mbind Eff_bind mret Eff_ret gets asks modify log_line].

Lemma state_eqb_spec a b : state_eqb a b = true <-> a = b.
Proof. apply bool_decide_eq_true. Qed.

Lemma state_eqb_refl a : state_eqb a a = true.
Proof. by apply state_eqb_spec. Qed.

Lemma state_eqb_neq a b : state_eqb a b = false <-> a <> b.
Proof. apply bool_decide_eq_false. Qed.

Lemma abnormal_allowed old new : old <> new -> abnormal old new old = negb (allowed old new).
Proof.
  intros Hne. unfold abnormal, allowed.
  destruct (is_final old) eqn:Hf; [reflexivity|].
  rewrite negb_involutive. destruct (state_eqb new Released); [|reflexivity].
  by destruct old.
Qed.

Section Moves.
Context `{AddressLib} `{!Environment}.
Variable raise : Event -> M unit.

(** What [setState] has done when it has checked the transition. *)
Definition moved (new : CallState) (message : string) (w : World) : World :=
  let w := record_event (Moving (state (ses w)) new) (w <| ses := leave_state (ses w) |>) in
  if state_eqb new Referred then w
  else w <| ses := (ses w) <| state := new |> <| messageState := message |> |>.

Definition after_move (new : CallState) (message : string) : M unit :=
  enter_state raise new ;;
  (when (is_final new) do setTerminated raise) ;;
  notify raise (OnStateChanged new message) ;;
  when (state_eqb new Released) do setReleased raise.

Lemma leave_state_members s :
  state (leave_state s) = state s /\ prevState (leave_state s) = state s /\
  lastStableState (leave_state s) = stable_after (state s) (lastStableState s).
Proof. unfold leave_state. cbn. by destruct (state s). Qed.

Lemma leave_state_prev s : prevState (leave_state s) = state s.
Proof. apply leave_state_members. Qed.

Lemma setState_moved new message w :
  setState raise new message w =
  if state_eqb (state (ses w)) new then Finished tt w
  else if allowed (state (ses w)) new then after_move new message (moved new message w)
  else fatal (w <| ses := leave_state (ses w) |>).
Proof.
  unfold setState, after_move, moved. unfold_M.
  destruct (state_eqb (state (ses w)) new) eqn:E; [reflexivity|].
  apply state_eqb_neq in E. unfold_M.
  change (prevState (ses (w <| ses := leave_state (ses w) |>))) with (prevState (leave_state (ses w))).
  rewrite leave_state_prev, (abnormal_allowed _ _ E).
  destruct (allowed (state (ses w)) new); cbn [negb]; [|reflexivity].
  by destruct (state_eqb new Referred).
Qed.

End Moves.

(** Writing members other than the states of the session. *)
Definition keeps_states `{AddressLib} (f : Session -> Session) : Prop :=
  forall s, state (f s) = state s /\ prevState (f s) = prevState s /\ lastStableState (f s) = lastStableState s.

Ltac keeps_states := intros ?; cbn; repeat case_match; cbn; repeat split; reflexivity.

Class Closed `{AddressLib} `{!Environment} (raise : Event -> M unit)
    (ok : forall A, M A -> Prop) : Prop := {
  closed_ret A (a : A) : ok A (mret a);
  closed_bind A B (m : M A) (k : A -> M B) : ok A m -> (forall a, ok B (k a)) -> ok B (m ≫= k);
  closed_gets A (f : Session -> A) : ok A (gets f);
  closed_asks A (f : World -> A) : ok A (asks f);
  closed_stop A why : why <> TooDeep -> ok A (stop why);
  closed_modify f : keeps_states f -> ok unit (modify f);
  closed_log_line e : move_of e = None -> ok unit (log_line e);
  closed_fatal : ok unit fatal;
  closed_fresh_op : ok nat fresh_op;
  closed_bind_op o : ok unit (bind_op o);
  closed_bind_private o : ok unit (bind_private o);
  closed_unbind_op o : ok unit (unbind_op o);
  closed_raise e : move_of e = None -> ok unit (raise e);
  closed_moves new message : ok unit (after_move raise new message) -> ok unit (setState raise new message);
}.

Create HintDb ok.

Section Operations.
Context `{AddressLib} `{!Environment}.
Variable raise : Event -> M unit.
Variable ok : forall A, M A -> Prop.
Context `{!Closed raise ok}.

#[local] Hint Extern 1 (ok _ (mret _)) => apply closed_ret : ok.
#[local] Hint Extern 1 (ok _ (gets _)) => apply closed_gets : ok.
#[local] Hint Extern 1 (ok _ (asks _)) => apply closed_asks : ok.
#[local] Hint Extern 1 (ok _ fatal) => apply closed_fatal : ok.
#[local] Hint Extern 1 (ok _ fresh_op) => apply closed_fresh_op : ok.
#[local] Hint Extern 1 (ok _ (bind_op _)) => apply closed_bind_op : ok.
#[local] Hint Extern 1 (ok _ (bind_private _)) => apply closed_bind_private : ok.
#[local] Hint Extern 1 (ok _ (unbind_op _)) => apply closed_unbind_op : ok.
#[local] Hint Extern 1 (ok _ (modify _)) => (apply closed_modify; keeps_states) : ok.
#[local] Hint Extern 1 (ok _ (log_line _)) => (apply closed_log_line; reflexivity) : ok.
#[local] Hint Extern 1 (ok _ (raise _)) => (apply closed_raise; reflexivity) : ok.
#[local] Hint Extern 1 (ok _ (stop _)) => (apply closed_stop; discriminate) : ok.

Lemma closed_the {A} (p : option A) : ok _ (the p).
Proof. destruct p; cbn [the]; auto with ok. Qed.
#[local] Hint Resolve closed_the : ok.

Lemma closed_for_each {A} (l : list A) f : (forall x, ok _ (f x)) -> ok _ (for_each l f).
Proof. intros Hf. induction l; cbn [for_each]; [apply closed_ret|]. by apply closed_bind. Qed.

(** Every command of a program, one after the other. *)
Ltac follow :=
  repeat first
    [ progress intros
    | solve [auto 2 with ok nocore]
    | simple apply closed_bind
    | simple apply closed_for_each
    | case_match ].

Lemma closed_new_op : ok _ new_op.
Proof. unfold new_op. follow. Qed.
#[local] Hint Resolve closed_new_op : ok.

Lemma closed_on_op o c : ok _ (on_op raise o c).
Proof. unfold on_op. follow. Qed.
#[local] Hint Resolve closed_on_op : ok.

Lemma closed_op_do c : ok _ (op_do raise c).
Proof. unfold op_do, the_op. follow. Qed.
#[local] Hint Resolve closed_op_do : ok.

Lemma closed_notify t : ok _ (notify raise t).
Proof. unfold notify. follow. Qed.
Lemma closed_op_release o : ok _ (op_release raise o).
Proof. unfold op_release. follow. Qed.
#[local] Hint Resolve closed_notify closed_op_release : ok.

Ltac follow_simple :=
  unfold config_int, updateCallLog; unfold core, of_op, of_account, the_op, the_params, modify_log; follow.

Lemma closed_reportEvents : ok _ reportEvents.
Proof. unfold reportEvents. follow_simple. Qed.
Lemma closed_getReason : ok _ getReason.
Proof. unfold getReason, getErrorInfo, op_errors. follow_simple. Qed.
Lemma closed_sdpFoundInRemoteBody : ok _ sdpFoundInRemoteBody.
Proof. unfold sdpFoundInRemoteBody. follow_simple. Qed.
Lemma closed_sdpFoundInLocalBody : ok _ sdpFoundInLocalBody.
Proof. unfold sdpFoundInLocalBody. follow_simple. Qed.
#[local] Hint Resolve closed_reportEvents closed_getReason closed_sdpFoundInRemoteBody
  closed_sdpFoundInLocalBody : ok.

Lemma closed_enter_state s : ok _ (enter_state raise s).
Proof. unfold enter_state, enter_IncomingReceived, addListener. destruct s; follow_simple. Qed.
Lemma closed_setTerminated : ok _ (setTerminated raise).
Proof. unfold setTerminated, completeLog, computeDuration. follow_simple. Qed.
Lemma closed_setReleased : ok _ (setReleased raise).
Proof. unfold setReleased, op_errors. follow_simple. Qed.
#[local] Hint Resolve closed_enter_state closed_setTerminated closed_setReleased : ok.

Lemma closed_setState new message : ok _ (setState raise new message).
Proof. apply closed_moves. unfold after_move. follow. Qed.
#[local] Hint Resolve closed_setState : ok.

Lemma closed_getFixedContact : ok _ getFixedContact.
Proof. unfold getFixedContact, contact_of_op, account_contact. follow_simple. Qed.
#[local] Hint Resolve closed_getFixedContact : ok.

Lemma closed_setContactOp : ok _ (setContactOp raise).
Proof. unfold setContactOp, contact_in_conference. follow_simple. Qed.
Lemma closed_refreshContactAddress : ok _ (refreshContactAddress raise).
Proof. unfold refreshContactAddress. follow_simple. Qed.
Lemma closed_updateContactAddressInOp : ok _ (updateContactAddressInOp raise).
Proof. unfold updateContactAddressInOp, contact_of_op. follow_simple. Qed.
#[local] Hint Resolve closed_setContactOp closed_refreshContactAddress
  closed_updateContactAddressInOp : ok.

Lemma closed_createOp : ok _ (createOp raise).
Proof. unfold createOp, createOpTo. follow_simple. Qed.
Lemma closed_startPing : ok _ (startPing raise).
Proof.
  unfold startPing. follow_simple.
Qed.
#[local] Hint Resolve closed_createOp closed_startPing : ok.

Lemma closed_initiateOutgoing : ok _ (initiateOutgoing raise).
Proof. unfold initiateOutgoing. follow_simple. Qed.
#[local] Hint Resolve closed_initiateOutgoing : ok.

Lemma closed_startInvite d subj c : ok _ (startInvite raise d subj c).
Proof. unfold startInvite. follow_simple. Qed.
#[local] Hint Resolve closed_startInvite : ok.

Lemma closed_update csp m subj c : ok _ (update raise csp m subj c).
Proof. unfold update, isUpdateAllowed, startUpdate, setParams. follow_simple. Qed.
#[local] Hint Resolve closed_update : ok.

Lemma closed_p_acceptUpdate csp s m : ok _ (p_acceptUpdate raise csp s m).
Proof. unfold p_acceptUpdate, startAcceptUpdate. follow. Qed.
#[local] Hint Resolve closed_p_acceptUpdate : ok.
Lemma closed_acceptUpdate csp : ok _ (acceptUpdate raise csp).
Proof. unfold acceptUpdate. follow. Qed.
#[local] Hint Resolve closed_acceptUpdate : ok.
Lemma closed_updated b : ok _ (updated raise b).
Proof. unfold updated, updated_in, updatedByRemote. follow_simple. Qed.
Lemma closed_refreshed : ok _ (refreshed raise).
Proof. unfold refreshed, restorePreviousState. follow. Qed.
#[local] Hint Resolve closed_updated closed_refreshed : ok.

Lemma closed_terminate_private : ok _ (terminate_private raise).
Proof. unfold terminate_private. follow_simple. Qed.
#[local] Hint Resolve closed_terminate_private : ok.
Lemma closed_declineWithInfo e : ok _ (declineWithInfo raise e).
Proof. unfold declineWithInfo, to_sal, set_error_info. follow. Qed.
#[local] Hint Resolve closed_declineWithInfo : ok.
Lemma closed_decline r : ok _ (decline raise r).
Proof. unfold decline. follow. Qed.
Lemma closed_terminate e : ok _ (terminate raise e).
Proof. unfold terminate, to_sal. follow_simple. Qed.
Lemma closed_redirect a : ok _ (redirect raise a).
Proof. unfold redirect, set_error_info. follow_simple. Qed.
#[local] Hint Resolve closed_decline closed_terminate closed_redirect : ok.

Lemma closed_accept csp : ok _ (accept raise csp).
Proof.
  unfold accept, checkForAcceptation, accept_private, setParams, isCapabilityNegotiationEnabled.
  follow_simple.
Qed.
#[local] Hint Resolve closed_accept : ok.

Lemma closed_startIncomingNotification b : ok _ (startIncomingNotification raise b).
Proof.
  unfold startIncomingNotification, startBasicIncomingNotification, startIncomingNotification_private,
    handleIncoming, handleIncomingReceivedStateInIncomingNotification,
    acceptOrTerminateReplacedSessionInIncomingNotification. follow_simple.
Qed.
Lemma closed_setTransferState s : ok _ (setTransferState raise s).
Proof. unfold setTransferState. follow_simple. Qed.
Lemma closed_notifyReferState r : ok _ (notifyReferState raise r).
Proof. unfold notifyReferState. follow. Qed.
#[local] Hint Resolve closed_startIncomingNotification closed_setTransferState
  closed_notifyReferState : ok.

Lemma closed_failure : ok _ (failure raise).
Proof. unfold failure, failure_in, fatal_failure, restartInvite, end_after_error, restore_after_error. follow_simple. Qed.
Lemma closed_remoteRinging : ok _ (remoteRinging raise).
Proof. unfold remoteRinging, updateToFromAssertedIdentity. follow_simple. Qed.
Lemma closed_terminated : ok _ (terminated raise).
Proof. unfold terminated, set_error_info. follow_simple. Qed.
#[local] Hint Resolve closed_failure closed_remoteRinging closed_terminated : ok.

Lemma closed_reinvite : ok _ (reinviteToRecoverFromConnectionLoss raise).
Proof. unfold reinviteToRecoverFromConnectionLoss. follow. Qed.
Lemma closed_repairByNewInvite b : ok _ (repairByNewInvite raise b).
Proof. unfold repairByNewInvite. follow_simple. Qed.
#[local] Hint Resolve closed_reinvite closed_repairByNewInvite : ok.
Lemma closed_repairIfBroken : ok _ (repairIfBroken raise).
Proof.
  unfold repairIfBroken, repair_possible, repair, cancel_first, request_pending, not_broken.
  follow_simple.
Qed.
Lemma closed_cancelDone : ok _ (cancelDone raise).
Proof. unfold cancelDone. follow_simple. Qed.
#[local] Hint Resolve closed_repairIfBroken closed_cancelDone : ok.

Lemma closed_replaceOp o : ok _ (replaceOp raise o).
Proof. unfold replaceOp. follow_simple. Qed.
Lemma closed_iterate t b : ok _ (iterate raise t b).
Proof. unfold iterate, isOpConfigured. follow_simple. Qed.
Lemma closed_run_actions l : ok _ (run_actions raise l).
Proof. induction l; cbn [run_actions]; follow; done. Qed.
#[local] Hint Resolve closed_replaceOp closed_iterate closed_run_actions : ok.

Lemma closed_from_op o m : ok _ m -> ok _ (from_op o m).
Proof. intros Hm. unfold from_op. follow. Qed.

Lemma closed_run_entry e : ok _ (run_entry raise e).
Proof.
  destruct e; cbn [run_entry]; try apply closed_from_op;
    unfold ignore, accepted, ackReceived, ackBeingSent, referred, infoReceived, pingReply,
      isReadyForInvite, onNetworkReachable, setBroken, onRegistrationStateChanged,
      onCallStateChanged, executePendingActions, startPushIncomingNotification, abort, deferUpdate_,
      declineNotAnswered, set_error_info, transfer, transferTo, setStateToEnded, addListener,
      removeListener, clearListeners, addPendingAction;
    follow_simple.
Qed.

Lemma closed_assignAccount a : ok _ (assignAccount a).
Proof. unfold assignAccount, setDestAccount, getRequestAddress. follow_simple. Qed.
#[local] Hint Resolve closed_assignAccount : ok.
Lemma closed_begin_session b : ok _ (begin_session raise b).
Proof.
  destruct b; cbn [begin_session]; unfold configure, configure_push, config_default_int, isCapabilityNegotiationEnabled, setParams;
    follow_simple.
Qed.
End Operations.

(** Any entries, one after the other. *)
Lemma closed_entries `{AddressLib} `{!Environment} raise (ok : forall A, M A -> Prop) entries :
  Closed raise ok -> ok _ (for_each entries (run_entry raise)).
Proof. intros Hc. apply (closed_for_each raise ok). intros. by apply closed_run_entry. Qed.
