(* ===== verification/CallSessionLifecycle.v ===== *)
(** * The lifecycle of a call session

    An abstract machine, whose states are the current, previous and last stable
    states of a session and the moves it has logged.  It is proved that every
    operation of a session, with any surroundings and whatever is called from
    within its callbacks, is a sequence of steps of this machine; and that calls
    from within calls end when the surroundings stop making them. *)
From S2P Require Import Prelude Effects LpConfig LpConfigValues ChatTypes ErrorInfo CallSessionTypes CallSession CallSessionRules.

(** ** The machine *)

Record Life := mkLife {
  l_state : CallState;
  l_prev : CallState;
  l_stable : CallState;
  (** Last first. *)
  l_moves : list (CallState * CallState);
}.

(** Being referred is an event, not a state. *)
Definition next_state (old new : CallState) : CallState :=
  if state_eqb new Referred then old else new.

Inductive life_step : Life -> Life -> Prop :=
  | life_moves old prev stable moves new :
      old <> new -> allowed old new = true ->
      life_step (mkLife old prev stable moves)
        (mkLife (next_state old new) old (stable_after old stable) ((old, new) :: moves))
  | life_refused old prev stable moves new :
      old <> new -> allowed old new = false ->
      life_step (mkLife old prev stable moves) (mkLife old old (stable_after old stable) moves).

(** ** The machine of a session *)

Section Abstraction.
Context `{AddressLib}.

Definition moves (h : list Event) : list (CallState * CallState) := omap move_of h.

Definition life_of (s : Session) (h : list Event) : Life :=
  mkLife (state s) (prevState s) (lastStableState s) (moves h).
Definition life (w : World) : Life := life_of (ses w) (history w).

(** A computation follows the machine, however it stops. *)
Definition follows {A} (m : M A) : Prop := forall w, rtc life_step (life w) (life (world_after (m w))).

Lemma follows_same {A} (m : M A) : (forall w, life (world_after (m w)) = life w) -> follows m.
Proof. intros Hm w. by rewrite Hm. Qed.

Lemma follows_ret {A} (a : A) : follows (mret a).
Proof. by apply follows_same. Qed.

Lemma follows_bind {A B} (m : M A) (k : A -> M B) :
  follows m -> (forall a, follows (k a)) -> follows (m ≫= k).
Proof.
  intros Hm Hk w. specialize (Hm w). unfold mbind, Eff_bind.
  destruct (m w) as [a w'|why w']; cbn in *; [|exact Hm].
  etrans; [exact Hm|apply Hk].
Qed.

Lemma follows_gets {A} (f : Session -> A) : follows (gets f).
Proof. by apply follows_same. Qed.
Lemma follows_asks {A} (f : World -> A) : follows (asks f).
Proof. by apply follows_same. Qed.
Lemma follows_stop {A} why : follows (stop (A := A) why).
Proof. by apply follows_same. Qed.

Context `{!Environment}.

Lemma life_moved new message w :
  life (moved new message w) =
  mkLife (next_state (state (ses w)) new) (state (ses w))
    (stable_after (state (ses w)) (lastStableState (ses w)))
    ((state (ses w), new) :: moves (history w)).
Proof.
  destruct (leave_state_members (ses w)) as (Hs & Hp & Hl).
  unfold life, life_of, moved, next_state. destruct (state_eqb new Referred); cbn; by rewrite ?Hs, Hp, Hl.
Qed.

Lemma life_refusal w :
  life (w <| ses := leave_state (ses w) |>) =
  mkLife (state (ses w)) (state (ses w)) (stable_after (state (ses w)) (lastStableState (ses w)))
    (moves (history w)).
Proof.
  destruct (leave_state_members (ses w)) as (Hs & Hp & Hl).
  unfold life, life_of. cbn. by rewrite Hs, Hp, Hl.
Qed.

Lemma follows_move raise new message :
  follows (after_move raise new message) -> follows (setState raise new message).
Proof.
  intros Hafter w. rewrite setState_moved.
  destruct (state_eqb (state (ses w)) new) eqn:E; [reflexivity|]. apply state_eqb_neq in E.
  destruct (allowed (state (ses w)) new) eqn:Ha.
  - etrans; [|apply Hafter]. rewrite life_moved. by apply rtc_once, life_moves.
  - etrans; [|apply follows_same].
    + rewrite life_refusal. by apply rtc_once, life_refused with new.
    + intros w'. unfold fatal. by destruct fatal_aborts.
Qed.

#[export] Instance follows_closed raise :
  (forall e, move_of e = None -> follows (raise e)) -> Closed raise (@follows).
Proof.
  intros Hraise. split; try (intros; by apply follows_same); auto.
  - intros. by apply follows_bind.
  - intros f Hf. apply follows_same. intros w. unfold life, life_of. cbn.
    destruct (Hf (ses w)) as (-> & -> & ->). reflexivity.
  - intros e He. apply follows_same. intros w. unfold life, life_of, moves. cbn. by rewrite He.
  - apply follows_same. intros w. unfold fatal. by destruct fatal_aborts.
  - apply follows_move.
Qed.

Lemma follows_perform fuel e : move_of e = None -> follows (perform fuel e).
Proof.
  revert e. induction fuel as [|fuel IH]; intros e He w; cbn [perform nest].
  all: assert (Hlife : life (record_event e w) = life w)
         by (unfold life, life_of, moves; cbn; by rewrite He).
  all: destruct (react _ _); [by rewrite <- Hlife|].
  - by rewrite <- Hlife.
  - rewrite <- Hlife at 1. apply (closed_entries (perform fuel) (@follows)). by apply follows_closed.
Qed.

Lemma follows_run fuel entries : follows (run fuel entries).
Proof. apply (closed_entries (perform fuel) (@follows)), follows_closed. intros. by apply follows_perform. Qed.

Lemma follows_run_session fuel b entries : follows (run_session fuel b entries).
Proof.
  apply follows_bind; [|intros _; apply follows_run].
  unshelve eapply (closed_begin_session (perform fuel) (@follows)).
  apply follows_closed. intros. by apply follows_perform.
Qed.
End Abstraction.

(** ** What the machine ensures *)

(** The state after moves, last first, when they are a path of the machine. *)
Fixpoint state_after (start : CallState) (ms : list (CallState * CallState)) : option CallState :=
  match ms with
  | [] => Some start
  | (old, new) :: ms' =>
      s ← state_after start ms';
      if state_eqb s old && negb (state_eqb old new) && allowed old new
      then Some (next_state old new) else None
  end.

Definition ended (s : CallState) : bool := is_final s || state_eqb s Released.

(** How many times a session ends, and how many times it leaves [Released]. *)
Definition endings (ms : list (CallState * CallState)) : nat :=
  length (List.filter (fun m => is_final (snd m)) ms).
Definition restarts (ms : list (CallState * CallState)) : nat :=
  length (List.filter (fun m => state_eqb (fst m) Released && negb (state_eqb (snd m) Referred)) ms).

Record life_ok (l : Life) : Prop := {
  ok_path : state_after Idle (l_moves l) = Some (l_state l);
  ok_state : l_state l <> Referred;
  ok_prev : l_prev l <> Referred;
  ok_stable : In (l_stable l) [Idle; StreamsRunning; Paused];
  ok_endings : endings (l_moves l) = (restarts (l_moves l) + Nat.b2n (ended (l_state l)))%nat;
}.

Lemma stable_after_in s stable :
  In stable [Idle; StreamsRunning; Paused] -> In (stable_after s stable) [Idle; StreamsRunning; Paused].
Proof. destruct s; cbn; tauto. Qed.

Lemma allowed_endings old new :
  old <> Referred -> allowed old new = true -> old <> new ->
  (Nat.b2n (is_final new) + Nat.b2n (ended old) =
   Nat.b2n (state_eqb old Released && negb (state_eqb new Referred)) + Nat.b2n (ended (next_state old new)))%nat.
Proof. by destruct old, new. Qed.

Lemma length_filter_cons {A} (p : A -> bool) x l :
  length (List.filter p (x :: l)) = (Nat.b2n (p x) + length (List.filter p l))%nat.
Proof. cbn. by destruct (p x). Qed.

Lemma life_step_ok l l' : life_step l l' -> life_ok l -> life_ok l'.
Proof.
  intros Hstep [Hpath Hstate Hprev Hstable Hend].
  destruct Hstep as [old prev stable ms new Hne Ha|old prev stable ms new Hne Ha]; cbn in *.
  - split; cbn [l_moves l_state l_prev l_stable].
    + cbn. rewrite Hpath. cbn. rewrite state_eqb_refl, Ha, (proj2 (state_eqb_neq old new) Hne). reflexivity.
    + unfold next_state. destruct (state_eqb new Referred) eqn:E; [done|by apply state_eqb_neq].
    + done.
    + by apply stable_after_in.
    + unfold endings, restarts in *. rewrite !length_filter_cons. cbn [fst snd].
      pose proof (allowed_endings old new Hstate Ha Hne). lia.
  - split; cbn; try done. by apply stable_after_in.
Qed.

Lemma life_steps_ok l l' : rtc life_step l l' -> life_ok l -> life_ok l'.
Proof. induction 1; eauto using life_step_ok. Qed.

(** C9. Whatever its listeners, its operation and the core do, and whatever is
    called on it from within their callbacks, the states a session goes through
    are a path of the machine: it only leaves [End] and [Error] for [Released],
    and enters [Released] from there only; it never stays in [Referred]; its last
    stable state is [Idle], [StreamsRunning] or [Paused]; and it ends at most once
    more than it leaves [Released]. *)
Theorem session_follows_lifecycle `{AddressLib} `{!Environment} csp l n fuel b entries :
  let w := world_after (run_session fuel b entries (new_world csp l n)) in
  rtc life_step (mkLife Idle Idle Idle []) (life w) /\ life_ok (life w).
Proof.
  cbv zeta. pose proof (follows_run_session fuel b entries (new_world csp l n)) as Hsteps.
  change (life (new_world csp l n)) with (mkLife Idle Idle Idle []) in Hsteps.
  split; [exact Hsteps|]. apply (life_steps_ok _ _ Hsteps).
  split; [reflexivity|discriminate|discriminate|left; reflexivity|reflexivity].
Qed.
