(* ===== verification/CallSessionQuiet.v ===== *)
(** * A session nobody calls back

    When listeners and operations do not call the session from within its
    callbacks ([Quiet]), every operation of the session ends, and the results of
    [setState] are given here for each kind of state.  Computations that only
    send messages and tell the listeners are [calm]: they keep the states of the
    session, and most of what an operation does around its requests is calm. *)
From S2P Require Import Prelude ChatTypes LpConfig LpConfigValues Effects ErrorInfo CallSessionTypes CallSession CallSessionRules CallSessionLifecycle.

Class Quiet `{AddressLib} `{!Environment} : Prop := quiet_react : forall w e, react w e = [].

Section Quiet.
Context `{AddressLib} `{!Environment} `{!Quiet}.
Context (fuel : nat).

Notation setState := (setState (perform fuel)).
Notation notify := (notify (perform fuel)).

Lemma perform_quiet e w : perform fuel e w = Finished tt (record_event e w).
Proof. apply nest_quiet, quiet_react. Qed.

(** The world after some events, last first. *)
Definition events (es : list Event) (w : World) : World := w <| history := es ++ history w |>.

Lemma events_nil w : events [] w = w.
Proof. by destruct w. Qed.
Lemma events_events es es' w : events es (events es' w) = events (es ++ es') w.
Proof. unfold events. cbn. by rewrite app_assoc. Qed.
Lemma record_events e w : record_event e w = events [e] w.
Proof. reflexivity. Qed.

Definition is_tell (e : Event) : Prop := match e with Tell _ _ => True | _ => False end.

(** Events that are not calls on an operation. *)
Definition no_op_call (e : Event) : Prop := match e with OnOp _ _ => False | _ => True end.

Lemma tells_no_op_call es : Forall is_tell es -> Forall no_op_call es.
Proof. intros Hes. eapply Forall_impl; [exact Hes|]. by intros []. Qed.

Lemma notify_quiet t w :
  exists es, Forall is_tell es /\ notify t w = Finished tt (events es w).
Proof.
  unfold notify. erewrite bind_finished by reflexivity. generalize (listeners (ses w)) as ls. intros ls.
  revert w. induction ls as [|l ls IH]; intros w; cbn [for_each].
  - exists []. split; [done|]. by rewrite events_nil.
  - destruct (listener_alive w l) eqn:E.
    + destruct (IH (record_event (Tell l t) w)) as (es & Hes & Heq).
      exists (es ++ [Tell l t]). split; [apply Forall_app; split; [done|by repeat constructor]|].
      change (events (es ++ [Tell l t]) w) with (w <| history := (es ++ [Tell l t]) ++ history w |>).
      rewrite <- app_assoc. etrans; [|exact Heq].
      apply (then_finished _ _ _ tt). erewrite bind_finished by reflexivity. rewrite E. apply perform_quiet.
    + destruct (IH w) as (es & Hes & Heq). exists es. split; [done|]. etrans; [|exact Heq].
      apply (then_finished _ _ _ tt). erewrite bind_finished by reflexivity. by rewrite E.
Qed.

(** ** States that do nothing more *)

Definition plain (s : CallState) : bool :=
  match s with IncomingReceived | Connected | End_ | Error | Released => false | _ => true end.

Lemma setState_same new message w : state (ses w) = new -> setState new message w = Finished tt w.
Proof. intros <-. rewrite setState_moved. by rewrite state_eqb_refl. Qed.

Lemma setState_allowed new message w :
  state (ses w) <> new -> allowed (state (ses w)) new = true ->
  setState new message w = after_move (perform fuel) new message (moved new message w).
Proof. intros Hne Ha. rewrite setState_moved, Ha. by rewrite (proj2 (state_eqb_neq _ _) Hne). Qed.

Lemma setState_plain new message w :
  plain new = true -> state (ses w) <> new -> allowed (state (ses w)) new = true ->
  exists es, Forall is_tell es /\ setState new message w = Finished tt (events es (moved new message w)).
Proof.
  intros Hp Hne Ha. rewrite setState_allowed by done. unfold after_move.
  destruct (notify_quiet (OnStateChanged new message) (moved new message w)) as (es & Hes & Heq).
  exists es. split; [done|].
  destruct new; try discriminate Hp;
    do 2 (erewrite then_finished by reflexivity); by rewrite (then_finished _ _ _ tt _ Heq).
Qed.

(** ** States that end the session *)

Definition current_errors (w : World) : option (SalErrorInfo * SalErrorInfo) :=
  o ← op (ses w); Some (ov_errorInfo (view_op w o), ov_reasonErrorInfo (view_op w o)).

(** The error information of the session, once it is asked for. *)
Definition current_ei (w : World) : ErrorInfo :=
  if nonOpError (ses w) then ei (ses w) else linphone_error_info_from_sal_op (ei (ses w)) (current_errors w).

Definition with_ei (e : ErrorInfo) (w : World) : World := w <| ses := (ses w) <| ei := e |> |>.
Definition with_log (l : CallLog) (w : World) : World := w <| ses := (ses w) <| log := l |> |>.

Lemma op_errors_quiet w : op_errors w = Finished (current_errors w) w.
Proof. unfold op_errors, current_errors. unfold_M. destruct (op (ses w)); reflexivity. Qed.

Lemma with_own_ei w : with_ei (ei (ses w)) w = w.
Proof. by destruct w as [[]]. Qed.

Lemma getReason_quiet w :
  getReason w = Finished (ei_reason (current_ei w)) (with_ei (current_ei w) w).
Proof.
  unfold getReason, getErrorInfo, current_ei. unfold_M.
  destruct (nonOpError (ses w)); cbn [negb].
  - by rewrite with_own_ei.
  - by rewrite op_errors_quiet.
Qed.

(** The call log when the session has ended. *)
Definition completed_log (w : World) : CallLog :=
  let l := log (ses w) in
  l <| log_duration := if log_connectedTime l =? 0 then 0
                       else to_int (cv_now (view_core w) - log_connectedTime l) |>
    <| log_errorInfo := Some (linphone_error_info_clone (ei (ses w))) |>.

Lemma reportEvents_quiet w p :
  params (ses w) = Some p -> exists b, reportEvents w = Finished b w.
Proof. intros Hp. unfold reportEvents, the_params. unfold_M. rewrite Hp. cbn. eauto. Qed.

Lemma completeLog_quiet w p : params (ses w) = Some p ->
  exists es, Forall no_op_call es /\
    (log_status (log (ses w)) = LinphoneCallMissed -> In (CountMissedCall (account (ses w))) es) /\
    completeLog (perform fuel) w = Finished tt (events es (with_log (completed_log w) w)).
Proof.
  intros Hp. set (l := log (ses w)).
  set (d := if log_connectedTime l =? 0 then 0 else to_int (cv_now (view_core w) - log_connectedTime l)).
  set (w1 := with_log (completed_log w) w).
  assert (Hw1 : params (ses w1) = Some p) by done.
  set (missed := if bool_decide (log_status l = LinphoneCallMissed) then [CountMissedCall (account (ses w))] else []).
  assert (Hw2 : params (ses (events missed w1)) = Some p) by done.
  destruct (reportEvents_quiet _ p Hw2) as [report Hreport].
  exists ((if report then [ReportConferenceEvent true false] else []) ++ missed).
  split; [|split].
  - apply Forall_app. split; [destruct report|subst missed; case_match]; by repeat constructor.
  - intros Hmissed. apply in_or_app. right. subst missed l. by rewrite Hmissed; left.
  - unfold completeLog. erewrite bind_finished by reflexivity.
    rewrite (bind_finished _ _ _ d w); [|subst d l; unfold_M; destruct (_ =? 0) eqn:E; [reflexivity|]; 
      unfold computeDuration, core; unfold_M; by rewrite E].
    erewrite then_finished by reflexivity.
    do 2 (erewrite bind_finished by reflexivity).
    rewrite (then_finished _ _ _ tt (events missed w1)); [|subst missed; cbn [log_status ses with_log]].
    + rewrite (bind_finished _ _ _ _ _ Hreport). rewrite <- events_events.
      destruct report; [apply perform_quiet|by rewrite events_nil].
    + change (log_status (log (ses w1))) with (log_status l).
      destruct (bool_decide _); [apply perform_quiet|by rewrite events_nil].
Qed.

(** The session once it has entered a final state: its status, then its end. *)
Definition ending_world (w : World) : World :=
  let e := current_ei w in
  with_log ((log (ses w)) <| log_status :=
    ended_status (ei_reason e) (ei_protocol_code e) (log (ses w)) |>) (with_ei e w).

Definition ended_world (w : World) : World :=
  with_log (completed_log (ending_world w)) (ending_world w).

Lemma enter_final new w : is_final new = true ->
  enter_state (perform fuel) new w = Finished tt (ending_world w).
Proof.
  intros Hf.
  assert (Henter : enter_state (perform fuel) new =
    (reason ← getReason;
     modify (fun s => s <| log := (log s) <| log_status :=
       ended_status reason (ei_protocol_code (ei s)) (log s) |> |>)))
    by (destruct new; discriminate || reflexivity).
  rewrite Henter. rewrite (bind_finished _ _ _ _ _ (getReason_quiet w)). reflexivity.
Qed.

Lemma moved_member {A} (f : Session -> A) new message w :
  (forall s, f (leave_state s) = f s) ->
  (forall s st m, f (s <| state := st |> <| messageState := m |>) = f s) ->
  f (ses (moved new message w)) = f (ses w).
Proof. intros Hl Hs. unfold moved. destruct (state_eqb _ _); [apply Hl|]. etrans; [apply Hs|apply Hl]. Qed.

Lemma moved_params new message w : params (ses (moved new message w)) = params (ses w).
Proof. apply (moved_member params); [|done]. intros s. unfold leave_state. cbn. by destruct (state s). Qed.
Lemma moved_account new message w : account (ses (moved new message w)) = account (ses w).
Proof. apply (moved_member account); [|done]. intros s. unfold leave_state. cbn. by destruct (state s). Qed.
Lemma moved_op new message w : op (ses (moved new message w)) = op (ses w).
Proof. apply (moved_member op); [|done]. intros s. unfold leave_state. cbn. by destruct (state s). Qed.
Lemma moved_log new message w : log (ses (moved new message w)) = log (ses w).
Proof. apply (moved_member log); [|done]. intros s. unfold leave_state. cbn. by destruct (state s). Qed.

Lemma setState_final new message w p :
  is_final new = true -> state (ses w) <> new -> allowed (state (ses w)) new = true ->
  params (ses w) = Some p ->
  let w1 := moved new message w in
  exists es, Forall no_op_call es /\
    (log_status (log (ses (ended_world w1))) = LinphoneCallMissed -> In (CountMissedCall (account (ses w))) es) /\
    setState new message w = Finished tt (events es (ended_world w1)).
Proof.
  intros Hf Hne Ha Hp w1. rewrite setState_allowed by done. fold w1.
  assert (Hp1 : params (ses (ending_world w1)) = Some p) by (etrans; [apply moved_params|exact Hp]).
  assert (Ha1 : account (ses (ending_world w1)) = account (ses w)) by apply moved_account.
  destruct (completeLog_quiet (ending_world w1) p Hp1) as (es1 & Hes1 & Hmissed & Hlog).
  destruct (notify_quiet OnSetTerminated (events es1 (ended_world w1))) as (es2 & Hes2 & Hterm).
  destruct (notify_quiet (OnStateChanged new message) (events es2 (events es1 (ended_world w1)))) as (es3 & Hes3 & Hchg).
  exists (es3 ++ es2 ++ es1). split; [|split].
  - rewrite !Forall_app. auto using tells_no_op_call.
  - rewrite <- Ha1. intros Hs. apply in_or_app; right; apply in_or_app; right. by apply Hmissed.
  - unfold after_move. rewrite (then_finished _ _ _ tt _ (enter_final new w1 Hf)), Hf.
    rewrite (then_finished _ _ _ tt (events es2 (events es1 (ended_world w1)))).
    + rewrite (then_finished _ _ _ tt _ Hchg), !events_events, <- app_assoc.
      replace (state_eqb new Released) with false by (by destruct new). reflexivity.
    + unfold setTerminated. rewrite (then_finished _ _ _ tt _ Hlog). exact Hterm.
Qed.

(** The session once it has been released, [e] being its last error. *)
Definition released_session (e : ErrorInfo) (s : Session) : Session :=
  s <| ei := e |> <| op := None |> <| referer := None |> <| transferTarget := None |>
    <| pendingActions := [] |>.

(** Calls on the operation [o] only, and only its release. *)
Definition only_releases (o : option nat) (e : Event) : Prop :=
  match e with OnOp o' c => o = Some o' /\ c = OpRelease | _ => True end.

Lemma tells_only_releases o es : Forall is_tell es -> Forall (only_releases o) es.
Proof. intros Hes. eapply Forall_impl; [exact Hes|]. by intros []. Qed.

Lemma op_release_quiet o w :
  op_release (perform fuel) o w =
  Finished tt (record_event (OnOp o OpRelease) (w <| bound := filter (.≠ o) (bound w) |>)).
Proof.
  unfold op_release, on_op. erewrite then_finished by reflexivity.
  erewrite then_finished; [reflexivity|]. erewrite then_finished; [reflexivity|]. apply perform_quiet.
Qed.

(** What is done with the operation when the session is released. *)
Definition drop_op : M unit :=
  o ← gets op;
  match o with
  | None => mret tt
  | Some o =>
      nonOp ← gets nonOpError;
      errors ← op_errors;
      (when (negb nonOp) do
         modify (fun s => s <| ei := linphone_error_info_from_sal_op (ei s) errors |>)) ;;
      op_release (perform fuel) o ;;
      modify (fun s => s <| op := None |>)
  end.

Lemma drop_op_quiet w :
  exists es e w', drop_op w = Finished tt w' /\
    ses w' = (ses w) <| ei := e |> <| op := None |> /\
    history w' = es ++ history w /\ Forall (only_releases (op (ses w))) es.
Proof.
  unfold drop_op. erewrite bind_finished by reflexivity. destruct (op (ses w)) as [o|] eqn:Ho.
  - set (w3 := with_ei (current_ei w) w).
    exists [OnOp o OpRelease], (current_ei w). eexists. split; [|split; [|split]].
    + erewrite bind_finished by reflexivity. rewrite (bind_finished _ _ _ _ _ (op_errors_quiet w)).
      rewrite (then_finished _ _ _ tt w3).
      { rewrite (then_finished _ _ _ tt _ (op_release_quiet o w3)). reflexivity. }
      subst w3. unfold current_ei. destruct (nonOpError (ses w)); cbn [negb]; [|reflexivity].
      by rewrite with_own_ei.
    + reflexivity.
    + reflexivity.
    + by repeat constructor.
  - exists [], (ei (ses w)), w. repeat split; [|constructor]. destruct w as [[]]; cbn in *. by subst.
Qed.

Lemma setReleased_quiet w :
  exists es e w', setReleased (perform fuel) w = Finished tt w' /\
    ses w' = released_session e (ses w) /\
    history w' = es ++ history w /\ Forall (only_releases (op (ses w))) es.
Proof.
  destruct (drop_op_quiet w) as (es1 & e & w1 & Hdrop & Hses & Hh & Hes1).
  set (w2 := w1 <| ses := (ses w1) <| referer := None |> <| transferTarget := None |> <| pendingActions := [] |> |>).
  destruct (notify_quiet OnSetReleased w2) as (es2 & Hes2 & Hrel).
  exists (es2 ++ es1), e, (events es2 w2). split; [|split; [|split]].
  - change (setReleased (perform fuel)) with (drop_op ;; (modify (fun s => s <| referer := None |>
      <| transferTarget := None |> <| pendingActions := [] |>) ;; notify OnSetReleased)).
    rewrite (then_finished _ _ _ tt _ Hdrop). erewrite then_finished by reflexivity. exact Hrel.
  - cbn. by rewrite Hses.
  - cbn. by rewrite Hh, app_assoc.
  - apply Forall_app. split; [by apply tells_only_releases|done].
Qed.

Lemma setState_released message w :
  is_final (state (ses w)) = true ->
  exists es e w', setState Released message w = Finished tt w' /\
    ses w' = released_session e (ses (moved Released message w)) /\
    history w' = es ++ history w /\ Forall (only_releases (op (ses w))) es.
Proof.
  intros Hf. rewrite setState_allowed; [|by intros Heq; rewrite Heq in Hf|unfold allowed; by rewrite Hf].
  set (w1 := moved Released message w).
  assert (Hop : op (ses w1) = op (ses w)) by apply moved_op.
  destruct (notify_quiet (OnStateChanged Released message) w1) as (es1 & Hes1 & Hchg).
  destruct (setReleased_quiet (events es1 w1)) as (es2 & e & w' & Hrel & Hses & Hh & Hes2).
  exists (es2 ++ es1 ++ [Moving (state (ses w)) Released]), e, w'. split; [|split; [|split]].
  - unfold after_move. do 2 (erewrite then_finished by reflexivity).
    by rewrite (then_finished _ _ _ tt _ Hchg).
  - exact Hses.
  - rewrite Hh. cbn. by rewrite <- !app_assoc.
  - change (op (ses (events es1 w1))) with (op (ses w1)) in Hes2. rewrite Hop in Hes2.
    rewrite !Forall_app. repeat split; [done|by apply tells_only_releases|by repeat constructor].
Qed.
End Quiet.

(** ** Calm computations

    [calm] computations end, in a session that has an operation and parameters,
    and keep the states of the session and what was sent on its behalf. *)

Section Calm.
Context `{AddressLib} `{!Environment} `{!Quiet}.
Context (fuel : nat).

(** The calls on an operation that send a SIP message. *)
Definition sends (c : OpCall) : bool :=
  match c with
  | OpAccept | OpTerminate _ | OpDecline _ | OpReplyWithErrorInfo _ _ _ | OpCall_ _ _ _ | OpUpdate _ _
  | OpCancelInvite | OpNotifyRinging _ | OpRefer _ | OpReferWithReplaces _ | OpNotifyReferState _ => true
  | _ => false
  end.

Definition sent_of (e : Event) : option (nat * OpCall) :=
  match e with OnOp o c => if sends c then Some (o, c) else None | _ => None end.

(** What was sent, last first. *)
Definition sent (w : World) : list (nat * OpCall) := omap sent_of (history w).

Lemma sent_events es w : Forall no_op_call es -> sent (events es w) = sent w.
Proof.
  intros Hes. unfold sent. cbn. rewrite omap_app. induction Hes as [|e es He Hes IH]; [done|].
  cbn. by destruct e.
Qed.

Definition ready (s : Session) : Prop := is_Some (op s) /\ is_Some (params s).

(** The members the theorems follow, apart from the states. *)
Definition kept (s : Session) :=
  (op s, account s, broken s, reinviteOnCancelResponseRequested s, (deferUpdate s, deferUpdateInternal s),
   nonOpError s, referer s).

Definition same (w w' : World) : Prop :=
  ready (ses w') /\ life w' = life w /\ kept (ses w') = kept (ses w) /\ sent w' = sent w.

Definition calm {A} (m : M A) : Prop := forall w, ready (ses w) ->
  exists a w', m w = Finished a w' /\ same w w'.

Lemma same_refl w : ready (ses w) -> same w w.
Proof. intros Hr. split; [exact Hr|]. by split. Qed.

Lemma same_trans w1 w2 w3 : same w1 w2 -> same w2 w3 -> same w1 w3.
Proof. intros (Hr & Hl & Hk & Hs) (Hr' & Hl' & Hk' & Hs'). split; [exact Hr'|]. split; [congruence|]. split; congruence. Qed.

Lemma calm_ret {A} (a : A) : calm (mret a).
Proof. intros w Hw. exists a, w. auto using same_refl. Qed.
Lemma calm_gets {A} (f : Session -> A) : calm (gets f).
Proof. intros w Hw. eexists _, w. split; [reflexivity|by apply same_refl]. Qed.
Lemma calm_asks {A} (f : World -> A) : calm (asks f).
Proof. intros w Hw. eexists _, w. split; [reflexivity|by apply same_refl]. Qed.

Lemma calm_bind {A B} (m : M A) (k : A -> M B) : calm m -> (forall a, calm (k a)) -> calm (m ≫= k).
Proof.
  intros Hm Hk w Hw. destruct (Hm w Hw) as (a & w' & Heq & Hsame).
  destruct (Hk a w' (proj1 Hsame)) as (b & w'' & Heq' & Hsame').
  exists b, w''. split; [by rewrite (bind_finished _ _ _ _ _ Heq)|by eapply same_trans].
Qed.

Lemma calm_for_each {A} (l : list A) f : (forall x, calm (f x)) -> calm (for_each l f).
Proof. intros Hf. induction l; cbn [for_each]; [apply calm_ret|]. by apply calm_bind. Qed.

Lemma calm_the_op : calm the_op.
Proof. intros w Hw. destruct Hw as [[o Ho] Hp] eqn:E. exists o, w. split; [|by apply same_refl].
  unfold the_op. erewrite bind_finished by reflexivity. by rewrite Ho. Qed.
Lemma calm_the_params : calm the_params.
Proof. intros w Hw. destruct Hw as [Ho [p Hp]] eqn:E. exists p, w. split; [|by apply same_refl].
  unfold the_params. erewrite bind_finished by reflexivity. by rewrite Hp. Qed.

Lemma calm_raise e : move_of e = None -> sent_of e = None -> calm (perform fuel e).
Proof.
  intros Hm Hs w Hw. exists tt, (record_event e w). split; [apply perform_quiet|].
  split; [exact Hw|]. unfold life, life_of, moves, sent. cbn. by rewrite Hm, Hs.
Qed.

Lemma calm_log_line e : move_of e = None -> sent_of e = None -> calm (log_line e).
Proof.
  intros Hm Hs w Hw. exists tt, (record_event e w). split; [done|].
  split; [exact Hw|]. unfold life, life_of, moves, sent. cbn. by rewrite Hm, Hs.
Qed.

Lemma calm_world {A} (a : A) (f : World -> World) :
  (forall w, ses (f w) = ses w /\ history (f w) = history w) -> calm (fun w => Finished a (f w)).
Proof.
  intros Hf w Hw. exists a, (f w). split; [done|]. destruct (Hf w) as [Hs Hh].
  unfold same, life, sent. by rewrite Hs, Hh.
Qed.
Lemma calm_bind_op o : calm (bind_op o).
Proof. by apply (calm_world tt (fun w => w <| bound := o :: bound w |>)). Qed.
Lemma calm_bind_private o : calm (bind_private o).
Proof. by apply (calm_world tt (fun w => w <| bound_private := o :: bound_private w |>)). Qed.
Lemma calm_unbind_op o : calm (unbind_op o).
Proof. by apply (calm_world tt (fun w => w <| bound := filter (.≠ o) (bound w) |>)). Qed.
Lemma calm_fresh_op : calm fresh_op.
Proof.
  intros w Hw. exists (nextOp w), (w <| nextOp := S (nextOp w) |>). split; [done|].
  split; [exact Hw|]. by repeat split.
Qed.

Lemma calm_modify f :
  keeps_states f -> (forall s, params (f s) = params s /\ kept (f s) = kept s) -> calm (modify f).
Proof.
  intros Hf Hk w Hw. eexists _, _. split; [reflexivity|].
  destruct (Hf (ses w)) as (Hs & Hp & Hl). destruct (Hk (ses w)) as (Hpar & Hkept).
  assert (Hop : op (f (ses w)) = op (ses w)) by (unfold kept in Hkept; congruence).
  split; [unfold ready; cbn; by rewrite Hop, Hpar|]. split; [|done].
  unfold life, life_of. cbn. by rewrite Hs, Hp, Hl.
Qed.
End Calm.

Create HintDb calm.
#[export] Hint Resolve calm_ret calm_gets calm_asks calm_the_op calm_the_params
  calm_bind_op calm_bind_private calm_unbind_op calm_fresh_op : calm.
#[export] Hint Extern 1 (calm (perform _ _)) => (apply calm_raise; reflexivity) : calm.
#[export] Hint Extern 1 (calm (log_line _)) => (apply calm_log_line; reflexivity) : calm.
#[export] Hint Extern 1 (calm (modify _)) =>
  (apply calm_modify; [keeps_states|intros ?; cbn; repeat case_match; cbn; split; reflexivity]) : calm.

Ltac calm_steps :=
  repeat first
    [ progress intros
    | solve [auto 2 with calm nocore]
    | simple apply calm_bind
    | simple apply calm_for_each
    | case_match ].

Section Commands.
Context `{AddressLib} `{!Environment} `{!Quiet}.
Context (fuel : nat).

Lemma calm_on_op o c : sends c = false -> calm (on_op (perform fuel) o c).
Proof. intros Hc. unfold on_op. apply calm_bind; [|auto with calm]. apply calm_raise; cbn; [done|by rewrite Hc]. Qed.
#[local] Hint Extern 1 (calm (on_op _ _ _)) => (apply calm_on_op; reflexivity) : calm.

Lemma calm_op_do c : sends c = false -> calm (op_do (perform fuel) c).
Proof. intros Hc. unfold op_do. apply calm_bind; [auto with calm|]. intros. by apply calm_on_op. Qed.
#[local] Hint Extern 1 (calm (op_do _ _)) => (apply calm_op_do; reflexivity) : calm.

Ltac calm_simple :=
  unfold config_int, updateCallLog; unfold core, of_op, of_account, modify_log; calm_steps.

Lemma calm_notify t : calm (notify (perform fuel) t).
Proof. unfold notify. calm_steps. Qed.
#[local] Hint Resolve calm_notify : calm.
Lemma calm_reportEvents : calm reportEvents.
Proof. unfold reportEvents. calm_steps. Qed.
#[local] Hint Resolve calm_reportEvents : calm.
Lemma calm_getReason : calm getReason.
Proof. unfold getReason, getErrorInfo, op_errors. calm_simple. Qed.
#[local] Hint Resolve calm_getReason : calm.
Lemma calm_enter_state s : calm (enter_state (perform fuel) s).
Proof.
  unfold enter_state, enter_IncomingReceived, sdpFoundInRemoteBody, sdpFoundInLocalBody, addListener.
  destruct s; calm_simple.
Qed.
Lemma calm_setTerminated : calm (setTerminated (perform fuel)).
Proof. unfold setTerminated, completeLog, computeDuration. calm_simple. Qed.
Lemma calm_setContactOp : calm (setContactOp (perform fuel)).
Proof.
  unfold setContactOp, contact_in_conference, getFixedContact, contact_of_op, account_contact. calm_simple.
Qed.
Lemma calm_refreshContactAddress : calm (refreshContactAddress (perform fuel)).
Proof. unfold refreshContactAddress. calm_simple. Qed.
Lemma calm_updateContactAddressInOp : calm (updateContactAddressInOp (perform fuel)).
Proof. unfold updateContactAddressInOp, contact_of_op. calm_simple. Qed.

Lemma calm_startPing : calm (startPing (perform fuel)).
Proof. unfold startPing. calm_simple. Qed.
Lemma calm_op_release o : calm (op_release (perform fuel) o).
Proof. unfold op_release. calm_steps. Qed.

Lemma calm_after_move new message : new <> Released -> calm (after_move (perform fuel) new message).
Proof.
  intros Hne. unfold after_move. apply (proj2 (state_eqb_neq _ _)) in Hne. rewrite Hne.
  apply calm_bind; [apply calm_enter_state|]. intros.
  apply calm_bind; [case_match; auto using calm_setTerminated with calm|]. calm_steps.
Qed.

(** The result of [setState] on the states, for every state but [Released]. *)
Lemma setState_states new message w :
  new <> Released -> ready (ses w) -> state (ses w) <> new -> allowed (state (ses w)) new = true ->
  exists w', setState (perform fuel) new message w = Finished tt w' /\
    ready (ses w') /\ life w' = life (moved new message w) /\ kept (ses w') = kept (ses w) /\ sent w' = sent w.
Proof.
  intros Hr Hready Hne Ha. rewrite setState_allowed by done.
  assert (Hready' : ready (ses (moved new message w)))
    by (unfold ready; by rewrite moved_op, moved_params).
  destruct (calm_after_move new message Hr _ Hready') as ([] & w' & -> & Hw' & Hlife & Hkept & Hsent).
  exists w'. split; [done|]. split; [done|]. split; [done|]. rewrite Hkept, Hsent. split.
  - unfold kept. unfold moved, leave_state. destruct (state_eqb _ _); cbn; by destruct (state (ses w)).
  - unfold moved, leave_state. destruct (state_eqb _ _); cbn; by destruct (state (ses w)).
Qed.
End Commands.
