(* ===== verification/CallSessionNesting.v ===== *)
(** * Calls from within calls

    First an environment to try a session in: operations whose view is constant,
    a core with an empty configuration, and reactions to choose.  A listener, or
    the operation, may call a session from within one of its callbacks, and so
    on: the calls end as soon as the surroundings stop calling back, and the fuel
    of [perform] is then enough. *)
From S2P Require Import Prelude ChatTypes ChatExamples LpConfig LpConfigValues Effects ErrorInfo CallSessionTypes CallSession CallSessionRules CallSessionLifecycle CallSessionQuiet.

Definition caller : Address := alice.
Definition callee : Address := bob.

(** An operation: its dialog, a request pending on it, and its error. *)
Definition example_op (dialog pending : bool) (sei rsei : SalErrorInfo) : OpView := {|
  ov_hasDialog := dialog; ov_hasRetryFunction := false; ov_dialogRequestPending := pending;
  ov_errorInfo := sei; ov_reasonErrorInfo := rsei; ov_replaces := None;
  ov_remoteContactAddress := Some bob; ov_remoteContactIsFocus := false;
  ov_contactAddress := Some alice; ov_requestAddress := alice; ov_to := alice; ov_from := bob;
  ov_toHasConfId := false; ov_localTag := "a"; ov_remoteTag := "b"; ov_callId := "id";
  ov_privacy := 0; ov_localBodies := []; ov_localSdp := false; ov_remoteSdp := false;
  ov_assertedIdentity := None;
|}.

Definition example_core : CoreView := {|
  cv_config := LinphoneConfig_new; cv_alive := true; cv_now := 1000; cv_networkReachable := true;
  cv_mediaNetworkState := true; cv_pingWithOptions := false; cv_autoSendRinging := true;
  cv_conferenceServer := false; cv_capabilityNegotiation := false; cv_hasDb := true;
  cv_delayed_timeout := 4; cv_in_call_timeout := 0; cv_primaryContact := Some alice; cv_identity := alice;
|}.

Definition example_account : AccountView := {|
  av_contactAddress := Some alice; av_hasOp := false; av_opContactAddress := None; av_hasDependency := false;
  av_registerEnabled := false; av_registrationOk := false; av_identityAddress := alice;
|}.

(** Calls on operations return [result]. *)
Definition example_env (v : OpView) (result : Z) (reaction : World -> Event -> list Entry) : Environment := {|
  view_op := fun _ _ => v; view_core := fun _ => example_core; view_account := fun _ _ => example_account;
  op_result := fun _ _ _ => result; action_result := fun _ f => Z.of_nat f; listener_alive := fun _ _ => true;
  react := reaction; fatal_aborts := true; session_op := fun _ _ => None; call_by_call_id := fun _ _ => false;
  server_conference := fun _ _ => None; conference_uri_of_op := fun _ _ => bob;
  session_has_conference := fun _ => false; reported_conference := fun _ => None;
  conference_contact := fun _ _ => None; address_merge := fun a _ => a;
  with_contact_parameters := fun _ a => a; without_local_ip := fun a => a;
  account_by_factory := fun _ _ => None; account_by_identity := fun _ _ => None;
  account_of_identity := fun _ _ => None; guess_account := fun _ _ _ => None;
|}.

Definition quiet_env (v : OpView) (result : Z) : Environment := example_env v result (fun _ _ => []).

#[export] Instance quiet_env_quiet v result : @Quiet _ (quiet_env v result).
Proof. by intros w e. Defined.

Definition example_params : CallSessionParams :=
  mkParams false false false false false (-1) None None [] [] None.

Definition example_log (dir : LinphoneCallDir) : CallLog := CallLog_create 900 dir alice bob.

(** A session in the state [st], after [prev], with the operation [o]. *)
Definition example_session (dir : LinphoneCallDir) (st prev : CallState) (o : option nat) : Session :=
  (new_session (Some example_params) (example_log dir)) <| direction := dir |> <| state := st |>
    <| prevState := prev |> <| lastStableState := StreamsRunning |> <| op := o |> <| listeners := [1; 2]%nat |>.

Definition example_world (dir : LinphoneCallDir) (st prev : CallState) (o : option nat) : World :=
  mkWorld (example_session dir st prev o) 1 (option_list o) [] [].

(** The text of an error. *)
Definition busy_error : SalErrorInfo :=
  mkSalErrorInfo SalReasonBusy (Some "Busy here") 486 None (Some "SIP") (Some "Busy here") 0 None.

(** ** Some runs *)

Definition told_to (l : nat) (w : World) : list CallState :=
  rev (omap (fun e => match e with Tell l' (OnStateChanged s _) => if Nat.eqb l' l then Some s else None | _ => None end)
         (history w)).


(** An outgoing call that is made, answered and ended by the other side. *)
Example outgoing_call :
  let r := @run_session _ (quiet_env (example_op true false zero_sei zero_sei) 0) 0
    (Configure LinphoneCallOutgoing None None alice bob example_params)
    [AddListener 1; CreateOperation; InitiateOutgoing; StartInvite None "Hello" None; CallRinging 0; CallAccepted 0;
     CallTerminated 0; CallReleased 0; CallTerminated 0]
    (new_world (Some example_params) (example_log LinphoneCallOutgoing) 0) in
  told_to 1 (world_after r) = [OutgoingInit; OutgoingProgress; OutgoingRinging; Connected; End_; Released] /\
  op (ses (world_after r)) = None /\ bound (world_after r) = [].
Proof. vm_compute. by repeat split. Qed.

(** The first listener ends the call from within its callback: it is told that the
    call has ended before the second one is told that it was connected. *)
Definition ends_on_connected (w : World) (e : Event) : list Entry :=
  match e with Tell 1%nat (OnStateChanged Connected _) => [Terminate None] | _ => [] end.

Lemma later_listener_told_out_of_order :
  let r := @run _ (example_env (example_op true false zero_sei zero_sei) 0 ends_on_connected) 1 [CallAccepted 0]
    (example_world LinphoneCallOutgoing OutgoingRinging OutgoingProgress (Some 0%nat)) in
  told_to 1 (world_after r) = [Connected; End_] /\ told_to 2 (world_after r) = [End_; Connected].
Proof. vm_compute. by split. Qed.

(** A REFER received during an update makes [Updating] the previous state: a failed
    update then leaves the session there. *)
Lemma referred_update_stuck :
  let r := @run _ (quiet_env (example_op true false busy_error zero_sei) 0) 0
    [CallReferReceived 0 (Some bob); CallFailure 0]
    (example_world LinphoneCallOutgoing Updating StreamsRunning (Some 0%nat)) in
  state (ses (world_after r)) = Updating.
Proof. by vm_compute. Qed.

(** An update that cannot be sent takes the session back to [Connected], as if it
    was connected again: the call loses the time it was connected. *)
Lemma connected_time_lost :
  let w := example_world LinphoneCallOutgoing Connected OutgoingRinging (Some 0%nat) in
  let w := w <| ses := (ses w) <| log := (log (ses w)) <| log_connectedTime := 950 |> |> |> in
  let r := @run _ (quiet_env (example_op true false zero_sei zero_sei) (-1)) 0
    [Update_ None DefaultMethod "" None] w in
  state (ses (world_after r)) = Connected /\ log_connectedTime (log (ses (world_after r))) = 1000.
Proof. by vm_compute. Qed.

(** ** The calls end *)

Section Nesting.
Context `{AddressLib} `{!Environment}.

(** A computation that starts when [n] events have happened does not use up the
    fuel, and events are never taken back. *)
Definition shallow (n : nat) {A} (m : M A) : Prop := forall w, (n <= length (history w))%nat ->
  match m w with
  | Stopped TooDeep _ => False
  | r => (n <= length (history (world_after r)))%nat
  end.

Lemma shallow_same n {A} (m : M A) :
  (forall w, match m w with Stopped TooDeep _ => False | r => history (world_after r) = history w end) ->
  shallow n m.
Proof. intros Hm w Hn. specialize (Hm w). destruct (m w) as [a w'|[]]; cbn in *; congruence || done. Qed.

Lemma shallow_bind n {A B} (m : M A) (k : A -> M B) :
  shallow n m -> (forall a, shallow n (k a)) -> shallow n (m ≫= k).
Proof.
  intros Hm Hk w Hn. specialize (Hm w Hn). unfold mbind, Eff_bind.
  destruct (m w) as [a w'|[]]; cbn in *; try done. by apply Hk.
Qed.

Lemma shallow_record n e : shallow n (log_line e).
Proof. intros w Hn. cbn. lia. Qed.

Lemma shallow_fatal n : shallow n fatal.
Proof. intros w Hn. unfold fatal. destruct fatal_aborts; cbn; lia. Qed.

Lemma shallow_move n raise new message :
  shallow n (after_move raise new message) -> shallow n (setState raise new message).
Proof.
  intros Hafter w Hn. rewrite setState_moved.
  destruct (state_eqb _ _); [exact Hn|]. destruct (allowed _ _).
  - apply Hafter. unfold moved. destruct (state_eqb _ _); cbn; lia.
  - by apply shallow_fatal.
Qed.

#[export] Instance shallow_closed n raise :
  (forall e, move_of e = None -> shallow n (raise e)) -> Closed raise (@shallow n).
Proof.
  intros Hraise.
  split; try (intros; apply shallow_same; intros w; cbn; done); auto using shallow_record, shallow_fatal, shallow_move.
  - intros. by apply shallow_bind.
  - intros A why Hwhy. apply shallow_same. intros w. cbn. by destruct why.
Qed.

Variable n : nat.
Hypothesis quiet_after : forall w e, (n <= length (history w))%nat -> react w e = [].

Lemma shallow_perform fuel : forall n' e, (n <= n' + S fuel)%nat -> shallow n' (perform fuel e).
Proof.
  induction fuel as [|fuel IH]; intros n' e Hle w Hw; cbn [perform nest].
  - rewrite quiet_after; cbn; lia.
  - destruct (react _ _) as [|e1 l]; [cbn; lia|].
    assert (Hs : shallow (S n') (for_each (e1 :: l) (run_entry (perform fuel)))).
    { apply (closed_entries (perform fuel) (@shallow (S n'))), shallow_closed. intros. apply IH. lia. }
    specialize (Hs (record_event e w) ltac:(cbn; lia)).
    destruct (for_each _ _ (record_event e w)) as [a w'|[]]; done || lia.
Qed.

Lemma shallow_run_session fuel b entries :
  (n <= S fuel)%nat -> shallow 0 (run_session fuel b entries).
Proof.
  intros Hle.
  assert (Hc : Closed (perform fuel) (@shallow 0))
    by (apply shallow_closed; intros; apply shallow_perform; lia).
  apply shallow_bind; [by apply closed_begin_session|].
  intros _. by apply (closed_entries (perform fuel) (@shallow 0)).
Qed.
End Nesting.

(** When nothing is called back once [n] events have happened, whatever was
    called before and from however deep, [n] levels are enough: a run of a
    session is never cut by the fuel. *)
Theorem nested_calls_end `{AddressLib} `{!Environment} n fuel csp l k b entries :
  (forall w e, (n <= length (history w))%nat -> react w e = []) -> (n <= S fuel)%nat ->
  forall w', run_session fuel b entries (new_world csp l k) <> Stopped TooDeep w'.
Proof.
  intros Hquiet Hle w' Heq.
  pose proof (shallow_run_session n Hquiet fuel b entries Hle (new_world csp l k) ltac:(cbn; lia)) as Hs.
  by rewrite Heq in Hs.
Qed.

(** A listener that ends the call from within its callback, and then keeps silent. *)
Definition ends_then_quiet (w : @World ChatExamples.string_addresses) (e : Event) : list Entry :=
  if (10 <=? length (history w))%nat then [] else ends_on_connected w e.

Lemma nested_calls_end_witness :
  (forall w e, (10 <= length (history w))%nat -> ends_then_quiet w e = []) /\ (10 <= S 9)%nat /\
  forall w', @run_session _ (example_env (example_op true false zero_sei zero_sei) 0 ends_then_quiet) 9
    (Configure LinphoneCallOutgoing None None caller callee example_params)
    [AddListener 1; CreateOperation; InitiateOutgoing; CallAccepted 0]
    (new_world (Some example_params) (example_log LinphoneCallOutgoing) 0) <> Stopped TooDeep w'.
Proof.
  assert (Hquiet : forall w e, (10 <= length (history w))%nat -> ends_then_quiet w e = []).
  { intros w e Hle. unfold ends_then_quiet. by rewrite (proj2 (Nat.leb_le _ _) Hle). }
  split; [exact Hquiet|]. split; [lia|].
  apply (@nested_calls_end _ (example_env (example_op true false zero_sei zero_sei) 0 ends_then_quiet) 10);
    [exact Hquiet|lia].
Defined.
