(* ===== verification/CallSessionUpdates.v ===== *)
(** * Updates of a call session

    What a session that nobody calls back sends, and the state it is in, when it
    updates the call, when the remote side does, and when its network is lost. *)
From S2P Require Import Prelude Effects LpConfig LpConfigValues ChatTypes ErrorInfo CallSessionTypes CallSession CallSessionRules CallSessionLifecycle CallSessionQuiet CallSessionNesting.

Section Updates.
Context `{AddressLib} `{!Environment} `{!Quiet}.
Context (fuel : nat).

Notation perform := (perform fuel).

(** From a world to one where the session is still ready, in the state [s] that
    follows [s0], and [c] was sent meanwhile. *)
Record went (c : list (nat * OpCall)) (s : CallState) (w w' : World) : Prop := {
  went_ready : ready (ses w');
  went_state : state (ses w') = s;
  went_kept : kept (ses w') = kept (ses w);
  went_sent : sent w' = c ++ sent w;
}.

Lemma went_op c s w w' : went c s w w' -> op (ses w') = op (ses w).
Proof. intros [_ _ Hk _]. unfold kept in Hk. congruence. Qed.

Lemma went_trans c c' s s' w w' w'' : went c s w w' -> went c' s' w' w'' -> went (c' ++ c) s' w w''.
Proof.
  intros [Hr Hs Hk Hc] [Hr' Hs' Hk' Hc']. split; [done|done|congruence|].
  by rewrite Hc', Hc, app_assoc.
Qed.

Lemma same_state w w' : life w' = life w -> state (ses w') = state (ses w).
Proof. intros Hl. exact (f_equal l_state Hl). Qed.

Lemma same_went w w' : same w w' -> went [] (state (ses w)) w w'.
Proof. intros (Hr & Hl & Hk & Hs). split; auto using same_state. Qed.

(** A command that only makes the session go from a state to another. *)
Definition goes {A} (m : M A) (w : World) (P : A -> World -> Prop) : Prop :=
  exists a w', m w = Finished a w' /\ P a w'.

Lemma goes_bind {A B} (m : M A) (k : A -> M B) w (Q : A -> World -> Prop) P :
  goes m w Q -> (forall a w', Q a w' -> goes (k a) w' P) -> goes (m ≫= k) w P.
Proof.
  intros (a & w' & Heq & HQ) Hk. destruct (Hk a w' HQ) as (b & w'' & Heq' & HP).
  exists b, w''. split; [by rewrite (bind_finished _ _ _ _ _ Heq)|done].
Qed.

Lemma goes_ret {A} (a : A) w (P : A -> World -> Prop) : P a w -> goes (mret a) w P.
Proof. intros HP. by exists a, w. Qed.

Lemma goes_calm {A} (m : M A) w :
  calm m -> ready (ses w) -> goes m w (fun _ w' => same w w').
Proof. intros Hm Hw. destruct (Hm w Hw) as (a & w' & Heq & Hs). by exists a, w'. Qed.

Lemma goes_calm_bind {A B} (m : M A) (k : A -> M B) w P :
  calm m -> ready (ses w) -> (forall a w', same w w' -> goes (k a) w' P) -> goes (m ≫= k) w P.
Proof. intros Hm Hw Hk. eapply goes_bind; [by apply goes_calm|exact Hk]. Qed.

(** Reading a member gives its value, in the same world. *)
Lemma goes_gets {A B} (f : Session -> A) (k : A -> M B) w P :
  goes (k (f (ses w))) w P -> goes (gets f ≫= k) w P.
Proof. done. Qed.

Lemma goes_asks {A B} (f : World -> A) (k : A -> M B) w P :
  goes (k (f w)) w P -> goes (asks f ≫= k) w P.
Proof. done. Qed.

Lemma the_op_reads o w : op (ses w) = Some o -> the_op w = Finished o w.
Proof. intros Ho. unfold the_op. erewrite bind_finished by reflexivity. by rewrite Ho. Qed.

Lemma goes_send o c w : op (ses w) = Some o -> sends c = true -> ready (ses w) ->
  goes (op_do perform c) w (fun r w' => went [(o, c)] (state (ses w)) w w' /\ life w' = life w /\ r = op_result w' o c).
Proof.
  intros Ho Hc Hw. exists (op_result (record_event (OnOp o c) w) o c), (record_event (OnOp o c) w).
  split.
  - unfold op_do. rewrite (bind_finished _ _ _ _ _ (the_op_reads o w Ho)).
    unfold on_op. by rewrite (then_finished _ _ _ tt _ (perform_quiet fuel (OnOp o c) w)).
  - split; [|by split]. split; try done. unfold sent. cbn. by rewrite Hc.
Qed.

Lemma goes_setState new message w :
  new <> Released -> ready (ses w) -> allowed (state (ses w)) new = true ->
  goes (setState perform new message) w (fun _ w' =>
    went [] (next_state (state (ses w)) new) w w' /\
    prevState (ses w') = (if state_eqb (state (ses w)) new then prevState (ses w) else state (ses w)) /\
    lastStableState (ses w') = (if state_eqb (state (ses w)) new then lastStableState (ses w)
                                else stable_after (state (ses w)) (lastStableState (ses w)))).
Proof.
  intros Hr Hw Ha. destruct (state_eqb (state (ses w)) new) eqn:E.
  - apply state_eqb_spec in E. exists tt, w. split; [by apply setState_same|].
    split; [|done]. split; try done. unfold next_state. by destruct (state_eqb new Referred).
  - apply state_eqb_neq in E.
    destruct (setState_states fuel new message w Hr Hw E Ha) as (w' & Heq & Hw' & Hlife & Hk & Hs).
    rewrite life_moved in Hlife. exists tt, w'. split; [done|].
    split; [|split; [exact (f_equal l_prev Hlife)|exact (f_equal l_stable Hlife)]].
    split; try done. exact (f_equal l_state Hlife).
Qed.

Lemma went_nil c s w w' w'' : same w' w'' -> went c s w w' -> went c s w w''.
Proof.
  intros Hsame Hw. pose proof (went_trans _ _ _ _ _ _ _ Hw (same_went _ _ Hsame)) as Ht.
  by rewrite (went_state _ _ _ _ Hw) in Ht.
Qed.

(** ** Updates made here *)

(** Which state an update is made in; none when it is refused. *)
Definition update_state (retry : bool) (st : CallState) : option CallState :=
  if retry then None else
  match st with
  | IncomingReceived | PushIncomingReceived | IncomingEarlyMedia | OutgoingRinging
  | OutgoingEarlyMedia => Some EarlyUpdating
  | Connected | StreamsRunning | PausedByRemote | UpdatedByRemote => Some Updating
  | Paused => Some Pausing
  | OutgoingProgress | Pausing | Resuming | Updating | EarlyUpdating => Some st
  | _ => None
  end.

Lemma isUpdateAllowed_quiet o w : op (ses w) = Some o ->
  isUpdateAllowed w = Finished (update_state (ov_hasRetryFunction (view_op w o)) (state (ses w))) w.
Proof.
  intros Ho. unfold isUpdateAllowed. by rewrite (bind_finished _ _ _ _ _ (the_op_reads o w Ho)).
Qed.

Lemma update_state_allowed retry st next :
  update_state retry st = Some next ->
  allowed st next = true /\ allowed next st = true /\ next <> Released /\ st <> Released /\
  next_state st next = next /\ next_state next st = st.
Proof. destruct retry, st; cbn; intros [= <-]; by repeat split. Qed.

Lemma startUpdate_goes method subj o w : op (ses w) = Some o -> ready (ses w) ->
  goes (startUpdate perform method subj) w (fun r w' =>
    exists s p, went [(o, OpUpdate s (match method with DefaultMethod => cp_noUserConsent p
                                   | InviteMethod => false | UpdateMethod_ => true end))]
                  (state (ses w)) w w' /\ life w' = life w).
Proof.
  intros Ho Hw. unfold startUpdate.
  apply goes_calm_bind; [calm_steps|done|]. intros s w1 Hw1.
  apply goes_calm_bind; [apply calm_refreshContactAddress|apply Hw1|]. intros ? w2 Hw2.
  apply goes_calm_bind; [auto with calm|apply Hw2|]. intros p w3 Hw3.
  apply goes_calm_bind; [by apply calm_op_do|apply Hw3|]. intros ? w4 Hw4.
  apply goes_calm_bind; [apply calm_updateContactAddressInOp|apply Hw4|]. intros ? w5 Hw5.
  apply goes_calm_bind; [auto with calm|apply Hw5|]. intros p' w6 Hw6.
  assert (Hall : same w w6) by (eauto 7 using same_trans).
  destruct Hall as (Hr6 & Hl6 & Hk6 & Hs6).
  assert (Ho6 : op (ses w6) = Some o) by (unfold kept in Hk6; congruence).
  destruct (goes_send o (OpUpdate s (match method with DefaultMethod => cp_noUserConsent p'
              | InviteMethod => false | UpdateMethod_ => true end)) w6 Ho6 eq_refl Hr6)
    as (r & w7 & Heq & Hwent & Hlife & _).
  exists r, w7. split; [exact Heq|]. exists s, p'. split; [|congruence].
  destruct Hwent as [Hr Hst Hk Hs]. split; [done| |congruence|].
  - rewrite Hst. by apply same_state.
  - by rewrite Hs, Hs6.
Qed.

Lemma same_modify_params csp w :
  ready (ses w) -> same w (w <| ses := (ses w) <| params := Some csp |> |>).
Proof. intros [Ho Hp]. split; [split; [exact Ho|by eexists]|]. by repeat split. Qed.

Lemma calm_give_params csp :
  calm (match csp with None => mret tt | Some csp => setParams csp end).
Proof.
  destruct csp as [csp|]; [|apply calm_ret]. intros w Hw. unfold setParams.
  eexists tt, _. split; [reflexivity|by apply same_modify_params].
Qed.

Lemma same_op w w' : same w w' -> op (ses w') = op (ses w).
Proof. intros (_ & _ & Hk & _). unfold kept in Hk. congruence. Qed.

(** What is sent is sent once, and the state is the one of the update, or the
    initial one when the SAL fails to send it. *)
Lemma update_goes csp method subj content o w next :
  op (ses w) = Some o -> ready (ses w) ->
  update_state (ov_hasRetryFunction (view_op w o)) (state (ses w)) = Some next ->
  goes (update perform csp method subj content) w (fun r w' => exists s noUserConsent,
    went [(o, OpUpdate s noUserConsent)] (if r =? 0 then next else state (ses w)) w w' /\
    (method = InviteMethod -> noUserConsent = false)).
Proof.
  intros Ho Hw Hn.
  destruct (update_state_allowed _ _ _ Hn) as (Ha & Hback & Hnr & Hsr & Hto & Hfrom).
  unfold update. apply goes_gets.
  eapply (goes_bind _ _ _ (fun a w' => a = Some next /\ w' = w)).
  { eexists _, w. split; [by apply isUpdateAllowed_quiet|by rewrite Hn]. }
  intros a ? [-> ->].
  eapply goes_bind. { apply goes_setState; [exact Hnr|exact Hw|exact Ha]. }
  intros ? w1 (Hw1 & _). rewrite Hto in Hw1.
  apply goes_calm_bind; [apply calm_give_params|exact (went_ready _ _ _ _ Hw1)|]. intros ? w2 Hw2.
  apply goes_calm_bind; [apply calm_the_params|exact (proj1 Hw2)|]. intros p w3 Hw3.
  apply goes_calm_bind; [by apply calm_op_do|exact (proj1 Hw3)|]. intros ? w4 Hw4.
  assert (H14 : same w1 w4) by (eauto 5 using same_trans).
  assert (Ho4 : op (ses w4) = Some o) by (rewrite (same_op _ _ H14), (went_op _ _ _ _ Hw1); exact Ho).
  eapply goes_bind. { apply (startUpdate_goes method subj o w4 Ho4 (proj1 H14)). }
  intros r w5 (s & p' & Hw5 & _).
  pose proof (went_trans _ _ _ _ _ _ _ (went_nil _ _ _ _ _ H14 Hw1) Hw5) as H5.
  rewrite (went_state _ _ _ _ (went_nil _ _ _ _ _ H14 Hw1)) in H5. cbn [app] in H5.
  apply goes_gets.
  eapply (goes_bind _ _ _ (fun _ w' =>
    went [(o, OpUpdate s (match method with DefaultMethod => cp_noUserConsent p'
            | InviteMethod => false | UpdateMethod_ => true end))] (if r =? 0 then next else state (ses w)) w w')).
  - rewrite (went_state _ _ _ _ H5). destruct (r =? 0); cbn [negb andb]; [by apply goes_ret|].
    destruct (state_eqb next (state (ses w))) eqn:E; cbn [negb].
    + apply state_eqb_spec in E. apply goes_ret. by rewrite <- E.
    + destruct (goes_setState (state (ses w)) "Restore initial state" w5 Hsr (went_ready _ _ _ _ H5))
        as ([] & w6 & Heq & Hw6 & _); [by rewrite (went_state _ _ _ _ H5)|].
      exists tt, w6. split; [exact Heq|].
      pose proof (went_trans _ _ _ _ _ _ _ H5 Hw6) as H6. by rewrite (went_state _ _ _ _ H5), Hfrom in H6.
  - intros ? w6 H6. apply goes_ret. eexists s, _. split; [exact H6|by intros ->].
Qed.

(** C28. An update that is not allowed, in the state of the session or because a
    request is to be retried, returns -1 and changes nothing.  Otherwise exactly one
    message is sent, the re-INVITE or UPDATE, and the session is in the transient
    state of the update, or again in its initial state when sending it fails. *)
Theorem update_outcome csp method subj content o w :
  op (ses w) = Some o -> is_Some (params (ses w)) ->
  match update_state (ov_hasRetryFunction (view_op w o)) (state (ses w)) with
  | None => update perform csp method subj content w = Finished (-1) w
  | Some next => exists r w' s noUserConsent,
      update perform csp method subj content w = Finished r w' /\
      sent w' = (o, OpUpdate s noUserConsent) :: sent w /\
      state (ses w') = (if r =? 0 then next else state (ses w)) /\
      op (ses w') = Some o
  end.
Proof.
  intros Ho Hp. destruct (update_state _ _) as [next|] eqn:Hn.
  - destruct (update_goes csp method subj content o w next Ho) as (r & w' & Heq & s & b & Hwent & _);
      [split; eauto|exact Hn|].
    exists r, w', s, b. split; [exact Heq|]. destruct Hwent as [_ Hs Hk Hsent].
    split; [exact Hsent|]. split; [exact Hs|]. unfold kept in Hk. congruence.
  - unfold update. erewrite bind_finished by reflexivity.
    by rewrite (bind_finished _ _ _ _ _ (isUpdateAllowed_quiet o w Ho)), Hn.
Qed.

(** ** Updates made by the remote side *)

Lemma goes_weaken {A} (m : M A) w (P Q : A -> World -> Prop) :
  goes m w P -> (forall a w', P a w' -> Q a w') -> goes m w Q.
Proof. intros (a & w' & Heq & HP) HQ. exists a, w'. auto. Qed.

Lemma ended_allowed st new : ended st = false -> ended new = false -> allowed st new = true.
Proof. by destruct st, new. Qed.

Lemma ended_not_released new : ended new = false -> new <> Released.
Proof. by destruct new. Qed.

Lemma next_not_referred st new : new <> Referred -> next_state st new = new.
Proof. intros Hne. unfold next_state. by rewrite (proj2 (state_eqb_neq new Referred) Hne). Qed.

(** The answer is sent and the session enters [next]. *)
Lemma accept_goes csp next info o w :
  op (ses w) = Some o -> ready (ses w) -> ended (state (ses w)) = false ->
  ended next = false -> next <> Referred ->
  goes (p_acceptUpdate perform csp next info) w (fun r w' => went [(o, OpAccept)] next w w').
Proof.
  intros Ho Hw Hst Hnext Href. unfold p_acceptUpdate, startAcceptUpdate.
  eapply goes_bind; [by apply (goes_send o OpAccept w Ho)|]. intros ? w1 (Hw1 & _).
  eapply goes_bind.
  { apply goes_setState; [by apply ended_not_released|exact (went_ready _ _ _ _ Hw1)|].
    rewrite (went_state _ _ _ _ Hw1). by apply ended_allowed. }
  intros ? w2 (Hw2 & _). apply goes_ret.
  pose proof (went_trans _ _ _ _ _ _ _ Hw1 Hw2) as H12.
  by rewrite next_not_referred in H12.
Qed.

(** The session is told of the update, and answers it unless the answer is left
    to the application. *)
Lemma updatedByRemote_goes o w :
  op (ses w) = Some o -> ready (ses w) -> ended (state (ses w)) = false -> state (ses w) <> Referred ->
  (state (ses w) = UpdatedByRemote -> ended (prevState (ses w)) = false /\ prevState (ses w) <> Referred) ->
  let deferred := deferUpdate (ses w) || deferUpdateInternal (ses w) in
  let st := if state_eqb (state (ses w)) UpdatedByRemote then prevState (ses w) else state (ses w) in
  goes (updatedByRemote perform) w (fun _ w' =>
    went (if deferred then [] else [(o, OpAccept)]) (if deferred then UpdatedByRemote else st) w w').
Proof.
  intros Ho Hw Hst Href Hprev0 deferred st. unfold updatedByRemote.
  eapply goes_bind.
  { apply goes_setState; [done|exact Hw|by apply ended_allowed]. }
  intros ? w1 (Hw1 & Hprev & _). rewrite next_not_referred in Hw1 by done. fold st in Hprev.
  apply goes_gets.
  assert (Hd : deferUpdate (ses w1) || deferUpdateInternal (ses w1) = deferred).
  { pose proof (went_kept _ _ _ _ Hw1) as Hk. unfold kept in Hk. subst deferred. congruence. }
  rewrite Hd. destruct deferred; [by apply goes_ret|].
  rewrite (went_state _ _ _ _ Hw1), state_eqb_refl.
  assert (Hback : goes (acceptUpdate perform None) w1 (fun _ w' => went [(o, OpAccept)] st w1 w')).
  { unfold acceptUpdate. apply goes_gets. rewrite (went_state _ _ _ _ Hw1), state_eqb_refl.
    apply goes_gets. rewrite Hprev. subst st.
    apply accept_goes; [by rewrite (went_op _ _ _ _ Hw1)|exact (went_ready _ _ _ _ Hw1)
      |by rewrite (went_state _ _ _ _ Hw1)| |]; destruct (state_eqb _ _) eqn:E; try done;
      apply state_eqb_spec in E; by apply Hprev0. }
  eapply goes_bind; [exact Hback|]. intros ? w2 Hw2. apply goes_ret.
  exact (went_trans _ _ _ _ _ _ _ Hw1 Hw2).
Qed.

(** What is answered to a re-INVITE or an UPDATE, and the state the session is left in. *)
Definition remote_update (isUpdate deferred : bool) (st prev : CallState) : list OpCall * CallState :=
  match st with
  | PausedByRemote | StreamsRunning | Connected =>
      if deferred then ([], UpdatedByRemote) else ([OpAccept], st)
  | UpdatedByRemote => if deferred then ([], st) else ([OpAccept], prev)
  | OutgoingRinging | OutgoingEarlyMedia | IncomingEarlyMedia =>
      if isUpdate then ([OpAccept], st) else ([], st)
  | Paused | Pausing | Updating | Resuming => ([OpAccept], st)
  | End_ | Released =>
      ([OpReplyWithErrorInfo (sip_error SalReasonNoMatch (Some "Incompatible SDP"%string)) None 0], st)
  | _ => ([], st)
  end.

(** The answer is left to the application. *)
Definition deferred_update (w : World) : bool :=
  negb (linphone_config_get_int (cv_config (view_core w)) "sip" "defer_update_default" 0 =? 0)
  || deferUpdateInternal (ses w).

(** A state is shown for a while, and the update is accepted. *)
Lemma brief_accept_goes via message (next : World -> CallState) info o w st :
  op (ses w) = Some o -> ready (ses w) -> state (ses w) = st -> ended st = false -> st <> Referred ->
  via <> st -> ended via = false -> via <> Referred ->
  (forall w1, prevState (ses w1) = st -> next w1 = st) ->
  goes (setState perform via message ;; (w1 ← asks (fun w1 => w1);
        p_acceptUpdate perform None (next w1) (info w1) ;; mret tt)) w
    (fun _ w' => went [(o, OpAccept)] st w w').
Proof.
  intros Ho Hw Hst Hend Href Hvia Hvend Hvref Hnext.
  eapply goes_bind. { apply goes_setState; [by apply ended_not_released|exact Hw|rewrite Hst; by apply ended_allowed]. }
  intros ? w1 (Hw1 & Hprev & _). rewrite Hst, next_not_referred in Hw1 by done.
  rewrite Hst, (proj2 (state_eqb_neq st via)) in Hprev by congruence.
  apply goes_asks. eapply goes_bind.
  { apply (accept_goes None _ _ o); [by rewrite (went_op _ _ _ _ Hw1)|exact (went_ready _ _ _ _ Hw1)
      |by rewrite (went_state _ _ _ _ Hw1)|by rewrite Hnext|by rewrite Hnext]. }
  intros ? w2 Hw2. apply goes_ret. rewrite Hnext in Hw2 by done. exact (went_trans _ _ _ _ _ _ _ Hw1 Hw2).
Qed.

Lemma updated_in_goes isUpdate o w :
  op (ses w) = Some o -> ready (ses w) -> state (ses w) <> Referred ->
  (state (ses w) = UpdatedByRemote -> ended (prevState (ses w)) = false /\ prevState (ses w) <> Referred) ->
  let r := remote_update isUpdate (deferUpdate (ses w) || deferUpdateInternal (ses w))
             (state (ses w)) (prevState (ses w)) in
  goes (updated_in perform isUpdate (state (ses w))) w
    (fun _ w' => went (map (fun c => (o, c)) (fst r)) (snd r) w w').
Proof.
  intros Ho Hw Href Hprev r.
  assert (Hby : ended (state (ses w)) = false -> goes (updatedByRemote perform) w _)
    by (intros Hend; exact (updatedByRemote_goes o w Ho Hw Hend Href Hprev)).
  assert (Hstay : goes (mret tt) w (fun _ w' => went [] (state (ses w)) w w'))
    by (apply goes_ret; by split).
  assert (Hreply : forall c, sends c = true ->
    goes (op_do perform c ;; mret tt) w (fun _ w' => went [(o, c)] (state (ses w)) w w')).
  { intros c Hc. eapply goes_bind; [by apply (goes_send o c w Ho)|]. intros ? w' (Hw' & _). by apply goes_ret. }
  subst r. unfold remote_update.
  destruct (state (ses w)) eqn:Hst; cbn [updated_in fst snd map]; try exact Hstay;
    try (eapply goes_weaken; [exact (Hby eq_refl)|]; intros ? w' Hw'; by destruct (_ || _));
    try (by apply Hreply);
    try (destruct isUpdate; [|exact Hstay]).
  all: try exact (brief_accept_goes EarlyUpdatedByRemote _ (fun w1 => prevState (ses w1))
         (fun w1 => linphone_call_state_to_string (prevState (ses w1))) o w _ Ho Hw Hst eq_refl
         ltac:(discriminate) ltac:(discriminate) eq_refl ltac:(discriminate) (fun _ Heq => Heq)).
  all: by eapply (brief_accept_goes UpdatedByRemote _ (fun _ => _) (fun _ => _) o w).
Qed.

(** C29. A session whose remote side sends a re-INVITE or an UPDATE answers it once
    and is then in the state it was in, whatever state it has shown meanwhile; when
    updates are deferred to the application it answers nothing and stays in
    [UpdatedByRemote], but only from the states where the call runs; a session that
    has ended refuses the update; in the other early states nothing is answered. *)
Theorem remote_update_outcome isUpdate o w :
  op (ses w) = Some o -> is_Some (params (ses w)) -> state (ses w) <> Referred ->
  (state (ses w) = UpdatedByRemote -> ended (prevState (ses w)) = false /\ prevState (ses w) <> Referred) ->
  let r := remote_update isUpdate (deferred_update w) (state (ses w)) (prevState (ses w)) in
  exists w', updated perform isUpdate w = Finished tt w' /\
    sent w' = map (fun c => (o, c)) (fst r) ++ sent w /\ state (ses w') = snd r.
Proof.
  intros Ho Hp Href Hprev r.
  set (w0 := w <| ses := (ses w) <| deferUpdate :=
    negb (linphone_config_get_int (cv_config (view_core w)) "sip" "defer_update_default" 0 =? 0) |> |>).
  destruct (updated_in_goes isUpdate o w0 Ho) as ([] & w' & Heq & Hwent); [split; [by exists o|exact Hp]|done|done|].
  exists w'. split; [exact Heq|]. split; [exact (went_sent _ _ _ _ Hwent)|exact (went_state _ _ _ _ Hwent)].
Qed.

(** A session refresh is shown as [UpdatedByRemote] and leaves the state as it
    was; but one that comes while an update is left to the application takes the
    session back to its previous state, where the update can no longer be
    accepted. *)
Theorem session_refresh_outcome o w :
  op (ses w) = Some o -> is_Some (params (ses w)) ->
  ended (state (ses w)) = false -> state (ses w) <> Referred ->
  ended (prevState (ses w)) = false -> prevState (ses w) <> Referred ->
  exists w', refreshed perform w = Finished tt w' /\ sent w' = sent w /\
    state (ses w') = (if state_eqb (state (ses w)) UpdatedByRemote then prevState (ses w) else state (ses w)) /\
    (state (ses w) = UpdatedByRemote -> prevState (ses w) <> UpdatedByRemote ->
     acceptUpdate perform None w' = Finished (-1) w').
Proof.
  intros Ho Hp Hst Href Hpst Hpref.
  assert (Hw : ready (ses w)) by (split; [by exists o|exact Hp]).
  destruct (goes_setState UpdatedByRemote "Session refresh" w ltac:(done) Hw ltac:(by apply ended_allowed))
    as ([] & w1 & Heq1 & Hw1 & Hprev & _).
  rewrite next_not_referred in Hw1 by done.
  assert (Hp1 : ended (prevState (ses w1)) = false /\ prevState (ses w1) <> Referred)
    by (rewrite Hprev; by destruct (state_eqb _ _)).
  destruct (goes_setState (prevState (ses w1)) (prevMessageState (ses w1)) w1
    (ended_not_released _ (proj1 Hp1)) (went_ready _ _ _ _ Hw1)) as ([] & w2 & Heq2 & Hw2 & _).
  { rewrite (went_state _ _ _ _ Hw1). by apply ended_allowed, Hp1. }
  rewrite next_not_referred in Hw2 by apply Hp1.
  exists w2. split; [|split; [|split]].
  - unfold refreshed. by rewrite (then_finished _ _ _ tt _ Heq1).
  - exact (went_sent _ _ _ _ (went_trans _ _ _ _ _ _ _ Hw1 Hw2)).
  - by rewrite (went_state _ _ _ _ Hw2), Hprev.
  - intros Hup Hne. unfold acceptUpdate. erewrite bind_finished by reflexivity.
    rewrite (went_state _ _ _ _ Hw2), Hprev, Hup, state_eqb_refl.
    by rewrite (proj2 (state_eqb_neq _ _) Hne).
Qed.

(** ** Failures *)

(** A new operation takes the place of the one of the session. *)
Lemma createOp_goes o w : op (ses w) = Some o -> ready (ses w) ->
  goes (createOp perform) w (fun _ w' => ready (ses w') /\ op (ses w') = Some (nextOp w) /\
    life w' = life w /\ sent w' = sent w /\ account (ses w') = account (ses w) /\ broken (ses w') = broken (ses w)).
Proof.
  intros Ho Hw. unfold createOp, createOpTo. apply goes_gets, goes_gets. rewrite Ho.
  set (w1 := record_event (OnOp o OpRelease) (w <| bound := filter (.≠ o) (bound w) |>)).
  eapply (goes_bind _ _ _ (fun _ w' => w' = w1)).
  { exists tt, w1. split; [apply op_release_quiet|done]. }
  intros ? ? ->.
  set (w2 := record_event (CreateOp (nextOp w)) (w1 <| nextOp := S (nextOp w) |> <| bound := nextOp w :: bound w1 |>)).
  set (w3 := w2 <| ses := (ses w2) <| op := Some (nextOp w) |> |>).
  assert (Hw3 : ready (ses w3)) by (split; [by eexists|exact (proj2 Hw)]).
  assert (Htail : calm (
    p ← the_params;
    match cp_referer p with
    | None => mret tt
    | Some r => ro ← asks (fun w => session_op w r); on_op perform (nextOp w) (OpSetReferrer ro) ;; mret tt
    end ;;
    a ← gets account;
    on_op perform (nextOp w) (OpConfigure (log_to (log (ses w))) a) ;;
    match cp_privacy p with
    | None => mret tt
    | Some privacy => on_op perform (nextOp w) (OpSetPrivacy privacy) ;; mret tt
    end)).
  { repeat first [progress intros | solve [auto 2 with calm nocore] | by apply calm_on_op
                 | simple apply calm_bind | case_match]. }
  destruct (Htail w3 Hw3) as ([] & w4 & Heq & Hr & Hl & Hk & Hs).
  eexists _, w4. split; [exact Heq|]. split; [exact Hr|].
  split; [unfold kept in Hk; change (op (ses w3)) with (Some (nextOp w)) in Hk; congruence|].
  split; [exact Hl|]. split; [exact Hs|].
  change (account (ses w)) with (account (ses w3)). change (broken (ses w)) with (broken (ses w3)).
  unfold kept in Hk. split; congruence.
Qed.

Lemma initiateOutgoing_goes w : ready (ses w) -> ended (state (ses w)) = false ->
  goes (initiateOutgoing perform) w (fun _ w' => went [] OutgoingInit w w').
Proof.
  intros Hw Hst. unfold initiateOutgoing.
  eapply goes_bind. { apply goes_setState; [done|exact Hw|by apply ended_allowed]. }
  intros ? w1 (Hw1 & _). rewrite next_not_referred in Hw1 by done. apply goes_gets.
  destruct (account (ses w1)); [by apply goes_ret|].
  eapply goes_weaken; [apply goes_calm; [apply calm_startPing|exact (went_ready _ _ _ _ Hw1)]|].
  intros u w2 Hw2. exact (went_nil _ _ _ _ _ Hw2 Hw1).
Qed.

(** The states of an update: its failure does not end the session. *)
Definition transient (st : CallState) : bool :=
  match st with Updating | Pausing | Resuming | StreamsRunning => true | _ => false end.

(** A redirected session has a new operation, on which nothing was sent. *)
Definition is_redirected (sei : SalErrorInfo) (redirection : option Address) (st : CallState) : bool :=
  match sal_reason sei, redirection, st with
  | SalReasonRedirect, Some _, (OutgoingInit | OutgoingProgress | OutgoingRinging | OutgoingEarlyMedia) => true
  | _, _, _ => false
  end.

(** What a failed request does: whether the failure was dealt with, and the state
    it leaves; none where the text of the error is a null pointer. *)
Definition failure_result (sei : SalErrorInfo) (retry : bool) (redirection : option Address)
    (st prev stable : CallState) : option (bool * CallState) :=
  if is_redirected sei redirection st then Some (true, OutgoingInit)
  else if transient st && bool_decide (sal_reason sei = SalReasonRequestPending) then
    Some (true, if retry then st else stable)
  else if transient st && negb (bool_decide (sal_reason sei = SalReasonNoMatch)) then
    (fun _ => (true, prev)) <$> sal_full_string sei
  else
    Some (false,
      if is_final st then st
      else if bool_decide (sal_reason sei = SalReasonDeclined) then End_
      else if isEarlyState st then Error else End_).

Lemma end_after_error_goes sei w : ready (ses w) ->
  goes (end_after_error perform sei) w (fun _ w' => ready (ses w') /\
    state (ses w') = if is_final (state (ses w)) then state (ses w)
                     else if bool_decide (sal_reason sei = SalReasonDeclined) then End_
                     else if isEarlyState (state (ses w)) then Error else End_).
Proof.
  intros Hw. unfold end_after_error. apply goes_gets.
  destruct (is_final (state (ses w))) eqn:Hf; cbn [negb]; [by apply goes_ret|].
  assert (Hend : forall new message, is_final new = true ->
    goes (setState perform new message) w (fun _ w' => ready (ses w') /\ state (ses w') = new)).
  { intros new message Hnew. eapply goes_weaken.
    - apply goes_setState; [by destruct new|exact Hw|unfold allowed; rewrite Hf; by destruct new].
    - intros u w' (Hw' & _). split; [exact (went_ready _ _ _ _ Hw')|].
      rewrite (went_state _ _ _ _ Hw'). apply next_not_referred. by destruct new. }
  case_bool_decide; [by apply Hend|]. destruct (isEarlyState _); by apply Hend.
Qed.

Lemma notifyReferState_goes r w : ready (ses w) ->
  goes (notifyReferState perform r) w (fun _ w' => ready (ses w') /\ state (ses w') = state (ses w)).
Proof.
  intros Hw. unfold notifyReferState. apply goes_asks. destruct (session_op w r) as [ro|]; [|by apply goes_ret].
  apply goes_gets. set (c := OpNotifyReferState (op (ses w))).
  exists tt, (record_event (OnOp ro c) w). split; [|done].
  erewrite then_finished; [reflexivity|]. unfold on_op.
  by rewrite (then_finished _ _ _ tt _ (perform_quiet fuel (OnOp ro c) w)).
Qed.

Lemma restartInvite_goes o w : op (ses w) = Some o -> ready (ses w) -> ended (state (ses w)) = false ->
  goes (restartInvite perform) w (fun _ w' =>
    state (ses w') = OutgoingInit /\ op (ses w') = Some (nextOp w) /\ sent w' = sent w).
Proof.
  intros Ho Hw Hst. unfold restartInvite.
  eapply goes_bind; [exact (createOp_goes o w Ho Hw)|]. intros ? w1 (Hr1 & Ho1 & Hl1 & Hs1 & _).
  eapply goes_weaken; [apply initiateOutgoing_goes; [exact Hr1|by rewrite (same_state _ _ Hl1)]|].
  intros u w2 Hw2. split; [exact (went_state _ _ _ _ Hw2)|]. split; [by rewrite (went_op _ _ _ _ Hw2)|].
  by rewrite (went_sent _ _ _ _ Hw2).
Qed.

(** [failure] by what its conditions say rather than by their order. *)
Definition redirected_failure (to : Address) : M bool :=
  modify_log (fun l => l <| log_to := to |>) ;; restartInvite perform ;; mret true.

Definition pending_failure (retry : bool) : M bool :=
  (if retry then mret tt
   else
     stable ← gets lastStableState;
     setState perform stable "Restore stable state because no retry function has been set") ;;
  mret true.

Lemma failure_in_unfold sei redirection retry st :
  failure_in perform sei redirection retry st =
  if is_redirected sei redirection st then
    match redirection with Some to => redirected_failure to | None => fatal_failure perform sei end
  else if transient st && bool_decide (sal_reason sei = SalReasonRequestPending) then pending_failure retry
  else if transient st && negb (bool_decide (sal_reason sei = SalReasonNoMatch)) then
    restore_after_error perform sei ;; mret true
  else fatal_failure perform sei.
Proof.
  unfold failure_in, is_redirected.
  destruct (sal_reason sei) eqn:Hr; destruct st; try reflexivity; destruct redirection; reflexivity.
Qed.

Lemma is_redirected_some sei redirection st : is_redirected sei redirection st = true ->
  is_Some redirection /\ ended st = false.
Proof. unfold is_redirected. destruct (sal_reason sei), redirection, st; intros; by eauto || done. Qed.

Lemma fatal_failure_goes sei w : ready (ses w) ->
  goes (fatal_failure perform sei) w (fun b w' => b = false /\
    state (ses w') = if is_final (state (ses w)) then state (ses w)
                     else if bool_decide (sal_reason sei = SalReasonDeclined) then End_
                     else if isEarlyState (state (ses w)) then Error else End_).
Proof.
  intros Hw. unfold fatal_failure.
  eapply goes_bind; [by apply end_after_error_goes|]. intros ? w1 [Hr1 Hs1]. apply goes_gets.
  eapply (goes_bind _ _ _ (fun _ w' => state (ses w') = state (ses w1))).
  - destruct (referer (ses w1)) as [r|]; [|by apply goes_ret].
    eapply goes_weaken; [by apply notifyReferState_goes|]. by intros u w' [_ ->].
  - intros ? w2 Hs2. apply goes_ret. by rewrite Hs2.
Qed.

Lemma restore_goes new message w : ready (ses w) -> transient (state (ses w)) = true ->
  ended new = false -> new <> Referred ->
  goes (setState perform new message ;; mret true) w (fun b w' => b = true /\ state (ses w') = new).
Proof.
  intros Hw Ht Hn Href. eapply goes_bind.
  - apply goes_setState; [by apply ended_not_released|exact Hw|]. apply ended_allowed; [by destruct (state (ses w))|done].
  - intros ? w' (Hw' & _). apply goes_ret. by rewrite (went_state _ _ _ _ Hw'), next_not_referred.
Qed.

Lemma failure_reads o w : op (ses w) = Some o ->
  failure perform w = failure_in perform (ov_errorInfo (view_op w o)) (ov_remoteContactAddress (view_op w o))
    (ov_hasRetryFunction (view_op w o)) (state (ses w)) w.
Proof.
  intros Ho. unfold failure. by rewrite (bind_finished _ _ _ _ _ (the_op_reads o w Ho)).
Qed.

(** C26. When a request fails: a redirected outgoing call has a new operation and is
    in its initial state again, but no INVITE is sent on it; a re-INVITE or UPDATE
    to be retried leaves the session as it is, one that cannot be goes back to the
    last stable state; any other failure of an update takes the session back to its
    previous state, unless the error has no text, which is read through a null
    pointer; every other failure ends the session, as an error if the call was not
    established. *)
Theorem failure_outcome o w :
  op (ses w) = Some o -> is_Some (params (ses w)) ->
  ended (prevState (ses w)) = false -> prevState (ses w) <> Referred ->
  In (lastStableState (ses w)) [Idle; StreamsRunning; Paused] ->
  let v := view_op w o in
  let st := state (ses w) in
  match failure_result (ov_errorInfo v) (ov_hasRetryFunction v) (ov_remoteContactAddress v)
          st (prevState (ses w)) (lastStableState (ses w)) with
  | Some (handled, st') =>
      exists w', failure perform w = Finished handled w' /\ state (ses w') = st' /\
        (is_redirected (ov_errorInfo v) (ov_remoteContactAddress v) st = true ->
         op (ses w') = Some (nextOp w) /\ sent w' = sent w)
  | None => exists w', failure perform w = Stopped NullPointer w'
  end.
Proof.
  intros Ho Hp Hpst Hpref Hstable v st.
  assert (Hw : ready (ses w)) by (split; [by exists o|exact Hp]).
  rewrite (failure_reads o w Ho), failure_in_unfold. fold v st. unfold failure_result.
  destruct (is_redirected _ _ st) eqn:Hr.
  - destruct (is_redirected_some _ _ _ Hr) as [[to ->] Hst].
    set (w0 := w <| ses := (ses w) <| log := (log (ses w)) <| log_to := to |> |> |>).
    destruct (restartInvite_goes o w0 Ho Hw Hst) as (b & w' & Heq & Hst' & Ho' & Hs').
    exists w'. split; [|done]. unfold redirected_failure. erewrite then_finished by reflexivity.
    by rewrite (then_finished _ _ _ _ _ Heq).
  - assert (Hdone : forall (m : M bool) b st', goes m w (fun b' w' => b' = b /\ state (ses w') = st') ->
      exists w', m w = Finished b w' /\ state (ses w') = st' /\
        (false = true -> op (ses w') = Some (nextOp w) /\ sent w' = sent w)).
    { intros m b st' (b' & w' & Heq & -> & Hst'). by exists w'. }
    destruct (transient st) eqn:Ht; cbn [andb]; [|by apply Hdone, fatal_failure_goes].
    case_bool_decide as Hreq; cbn [andb].
    + apply Hdone. unfold pending_failure. destruct (ov_hasRetryFunction v).
      * eapply goes_bind; [by apply goes_ret with (P := fun _ w' => w' = w)|]. intros ? ? ->. by apply goes_ret.
      * apply restore_goes; try done; destruct Hstable as [<-|[<-|[<-|[]]]]; done.
    + case_bool_decide as Hmatch; cbn [negb]; [by apply Hdone, fatal_failure_goes|].
      destruct (sal_full_string (ov_errorInfo v)) as [text|] eqn:Htext; cbn.
      * apply Hdone. unfold restore_after_error. apply goes_gets || idtac.
        rewrite Htext. by apply (restore_goes (prevState (ses w)) text w).
      * exists w. unfold restore_after_error. unfold_M. by rewrite Htext.
Qed.
End Updates.

(** ** Witnesses *)

Section Witnesses.
Let env := quiet_env (example_op true false busy_error zero_sei) (-1).
Let running := example_world LinphoneCallOutgoing StreamsRunning Connected (Some 0%nat).

Lemma update_outcome_witness :
  op (ses running) = Some 0%nat /\
  exists r w' s noUserConsent,
    @update _ env (@perform _ env 0) None DefaultMethod EmptyString None running = Finished r w' /\
    sent w' = (0%nat, OpUpdate s noUserConsent) :: sent running /\
    state (ses w') = (if r =? 0 then Updating else StreamsRunning) /\ op (ses w') = Some 0%nat.
Proof.
  split; [reflexivity|].
  apply (@update_outcome _ env (quiet_env_quiet _ _) 0 None DefaultMethod EmptyString None 0 running);
    [reflexivity|by eexists].
Defined.

Lemma remote_update_outcome_witness :
  state (ses running) <> Referred /\
  exists w', @updated _ env (@perform _ env 0) false running = Finished tt w' /\
    sent w' = [(0%nat, OpAccept)] /\ state (ses w') = StreamsRunning.
Proof.
  split; [discriminate|].
  apply (@remote_update_outcome _ env (quiet_env_quiet _ _) 0 false 0 running);
    [reflexivity|by eexists|discriminate|discriminate].
Defined.

Lemma session_refresh_outcome_witness :
  let w := example_world LinphoneCallOutgoing UpdatedByRemote StreamsRunning (Some 0%nat) in
  ended (state (ses w)) = false /\
  exists w', @refreshed _ env (@perform _ env 0) w = Finished tt w' /\ sent w' = [] /\
    state (ses w') = StreamsRunning /\
    (state (ses w) = UpdatedByRemote -> prevState (ses w) <> UpdatedByRemote ->
     @acceptUpdate _ env (@perform _ env 0) None w' = Finished (-1) w').
Proof.
  split; [reflexivity|].
  apply (@session_refresh_outcome _ env (quiet_env_quiet _ _) 0 0
           (example_world LinphoneCallOutgoing UpdatedByRemote StreamsRunning (Some 0%nat)));
    first [reflexivity|discriminate|by eexists].
Defined.

Lemma failure_outcome_witness :
  let w := example_world LinphoneCallOutgoing Updating PausedByRemote (Some 0%nat) in
  prevState (ses w) <> Referred /\
  exists w', @failure _ env (@perform _ env 0) w = Finished true w' /\ state (ses w') = PausedByRemote /\
    (false = true -> op (ses w') = Some 1%nat /\ sent w' = sent w).
Proof.
  split; [discriminate|].
  apply (@failure_outcome _ env (quiet_env_quiet _ _) 0 0
           (example_world LinphoneCallOutgoing Updating PausedByRemote (Some 0%nat)));
    first [reflexivity|discriminate|by eexists|right; left; reflexivity].
Defined.
End Witnesses.
