(* ===== verification/CallSessionRepair.v ===== *)
(** * A call session that loses the network

    What is sent to repair the session when the network is back, and what is left
    to do, in every state of an established call. *)
From S2P Require Import Prelude Effects LpConfig LpConfigValues ChatTypes ErrorInfo CallSessionTypes CallSession CallSessionRules CallSessionLifecycle CallSessionQuiet CallSessionUpdates CallSessionNesting.

Section Repair.
Context `{AddressLib} `{!Environment} `{!Quiet}.
Context (fuel : nat).
Notation perform := (perform fuel).

(** What the core and the account must be for a repair. *)
Definition repair_usable (a : option nat) (w : World) : bool :=
  cv_alive (view_core w) && cv_mediaNetworkState (view_core w) &&
  negb (linphone_config_get_int (cv_config (view_core w)) "sip" "repair_broken_calls" 1 =? 0) &&
  match a with
  | None => true
  | Some a => negb (av_registerEnabled (view_account w a)) || av_registrationOk (view_account w a)
  end.

Lemma repair_possible_reads w :
  repair_possible w = Finished (repair_usable (account (ses w)) w && broken (ses w)) w.
Proof.
  unfold repair_possible, repair_usable.
  do 3 (erewrite bind_finished by reflexivity). erewrite bind_finished by reflexivity.
  erewrite bind_finished by reflexivity.
  destruct (account (ses w)) as [a|]; (erewrite bind_finished by reflexivity); unfold_M; f_equal;
    repeat match goal with |- context [cv_alive ?x] => destruct (cv_alive x) end;
    destruct (cv_mediaNetworkState _), (broken _), (negb (_ =? 0)); cbn; by rewrite ?andb_true_r, ?andb_false_r.
Qed.

(** The last re-INVITE or UPDATE, its subject left out. *)
Inductive Request := SendUpdate | SendReply (sei : SalErrorInfo) | SendCancel.

Definition call_of (subj : string) (r : Request) : OpCall :=
  match r with
  | SendUpdate => OpUpdate subj false
  | SendReply sei => OpReplyWithErrorInfo sei None 0
  | SendCancel => OpCancelInvite
  end.

(** What is sent to repair the session, last first. *)
Definition repair_requests (pending : bool) (st : CallState) : list Request :=
  match st with
  | StreamsRunning | Paused | PausedByRemote => if pending then [] else [SendUpdate]
  | UpdatedByRemote =>
      SendUpdate :: (if pending then [SendReply (sip_error SalReasonServiceUnavailable None)] else [])
  | Updating | Pausing => if pending then [SendCancel] else []
  | _ => []
  end.

(** Whether the session is still to be repaired; [cancelled] tells whether the
    pending INVITE could be cancelled. *)
Definition still_broken (pending cancelled : bool) (st : CallState) : bool :=
  match st with
  | StreamsRunning | Paused | PausedByRemote => pending
  | Updating | Pausing => negb (pending && cancelled)
  | UpdatedByRemote | Resuming => false
  | _ => true
  end.

Definition awaits_cancel (pending cancelled : bool) (st : CallState) : bool :=
  match st with Updating | Pausing => pending && cancelled | _ => false end.

(** The states of an established call. *)
Definition established (st : CallState) : bool :=
  match st with
  | StreamsRunning | Paused | PausedByRemote | UpdatedByRemote | Updating | Pausing | Resuming => true
  | _ => false
  end.

Definition flags (w : World) : bool * bool := (broken (ses w), reinviteOnCancelResponseRequested (ses w)).

Lemma kept_flags w w' : kept (ses w') = kept (ses w) -> flags w' = flags w.
Proof. unfold kept, flags. congruence. Qed.

Lemma same_flags w w' : same w w' -> flags w' = flags w.
Proof. intros (_ & _ & Hk & _). by apply kept_flags. Qed.

Lemma reinvite_goes o w next : op (ses w) = Some o -> ready (ses w) ->
  (forall w', ov_hasRetryFunction (view_op w' o) = false) ->
  update_state false (state (ses w)) = Some next ->
  goes (reinviteToRecoverFromConnectionLoss perform) w (fun _ w' => exists s st,
    went [(o, OpUpdate s false)] st w w').
Proof.
  intros Ho Hw Hretry Hn. unfold reinviteToRecoverFromConnectionLoss. apply goes_gets. rewrite Ho.
  apply goes_calm_bind; [|exact Hw|].
  { apply calm_bind; [by apply calm_on_op|]. intros. apply calm_ret. }
  intros ? w1 Hs1. pose proof (same_went _ _ Hs1) as Hw1. apply goes_gets.
  assert (Hst : state (ses w1) = state (ses w)) by exact (went_state _ _ _ _ Hw1).
  eapply goes_bind.
  { apply (update_goes fuel (params (ses w1)) InviteMethod EmptyString None o w1 next);
      [by rewrite (same_op _ _ Hs1)|exact (proj1 Hs1)|by rewrite Hretry, Hst]. }
  intros r w2 (s & b & Hw2 & Hb). apply goes_ret. rewrite (Hb eq_refl) in Hw2.
  exists s, (if r =? 0 then next else state (ses w1)).
  exact (went_trans _ _ _ _ _ _ _ Hw1 Hw2).
Qed.

(** The pending INVITE is cancelled: what is noted depends on the result. *)
Lemma cancel_first_goes o w result : op (ses w) = Some o -> ready (ses w) ->
  (forall w', op_result w' o OpCancelInvite = result) ->
  goes (cancel_first perform) w (fun _ w' =>
    ready (ses w') /\ op (ses w') = Some o /\ state (ses w') = state (ses w) /\
    sent w' = (o, OpCancelInvite) :: sent w /\
    flags w' = if result =? 0 then (false, true) else flags w).
Proof.
  intros Ho Hw Hresult. unfold cancel_first. eapply goes_bind; [by apply (goes_send fuel o OpCancelInvite w Ho)|].
  intros r w1 (Hw1 & _ & ->). rewrite Hresult.
  assert (Ho1 : op (ses w1) = Some o) by (by rewrite (went_op _ _ _ _ Hw1)).
  destruct (result =? 0).
  - eexists tt, _. split; [reflexivity|]. split; [exact (went_ready _ _ _ _ Hw1)|].
    split; [exact Ho1|]. split; [exact (went_state _ _ _ _ Hw1)|]. split; [exact (went_sent _ _ _ _ Hw1)|done].
  - apply goes_ret. split; [exact (went_ready _ _ _ _ Hw1)|]. split; [exact Ho1|].
    split; [exact (went_state _ _ _ _ Hw1)|]. split; [exact (went_sent _ _ _ _ Hw1)|].
    exact (kept_flags _ _ (went_kept _ _ _ _ Hw1)).
Qed.

Lemma request_pending_reads o w : op (ses w) = Some o ->
  request_pending w = Finished (ov_dialogRequestPending (view_op w o)) w.
Proof.
  intros Ho. unfold request_pending. by rewrite (bind_finished _ _ _ _ _ (the_op_reads o w Ho)).
Qed.

(** The end of a repair: from [w], requests were sent and the flags are known. *)
Definition repaired (o : nat) (pending cancelled : bool) (w w' : World) : Prop := exists s,
  ready (ses w') /\ op (ses w') = Some o /\
  sent w' = map (fun r => (o, call_of s r)) (repair_requests pending (state (ses w))) ++ sent w /\
  flags w' = (still_broken pending cancelled (state (ses w)), awaits_cancel pending cancelled (state (ses w))) /\
  (awaits_cancel pending cancelled (state (ses w)) = true -> state (ses w') = state (ses w)).

Lemma not_broken_goes w : goes not_broken w (fun _ w' => w' = w <| ses := (ses w) <| broken := false |> |>).
Proof. by eexists tt, _. Qed.

(** A re-INVITE, after which the session is no longer to be repaired. *)
Lemma reinvite_and_done o w next : op (ses w) = Some o -> ready (ses w) ->
  (forall w', ov_hasRetryFunction (view_op w' o) = false) ->
  update_state false (state (ses w)) = Some next ->
  goes (reinviteToRecoverFromConnectionLoss perform ;; not_broken) w (fun _ w' => exists s,
    ready (ses w') /\ op (ses w') = Some o /\ sent w' = (o, OpUpdate s false) :: sent w /\
    flags w' = (false, snd (flags w))).
Proof.
  intros Ho Hw Hretry Hn. eapply goes_bind; [by apply (reinvite_goes o w next)|].
  intros ? w1 (s & st & Hw1). eapply goes_weaken; [apply not_broken_goes|]. intros ? w' ->.
  exists s. split; [exact (went_ready _ _ _ _ Hw1)|].
  split; [exact (eq_trans (went_op _ _ _ _ Hw1) Ho)|]. split; [exact (went_sent _ _ _ _ Hw1)|].
  pose proof (kept_flags _ _ (went_kept _ _ _ _ Hw1)) as Hf. unfold flags in *. cbn. congruence.
Qed.

Lemma repaired_intro o pending w w' st s c :
  state (ses w) = st -> ready (ses w') -> op (ses w') = Some o ->
  sent w' = map (fun r => (o, call_of s r)) (repair_requests pending st) ++ sent w ->
  flags w' = (still_broken pending c st, awaits_cancel pending c st) ->
  (awaits_cancel pending c st = true -> state (ses w') = st) ->
  repaired o pending c w w'.
Proof. intros <- Hr Ho Hs Hf Ha. by exists s. Qed.

Section OneSession.
Variables (o : nat) (w : World).
Hypothesis has_op : op (ses w) = Some o.
Hypothesis is_ready : ready (ses w).
Hypothesis no_retry : forall w', ov_hasRetryFunction (view_op w' o) = false.
Hypothesis is_broken : flags w = (true, false).
Variable result : Z.
Hypothesis cancel_result : forall w', op_result w' o OpCancelInvite = result.
Notation cancelled := (result =? 0).

(** A session whose dialog is idle is updated; otherwise it waits. *)
Lemma repair_running pending st : state (ses w) = st -> (st = StreamsRunning \/ st = Paused \/ st = PausedByRemote) ->
  goes (when (negb pending) do (reinviteToRecoverFromConnectionLoss perform ;; not_broken)) w
    (fun _ w' => repaired o pending cancelled w w').
Proof.
  intros Hst Hcase.
  assert (Hspec : update_state false st <> None /\ repair_requests pending st = (if pending then [] else [SendUpdate])
    /\ still_broken pending cancelled st = pending /\ awaits_cancel pending cancelled st = false).
  { by destruct Hcase as [->|[->| ->]]; repeat split. }
  destruct Hspec as (Hn & Hr & Hb & Ha). destruct (update_state false st) as [next|] eqn:E; [|done].
  destruct pending; cbn [negb].
  - apply goes_ret. apply (repaired_intro o true w w st EmptyString cancelled);
      [done|done|done|by rewrite Hr|by rewrite Hb, Ha|by rewrite Ha].
  - eapply goes_weaken; [apply (reinvite_and_done o w next); [done..|by rewrite Hst]|].
    intros u w' (s & Hr' & Ho' & Hs & Hf). rewrite is_broken in Hf.
    apply (repaired_intro o false w w' st s cancelled); [done|done|done|by rewrite Hr|by rewrite Hb, Ha|by rewrite Ha].
Qed.

(** A pending re-INVITE is cancelled first. *)
Lemma repair_requesting pending st : state (ses w) = st -> (st = Updating \/ st = Pausing) ->
  goes (when pending do cancel_first perform) w (fun _ w' => repaired o pending cancelled w w').
Proof.
  intros Hst Hcase.
  assert (Hspec : repair_requests pending st = (if pending then [SendCancel] else []) /\
    still_broken pending cancelled st = negb (pending && cancelled) /\
    awaits_cancel pending cancelled st = pending && cancelled).
  { by destruct Hcase as [->| ->]; repeat split. }
  destruct Hspec as (Hr & Hb & Ha). destruct pending.
  - eapply goes_weaken; [by apply (cancel_first_goes o w result)|].
    intros u w' (Hr' & Ho' & Hst' & Hs & Hf). rewrite is_broken in Hf.
    apply (repaired_intro o true w w' st EmptyString cancelled); [done|done|done|by rewrite Hr| |by rewrite Hst', Hst].
    rewrite Hb, Ha, Hf. by destruct cancelled.
  - apply goes_ret.
    apply (repaired_intro o false w w st EmptyString cancelled);
      [done|done|done|by rewrite Hr|by rewrite Hb, Ha|by rewrite Ha].
Qed.

(** An update of the remote side is refused, and one is made here. *)
Lemma repair_updated pending : state (ses w) = UpdatedByRemote ->
  let reply := OpReplyWithErrorInfo (sip_error SalReasonServiceUnavailable None) None 0 in
  goes ((when pending do (op_do perform reply ;; mret tt)) ;;
        reinviteToRecoverFromConnectionLoss perform ;; not_broken) w
    (fun _ w' => repaired o pending cancelled w w').
Proof.
  intros Hst reply.
  eapply (goes_bind _ _ _ (fun _ w1 => went (if pending then [(o, reply)] else []) UpdatedByRemote w w1)).
  { destruct pending; [|apply goes_ret; by split].
    eapply goes_bind; [by apply (goes_send fuel o reply w has_op)|].
    intros ? w1 (Hw1 & _). apply goes_ret. by rewrite Hst in Hw1. }
  intros ? w1 Hw1. eapply goes_weaken.
  - apply (reinvite_and_done o w1 Updating); [by rewrite (went_op _ _ _ _ Hw1)|exact (went_ready _ _ _ _ Hw1)|done|].
    by rewrite (went_state _ _ _ _ Hw1).
  - intros u w' (s & Hr & Ho' & Hs & Hf).
    rewrite (kept_flags _ _ (went_kept _ _ _ _ Hw1)), is_broken in Hf.
    apply (repaired_intro o pending w w' UpdatedByRemote s cancelled); [done|done|done| |done|done].
    rewrite Hs, (went_sent _ _ _ _ Hw1). by destruct pending.
Qed.

Lemma repair_goes : established (state (ses w)) = true ->
  goes (repair perform) w (fun _ w' => repaired o (ov_dialogRequestPending (view_op w o)) cancelled w w').
Proof.
  intros Hst. set (pending := ov_dialogRequestPending (view_op w o)).
  assert (Hread : forall (k : bool -> M unit) P, goes (k pending) w P -> goes (request_pending ≫= k) w P).
  { intros k P (u & w' & Heq & HP). exists u, w'.
    split; [by rewrite (bind_finished _ _ _ _ _ (request_pending_reads o w has_op))|done]. }
  unfold repair. apply goes_gets.
  destruct (state (ses w)) eqn:E; try discriminate Hst; try apply Hread;
    try (by apply (repair_running pending _ E); auto); try (by apply (repair_requesting pending _ E); auto);
    try by apply repair_updated.
  eapply goes_weaken; [apply not_broken_goes|]. intros u w' ->.
  apply (repaired_intro o pending w _ Resuming EmptyString cancelled); [done|done|done|done|cbn|done].
  unfold flags in *. cbn. congruence.
Qed.
End OneSession.

(** The cancellation is answered: the call is updated. *)
Lemma cancel_answered o w : op (ses w) = Some o -> ready (ses w) ->
  (forall w', ov_hasRetryFunction (view_op w' o) = false) -> (forall w', ov_hasDialog (view_op w' o) = true) ->
  reinviteOnCancelResponseRequested (ses w) = true -> is_Some (update_state false (state (ses w))) ->
  exists w' s, cancelDone perform w = Finished tt w' /\ sent w' = (o, OpUpdate s false) :: sent w.
Proof.
  intros Ho Hw Hretry Hdialog Hreq [next Hn].
  set (w0 := w <| ses := (ses w) <| reinviteOnCancelResponseRequested := false |> |>).
  destruct (reinvite_goes o w0 next Ho Hw Hretry Hn) as ([] & w' & Heq & s & st & Hwent).
  exists w', s. split; [|exact (went_sent _ _ _ _ Hwent)].
  unfold cancelDone. erewrite bind_finished by reflexivity. rewrite Hreq.
  erewrite then_finished by reflexivity. fold w0. rewrite (bind_finished _ _ _ _ _ (the_op_reads o w0 Ho)).
  erewrite bind_finished by reflexivity. by rewrite Hdialog.
Qed.

(** C27. When the network of an established call is lost and comes back, for a call
    that may be repaired: exactly one re-INVITE is sent if no request is pending, the
    pending one is cancelled if the call was being updated or paused, and an update of
    the remote side is refused with 503 first.  The call stays to be repaired as long
    as a request is pending, or when its cancellation fails, its result not being 0;
    but one that was resuming is taken for repaired although nothing is sent.  The
    session notes a cancellation that did not fail, and only that: once it is
    answered, exactly one re-INVITE is sent. *)
Theorem lost_network_outcome o w result :
  op (ses w) = Some o -> is_Some (params (ses w)) -> established (state (ses w)) = true ->
  reinviteOnCancelResponseRequested (ses w) = false ->
  (forall w', ov_hasRetryFunction (view_op w' o) = false) ->
  (forall w', ov_dialogRequestPending (view_op w' o) = ov_dialogRequestPending (view_op w o)) ->
  (forall w', ov_hasDialog (view_op w' o) = true) ->
  (forall w', repair_usable (account (ses w)) w' = true) ->
  (forall w', op_result w' o OpCancelInvite = result) ->
  let pending := ov_dialogRequestPending (view_op w o) in
  let cancelled := result =? 0 in
  exists w' s,
    (onNetworkReachable perform false ;; onNetworkReachable perform true) w = Finished tt w' /\
    sent w' = map (fun r => (o, call_of s r)) (repair_requests pending (state (ses w))) ++ sent w /\
    broken (ses w') = still_broken pending cancelled (state (ses w)) /\
    reinviteOnCancelResponseRequested (ses w') = awaits_cancel pending cancelled (state (ses w)) /\
    (awaits_cancel pending cancelled (state (ses w)) = true ->
     exists w'' s', cancelDone perform w' = Finished tt w'' /\ sent w'' = (o, OpUpdate s' false) :: sent w').
Proof.
  intros Ho Hp Hst Hreq Hretry Hpend Hdialog Husable Hresult pending cancelled.
  assert (Hw : ready (ses w)) by (split; [by exists o|exact Hp]).
  set (w0 := w <| ses := (ses w) <| broken := true |> <| needLocalIpRefresh := true |> |>).
  assert (Hlost : onNetworkReachable perform false w = Finished tt w0).
  { unfold onNetworkReachable, setBroken. erewrite bind_finished by reflexivity. by destruct (state (ses w)). }
  assert (Hback : goes (onNetworkReachable perform true) w0 (fun _ w' => repaired o pending cancelled w0 w')).
  { unfold onNetworkReachable, repairIfBroken. exists tt.
    destruct (calm_refreshContactAddress fuel w0 Hw) as ([] & w1 & Hrefresh & Hw1).
    destruct (repair_goes o w1) with result as ([] & w2 & Hrep & s & Hr2 & Ho2 & Hs2 & Hf2 & Ha2).
    - by rewrite (same_op _ _ Hw1).
    - exact (proj1 Hw1).
    - done.
    - rewrite (same_flags _ _ Hw1). unfold flags. cbn. by rewrite Hreq.
    - exact Hresult.
    - by rewrite (same_state _ _ (proj1 (proj2 Hw1))).
    - exists w2. split.
      + rewrite (bind_finished _ _ _ _ _ (repair_possible_reads w0)).
        change (account (ses w0)) with (account (ses w)). rewrite Husable. cbn [andb broken ses w0].
        change (broken (ses w0)) with true. cbn match. by rewrite (then_finished _ _ _ _ _ Hrefresh).
      + rewrite (same_state _ _ (proj1 (proj2 Hw1))), (Hpend w1) in Hs2, Hf2, Ha2.
        exists s. split; [done|]. split; [done|]. split; [by rewrite Hs2, (proj2 (proj2 (proj2 Hw1)))|done]. }
  destruct Hback as ([] & w' & Heq & s & Hr' & Ho' & Hs' & Hf' & Ha').
  exists w', s. split; [by rewrite (then_finished _ _ _ _ _ Hlost)|]. split; [exact Hs'|].
  unfold flags in Hf'. injection Hf' as Hb Hc. split; [exact Hb|]. split; [exact Hc|]. intros Hawait.
  apply (cancel_answered o w' Ho' Hr' Hretry Hdialog); [by rewrite Hc|].
  rewrite (Ha' Hawait). change (state (ses w0)) with (state (ses w)).
  destruct (state (ses w)); try discriminate Hawait; by eexists.
Qed.
End Repair.

(** ** Witness *)

Section Witnesses.
Let env := quiet_env (example_op true true zero_sei zero_sei) 0.
Let updating := example_world LinphoneCallOutgoing Updating StreamsRunning (Some 0%nat).

Lemma lost_network_outcome_witness :
  established (state (ses updating)) = true /\
  exists w' s,
    (@onNetworkReachable _ env (@perform _ env 0) false ;; @onNetworkReachable _ env (@perform _ env 0) true) updating =
      Finished tt w' /\
    sent w' = [(0%nat, call_of s SendCancel)] /\ broken (ses w') = false /\
    reinviteOnCancelResponseRequested (ses w') = true /\
    exists w'' s', @cancelDone _ env (@perform _ env 0) w' = Finished tt w'' /\
       sent w'' = (0%nat, OpUpdate s' false) :: sent w'.
Proof.
  split; [reflexivity|].
  destruct (@lost_network_outcome _ env (quiet_env_quiet _ _) 0 0 updating 0) as (w' & s & Hrun & Hs & Hb & Hc & Hdone);
    try first [reflexivity|by eexists|by intros].
  exists w', s. split; [exact Hrun|]. split; [exact Hs|]. split; [exact Hb|]. split; [exact Hc|]. by apply Hdone.
Defined.
End Witnesses.
