(* ===== verification/CallSessionEnding.v ===== *)
(** * The end of a call session

    What is recorded of a call that is cancelled, declined or ended here, and the
    calls of the application that read a null pointer. *)
From S2P Require Import Prelude Effects LpConfig LpConfigValues ChatTypes ErrorInfo CallSessionTypes CallSession CallSessionRules CallSessionLifecycle CallSessionQuiet CallSessionUpdates CallSessionNesting.

(** ** Pending actions, in any surroundings *)

Section Actions.
Context `{AddressLib} `{!Environment}.
Variable raise : Event -> M unit.

Lemma run_actions_sublist actions w unsuccessful w' :
  run_actions raise actions w = Finished unsuccessful w' -> unsuccessful `sublist_of` actions.
Proof.
  revert w unsuccessful w'. induction actions as [|f actions IH]; intros w unsuccessful w' Heq; cbn [run_actions] in Heq.
  - injection Heq as <- _. constructor.
  - unfold mbind, Eff_bind in Heq. destruct (raise (RunAction f) w) as [[] w1|]; [|discriminate].
    cbn [asks] in Heq. destruct (run_actions raise actions w1) as [l w2|] eqn:E; [|discriminate].
    cbn in Heq. injection Heq as <- _. specialize (IH _ _ _ E).
    case_match; by constructor.
Qed.

(** Running the pending actions of a session whose network is reachable loses
    none that fails: those of them that fail stay pending, in their order, after the
    ones that were added while they ran; and a session that has ended, or has no
    network, keeps them all without running any. *)
Theorem pending_actions_kept w w' :
  executePendingActions raise w = Finished tt w' ->
  (cv_networkReachable (view_core w) && negb (ended (state (ses w))) = false /\ w' = w) \/
  exists added unsuccessful w1,
    pendingActions (ses w') = added ++ unsuccessful /\ unsuccessful `sublist_of` pendingActions (ses w) /\
    run_actions raise (pendingActions (ses w)) (w <| ses := (ses w) <| pendingActions := [] |> |>) =
      Finished unsuccessful w1 /\ pendingActions (ses w1) = added.
Proof.
  unfold executePendingActions, core. unfold_M.
  replace (cv_networkReachable (view_core w) && negb (is_final (state (ses w))) && negb (state_eqb (state (ses w)) Released))
    with (cv_networkReachable (view_core w) && negb (ended (state (ses w))))
    by (unfold ended; by rewrite negb_orb, andb_assoc).
  destruct (_ && _) eqn:E.
  - set (w0 := w <| ses := (ses w) <| pendingActions := [] |> |>).
    destruct (run_actions raise (pendingActions (ses w)) w0) as [l w1|] eqn:Hrun; [|discriminate].
    intros [= <-]. right. exists (pendingActions (ses w1)), l, w1.
    split; [done|]. split; [by eapply run_actions_sublist|done].
  - intros [= <-]. by left.
Qed.
End Actions.

Section Ending.
Context `{AddressLib} `{!Environment} `{!Quiet}.
Context (fuel : nat).
Notation perform := (perform fuel).

(** ** The status of the call log *)

(** The status of an incoming call that is cancelled before it is answered, [sei]
    being the error of the operation and [rsei] the one of its Reason header. *)
Definition cancelled_status (sei rsei : SalErrorInfo) (status : LinphoneCallStatus) : LinphoneCallStatus :=
  if str_empty (default EmptyString (sal_protocol rsei)) then LinphoneCallMissed
  else
    let (reason, code) :=
      if bool_decide (linphone_reason_from_sal (sal_reason sei) = ReasonNone)
      then (linphone_reason_from_sal (sal_reason rsei), sal_protocol_code rsei)
      else (linphone_reason_from_sal (sal_reason sei), sal_protocol_code sei) in
    match reason with
    | ReasonDeclined => if bool_decide (status = LinphoneCallMissed) then status else LinphoneCallDeclined
    | ReasonNotAnswered => LinphoneCallMissed
    | ReasonNone =>
        if (200 <=? code) && (code <? 300) then LinphoneCallAcceptedElsewhere
        else if code =? 487 then LinphoneCallMissed else status
    | ReasonDoNotDisturb => if (600 <=? code) && (code <? 700) then LinphoneCallDeclinedElsewhere else status
    | _ => status
    end.

Lemma from_sal_op_reason e sei rsei :
  let e' := linphone_error_info_from_sal_op e (Some (sei, rsei)) in
  (ei_reason e', ei_protocol_code e') =
    if bool_decide (linphone_reason_from_sal (sal_reason sei) = ReasonNone)
    then (linphone_reason_from_sal (sal_reason rsei), sal_protocol_code rsei)
    else (linphone_reason_from_sal (sal_reason sei), sal_protocol_code sei).
Proof.
  cbn. unfold linphone_error_info_from_sal_reason_ei. cbn.
  destruct (bool_decide _) eqn:E; [reflexivity|]. by destruct (bool_decide (sal_reason rsei = _)).
Qed.

Lemma setState_end_log new message w p :
  is_final new = true -> ended (state (ses w)) = false -> params (ses w) = Some p ->
  exists w', setState perform new message w = Finished tt w' /\
    state (ses w') = new /\ op (ses w') = op (ses w) /\ params (ses w') = Some p /\ sent w' = sent w /\
    log_status (log (ses w')) =
      ended_status (ei_reason (current_ei (moved new message w)))
        (ei_protocol_code (current_ei (moved new message w))) (log (ses w)) /\
    log_errorInfo (log (ses w')) = Some (linphone_error_info_clone (ei (ses w'))) /\
    (log_status (log (ses w')) = LinphoneCallMissed -> In (CountMissedCall (account (ses w))) (history w')).
Proof.
  intros Hnew Hst Hp.
  assert (Hne : state (ses w) <> new) by (intros Heq; rewrite Heq in Hst; by destruct new).
  assert (Ha : allowed (state (ses w)) new = true) by (destruct (state (ses w)), new; done).
  destruct (setState_final fuel new message w p Hnew Hne Ha Hp) as (es & Hes & Hmissed & Heq).
  set (w1 := moved new message w) in *.
  exists (events es (ended_world w1)). split; [exact Heq|].
  assert (Hnr : state_eqb new Referred = false) by (by destruct new).
  split; [|split; [|split; [|split; [|split; [|split]]]]].
  - change (state (ses w1) = new). subst w1. unfold moved. by rewrite Hnr.
  - change (op (ses w1) = op (ses w)). apply moved_op.
  - change (params (ses w1) = Some p). rewrite <- Hp. apply moved_params.
  - rewrite sent_events by done. subst w1. unfold moved. by rewrite Hnr.
  - change (log_status (log (ses (events es (ended_world w1))))) with
      (ended_status (ei_reason (current_ei w1)) (ei_protocol_code (current_ei w1)) (log (ses w1))).
    by rewrite (moved_log new message w : log (ses w1) = _).
  - reflexivity.
  - intros Hs. apply in_or_app. left. by apply Hmissed.
Qed.

Lemma current_ei_moved new message w o sei rsei :
  op (ses w) = Some o -> nonOpError (ses w) = false ->
  (forall w', ov_errorInfo (view_op w' o) = sei /\ ov_reasonErrorInfo (view_op w' o) = rsei) ->
  current_ei (moved new message w) =
  linphone_error_info_from_sal_op (ei (ses (moved new message w))) (Some (sei, rsei)).
Proof.
  intros Ho Hn Hv. unfold current_ei, current_errors.
  rewrite moved_op, Ho. cbn. destruct (Hv (moved new message w)) as [-> ->].
  assert (Hn' : nonOpError (ses (moved new message w)) = nonOpError (ses w)).
  { apply (moved_member nonOpError); [|done]. intros s. unfold leave_state. cbn. by destruct (state s). }
  by rewrite Hn', Hn.
Qed.

Lemma current_ei_set new message w : nonOpError (ses w) = true -> current_ei (moved new message w) = ei (ses w).
Proof.
  intros Hn. unfold current_ei.
  assert (Hn' : nonOpError (ses (moved new message w)) = nonOpError (ses w)).
  { apply (moved_member nonOpError); [|done]. intros s. unfold leave_state. cbn. by destruct (state s). }
  rewrite Hn', Hn. apply (moved_member ei); [|done]. intros s. unfold leave_state. cbn. by destruct (state s).
Qed.

(** C34. An incoming call that is cancelled while it rings ends, and its log says so:
    missed when no reason is given, which is counted; answered or declined elsewhere,
    declined, or missed, according to the reason header, or to the error of the
    operation when it has one. *)
Theorem cancelled_call_recorded o w sei rsei :
  op (ses w) = Some o -> is_Some (params (ses w)) ->
  (state (ses w) = IncomingReceived \/ state (ses w) = IncomingEarlyMedia) ->
  log_direction (log (ses w)) = LinphoneCallIncoming -> nonOpError (ses w) = false ->
  (forall w', ov_errorInfo (view_op w' o) = sei /\ ov_reasonErrorInfo (view_op w' o) = rsei) ->
  exists w', terminated perform w = Finished tt w' /\ state (ses w') = End_ /\
    log_status (log (ses w')) = cancelled_status sei rsei (log_status (log (ses w))) /\
    log_errorInfo (log (ses w')) = Some (linphone_error_info_clone (ei (ses w'))) /\
    (log_status (log (ses w')) = LinphoneCallMissed -> In (CountMissedCall (account (ses w))) (history w')).
Proof.
  intros Ho [p Hp] Hst Hdir Hnon Hv.
  assert (Hend : ended (state (ses w)) = false) by (by destruct Hst as [-> | ->]).
  set (answered := str_empty (default EmptyString (sal_protocol rsei))).
  set (w0 := if answered then
      w <| ses := (ses w) <| ei := linphone_error_info_set (ei (ses w)) None ReasonNotAnswered 0
                               (Some "Incoming call cancelled"%string) None |> <| nonOpError := true |> |>
    else w).
  assert (Hw0 : terminated perform w = setState perform End_ "Call ended" w0).
  { subst w0 answered. unfold terminated. erewrite bind_finished by reflexivity.
    destruct Hst as [-> | ->]; rewrite (bind_finished _ _ _ _ _ (the_op_reads o w Ho));
      (erewrite bind_finished by reflexivity); rewrite (proj2 (Hv w));
      by destruct (str_empty (default EmptyString (sal_protocol rsei))). }
  destruct (setState_end_log End_ "Call ended" w0 p eq_refl) as (w' & Heq & Hs & _ & _ & _ & Hstatus & Hei & Hmissed).
  { subst w0. by destruct answered. }
  { subst w0. by destruct answered. }
  exists w'. split; [by rewrite Hw0|]. split; [done|].
  assert (Hacc : account (ses w0) = account (ses w)) by (subst w0; by destruct answered).
  rewrite Hacc in Hmissed. split; [|done].
  rewrite Hstatus. unfold cancelled_status. fold answered.
  subst w0. destruct answered.
  - rewrite current_ei_set by done. unfold ended_status. cbn. by rewrite Hdir.
  - rewrite (current_ei_moved _ _ w o sei rsei) by done.
    pose proof (from_sal_op_reason (ei (ses (moved End_ "Call ended" w))) sei rsei) as Hr. cbv zeta in Hr.
    rewrite <- Hr. unfold ended_status. by rewrite Hdir.
Qed.

(** ** Ending the call here *)

Lemma sent_releases o es : Forall (only_releases o) es -> omap sent_of es = [].
Proof. induction 1 as [|e es He Hes IH]; [done|]. destruct e as [| o' c| | | | | | | | | |]; try exact IH. by destruct He as [_ ->]. Qed.

(** Whether the operation still has a dialog once the session has ended. *)
Definition keeps_dialog (o : option nat) (w : World) : bool :=
  match o with None => false | Some o => ov_hasDialog (view_op w o) end.

Lemma terminate_private_ends w p d :
  params (ses w) = Some p -> ended (state (ses w)) = false ->
  (forall w', keeps_dialog (op (ses w)) w' = d) ->
  exists w', terminate_private perform w = Finished tt w' /\
    state (ses w') = (if d then End_ else Released) /\ sent w' = sent w.
Proof.
  intros Hp Hst Hd. unfold terminate_private. erewrite bind_finished by reflexivity.
  assert (Hfirst : exists w0, (match state (ses w) with
      | IncomingReceived | IncomingEarlyMedia =>
          modify (fun s =>
            if bool_decide (ei_reason (ei s) = ReasonNone)
            then s <| ei := linphone_error_info_set_reason (ei s) ReasonDeclined |> <| nonOpError := true |>
            else if bool_decide (ei_reason (ei s) = ReasonNotAnswered) then s
            else s <| nonOpError := true |>)
      | _ => mret tt
      end) w = Finished tt w0 /\ state (ses w0) = state (ses w) /\ op (ses w0) = op (ses w) /\
      params (ses w0) = Some p /\ sent w0 = sent w).
  { destruct (state (ses w)) eqn:E; try (exists w; by repeat split);
      (eexists; split; [reflexivity|]; cbn; repeat case_bool_decide; by repeat split). }
  destruct Hfirst as (w0 & Hfirst & Hs0 & Ho0 & Hp0 & Hsent0).
  rewrite (then_finished _ _ _ _ _ Hfirst).
  destruct (setState_end_log End_ "Call terminated" w0 p eq_refl ltac:(by rewrite Hs0) Hp0)
    as (w1 & Heq1 & Hs1 & Ho1 & _ & Hsent1 & _).
  rewrite (then_finished _ _ _ _ _ Heq1). erewrite bind_finished by reflexivity.
  rewrite Ho1, Ho0.
  rewrite (bind_finished _ _ _ d w1).
  2: { specialize (Hd w1). unfold keeps_dialog in Hd. destruct (op (ses w)); by rewrite <- Hd. }
  destruct d; cbn [negb].
  - exists w1. split; [done|]. split; [done|congruence].
  - destruct (setState_released fuel "Call released" w1 ltac:(by rewrite Hs1)) as (es & e & w2 & Heq2 & Hses & Hh & Hes).
    exists w2. split; [exact Heq2|]. split; [by rewrite Hses|].
    unfold sent at 1. rewrite Hh, omap_app, (sent_releases _ _ Hes). cbn. unfold sent in *. congruence.
Qed.

(** How many levels of error information the structures of [decline] and of
    [terminate] can hold below the first. *)
Definition sub_levels (st : CallState) : nat :=
  match st with IncomingReceived | IncomingEarlyMedia => 1 | _ => 0 end.

Definition ends_with_message (st : CallState) : bool :=
  match st with
  | Released | End_ | Error | OutgoingInit | Idle | PushIncomingReceived => false
  | _ => true
  end.

(** The message that ends a call for the reason [sei]. *)
Definition ending_message (st : CallState) (sei : SalErrorInfo) : OpCall :=
  match st with
  | IncomingReceived | IncomingEarlyMedia => OpReplyWithErrorInfo sei None 0
  | _ => OpTerminate (Some sei)
  end.

Lemma to_sal_fields e sei sei' : linphone_error_info_to_sal e sei = Some sei' ->
  sal_reason sei' = linphone_reason_to_sal (ei_reason e) /\ sal_protocol_code sei' = ei_protocol_code e.
Proof.
  destruct e as [r p c ph wa fu ra sub]. cbn. destruct sub as [sub|]; [|by intros [= <-]].
  destruct (sal_sub_sei sei); [|discriminate]. cbn.
  destruct (linphone_error_info_to_sal sub _); [|discriminate]. by intros [= <-].
Qed.

Lemma ends_not_ended st : ends_with_message st = true -> ended st = false.
Proof. by destruct st. Qed.

Lemma send_and_end c o w p d (m : M Z) :
  op (ses w) = Some o -> params (ses w) = Some p -> ended (state (ses w)) = false ->
  (forall w', ov_hasDialog (view_op w' o) = d) -> sends c = true -> m w = op_do perform c w ->
  exists w', (m ;; terminate_private perform ;; mret 0) w = Finished 0 w' /\
    sent w' = (o, c) :: sent w /\ state (ses w') = (if d then End_ else Released).
Proof.
  intros Ho Hp Hst Hd Hc Hm.
  destruct (goes_send fuel o c w Ho Hc) as (r & w1 & Heq & Hw1 & _); [split; by eexists|].
  assert (Hp1 : params (ses w1) = Some p).
  { unfold op_do in Heq. rewrite (bind_finished _ _ _ _ _ (the_op_reads o w Ho)) in Heq.
    unfold on_op in Heq. rewrite (then_finished _ _ _ tt _ (perform_quiet fuel _ _)) in Heq.
    by injection Heq as _ <-. }
  destruct (terminate_private_ends w1 p d Hp1) as (w2 & Heq2 & Hs2 & Hsent2).
  - by rewrite (went_state _ _ _ _ Hw1).
  - intros w'. rewrite (went_op _ _ _ _ Hw1), Ho. apply Hd.
  - exists w2. split; [|split; [by rewrite Hsent2, (went_sent _ _ _ _ Hw1)|done]].
    rewrite (then_finished _ _ _ r w1) by (by rewrite Hm). by rewrite (then_finished _ _ _ _ _ Heq2).
Qed.

(** What is sent when the error information can be given to the SAL, and where it
    is not: both for a structure [sei] and a session that ends with [c]. *)
Lemma give_error_info e sei0 (c : SalErrorInfo -> OpCall) o w p d :
  op (ses w) = Some o -> params (ses w) = Some p -> ended (state (ses w)) = false ->
  (forall w', ov_hasDialog (view_op w' o) = d) -> (forall sei, sends (c sei) = true) ->
  let m := (sei ← to_sal e sei0; op_do perform (c sei)) ;; terminate_private perform ;; mret 0 in
  if (ei_depth e <=? sei_depth sei0)%nat then
    exists w' sei, m w = Finished 0 w' /\ sent w' = (o, c sei) :: sent w /\
      sal_reason sei = linphone_reason_to_sal (ei_reason e) /\ sal_protocol_code sei = ei_protocol_code e /\
      state (ses w') = (if d then End_ else Released)
  else m w = Stopped NullPointer w.
Proof.
  intros Ho Hp Hst Hd Hc m. destruct (Nat.leb_spec (ei_depth e) (sei_depth sei0)) as [Hle|Hgt].
  - destruct (proj2 (to_sal_defined e sei0) Hle) as [sei Hsei].
    destruct (send_and_end (c sei) o w p d (sei ← to_sal e sei0; op_do perform (c sei)))
      as (w' & Heq & Hsent & Hs); try done.
    { unfold to_sal. by rewrite Hsei. }
    destruct (to_sal_fields _ _ _ Hsei) as [Hr Hcode]. exists w', sei. by repeat split.
  - subst m. unfold to_sal. destruct (linphone_error_info_to_sal e sei0) as [sei|] eqn:E; [|done].
    assert (ei_depth e <= sei_depth sei0)%nat by (apply to_sal_defined; eauto). lia.
Qed.

(** C35. Ending a call with an error information sends one message with its reason
    and its code, a final response while the call rings here and otherwise a BYE or
    a CANCEL, and the session has ended, or is released when the operation has no
    dialog.  But an error information with a sub object more than the structures
    hold (none for a call that does not ring, one otherwise) is written through a
    null pointer, before anything is sent. *)
Theorem terminate_with_error_info o w e d :
  op (ses w) = Some o -> is_Some (params (ses w)) -> ends_with_message (state (ses w)) = true ->
  (forall w', ov_hasDialog (view_op w' o) = d) ->
  if (ei_depth e <=? sub_levels (state (ses w)))%nat then
    exists w' sei, terminate perform (Some e) w = Finished 0 w' /\
      sent w' = (o, ending_message (state (ses w)) sei) :: sent w /\
      sal_reason sei = linphone_reason_to_sal (ei_reason e) /\ sal_protocol_code sei = ei_protocol_code e /\
      state (ses w') = (if d then End_ else Released)
  else exists w', terminate perform (Some e) w = Stopped NullPointer w' /\ sent w' = sent w.
Proof.
  intros Ho [p Hp] Hst Hd. pose proof (ends_not_ended _ Hst) as Hend.
  set (w0 := w <| ses := (ses w) <| ei := linphone_error_info_set (ei (ses w)) None (ei_reason e)
                    (ei_protocol_code e) (ei_phrase e) None |> |>).
  pose proof (give_error_info e zero_sei (fun sei => OpTerminate (Some sei)) o w p d Ho Hp Hend Hd
    ltac:(done)) as Hbye.
  pose proof (give_error_info e (zero_sei <| sal_sub_sei := Some zero_sei |>)
    (fun sei => OpReplyWithErrorInfo sei None 0) o w0 p d Ho Hp Hend Hd ltac:(done)) as Hreply.
  cbv zeta in Hbye, Hreply. cbn [sei_depth sal_sub_sei zero_sei] in Hbye.
  change (sei_depth (zero_sei <| sal_sub_sei := Some zero_sei |>)) with 1%nat in Hreply.
  assert (Hterm : terminate perform (Some e) w =
    (if (0 <? sub_levels (state (ses w)))%nat
     then ((sei ← to_sal e (zero_sei <| sal_sub_sei := Some zero_sei |>);
            op_do perform (OpReplyWithErrorInfo sei None 0)) ;; terminate_private perform ;; mret 0) w0
     else ((sei ← to_sal e zero_sei; op_do perform (OpTerminate (Some sei))) ;;
           terminate_private perform ;; mret 0) w)).
  { unfold terminate. erewrite bind_finished by reflexivity.
    destruct (state (ses w)) eqn:E; try discriminate Hst; cbn [sub_levels Nat.ltb Nat.leb]; try reflexivity;
      unfold declineWithInfo; (erewrite bind_finished by reflexivity); rewrite E; cbn [state_eqb andb];
      reflexivity. }
  rewrite Hterm. unfold ending_message.
  destruct (state (ses w)) eqn:E; try discriminate Hst; cbn [sub_levels Nat.ltb Nat.leb];
    revert Hbye Hreply; destruct (ei_depth e <=? 0)%nat, (ei_depth e <=? 1)%nat; intros Hbye Hreply;
    first [exact Hbye | exact Hreply | (eexists; split; [exact Hbye|reflexivity])
          | (eexists; split; [exact Hreply|reflexivity])].
Qed.

(** ** Calls announced by a push notification *)

Lemma terminate_private_status w p :
  params (ses w) = Some p -> state (ses w) = PushIncomingReceived -> op (ses w) = None ->
  exists w', terminate_private perform w = Finished tt w' /\ state (ses w') = Released /\
    log_status (log (ses w')) = ended_status (ei_reason (ei (ses w))) (ei_protocol_code (ei (ses w))) (log (ses w)).
Proof.
  intros Hp Hst Ho. unfold terminate_private. erewrite bind_finished by reflexivity. rewrite Hst.
  erewrite then_finished by reflexivity.
  destruct (setState_end_log End_ "Call terminated" w p eq_refl ltac:(by rewrite Hst) Hp)
    as (w1 & Heq1 & Hs1 & Ho1 & _ & _ & Hstatus & _).
  assert (Hei : current_ei (moved End_ "Call terminated" w) = ei (ses w)).
  { unfold current_ei, current_errors. rewrite moved_op, Ho. cbn.
    assert (He : ei (ses (moved End_ "Call terminated" w)) = ei (ses w)).
    { apply (moved_member ei); [|done]. intros s. unfold leave_state. cbn. by destruct (state s). }
    rewrite He. by destruct (nonOpError _). }
  rewrite Hei in Hstatus. rewrite (then_finished _ _ _ _ _ Heq1). erewrite bind_finished by reflexivity.
  rewrite Ho1, Ho. erewrite bind_finished by reflexivity. cbn [negb].
  destruct (setState_released fuel "Call released" w1 ltac:(by rewrite Hs1)) as (es & e & w2 & Heq2 & Hses & _).
  exists w2. split; [exact Heq2|]. split; [by rewrite Hses|]. rewrite Hses.
  change (log_status (log (ses (moved Released "Call released" w1))) = ended_status (ei_reason (ei (ses w))) (ei_protocol_code (ei (ses w))) (log (ses w))).
  by rewrite moved_log.
Qed.

(** A call that was announced by a push notification and has no operation yet can
    be declined or ended: it is released, and its log says declined.  But accepting
    it, or redirecting it to a valid address, reads its null operation. *)
Theorem pushed_call_without_operation w :
  state (ses w) = PushIncomingReceived -> op (ses w) = None -> is_Some (params (ses w)) ->
  log_status (log (ses w)) <> LinphoneCallMissed ->
  (forall e, exists w', terminate perform e w = Finished 0 w' /\ state (ses w') = Released /\
     log_status (log (ses w')) = LinphoneCallDeclined) /\
  (forall csp, exists w', accept perform csp w = Stopped NullPointer w') /\
  (forall to, address_isValid to = true -> redirect perform to w = Stopped NullPointer w).
Proof.
  intros Hst Ho [p Hp] Hstatus. split; [|split].
  - intros e.
    set (w0 := w <| ses := (ses w) <| ei := linphone_error_info_set (ei (ses w)) None ReasonDeclined 3
                      (Some "Declined"%string) None |> |>).
    destruct (terminate_private_status w0 p Hp Hst Ho) as (w' & Heq & Hs & Hlog).
    exists w'. split; [|split; [done|]].
    + unfold terminate. erewrite bind_finished by reflexivity. rewrite Hst.
      unfold declineWithInfo. erewrite bind_finished by reflexivity. rewrite Hst, Ho.
      change (state_eqb PushIncomingReceived PushIncomingReceived && bool_decide (None = None)) with true. cbn match.
      unfold set_error_info. erewrite then_finished by reflexivity. fold w0.
      rewrite (then_finished _ _ _ _ _ Heq). by rewrite (then_finished _ _ _ tt w' (setState_same fuel Released _ w' Hs)).
    + rewrite Hlog. unfold ended_status. cbn. by rewrite bool_decide_eq_false_2.
  - intros csp. destruct (notify_quiet fuel OnCheckForAcceptation w) as (es & _ & Heq).
    exists (events es w). unfold accept. unfold mbind at 1, Eff_bind at 1. unfold checkForAcceptation.
    erewrite bind_finished by reflexivity. rewrite Hst, (then_finished _ _ _ _ _ Heq).
    unfold the_op. unfold_M. change (op (ses (events es w))) with (op (ses w)). by rewrite Ho.
  - intros to Hto. unfold redirect. erewrite bind_finished by reflexivity. rewrite Hst, Hto.
    unfold the_op. unfold_M. by rewrite Ho.
Qed.
End Ending.

(** ** Witnesses *)

Section Witnesses.
Let elsewhere : SalErrorInfo := mkSalErrorInfo SalReasonNone (Some "Call completed elsewhere"%string) 200 None
  (Some "SIP"%string) None 0 None.
Let env := quiet_env (example_op true false zero_sei elsewhere) 0.
Let ringing := example_world LinphoneCallIncoming IncomingReceived Idle (Some 0%nat).

Lemma pending_actions_kept_witness :
  let w := ringing <| ses := (ses ringing) <| pendingActions := [0; 3]%nat |> |> in
  let w' := world_after (@executePendingActions _ env (@perform _ env 0) w) in
  @executePendingActions _ env (@perform _ env 0) w = Finished tt w' /\ pendingActions (ses w') = [3]%nat /\
  ((cv_networkReachable (@view_core _ env w) && negb (ended (state (ses w))) = false /\ w' = w) \/
   exists added unsuccessful w1,
    pendingActions (ses w') = added ++ unsuccessful /\ unsuccessful `sublist_of` pendingActions (ses w) /\
    @run_actions _ env (@perform _ env 0) (pendingActions (ses w)) (w <| ses := (ses w) <| pendingActions := [] |> |>) =
      Finished unsuccessful w1 /\ pendingActions (ses w1) = added).
Proof.
  split; [by vm_compute|]. split; [by vm_compute|].
  apply (@pending_actions_kept _ env (@perform _ env 0)). by vm_compute.
Defined.

Lemma cancelled_call_recorded_witness :
  op (ses ringing) = Some 0%nat /\
  exists w', @terminated _ env (@perform _ env 0) ringing = Finished tt w' /\ state (ses w') = End_ /\
    log_status (log (ses w')) = LinphoneCallAcceptedElsewhere /\
    log_errorInfo (log (ses w')) = Some (linphone_error_info_clone (ei (ses w'))) /\
    (log_status (log (ses w')) = LinphoneCallMissed -> In (CountMissedCall None) (history w')).
Proof.
  split; [reflexivity|].
  apply (@cancelled_call_recorded _ env (quiet_env_quiet _ _) 0 0 ringing zero_sei elsewhere);
    first [reflexivity|by eexists|by left|by split].
Defined.

Lemma terminate_with_error_info_witness :
  let e := linphone_error_info_new <| ei_reason := ReasonBusy |> <| ei_sub_ei := Some linphone_error_info_new |> in
  let w := example_world LinphoneCallOutgoing Connected OutgoingProgress (Some 0%nat) in
  (ei_depth e <=? sub_levels (state (ses w)))%nat = false /\
  exists w', @terminate _ env (@perform _ env 0) (Some e) w = Stopped NullPointer w' /\ sent w' = sent w.
Proof.
  intros e w. assert (Hdeep : (ei_depth e <=? sub_levels (state (ses w)))%nat = false) by reflexivity.
  split; [exact Hdeep|].
  pose proof (@terminate_with_error_info _ env (quiet_env_quiet _ _) 0 0 w e true eq_refl
    ltac:(by eexists) eq_refl (fun _ => eq_refl)) as Hend.
  rewrite Hdeep in Hend. exact Hend.
Defined.

Lemma pushed_call_without_operation_witness :
  let w := example_world LinphoneCallIncoming PushIncomingReceived Idle None in
  state (ses w) = PushIncomingReceived /\
  ((forall e, exists w', @terminate _ env (@perform _ env 0) e w = Finished 0 w' /\ state (ses w') = Released /\
      log_status (log (ses w')) = LinphoneCallDeclined) /\
   (forall csp, exists w', @accept _ env (@perform _ env 0) csp w = Stopped NullPointer w') /\
   (forall to, address_isValid to = true -> @redirect _ env (@perform _ env 0) to w = Stopped NullPointer w)).
Proof.
  split; [reflexivity|].
  apply (@pushed_call_without_operation _ env (quiet_env_quiet _ _) 0
           (example_world LinphoneCallIncoming PushIncomingReceived Idle None));
    first [reflexivity|by eexists|discriminate].
Defined.
End Witnesses.
