(* ===== verification/SipTypes.v ===== *)
(** * SIP messages, transactions and dialogs

    What [sal/call-op.cpp] and [sal/op.cpp] read and write of belle-sip's objects:
    messages as lists of headers with a body, the states of transactions and
    dialogs; and the contents of a message ([content/content.cpp]). *)
From S2P Require Import Prelude LpConfigValues ChatTypes.

Inductive DialogState := DialogNull | DialogEarly | DialogConfirmed | DialogTerminated.

#[export] Instance DialogState_eq_dec : EqDecision DialogState.
Proof. solve_decision. Defined.

(** Only these states are told apart. *)
Inductive TransactionState := TrInit | TrCalling | TrProceeding | TrTerminated | TrOther.

#[export] Instance TransactionState_eq_dec : EqDecision TransactionState.
Proof. solve_decision. Defined.

(** [belle_sip_header_session_expires_refresher_t] *)
Inductive Refresher := RefresherUnspecified | RefresherUAS | RefresherUAC.

#[export] Instance Refresher_eq_dec : EqDecision Refresher.
Proof. solve_decision. Defined.

(** [LinphoneSupportLevel] *)
Inductive SupportLevel := NoSupport | Optional | Mandatory.

(** ** Contents *)

(** The type of a content has its two parts in lower case; a content without
    a type has two empty ones. *)
Record Content := mkContent {
  content_type : string * string;
  content_disposition : option string;
  content_body : string;
}.

#[export] Instance eta_Content : Eta Content := fun c =>
  mkContent (content_type c) (content_disposition c) (content_body c).

Definition empty_content : Content := mkContent ("", "")%string None "".

Definition type_is (type subtype : string) (c : Content) : bool :=
  String.eqb (fst (content_type c)) type && String.eqb (snd (content_type c)) subtype.

(** [getContentType() == ContentType::Sdp] *)
Definition is_sdp : Content -> bool := type_is "application" "sdp".

(** [ContentType::isValid], [Content::isValid] and [Content::isMultipart] *)
Definition type_isValid (c : Content) : bool :=
  negb (str_empty (fst (content_type c))) && negb (str_empty (snd (content_type c))).
Definition content_isValid (c : Content) : bool := type_isValid c || negb (str_empty (content_body c)).
Definition isMultipart (c : Content) : bool := type_isValid c && type_is "multipart" "mixed" c.

(** [ContentType(type, subType)] *)
Definition ContentType_create (type subtype : string) : string * string :=
  if str_has "/" type then ("", "")%string
  else if str_has "/" subtype then ("", "")%string
  else (tolower type, tolower subtype).

(** ** Messages *)

Section Messages.
Context `{AddressLib}.

(** [belle_sip_header_replaces_t] *)
Record Replaces := mkReplaces {
  replaces_callId : string;
  replaces_fromTag : string;
  replaces_toTag : option string;
}.

(** Of a [Refer-To] header, the headers of its URI are kept apart; of a [To]
    header, whether it has a tag. *)
Inductive Header :=
  | HRoute (route : Address)
  | HPreferredIdentity (address : option Address)
  | HPrivacy (values : list string)
  | HFrom (address : option Address)
  | HTo (address : option Address) (tagged : bool)
  | HAllow (methods : string)
  | HSupported (tags : list string)
  | HSessionExpires (delta : Z) (refresher : Refresher)
  | HMinSE (value : string)
  | HSubject (value : string)
  | HReplaces (r : Replaces)
  | HReferredBy (by_ : Address)
  | HReferTo (to : Address) (uri_headers : list (string * string))
  | HReason (protocol : option string) (cause : Z) (text : option string)
  | HWarning (value : string)
  | HContact (contact : option Address)
  | HRequire (tags : string)
  | HRSeq (value : string)
  | HRetryAfter (value : Z)
  | HExpire (value : string)
  | HExpires (value : string)
  | HContentType (type subtype : string)
  | HContentDisposition (value : string)
  | HContentLength (length : Z)
  | HCallInfo (value : string)
  | HEvent (value : string)
  | HSubscriptionState (state reason : string)
  | HAuthorization
  | HUserAgent (value : string)
  | HCustom (name value : string).

(** A request, or a response: [msg_method] is its method, or the one of its
    [CSeq] header, and [msg_status] the code of a response. *)
Record Message := mkMessage {
  msg_method : string;
  msg_status : Z;
  msg_phrase : option string;
  msg_uri : option Address;
  msg_callId : string;
  msg_cseq : Z;
  msg_headers : list Header;
  msg_body : option string;
}.

#[global] Instance eta_Message : Eta Message := fun m =>
  mkMessage (msg_method m) (msg_status m) (msg_phrase m) (msg_uri m) (msg_callId m) (msg_cseq m) (msg_headers m) (msg_body m).

(** [belle_sip_message_add_header] *)
Definition add_header (h : Header) (m : Message) : Message := m <| msg_headers := msg_headers m ++ [h] |>.
Definition add_headers (hs : list Header) (m : Message) : Message := m <| msg_headers := msg_headers m ++ hs |>.

(** [belle_sip_message_get_header_by_type]: the first header [pick] recognises. *)
Fixpoint pick_header {A} (pick : Header -> option A) (hs : list Header) : option A :=
  match hs with
  | [] => None
  | h :: hs' => match pick h with Some a => Some a | None => pick_header pick hs' end
  end.
Definition get_header {A} (pick : Header -> option A) (m : Message) : option A := pick_header pick (msg_headers m).

(** The name a header is looked for with. *)
Definition header_name (h : Header) : string :=
  match h with
  | HRoute _ => "Route" | HPreferredIdentity _ => "P-Preferred-Identity" | HPrivacy _ => "Privacy"
  | HFrom _ => "From" | HTo _ _ => "To" | HAllow _ => "Allow" | HSupported _ => "Supported" | HSessionExpires _ _ => "Session-Expires"
  | HMinSE _ => "Min-SE" | HSubject _ => "Subject" | HReplaces _ => "Replaces"
  | HReferredBy _ => "Referred-By" | HReferTo _ _ => "Refer-To" | HReason _ _ _ => "Reason"
  | HWarning _ => "Warning" | HContact _ => "Contact" | HRequire _ => "Require" | HRSeq _ => "RSeq"
  | HRetryAfter _ => "Retry-After" | HExpire _ => "Expire" | HExpires _ => "Expires" | HContentType _ _ => "Content-Type"
  | HContentDisposition _ => "Content-Disposition" | HContentLength _ => "Content-Length"
  | HCallInfo _ => "Call-Info" | HEvent _ => "Event" | HSubscriptionState _ _ => "Subscription-State"
  | HAuthorization => "Authorization" | HUserAgent _ => "User-Agent" | HCustom name _ => name
  end.

(** [belle_sip_message_remove_header] and [belle_sip_message_set_header] *)
Definition remove_header (name : string) (m : Message) : Message :=
  m <| msg_headers := List.filter (fun h => negb (String.eqb (header_name h) name)) (msg_headers m) |>.
Definition set_header (h : Header) (m : Message) : Message := add_header h (remove_header (header_name h) m).

Definition as_privacy h := match h with HPrivacy values => Some values | _ => None end.
Definition as_from h := match h with HFrom a => Some a | _ => None end.
Definition as_to h := match h with HTo a tagged => Some (a, tagged) | _ => None end.
Definition as_subject h := match h with HSubject v => Some v | _ => None end.
Definition as_expires h := match h with HExpires v => Some v | _ => None end.
Definition as_supported h := match h with HSupported tags => Some tags | _ => None end.
Definition as_session_expires h := match h with HSessionExpires delta r => Some (delta, r) | _ => None end.
Definition as_min_se h := match h with HMinSE v => Some v | _ => None end.
Definition as_replaces h := match h with HReplaces r => Some r | _ => None end.
Definition as_referred_by h := match h with HReferredBy a => Some a | _ => None end.
Definition as_refer_to h := match h with HReferTo a r => Some (a, r) | _ => None end.
Definition as_reason h := match h with HReason p c t => Some (p, c, t) | _ => None end.
Definition as_warning h := match h with HWarning v => Some v | _ => None end.
Definition as_contact h := match h with HContact a => Some a | _ => None end.
Definition as_require h := match h with HRequire v => Some v | _ => None end.
Definition as_content_type h := match h with HContentType t s => Some (t, s) | _ => None end.
Definition as_content_disposition h := match h with HContentDisposition v => Some v | _ => None end.
Definition as_content_length h := match h with HContentLength n => Some n | _ => None end.
Definition as_call_info h := match h with HCallInfo v => Some v | _ => None end.
Definition as_event h := match h with HEvent v => Some v | _ => None end.
Definition as_allow h := match h with HAllow v => Some v | _ => None end.
Definition as_authorization h := match h with HAuthorization => Some tt | _ => None end.
Definition as_user_agent h := match h with HUserAgent v => Some v | _ => None end.

(** [belle_sip_header_supported_contains_tag] *)
Definition contains_tag (tag : string) (tags : list string) : bool := existsb (String.eqb tag) tags.

(** [SalCallOp::extractBody]: the type is kept when both parts are given, the
    body when the content length is positive. *)
Definition extractBody (m : Message) : Content :=
  let type :=
    match get_header as_content_type m with
    | Some (t, s) => if str_empty t || str_empty s then ("", "")%string else ContentType_create t s
    | None => ("", "")%string
    end in
  let length := default 0 (get_header as_content_length m) in
  mkContent type (get_header as_content_disposition m)
    (match msg_body m with
     | Some body => if 0 <? length then String.substring 0 (Z.to_nat length) body else EmptyString
     | None => EmptyString
     end).

(** [SalOp::setCustomBody] *)
Definition setCustomBody (body : Content) (m : Message) : Message :=
  let m := if type_isValid body
           then add_header (HContentType (fst (content_type body)) (snd (content_type body))) m else m in
  let m := match content_disposition body with Some d => add_header (HContentDisposition d) m | None => m end in
  let m := add_header (HContentLength (Z.of_nat (String.length (content_body body)))) m in
  if str_empty (content_body body) then m else m <| msg_body := Some (content_body body) |>.

(** ** Privacy ([c-wrapper/internal/c-sal.cpp]) *)

Inductive SalPrivacy :=
  | SalPrivacyNone | SalPrivacyUser | SalPrivacyHeader | SalPrivacySession | SalPrivacyId | SalPrivacyCritical.

Definition privacy_bit (p : SalPrivacy) : Z :=
  match p with
  | SalPrivacyNone => 0 | SalPrivacyUser => 1 | SalPrivacyHeader => 2 | SalPrivacySession => 4
  | SalPrivacyId => 8 | SalPrivacyCritical => 16
  end.

Definition sal_privacy_to_string (p : SalPrivacy) : string :=
  match p with
  | SalPrivacyUser => "user" | SalPrivacyHeader => "header" | SalPrivacySession => "session"
  | SalPrivacyId => "id" | SalPrivacyNone => "none" | SalPrivacyCritical => "critical"
  end.

(** [mPrivacy & p] *)
Definition has_privacy (mask : Z) (p : SalPrivacy) : bool := negb (Z.land mask (privacy_bit p) =? 0).

(** The [Privacy] header of a request ([SalOp::buildRequest]). *)
Definition privacy_values (mask : Z) : list string :=
  map sal_privacy_to_string
    (List.filter (has_privacy mask)
       [SalPrivacyCritical; SalPrivacyHeader; SalPrivacyId; SalPrivacyNone; SalPrivacySession; SalPrivacyUser]).

(** [SalOp::setPrivacyFromMessage]: [none] ends the list. *)
Definition privacy_of_value (value : string) (mask : Z) : Z :=
  fold_left (fun mask p =>
    if String.eqb value (sal_privacy_to_string p) then Z.lor mask (privacy_bit p) else mask)
    [SalPrivacyCritical; SalPrivacyHeader; SalPrivacyId; SalPrivacySession; SalPrivacyUser] mask.

Fixpoint privacy_of_values (values : list string) (mask : Z) : Z :=
  match values with
  | [] => mask
  | v :: values' =>
      if String.eqb v (sal_privacy_to_string SalPrivacyNone) then 0
      else privacy_of_values values' (privacy_of_value v mask)
  end.

Definition privacyFromMessage (m : Message) : Z :=
  match get_header as_privacy m with Some values => privacy_of_values values 0 | None => 0 end.

(** [SalCallOp::createAllow] *)
Definition createAllow (enableUpdate : bool) : Header :=
  HAllow ("INVITE, ACK, CANCEL, OPTIONS, BYE, REFER, NOTIFY, MESSAGE, SUBSCRIBE, INFO, PRACK"
          +:+ (if enableUpdate then ", UPDATE" else ""))%string.

End Messages.
