(* ===== verification/CallOpTypes.v ===== *)
(** * The data of a SIP call operation ([sal/call-op.h], [sal/op.h])

    The members of a [SalCallOp], what belle-sip and the main loop hold of it, what
    it tells the core and sends (an event), what is called on it (an entry), and
    the interface [SipStack] of belle-sip. *)
From S2P Require Import Prelude Effects SalTypes Payload SalMediaDescription SdpObjects OfferAnswerEngine ChatTypes ErrorInfo SipTypes.

(** [SalOp::State] and [SalOp::Dir] *)
Inductive OpState := OpEarly | OpActive | OpTerminating | OpTerminated.

#[export] Instance OpState_eq_dec : EqDecision OpState.
Proof. solve_decision. Defined.

Definition opstate_eqb (a b : OpState) : bool := bool_decide (a = b).

Inductive OpDir := OpIncoming | OpOutgoing.

#[export] Instance OpDir_eq_dec : EqDecision OpDir.
Proof. solve_decision. Defined.

(** [SalOpSDPHandling] *)
Inductive SdpHandling := SdpNormal | SdpSimulateError | SdpSimulateRemove.

#[export] Instance SdpHandling_eq_dec : EqDecision SdpHandling.
Proof. solve_decision. Defined.

(** [SalReferStatus] *)
Inductive ReferStatus := ReferTrying | ReferSuccess | ReferFailed.

#[export] Instance ReferStatus_eq_dec : EqDecision ReferStatus.
Proof. solve_decision. Defined.

(** The settings of [Sal] an operation reads. *)
Record SalSettings := {
  mSessionExpiresEnabled : bool;
  mSessionExpiresValue : Z;
  mSessionExpiresMin : Z;
  mSessionExpiresRefresher : Refresher;
  mEnableSipUpdate : bool;
  mSupportedTags : option (list string);
  mNoInitialRoute : bool;
  mSupportedContentTypes : list string;
  mUserAgent : string;
  mediaDisabled : bool;
  mOfferAnswerEngine : OfferAnswerEngine;
  mDefaultSdpHandling : SdpHandling;
  has_vfu_request : bool;
}.

Section Types.
Context `{AddressLib}.

(** The members of [SalOp] and [SalCallOp].  Transactions and dialogs are objects
    of belle-sip, told apart by a number, as retry functions are; [mUserPointer]
    says whether the user pointer is set. *)
Record SalCallOp := mkSalCallOp {
  mState : OpState;
  mDir : OpDir;
  mDialog : option nat;
  mPendingClientTransaction : option nat;
  mPendingServerTransaction : option nat;
  mPendingUpdateServerTransaction : option nat;
  mPendingAuthTransaction : option nat;
  mCallReleased : bool;
  mOpReleased : bool;
  mRef : Z;
  mUserPointer : bool;
  mErrorInfo : SalErrorInfo;
  mReasonErrorInfo : SalErrorInfo;
  mRetryFunc : option nat;
  mLocalMedia : option SalMediaDescription;
  mRemoteMedia : option SalMediaDescription;
  mResult : option SalMediaDescription;
  mSdpAnswer : option belle_sdp_session_description;
  mSdpOffering : bool;
  mSdpHandling : SdpHandling;
  mLocalBodies : list Content;
  mRemoteBodies : list Content;
  capabilityNegotiation : bool;
  mNotifyAllRingings : bool;
  mAutoAnswerAsked : bool;
  mCnxIpTo0000IfSendOnlyEnabled : bool;
  mReplaces : option Replaces;
  mReferredBy : option Address;
  mSessionTimersTimer : option nat;
  mFromAddress : option Address;
  mToAddress : option Address;
  mContactAddress : option Address;
  mRemoteContact : option Address;
  mRouteAddresses : list Address;
  mRequestUri : string;
  mPrivacy : Z;
  mUseSupportedTags : bool;
  mSupportedHeader : option (list string);
  mSubject : string;
  mCallId : string;
  mSentCustomHeaders : list Header;
  mAuthRequests : Z;
  mHasAuthPending : bool;
}.

#[global] Instance eta_SalCallOp : Eta SalCallOp := fun o =>
  mkSalCallOp (mState o) (mDir o) (mDialog o) (mPendingClientTransaction o) (mPendingServerTransaction o)
    (mPendingUpdateServerTransaction o) (mPendingAuthTransaction o) (mCallReleased o) (mOpReleased o) (mRef o)
    (mUserPointer o) (mErrorInfo o) (mReasonErrorInfo o) (mRetryFunc o) (mLocalMedia o) (mRemoteMedia o)
    (mResult o) (mSdpAnswer o) (mSdpOffering o) (mSdpHandling o) (mLocalBodies o) (mRemoteBodies o)
    (capabilityNegotiation o) (mNotifyAllRingings o) (mAutoAnswerAsked o) (mCnxIpTo0000IfSendOnlyEnabled o)
    (mReplaces o) (mReferredBy o) (mSessionTimersTimer o) (mFromAddress o) (mToAddress o) (mContactAddress o)
    (mRemoteContact o) (mRouteAddresses o) (mRequestUri o) (mPrivacy o)
    (mUseSupportedTags o) (mSupportedHeader o) (mSubject o) (mCallId o) (mSentCustomHeaders o) (mAuthRequests o) (mHasAuthPending o).

(** [SalOp::SalOp] and [SalCallOp::SalCallOp]: the creator has the first reference. *)
Definition SalCallOp_create (handling : SdpHandling) (negotiation : bool) : SalCallOp :=
  mkSalCallOp OpEarly OpIncoming None None None None None false false 1 false zero_sei zero_sei None None None
    None None false handling [] [] negotiation false false false None None None None None None None [] "" 0 false None "" "" [] 0 false.

(** ** Events *)

(** The functions of [SalCallbacks], which belong to the core. *)
Inductive SalCallback :=
  | Call_received | Call_rejected | Call_ringing | Call_accepted | Call_refreshed | Call_refreshing
  | Call_updating (isUpdate : bool)
  | Call_ack_received | Call_ack_being_sent (ack : Message)
  | Call_terminated (from : option Address)
  | Call_failure | Call_released | Call_cancel_done
  | Call_refer_received (to : Address)
  | Notify_refer (status : ReferStatus)
  | Dtmf_received (dtmf : ascii) | Info_received (body : option string) | Vfu_request
  | Message_received (request : Message)
  | Auth_failure | Process_redirect.

(** What is called outside of the operation.  [NoAck] is the line it logs when an
    acknowledgement cannot be made, [Received] the server transaction that is made
    for a request; [Destroyed] the end of its destructor. *)
Inductive SipEvent :=
  | Callback (c : SalCallback)
  | Received (tr : nat) (request : Message)
  | SendRequest (tr : nat) (nextHop : option Address) (request : Message)
  | SendResponse (tr : nat) (response : Message)
  | SendStateless (response : Message)
  | SendAck (dialog : nat) (ack : Message)
  | SendOrphan (dialog : nat) (ack bye : Message)
  | DeleteDialog (dialog : nat)
  | StopRetransmissions (tr : nat)
  | RunRetry (f : nat)
  | NoAck
  | Destroyed
  | SipFatal.

(** ** Entries *)

(** A request within a dialog comes with whether belle-sip has matched it with a
    transaction, as it does for a [CANCEL]. *)
Inductive Entry :=
  (* the core, and the call session *)
  | OpCall (from to : option Address) (subject : string)
  | OpNotifyRinging (earlyMedia : bool) (support : SupportLevel)
  | OpAccept
  | OpDecline (reason : SalReason) (redirection : option (Address * bool))
  | OpUpdate (subject : string) (noUserConsent : bool)
  | OpCancelInvite (info : option SalErrorInfo)
  | OpTerminate (info : option SalErrorInfo)
  | OpReplyWithErrorInfo (info : SalErrorInfo) (redirection : option Address) (expire : Z)
  | OpReplyMessage (reason : SalReason)
  | OpRefer (to : Address)
  | OpReferWithReplaces (other : nat)
  | OpSetReferrer (other : nat)
  | OpNotifyReferState (other : nat)
  | OpSendDtmf (dtmf : ascii)
  | OpSendVfuRequest
  | OpSendMessage (content : Content)
  | OpSendInfo (body : string)
  | OpRelease
  | OpKillDialog
  | OpSetLocalMediaDescription (desc : option SalMediaDescription)
  | OpSetLocalBodies (bodies : list Content)
  | OpAddLocalBody (body : Content)
  | OpSetReplaces (r : Replaces)
  | OpSetContactAddress (contact : option Address)
  | OpSetRouteAddress (route : option Address)
  | OpAddRouteAddress (route : Address)
  | OpSetPrivacy (mask : Z)
  | OpSetRequestUri (uri : string)
  | OpMakeSupportedHeader (tags : list string)
  | OpSetSentCustomHeaders (headers : list Header)
  | OpSetUserPointer (set : bool)
  | OpSetRetryFunction (f : nat)
  | OpResetRetryFunction
  | OpEnableCapabilityNegotiation (enable : bool)
  | OpEnableCnxIpTo0000IfSendOnly (value : bool)
  | OpSetNotifyAllRingings (value : bool)
  | OpSetSdpHandling (handling : SdpHandling)
  | OpGetFinalMediaDescription
  | OpProcessRedirect
  | OpAuthenticate
  (* belle-sip, through [Sal] *)
  | SipRequest (dialog : nat) (matched : bool) (request : Message)
  | SipResponse (tr : option nat) (dialog : option nat) (response : Message)
  | SipIoError (tr : nat)
  | SipTimeout (tr : nat)
  | SipTransactionTerminated (tr : nat) (server : bool)
  | SipDialogTerminated (dialog : nat)
  (* the main loop *)
  | Fire (source : nat).

(** ** The world *)

(** What the main loop may call besides session timers: a timer of [handleRetry]
    and of a refused video update, which hold a reference, and
    [setCallAsReleased], which does not. *)
Inductive Source := RetryTimer | VfuTimer | ReleaseLater.

(** The operation; whether it was freed; the dialogs and transactions whose
    application data it is; the sources of the main loop, session timers apart,
    which hold no reference; the responses kept with dialogs; and everything that
    was done, last first. *)
Record SipWorld := mkSipWorld {
  sal_op : SalCallOp;
  freed : bool;
  dialog_links : list nat;
  tr_links : list nat;
  sources : list (nat * Source);
  session_timers : list (nat * (bool * Z * Z));
  nextId : nat;
  early_responses : list (nat * Message);
  sip_history : list SipEvent;
}.

#[global] Instance eta_SipWorld : Eta SipWorld := fun w =>
  mkSipWorld (sal_op w) (freed w) (dialog_links w) (tr_links w) (sources w) (session_timers w) (nextId w) (early_responses w) (sip_history w).

(** ** What an operation relies on *)

(** What is read of another operation: its dialog, the last response to its pending
    client transaction, and the headers of its transfer. *)
Record OtherOp := {
  oo_dialog : option DialogState;
  oo_target : Address;
  oo_replaces_value : string;
  oo_last_response : option (Z * string);
  oo_replaces : option Replaces;
  oo_referredBy : option Address;
}.

(** belle-sip, the main loop and the core.  All may depend on everything that was
    done; [sip_react] is what is called on the operation, in order, before an
    event returns. *)
Class SipStack := {
  settings : SipWorld -> SalSettings;
  (** Dialogs. *)
  dialog_state : SipWorld -> nat -> DialogState;
  dialog_previous_state : SipWorld -> nat -> DialogState;
  dialog_aborted_no_ack : SipWorld -> nat -> bool;
  dialog_request_pending : SipWorld -> nat -> bool;
  dialog_last_transaction : SipWorld -> nat -> option nat;
  dialog_can_create : SipWorld -> nat -> string -> bool;
  dialog_create_request : SipWorld -> nat -> string -> option Message;
  dialog_create_queued_request : SipWorld -> nat -> string -> option Message;
  dialog_create_request_from : SipWorld -> nat -> Message -> option Message;
  dialog_create_queued_request_from : SipWorld -> nat -> Message -> option Message;
  dialog_create_ack : SipWorld -> nat -> Z -> option Message;
  dialog_local_seq : SipWorld -> nat -> Z;
  dialog_local_party : SipWorld -> nat -> Address;
  provider_create_dialog : SipWorld -> option nat -> option nat;
  (** Transactions. *)
  transaction_state : SipWorld -> nat -> TransactionState;
  transaction_transient : SipWorld -> nat -> bool;
  transaction_request : SipWorld -> nat -> Message;
  transaction_response : SipWorld -> nat -> option Message;
  transaction_is_incoming_invite : SipWorld -> nat -> bool;
  create_cancel : SipWorld -> nat -> option Message;
  (** [belle_sip_client_transaction_send_request_to] *)
  send_result : SipWorld -> nat -> Message -> Z;
  (** URIs and listening points. *)
  uri_transport : Address -> option string;
  uri_is_secure : Address -> bool;
  uri_with_transport : string -> Address -> Address;
  listening_point : SipWorld -> string -> bool;
  udp_is_tunnel : SipWorld -> bool;
  uri_with_secure : bool -> Address -> Address;
  uri_with_lr : Address -> Address;
  (** Without its port and its [transport] parameter, and [belle_sip_header_address_set_uri]. *)
  uri_without_port_and_transport : Address -> Address;
  address_with_uri : Address -> Address -> Address;
  address_domain : Address -> string;
  address_scheme : Address -> string;
  uri_parse : string -> option Address;
  anonymous_address : Address;
  (** Messages.  [to_is_usable] is whether an address has a URI. *)
  to_is_usable : Address -> bool;
  create_response : SipWorld -> Message -> Z -> Message;
  new_call_id : SipWorld -> string;
  add_authorization : SipWorld -> Message -> option Message -> option Message;
  parse_sipfrag : string -> option Z;
  parse_response : string -> option Z;
  parse_replaces : string -> option Replaces;
  (** Session descriptions as text. *)
  parse_sdp : string -> option belle_sdp_session_description;
  print_sdp : belle_sdp_session_description -> string;
  (** [ContentManager] *)
  contentListToMultipart : list Content -> Content;
  multipartToContentList : Content -> list Content;
  (** [ms_is_ipv6] *)
  is_ipv6_text : string -> bool;
  (** [SalOp::createWarningHeader] *)
  warning_text : option string -> Address -> string;
  other_op : SipWorld -> nat -> OtherOp;
  redirect_result : SipWorld -> Z;
  sip_react : SipWorld -> SipEvent -> list Entry;
  sip_fatal_aborts : bool;
}.

(** ** Running an operation *)

#[local] Notation Sip := (Eff SipWorld).

Definition record_sip (e : SipEvent) (w : SipWorld) : SipWorld := w <| sip_history := e :: sip_history w |>.

(** Reading and writing the members of the operation, which must not be freed. *)
Definition gets {A} (f : SalCallOp -> A) : Sip A := fun w =>
  if freed w then Stopped Freed w else Finished (f (sal_op w)) w.
Definition modify (f : SalCallOp -> SalCallOp) : Sip unit := fun w =>
  if freed w then Stopped Freed w else Finished tt (w <| sal_op := f (sal_op w) |>).

Definition log_line (e : SipEvent) : Sip unit := fun w => Finished tt (record_sip e w).

(** [lFatal] *)
Definition sip_fatal `{SipStack} : Sip unit := fun w =>
  let w := record_sip SipFatal w in
  if sip_fatal_aborts then Stopped Aborted w else Finished tt w.

Definition fresh_id : Sip nat := fun w => Finished (nextId w) (w <| nextId := S (nextId w) |>).

Definition link_dialog (d : nat) : Sip unit := fun w =>
  Finished tt (w <| dialog_links := d :: dialog_links w |>).

Fixpoint remove_first (x : nat) (l : list nat) : list nat :=
  match l with
  | [] => []
  | y :: l' => if Nat.eqb x y then l' else y :: remove_first x l'
  end.

Definition unlink_dialog (d : nat) : Sip unit := fun w =>
  Finished tt (w <| dialog_links := remove_first d (dialog_links w) |>).
Definition link_transaction (t : nat) : Sip unit := fun w =>
  Finished tt (w <| tr_links := t :: tr_links w |>).
Definition unlink_transaction (t : nat) : Sip unit := fun w =>
  Finished tt (w <| tr_links := remove_first t (tr_links w) |>).

Definition add_source (i : nat) (s : Source) : Sip unit := fun w =>
  Finished tt (w <| sources := (i, s) :: sources w |>).

(** The main loop takes a source out before it runs it. *)
Fixpoint remove_source (i : nat) (l : list (nat * Source)) : option (Source * list (nat * Source)) :=
  match l with
  | [] => None
  | (j, s) :: l' =>
      if Nat.eqb i j then Some (s, l')
      else match remove_source i l' with Some (s', l'') => Some (s', (j, s) :: l'') | None => None end
  end.
Definition take_source (i : nat) : Sip (option Source) := fun w =>
  match remove_source i (sources w) with
  | Some (s, l) => Finished (Some s) (w <| sources := l |>)
  | None => Finished None w
  end.

(** A session timer has what its function captures and its period in
    milliseconds. *)
Definition add_session_timer (i : nat) (noUserConsent : bool) (delta period : Z) : Sip unit := fun w =>
  Finished tt (w <| session_timers := (i, (noUserConsent, delta, period)) :: session_timers w |>).
(** [Sal::cancelTimer] *)
Definition cancelTimer (i : nat) : Sip unit := fun w =>
  Finished tt (w <| session_timers := filter (fun t => t.1 <> i) (session_timers w) |>).

Definition keep_response (d : nat) (response : Message) : Sip unit := fun w =>
  Finished tt (w <| early_responses := (d, response) :: filter (fun r => r.1 <> d) (early_responses w) |>).

(** The destructor, [SalOp::~SalOp]. *)
Definition destroy : Sip unit := fun w => Finished tt (record_sip Destroyed (w <| freed := true |>)).

End Types.

Notation Sip := (Eff SipWorld).
