(* ===== verification/CallOp.v ===== *)
(** * A SIP call operation ([sal/call-op.cpp], with the parts of [sal/op.cpp] and
    [sal/sal.cpp] it uses)

    Every operation of [SalCallOp], its callbacks on belle-sip's events, and the
    functions of [Sal] that find the operation an event is for.  What is sent or
    told is an event: [raise] stands for it and for all that is called on the
    operation before it returns.  [sip_perform] ties the knot. *)
From S2P Require Import Prelude Effects Sscanf SalTypes Payload SalStreamConfiguration SalStreamDescription SalMediaDescription SdpObjects SalSdp StreamSdpReader StreamSdpWriter MediaSdp LpConfig LpConfigValues OfferAnswerEngine ChatTypes ErrorInfo SipTypes CallOpTypes.

(** ** Lines of a DTMF body ([c-wrapper/internal/c-sal.cpp]) *)

(** The text before the first [c], and after it. *)
Fixpoint split_char (c : ascii) (s : string) : option (string * string) :=
  match s with
  | EmptyString => None
  | String d s' =>
      if Ascii.eqb c d then Some (EmptyString, s')
      else match split_char c s' with Some (a, b) => Some (String d a, b) | None => None end
  end.

(** The first line is copied into a zeroed array of 256 bytes, which has no end
    when the line fills it. *)
Definition line_get_value (input key : string) (value_size : nat) : outcome (option string) * nat :=
  let len :=
    match split_char LF input with Some (a, _) => S (String.length a) | None => String.length input end in
  let line := String.substring 0 (Nat.min len 256) input in
  let endless := (256 <=? len)%nat in
  (match split_char "=" line with
   | None => if endless then Undefined else Done None
   | Some (before, after) =>
       match scan_str before with
       | Some (candidate, _) =>
           if strcasecmp_eq key candidate then
             if endless then Undefined else
             Done (fst <$> scan_str (String.substring 0 (Nat.min (String.length after) (value_size - 1)) after))
           else Done None
       | None => Done None
       end
   end, len).

Fixpoint lines_get_value (fuel : nat) (data key : string) (value_size : nat) : outcome (option string) :=
  match fuel with
  | O => Done None
  | S fuel =>
      let '(r, len) := line_get_value data key value_size in
      let* value := r in
      match value with
      | Some v => Done (Some v)
      | None =>
          if (len =? 0)%nat then Done None
          else lines_get_value fuel (String.substring len (String.length data - len) data) key value_size
      end
  end.

(** Every turn but the last one takes a character. *)
Definition sal_lines_get_value (data key : string) (value_size : nat) : outcome (option string) :=
  lines_get_value (S (String.length data)) data key value_size.

Section Ops.
Context `{AddressLib} {lib : MediaLib} {sdp : SdpLib} {ortp : OrtpRtcp} `{!SipStack}.
(** [bctoolbox::Utils::split] *)
Variable split : string -> ascii -> list string.
Variable raise : SipEvent -> Sip unit.

(** ** Reading and calling *)

Definition sal {A} (f : SalSettings -> A) : Sip A := asks (fun w => f (settings w)).
Definition of_dialog {A} (f : SipWorld -> nat -> A) (d : nat) : Sip A := asks (fun w => f w d).
Definition tell (c : SalCallback) : Sip unit := raise (Callback c).

(** The result of code that may be undefined or throw. *)
Definition must {A} (x : outcome A) : Sip A :=
  match x with Done a => mret a | Undefined => stop UndefinedBehaviour | Thrown => stop Uncaught end.

(** The state of a dialog, [BELLE_SIP_DIALOG_NULL] without one. *)
Definition state_of_dialog (d : option nat) : Sip DialogState :=
  match d with Some d => of_dialog dialog_state d | None => mret DialogNull end.
Definition current_dialog_state : Sip DialogState := d ← gets mDialog; state_of_dialog d.
Definition confirmed (s : DialogState) : bool := bool_decide (s = DialogConfirmed).

(** ** References ([sal/op.cpp]) *)

Definition op_ref : Sip unit := modify (fun o => o <| mRef := mRef o + 1 |>).

Definition op_unref : Sip unit :=
  modify (fun o => o <| mRef := mRef o - 1 |>) ;;
  r ← gets mRef;
  if r =? 0 then destroy else when (r <? 0) do sip_fatal.

Definition unlinkOpFromDialog (d : nat) : Sip unit := unlink_dialog d ;; op_unref.
Definition linkOpWithDialog (d : nat) : Sip unit := op_ref ;; link_dialog d.

(** [belle_sip_transaction_set_application_data(transaction, ref())] *)
Definition take_transaction (tr : nat) : Sip unit := op_ref ;; link_transaction tr.

(** [createTimer(function, ref(), ...)] *)
Definition add_timer (s : Source) : Sip unit := op_ref ;; i ← fresh_id; add_source i s.

Definition setOrUpdateDialog (dialog : option nat) : Sip unit :=
  op_ref ;;
  current ← gets mDialog;
  (when (negb (bool_decide (current = dialog))) do (
     match current with
     | Some d => unlinkOpFromDialog d ;; modify (fun o => o <| mDialog := None |>)
     | None => mret tt
     end ;;
     match dialog with
     | Some d => linkOpWithDialog d ;; modify (fun o => o <| mDialog := Some d |>)
     | None => mret tt
     end)) ;;
  op_unref.

Definition release : Sip unit :=
  released ← gets mOpReleased;
  when (negb released) do (
    modify (fun o => if opstate_eqb (mState o) OpTerminating then o else o <| mState := OpTerminated |>) ;;
    modify (fun o => o <| mUserPointer := false |> <| mOpReleased := true |>) ;;
    op_unref).

Definition killDialog : Sip unit :=
  d ← gets mDialog; match d with Some d => raise (DeleteDialog d) | None => mret tt end.

(** ** Sending ([sal/op.cpp]) *)

(** [Sal::createResponseFromRequest] *)
Definition createResponseFromRequest (request : Message) (code : Z) : Sip Message :=
  response ← asks (fun w => create_response w request code);
  s ← asks settings;
  let response := add_header (HUserAgent (mUserAgent s)) response in
  mret (match mSupportedTags s with Some tags => add_header (HSupported tags) response | None => response end).

Definition send_response (tr : nat) (response : Message) : Sip unit := raise (SendResponse tr response).

(** A response to the request of [tr]. *)
Definition respond (tr : option nat) (request : Message) (code : Z) : Sip unit :=
  response ← createResponseFromRequest request code;
  tr ← the tr;
  send_response tr response.

Definition setContactAddress (contact : option Address) : Sip unit :=
  modify (fun o => o <| mContactAddress := contact |>).

Definition option_headers (hs : list (option Header)) : list Header := omap (fun h => h) hs.

(** [SalOp::createContact], without the parameters it adds. *)
Definition createContact : Sip Header := contact ← gets mContactAddress; mret (HContact contact).

Fixpoint addCustomHeaders (hs : list Header) (m : Message) : Sip Message :=
  match hs with
  | [] => mret m
  | HContact contact :: hs' =>
      setContactAddress contact ;; h ← createContact; addCustomHeaders hs' (set_header h m)
  | h :: hs' => addCustomHeaders hs' (set_header h m)
  end.

Definition has_header {A} (pick : Header -> option A) (m : Message) : bool :=
  match get_header pick m with Some _ => true | None => false end.

(** Where a request is sent: a transport is chosen when the URI has none. *)
Definition choose_transport (w : SipWorld) (hop : Address) : Address :=
  match uri_transport hop with
  | Some _ => if listening_point w "UDP" && udp_is_tunnel w then uri_with_transport "udp" hop else hop
  | None =>
      if uri_is_secure hop || listening_point w "UDP" then hop
      else if listening_point w "TCP" then uri_with_transport "tcp" hop
      else if listening_point w "TLS" then uri_with_transport "tls" hop
      else hop
  end.

(** Nothing is chosen within a dialog; a route is changed in place. *)
Definition next_hop (request : Message) : Sip (option Address) :=
  st ← current_dialog_state;
  if bool_decide (st = DialogNull) then
    routes ← gets mRouteAddresses;
    match routes with
    | [] => uri ← the (msg_uri request); hop ← asks (fun w => choose_transport w uri); mret (Some hop)
    | route :: routes =>
        hop ← asks (fun w => choose_transport w route);
        modify (fun o => o <| mRouteAddresses := hop :: routes |>) ;; mret (Some hop)
    end
  else mret None.

Definition sendRequestWithContact (request : Message) (addContact : bool) : Sip Z :=
  request ← (if addContact && negb (has_header as_contact request)
             then h ← createContact; mret (set_header h request) else mret request);
  custom ← gets mSentCustomHeaders;
  request ← addCustomHeaders custom request;
  hop ← next_hop request;
  tr ← fresh_id;
  take_transaction tr ;;
  modify (fun o => o <| mPendingClientTransaction := Some tr |>) ;;
  agent ← sal mUserAgent;
  let request := if has_header as_user_agent request then request else add_header (HUserAgent agent) request in
  authorized ← (if has_header as_authorization request then mret None
                else asks (fun w => add_authorization w request None));
  let request := default request authorized in
  raise (SendRequest tr hop request) ;;
  result ← asks (fun w => send_result w tr request);
  callId ← gets mCallId;
  (when ((result =? 0) && str_empty callId) do modify (fun o => o <| mCallId := msg_callId request |>)) ;;
  mret result.

Definition needs_contact (method : string) : bool :=
  existsb (String.eqb method) ["INVITE"; "REGISTER"; "SUBSCRIBE"; "OPTIONS"; "REFER"]%string.

Definition sendRequest (request : option Message) : Sip Z :=
  match request with
  | None => mret (-1)
  | Some request => sendRequestWithContact request (needs_contact (msg_method request))
  end.

Definition resendRequest (request : Message) : Sip unit :=
  sendRequest (Some (request <| msg_cseq := msg_cseq request + 1 |>)) ;; mret tt.

Definition isSecure (o : SalCallOp) : bool :=
  match mFromAddress o, mToAddress o with
  | Some from, Some to =>
      strcasecmp_eq "sips" (address_scheme from) && strcasecmp_eq "sips" (address_scheme to)
  | _, _ => false
  end.

(** A single route to where the request goes anyway is left out. *)
Definition addInitialRouteSet (requestUri : Address) (routes : list Address) : list Header :=
  match routes with
  | [route] =>
      if String.eqb (address_domain route) (address_domain requestUri) then [] else [HRoute (uri_with_lr route)]
  | _ => map (fun route => HRoute (uri_with_lr route)) routes
  end.

(** The random tag of the [From] header and the [Via] header are left out. *)
Definition buildRequest (method : string) : Sip (option Message) :=
  o ← gets (fun o => o);
  match mToAddress o with
  | None => mret None
  | Some to =>
      if to_is_usable to then
        let registers := String.eqb method "REGISTER" in
        let private := negb registers && negb (mPrivacy o =? 0) in
        requestUri ← (if str_empty (mRequestUri o) then mret (uri_with_secure (isSecure o) to)
                      else the (uri_parse (mRequestUri o)));
        newId ← asks new_call_id;
        s ← asks settings;
        mret (Some (mkMessage method 0 None (Some requestUri) (if str_empty (mCallId o) then newId else mCallId o) 20
          ([HFrom (if private then Some anonymous_address else mFromAddress o); HTo (Some to) false]
           ++ (if has_privacy (mPrivacy o) SalPrivacyId then [HPreferredIdentity (mFromAddress o)] else [])
           ++ (if negb registers && negb (mNoInitialRoute s) then addInitialRouteSet requestUri (mRouteAddresses o) else [])
           ++ (if private then [HPrivacy (privacy_values (mPrivacy o))] else [])
           ++ option_headers [HSupported <$> (if mUseSupportedTags o then mSupportedHeader o else mSupportedTags s)]) None))
      else mret None
  end.

(** [SalOp::makeReasonHeader] *)
Definition makeReasonHeader (info : option SalErrorInfo) : option Header :=
  match info with
  | Some info =>
      if bool_decide (sal_reason info = SalReasonNone) then None
      else Some (HReason (sal_protocol info) (sal_protocol_code info) (sal_status_string info))
  | None => None
  end.

Definition createWarningHeader (info : SalErrorInfo) (server : option Address) : Sip Header :=
  server ← the server; mret (HWarning (warning_text (sal_warnings info) server)).

(** The transaction an error is sent on. *)
Definition declined_transaction : Sip (option nat) :=
  tr ← gets mPendingServerTransaction;
  match tr with Some tr => mret (Some tr) | None => gets mPendingUpdateServerTransaction end.

Definition replyWithErrorInfo (info : SalErrorInfo) (redirectionAddr : option Address) (expire : Z) : Sip Z :=
  let redirected := bool_decide (sal_reason info = SalReasonRedirect) in
  let status := if redirected && bool_decide (redirectionAddr <> None) then 302 else sal_protocol_code info in
  tr ← declined_transaction;
  match tr with
  | None => mret (-1)
  | Some tr =>
      request ← asks (fun w => transaction_request w tr);
      response ← createResponseFromRequest request status;
      to ← gets mToAddress;
      warning ← (if bool_decide (sal_warnings info = None) then mret None
                 else h ← createWarningHeader info to; mret (Some h));
      send_response tr (add_headers (option_headers
        [makeReasonHeader (sal_sub_sei info);
         (if redirected then (fun a => HContact (Some a)) <$> redirectionAddr else None);
         (if expire =? 0 then None else Some (HExpire (to_dec expire)));
         warning;
         (if 0 <? sal_retry_after info then Some (HRetryAfter (sal_retry_after info)) else None)]) response) ;;
      (when redirected do modify (fun o => o <| mState := OpTerminating |>)) ;;
      mret 0
  end.

Definition replyMessage (reason : SalReason) : Sip Z :=
  tr ← gets mPendingServerTransaction;
  match tr with
  | None => mret (-1)
  | Some tr =>
      response ← asks (fun w => create_response w (transaction_request w tr) (toSipCode reason));
      send_response tr response ;; mret 0
  end.

(** The [To] header is for another URI; it keeps its tag. *)
Definition set_to_uri (uri : Address) (h : Header) : Header :=
  match h with
  | HTo (Some a) tagged => HTo (Some (address_with_uri a uri)) tagged
  | HTo None tagged => HTo (Some uri) tagged
  | h => h
  end.

Definition processRedirect : Sip Z :=
  tr ← gets mPendingClientTransaction;
  tr ← the tr;
  response ← asks (fun w => transaction_response w tr);
  response ← the response;
  match get_header as_contact response with
  | None | Some None => mret (-1)
  | Some (Some uri) =>
      st ← current_dialog_state;
      if confirmed st then mret (-1)
      else
        setOrUpdateDialog None ;;
        tr ← gets mPendingClientTransaction;
        tr ← the tr;
        request ← asks (fun w => transaction_request w tr);
        newId ← asks new_call_id;
        modify (fun o => o <| mCallId := EmptyString |>) ;;
        let request := request <| msg_callId := newId |> <| msg_uri := Some uri |> in
        the (get_header as_to request) ;;
        let to := set_to_uri (uri_without_port_and_transport uri) in
        let request := request <| msg_headers := map to (msg_headers request) |> in
        sendRequest (Some (remove_header "Proxy-Authorization" (remove_header "Authorization" request))) ;;
        mret 0
  end.

Definition removePendingAuth : Sip unit := modify (fun o => o <| mHasAuthPending := false |>).
Definition addPendingAuth : Sip unit := modify (fun o => o <| mHasAuthPending := true |>).

(** Accounts and passwords are those of belle-sip. *)
Definition processAuthentication : Sip unit :=
  tr ← gets mPendingAuthTransaction;
  tr ← the tr;
  initial ← asks (fun w => transaction_request w tr);
  d ← gets mDialog;
  st ← current_dialog_state;
  let isWithinDialog := confirmed st in
  newRequest ←
    (if isWithinDialog then
       d ← the d;
       made ← asks (fun w => dialog_create_request_from w d initial);
       match made with
       | Some request => mret (Some request)
       | None => asks (fun w => dialog_create_queued_request_from w d initial)
       end
     else mret (Some (remove_header "Authorization" initial)));
  match newRequest with
  | None => mret tt
  | Some newRequest =>
      response ← asks (fun w => transaction_response w tr);
      authorized ← asks (fun w => add_authorization w newRequest response);
      match authorized with
      | Some request =>
          (if isWithinDialog then sendRequest (Some request) ;; mret tt else resendRequest request) ;;
          removePendingAuth
      | None => addPendingAuth
      end
  end.

(** ** Retrying a request that was refused with 491 *)

Definition resetRetryFunction : Sip unit := modify (fun o => o <| mRetryFunc := None |>).

Definition handleRetry : Sip bool :=
  f ← gets mRetryFunc;
  d ← gets mDialog;
  match f, d with
  | None, _ => mret false
  | Some _, None => resetRetryFunction ;; mret false
  | Some _, Some d =>
      st ← of_dialog dialog_state d;
      if confirmed st then
        add_timer RetryTimer ;; mret true
      else resetRetryFunction ;; mret false
  end.

(** Whether the timer stops. *)
Definition runRetryFunc : Sip bool :=
  f ← gets mRetryFunc;
  match f with
  | None => mret true
  | Some f =>
      d ← gets mDialog;
      st ← state_of_dialog d;
      match d with
      | None => resetRetryFunction ;; mret true
      | Some d =>
          if bool_decide (st = DialogTerminated) then resetRetryFunction ;; mret true
          else
            pending ← of_dialog dialog_request_pending d;
            if pending : bool then mret false
            else raise (RunRetry f) ;; resetRetryFunction ;; mret true
      end
  end.

(** ** Session descriptions *)

Definition setLocalMediaDescription (desc : option SalMediaDescription) : Sip unit :=
  modify (fun o =>
    let o := o <| mLocalMedia := desc |> in
    if bool_decide (is_Some (mRemoteMedia o)) then o <| mSdpAnswer := None |> else o).

Definition setSdp (desc : belle_sdp_session_description) (m : Message) : Sip Message :=
  text ← asks (fun _ => print_sdp desc);
  mret (setCustomBody (mkContent ("application", "sdp")%string None text) m).

Definition erase_first_sdp : list Content -> list Content :=
  fix erase l := match l with [] => [] | c :: l' => if is_sdp c then l' else c :: erase l' end.
Definition replace_first_sdp (by_ : Content) : list Content -> list Content :=
  fix replace l := match l with [] => [] | c :: l' => if is_sdp c then by_ :: l' else c :: replace l' end.

(** The local bodies, where the session description made from [mLocalMedia] takes
    the place of the first one. *)
Definition put_sdp (sdpContent : Content) (bodies : list Content) : list Content :=
  if existsb is_sdp bodies
  then if content_isValid sdpContent then replace_first_sdp sdpContent bodies else erase_first_sdp bodies
  else if content_isValid sdpContent then bodies ++ [sdpContent] else bodies.

(** For a multipart body every session description is put in front of the others. *)
Definition multipart_order (bodies : list Content) : list Content :=
  fold_left (fun acc c => if is_sdp c then c :: acc else acc ++ [c]) bodies [].

Definition fillInvite (invite : Message) : Sip Message :=
  s ← asks settings;
  let invite := add_header (createAllow (mEnableSipUpdate s)) invite in
  local ← gets mLocalMedia;
  sdpContent ←
    match local with
    | Some md =>
        let '(desc, md) := toSdp md in
        modify (fun o => o <| mLocalMedia := Some md |> <| mSdpOffering := true |>) ;;
        mret (mkContent ("application", "sdp")%string None (print_sdp desc))
    | None => modify (fun o => o <| mSdpOffering := false |>) ;; mret empty_content
    end;
  (when (negb (mediaDisabled s)) do
     modify (fun o => o <| mLocalBodies := put_sdp sdpContent (mLocalBodies o) |>)) ;;
  bodies ← gets mLocalBodies;
  match bodies with
  | [] => mret invite
  | [body] => mret (setCustomBody body invite)
  | _ =>
      (when (existsb is_sdp bodies && mediaDisabled s) do modify (fun o => o <| mSdpOffering := true |>)) ;;
      mret (setCustomBody (contentListToMultipart (multipart_order bodies)) invite)
  end.

Definition setAddrTo0000 (value : string) : string := if is_ipv6_text value then "::0" else "0.0.0.0".

(** [Sal::findCryptoIndexFromAlgo] *)
Definition findCryptoIndexFromAlgo (crypto : list SalSrtpCryptoAlgo) (suite : MSCryptoSuite) : option nat :=
  find_idx (fun c => bool_decide (algo c = suite)) crypto.

(** The answer of a call that only sends, for old equipments. *)
Definition answer_to_0000 (result : SalMediaDescription) : SalMediaDescription :=
  let result := result <| md_addr := setAddrTo0000 (md_addr result) |> in
  result <| md_streams := map (fun s =>
    if bool_decide (getDirection s = SalStreamSendOnly)
    then s <| sd_rtp_addr := setAddrTo0000 (sd_rtp_addr s) |> <| sd_rtcp_addr := setAddrTo0000 (sd_rtcp_addr s) |>
    else s) (md_streams result) |>.

(** A stream of the result, once the answer is written: an accepted one gets back
    where the remote side receives. *)
Definition copy_back (remote s : SalStreamDescription) : SalStreamDescription :=
  if sd_rtp_port s =? 0 then s
  else
    let s := s <| sd_rtp_addr := sd_rtp_addr remote |> in
    let s := setPtime s (cfg_ptime (getChosenConfiguration remote)) (cfg_maxptime (getChosenConfiguration remote)) in
    let s := s <| sd_bandwidth := sd_bandwidth remote |> <| sd_rtp_port := sd_rtp_port remote |>
               <| sd_rtcp_addr := sd_rtcp_addr remote |> <| sd_rtcp_port := sd_rtcp_port remote |> in
    if SalStreamDescription.hasSrtp s then
      match findCryptoIndexFromAlgo (getCryptos remote) (algo (default empty_crypto (getCryptos s !! 0%nat))) with
      | Some i => match getCryptos remote !! i with Some rc => setCrypto s 0 rc | None => s end
      | None => s
      end
    else s.

Fixpoint copy_back_all (remotes streams : list SalStreamDescription) : list SalStreamDescription :=
  match streams, remotes with
  | s :: streams', r :: remotes' => copy_back r s :: copy_back_all remotes' streams'
  | _, _ => streams
  end.

Definition with_remote_constraints (remote result : SalMediaDescription) : SalMediaDescription :=
  result <| md_addr := md_addr remote |> <| md_bandwidth := md_bandwidth remote |>
    <| md_streams := copy_back_all (md_streams remote) (md_streams result) |>.

(** An answer is made for the descriptions of both sides, which it changes. *)
Definition make_answer (engine : OfferAnswerEngine) (cnx0000 : bool) (local remote : SalMediaDescription)
    : belle_sdp_session_description * SalMediaDescription * SalMediaDescription * SalMediaDescription :=
  let '(result, local, remote) := initiateIncoming engine local remote in
  let result := if cnx0000 && hasDir result SalStreamSendOnly then answer_to_0000 result else result in
  let '(desc, result) := toSdp result in
  (desc, with_remote_constraints remote result, local, remote).

Definition sdpProcess : Sip unit :=
  modify (fun o => o <| mResult := None |>) ;;
  remote ← gets mRemoteMedia;
  match remote with
  | None => mret tt
  | Some remote =>
      s ← asks settings;
      when (negb (mediaDisabled s)) do (
        offering ← gets mSdpOffering;
        local ← gets mLocalMedia;
        local ← the local;
        if offering : bool then
          let '(result, local, remote) := initiateOutgoing (mOfferAnswerEngine s) local remote in
          modify (fun o => o <| mResult := Some result |> <| mLocalMedia := Some local |> <| mRemoteMedia := Some remote |>)
        else
          cnx0000 ← gets mCnxIpTo0000IfSendOnlyEnabled;
          let '(desc, result, local, remote) := make_answer (mOfferAnswerEngine s) cnx0000 local remote in
          modify (fun o => o <| mSdpAnswer := Some desc |> <| mResult := Some result |>
            <| mLocalMedia := Some local |> <| mRemoteMedia := Some remote |>))
  end.

Definition getFinalMediaDescription : Sip (option SalMediaDescription) :=
  o ← gets (fun o => o);
  (when (bool_decide (is_Some (mLocalMedia o)) && bool_decide (is_Some (mRemoteMedia o))
         && negb (bool_decide (is_Some (mResult o)))) do sdpProcess) ;;
  gets mResult.

(** What [parseSdpBody] returns: the description, if the body has one, or why it
    has failed. *)
Definition parseSdpBody (handling : SdpHandling) (body : Content)
    : SalReason + option belle_sdp_session_description :=
  match handling with
  | SdpSimulateError => inl SalReasonNotAcceptable
  | SdpSimulateRemove => inr None
  | SdpNormal =>
      if str_empty (content_body body) then inr None
      else match parse_sdp (content_body body) with
           | Some desc => inr (Some desc)
           | None => inl SalReasonNotAcceptable
           end
  end.

Definition fillRemoteBodies (body : Content) : Sip unit :=
  modify (fun o => o <| mRemoteBodies := if isMultipart body then multipartToContentList body else [body] |>).

(** [getContentInRemote(ContentType::Sdp)] *)
Definition remote_sdp : Sip (option Content) := bodies ← gets mRemoteBodies; mret (List.find is_sdp bodies).

Definition setRemoteMedia (desc : belle_sdp_session_description) : Sip SalMediaDescription :=
  md ← must (SalMediaDescription_of_sdp split desc);
  modify (fun o => o <| mRemoteMedia := Some md |>) ;;
  mret md.

Definition handleBodyFromResponse (response : Message) : Sip unit :=
  modify (fun o => o <| mRemoteMedia := None |>) ;;
  fillRemoteBodies (extractBody response) ;;
  body ← remote_sdp;
  match body with
  | None => mret tt
  | Some body =>
      handling ← gets mSdpHandling;
      match parseSdpBody handling body with
      | inr (Some desc) => setRemoteMedia desc ;; mret tt
      | _ => mret tt
      end ;;
      local ← gets mLocalMedia;
      when (bool_decide (is_Some local)) do sdpProcess
  end.

Definition processBodyForInvite (invite : Message) : Sip SalReason :=
  fillRemoteBodies (extractBody invite) ;;
  body ← remote_sdp;
  match body with
  | None => modify (fun o => o <| mSdpOffering := true |>) ;; mret SalReasonNone
  | Some body =>
      handling ← gets mSdpHandling;
      reason ←
        match parseSdpBody handling body with
        | inl reason => mret reason
        | inr None => mret SalReasonNone
        | inr (Some desc) =>
            modify (fun o => o <| mSdpOffering := false |>) ;;
            md ← setRemoteMedia desc;
            mret (match md_streams md with [] => SalReasonNotAcceptable | _ => SalReasonNone end)
        end;
      (when (negb (bool_decide (reason = SalReasonNone))) do (
         sei ← the (sal_error_info_set zero_sei reason (Some "SIP"%string) 0 None None);
         replyWithErrorInfo sei None 0 ;; mret tt)) ;;
      mret reason
  end.

(** Its result is not used. *)
Definition processBodyForAck (ack : Message) : Sip unit :=
  fillRemoteBodies (extractBody ack) ;;
  body ← remote_sdp;
  match body with
  | None => mret tt
  | Some body =>
      handling ← gets mSdpHandling;
      match parseSdpBody handling body with
      | inr (Some desc) => setRemoteMedia desc ;; sdpProcess
      | _ => mret tt
      end
  end.

Definition resetDescriptions : Sip unit := modify (fun o => o <| mRemoteMedia := None |> <| mResult := None |>).

Definition handleOfferAnswerResponse (response : Message) : Sip Message :=
  local ← gets mLocalMedia;
  match local with
  | None => mret response
  | Some md =>
      offering ← gets mSdpOffering;
      if offering : bool then
        let '(desc, md) := toSdp md in
        modify (fun o => o <| mLocalMedia := Some md |>) ;; setSdp desc response
      else
        answer ← gets mSdpAnswer;
        handling ← gets mSdpHandling;
        (when (negb (bool_decide (is_Some answer)) && negb (bool_decide (handling = SdpSimulateRemove))) do sdpProcess) ;;
        answer ← gets mSdpAnswer;
        match answer with
        | Some desc =>
            response ← setSdp desc response;
            modify (fun o => o <| mSdpAnswer := None |>) ;; mret response
        | None => mret response
        end
  end.

(** ** Session timers (RFC 4028) *)

Definition add_timer_tag (m : Message) : Message :=
  match get_header as_supported m with
  | Some tags => if contains_tag "timer" tags then m else set_header (HSupported (tags ++ ["timer"%string])) m
  | None => m
  end.

Definition fillSessionExpiresHeaders (invite : Message) (refresher : Refresher) (delta : Z) : Sip Message :=
  s ← asks settings;
  if mSessionExpiresEnabled s then
    let invite := add_timer_tag invite in
    if (0 <? mSessionExpiresValue s) && (mSessionExpiresMin s <=? mSessionExpiresValue s) then
      let refresher := if bool_decide (refresher = RefresherUnspecified) then mSessionExpiresRefresher s else refresher in
      let delta := if delta =? 0 then mSessionExpiresValue s else delta in
      mret (add_header (HSessionExpires delta refresher) invite)
    else mret invite
  else mret invite.

Definition fillSessionExpiresMinSEHeader (invite : Message) : Sip Message :=
  s ← asks settings;
  mret (if mSessionExpiresEnabled s && (0 <? mSessionExpiresMin s)
        then add_header (HMinSE (to_dec (mSessionExpiresMin s))) invite else invite).

Definition haltSessionTimersTimer : Sip unit :=
  timer ← gets mSessionTimersTimer;
  match timer with
  | Some i => cancelTimer i ;; modify (fun o => o <| mSessionTimersTimer := None |>)
  | None => mret tt
  end.

(** [int retryIn = delta * 1000 / 2;] *)
Definition refresh_period (delta : Z) : outcome Z :=
  let product := delta * 1000 in
  if (- 2 ^ 31 <=? product) && (product <? 2 ^ 31) then Done (Z.quot product 2) else Undefined.

(** [allows.find("UPDATE")] is not compared with [npos]: it is false only when
    the text starts with it. *)
Definition refresh_by_update (enableUpdate : bool) (response : Message) : bool :=
  String.eqb (msg_method response) "UPDATE" ||
  match get_header as_allow response with
  | Some allows => negb (String.prefix "UPDATE" allows) && enableUpdate
  | None => false
  end.

Definition restartSessionTimersTimer (response : Message) (delta : Z) : Sip unit :=
  enableUpdate ← sal mEnableSipUpdate;
  let noUserConsent := refresh_by_update enableUpdate response in
  retryIn ← must (refresh_period delta);
  haltSessionTimersTimer ;;
  i ← fresh_id;
  add_session_timer i noUserConsent delta (u32 retryIn) ;;
  modify (fun o => o <| mSessionTimersTimer := Some i |>).

Definition handleSessionTimersFromResponse (response : Message) : Sip unit :=
  s ← asks settings;
  when (mSessionExpiresEnabled s) do (
    let '(delta, refresher) :=
      default (mSessionExpiresValue s, RefresherUnspecified) (get_header as_session_expires response) in
    when (negb (bool_decide (refresher = RefresherUAS))) do restartSessionTimersTimer response delta).

(** Who refreshes the session an answer accepts, and when, given the request. *)
Definition negotiate_session_timer (s : SalSettings) (request : Message) : Z * Refresher :=
  let value := mSessionExpiresValue s in
  if match get_header as_supported request with Some tags => contains_tag "timer" tags | None => false end then
    let delta := match get_header as_min_se request with Some text => atoi text | None => value end in
    let '(delta, refresher) :=
      match get_header as_session_expires request with
      | Some (d, r) => (if value <=? d then value else d, r)
      | None => (delta, RefresherUnspecified)
      end in
    let refresher := if bool_decide (refresher = RefresherUnspecified) then mSessionExpiresRefresher s else refresher in
    (delta, if bool_decide (refresher = RefresherUnspecified) then RefresherUAS else refresher)
  else (value, if bool_decide (mSessionExpiresRefresher s = RefresherUAS) then RefresherUAS else RefresherUnspecified).

Definition timer_supported (request : Message) : bool :=
  match get_header as_supported request with Some tags => contains_tag "timer" tags | None => false end.

Definition accept_session_timer (request response : Message) : Sip Message :=
  s ← asks settings;
  if mSessionExpiresEnabled s then
    let '(delta, refresher) := negotiate_session_timer s request in
    (when (bool_decide (refresher = RefresherUAS)) do restartSessionTimersTimer response delta) ;;
    mret (if timer_supported request
          then add_header (HRequire "timer") (add_timer_tag (add_header (HSessionExpires delta refresher) response))
          else response)
  else mret response.

(** ** Making, answering and ending a call *)

Definition call (from to : option Address) (subject : string) : Sip Z :=
  modify (fun o => o <| mDir := OpOutgoing |> <| mFromAddress := from |> <| mToAddress := to |>) ;;
  invite ← buildRequest "INVITE";
  match invite with
  | None => mret (-1)
  | Some invite =>
      invite ← fillInvite invite;
      invite ← fillSessionExpiresHeaders invite RefresherUnspecified 0;
      invite ← fillSessionExpiresMinSEHeader invite;
      invite ← (if str_empty subject then mret invite
                else modify (fun o => o <| mSubject := subject |>) ;; mret (add_header (HSubject subject) invite));
      o ← gets (fun o => o);
      sendRequest (Some (add_headers (option_headers [HReplaces <$> mReplaces o; HReferredBy <$> mReferredBy o]) invite))
  end.

(** Whether [100rel] is among tags, as [strstr] sees it. *)
Definition has_100rel (tags : option string) : bool :=
  match tags with Some t => str_contains "100rel" t | None => false end.

(** The result of [notifyRinging], and whether the response requires [100rel]. *)
Definition ring_100rel (support : SupportLevel) (required supported : option string) : Z * bool :=
  match support with
  | NoSupport => (if has_100rel required then -1 else 0, false)
  | Optional => (0, has_100rel required)
  | Mandatory => (if has_100rel required || has_100rel supported then 0 else -1, true)
  end.

(** The text of the [Supported] header. *)
Definition supported_text (m : Message) : option string :=
  (fun tags => String.concat ", " tags) <$> get_header as_supported m.

Definition notifyRinging (earlyMedia : bool) (support : SupportLevel) : Sip Z :=
  tr ← gets mPendingServerTransaction;
  tr ← the tr;
  request ← asks (fun w => transaction_request w tr);
  response ← createResponseFromRequest request (if earlyMedia then 183 else 180);
  response ← (if earlyMedia then
                response ← handleOfferAnswerResponse response;
                custom ← gets mSentCustomHeaders;
                addCustomHeaders custom response
              else mret response);
  let '(ret, rel) := ring_100rel support (get_header as_require request) (supported_text request) in
  contact ← gets mContactAddress;
  let response := if rel then add_headers [HRequire "100rel"; HRSeq "1"] response else response in
  let response := match contact with Some c => if rel then add_header (HContact (Some c)) response else response
                                   | None => response end in
  tr ← gets mPendingServerTransaction;
  tr ← the tr;
  send_response tr response ;;
  mret ret.

Definition accept : Sip Z :=
  update ← gets mPendingUpdateServerTransaction;
  invite ← gets mPendingServerTransaction;
  match update, invite with
  | None, None => mret (-1)
  | Some tr, _ | None, Some tr =>
      request ← asks (fun w => transaction_request w tr);
      response ← createResponseFromRequest request 200;
      enableUpdate ← sal mEnableSipUpdate;
      let response := add_header (createAllow enableUpdate) response in
      response ← accept_session_timer request response;
      contact ← createContact;
      custom ← gets mSentCustomHeaders;
      response ← addCustomHeaders custom (add_header contact response);
      response ← handleOfferAnswerResponse response;
      send_response tr response ;;
      modify (fun o => o <| mPendingUpdateServerTransaction := None |>) ;;
      modify (fun o => if opstate_eqb (mState o) OpEarly then o <| mState := OpActive |> else o) ;;
      mret 0
  end.

(** The redirection is an address, and whether its text has [sip:]. *)
Definition decline (reason : SalReason) (redirection : option (Address * bool)) : Sip Z :=
  let redirected := bool_decide (reason = SalReasonRedirect) in
  let status :=
    match redirection with
    | Some (_, has_sip) => if redirected then (if has_sip : bool then 302 else 380) else toSipCode reason
    | None => toSipCode reason
    end in
  tr ← declined_transaction;
  match tr with
  | None => mret (-1)
  | Some tr =>
      request ← asks (fun w => transaction_request w tr);
      response ← createResponseFromRequest request status;
      send_response tr (add_headers (option_headers
        [if redirected then (fun r => HContact (Some r.1)) <$> redirection else None]) response) ;;
      (when redirected do modify (fun o => o <| mState := OpTerminating |>)) ;;
      mret 0
  end.

(** ** Updating a call *)

Definition set_error_info (reason : SalReason) (code : Z) (text warning : option string) : Sip unit :=
  info ← gets mErrorInfo;
  info ← the (sal_error_info_set info reason (Some "SIP"%string) code text warning);
  modify (fun o => o <| mErrorInfo := info |>).

Definition set_error (reason : SalReason) (code : Z) (text : option string) : Sip unit :=
  set_error_info reason code text None.

(** Why a request could not be made. *)
Definition set_pending_error (d : nat) : Sip unit :=
  pending ← of_dialog dialog_request_pending d;
  if pending : bool then set_error SalReasonRequestPending 491 None else set_error SalReasonUnknown 500 None.

Definition canSendRequest (noUserConsent logError : bool) : Sip bool :=
  d ← gets mDialog;
  match d with
  | None => mret false
  | Some d =>
      st ← of_dialog dialog_state d;
      ret ← match st with
            | DialogConfirmed => of_dialog (fun w d => dialog_can_create w d (if noUserConsent then "UPDATE" else "INVITE")%string) d
            | DialogEarly => of_dialog (fun w d => dialog_can_create w d "UPDATE"%string) d
            | _ => mret false
            end;
      (when (negb ret && logError) do set_pending_error d) ;;
      mret ret
  end.

(** The request that updates a dialog. *)
Definition update_method (st : DialogState) (noUserConsent : bool) : option string :=
  match st with
  | DialogConfirmed => Some (if noUserConsent then "UPDATE" else "INVITE")%string
  | DialogEarly => Some "UPDATE"%string
  | _ => None
  end.

(** Without a dialog the call is made again, from and to the addresses of the
    operation: [assignAddress] frees an address before it clones it. *)
Definition update (subject : string) (noUserConsent withSDP : bool) (delta : Z) : Sip Z :=
  d ← gets mDialog;
  match d with
  | None =>
      o ← gets (fun o => o);
      if bool_decide (is_Some (mFromAddress o)) || bool_decide (is_Some (mToAddress o)) then stop Freed
      else call (mFromAddress o) (mToAddress o) subject
  | Some d =>
      st ← of_dialog dialog_state d;
      match update_method st noUserConsent with
      | None => mret (-1)
      | Some method =>
          request ← of_dialog (fun w d => dialog_create_request w d method) d;
          match request with
          | Some request =>
              request ← (if str_empty subject then mret request
                         else modify (fun o => o <| mSubject := subject |>) ;; mret (add_header (HSubject subject) request));
              tags ← sal mSupportedTags;
              let request := match tags with Some tags => add_header (HSupported tags) request | None => request end in
              request ← fillSessionExpiresHeaders request RefresherUAC delta;
              request ← (if withSDP then fillInvite request else mret request);
              sendRequestWithContact request true
          | None => set_pending_error d ;; mret (-1)
          end
      end
  end.

(** ** Ending a call *)

(** The [Reason] header of an error, and the [Warning] header of a [BYE]. *)
Definition reason_header (info : option SalErrorInfo) : list Header := option_headers [makeReasonHeader info].

Definition cancelInvite (info : option SalErrorInfo) : Sip Z :=
  tr ← gets mPendingClientTransaction;
  match tr with
  | None => mret (-1)
  | Some tr =>
      cancel ← asks (fun w => create_cancel w tr);
      match cancel with
      | Some cancel => sendRequest (Some (add_headers (reason_header info) cancel)) ;; mret 0
      | None =>
          d ← gets mDialog;
          match d with
          | Some d =>
              st ← of_dialog dialog_state d;
              (when (bool_decide (st = DialogEarly) || bool_decide (st = DialogNull)) do raise (DeleteDialog d)) ;;
              mret (-1)
          | None => mret (-1)
          end
      end
  end.

Definition cancellingInvite (info : option SalErrorInfo) : Sip unit :=
  cancelInvite info ;; modify (fun o => o <| mState := OpTerminating |>).

Definition setReleased : Sip unit :=
  released ← gets mCallReleased;
  when (negb released) do (
    modify (fun o => o <| mState := OpTerminated |>) ;;
    tell Call_released ;;
    modify (fun o => o <| mCallReleased := true |>) ;;
    setOrUpdateDialog None).

(** Why an incoming call that is not answered is refused, by default. *)
Definition declined_sei : option SalErrorInfo :=
  sal_error_info_set zero_sei SalReasonDeclined (Some "SIP"%string) 0 None None.

(** [replyWithErrorInfo] reads the error it is given. *)
Definition replyWithErrorInfo_ptr (info : option SalErrorInfo) : Sip unit :=
  info ← the info; replyWithErrorInfo info None 0 ;; mret tt.

Definition bye_headers (info : option SalErrorInfo) (from : option Address) : Sip (list Header) :=
  match info with
  | Some i =>
      if bool_decide (sal_reason i = SalReasonNone) then mret []
      else if bool_decide (sal_warnings i = None) then mret (reason_header info)
      else h ← createWarningHeader i from; mret (reason_header info ++ [h])
  | None => mret []
  end.

Definition terminate (info : option SalErrorInfo) : Sip Z :=
  st ← current_dialog_state;
  o ← gets (fun o => o);
  let pSei := if negb (bool_decide (is_Some info)) && negb (confirmed st) && bool_decide (mDir o = OpIncoming)
              then declined_sei else info in
  if opstate_eqb (mState o) OpTerminating || opstate_eqb (mState o) OpTerminated then mret (-1)
  else
    match st with
    | DialogConfirmed =>
        d ← the (mDialog o);
        request ← of_dialog (fun w d => dialog_create_request w d "BYE"%string) d;
        haltSessionTimersTimer ;;
        headers ← bye_headers info (mFromAddress o);
        request ← match headers with
                  | [] => mret request
                  | _ => r ← the request; mret (Some (add_headers headers r))
                  end;
        sendRequest request ;;
        modify (fun o => o <| mState := OpTerminating |>) ;;
        mret 0
    | DialogNull =>
        match mDir o, mPendingClientTransaction o with
        | OpIncoming, _ =>
            replyWithErrorInfo_ptr pSei ;; modify (fun o => o <| mState := OpTerminated |>) ;; mret 0
        | OpOutgoing, Some tr =>
            ts ← asks (fun w => transaction_state w tr);
            (if bool_decide (ts = TrProceeding) then cancellingInvite pSei
             else modify (fun o => o <| mState := OpTerminating |>) ;; raise (StopRetransmissions tr)) ;;
            mret 0
        | OpOutgoing, None => mret 0
        end
    | DialogEarly =>
        match mDir o with
        | OpIncoming =>
            replyWithErrorInfo_ptr pSei ;; modify (fun o => o <| mState := OpTerminated |>) ;; mret 0
        | OpOutgoing => cancellingInvite pSei ;; mret 0
        end
    | DialogTerminated => mret (-1)
    end.

(** ** Transfers *)

Definition setReferredBy (by_ : option Address) : Sip unit := modify (fun o => o <| mReferredBy := by_ |>).

Definition referTo (referTo referredBy : Header) : Sip Z :=
  d ← gets mDialog;
  request ← match d with
            | Some d => of_dialog (fun w d => dialog_create_request w d "REFER"%string) d
            | None => buildRequest "REFER"
            end;
  match request with
  | None => mret (-1)
  | Some request => sendRequest (Some (add_headers [referTo; referredBy] request))
  end.

Definition refer (referToUri : Address) : Sip Z :=
  d ← gets mDialog;
  from ← match d with
         | Some d => of_dialog dialog_local_party d
         | None => from ← gets mFromAddress; the from
         end;
  referTo (HReferTo referToUri []) (HReferredBy from).

Definition referWithReplaces (other : OtherOp) : Sip Z :=
  if bool_decide (oo_dialog other = Some DialogConfirmed) || bool_decide (oo_dialog other = Some DialogEarly) then
    d ← gets mDialog;
    st ← state_of_dialog d;
    match d, st with
    | Some d, DialogConfirmed =>
        party ← of_dialog dialog_local_party d;
        referTo (HReferTo (oo_target other) [("Replaces"%string, oo_replaces_value other)]) (HReferredBy party)
    | _, _ => mret (-1)
    end
  else mret (-1).

Definition setReferrer (referredCall : OtherOp) : Sip Z :=
  modify (fun o =>
    let o := match oo_replaces referredCall with Some r => o <| mReplaces := Some r |> | None => o end in
    match oo_referredBy referredCall with Some a => o <| mReferredBy := Some a |> | None => o end) ;;
  mret 0.

(** [sipfrag] is [SIP/2.0 code reason], ended by a line end. *)
Definition CRLF : string := String CR (String LF EmptyString).

Definition with_body (type subtype body : string) (m : Message) : Message :=
  add_headers [HContentType type subtype; HContentLength (Z.of_nat (String.length body))] m <| msg_body := Some body |>.

Definition sendNotifyForRefer (code : Z) (reason : option string) (state state_reason : string) : Sip Z :=
  d ← gets mDialog;
  d ← the d;
  request ← of_dialog (fun w d => dialog_create_queued_request w d "NOTIFY"%string) d;
  reason ← the reason;
  let sipfrag := ("SIP/2.0 " +:+ to_dec code +:+ " " +:+ reason +:+ CRLF)%string in
  request ← the request;
  sendRequest (Some (with_body "message" "sipfrag" sipfrag
    (add_headers [HSubscriptionState state state_reason; HEvent "refer"] request))).

(** The subscription is said to be active by default ([call-op.h]). *)
Definition notifyLastResponse (newCallOp : OtherOp) : Sip unit :=
  match oo_last_response newCallOp with
  | Some (code, reason) => sendNotifyForRefer code (Some reason) "active" ""
  | None => sendNotifyForRefer 100 (Some "Trying"%string) "active" ""
  end ;; mret tt.

Definition notifyReferState (newCallOp : OtherOp) : Sip Z :=
  d ← gets mDialog;
  d ← the d;
  st ← of_dialog dialog_state d;
  (when (negb (bool_decide (st = DialogTerminated))) do
     match oo_dialog newCallOp with
     | Some DialogEarly => sendNotifyForRefer 100 (Some "Trying"%string) "active" "" ;; mret tt
     | Some DialogConfirmed => sendNotifyForRefer 200 (Some "Ok"%string) "terminated" "noresource" ;; mret tt
     | Some DialogTerminated | Some DialogNull | None => notifyLastResponse newCallOp
     end) ;;
  mret 0.

(** A transfer the peer asks for.  The header is looked for under a name that
    starts with a space. *)
Definition uri_header (name : string) (hs : list (string * string)) : option string :=
  snd <$> List.find (fun h => strcasecmp_eq name (fst h)) hs.

Definition processRefer (tr : nat) (request : Message) : Sip unit :=
  match get_header as_refer_to request with
  | Some (to, uri_headers) =>
      (match uri_header " Replaces" uri_headers with
       | Some text => modify (fun o => o <| mReplaces := parse_replaces text |>)
       | None => mret tt
       end) ;;
      (match get_header as_referred_by request with
       | Some by_ => setReferredBy (Some by_)
       | None => mret tt
       end) ;;
      respond (Some tr) request 202 ;;
      tell (Call_refer_received to)
  | None => respond (Some tr) request 400
  end.

Definition refer_status (code : Z) : ReferStatus :=
  if code <? 200 then ReferTrying else if code <? 300 then ReferSuccess else ReferFailed.

(** The body of a notification of a transfer. *)
Definition refer_notification (request : Message) : option string :=
  match get_header as_event request, get_header as_content_type request, msg_body request with
  | Some event, Some (type, subtype), Some body =>
      if String.prefix "refer" (tolower event) && String.eqb type "message" && String.eqb subtype "sipfrag"
      then Some body else None
  | _, _, _ => None
  end.

Definition sipfrag_code (body : string) : option Z :=
  match parse_sipfrag body with
  | Some code => Some code
  | None => parse_response (body +:+ CRLF)
  end.

Definition processNotify (tr : nat) (request : Message) : Sip unit :=
  match refer_notification request with
  | Some body =>
      match sipfrag_code body with
      | Some code => respond (Some tr) request 200 ;; tell (Notify_refer (refer_status code))
      | None => respond (Some tr) request 400
      end
  | None => respond (Some tr) request 489
  end.

(** ** Other requests within a call *)

(** A character that is null ends the text. *)
Definition dtmf_body (dtmf : ascii) : string :=
  if Ascii.eqb dtmf "000"%char then "Signal="%string
  else ("Signal=" +:+ String dtmf EmptyString +:+ CRLF +:+ "Duration=250" +:+ CRLF)%string.

Definition sendDtmf (dtmf : ascii) : Sip Z :=
  d ← gets mDialog;
  match d with
  | Some d =>
      st ← of_dialog dialog_state d;
      (when (confirmed st || bool_decide (st = DialogEarly)) do (
         request ← of_dialog (fun w d => dialog_create_queued_request w d "INFO"%string) d;
         match request with
         | Some request =>
             let body := dtmf_body dtmf in
             sendRequest (Some (add_headers [HContentLength (Z.of_nat (String.length body));
                                             HContentType "application" "dtmf-relay"]
                                  (request <| msg_body := Some body |>))) ;; mret tt
         | None => mret tt
         end)) ;;
      mret 0
  | None => mret 0
  end.

Definition quoted (s : string) : string := String "034" (s +:+ String "034" EmptyString).

Definition vfu_body : string :=
  ("<?xml version=" +:+ quoted "1.0" +:+ " encoding=" +:+ quoted "utf-8" +:+ " ?>"
   +:+ "<media_control>  <vc_primitive>    <to_encoder>"
   +:+ "      <picture_fast_update></picture_fast_update>"
   +:+ "    </to_encoder>  </vc_primitive></media_control>")%string.

Definition sendVfuRequest : Sip unit :=
  d ← gets mDialog;
  st ← state_of_dialog d;
  match d, st with
  | Some d, DialogConfirmed =>
      request ← of_dialog (fun w d => dialog_create_queued_request w d "INFO"%string) d;
      match request with
      | Some request => sendRequest (Some (with_body "application" "media_control+xml" vfu_body request)) ;; mret tt
      | None => mret tt
      end
  | _, _ => mret tt
  end.

Definition sendMessage (content : Content) : Sip Z :=
  d ← gets mDialog;
  match d with
  | None => mret (-1)
  | Some d =>
      request ← of_dialog (fun w d => dialog_create_queued_request w d "MESSAGE"%string) d;
      request ← the request;
      let request := add_headers [HContentType (fst (content_type content)) (snd (content_type content));
                                  HContentLength (Z.of_nat (String.length (content_body content)))] request in
      sendRequest (Some (if str_empty (content_body content) then request
                         else request <| msg_body := Some (content_body content) |>))
  end.

Definition sendInfo (body : option string) : Sip Z :=
  d ← gets mDialog;
  st ← state_of_dialog d;
  match d, st with
  | Some d, DialogConfirmed =>
      request ← of_dialog (fun w d => dialog_create_queued_request w d "INFO"%string) d;
      request ← the request;
      sendRequest (Some (request <| msg_body := body |>))
  | _, _ => mret (-1)
  end.

(** A server transaction is made for the request; the message is told, or refused
    when it has no type. *)
Definition processIncomingMessage (request : Message) : Sip unit :=
  tr ← fresh_id;
  log_line (Received tr request) ;;
  if has_header as_content_type request then
    modify (fun o => o <| mPendingServerTransaction := Some tr |>) ;;
    tell (Message_received request)
  else
    response ← asks (fun w => create_response w request 500);
    types ← sal mSupportedContentTypes;
    send_response tr (add_header (HCustom "Accept" (String.concat ", "
      ("xml/cipher, application/cipher.vnd.gsma.rcs-ft-http+xml"%string :: types))) response) ;;
    release.

(** ** What belle-sip tells of transactions *)

Definition setReasonErrorInfo (m : Message) : Sip unit :=
  match get_header as_reason m with
  | Some (protocol, cause, text) =>
      (* [strcmp] reads the protocol *)
      info ← gets mReasonErrorInfo;
      info ← the (sal_error_info_set info SalReasonUnknown protocol cause text None);
      modify (fun o => o <| mReasonErrorInfo := info |>)
  | None => mret tt
  end.

Definition setErrorInfoFromResponse (response : Message) : Sip unit :=
  set_error_info SalReasonUnknown (msg_status response) (msg_phrase response) (get_header as_warning response) ;;
  setReasonErrorInfo response.

Definition setState (s : OpState) : Sip unit := modify (fun o => o <| mState := s |>).

Definition setError (response : Message) (fatal : bool) : Sip unit :=
  setErrorInfoFromResponse response ;;
  (when fatal do setState OpTerminating) ;;
  tell Call_failure.

(** The call is over if it has no dialog. *)
Definition release_without_dialog : Sip unit :=
  d ← gets mDialog; when (negb (bool_decide (is_Some d))) do setReleased.

Definition processIoErrorCb : Sip unit :=
  o ← gets (fun o => o);
  when (negb (opstate_eqb (mState o) OpTerminated)) do
    match mPendingClientTransaction o with
    | Some tr =>
        ts ← asks (fun w => transaction_state w tr);
        when (bool_decide (ts = TrInit)) do (
          set_error SalReasonIOError 503 (Some "IO error"%string) ;;
          tell Call_failure ;;
          st ← current_dialog_state;
          when (negb (confirmed st)) do (setState OpTerminating ;; setReleased))
    | None => mret tt
    end.

Definition processTimeoutCb : Sip unit :=
  o ← gets (fun o => o);
  when (negb (opstate_eqb (mState o) OpTerminated) && negb (bool_decide (is_Some (mDialog o)))) do (
    set_error SalReasonRequestTimeout 408 (Some "Request timeout"%string) ;;
    tell Call_failure ;;
    setState OpTerminating ;;
    setReleased).

(** Whether a transaction that ends releases the call: a terminating one that has
    no dialog and is not to be authenticated. *)
Definition ends_terminating (o : SalCallOp) (method : string) (code : option Z) : bool :=
  opstate_eqb (mState o) OpTerminating
  && (String.eqb method "BYE" || String.eqb method "INVITE")
  && match code with Some c => negb (c =? 401) && negb (c =? 407) | None => true end
  && negb (bool_decide (is_Some (mDialog o))).

Definition forget_server_transaction (tr : nat) (o : SalCallOp) : SalCallOp :=
  let o := if bool_decide (mPendingServerTransaction o = Some tr) then o <| mPendingServerTransaction := None |> else o in
  if bool_decide (mPendingUpdateServerTransaction o = Some tr) then o <| mPendingUpdateServerTransaction := None |> else o.

Definition processTransactionTerminatedCb (tr : nat) (server : bool) : Sip unit :=
  request ← asks (fun w => transaction_request w tr);
  response ← asks (fun w => transaction_response w tr);
  let code := msg_status <$> response in
  o ← gets (fun o => o);
  releaseCall ←
    (if ends_terminating o (msg_method request) code then
       (when (bool_decide (code = Some 408)) do
          set_error SalReasonRequestTimeout 408 (Some "no ACK received"%string)) ;;
       mret true
     else if opstate_eqb (mState o) OpEarly && (default 0 code <? 200) then
       set_error SalReasonIOError 503 (Some "I/O error"%string) ;;
       setState OpTerminating ;;
       tell Call_failure ;;
       mret true
     else mret false);
  (when server do modify (forget_server_transaction tr)) ;;
  (when releaseCall do setReleased).

(** ** Responses *)

Definition is_2xx (code : Z) : bool := (200 <=? code) && (code <? 300).

Definition checkForOrphanDialogOn2xx (dialog : option nat) : Sip bool :=
  current ← gets mDialog;
  match current, dialog with
  | Some c, Some d =>
      cs ← of_dialog dialog_state c;
      ds ← of_dialog dialog_state d;
      if negb (Nat.eqb c d) && confirmed cs && confirmed ds then
        seq ← of_dialog dialog_local_seq d;
        ack ← of_dialog (fun w d => dialog_create_ack w d seq) d;
        ack ← the ack;
        bye ← of_dialog (fun w d => dialog_create_request w d "BYE"%string) d;
        bye ← the bye;
        raise (SendOrphan d ack bye) ;;
        mret true
      else mret false
  | _, _ => mret false
  end.

(** Whether a ringing response repeats that the called party has sent a session
    description: the last session description of a multipart body counts. *)
Definition had_sdp (previous : Message) : bool :=
  let body := extractBody previous in
  if isMultipart body then existsb is_sdp (multipartToContentList body) else is_sdp body.

Definition invite_refused_422 (request response : Message) : Sip unit :=
  text ← the (get_header as_min_se response);
  refresher ← sal mSessionExpiresRefresher;
  let minSE := atoi text in
  resendRequest
    (add_header (HMinSE (to_dec minSE)) (remove_header "Min-SE"
      (add_header (HSessionExpires minSE refresher) (remove_header "Session-Expires" request)))).

(** A response to an [INVITE] while the call is being ended. *)
Definition response_while_terminating (code : Z) : Sip unit :=
  tr ← gets mPendingClientTransaction;
  tr ← the tr;
  pending ← asks (fun w => transaction_request w tr);
  if String.eqb (msg_method pending) "CANCEL" then
    when (300 <=? code) do release_without_dialog
  else if code <? 200 then cancellingInvite None
  else release_without_dialog.

Definition ringing_response (dialog : option nat) (response : Message) : Sip unit :=
  previous ← match dialog with
             | Some d => asks (fun w => snd <$> List.find (fun r => Nat.eqb (fst r) d) (early_responses w))
             | None => mret None
             end;
  all ← gets mNotifyAllRingings;
  (when (all || match previous with Some p => negb (had_sdp p) | None => true end) do (
     handleBodyFromResponse response ;; tell Call_ringing)) ;;
  match dialog with Some d => keep_response d response | None => mret tt end.

(** [BELLE_SIP_DIALOG_NULL] and [BELLE_SIP_DIALOG_EARLY] *)
Definition response_before_confirmation (dialog : option nat) (request response : Message) : Sip unit :=
  let code := msg_status response in
  let method := msg_method request in
  if String.eqb method "INVITE" then
    st ← gets mState;
    if opstate_eqb st OpTerminating then response_while_terminating code
    else if (180 <=? code) && (code <? 200) then ringing_response dialog response
    else if code =? 422 then invite_refused_422 request response
    else when (300 <=? code) do (setError response true ;; release_without_dialog)
  else when (is_2xx code) do (
    if String.eqb method "UPDATE" then handleBodyFromResponse response ;; tell Call_accepted
    else when (String.eqb method "CANCEL") do tell Call_cancel_done).

(** A call is answered, or a re-[INVITE].  Whether it could be acknowledged. *)
Definition invite_accepted (request response : Message) : Sip bool :=
  handleBodyFromResponse response ;;
  d ← gets mDialog;
  d ← the d;
  ack ← of_dialog (fun w d => dialog_create_ack w d (msg_cseq request)) d;
  match ack with
  | None => mret false
  | Some ack =>
      handleSessionTimersFromResponse response ;;
      agent ← sal mUserAgent;
      tell Call_accepted ;;
      answer ← gets mSdpAnswer;
      ack ← match answer with
            | Some desc => modify (fun o => o <| mSdpAnswer := None |>) ;; setSdp desc (add_header (HUserAgent agent) ack)
            | None => mret (add_header (HUserAgent agent) ack)
            end;
      tell (Call_ack_being_sent ack) ;;
      d ← gets mDialog;
      d ← the d;
      raise (SendAck d ack) ;;
      setState OpActive ;;
      mret true
  end.

Definition is_vfu (request : Message) : bool :=
  match get_header as_content_type request with
  | Some (type, subtype) => String.eqb type "application" && String.eqb subtype "media_control+xml"
  | None => false
  end.

(** [BELLE_SIP_DIALOG_CONFIRMED].  The result is whether the function goes on to
    its end, where it gives back its reference. *)
Definition response_in_call (request response : Message) : Sip bool :=
  let code := msg_status response in
  let method := msg_method request in
  st ← gets mState;
  match st with
  | OpEarly | OpActive =>
      if String.eqb method "INVITE" then
        if is_2xx code then invite_accepted request response
        else (when (300 <=? code) do setError response false) ;; mret true
      else
        (if String.eqb method "INFO" then
           when ((code =? 491) && is_vfu request) do add_timer VfuTimer
         else if String.eqb method "UPDATE" then handleSessionTimersFromResponse response ;; tell Call_accepted
         else if String.eqb method "CANCEL" then tell Call_cancel_done
         else when (String.eqb method "REFER" && (300 <=? code)) do tell (Notify_refer ReferFailed)) ;;
        mret true
  | OpTerminating =>
      d ← gets mDialog;
      d ← the d;
      bye ← of_dialog (fun w d => dialog_create_request w d "BYE"%string) d;
      sendRequest bye ;; mret true
  | OpTerminated => mret true
  end.

(** What is done with a response, given the state of its dialog. *)
Definition process_response (tr : nat) (dialog : option nat) (dialogState : DialogState) (response : Message) : Sip bool :=
  (when (negb (msg_status response =? 491)) do resetRetryFunction) ;;
  request ← asks (fun w => transaction_request w tr);
  match dialogState with
  | DialogNull | DialogEarly => response_before_confirmation dialog request response ;; mret true
  | DialogConfirmed => response_in_call request response
  | DialogTerminated =>
      let code := msg_status response in
      (when ((300 <=? code) && negb (code =? 491)
             && (String.eqb (msg_method request) "INVITE" || String.eqb (msg_method request) "BYE"))
       do setError response true) ;;
      mret true
  end.

(** The operation holds a reference to itself meanwhile, which it keeps when it
    cannot acknowledge. *)
Definition with_reference (m : Sip bool) : Sip unit :=
  op_ref ;; completed ← m; if completed : bool then op_unref else log_line NoAck.

Definition processResponseCb (tr : option nat) (dialog : option nat) (response : Message) : Sip unit :=
  match tr with
  | None => mret tt
  | Some tr =>
      orphan ← checkForOrphanDialogOn2xx dialog;
      if orphan : bool then mret tt
      else
        setOrUpdateDialog dialog ;;
        dialogState ← state_of_dialog dialog;
        with_reference (process_response tr dialog dialogState response)
  end.

(** ** Requests *)

Definition callTerminated (tr : option nat) (statusCode : Z) (cancelRequest : Message) : Sip unit :=
  tr ← the tr;
  serverRequest ← asks (fun w => transaction_request w tr);
  setState OpTerminating ;;
  setReasonErrorInfo cancelRequest ;;
  respond (Some tr) serverRequest statusCode ;;
  o ← gets (fun o => o);
  tell (Call_terminated (match mDir o with OpIncoming => mFromAddress o | OpOutgoing => mToAddress o end)).

Definition unsupportedMethod (tr : option nat) (request : Message) : Sip unit :=
  response ← asks (fun w => create_response w request 501);
  tr ← the tr;
  send_response tr response.

(** Whether the session timer an [INVITE] asks for is too short. *)
Definition session_interval_too_small (s : SalSettings) (request : Message) : bool :=
  timer_supported request &&
  match get_header as_session_expires request, get_header as_min_se request with
  | Some (delta, _), _ => delta <? mSessionExpiresMin s
  | None, Some text => atoi text <? mSessionExpiresMin s
  | None, None => false
  end.

(** The first [INVITE] of a call.  The result is whether the operation is dropped. *)
Definition process_invite (tr : nat) (request : Message) : Sip bool :=
  s ← asks settings;
  if session_interval_too_small s request then
    response ← createResponseFromRequest request 422;
    send_response tr (add_header (HMinSE (to_dec (mSessionExpiresMin s))) (add_timer_tag response)) ;;
    mret true
  else
    modify (fun o => if bool_decide (is_Some (mReplaces o)) then o else o <| mReplaces := get_header as_replaces request |>) ;;
    modify (fun o => if bool_decide (is_Some (mReferredBy o)) then o else o <| mReferredBy := get_header as_referred_by request |>) ;;
    reason ← processBodyForInvite request;
    if bool_decide (reason = SalReasonNone) then
      (when (match get_header as_call_info request with Some v => str_contains "answer-after=" v | None => false end) do
         modify (fun o => o <| mAutoAnswerAsked := true |>)) ;;
      tell Call_received ;;
      mret false
    else
      set_error reason 0 None ;;
      tell Call_rejected ;;
      mret true.

(** A description that is offered within a call. *)
Definition process_offer (request : Message) (isUpdate : bool) : Sip unit :=
  resetDescriptions ;;
  reason ← processBodyForInvite request;
  when (bool_decide (reason = SalReasonNone)) do tell (Call_updating isUpdate).

Definition request_before_confirmation (tr : option nat) (matched : bool) (request : Message) : Sip unit :=
  let method_is := String.eqb (msg_method request) in
  if method_is "CANCEL"%string then
    if matched then
      respond tr request 200 ;;
      invite ← gets mPendingServerTransaction;
      callTerminated invite 487 request
    else respond tr request 481
  else if method_is "PRACK"%string then respond tr request 200
  else if method_is "UPDATE"%string then process_offer request true
  else if method_is "NOTIFY"%string then tr ← the tr; processNotify tr request
  else unsupportedMethod tr request.

(** An acknowledgement is for the last answer unless a request was sent since. *)
Definition process_ack (request : Message) : Sip unit :=
  o ← gets (fun o => o);
  busy ← match mPendingClientTransaction o with
         | Some tr => asks (fun w => transaction_transient w tr)
         | None => mret false
         end;
  when (negb busy) do (
    (when (mSdpOffering o) do processBodyForAck request) ;;
    tell Call_ack_received).

(** An [UPDATE] without a body only keeps the session alive. *)
Definition process_refresh (tr : nat) (request : Message) : Sip unit :=
  response ← createResponseFromRequest request 200;
  s ← asks settings;
  let expires := get_header as_session_expires request in
  send_response tr (add_headers (option_headers
    [if mSessionExpiresEnabled s then (fun e => HSessionExpires (fst e) (snd e)) <$> expires else None]) response) ;;
  modify (fun o => o <| mPendingUpdateServerTransaction := None |>) ;;
  tell Call_refreshed.

(** A response is made for a call that is being ended, and is not sent. *)
Definition process_reinvite (tr : nat) (request : Message) : Sip unit :=
  let isUpdate := String.eqb (msg_method request) "UPDATE" in
  st ← gets mState;
  if opstate_eqb st OpTerminated || opstate_eqb st OpTerminating then mret tt
  else if isUpdate && negb (bool_decide (is_Some (msg_body request))) then process_refresh tr request
  else process_offer request isUpdate.

(** The value of the first character of an array of 10. *)
Definition first_char (value : string) : ascii :=
  match value with EmptyString => "000"%char | String c _ => c end.

Definition process_info (tr : nat) (request : Message) : Sip unit :=
  (match msg_body request with
   | Some body =>
       if str_contains "picture_fast_update" body then
         s ← asks settings; when (has_vfu_request s) do tell Vfu_request
       else
         match get_header as_content_type request with
         | Some (type, subtype) =>
             if String.eqb type "application" && String.eqb subtype "dtmf-relay" then
               signal ← must (sal_lines_get_value body "Signal" 10);
               match signal with
               | Some value => tell (Dtmf_received (first_char value))
               | None => mret tt
               end
             else tell (Info_received (Some body))
         | None => mret tt
         end
   | None => tell (Info_received None)
   end) ;;
  respond (Some tr) request 200.

(** A [CANCEL] after the call is answered may be for a re-[INVITE]. *)
Definition process_cancel_in_call (tr : nat) (request : Message) : Sip unit :=
  d ← gets mDialog;
  d ← the d;
  last ← of_dialog dialog_last_transaction d;
  pending ← match last with
            | Some t => asks (fun w => transaction_is_incoming_invite w t && transaction_transient w t)
            | None => mret false
            end;
  if pending : bool then
    respond (Some tr) request 200 ;;
    t ← the last;
    invite ← asks (fun w => transaction_request w t);
    respond (Some t) invite 487
  else respond (Some tr) request 481.

Definition request_in_call (tr : option nat) (request : Message) : Sip unit :=
  let method_is := String.eqb (msg_method request) in
  if method_is "ACK"%string then process_ack request
  else
    t ← the tr;
    if method_is "BYE"%string then callTerminated tr 200 request
    else if method_is "INVITE"%string || method_is "UPDATE"%string then process_reinvite t request
    else if method_is "INFO"%string then process_info t request
    else if method_is "REFER"%string then processRefer t request
    else if method_is "NOTIFY"%string then processNotify t request
    else if method_is "OPTIONS"%string then respond tr request 200
    else if method_is "CANCEL"%string then process_cancel_in_call t request
    else if method_is "MESSAGE"%string then processIncomingMessage request
    else unsupportedMethod tr request.

(** The server transaction of a request, whose application data is the operation. *)
Definition server_transaction (request : Message) : Sip (option nat) :=
  if String.eqb (msg_method request) "ACK" then mret None
  else
    tr ← fresh_id;
    log_line (Received tr request) ;;
    take_transaction tr ;;
    mret (Some tr).

Definition process_request (matched : bool) (request : Message) : Sip unit :=
  let method := msg_method request in
  (when (String.eqb method "BYE") do haltSessionTimersTimer) ;;
  tr ← server_transaction request;
  (when (String.eqb method "INVITE") do modify (fun o => o <| mPendingServerTransaction := tr |>)) ;;
  (when (String.eqb method "UPDATE") do modify (fun o => o <| mPendingUpdateServerTransaction := tr |>)) ;;
  d ← gets mDialog;
  (match d with
   | Some _ => mret tt
   | None =>
       invite ← gets mPendingServerTransaction;
       made ← asks (fun w => provider_create_dialog w invite);
       setOrUpdateDialog made
   end) ;;
  d ← gets mDialog;
  d ← the d;
  dialogState ← of_dialog dialog_state d;
  dropOp ←
    match dialogState with
    | DialogNull =>
        if String.eqb method "INVITE" then t ← the tr; process_invite t request
        else request_before_confirmation tr matched request ;; mret false
    | DialogEarly => request_before_confirmation tr matched request ;; mret false
    | DialogConfirmed => request_in_call tr request ;; mret false
    | DialogTerminated => mret false
    end;
  when dropOp do release.

(** ** Dialogs that end *)

Definition auth_code (code : Z) : bool := (code =? 401) || (code =? 407).

Definition early_dialog_terminated (last : option Message) : Sip unit :=
  o ← gets (fun o => o);
  ts ← match mPendingClientTransaction o with
       | Some tr => asks (fun w => transaction_state w tr)
       | None => mret TrTerminated
       end;
  let authRetryPending :=
    match last with Some m => auth_code (msg_status m) | None => false end
    && (bool_decide (ts = TrCalling) || bool_decide (ts = TrProceeding)) in
  when (negb (opstate_eqb (mState o) OpTerminated) && negb (opstate_eqb (mState o) OpTerminating)
        && negb authRetryPending) do (tell Call_failure ;; setState OpTerminating).

Definition confirmed_dialog_terminated : Sip unit :=
  o ← gets (fun o => o);
  when (negb (opstate_eqb (mState o) OpTerminated) && negb (opstate_eqb (mState o) OpTerminating)) do (
    tell (Call_terminated (match mDir o with OpIncoming => mFromAddress o | OpOutgoing => mToAddress o end)) ;;
    setState OpTerminating).

Definition processDialogTerminatedCb (dialog : nat) : Sip unit :=
  current ← gets mDialog;
  when (bool_decide (current = Some dialog)) do (
    lastTr ← of_dialog dialog_last_transaction dialog;
    last ← match lastTr with
           | Some tr => asks (fun w => transaction_response w tr)
           | None => mret None
           end;
    haltSessionTimersTimer ;;
    noAck ← of_dialog dialog_aborted_no_ack dialog;
    (when (noAck : bool) do set_error SalReasonRequestTimeout 408 (Some "no ACK received"%string)) ;;
    previous ← of_dialog dialog_previous_state dialog;
    match previous with
    | DialogEarly | DialogNull => early_dialog_terminated last
    | DialogConfirmed => confirmed_dialog_terminated
    | DialogTerminated => mret tt
    end ;;
    st ← gets mState;
    when (opstate_eqb st OpTerminating || opstate_eqb st OpTerminated) do (i ← fresh_id; add_source i ReleaseLater)).

(** ** Finding the operation ([sal/sal.cpp]) *)

(** [std::stoi] *)
Definition stoi (s : string) : outcome Z :=
  let '(neg, s) := scan_sign (scan_ws s) in
  match str_span is_digit s with
  | (EmptyString, _) => Thrown
  | (ds, _) =>
      let n := signed neg (horner 0 ds) in
      if (- 2 ^ 31 <=? n) && (n <? 2 ^ 31) then Done n else Thrown
  end.

Definition has_address (m : Message) (pick : Header -> option (option Address)) : option Address :=
  match get_header pick m with Some a => a | None => None end.

(** What a request says of the peer is kept, where nothing is known yet. *)
Definition note_request (request : Message) : Sip unit :=
  modify (fun o => if bool_decide (is_Some (mFromAddress o)) then o else o <| mFromAddress := has_address request as_from |>) ;;
  modify (fun o => match get_header as_contact request with Some c => o <| mRemoteContact := c |> | None => o end) ;;
  modify (fun o => if bool_decide (is_Some (mToAddress o)) then o
                   else o <| mToAddress := has_address request (fun h => fst <$> as_to h) |>) ;;
  modify (fun o => match get_header as_subject request with Some v => o <| mSubject := v |> | None => o end) ;;
  modify (fun o => if str_empty (mCallId o) then o <| mCallId := msg_callId request |> else o) ;;
  modify (fun o => o <| mPrivacy := privacyFromMessage request |>).

(** The code of the response, without a transaction, to a request for an
    operation that is null or terminated. *)
Definition stateless_code (method : string) (terminated : option bool) (expires : option Z) : Z :=
  if String.eqb method "BYE"
     || (String.eqb method "SUBSCRIBE" && bool_decide (terminated = Some true) && bool_decide (expires = Some 0))
  then 200 else 481.

Definition answer_stateless (request : Message) (terminated : option bool) : Sip unit :=
  expires ← match get_header as_expires request with
            | Some v => n ← must (stoi v); mret (Some n)
            | None => mret None
            end;
  response ← asks (fun w => create_response w request (stateless_code (msg_method request) terminated expires));
  raise (SendStateless response).

Definition op_of_dialog (d : nat) : Sip bool := asks (fun w => bool_decide (d ∈ dialog_links w)).
Definition op_of_transaction (t : nat) : Sip bool := asks (fun w => bool_decide (t ∈ tr_links w)).

(** The operation of a dialog that was made by a [NOTIFY] is the one of its last
    transaction. *)
Definition find_op (d : nat) (method : string) : Sip bool :=
  found ← op_of_dialog d;
  if found : bool then mret true
  else if String.eqb method "NOTIFY" then
    t ← of_dialog dialog_last_transaction d;
    t ← the t;
    op_of_transaction t
  else mret false.

(** A request for a terminated operation is answered, and is then processed like
    any other. *)
Definition Sal_processRequestEventCb (d : nat) (matched : bool) (request : Message) : Sip unit :=
  found ← find_op d (msg_method request);
  if found : bool then
    st ← gets mState;
    (when (opstate_eqb st OpTerminated) do answer_stateless request (Some true)) ;;
    note_request request ;;
    process_request matched request
  else answer_stateless request None.

(** Outside of a dialog, which operation a request makes, or what is answered. *)
Inductive Routing :=
  | NewCallOp | NewPresenceOp | NewSubscribeOp | NewMessageOp | NewReferOp | PublishOp
  | Answered (code : Z) | Dropped.

Definition route_out_of_dialog (request : Message) : Routing :=
  let method_is := String.eqb (msg_method request) in
  let tagged := match get_header as_to request with Some (_, t) => t | None => false end in
  if (method_is "INVITE"%string || method_is "NOTIFY"%string) && tagged then Answered 481
  else if method_is "ACK"%string && negb tagged then Dropped
  else if method_is "INVITE"%string then NewCallOp
  else match (if method_is "SUBSCRIBE"%string || method_is "NOTIFY"%string then get_header as_event request else None) with
       | Some event => if String.eqb event "presence" then NewPresenceOp else NewSubscribeOp
       | None =>
           if method_is "MESSAGE"%string then NewMessageOp
           else if method_is "REFER"%string then NewReferOp
           else if method_is "OPTIONS"%string then Answered 200
           else if method_is "INFO"%string || method_is "BYE"%string || method_is "CANCEL"%string then Answered 481
           else if method_is "PUBLISH"%string then PublishOp
           else Answered 405
       end.

(** A call that comes in: the operation was just made. *)
Definition incoming_invite (request : Message) : Sip unit :=
  modify (fun o => o <| mDir := OpIncoming |>) ;;
  note_request request ;;
  process_request false request.

(** The response to a request that was refused for want of credentials.  The
    result is whether the operation is told of it. *)
Definition authenticate_response (tr : nat) (request : Message) : Sip bool :=
  st ← gets mState;
  if opstate_eqb st OpTerminating && negb (String.eqb (msg_method request) "BYE") then mret true
  else
    modify (fun o => o <| mPendingAuthTransaction := None |>) ;;
    modify (fun o => o <| mAuthRequests := mAuthRequests o + 1 |>) ;;
    n ← gets mAuthRequests;
    if 2 <? n then tell Auth_failure ;; removePendingAuth ;; mret true
    else modify (fun o => o <| mPendingAuthTransaction := Some tr |>) ;; processAuthentication ;; mret false.

Definition redirect_response : Sip bool :=
  modify (fun o => o <| mAuthRequests := 0 |>) ;;
  tell Process_redirect ;;
  result ← asks redirect_result;
  mret (negb (result =? 0)).

Definition note_response (response : Message) : Sip unit :=
  modify (fun o => o <| mErrorInfo := sal_error_info_reset (mErrorInfo o) |>) ;;
  modify (fun o => match get_header as_contact response with Some c => o <| mRemoteContact := c |> | None => o end) ;;
  modify (fun o => if str_empty (mCallId o) then o <| mCallId := msg_callId response |> else o).

Definition Sal_processResponseEventCb (tr : option nat) (dialog : option nat) (response : Message) : Sip unit :=
  match tr with
  | None => mret tt
  | Some t =>
      found ← op_of_transaction t;
      if found : bool then
        st ← gets mState;
        when (negb (opstate_eqb st OpTerminated)) do (
          note_response response ;;
          request ← asks (fun w => transaction_request w t);
          let code := msg_status response in
          goes_on ←
            (if auth_code code then authenticate_response t request
             else if (code =? 301) || (code =? 302) then redirect_response
             else if code =? 491 then handleRetry ;; mret true
             else mret true);
          when goes_on do (
            (when ((180 <=? code) && negb (auth_code code) && negb (code =? 403)) do
               modify (fun o => o <| mAuthRequests := 0 |>)) ;;
            processResponseCb tr dialog response))
      else mret tt
  end.

(** Sal does not check that there is an operation. *)
Definition Sal_processIoErrorCb (tr : nat) : Sip unit :=
  found ← op_of_transaction tr;
  if found : bool then modify (fun o => o <| mAuthRequests := 0 |>) ;; processIoErrorCb
  else stop NullPointer.

Definition Sal_processTimeoutCb (tr : nat) : Sip unit :=
  found ← op_of_transaction tr;
  when (found : bool) do processTimeoutCb.

Definition Sal_processTransactionTerminatedCb (tr : nat) (server : bool) : Sip unit :=
  found ← op_of_transaction tr;
  when (found : bool) do (
    processTransactionTerminatedCb tr server ;;
    op_unref ;;
    unlink_transaction tr).

Definition Sal_processDialogTerminatedCb (dialog : nat) : Sip unit :=
  found ← op_of_dialog dialog;
  when (found : bool) do processDialogTerminatedCb dialog.

(** ** The main loop *)

Definition fire (i : nat) : Sip unit :=
  s ← take_source i;
  match s with
  | Some RetryTimer =>
      stops ← runRetryFunc;
      if stops : bool then op_unref else add_source i RetryTimer
  | Some VfuTimer => sendVfuRequest ;; op_unref
  | Some ReleaseLater => setReleased
  | None =>
      timer ← asks (fun w => List.find (fun t => Nat.eqb (fst t) i) (session_timers w));
      match timer with
      | Some (_, (noUserConsent, delta, _)) =>
          tell Call_refreshing ;;
          update "Session Refresh" noUserConsent (negb noUserConsent) delta ;; mret tt
      | None => mret tt
      end
  end.

(** ** Everything that is called on an operation *)

Definition makeSupportedHeader (tags : list string) (o : SalCallOp) : SalCallOp :=
  o <| mUseSupportedTags := true |> <| mSupportedHeader := match tags with [] => None | _ => Some tags end |>.

Definition run_op_entry (e : Entry) : Sip unit :=
  let ignore (m : Sip Z) := m ;; mret tt in
  let set (f : SalCallOp -> SalCallOp) := modify f in
  match e with
  | OpCall from to subject => ignore (call from to subject)
  | OpNotifyRinging earlyMedia support => ignore (notifyRinging earlyMedia support)
  | OpAccept => ignore accept
  | OpDecline reason redirection => ignore (decline reason redirection)
  | OpUpdate subject noUserConsent => ignore (update subject noUserConsent true 0)
  | OpCancelInvite info => ignore (cancelInvite info)
  | OpTerminate info => ignore (terminate info)
  | OpReplyWithErrorInfo info redirection expire => ignore (replyWithErrorInfo info redirection expire)
  | OpReplyMessage reason => ignore (replyMessage reason)
  | OpRefer to => ignore (refer to)
  | OpReferWithReplaces other => o ← asks (fun w => other_op w other); ignore (referWithReplaces o)
  | OpSetReferrer other => o ← asks (fun w => other_op w other); ignore (setReferrer o)
  | OpNotifyReferState other => o ← asks (fun w => other_op w other); ignore (notifyReferState o)
  | OpSendDtmf dtmf => ignore (sendDtmf dtmf)
  | OpSendVfuRequest => sendVfuRequest
  | OpSendMessage content => ignore (sendMessage content)
  | OpSendInfo body => ignore (sendInfo (Some body))
  | OpRelease => release
  | OpKillDialog => killDialog
  | OpSetLocalMediaDescription desc => setLocalMediaDescription desc
  | OpSetLocalBodies bodies => set (fun o => o <| mLocalBodies := bodies |>)
  | OpAddLocalBody body => set (fun o => o <| mLocalBodies := mLocalBodies o ++ [body] |>)
  | OpSetReplaces r => set (fun o => o <| mReplaces := Some r |>)
  | OpSetContactAddress contact => setContactAddress contact
  | OpSetRouteAddress route => set (fun o => o <| mRouteAddresses := option_list route |>)
  | OpAddRouteAddress route => set (fun o => o <| mRouteAddresses := mRouteAddresses o ++ [route] |>)
  | OpSetPrivacy mask => set (fun o => o <| mPrivacy := mask |>)
  | OpSetRequestUri uri => set (fun o => o <| mRequestUri := uri |>)
  | OpMakeSupportedHeader tags => set (makeSupportedHeader tags)
  | OpSetSentCustomHeaders headers => set (fun o => o <| mSentCustomHeaders := headers |>)
  | OpSetUserPointer b => set (fun o => o <| mUserPointer := b |>)
  | OpSetRetryFunction f => set (fun o => o <| mRetryFunc := Some f |>)
  | OpResetRetryFunction => resetRetryFunction
  | OpEnableCapabilityNegotiation enable => set (fun o => o <| capabilityNegotiation := enable |>)
  | OpEnableCnxIpTo0000IfSendOnly value => set (fun o => o <| mCnxIpTo0000IfSendOnlyEnabled := value |>)
  | OpSetNotifyAllRingings value => set (fun o => o <| mNotifyAllRingings := value |>)
  | OpSetSdpHandling handling => set (fun o => o <| mSdpHandling := handling |>)
  | OpGetFinalMediaDescription => getFinalMediaDescription ;; mret tt
  | OpProcessRedirect => ignore processRedirect
  | OpAuthenticate => processAuthentication
  | SipRequest d matched request => Sal_processRequestEventCb d matched request
  | SipResponse tr dialog response => Sal_processResponseEventCb tr dialog response
  | SipIoError tr => Sal_processIoErrorCb tr
  | SipTimeout tr => Sal_processTimeoutCb tr
  | SipTransactionTerminated tr server => Sal_processTransactionTerminatedCb tr server
  | SipDialogTerminated dialog => Sal_processDialogTerminatedCb dialog
  | Fire i => fire i
  end.

End Ops.

(** ** Running an operation *)

Section Run.
Context `{AddressLib} {lib : MediaLib} {sdp : SdpLib} {ortp : OrtpRtcp} `{!SipStack}.
Variable split : string -> ascii -> list string.

Definition sip_perform : nat -> SipEvent -> Sip unit := nest record_sip sip_react (run_op_entry split).

Definition run_sip (fuel : nat) (es : list Entry) : Sip unit := for_each es (run_op_entry split (sip_perform fuel)).

(** A call from its creation: by the core, or by an [INVITE] that came in. *)
Definition life (fuel : nat) (invite : option Message) (es : list Entry) : Sip unit :=
  match invite with
  | Some invite => incoming_invite split (sip_perform fuel) invite
  | None => mret tt
  end ;; run_sip fuel es.

(** A world with a new operation. *)
Definition new_world (o : SalCallOp) : SipWorld := mkSipWorld o false [] [] [] [] 0 [] [].

End Run.
