(* ===== verification/CallOpRules.v ===== *)
(** * Rules for the computations of a call operation

    What every operation keeps, whatever belle-sip, the core and the main loop do:
    a property of computations that the primitives of [Kept] have, and that
    sequences keep, is a property of everything that is called on an operation
    ([kept_entry]).  References are only taken and given back in pairs, or with a
    link to a dialog, a transaction or a timer. *)
From S2P Require Import Prelude Effects Sscanf LpConfigValues SalTypes Payload SalMediaDescription SdpObjects SalSdp StreamSdpReader MediaSdp OfferAnswerEngine ChatTypes ErrorInfo SipTypes CallOpTypes CallOp.

(** Writing members other than the count of references, the dialog, and what says
    that the operation was given back. *)
Definition guarded `{AddressLib} (f : SalCallOp -> SalCallOp) : Prop :=
  forall o, mRef (f o) = mRef o /\ mDialog (f o) = mDialog o /\ mOpReleased (f o) = mOpReleased o
    /\ mCallReleased (f o) = mCallReleased o.

Ltac guarded := intros ?; try unfold forget_server_transaction; try unfold makeSupportedHeader; cbn; repeat case_match; cbn; repeat split; reflexivity.

(** What is raised, the end of the call apart. *)
Definition ordinary `{AddressLib} (e : SipEvent) : bool :=
  match e with
  | Callback Call_released | Received _ _ | NoAck | Destroyed | SipFatal => false
  | _ => true
  end.

(** A transaction is only said to be over by the main loop. *)
Definition nestable `{AddressLib} (e : Entry) : bool :=
  match e with SipTransactionTerminated _ _ => false | _ => true end.

Class Kept `{AddressLib} {lib : MediaLib} {sdp : SdpLib} {ortp : OrtpRtcp} `{!SipStack} (raise : SipEvent -> Sip unit)
    (ok : forall A, Sip A -> Prop) : Prop := {
  kept_ret A (a : A) : ok A (mret a);
  kept_bind A B (m : Sip A) (k : A -> Sip B) : ok A m -> (forall a, ok B (k a)) -> ok B (m ≫= k);
  kept_gets A (f : SalCallOp -> A) : ok A (gets f);
  kept_asks A (f : SipWorld -> A) : ok A (asks f);
  kept_stop A why : why <> TooDeep -> ok A (stop why);
  kept_modify f : guarded f -> ok unit (modify f);
  kept_received tr m : ok unit (log_line (Received tr m));
  kept_fresh_id : ok nat fresh_id;
  kept_raise e : ordinary e = true -> ok unit (raise e);
  kept_keep_response d m : ok unit (keep_response d m);
  kept_cancelTimer i : ok unit (cancelTimer i);
  kept_add_session_timer i c delta period : ok unit (add_session_timer i c delta period);
  kept_take_transaction tr : ok unit (take_transaction tr);
  kept_add_timer s : s <> ReleaseLater -> ok unit (add_timer s);
  kept_release_later i : ok unit (add_source i ReleaseLater);
  kept_setOrUpdateDialog d : ok unit (setOrUpdateDialog d);
  kept_release : ok unit release;
  kept_setReleased : ok unit (setReleased raise);
  kept_with_reference m : ok bool m -> ok unit (with_reference m);
  kept_fire i : ok bool (runRetryFunc raise) -> ok unit (sendVfuRequest raise) ->
    (forall b delta, ok Z (update raise "Session Refresh" b (negb b) delta)) -> ok unit (fire raise i);
}.

Create HintDb kept.

Section Operations.
Context `{AddressLib} {lib : MediaLib} {sdp : SdpLib} {ortp : OrtpRtcp} `{!SipStack}.
Variable split : string -> ascii -> list string.
Variable raise : SipEvent -> Sip unit.
Variable ok : forall A, Sip A -> Prop.
Context `{!Kept raise ok}.

#[local] Hint Extern 1 (ok _ (mret _)) => simple apply kept_ret : kept.
#[local] Hint Extern 1 (ok _ (gets _)) => simple apply kept_gets : kept.
#[local] Hint Extern 1 (ok _ (asks _)) => simple apply kept_asks : kept.
#[local] Hint Extern 1 (ok _ (modify _)) => (simple apply kept_modify; guarded) : kept.
#[local] Hint Extern 1 (ok _ (log_line _)) => simple apply kept_received : kept.
#[local] Hint Extern 1 (ok _ fresh_id) => simple apply kept_fresh_id : kept.
#[local] Hint Extern 1 (ok _ (raise _)) => (simple apply kept_raise; reflexivity) : kept.
#[local] Hint Extern 1 (ok _ (stop _)) => (simple apply kept_stop; discriminate) : kept.
#[local] Hint Extern 1 (ok _ (add_timer _)) => (simple apply kept_add_timer; discriminate) : kept.
#[local] Hint Extern 1 (ok _ (keep_response _ _)) => simple apply kept_keep_response : kept.
#[local] Hint Extern 1 (ok _ (cancelTimer _)) => simple apply kept_cancelTimer : kept.
#[local] Hint Extern 1 (ok _ (add_session_timer _ _ _ _)) => simple apply kept_add_session_timer : kept.
#[local] Hint Extern 1 (ok _ (take_transaction _)) => simple apply kept_take_transaction : kept.
#[local] Hint Extern 1 (ok _ (add_source _ ReleaseLater)) => simple apply kept_release_later : kept.
#[local] Hint Extern 1 (ok _ (setOrUpdateDialog _)) => simple apply kept_setOrUpdateDialog : kept.
#[local] Hint Extern 1 (ok _ release) => simple apply kept_release : kept.
#[local] Hint Extern 1 (ok _ (setReleased _)) => simple apply kept_setReleased : kept.

Lemma kept_the {A} (p : option A) : ok _ (the p).
Proof. destruct p; cbn [the]; auto with kept. Qed.
Lemma kept_must {A} (x : outcome A) : ok _ (must x).
Proof. destruct x; cbn [must]; auto with kept. Qed.
Lemma kept_sal {A} (f : SalSettings -> A) : ok _ (sal f).
Proof. unfold sal, of_dialog, op_of_dialog, op_of_transaction. apply kept_asks. Qed.
Lemma kept_of_dialog {A} (f : SipWorld -> nat -> A) d : ok _ (of_dialog f d).
Proof. unfold sal, of_dialog, op_of_dialog, op_of_transaction. apply kept_asks. Qed.
Lemma kept_op_of_dialog d : ok _ (op_of_dialog d).
Proof. unfold sal, of_dialog, op_of_dialog, op_of_transaction. apply kept_asks. Qed.
Lemma kept_op_of_transaction t : ok _ (op_of_transaction t).
Proof. unfold sal, of_dialog, op_of_dialog, op_of_transaction. apply kept_asks. Qed.
#[local] Hint Resolve kept_the kept_must kept_sal kept_of_dialog kept_op_of_dialog kept_op_of_transaction : kept.

Lemma kept_tell c : c <> Call_released -> ok _ (tell raise c).
Proof. intros Hc. unfold tell. apply kept_raise. by destruct c. Qed.
#[local] Hint Extern 1 (ok _ (tell _ _)) => (simple apply kept_tell; discriminate) : kept.
Lemma kept_send_response tr m : ok _ (send_response raise tr m).
Proof. unfold send_response. by apply kept_raise. Qed.
#[local] Hint Resolve kept_send_response : kept.

(** Every command of a program, one after the other. *)
Ltac follow :=
  repeat first
    [ progress intros
    | solve [auto 2 with kept nocore]
    | simple apply kept_bind
    | case_match ].

Lemma kept_state_of_dialog d : ok _ (state_of_dialog d).
Proof. destruct d; cbn [state_of_dialog]; follow. Qed.
#[local] Hint Resolve kept_state_of_dialog : kept.
Lemma kept_current_dialog_state : ok _ current_dialog_state.
Proof. unfold current_dialog_state. follow. Qed.
Lemma kept_setState s : ok _ (setState s).
Proof. unfold setState. follow. Qed.
#[local] Hint Resolve kept_current_dialog_state kept_setState : kept.
Lemma kept_killDialog : ok _ (killDialog raise).
Proof. unfold killDialog. follow. Qed.
#[local] Hint Resolve kept_killDialog : kept.
Lemma kept_createResponseFromRequest (request : Message) (code : Z) : ok _ (createResponseFromRequest request code).
Proof. unfold createResponseFromRequest. follow. Qed.
#[local] Hint Resolve kept_createResponseFromRequest : kept.
Lemma kept_setContactAddress (contact : option Address) : ok _ (setContactAddress contact).
Proof. unfold setContactAddress. follow. Qed.
#[local] Hint Resolve kept_setContactAddress : kept.
Lemma kept_createContact : ok _ createContact.
Proof. unfold createContact. follow. Qed.
#[local] Hint Resolve kept_createContact : kept.
Lemma kept_respond tr request code : ok _ (respond raise tr request code).
Proof. unfold respond. follow. Qed.
Lemma kept_addCustomHeaders hs : forall m, ok _ (addCustomHeaders hs m).
Proof. induction hs as [|[] hs IH]; intros m; cbn [addCustomHeaders]; follow; apply IH. Qed.
#[local] Hint Resolve kept_respond kept_addCustomHeaders : kept.
Lemma kept_next_hop (request : Message) : ok _ (next_hop request).
Proof. unfold next_hop. follow. Qed.
#[local] Hint Resolve kept_next_hop : kept.
Lemma kept_sendRequestWithContact (request : Message) (addContact : bool) : ok _ (sendRequestWithContact raise request addContact).
Proof. unfold sendRequestWithContact. follow. Qed.
#[local] Hint Resolve kept_sendRequestWithContact : kept.
Lemma kept_sendRequest (request : option Message) : ok _ (sendRequest raise request).
Proof. unfold sendRequest. follow. Qed.
#[local] Hint Resolve kept_sendRequest : kept.
Lemma kept_resendRequest (request : Message) : ok _ (resendRequest raise request).
Proof. unfold resendRequest. follow. Qed.
#[local] Hint Resolve kept_resendRequest : kept.
Lemma kept_buildRequest (method : string) : ok _ (buildRequest method).
Proof. unfold buildRequest. follow. Qed.
#[local] Hint Resolve kept_buildRequest : kept.
Lemma kept_createWarningHeader (info : SalErrorInfo) (server : option Address) : ok _ (createWarningHeader info server).
Proof. unfold createWarningHeader. follow. Qed.
#[local] Hint Resolve kept_createWarningHeader : kept.
Lemma kept_declined_transaction : ok _ declined_transaction.
Proof. unfold declined_transaction. follow. Qed.
#[local] Hint Resolve kept_declined_transaction : kept.
Lemma kept_replyWithErrorInfo (info : SalErrorInfo) (redirectionAddr : option Address) (expire : Z) : ok _ (replyWithErrorInfo raise info redirectionAddr expire).
Proof. unfold replyWithErrorInfo. follow. Qed.
#[local] Hint Resolve kept_replyWithErrorInfo : kept.
Lemma kept_replyMessage (reason : SalReason) : ok _ (replyMessage raise reason).
Proof. unfold replyMessage. follow. Qed.
#[local] Hint Resolve kept_replyMessage : kept.
Lemma kept_processRedirect : ok _ (processRedirect raise).
Proof. unfold processRedirect. follow. Qed.
#[local] Hint Resolve kept_processRedirect : kept.
Lemma kept_removePendingAuth : ok _ removePendingAuth.
Proof. unfold removePendingAuth. follow. Qed.
#[local] Hint Resolve kept_removePendingAuth : kept.
Lemma kept_addPendingAuth : ok _ addPendingAuth.
Proof. unfold addPendingAuth. follow. Qed.
#[local] Hint Resolve kept_addPendingAuth : kept.
Lemma kept_processAuthentication : ok _ (processAuthentication raise).
Proof. unfold processAuthentication. follow. Qed.
#[local] Hint Resolve kept_processAuthentication : kept.
Lemma kept_resetRetryFunction : ok _ resetRetryFunction.
Proof. unfold resetRetryFunction. follow. Qed.
#[local] Hint Resolve kept_resetRetryFunction : kept.
Lemma kept_handleRetry : ok _ handleRetry.
Proof. unfold handleRetry. follow. Qed.
#[local] Hint Resolve kept_handleRetry : kept.
Lemma kept_runRetryFunc : ok _ (runRetryFunc raise).
Proof. unfold runRetryFunc. follow. Qed.
#[local] Hint Resolve kept_runRetryFunc : kept.
Lemma kept_setLocalMediaDescription (desc : option SalMediaDescription) : ok _ (setLocalMediaDescription desc).
Proof. unfold setLocalMediaDescription. follow. Qed.
#[local] Hint Resolve kept_setLocalMediaDescription : kept.
Lemma kept_setSdp (desc : belle_sdp_session_description) (m : Message) : ok _ (setSdp desc m).
Proof. unfold setSdp. follow. Qed.
#[local] Hint Resolve kept_setSdp : kept.
Lemma kept_fillInvite (invite : Message) : ok _ (fillInvite invite).
Proof. unfold fillInvite. follow. Qed.
#[local] Hint Resolve kept_fillInvite : kept.
Lemma kept_sdpProcess : ok _ sdpProcess.
Proof. unfold sdpProcess. follow. Qed.
#[local] Hint Resolve kept_sdpProcess : kept.
Lemma kept_getFinalMediaDescription : ok _ getFinalMediaDescription.
Proof. unfold getFinalMediaDescription. follow. Qed.
#[local] Hint Resolve kept_getFinalMediaDescription : kept.
Lemma kept_fillRemoteBodies (body : Content) : ok _ (fillRemoteBodies body).
Proof. unfold fillRemoteBodies. follow. Qed.
#[local] Hint Resolve kept_fillRemoteBodies : kept.
Lemma kept_remote_sdp : ok _ remote_sdp.
Proof. unfold remote_sdp. follow. Qed.
#[local] Hint Resolve kept_remote_sdp : kept.
Lemma kept_setRemoteMedia (desc : belle_sdp_session_description) : ok _ (setRemoteMedia split desc).
Proof. unfold setRemoteMedia. follow. Qed.
#[local] Hint Resolve kept_setRemoteMedia : kept.
Lemma kept_handleBodyFromResponse (response : Message) : ok _ (handleBodyFromResponse split response).
Proof. unfold handleBodyFromResponse. follow. Qed.
#[local] Hint Resolve kept_handleBodyFromResponse : kept.
Lemma kept_processBodyForInvite (invite : Message) : ok _ (processBodyForInvite split raise invite).
Proof. unfold processBodyForInvite. follow. Qed.
#[local] Hint Resolve kept_processBodyForInvite : kept.
Lemma kept_processBodyForAck (ack : Message) : ok _ (processBodyForAck split ack).
Proof. unfold processBodyForAck. follow. Qed.
#[local] Hint Resolve kept_processBodyForAck : kept.
Lemma kept_resetDescriptions : ok _ resetDescriptions.
Proof. unfold resetDescriptions. follow. Qed.
#[local] Hint Resolve kept_resetDescriptions : kept.
Lemma kept_handleOfferAnswerResponse (response : Message) : ok _ (handleOfferAnswerResponse response).
Proof. unfold handleOfferAnswerResponse. follow. Qed.
#[local] Hint Resolve kept_handleOfferAnswerResponse : kept.
Lemma kept_fillSessionExpiresHeaders (invite : Message) (refresher : Refresher) (delta : Z) : ok _ (fillSessionExpiresHeaders invite refresher delta).
Proof. unfold fillSessionExpiresHeaders. follow. Qed.
#[local] Hint Resolve kept_fillSessionExpiresHeaders : kept.
Lemma kept_fillSessionExpiresMinSEHeader (invite : Message) : ok _ (fillSessionExpiresMinSEHeader invite).
Proof. unfold fillSessionExpiresMinSEHeader. follow. Qed.
#[local] Hint Resolve kept_fillSessionExpiresMinSEHeader : kept.
Lemma kept_haltSessionTimersTimer : ok _ haltSessionTimersTimer.
Proof. unfold haltSessionTimersTimer. follow. Qed.
#[local] Hint Resolve kept_haltSessionTimersTimer : kept.
Lemma kept_restartSessionTimersTimer (response : Message) (delta : Z) : ok _ (restartSessionTimersTimer response delta).
Proof. unfold restartSessionTimersTimer. follow. Qed.
#[local] Hint Resolve kept_restartSessionTimersTimer : kept.
Lemma kept_handleSessionTimersFromResponse (response : Message) : ok _ (handleSessionTimersFromResponse response).
Proof. unfold handleSessionTimersFromResponse. follow. Qed.
#[local] Hint Resolve kept_handleSessionTimersFromResponse : kept.
Lemma kept_accept_session_timer (request response : Message) : ok _ (accept_session_timer request response).
Proof. unfold accept_session_timer. follow. Qed.
#[local] Hint Resolve kept_accept_session_timer : kept.
Lemma kept_call (from to : option Address) (subject : string) : ok _ (call raise from to subject).
Proof. unfold call. follow. Qed.
#[local] Hint Resolve kept_call : kept.
Lemma kept_notifyRinging (earlyMedia : bool) (support : SupportLevel) : ok _ (notifyRinging raise earlyMedia support).
Proof. unfold notifyRinging. follow. Qed.
#[local] Hint Resolve kept_notifyRinging : kept.
Lemma kept_accept : ok _ (accept raise).
Proof. unfold accept. follow. Qed.
#[local] Hint Resolve kept_accept : kept.
Lemma kept_decline (reason : SalReason) (redirection : option (Address * bool)) : ok _ (decline raise reason redirection).
Proof. unfold decline. follow. Qed.
#[local] Hint Resolve kept_decline : kept.
Lemma kept_set_error_info (reason : SalReason) (code : Z) (text warning : option string) : ok _ (set_error_info reason code text warning).
Proof. unfold set_error_info. follow. Qed.
#[local] Hint Resolve kept_set_error_info : kept.
Lemma kept_set_error reason code text : ok _ (set_error reason code text).
Proof. apply kept_set_error_info. Qed.
#[local] Hint Resolve kept_set_error : kept.
Lemma kept_set_pending_error (d : nat) : ok _ (set_pending_error d).
Proof. unfold set_pending_error. follow. Qed.
#[local] Hint Resolve kept_set_pending_error : kept.
Lemma kept_canSendRequest (noUserConsent logError : bool) : ok _ (canSendRequest noUserConsent logError).
Proof. unfold canSendRequest. follow. Qed.
#[local] Hint Resolve kept_canSendRequest : kept.
Lemma kept_update (subject : string) (noUserConsent withSDP : bool) (delta : Z) : ok _ (update raise subject noUserConsent withSDP delta).
Proof. unfold update. follow. Qed.
#[local] Hint Resolve kept_update : kept.
Lemma kept_cancelInvite (info : option SalErrorInfo) : ok _ (cancelInvite raise info).
Proof. unfold cancelInvite. follow. Qed.
#[local] Hint Resolve kept_cancelInvite : kept.
Lemma kept_cancellingInvite (info : option SalErrorInfo) : ok _ (cancellingInvite raise info).
Proof. unfold cancellingInvite. follow. Qed.
#[local] Hint Resolve kept_cancellingInvite : kept.
Lemma kept_replyWithErrorInfo_ptr (info : option SalErrorInfo) : ok _ (replyWithErrorInfo_ptr raise info).
Proof. unfold replyWithErrorInfo_ptr. follow. Qed.
#[local] Hint Resolve kept_replyWithErrorInfo_ptr : kept.
Lemma kept_bye_headers (info : option SalErrorInfo) (from : option Address) : ok _ (bye_headers info from).
Proof. unfold bye_headers. follow. Qed.
#[local] Hint Resolve kept_bye_headers : kept.
Lemma kept_terminate (info : option SalErrorInfo) : ok _ (terminate raise info).
Proof. unfold terminate. follow. Qed.
#[local] Hint Resolve kept_terminate : kept.
Lemma kept_setReferredBy (by_ : option Address) : ok _ (setReferredBy by_).
Proof. unfold setReferredBy. follow. Qed.
#[local] Hint Resolve kept_setReferredBy : kept.
Lemma kept_referTo (to referredBy : Header) : ok _ (referTo raise to referredBy).
Proof. unfold referTo. follow. Qed.
#[local] Hint Resolve kept_referTo : kept.
Lemma kept_refer (referToUri : Address) : ok _ (refer raise referToUri).
Proof. unfold refer. follow. Qed.
#[local] Hint Resolve kept_refer : kept.
Lemma kept_referWithReplaces (other : OtherOp) : ok _ (referWithReplaces raise other).
Proof. unfold referWithReplaces. follow. Qed.
#[local] Hint Resolve kept_referWithReplaces : kept.
Lemma kept_setReferrer (referredCall : OtherOp) : ok _ (setReferrer referredCall).
Proof. unfold setReferrer. follow. Qed.
#[local] Hint Resolve kept_setReferrer : kept.
Lemma kept_sendNotifyForRefer (code : Z) (reason : option string) (state state_reason : string) : ok _ (sendNotifyForRefer raise code reason state state_reason).
Proof. unfold sendNotifyForRefer. follow. Qed.
#[local] Hint Resolve kept_sendNotifyForRefer : kept.
Lemma kept_notifyLastResponse (newCallOp : OtherOp) : ok _ (notifyLastResponse raise newCallOp).
Proof. unfold notifyLastResponse. follow. Qed.
#[local] Hint Resolve kept_notifyLastResponse : kept.
Lemma kept_notifyReferState (newCallOp : OtherOp) : ok _ (notifyReferState raise newCallOp).
Proof. unfold notifyReferState. follow. Qed.
#[local] Hint Resolve kept_notifyReferState : kept.
Lemma kept_processRefer (tr : nat) (request : Message) : ok _ (processRefer raise tr request).
Proof. unfold processRefer. follow. Qed.
#[local] Hint Resolve kept_processRefer : kept.
Lemma kept_processNotify (tr : nat) (request : Message) : ok _ (processNotify raise tr request).
Proof. unfold processNotify. follow. Qed.
#[local] Hint Resolve kept_processNotify : kept.
Lemma kept_sendDtmf (dtmf : ascii) : ok _ (sendDtmf raise dtmf).
Proof. unfold sendDtmf. follow. Qed.
#[local] Hint Resolve kept_sendDtmf : kept.
Lemma kept_sendVfuRequest : ok _ (sendVfuRequest raise).
Proof. unfold sendVfuRequest. follow. Qed.
#[local] Hint Resolve kept_sendVfuRequest : kept.
Lemma kept_sendMessage (content : Content) : ok _ (sendMessage raise content).
Proof. unfold sendMessage. follow. Qed.
#[local] Hint Resolve kept_sendMessage : kept.
Lemma kept_sendInfo (body : option string) : ok _ (sendInfo raise body).
Proof. unfold sendInfo. follow. Qed.
#[local] Hint Resolve kept_sendInfo : kept.
Lemma kept_processIncomingMessage (request : Message) : ok _ (processIncomingMessage raise request).
Proof. unfold processIncomingMessage. follow. Qed.
#[local] Hint Resolve kept_processIncomingMessage : kept.
Lemma kept_setReasonErrorInfo (m : Message) : ok _ (setReasonErrorInfo m).
Proof. unfold setReasonErrorInfo. follow. Qed.
#[local] Hint Resolve kept_setReasonErrorInfo : kept.
Lemma kept_setErrorInfoFromResponse (response : Message) : ok _ (setErrorInfoFromResponse response).
Proof. unfold setErrorInfoFromResponse. follow. Qed.
#[local] Hint Resolve kept_setErrorInfoFromResponse : kept.
Lemma kept_setError (response : Message) (fatal : bool) : ok _ (setError raise response fatal).
Proof. unfold setError. follow. Qed.
#[local] Hint Resolve kept_setError : kept.
Lemma kept_release_without_dialog : ok _ (release_without_dialog raise).
Proof. unfold release_without_dialog. follow. Qed.
#[local] Hint Resolve kept_release_without_dialog : kept.
Lemma kept_processIoErrorCb : ok _ (processIoErrorCb raise).
Proof. unfold processIoErrorCb. follow. Qed.
#[local] Hint Resolve kept_processIoErrorCb : kept.
Lemma kept_processTimeoutCb : ok _ (processTimeoutCb raise).
Proof. unfold processTimeoutCb. follow. Qed.
#[local] Hint Resolve kept_processTimeoutCb : kept.
Lemma kept_processTransactionTerminatedCb (tr : nat) (server : bool) : ok _ (processTransactionTerminatedCb raise tr server).
Proof. unfold processTransactionTerminatedCb. follow. Qed.
#[local] Hint Resolve kept_processTransactionTerminatedCb : kept.
Lemma kept_checkForOrphanDialogOn2xx (dialog : option nat) : ok _ (checkForOrphanDialogOn2xx raise dialog).
Proof. unfold checkForOrphanDialogOn2xx. follow. Qed.
#[local] Hint Resolve kept_checkForOrphanDialogOn2xx : kept.
Lemma kept_invite_refused_422 (request response : Message) : ok _ (invite_refused_422 raise request response).
Proof. unfold invite_refused_422. follow. Qed.
#[local] Hint Resolve kept_invite_refused_422 : kept.
Lemma kept_response_while_terminating (code : Z) : ok _ (response_while_terminating raise code).
Proof. unfold response_while_terminating. follow. Qed.
#[local] Hint Resolve kept_response_while_terminating : kept.
Lemma kept_ringing_response (dialog : option nat) (response : Message) : ok _ (ringing_response split raise dialog response).
Proof. unfold ringing_response. follow. Qed.
#[local] Hint Resolve kept_ringing_response : kept.
Lemma kept_response_before_confirmation (dialog : option nat) (request response : Message) : ok _ (response_before_confirmation split raise dialog request response).
Proof. unfold response_before_confirmation. follow. Qed.
#[local] Hint Resolve kept_response_before_confirmation : kept.
Lemma kept_invite_accepted (request response : Message) : ok _ (invite_accepted split raise request response).
Proof. unfold invite_accepted. follow. Qed.
#[local] Hint Resolve kept_invite_accepted : kept.
Lemma kept_response_in_call (request response : Message) : ok _ (response_in_call split raise request response).
Proof. unfold response_in_call. follow. Qed.
#[local] Hint Resolve kept_response_in_call : kept.
Lemma kept_process_response (tr : nat) (dialog : option nat) (dialogState : DialogState) (response : Message) : ok _ (process_response split raise tr dialog dialogState response).
Proof. unfold process_response. follow. Qed.
#[local] Hint Resolve kept_process_response : kept.
Lemma kept_processResponseCb (tr : option nat) (dialog : option nat) (response : Message) : ok _ (processResponseCb split raise tr dialog response).
Proof. unfold processResponseCb. follow. by apply kept_with_reference, kept_process_response. Qed.
#[local] Hint Resolve kept_processResponseCb : kept.
Lemma kept_callTerminated (tr : option nat) (statusCode : Z) (cancelRequest : Message) : ok _ (callTerminated raise tr statusCode cancelRequest).
Proof. unfold callTerminated. follow. Qed.
#[local] Hint Resolve kept_callTerminated : kept.
Lemma kept_unsupportedMethod (tr : option nat) (request : Message) : ok _ (unsupportedMethod raise tr request).
Proof. unfold unsupportedMethod. follow. Qed.
#[local] Hint Resolve kept_unsupportedMethod : kept.
Lemma kept_process_invite (tr : nat) (request : Message) : ok _ (process_invite split raise tr request).
Proof. unfold process_invite. follow. Qed.
#[local] Hint Resolve kept_process_invite : kept.
Lemma kept_process_offer (request : Message) (isUpdate : bool) : ok _ (process_offer split raise request isUpdate).
Proof. unfold process_offer. follow. Qed.
#[local] Hint Resolve kept_process_offer : kept.
Lemma kept_request_before_confirmation (tr : option nat) (matched : bool) (request : Message) : ok _ (request_before_confirmation split raise tr matched request).
Proof. unfold request_before_confirmation. follow. Qed.
#[local] Hint Resolve kept_request_before_confirmation : kept.
Lemma kept_process_ack (request : Message) : ok _ (process_ack split raise request).
Proof. unfold process_ack. follow. Qed.
#[local] Hint Resolve kept_process_ack : kept.
Lemma kept_process_refresh (tr : nat) (request : Message) : ok _ (process_refresh raise tr request).
Proof. unfold process_refresh. follow. Qed.
#[local] Hint Resolve kept_process_refresh : kept.
Lemma kept_process_reinvite (tr : nat) (request : Message) : ok _ (process_reinvite split raise tr request).
Proof. unfold process_reinvite. follow. Qed.
#[local] Hint Resolve kept_process_reinvite : kept.
Lemma kept_process_info (tr : nat) (request : Message) : ok _ (process_info raise tr request).
Proof. unfold process_info. follow. Qed.
#[local] Hint Resolve kept_process_info : kept.
Lemma kept_process_cancel_in_call (tr : nat) (request : Message) : ok _ (process_cancel_in_call raise tr request).
Proof. unfold process_cancel_in_call. follow. Qed.
#[local] Hint Resolve kept_process_cancel_in_call : kept.
Lemma kept_request_in_call (tr : option nat) (request : Message) : ok _ (request_in_call split raise tr request).
Proof. unfold request_in_call. follow. Qed.
#[local] Hint Resolve kept_request_in_call : kept.
Lemma kept_server_transaction (request : Message) : ok _ (server_transaction request).
Proof. unfold server_transaction. follow. Qed.
#[local] Hint Resolve kept_server_transaction : kept.
Lemma kept_process_request (matched : bool) (request : Message) : ok _ (process_request split raise matched request).
Proof. unfold process_request. follow. Qed.
#[local] Hint Resolve kept_process_request : kept.
Lemma kept_early_dialog_terminated (last : option Message) : ok _ (early_dialog_terminated raise last).
Proof. unfold early_dialog_terminated. follow. Qed.
#[local] Hint Resolve kept_early_dialog_terminated : kept.
Lemma kept_confirmed_dialog_terminated : ok _ (confirmed_dialog_terminated raise).
Proof. unfold confirmed_dialog_terminated. follow. Qed.
#[local] Hint Resolve kept_confirmed_dialog_terminated : kept.
Lemma kept_processDialogTerminatedCb (dialog : nat) : ok _ (processDialogTerminatedCb raise dialog).
Proof. unfold processDialogTerminatedCb. follow. Qed.
#[local] Hint Resolve kept_processDialogTerminatedCb : kept.
Lemma kept_note_request (request : Message) : ok _ (note_request request).
Proof. unfold note_request. follow. Qed.
#[local] Hint Resolve kept_note_request : kept.
Lemma kept_answer_stateless (request : Message) (terminated : option bool) : ok _ (answer_stateless raise request terminated).
Proof. unfold answer_stateless. follow. Qed.
#[local] Hint Resolve kept_answer_stateless : kept.
Lemma kept_find_op (d : nat) (method : string) : ok _ (find_op d method).
Proof. unfold find_op. follow. Qed.
#[local] Hint Resolve kept_find_op : kept.
Lemma kept_Sal_processRequestEventCb (d : nat) (matched : bool) (request : Message) : ok _ (Sal_processRequestEventCb split raise d matched request).
Proof. unfold Sal_processRequestEventCb. follow. Qed.
#[local] Hint Resolve kept_Sal_processRequestEventCb : kept.
Lemma kept_authenticate_response (tr : nat) (request : Message) : ok _ (authenticate_response raise tr request).
Proof. unfold authenticate_response. follow. Qed.
#[local] Hint Resolve kept_authenticate_response : kept.
Lemma kept_redirect_response : ok _ (redirect_response raise).
Proof. unfold redirect_response. follow. Qed.
#[local] Hint Resolve kept_redirect_response : kept.
Lemma kept_note_response (response : Message) : ok _ (note_response response).
Proof. unfold note_response. follow. Qed.
#[local] Hint Resolve kept_note_response : kept.
Lemma kept_Sal_processResponseEventCb (tr : option nat) (dialog : option nat) (response : Message) : ok _ (Sal_processResponseEventCb split raise tr dialog response).
Proof. unfold Sal_processResponseEventCb. follow. Qed.
#[local] Hint Resolve kept_Sal_processResponseEventCb : kept.
Lemma kept_Sal_processIoErrorCb (tr : nat) : ok _ (Sal_processIoErrorCb raise tr).
Proof. unfold Sal_processIoErrorCb. follow. Qed.
#[local] Hint Resolve kept_Sal_processIoErrorCb : kept.
Lemma kept_Sal_processTimeoutCb (tr : nat) : ok _ (Sal_processTimeoutCb raise tr).
Proof. unfold Sal_processTimeoutCb. follow. Qed.
#[local] Hint Resolve kept_Sal_processTimeoutCb : kept.
Lemma kept_Sal_processDialogTerminatedCb (dialog : nat) : ok _ (Sal_processDialogTerminatedCb raise dialog).
Proof. unfold Sal_processDialogTerminatedCb. follow. Qed.
#[local] Hint Resolve kept_Sal_processDialogTerminatedCb : kept.

Lemma kept_fire_any i : ok _ (fire raise i).
Proof. apply kept_fire; auto with kept. Qed.
#[local] Hint Resolve kept_fire_any : kept.

(** Everything that is called on an operation from a callback. *)
Theorem kept_entry e : nestable e = true -> ok _ (run_op_entry split raise e).
Proof.
  intros He. destruct e; try discriminate He; cbn [run_op_entry];
    first [solve [auto 2 with kept nocore] | follow].
Qed.

Lemma kept_incoming_invite request : ok _ (incoming_invite split raise request).
Proof. unfold incoming_invite. follow. Qed.
End Operations.
