(* ===== verification/CallOpExamples.v ===== *)
(** * A stack to try a call operation in

    belle-sip with what it has sent and received for memory, and with dialog
    states, session descriptions and reactions to choose. *)
From S2P Require Import Prelude Effects SalTypes Payload ReferenceLib ReferenceSdp SalMediaDescription SdpObjects SalSdp OfferAnswerEngine ChatTypes ChatExamples ErrorInfo SipTypes CallOpTypes CallOp.

#[export] Existing Instances ref_lib ref_sdp ref_ortp.

Definition no_split (s : string) (c : ascii) : list string := [s].

Definition request (method : string) (headers : list Header) (body : option string) : Message :=
  mkMessage method 0 None (Some bob) "call" 20 headers body.
Definition response (method : string) (code : Z) (headers : list Header) (body : option string) : Message :=
  mkMessage method code (Some "phrase"%string) None "call" 20 headers body.

(** What was sent or received on a transaction. *)
Fixpoint request_of (h : list SipEvent) (t : nat) : Message :=
  match h with
  | SendRequest u _ m :: h' | Received u m :: h' => if Nat.eqb t u then m else request_of h' t
  | _ :: h' => request_of h' t
  | [] => request "" [] None
  end.

Definition example_settings : SalSettings := {|
  mSessionExpiresEnabled := true; mSessionExpiresValue := 600; mSessionExpiresMin := 90;
  mSessionExpiresRefresher := RefresherUAS; mEnableSipUpdate := true; mSupportedTags := Some ["replaces"%string];
  mNoInitialRoute := false; mSupportedContentTypes := []; mUserAgent := "agent"; mediaDisabled := false;
  mOfferAnswerEngine := default_engine; mDefaultSdpHandling := SdpNormal; has_vfu_request := true;
|}.

(** No other operation is of interest. *)
Definition example_other : OtherOp := {|
  oo_dialog := Some DialogConfirmed; oo_target := carol; oo_replaces_value := "call;to-tag=a;from-tag=b";
  oo_last_response := None; oo_replaces := None; oo_referredBy := None;
|}.

(** [dialogs] gives the states of dialogs, [transactions] those of transactions,
    [pending] whether a request is pending, [acks] whether acknowledgements can be
    made; every session description that is read is [offer]. *)
Definition example_stack (dialogs : SipWorld -> nat -> DialogState) (transactions : nat -> TransactionState)
    (pending acks : bool) (offer : option belle_sdp_session_description)
    (reaction : SipWorld -> SipEvent -> list Entry) : SipStack := {|
  settings := fun _ => example_settings;
  dialog_state := dialogs; dialog_previous_state := dialogs; dialog_aborted_no_ack := fun _ _ => false;
  dialog_request_pending := fun _ _ => pending; dialog_last_transaction := fun _ _ => None;
  dialog_can_create := fun _ _ _ => negb pending;
  dialog_create_request := fun _ _ method => if pending then None else Some (request method [] None);
  dialog_create_queued_request := fun _ _ method => Some (request method [] None);
  dialog_create_request_from := fun _ _ m => Some m;
  dialog_create_queued_request_from := fun _ _ m => Some m;
  dialog_create_ack := fun _ _ _ => if acks then Some (request "ACK" [] None) else None;
  dialog_local_seq := fun _ _ => 20; dialog_local_party := fun _ _ => alice;
  provider_create_dialog := fun _ _ => Some 100%nat;
  transaction_state := fun _ t => transactions t;
  transaction_transient := fun _ t => bool_decide (transactions t <> TrTerminated);
  transaction_request := fun w t => request_of (sip_history w) t; transaction_response := fun _ _ => None;
  transaction_is_incoming_invite := fun _ _ => false;
  create_cancel := fun _ t =>
    if bool_decide (transactions t = TrProceeding) then Some (request "CANCEL" [] None) else None;
  send_result := fun _ _ _ => 0;
  uri_transport := fun _ => None; uri_is_secure := fun _ => false; uri_with_transport := fun _ a => a;
  listening_point := fun _ _ => true; udp_is_tunnel := fun _ => false; uri_with_secure := fun _ a => a;
  uri_with_lr := fun a => a; uri_without_port_and_transport := fun a => a; address_with_uri := fun _ uri => uri;
  address_domain := fun a => a; address_scheme := fun _ => "sip"%string;
  uri_parse := fun s => Some s; anonymous_address := "anonymous"%string; to_is_usable := fun _ => true;
  create_response := fun _ m code => response (msg_method m) code [] None;
  new_call_id := fun _ => "id"%string; add_authorization := fun _ _ _ => None;
  parse_sipfrag := fun _ => None; parse_response := fun _ => None; parse_replaces := fun _ => None;
  parse_sdp := fun _ => offer; print_sdp := fun _ => "sdp"%string;
  contentListToMultipart := fun l => hd empty_content l; multipartToContentList := fun c => [c];
  is_ipv6_text := fun _ => false; warning_text := fun _ _ => EmptyString; other_op := fun _ _ => example_other;
  redirect_result := fun _ => 0; sip_react := reaction; sip_fatal_aborts := true;
|}.

Definition quiet : SipWorld -> SipEvent -> list Entry := fun _ _ => [].

(** The states of every dialog and of every transaction. *)
Definition simple_stack (d : DialogState) (t : TransactionState) : SipStack :=
  example_stack (fun _ _ => d) (fun _ => t) false true None quiet.

(** An operation of a call between [alice] and [bob]. *)
Definition example_op (dir : OpDir) (st : OpState) : SalCallOp :=
  (SalCallOp_create SdpNormal false) <| mDir := dir |> <| mState := st |>
    <| mFromAddress := Some alice |> <| mToAddress := Some bob |>.
