(* ===== verification/CallOpReferences.v ===== *)
(** * The references to a call operation

    [mRef] counts who holds the operation: the core until it releases it, the
    dialog, every transaction that has not ended, every timer of a retry, and the
    references that are never given back because a call could not be acknowledged.
    It is never given back too often, and the operation is destroyed when nobody
    holds it, whatever belle-sip, the core and the main loop do, as long as the
    end of a transaction is said by the main loop and not from within a call. *)
From S2P Require Import Prelude Effects LpConfigValues SalTypes Payload SalMediaDescription SdpObjects SalSdp StreamSdpReader MediaSdp OfferAnswerEngine ChatTypes ErrorInfo SipTypes CallOpTypes CallOp CallOpRules ChatExamples CallOpExamples.

Section References.
Context `{AddressLib} {lib : MediaLib} {sdp : SdpLib} {ortp : OrtpRtcp} `{!SipStack}.
Variable split : string -> ascii -> list string.

(** ** Who holds the operation *)

Definition holds_reference (s : Source) : bool := match s with ReleaseLater => false | _ => true end.
Definition is_no_ack (e : SipEvent) : bool := match e with NoAck => true | _ => false end.

Definition timers_held (w : SipWorld) : nat := length (List.filter (fun s => holds_reference s.2) (sources w)).
Definition unacknowledged (w : SipWorld) : nat := length (List.filter is_no_ack (sip_history w)).

Definition owners (w : SipWorld) : Z :=
  (if mOpReleased (sal_op w) then 0 else 1)
  + Z.of_nat (length (dialog_links w) + length (tr_links w) + timers_held w + unacknowledged w).

Lemma owners_nonneg w : 0 <= owners w.
Proof. unfold owners. destruct (mOpReleased (sal_op w)); lia. Qed.

Definition unharmed (w : SipWorld) : Prop := ~ In SipFatal (sip_history w).

(** [k] references are held by the functions that run; [ts] are transactions the
    operation is linked with. *)
Record At (k : Z) (ts : list nat) (ds : list nat) (od : option nat) (w : SipWorld) : Prop := {
  at_refs : mRef (sal_op w) = owners w + k;
  at_freed : freed w = bool_decide (mRef (sal_op w) = 0);
  at_unharmed : unharmed w;
  at_transactions : incl ts (tr_links w);
  at_dialogs : dialog_links w = ds;
  at_dialog : mDialog (sal_op w) = od;
}.

Definition Held (k : Z) (ts : list nat) (w : SipWorld) : Prop := exists od, At k ts (option_list od) od w.

#[local] Notation "'{{' P '}}' m '{{' Q '}}'" := (triple unharmed P m Q) (at level 20, P at level 200, m at level 100, Q at level 200).

Definition Balanced (A : Type) (m : Sip A) : Prop :=
  forall k ts, 0 <= k -> {{ Held k ts }} m {{ fun _ => Held k ts }}.

(** ** The primitives *)

Lemma at_gets {A} (f : SalCallOp -> A) k ts ds od :
  {{ At k ts ds od }} gets f {{ fun a w => At k ts ds od w /\ a = f (sal_op w) }}.
Proof. intros w Hw. unfold gets. destruct (freed w); [apply Hw|done]. Qed.

(** Writing members that say nothing of references. *)
Lemma at_modify f k ts ds od : guarded f -> {{ At k ts ds od }} modify f {{ fun _ => At k ts ds od }}.
Proof.
  intros Hf w Hw. unfold modify. destruct (freed w) eqn:E; [apply Hw|]. destruct Hw as [H1 H2 H3 H4 H5 H6].
  destruct (Hf (sal_op w)) as (Ha & Hb & Hc & Hd).
  constructor; cbn; unfold unharmed, owners, timers_held, unacknowledged in *; cbn;
    rewrite ?Ha, ?Hb, ?Hc; try assumption; congruence.
Qed.

Lemma at_op_ref k ts ds od : 0 <= k -> {{ At k ts ds od }} op_ref {{ fun _ => At (k + 1) ts ds od }}.
Proof.
  intros Hk w Hw. unfold op_ref, modify. destruct (freed w) eqn:E; [apply Hw|]. destruct Hw as [H1 H2 H3 H4 H5 H6].
  rewrite E in H2. symmetry in H2. apply bool_decide_eq_false in H2.
  pose proof (owners_nonneg w).
  constructor; cbn; unfold unharmed, owners, timers_held, unacknowledged in *; cbn; try assumption; [lia|].
  rewrite E. symmetry. apply bool_decide_eq_false. lia.
Qed.

(** Giving back a reference that is held by a function or by a transaction. *)
Lemma at_op_unref k ts ds od : 1 <= k \/ (0 <= k /\ ts <> []) ->
  {{ At k ts ds od }} op_unref {{ fun _ => At (k - 1) ts ds od }}.
Proof.
  intros Hk w Hw. unfold op_unref, modify, gets, destroy, sip_fatal, record_sip. unfold_Eff.
  destruct (freed w) eqn:E; [apply Hw|]. cbn. rewrite E. cbn. destruct Hw as [H1 H2 H3 H4 H5 H6].
  assert (Ho : 0 <= owners w + k - 1).
  { pose proof (owners_nonneg w). destruct Hk as [Hk|[Hk Hts]]; [lia|].
    unfold owners. destruct ts as [|t ts]; [done|]. assert (Hin : In t (tr_links w)) by (apply H4; left; reflexivity).
    destruct (tr_links w); [done|]. cbn [length]. destruct (mOpReleased (sal_op w)); lia. }
  destruct (mRef (sal_op w) - 1 =? 0) eqn:Hz.
  - apply Z.eqb_eq in Hz.
    constructor; cbn; unfold unharmed, owners, timers_held, unacknowledged in *; cbn; try assumption; [lia| |].
    + symmetry. apply bool_decide_eq_true. lia.
    + intros [Hc|Hc]; [discriminate Hc|exact (H3 Hc)].
  - apply Z.eqb_neq in Hz. replace (mRef (sal_op w) - 1 <? 0) with false by (symmetry; apply Z.ltb_ge; lia).
    constructor; cbn; unfold unharmed, owners, timers_held, unacknowledged in *; cbn; try assumption; [lia|].
    symmetry. by apply bool_decide_eq_false.
Qed.

(** Links, with the reference each goes with. *)
Ltac at_link :=
  intros w []; constructor; cbn; unfold unharmed, owners, timers_held, unacknowledged in *; cbn in *;
  repeat match goal with H : dialog_links _ = _ |- _ => rewrite H in *; cbn [length remove_first] in * end;
  try assumption; try congruence; try lia.

Lemma at_unlink_dialog k ts d od : {{ At k ts [d] od }} unlink_dialog d {{ fun _ => At (k + 1) ts [] od }}.
Proof. at_link. all: rewrite Nat.eqb_refl; cbn; first [reflexivity|lia]. Qed.
Lemma at_link_dialog k ts d od : {{ At k ts [] od }} link_dialog d {{ fun _ => At (k - 1) ts [d] od }}.
Proof. at_link. Qed.
Lemma at_set_dialog k ts ds od od' :
  {{ At k ts ds od }} modify (fun o => o <| mDialog := od' |>) {{ fun _ => At k ts ds od' }}.
Proof. intros w Hw. unfold modify. destruct (freed w); [apply Hw|]. revert w Hw. at_link. Qed.
Lemma at_link_transaction k ts ds od t :
  {{ At k ts ds od }} link_transaction t {{ fun _ => At (k - 1) ts ds od }}.
Proof. at_link. intros x Hx. right. auto. Qed.

Lemma held_of {A} k ts k' ts' (m : Sip A) :
  (forall od, {{ At k ts (option_list od) od }} m {{ fun _ => At k' ts' (option_list od) od }}) ->
  {{ Held k ts }} m {{ fun _ => Held k' ts' }}.
Proof.
  intros Hm w [od Hw]. specialize (Hm od w Hw). destruct (m w); [by exists od|exact Hm].
Qed.

Lemma held_from {A} k ts (m : Sip A) Q :
  (forall od, {{ At k ts (option_list od) od }} m {{ Q }}) -> {{ Held k ts }} m {{ Q }}.
Proof. intros Hm w [od Hw]. exact (Hm od w Hw). Qed.

Lemma at_held {A} P k ts od (m : Sip A) :
  {{ P }} m {{ fun _ => At k ts (option_list od) od }} -> {{ P }} m {{ fun _ => Held k ts }}.
Proof. intros Hm w Hw. specialize (Hm w Hw). destruct (m w); [by exists od|exact Hm]. Qed.

Lemma held_op_ref k ts : 0 <= k -> {{ Held k ts }} op_ref {{ fun _ => Held (k + 1) ts }}.
Proof. intros Hk. apply held_of. intros od. by apply at_op_ref. Qed.

Lemma held_op_unref k ts : 1 <= k \/ (0 <= k /\ ts <> []) -> {{ Held k ts }} op_unref {{ fun _ => Held (k - 1) ts }}.
Proof. intros Hk. apply held_of. intros od. by apply at_op_unref. Qed.

(** A step of a program, and the assertion it leaves. *)
Ltac step rule := eapply triple_bind; [apply rule|cbn beta; intros ?].

Lemma held_weaken k k' ts A (m : Sip A) Q : k' = k -> {{ Held k ts }} m {{ Q }} -> {{ Held k' ts }} m {{ Q }}.
Proof. by intros ->. Qed.

Lemma post_weaken {A} P k k' ts (m : Sip A) :
  k' = k -> {{ P }} m {{ fun _ => Held k ts }} -> {{ P }} m {{ fun _ => Held k' ts }}.
Proof. by intros ->. Qed.

Lemma at_post {A} P k k' ts ds od (m : Sip A) :
  k' = k -> {{ P }} m {{ fun _ => At k ts ds od }} -> {{ P }} m {{ fun _ => At k' ts ds od }}.
Proof. by intros ->. Qed.

Lemma at_linkOpWithDialog k ts d od : 0 <= k ->
  {{ At k ts [] od }} linkOpWithDialog d {{ fun _ => At k ts [d] od }}.
Proof.
  intros Hk. unfold linkOpWithDialog. step at_op_ref; [exact Hk|].
  apply (at_post _ (k + 1 - 1)); [lia|]. apply at_link_dialog.
Qed.

Lemma at_unlinkOpFromDialog k ts d od : 0 <= k ->
  {{ At k ts [d] od }} unlinkOpFromDialog d {{ fun _ => At k ts [] od }}.
Proof.
  intros Hk. unfold unlinkOpFromDialog. step at_unlink_dialog.
  apply (at_post _ (k + 1 - 1)); [lia|]. apply at_op_unref. lia.
Qed.

Lemma balanced_setOrUpdateDialog d : Balanced _ (setOrUpdateDialog d).
Proof.
  intros k ts Hk. apply held_from. intros od. unfold setOrUpdateDialog.
  step at_op_ref; [exact Hk|]. step (at_gets (A := option nat)).
  intros w [Hw ->]. rewrite (at_dialog _ _ _ _ _ Hw). revert w Hw.
  eapply (triple_bind _ _ (fun _ => Held (k + 1) ts)).
  - destruct (bool_decide (od = d)) eqn:E; cbn [negb]; [eapply at_held, triple_ret|].
    eapply (triple_bind _ _ (fun _ => At (k + 1) ts [] None)).
    + destruct od as [o|]; cbn [option_list]; [|apply triple_ret].
      step at_unlinkOpFromDialog; [lia|]. apply at_set_dialog.
    + intros _. destruct d as [d|]; [|by apply (at_held _ _ _ None), triple_ret].
      step at_linkOpWithDialog; [lia|]. apply (at_held _ _ _ (Some d)). apply at_set_dialog.
  - intros _. apply (post_weaken _ (k + 1 - 1)); [lia|]. apply held_op_unref. lia.
Qed.

Lemma balanced_take_transaction t : Balanced _ (take_transaction t).
Proof.
  intros k ts Hk. apply held_of. intros od. unfold take_transaction. step at_op_ref; [exact Hk|].
  apply (at_post _ (k + 1 - 1)); [lia|]. apply at_link_transaction.
Qed.

Lemma at_add_source k ts ds od i s :
  {{ At k ts ds od }} add_source i s {{ fun _ => At (k - (if holds_reference s then 1 else 0)) ts ds od }}.
Proof. at_link. all: destruct s; cbn; try assumption; lia. Qed.

Lemma at_fresh_id k ts ds od : {{ At k ts ds od }} fresh_id {{ fun _ => At k ts ds od }}.
Proof. at_link. Qed.

Lemma balanced_add_timer s : s <> ReleaseLater -> Balanced _ (add_timer s).
Proof.
  intros Hs k ts Hk. apply held_of. intros od. unfold add_timer. step at_op_ref; [exact Hk|].
  step at_fresh_id. eapply at_post, at_add_source. destruct s; cbn; [lia|lia|done].
Qed.

Lemma balanced_release_later i : Balanced _ (add_source i ReleaseLater).
Proof.
  intros k ts Hk. apply held_of. intros od. eapply at_post, at_add_source. cbn. lia.
Qed.

Lemma at_set_released k ts ds od :
  {{ fun w => At k ts ds od w /\ mOpReleased (sal_op w) = false }}
  modify (fun o => o <| mUserPointer := false |> <| mOpReleased := true |>)
  {{ fun _ => At (k + 1) ts ds od }}.
Proof.
  intros w [Hw Hr]. unfold modify. destruct (freed w) eqn:E; [apply Hw|]. destruct Hw as [H1 H2 H3 H4 H5 H6].
  constructor; cbn; unfold unharmed, owners, timers_held, unacknowledged in *; cbn; try assumption.
  rewrite Hr in H1. lia.
Qed.

Lemma balanced_release : Balanced _ release.
Proof.
  intros k ts Hk. apply held_of. intros od. unfold release. step (at_gets (A := bool)).
  destruct a; cbn [negb]; [intros w [Hw _]; exact Hw|].
  eapply (triple_bind _ _ (fun _ w => At k ts (option_list od) od w /\ mOpReleased (sal_op w) = false)).
  - intros w [Hw Hr].
    pose proof (at_modify (fun o => if opstate_eqb (CallOpTypes.mState o) OpTerminating then o else o <| CallOpTypes.mState := OpTerminated |>)
                  k ts _ od ltac:(guarded) w Hw) as Hm.
    unfold modify in *. destruct (freed w); [exact Hm|]. split; [exact Hm|]. cbn. by case_match.
  - intros _. step at_set_released. apply (at_post _ (k + 1 - 1)); [lia|]. apply at_op_unref. lia.
Qed.

(** Changes that say nothing of references. *)
Definition idle (f : SipWorld -> SipWorld) : Prop :=
  forall w, mRef (sal_op (f w)) = mRef (sal_op w) /\ mDialog (sal_op (f w)) = mDialog (sal_op w)
    /\ owners (f w) = owners w /\ freed (f w) = freed w /\ tr_links (f w) = tr_links w
    /\ dialog_links (f w) = dialog_links w /\ (unharmed w -> unharmed (f w)).

Lemma at_idle f k ts ds od w : idle f -> At k ts ds od w -> At k ts ds od (f w).
Proof.
  intros Hf [H1 H2 H3 H4 H5 H6]. destruct (Hf w) as (Ha & Hb & Hc & Hd & He & Hg & Hi).
  constructor; rewrite ?Ha, ?Hb, ?Hc, ?Hd, ?He, ?Hg; auto.
Qed.

Lemma balanced_idle {A} (m : Sip A) f a : idle f -> (forall w, m w = Finished (a w) (f w)) -> Balanced _ m.
Proof.
  intros Hf Hm k ts _. apply held_of. intros od w Hw. rewrite Hm. by apply at_idle.
Qed.

Ltac idle := intros ?; cbn; unfold owners, timers_held, unacknowledged, unharmed; cbn;
  repeat split; try reflexivity; try done; try (intros Hi [Hc|Hc]; [discriminate Hc|exact (Hi Hc)]).

Lemma balanced_with_reference m : Balanced bool m -> Balanced _ (with_reference m).
Proof.
  intros Hm k ts Hk. unfold with_reference. step held_op_ref; [exact Hk|].
  step Hm; [lia|]. destruct a0.
  - apply (post_weaken _ (k + 1 - 1)); [lia|]. apply held_op_unref. lia.
  - apply held_of. intros od. unfold log_line, record_sip. at_link.
    intros [Hc|Hc]; [discriminate Hc|tauto].
Qed.

Definition reference_of (s : option Source) : Z :=
  match s with Some s => if holds_reference s then 1 else 0 | None => 0 end.

Lemma remove_source_held i l :
  match remove_source i l with
  | Some (s, l') =>
      length (List.filter (fun s => holds_reference s.2) l)
      = (length (List.filter (fun s => holds_reference s.2) l') + (if holds_reference s then 1 else 0))%nat
  | None => True
  end.
Proof.
  induction l as [|[j s] l IH]; [done|]. cbn [remove_source List.filter snd].
  destruct (Nat.eqb i j); [destruct (holds_reference s); cbn; lia|].
  destruct (remove_source i l) as [[s' l']|]; [|done]. cbn [List.filter snd].
  destruct (holds_reference s); cbn; lia.
Qed.

Lemma held_take_source k ts i :
  {{ Held k ts }} take_source i {{ fun r => Held (k + reference_of r) ts }}.
Proof.
  apply held_from. intros od w Hw. unfold take_source. pose proof (remove_source_held i (sources w)) as Hr.
  destruct (remove_source i (sources w)) as [[s l]|]; exists od.
  - revert Hw. generalize (option_list od). intros ds []. constructor; cbn;
      unfold unharmed, owners, timers_held, unacknowledged in *; cbn in *; try assumption.
    destruct (holds_reference s); lia.
  - cbn. rewrite Z.add_0_r. exact Hw.
Qed.

Lemma remove_first_length t l : In t l -> length l = S (length (remove_first t l)).
Proof.
  induction l as [|x l IH]; [done|]. intros Hin. cbn. destruct (Nat.eqb t x) eqn:E; [done|].
  cbn. f_equal. apply IH. destruct Hin as [->|]; [by rewrite Nat.eqb_refl in E|done].
Qed.

Lemma held_unlink_transaction k t :
  {{ Held k [t] }} unlink_transaction t {{ fun _ => Held (k + 1) [] }}.
Proof.
  apply held_of. intros od. generalize (option_list od). intros ds w [].
  constructor; cbn; unfold unharmed, owners, timers_held, unacknowledged in *; cbn; try assumption.
  - assert (Hin : In t (tr_links w)) by (apply at_transactions0; left; reflexivity).
    pose proof (remove_first_length t _ Hin). lia.
  - intros x [].
Qed.

(** ** Every operation *)

Section Raise.
Variable raise : SipEvent -> Sip unit.
Hypothesis raise_balanced : forall e, match e with SipFatal | NoAck => False | _ => True end -> Balanced _ (raise e).

Lemma balanced_bind A B (m : Sip A) (k : A -> Sip B) :
  Balanced _ m -> (forall a, Balanced _ (k a)) -> Balanced _ (m ≫= k).
Proof. intros Hm Hk n ts Hn. eapply triple_bind; [by apply Hm|]. intros a. by apply Hk. Qed.

Lemma balanced_gets A (f : SalCallOp -> A) : Balanced _ (gets f).
Proof. intros k ts _ w [od Hw]. pose proof (at_gets f k ts _ _ w Hw) as Hg. destruct (gets f w); [exists od; apply Hg|exact Hg]. Qed.

Lemma balanced_modify f : guarded f -> Balanced _ (modify f).
Proof. intros Hf k ts _. apply held_of. intros od. by apply at_modify. Qed.

(** Writing that the call is released. *)
Lemma balanced_call_released : Balanced _ (modify (fun o => o <| mCallReleased := true |>)).
Proof.
  intros k ts _. apply held_of. intros od. generalize (option_list od). intros ds w Hw.
  unfold modify. destruct (freed w) eqn:E; [apply Hw|].
  destruct Hw. constructor; cbn; unfold unharmed, owners, timers_held, unacknowledged in *; cbn; try assumption; congruence.
Qed.

Lemma balanced_setReleased : Balanced _ (setReleased raise).
Proof.
  unfold setReleased. apply balanced_bind; [apply balanced_gets|]. intros []; cbn [negb]; [intros ? ? _; apply triple_ret|].
  apply balanced_bind; [|intros _; apply balanced_bind; [|intros _; apply balanced_bind; [|intros _]]].
  - apply balanced_modify. guarded.
  - by apply (raise_balanced (Callback _)).
  - apply balanced_call_released.
  - apply balanced_setOrUpdateDialog.
Qed.

Lemma balanced_fire i :
  Balanced _ (runRetryFunc raise) -> Balanced _ (sendVfuRequest raise) ->
  (forall b delta, Balanced _ (update raise "Session Refresh" b (negb b) delta)) -> Balanced _ (fire raise i).
Proof.
  intros Hretry Hvfu Hupdate k ts Hk. unfold fire. step held_take_source. destruct a as [[]|]; cbn [reference_of holds_reference].
  - step Hretry; [lia|]. destruct a.
    + apply (post_weaken _ (k + 1 - 1)); [lia|]. apply held_op_unref. lia.
    + apply held_of. intros od. eapply at_post, at_add_source. cbn. lia.
  - step Hvfu; [lia|]. apply (post_weaken _ (k + 1 - 1)); [lia|]. apply held_op_unref. lia.
  - apply (held_weaken k); [lia|]. by apply balanced_setReleased.
  - apply (held_weaken k); [lia|]. apply balanced_bind; [intros ? ? _ w Hw; exact Hw| |exact Hk].
    intros [[j [[b delta] period]]|]; [|intros ? ? _; apply triple_ret].
    apply balanced_bind; [by apply (raise_balanced (Callback _))|intros _].
    apply balanced_bind; [apply Hupdate|]. intros _ ? ? _. apply triple_ret.
Qed.

#[export] Instance balanced_kept : Kept raise Balanced.
Proof.
  split.
  - intros A a k ts _. apply triple_ret.
  - apply balanced_bind.
  - apply balanced_gets.
  - intros A f k ts _ w Hw. exact Hw.
  - intros A why _ k ts _ w [od Hw]. apply Hw.
  - apply balanced_modify.
  - intros tr m. eapply (balanced_idle _ _ (fun _ => tt)); [|reflexivity]. idle.
  - eapply (balanced_idle _ (fun w => w <| nextId := S (nextId w) |>)); [|reflexivity]. idle.
  - intros e He. apply raise_balanced. by destruct e.
  - intros d m. eapply (balanced_idle _ _ (fun _ => tt)); [|reflexivity]. idle.
  - intros i. eapply (balanced_idle _ _ (fun _ => tt)); [|reflexivity]. idle.
  - intros i c delta period. eapply (balanced_idle _ _ (fun _ => tt)); [|reflexivity]. idle.
  - apply balanced_take_transaction.
  - apply balanced_add_timer.
  - apply balanced_release_later.
  - apply balanced_setOrUpdateDialog.
  - apply balanced_release.
  - apply balanced_setReleased.
  - apply balanced_with_reference.
  - apply balanced_fire.
Qed.
End Raise.

(** ** Programs *)

(** What is assumed of belle-sip: it says that a transaction is over from its main
    loop only, and not from within a message that is sent or a callback, which
    [hasty_termination_destroys] shows to be needed. *)
Hypothesis ended_by_the_main_loop : forall w e c, In c (sip_react w e) -> nestable c = true.

Lemma balanced_record e : e <> SipFatal -> e <> NoAck -> idle (record_sip e).
Proof.
  intros Hf Hn w. cbn. unfold owners, timers_held, unacknowledged, unharmed. cbn.
  repeat split; try reflexivity.
  - by destruct e.
  - intros Hi [Hc|Hc]; [exact (Hf Hc)|exact (Hi Hc)].
Qed.

Lemma balanced_perform fuel : forall e, match e with SipFatal | NoAck => False | _ => True end ->
  Balanced _ (sip_perform split fuel e).
Proof.
  induction fuel as [|fuel IH]; intros e He k ts Hk w Hw; unfold sip_perform; cbn [nest];
    (assert (Hr : Held k ts (record_sip e w))
       by (destruct Hw as [od Hw]; exists od; apply at_idle; [apply balanced_record; by destruct e|exact Hw]));
    destruct (sip_react (record_sip e w) e) as [|c calls] eqn:E; try exact Hr.
  - destruct Hr as [od Hr]. apply Hr.
  - apply (triple_for_each unharmed (c :: calls) (Held k ts)); [|exact Hr].
    intros x Hx. pose proof (balanced_kept (sip_perform split fuel) IH) as Hkept.
    apply (kept_entry split (sip_perform split fuel) Balanced); [|exact Hk].
    eapply ended_by_the_main_loop. rewrite E. by apply list_elem_of_In.
Qed.

(** A transaction that has ended gives its reference back. *)
Lemma held_transaction_terminated fuel t server :
  {{ Held 0 [] }} Sal_processTransactionTerminatedCb (sip_perform split fuel) t server {{ fun _ => Held 0 [] }}.
Proof.
  unfold Sal_processTransactionTerminatedCb. eapply triple_bind; [apply triple_asks|]. cbn beta. intros found w [Hw ->].
  destruct (bool_decide (t ∈ tr_links w)) eqn:Hin; [|exact Hw]. apply bool_decide_eq_true in Hin.
  assert (Ht : Held 0 [t] w).
  { destruct Hw as [od []]. exists od. constructor; try assumption. intros x [<-|[]]. by apply list_elem_of_In. }
  revert w Hw Hin Ht. enough (Hall : {{ Held 0 [t] }} processTransactionTerminatedCb (sip_perform split fuel) t server ;;
    op_unref ;; unlink_transaction t {{ fun _ => Held 0 [] }}) by (intros w _ _ Ht; exact (Hall w Ht)).
  pose proof (balanced_kept (sip_perform split fuel) (balanced_perform fuel)) as Hkept.
  step (kept_processTransactionTerminatedCb (sip_perform split fuel) Balanced); [lia|].
  step held_op_unref; [right; split; [lia|discriminate]|].
  apply (post_weaken _ (0 - 1 + 1)); [lia|]. apply held_unlink_transaction.
Qed.

Lemma held_run fuel es : {{ Held 0 [] }} run_sip split fuel es {{ fun _ => Held 0 [] }}.
Proof.
  apply triple_for_each. intros e _.
  destruct (nestable e) eqn:He; [|destruct e; try discriminate He; apply held_transaction_terminated].
  pose proof (balanced_kept (sip_perform split fuel) (balanced_perform fuel)) as Hkept.
  by apply (kept_entry split (sip_perform split fuel) Balanced).
Qed.

Lemma held_new handling negotiation : Held 0 [] (new_world (SalCallOp_create handling negotiation)).
Proof. exists None. constructor; cbn; try reflexivity; [intros []|intros x []]. Qed.

Lemma held_life fuel invite es : {{ Held 0 [] }} life split fuel invite es {{ fun _ => Held 0 [] }}.
Proof.
  unfold life. eapply (triple_bind _ _ (fun _ => Held 0 [])); [|intros _; apply held_run].
  destruct invite as [invite|]; [|apply triple_ret].
  pose proof (balanced_kept (sip_perform split fuel) (balanced_perform fuel)) as Hkept.
  by apply (kept_incoming_invite split (sip_perform split fuel) Balanced).
Qed.

End References.

(** A call that is made, answered and ended, then released: nobody holds it. *)
Definition ordinary_call : list Entry :=
  [OpCall (Some alice) (Some bob) "";
   SipResponse (Some 0%nat) (Some 7%nat) (response "INVITE" 200 [] None);
   SipTransactionTerminated 0 false; OpTerminate None; OpRelease;
   SipTransactionTerminated 2 false; SipDialogTerminated 7; Fire 3].

(** Whether an operation was freed at the end of its life. *)
Definition ends_freed (r : Outcome SipWorld unit) : bool :=
  match r with Finished _ w => freed w | Stopped _ _ => false end.


(** ** What is assumed of belle-sip *)

(** A stack that says that a transaction is over a second time, from within the
    callback of the failure of the call. *)
Definition hasty_stack : SipStack :=
  example_stack (fun _ _ => DialogEarly) (fun _ => TrProceeding) false true None
    (fun _ e => match e with Callback Call_failure => [SipTransactionTerminated 0 false] | _ => [] end).

(** The assumption [ended_by_the_main_loop] is needed: with that stack a call that
    fails is destroyed although the core has not released it. *)
Lemma hasty_termination_destroys :
  match life (H0 := hasty_stack) no_split 3 None [OpCall (Some alice) (Some bob) ""; SipTransactionTerminated 0 false]
          (new_world (SalCallOp_create SdpNormal false)) with
  | Finished _ w => mRef (sal_op w) = 0 /\ freed w = true /\ mOpReleased (sal_op w) = false
  | Stopped _ w => False
  end.
Proof. vm_compute. repeat split; reflexivity. Qed.
