(* ===== verification/CallOpReleased.v ===== *)
(** * The end of a call operation is told once

    [call_released] is the last thing the core hears of a call. *)
From S2P Require Import Prelude Effects LpConfigValues SalTypes Payload SalMediaDescription SdpObjects SalSdp StreamSdpReader MediaSdp OfferAnswerEngine ChatTypes ErrorInfo SipTypes CallOpTypes CallOp CallOpRules ChatExamples CallOpExamples.

Create HintDb told.

Section Released.
Context `{AddressLib} {lib : MediaLib} {sdp : SdpLib} {ortp : OrtpRtcp} `{!SipStack}.
Variable split : string -> ascii -> list string.

Definition is_released (e : SipEvent) : bool := match e with Callback Call_released => true | _ => false end.

(** How often the end of the call was told. *)
Definition releases (w : SipWorld) : nat := length (List.filter is_released (sip_history w)).

Definition at_most_once (w : SipWorld) : Prop := (releases w <= 1)%nat.
Definition Told (w : SipWorld) : Prop := releases w = if mCallReleased (sal_op w) then 1%nat else 0%nat.

#[local] Notation "'{{' P '}}' m '{{' Q '}}'" := (triple at_most_once P m Q) (at level 20, P at level 200, m at level 100, Q at level 200).

(** What tells nothing, and what tells it as it should. *)
Definition Steady (A : Type) (m : Sip A) : Prop :=
  forall n b, (n <= 1)%nat -> {{ fun w => releases w = n /\ mCallReleased (sal_op w) = b }} m
    {{ fun _ w => releases w = n /\ mCallReleased (sal_op w) = b }}.
Definition Silent (A : Type) (m : Sip A) : Prop := {{ Told }} m {{ fun _ => Told }}.

Lemma steady_silent {A} (m : Sip A) : Steady _ m -> Silent _ m.
Proof.
  intros Hm w Hw.
  assert (Hn : (releases w <= 1)%nat) by (rewrite Hw; destruct (mCallReleased (sal_op w)); lia).
  pose proof (Hm (releases w) (mCallReleased (sal_op w)) Hn w (conj eq_refl eq_refl)) as Hr.
  destruct (m w) as [a w'|]; [|exact Hr]. destruct Hr as [Hr Hb]. unfold Told. by rewrite Hr, Hb.
Qed.

Lemma told_once w : Told w -> at_most_once w.
Proof. unfold Told, at_most_once. destruct (mCallReleased (sal_op w)); lia. Qed.

Lemma silent_bind A B (m : Sip A) (k : A -> Sip B) : Silent _ m -> (forall a, Silent _ (k a)) -> Silent _ (m ≫= k).
Proof. apply triple_bind. Qed.

Lemma steady_bind A B (m : Sip A) (k : A -> Sip B) : Steady _ m -> (forall a, Steady _ (k a)) -> Steady _ (m ≫= k).
Proof. intros Hm Hk n b Hn. eapply triple_bind; [by apply Hm|]. intros a. by apply Hk. Qed.

Lemma steady_ret A (a : A) : Steady _ (mret a).
Proof. intros n b _. apply triple_ret. Qed.

(** Whatever neither tells the end of the call nor writes that it was told. *)
Lemma steady_change {A} (m : Sip A) f a :
  (forall w, m w = Finished (a w) (f w) \/ exists why, m w = Stopped why w) ->
  (forall w, releases (f w) = releases w /\ mCallReleased (sal_op (f w)) = mCallReleased (sal_op w)) -> Steady _ m.
Proof.
  intros Hm Hf n b Hn w [Hr Hb]. destruct (Hm w) as [->|[why ->]]; [|unfold at_most_once; lia].
  destruct (Hf w) as [-> ->]. done.
Qed.

Lemma steady_gets A (f : SalCallOp -> A) : Steady _ (gets f).
Proof.
  apply (steady_change _ (fun w => w) (fun w => f (sal_op w))); [|by intros w].
  intros w. unfold gets. destruct (freed w); eauto.
Qed.

Lemma steady_modify f : (forall o, mCallReleased (f o) = mCallReleased o) -> Steady _ (modify f).
Proof.
  intros Hf. apply (steady_change _ (fun w => w <| sal_op := f (sal_op w) |>) (fun _ => tt)).
  - intros w. unfold modify. destruct (freed w); eauto.
  - intros w. split; [done|apply Hf].
Qed.

Lemma steady_log e : is_released e = false -> Steady _ (log_line e).
Proof.
  intros He. apply (steady_change _ (record_sip e) (fun _ => tt)); [by left|].
  intros w. unfold releases. cbn. by rewrite He.
Qed.

Lemma steady_asks A (f : SipWorld -> A) : Steady _ (asks f).
Proof. by intros n b Hn w Hw. Qed.

Ltac steady_change := eapply (steady_change _ _ (fun _ => tt)); [by left|by intros w].

Lemma steady_add_source i s : Steady _ (add_source i s).
Proof. steady_change. Qed.
Lemma steady_link_transaction t : Steady _ (link_transaction t).
Proof. steady_change. Qed.
Lemma steady_unlink_transaction t : Steady _ (unlink_transaction t).
Proof. steady_change. Qed.
Lemma steady_link_dialog d : Steady _ (link_dialog d).
Proof. steady_change. Qed.
Lemma steady_unlink_dialog d : Steady _ (unlink_dialog d).
Proof. steady_change. Qed.
Lemma steady_fresh_id : Steady _ fresh_id.
Proof. eapply (steady_change _ _ nextId); [by left|by intros w]. Qed.
Lemma steady_op_ref : Steady _ op_ref.
Proof. by apply steady_modify. Qed.

Lemma steady_destroy : Steady _ destroy.
Proof. steady_change. Qed.
Lemma steady_sip_fatal : Steady _ sip_fatal.
Proof.
  intros n b Hn w [Hr Hb]. unfold sip_fatal. destruct sip_fatal_aborts; [|done].
  change (releases w <= 1)%nat. lia.
Qed.

Lemma steady_op_unref : Steady _ op_unref.
Proof.
  unfold op_unref. apply steady_bind; [by apply steady_modify|intros _].
  apply steady_bind; [apply steady_gets|intros r].
  destruct (r =? 0); [apply steady_destroy|]. destruct (r <? 0); [apply steady_sip_fatal|apply steady_ret].
Qed.

#[local] Hint Resolve steady_ret steady_gets steady_asks steady_add_source steady_link_transaction
  steady_unlink_transaction steady_link_dialog steady_unlink_dialog steady_fresh_id steady_op_ref steady_op_unref : told.
#[local] Hint Extern 1 (Steady _ (modify _)) => (apply steady_modify; by intros ?; cbn; repeat case_match) : told.
#[local] Hint Extern 1 (Steady _ (log_line _)) => (by apply steady_log) : told.

Ltac steadily :=
  repeat first
    [ progress intros
    | solve [auto 2 with told nocore]
    | simple apply steady_bind
    | case_match ].

Lemma steady_setOrUpdateDialog d : Steady _ (setOrUpdateDialog d).
Proof. unfold setOrUpdateDialog, linkOpWithDialog, unlinkOpFromDialog. steadily. Qed.
Lemma steady_release : Steady _ release.
Proof. unfold release. steadily. Qed.
Lemma steady_take_source i : Steady _ (take_source i).
Proof.
  intros n b Hn w Hw. unfold take_source. destruct (remove_source i (sources w)) as [[s l]|]; exact Hw.
Qed.
#[local] Hint Resolve steady_setOrUpdateDialog steady_release steady_take_source : told.

(** ** Everything else *)

Section Raise.
Variable raise : SipEvent -> Sip unit.
Hypothesis raise_silent : forall e, is_released e = false -> Silent _ (raise e).
Hypothesis raise_released :
  {{ fun w => releases w = 0%nat }} raise (Callback Call_released) {{ fun _ w => releases w = 1%nat }}.

Lemma silent_setReleased : Silent _ (setReleased raise).
Proof.
  unfold setReleased. intros w Hw.
  pose proof (steady_gets _ mCallReleased (releases w) (mCallReleased (sal_op w))) as Hg.
  unfold mbind at 1, Eff_bind at 1, gets at 1. destruct (freed w) eqn:Hf; [by apply told_once|].
  destruct (mCallReleased (sal_op w)) eqn:Hm; cbn [negb]; [exact Hw|].
  assert (Hr : releases w = 0%nat) by (unfold Told in Hw; by rewrite Hm in Hw).
  revert w Hw Hg Hf Hm Hr. intros w _ _ _ _ Hr. revert w Hr.
  eapply triple_bind; [|intros ?; eapply triple_bind; [apply raise_released|intros ?]].
  - intros w Hr. unfold modify. destruct (freed w); [unfold at_most_once; lia|exact Hr].
  - eapply (triple_bind _ _ (fun _ => Told)); [|intros _; apply steady_silent, steady_setOrUpdateDialog].
    intros w Hr. unfold modify. destruct (freed w); [unfold at_most_once; lia|exact Hr].
Qed.

Lemma silent_with_reference m : Silent bool m -> Silent _ (with_reference m).
Proof.
  intros Hm. unfold with_reference. apply silent_bind; [apply steady_silent, steady_op_ref|intros _].
  apply silent_bind; [exact Hm|]. intros []; apply steady_silent; [apply steady_op_unref|by apply steady_log].
Qed.

Lemma silent_fire i :
  Silent _ (runRetryFunc raise) -> Silent _ (sendVfuRequest raise) ->
  (forall b delta, Silent _ (update raise "Session Refresh" b (negb b) delta)) -> Silent _ (fire raise i).
Proof.
  intros Hretry Hvfu Hupdate. unfold fire.
  apply silent_bind; [apply steady_silent, steady_take_source|]. intros [[]|].
  - apply silent_bind; [exact Hretry|]. intros []; apply steady_silent; auto with told.
  - apply silent_bind; [exact Hvfu|]. intros _. apply steady_silent; auto with told.
  - apply silent_setReleased.
  - apply silent_bind; [apply steady_silent, steady_asks|]. intros [[j [[b delta] period]]|]; [|apply triple_ret].
    apply silent_bind; [by apply (raise_silent (Callback _))|intros _].
    apply silent_bind; [apply Hupdate|intros _; apply triple_ret].
Qed.

#[export] Instance silent_kept : Kept raise Silent.
Proof.
  split; try (intros; apply steady_silent; solve [auto 2 with told | steady_change]).
  - apply silent_bind.
  - intros A why _ w Hw. by apply told_once.
  - intros f Hf. apply steady_silent, steady_modify. intros o. apply Hf.
  - intros e He. apply raise_silent. by destruct e as [[]| | | | | | | | | | | |].
  - intros t. apply steady_silent. unfold take_transaction. steadily.
  - intros s _. apply steady_silent. unfold add_timer. steadily.
  - apply silent_setReleased.
  - apply silent_with_reference.
  - apply silent_fire.
Qed.

(** Every operation, also when a transaction is said to have ended. *)
Lemma silent_entry e : Silent _ (run_op_entry split raise e).
Proof.
  destruct (nestable e) eqn:He; [by apply (kept_entry split raise Silent)|].
  destruct e; try discriminate He.
  cbn [run_op_entry]. unfold Sal_processTransactionTerminatedCb.
  apply silent_bind; [apply (kept_op_of_transaction raise Silent)|]. intros []; [|apply triple_ret].
  apply silent_bind; [apply (kept_processTransactionTerminatedCb raise Silent)|intros _].
  apply silent_bind; [apply steady_silent, steady_op_unref|intros _; apply steady_silent; auto with told].
Qed.
End Raise.

(** ** Programs *)

(** What the core does of an operation once its call is released. *)
Definition gives_back (e : Entry) : bool :=
  match e with OpRelease | OpSetUserPointer _ => true | _ => false end.

Hypothesis released_is_last : forall w c, In c (sip_react w (Callback Call_released)) -> gives_back c = true.

Lemma steady_gives_back raise e : gives_back e = true -> Steady _ (run_op_entry split raise e).
Proof. destruct e; try discriminate; intros _; cbn [run_op_entry]; auto with told. Qed.

Lemma perform_released fuel :
  {{ fun w => releases w = 0%nat }} sip_perform split fuel (Callback Call_released) {{ fun _ w => releases w = 1%nat }}.
Proof.
  intros w Hw. unfold sip_perform.
  assert (Hr : releases (record_sip (Callback Call_released) w) = 1%nat) by (unfold releases in *; cbn; by rewrite Hw).
  destruct fuel as [|fuel]; cbn [nest];
    destruct (sip_react _ _) as [|c calls] eqn:E; try exact Hr;
      [change (releases (record_sip (Callback Call_released) w) <= 1)%nat; lia|].
  apply (triple_for_each at_most_once (c :: calls) (fun w => releases w = 1%nat)); [|exact Hr].
  intros x Hx. intros w' Hw'.
  pose proof (steady_gives_back (nest record_sip sip_react (run_op_entry split) fuel) x) as Hs.
  rewrite <- E in Hx. apply list_elem_of_In, released_is_last in Hx.
  pose proof (Hs Hx 1%nat (mCallReleased (sal_op w')) (le_n 1) w' (conj Hw' eq_refl)) as Hd.
  destruct (run_op_entry _ _ _ _); [apply Hd|exact Hd].
Qed.

Lemma silent_perform fuel : forall e, is_released e = false -> Silent _ (sip_perform split fuel e).
Proof.
  induction fuel as [|fuel IH]; intros e He w Hw; unfold sip_perform; cbn [nest];
    (assert (Hr : Told (record_sip e w)) by (unfold Told, releases in *; cbn; by rewrite He));
    destruct (sip_react (record_sip e w) e) as [|c calls] eqn:E; try exact Hr.
  - by apply told_once.
  - apply (triple_for_each at_most_once (c :: calls) Told); [|exact Hr].
    intros x _. apply silent_entry; [exact IH|apply perform_released].
Qed.

Lemma silent_run fuel es : Silent _ (run_sip split fuel es).
Proof.
  apply triple_for_each. intros e _. apply silent_entry; [apply silent_perform|apply perform_released].
Qed.

Lemma silent_life fuel invite es : Silent _ (life split fuel invite es).
Proof.
  unfold life. apply silent_bind; [|intros _; apply silent_run].
  destruct invite as [invite|]; [|apply triple_ret].
  pose proof (silent_kept (sip_perform split fuel) (silent_perform fuel) (perform_released fuel)) as Hkept.
  by apply (kept_incoming_invite split (sip_perform split fuel) Silent).
Qed.

(** C31. The end of a call is told at most once, and the operation then knows it:
    in its whole life, whatever belle-sip, the core and the main loop call on it,
    one within another at any depth, [call_released] is called at most once,
    provided the core only gives the operation back when it hears of it. *)
Theorem released_at_most_once fuel handling negotiation invite es :
  match life split fuel invite es (new_world (SalCallOp_create handling negotiation)) with
  | Finished _ w => releases w = if mCallReleased (sal_op w) then 1%nat else 0%nat
  | Stopped _ w => (releases w <= 1)%nat
  end.
Proof. exact (silent_life fuel invite es (new_world (SalCallOp_create handling negotiation)) eq_refl). Qed.
End Released.

(** A transaction that times out before the call has a dialog, twice. *)
Definition timed_out : list Entry := [OpCall (Some alice) (Some bob) ""; SipTimeout 0; SipTimeout 0; OpRelease].

Lemma released_at_most_once_witness :
  let stack := example_stack (fun _ _ => DialogNull) (fun _ => TrCalling) false true None
    (fun w e => if is_released e then [OpSetUserPointer false] else []) in
  match life no_split 3 None timed_out (new_world (SalCallOp_create SdpNormal false)) with
  | Finished _ w => releases w = 1%nat
  | Stopped _ w => False
  end.
Proof.
  set (stack := example_stack (fun _ _ => DialogNull) (fun _ => TrCalling) false true None
    (fun w e => if is_released e then [OpSetUserPointer false] else [])). cbv zeta.
  pose proof (released_at_most_once (H0 := stack) no_split
    ltac:(intros w c [<-|[]]; reflexivity) 3 SdpNormal false None timed_out) as Hc.
  assert (Hf : match life (H0 := stack) no_split 3 None timed_out (new_world (SalCallOp_create SdpNormal false)) with
               | Finished _ w => mCallReleased (sal_op w) | Stopped _ _ => false end = true) by (vm_compute; reflexivity).
  destruct (life _ _ _ _ _) as [[] w|]; [|discriminate Hf]. by rewrite Hf in Hc.
Defined.
