(* ===== verification/CallOpQuiet.v ===== *)
(** * A call operation that nobody calls back

    What an operation does when nothing is called on it before its events return:
    the messages it sends and what it tells the core, in order.  [StackSpec] is
    what belle-sip does with the messages it makes. *)
From S2P Require Import Prelude Effects LpConfigValues SalTypes Payload SalMediaDescription SdpObjects SalSdp StreamSdpReader MediaSdp OfferAnswerEngine ChatTypes ErrorInfo SipTypes CallOpTypes CallOp.

Class StackSpec `{AddressLib} (stack : SipStack) : Prop := {
  nothing_called : forall w e, sip_react w e = [];
  request_made : forall w d method m, dialog_create_request w d method = Some m ->
    msg_method m = method /\ is_Some (msg_uri m);
  queued_request_made : forall w d method m, dialog_create_queued_request w d method = Some m ->
    msg_method m = method /\ is_Some (msg_uri m);
  cancel_made : forall w t m, create_cancel w t = Some m -> msg_method m = "CANCEL"%string /\ is_Some (msg_uri m);
  response_made : forall w m code, msg_status (create_response w m code) = code;
  authorization_added : forall w m r m', add_authorization w m r = Some m' ->
    msg_method m' = msg_method m /\ msg_uri m' = msg_uri m /\ msg_status m' = msg_status m;
  (** What is known of dialogs and transactions depends on what was done. *)
  history_matters : forall w w', sip_history w' = sip_history w ->
    dialog_state w' = dialog_state w /\ transaction_request w' = transaction_request w
    /\ create_cancel w' = create_cancel w /\ dialog_create_request w' = dialog_create_request w
    /\ dialog_create_ack w' = dialog_create_ack w /\ dialog_local_seq w' = dialog_local_seq w;
}.

Section Deeds.
Context `{AddressLib}.

(** What can be observed of an event. *)
Inductive Deed :=
  | Asked (method : string)
  | Replied (tr : nat) (code : Z)
  | RepliedStateless (code : Z)
  | Told (c : SalCallback)
  | Acknowledged (dialog : nat)
  | Unseen.

Definition deed_of (e : SipEvent) : Deed :=
  match e with
  | SendRequest _ _ m => Asked (msg_method m)
  | SendResponse tr m => Replied tr (msg_status m)
  | SendStateless m => RepliedStateless (msg_status m)
  | Callback c => Told c
  | SendAck d _ | SendOrphan d _ _ => Acknowledged d
  | _ => Unseen
  end.

(** What was done from a world to another, in order. *)
Definition did (w w' : SipWorld) (ds : list Deed) : Prop :=
  map deed_of (sip_history w') = rev ds ++ map deed_of (sip_history w).

Lemma did_nothing w w' : sip_history w' = sip_history w -> did w w' [].
Proof. unfold did. by intros ->. Qed.

Lemma did_one e w w' d : sip_history w' = e :: sip_history w -> deed_of e = d -> did w w' [d].
Proof. unfold did. by intros -> <-. Qed.

Lemma did_app w1 w2 w3 l1 l2 : did w1 w2 l1 -> did w2 w3 l2 -> did w1 w3 (l1 ++ l2).
Proof. unfold did. intros H1 H2. by rewrite H2, H1, rev_app_distr, app_assoc. Qed.

(** What sending leaves as it was. *)
Record same_call (w w' : SipWorld) : Prop := {
  same_state : mState (sal_op w') = mState (sal_op w);
  same_dir : mDir (sal_op w') = mDir (sal_op w);
  same_dialog : mDialog (sal_op w') = mDialog (sal_op w);
  same_server : mPendingServerTransaction (sal_op w') = mPendingServerTransaction (sal_op w);
  same_update : mPendingUpdateServerTransaction (sal_op w') = mPendingUpdateServerTransaction (sal_op w);
  same_released : mCallReleased (sal_op w') = mCallReleased (sal_op w);
  same_refs : mOpReleased (sal_op w') = mOpReleased (sal_op w);
  same_retry : mRetryFunc (sal_op w') = mRetryFunc (sal_op w);
  same_count : mRef (sal_op w) <= mRef (sal_op w');
  same_freed : freed w' = freed w;
  same_dialogs : dialog_links w' = dialog_links w;
  same_sources : sources w' = sources w;
}.

#[export] Instance same_call_preorder : PreOrder same_call.
Proof.
  split; [intros w; by constructor|]. intros w1 w2 w3 [] []. constructor; first [congruence|lia].
Qed.
End Deeds.

(** A step of a program, and the assertion it leaves; with [step_known], what is
    known of the value it gives. *)
Tactic Notation "step" uconstr(rule) := eapply triple_bind; [eapply rule|cbn beta; intros ?].
Tactic Notation "step_known" uconstr(rule) := eapply triple_known; [eapply rule|cbn beta].

Ltac kept_members := intros ?; cbn; repeat split; first [reflexivity|lia].

Section Quiet.
Context `{AddressLib} {lib : MediaLib} {sdp : SdpLib} {ortp : OrtpRtcp} `{!SipStack} `{!StackSpec _}.
Variable split : string -> ascii -> list string.
Variable fuel : nat.

#[local] Notation raise := (sip_perform split fuel).

Lemma raise_quiet e w : raise e w = Finished tt (record_sip e w).
Proof. apply nest_quiet, nothing_called. Qed.

Lemma gets_alive {A} (f : SalCallOp -> A) w : freed w = false -> gets f w = Finished (f (sal_op w)) w.
Proof. unfold gets. by intros ->. Qed.

Lemma modify_alive f w : freed w = false -> modify f w = Finished tt (w <| sal_op := f (sal_op w) |>).
Proof. unfold modify. by intros ->. Qed.

(** A message keeps its method, its target and its code whatever headers it gets. *)
Definition same_line (m m' : Message) : Prop :=
  msg_method m' = msg_method m /\ msg_uri m' = msg_uri m /\ msg_status m' = msg_status m.

#[export] Instance same_line_preorder : PreOrder same_line.
Proof.
  split; [by intros m|]. intros m1 m2 m3 (? & ? & ?) (? & ? & ?). repeat split; congruence.
Qed.

Lemma same_call_modify f w : 
  (forall o, mState (f o) = mState o /\ mDir (f o) = mDir o /\ mDialog (f o) = mDialog o
    /\ mPendingServerTransaction (f o) = mPendingServerTransaction o
    /\ mPendingUpdateServerTransaction (f o) = mPendingUpdateServerTransaction o
    /\ mCallReleased (f o) = mCallReleased o /\ mOpReleased (f o) = mOpReleased o /\ mRetryFunc (f o) = mRetryFunc o
    /\ mRef o <= mRef (f o)) ->
  same_call w (w <| sal_op := f (sal_op w) |>).
Proof. intros Hf. destruct (Hf (sal_op w)) as (?&?&?&?&?&?&?&?&?). by constructor. Qed.

Lemma addCustomHeaders_quiet hs : forall m w, freed w = false ->
  exists m' w', addCustomHeaders hs m w = Finished m' w' /\ same_line m m' /\ same_call w w'
    /\ sip_history w' = sip_history w.
Proof.
  induction hs as [|h hs IH]; intros m w Hw; [by exists m, w|].
  destruct h; cbn [addCustomHeaders]; try (edestruct IH as (m' & w' & Hr & Hl & Hs & Hh); [exact Hw|];
    exists m', w'; exact (conj Hr (conj Hl (conj Hs Hh)))).
  unfold setContactAddress, createContact, gets, modify. unfold_Eff. rewrite Hw.
  change (freed (w <| sal_op := (sal_op w) <| mContactAddress := contact |> |>)) with (freed w). rewrite Hw.
  set (w1 := w <| sal_op := (sal_op w) <| mContactAddress := contact |> |>).
  edestruct (IH (set_header (HContact (mContactAddress (sal_op w1))) m) w1 Hw) as (m' & w' & Hr & Hl & Hs & Hh).
  exists m', w'. refine (conj Hr (conj Hl (conj _ Hh))).
  etransitivity; [|exact Hs]. by apply same_call_modify.
Qed.

(** ** What was done since a world [w0] *)

Definition Since (w0 : SipWorld) (ds : list Deed) (w : SipWorld) : Prop :=
  freed w = false /\ same_call w0 w /\ did w0 w ds.

#[local] Notation total := (triple (fun _ => False)).

Lemma since_start w : freed w = false -> Since w [] w.
Proof. intros Hw. exact (conj Hw (conj (reflexivity w) (did_nothing w w eq_refl))). Qed.

Lemma total_run {A} P (m : Sip A) Q w : total P m Q -> P w -> exists a w', m w = Finished a w' /\ Q a w'.
Proof. intros Hm Hw. specialize (Hm w Hw). destruct (m w) as [a w'|]; [by exists a, w'|done]. Qed.

Lemma total_pre {A} (P P' : SipWorld -> Prop) (m : Sip A) Q : (forall w, P' w -> P w) -> total P m Q -> total P' m Q.
Proof. intros HP Hm w Hw. exact (Hm w (HP w Hw)). Qed.

Lemma since_ret {A} w0 ds (a : A) : total (Since w0 ds) (mret a) (fun b w => Since w0 ds w /\ b = a).
Proof. by intros w Hw. Qed.

Lemma since_gets {A} w0 ds (f : SalCallOp -> A) :
  total (Since w0 ds) (gets f) (fun a w => Since w0 ds w /\ a = f (sal_op w)).
Proof. intros w Hw. by rewrite gets_alive by apply Hw. Qed.

Lemma since_asks {A} w0 ds (f : SipWorld -> A) : total (Since w0 ds) (asks f) (fun a w => Since w0 ds w /\ a = f w).
Proof. by intros w Hw. Qed.

(** Changes that no one observes. *)
Lemma since_change {A} w0 ds (m : Sip A) f a :
  (forall w, freed w = false -> m w = Finished (a w) (f w)) ->
  (forall w, same_call w (f w) /\ sip_history (f w) = sip_history w) ->
  total (Since w0 ds) m (fun b => Since w0 ds).
Proof.
  intros Hm Hf w (Hw & Hs & Hd). rewrite Hm by exact Hw. destruct (Hf w) as [Hsf Hh].
  split; [|split]; [by rewrite (same_freed _ _ Hsf)|by transitivity w|].
  rewrite <- (app_nil_r ds). eapply did_app; [exact Hd|by apply did_nothing].
Qed.

Lemma since_modify w0 ds f :
  (forall o, mState (f o) = mState o /\ mDir (f o) = mDir o /\ mDialog (f o) = mDialog o
    /\ mPendingServerTransaction (f o) = mPendingServerTransaction o
    /\ mPendingUpdateServerTransaction (f o) = mPendingUpdateServerTransaction o
    /\ mCallReleased (f o) = mCallReleased o /\ mOpReleased (f o) = mOpReleased o /\ mRetryFunc (f o) = mRetryFunc o
    /\ mRef o <= mRef (f o)) ->
  total (Since w0 ds) (modify f) (fun _ => Since w0 ds).
Proof.
  intros Hf. apply (since_change _ _ _ (fun w => w <| sal_op := f (sal_op w) |>) (fun _ => tt)).
  - intros w Hw. by apply modify_alive.
  - intros w. split; [by apply same_call_modify|reflexivity].
Qed.

Lemma since_raise w0 ds e : total (Since w0 ds) (raise e) (fun _ => Since w0 (ds ++ [deed_of e])).
Proof.
  intros w (Hw & Hs & Hd). rewrite raise_quiet. split; [|split]; [exact Hw| |].
  - transitivity w; [exact Hs|by constructor].
  - eapply did_app; [exact Hd|]. eapply did_one; reflexivity.
Qed.

Lemma since_addCustomHeaders w0 ds hs m :
  total (Since w0 ds) (addCustomHeaders hs m) (fun m' w => Since w0 ds w /\ same_line m m').
Proof.
  intros w (Hw & Hs & Hd). destruct (addCustomHeaders_quiet hs m w Hw) as (m' & w' & -> & Hl & Hs' & Hh).
  split; [|exact Hl]. split; [|split]; [by rewrite (same_freed _ _ Hs')|by transitivity w|].
  rewrite <- (app_nil_r ds). eapply did_app; [exact Hd|by apply did_nothing].
Qed.

(** Members that sending leaves as they were are read as they were in [w0]. *)
Lemma since_gets_kept {A} w0 ds (f : SalCallOp -> A) :
  (forall w w', same_call w w' -> f (sal_op w') = f (sal_op w)) ->
  total (Since w0 ds) (gets f) (fun a w => Since w0 ds w /\ a = f (sal_op w0)).
Proof. intros Hf w Hw. rewrite gets_alive by apply Hw. split; [exact Hw|]. apply Hf, Hw. Qed.

Lemma since_any_gets {A} w0 ds (f : SalCallOp -> A) : total (Since w0 ds) (gets f) (fun _ => Since w0 ds).
Proof. intros w Hw. by rewrite gets_alive by apply Hw. Qed.

Lemma since_any_asks {A} w0 ds (f : SipWorld -> A) : total (Since w0 ds) (asks f) (fun _ => Since w0 ds).
Proof. by intros w Hw. Qed.

Lemma since_the {A} w0 ds (p : option A) :
  is_Some p -> total (Since w0 ds) (the p) (fun a w => Since w0 ds w /\ p = Some a).
Proof. intros [a ->] w Hw. split; [exact Hw|done]. Qed.


Lemma since_current_dialog_state w0 ds : total (Since w0 ds) current_dialog_state (fun _ => Since w0 ds).
Proof.
  unfold current_dialog_state, state_of_dialog, of_dialog. step since_any_gets.
  destruct a; [apply since_any_asks|intros w Hw; exact Hw].
Qed.

Lemma since_next_hop w0 ds request : is_Some (msg_uri request) ->
  total (Since w0 ds) (next_hop request) (fun _ => Since w0 ds).
Proof.
  intros Hu. unfold next_hop. step since_current_dialog_state.
  destruct (bool_decide (a = DialogNull)); [|intros w Hw; exact Hw].
  step since_any_gets. destruct a0 as [|route routes].
  - step_known since_the; [exact Hu|]. intros uri _. step since_any_asks. intros w Hw. exact Hw.
  - step since_any_asks. eapply triple_bind; [apply since_modify; kept_members|]. intros ? w Hw. exact Hw.
Qed.

Lemma since_createContact w0 ds : total (Since w0 ds) createContact (fun _ => Since w0 ds).
Proof. unfold createContact. step since_any_gets. intros w Hw. exact Hw. Qed.

Lemma since_fresh_id w0 ds : total (Since w0 ds) fresh_id (fun _ => Since w0 ds).
Proof. eapply (since_change _ _ _ _ nextId); [by intros w _|by intros w]. Qed.

Lemma since_take_transaction w0 ds t : total (Since w0 ds) (take_transaction t) (fun _ => Since w0 ds).
Proof.
  unfold take_transaction, op_ref. eapply triple_bind; [apply since_modify; kept_members|intros ?].
  eapply (since_change _ _ _ _ (fun _ => tt)); [by intros w _|by intros w].
Qed.

(** Sending a request: it keeps its method. *)
Lemma since_sendRequestWithContact w0 ds request add : is_Some (msg_uri request) ->
  total (Since w0 ds) (sendRequestWithContact raise request add) (fun _ => Since w0 (ds ++ [Asked (msg_method request)])).
Proof.
  intros Hu. unfold sendRequestWithContact, sal.
  eapply (triple_known _ _ (same_line request)).
  { instantiate (1 := Since w0 ds). destruct (add && _); [|by intros w Hw].
    step since_createContact. by intros w Hw. }
  intros r1 Hr1. step since_any_gets. step_known since_addCustomHeaders. intros r2 Hr2.
  assert (Hr : same_line request r2) by (by transitivity r1).
  step since_next_hop; [destruct Hr as (_ & -> & _); exact Hu|].
  step since_fresh_id. step since_take_transaction.
  eapply triple_bind; [apply since_modify; kept_members|intros ?]. step since_any_asks.
  set (r3 := if has_header as_user_agent r2 then r2 else _).
  assert (Hr3 : same_line request r3) by (subst r3; destruct (has_header _ _); exact Hr). clearbody r3.
  eapply (triple_known _ _ (fun o => same_line request (default r3 o))).
  { instantiate (1 := Since w0 ds). destruct (has_header _ _); [by intros w Hw|].
    intros w Hw. split; [exact Hw|]. destruct (add_authorization w r3 None) as [r4|] eqn:E; [|exact Hr3].
    apply authorization_added in E. by transitivity r3. }
  intros o Ho. step since_raise. step since_any_asks. step since_any_gets.
  eapply (triple_bind _ _ (fun _ => Since w0 (ds ++ [Asked (msg_method request)]))).
  - cbn [deed_of]. destruct Ho as (-> & _). destruct (_ && _); [apply since_modify; kept_members|by intros w Hw].
  - intros ?. by intros w Hw.
Qed.

Lemma since_sendRequest w0 ds request : is_Some (msg_uri request) ->
  total (Since w0 ds) (sendRequest raise (Some request)) (fun _ => Since w0 (ds ++ [Asked (msg_method request)])).
Proof. apply since_sendRequestWithContact. Qed.

Lemma since_response w0 ds request code :
  total (Since w0 ds) (createResponseFromRequest request code) (fun m w => Since w0 ds w /\ msg_status m = code).
Proof.
  unfold createResponseFromRequest. eapply (triple_known _ _ (fun m => msg_status m = code)).
  { instantiate (1 := Since w0 ds). intros w Hw. split; [exact Hw|apply response_made]. }
  intros m Hm. step since_any_asks. intros w Hw. split; [exact Hw|]. by destruct (mSupportedTags a).
Qed.

Lemma since_respond w0 ds t request code :
  total (Since w0 ds) (respond raise (Some t) request code) (fun _ => Since w0 (ds ++ [Replied t code])).
Proof.
  unfold respond. step_known since_response. intros m Hm.
  eapply (triple_known _ _ (fun x => x = t)); [intros w Hw; exact (conj Hw eq_refl)|]. intros ? ->.
  unfold send_response. rewrite <- Hm. apply since_raise.
Qed.

(** A null pointer is only read for a warning. *)
Lemma since_replyWithErrorInfo w0 ds info : sal_warnings info = None -> sal_reason info <> SalReasonRedirect ->
  total (Since w0 ds) (replyWithErrorInfo raise info None 0)
    (fun _ => Since w0 (ds ++ match mPendingServerTransaction (sal_op w0), mPendingUpdateServerTransaction (sal_op w0) with
                              | Some t, _ | None, Some t => [Replied t (sal_protocol_code info)]
                              | None, None => []
                              end)).
Proof.
  intros Hwarn Hred. unfold replyWithErrorInfo, declined_transaction.
  rewrite (bool_decide_eq_false_2 _ Hred). cbn [andb]. rewrite (bool_decide_eq_true_2 _ Hwarn).
  eapply (triple_known _ _ (fun t => t = match mPendingServerTransaction (sal_op w0) with
    Some t => Some t | None => mPendingUpdateServerTransaction (sal_op w0) end)).
  { instantiate (1 := Since w0 ds). step_known since_gets_kept; [by intros w w' []|]. intros t ->.
    destruct (mPendingServerTransaction (sal_op w0)); [by intros w Hw|].
    apply since_gets_kept. by intros w w' []. }
  intros t ->. assert (Hr : forall t, total (Since w0 ds)
    (request ← asks (fun w => transaction_request w t);
     response ← createResponseFromRequest request (sal_protocol_code info);
     to ← gets mToAddress;
     warning ← mret None;
     send_response raise t (add_headers (option_headers
        [makeReasonHeader (sal_sub_sei info); None; None; warning;
         (if 0 <? sal_retry_after info then Some (HRetryAfter (sal_retry_after info)) else None)]) response) ;;
     mret tt ;; mret 0) (fun _ => Since w0 (ds ++ [Replied t (sal_protocol_code info)]))).
  { intros t. step since_any_asks. step_known since_response. intros m Hm. step since_any_gets.
    eapply (triple_known _ _ (fun x => x = None)); [intros w Hw; exact (conj Hw eq_refl)|]. intros ? ->.
    rewrite <- Hm. unfold send_response. step since_raise. intros w Hw. exact Hw. }
  destruct (mPendingServerTransaction (sal_op w0)); [apply Hr|].
  destruct (mPendingUpdateServerTransaction (sal_op w0)); [apply Hr|].
  rewrite app_nil_r. by intros w Hw.
Qed.
End Quiet.
