(* ===== verification/CallOpEnding.v ===== *)
(** * How a call operation ends a call

    [terminate] in every state of the dialog, and what is done with the answers
    that come after it: a call that is ended on one side is ended on the other. *)
From S2P Require Import Prelude Effects LpConfigValues SalTypes Payload SalMediaDescription SdpObjects SalSdp StreamSdpReader MediaSdp OfferAnswerEngine ChatTypes ErrorInfo SipTypes CallOpTypes CallOp ChatExamples CallOpExamples CallOpQuiet.

Section Ending.
Context `{AddressLib} {lib : MediaLib} {sdp : SdpLib} {ortp : OrtpRtcp} `{!SipStack} `{!StackSpec _}.
Variable split : string -> ascii -> list string.
Variable fuel : nat.

#[local] Notation raise := (sip_perform split fuel).
#[local] Notation total := (triple (fun _ => False)).

(** The state of the dialog of the operation. *)
Definition status (w : SipWorld) : DialogState :=
  match mDialog (sal_op w) with Some d => dialog_state w d | None => DialogNull end.

Lemma current_dialog_state_alive w : freed w = false -> current_dialog_state w = Finished (status w) w.
Proof.
  intros Hw. unfold current_dialog_state, state_of_dialog, of_dialog, status, gets. unfold_Eff. rewrite Hw.
  by destruct (mDialog (sal_op w)).
Qed.

Definition says_why (info : option SalErrorInfo) : bool :=
  match info with Some i => negb (bool_decide (sal_reason i = SalReasonNone)) | None => false end.

(** The code an incoming call is refused with: 603 by default. *)
Definition refusal (info : option SalErrorInfo) : Z :=
  match info with Some i => sal_protocol_code i | None => 603 end.

(** Errors that [terminate] is given: no redirection, no warning. *)
Definition plain (info : option SalErrorInfo) : Prop :=
  match info with Some i => sal_warnings i = None /\ sal_reason i <> SalReasonRedirect | None => True end.

Definition refused_transaction (o : SalCallOp) : option nat :=
  match mPendingServerTransaction o with Some t => Some t | None => mPendingUpdateServerTransaction o end.

(** What [terminate] does of a call that is not being ended, and the state it
    leaves; nothing when it reads a null pointer. *)
Definition terminate_deeds (info : option SalErrorInfo) (w : SipWorld) : option (list Deed * OpState) :=
  let o := sal_op w in
  let cancelled :=
    match mPendingClientTransaction o with
    | Some t => match create_cancel w t with
                | Some _ => [Asked "CANCEL"]
                | None => match mDialog o with Some _ => [Unseen] | None => [] end
                end
    | None => []
    end in
  match status w, mDir o with
  | DialogConfirmed, _ =>
      match mDialog o with
      | Some d => match dialog_create_request w d "BYE" with
                  | Some _ => Some ([Asked "BYE"], OpTerminating)
                  | None => if says_why info then None else Some ([], OpTerminating)
                  end
      | None => None
      end
  | DialogTerminated, _ => Some ([], mState o)
  | _, OpIncoming =>
      Some (match refused_transaction o with Some t => [Replied t (refusal info)] | None => [] end, OpTerminated)
  | DialogEarly, OpOutgoing => Some (cancelled, OpTerminating)
  | DialogNull, OpOutgoing =>
      match mPendingClientTransaction o with
      | Some t => Some (if bool_decide (transaction_state w t = TrProceeding) then cancelled else [Unseen], OpTerminating)
      | None => Some ([], mState o)
      end
  end.

Lemma since_set_state w0 ds s :
  total (Since w0 ds) (modify (fun o => o <| mState := s |>))
    (fun _ w => freed w = false /\ did w0 w ds /\ mState (sal_op w) = s).
Proof. intros w (Hw & Hs & Hd). rewrite modify_alive by exact Hw. done. Qed.

Lemma since_cancelInvite info w : freed w = false -> status w = DialogEarly \/ status w = DialogNull ->
  total (eq w) (cancelInvite raise info)
    (fun _ => Since w (match mPendingClientTransaction (sal_op w) with
                       | Some t => match create_cancel w t with
                                   | Some _ => [Asked "CANCEL"]
                                   | None => match mDialog (sal_op w) with Some _ => [Unseen] | None => [] end
                                   end
                       | None => []
                       end)).
Proof.
  intros Hw Hst w' <-. pose proof (since_start w Hw) as Hs. unfold cancelInvite.
  rewrite (bind_finished _ _ _ _ _ (gets_alive _ _ Hw)).
  destruct (mPendingClientTransaction (sal_op w)) as [t|]; [|exact Hs].
  rewrite (bind_finished _ _ _ (create_cancel w t) w) by reflexivity.
  destruct (create_cancel w t) as [cancel|] eqn:Hc.
  - apply cancel_made in Hc as [Hm Hu]. revert w Hs Hw Hst. intros w0 Hs _ _. revert Hs.
    eapply (triple_bind _ _ (fun _ => Since w0 [Asked "CANCEL"])); [|intros ?; by intros w Hw].
    rewrite <- Hm. apply (since_sendRequest split fuel w0 [] (add_headers (reason_header info) cancel)). exact Hu.
  - rewrite (bind_finished _ _ _ _ _ (gets_alive _ _ Hw)). unfold status in Hst.
    destruct (mDialog (sal_op w)) as [d|]; [|exact Hs].
    rewrite (bind_finished _ _ _ (dialog_state w d) w) by reflexivity.
    assert (Hb : bool_decide (dialog_state w d = DialogEarly) || bool_decide (dialog_state w d = DialogNull) = true).
    { destruct Hst as [->| ->]; reflexivity. }
    rewrite Hb. unfold mbind, Eff_bind. rewrite raise_quiet. by apply (since_raise split fuel w [] (DeleteDialog d)) in Hs as Hd; rewrite raise_quiet in Hd.
Qed.

(** What has happened when [m] runs from [w]: what was done, and the state. *)
Definition leads (w : SipWorld) (m : Sip Z) (outcome : option (list Deed * OpState)) : Prop :=
  match outcome, m w with
  | Some (ds, s), Finished _ w' => freed w' = false /\ did w w' ds /\ mState (sal_op w') = s
  | None, Stopped NullPointer _ => True
  | _, _ => False
  end.

Lemma leads_then {A} w (m : Sip A) ds s r :
  total (eq w) m (fun _ => Since w ds) -> leads w (m ;; modify (fun o => o <| mState := s |>) ;; mret r) (Some (ds, s)).
Proof.
  intros Hm. unfold leads. specialize (Hm w eq_refl). unfold mbind, Eff_bind.
  destruct (m w) as [a w'|]; [|done]. destruct Hm as (Hw & Hs & Hd). by rewrite modify_alive by exact Hw.
Qed.

Lemma from_since {A} w (m : Sip A) Q : freed w = false -> total (Since w []) m Q -> total (eq w) m Q.
Proof. intros Hw Hm w' <-. by apply Hm, since_start. Qed.

Lemma since_halt w0 ds : total (Since w0 ds) haltSessionTimersTimer (fun _ => Since w0 ds).
Proof.
  unfold haltSessionTimersTimer. step since_any_gets. destruct a; [|by intros w Hw].
  eapply triple_bind; [|intros ?; apply since_modify; kept_members].
  eapply (since_change _ _ _ _ (fun _ => tt)); [by intros w _|by intros w].
Qed.

(** The error an incoming call is refused with. *)
Lemma leads_refused info w : freed w = false -> plain info ->
  let pSei := if negb (bool_decide (is_Some info)) then declined_sei else info in
  leads w (replyWithErrorInfo_ptr raise pSei ;; modify (fun o => o <| mState := OpTerminated |>) ;; mret 0)
    (Some (match refused_transaction (sal_op w) with Some t => [Replied t (refusal info)] | None => [] end, OpTerminated)).
Proof.
  intros Hw Hp pSei. apply leads_then, from_since; [exact Hw|].
  assert (He : exists i, pSei = Some i /\ sal_protocol_code i = refusal info /\ sal_warnings i = None /\ sal_reason i <> SalReasonRedirect).
  { subst pSei. destruct info as [i|]; cbn.
    - exists i. destruct Hp. done.
    - eexists. split; [reflexivity|]. by repeat split. }
  destruct He as (i & -> & <- & Hwarn & Hred). unfold replyWithErrorInfo_ptr.
  eapply (triple_known _ _ (fun x => x = i)); [intros w' Hw'; exact (conj Hw' eq_refl)|]. intros ? ->.
  eapply triple_bind; [apply (since_replyWithErrorInfo split fuel w [] i Hwarn Hred)|]. intros ?.
  unfold refused_transaction. intros w' Hw'.
  destruct (mPendingServerTransaction (sal_op w)); [exact Hw'|].
  destruct (mPendingUpdateServerTransaction (sal_op w)); exact Hw'.
Qed.

(** The BYE of a call that is established. *)
Lemma since_bye info w bye : plain info -> is_Some (msg_uri bye) -> forall from,
  total (Since w []) (
    haltSessionTimersTimer ;;
    headers ← bye_headers info from;
    request ← match headers with
              | [] => mret (Some bye)
              | _ => r ← the (Some bye); mret (Some (add_headers headers r))
              end;
    sendRequest raise request) (fun _ => Since w [Asked (msg_method bye)]).
Proof.
  intros Hp Hu from. step since_halt.
  eapply (triple_known _ _ (fun _ => True)).
  { instantiate (1 := Since w []). unfold bye_headers. destruct info as [i|]; [|by intros w' Hw'].
    destruct (bool_decide (sal_reason i = SalReasonNone)); [by intros w' Hw'|].
    destruct Hp as [Hwarn _]. rewrite (bool_decide_eq_true_2 _ Hwarn). by intros w' Hw'. }
  intros headers _. eapply (triple_known _ _ (fun r => exists hs, r = Some (add_headers hs bye))).
  { instantiate (1 := Since w []). destruct headers as [|h hs]; intros w' Hw'; (split; [exact Hw'|]).
    - exists []. unfold add_headers. rewrite app_nil_r. by destruct bye.
    - by exists (h :: hs). }
  intros r [hs ->]. apply (since_sendRequest split fuel w [] (add_headers hs bye)). exact Hu.
Qed.

Lemma leads_bye info w d : freed w = false -> plain info ->
  leads w (
    request ← of_dialog (fun w d => dialog_create_request w d "BYE"%string) d;
    haltSessionTimersTimer ;;
    headers ← bye_headers info (mFromAddress (sal_op w));
    request ← match headers with
              | [] => mret request
              | _ => r ← the request; mret (Some (add_headers headers r))
              end;
    sendRequest raise request ;;
    modify (fun o => o <| mState := OpTerminating |>) ;;
    mret 0)
    (match dialog_create_request w d "BYE" with
     | Some _ => Some ([Asked "BYE"], OpTerminating)
     | None => if says_why info then None else Some ([], OpTerminating)
     end).
Proof.
  intros Hw Hp. unfold leads at 1. rewrite (bind_finished _ _ _ (dialog_create_request w d "BYE"%string) w) by reflexivity.
  destruct (dialog_create_request w d "BYE") as [bye|] eqn:Hb.
  - apply request_made in Hb as [Hm Hu].
    pose proof (since_bye info w bye Hp Hu (mFromAddress (sal_op w)) w (since_start w Hw)) as Hr. rewrite Hm in Hr.
    revert Hr. unfold_Eff. destruct (haltSessionTimersTimer w) as [[] w1|]; [|done].
    destruct (bye_headers _ _ w1) as [hs w2|]; [|done].
    destruct hs; cbn [the]; unfold_Eff; (destruct (sendRequest _ _ w2) as [r w3|]; [|done]);
      intros (H3 & _ & Hd); by rewrite modify_alive by exact H3.
  - destruct (total_run _ _ _ w (since_halt w []) (since_start w Hw)) as ([] & w1 & E & H1).
    rewrite (then_finished _ _ _ _ _ E). destruct H1 as (H1 & Hs1 & Hd1).
    unfold bye_headers, says_why. destruct info as [i|].
    + destruct Hp as [Hwarn _]. rewrite (bool_decide_eq_true_2 _ Hwarn).
      unfold reason_header, makeReasonHeader.
      destruct (bool_decide (sal_reason i = SalReasonNone)) eqn:Hn; cbn; unfold_Eff; [|done].
      unfold sendRequest. unfold_Eff. by rewrite modify_alive by exact H1.
    + cbn. unfold sendRequest. unfold_Eff. by rewrite modify_alive by exact H1.
Qed.

Lemma leads_cancelled info w m : freed w = false -> status w = DialogEarly \/ status w = DialogNull ->
  (forall w, m w = (cancellingInvite raise info ;; mret 0) w) ->
  leads w m (Some (match mPendingClientTransaction (sal_op w) with
                   | Some t => match create_cancel w t with
                               | Some _ => [Asked "CANCEL"]
                               | None => match mDialog (sal_op w) with Some _ => [Unseen] | None => [] end
                               end
                   | None => []
                   end, OpTerminating)).
Proof.
  intros Hw Hst Hm. pose proof (leads_then w (cancelInvite raise info) _ OpTerminating 0 (since_cancelInvite info w Hw Hst)) as Hl.
  unfold leads in *. rewrite Hm. unfold cancellingInvite. revert Hl. unfold_Eff. by destruct (cancelInvite raise info w).
Qed.

(** C32. How a call is ended, when nothing is called back meanwhile: a call that is
    being ended already is left alone; one that is established gets one BYE; one
    that came in and is not established is refused on its transaction, with 603
    unless an error says otherwise, and is over at once; one that was made is
    cancelled if an answer has come, and else only stops being asked for, so
    that it is cancelled or hung up when an answer comes.  A BYE that cannot be
    made is not sent, and reads a null pointer when it has a reason to tell. *)
Theorem terminate_outcome info w : freed w = false -> plain info ->
  if opstate_eqb (mState (sal_op w)) OpTerminating || opstate_eqb (mState (sal_op w)) OpTerminated
  then terminate raise info w = Finished (-1) w
  else leads w (terminate raise info) (terminate_deeds info w).
Proof.
  intros Hw Hp.
  assert (Hread : forall k : DialogState -> SalCallOp -> Sip Z, (st ← current_dialog_state; o ← gets (fun o => o); k st o) w = k (status w) (sal_op w) w).
  { intros k. rewrite (bind_finished _ _ _ _ _ (current_dialog_state_alive w Hw)). by rewrite (bind_finished _ _ _ _ _ (gets_alive _ _ Hw)). }
  destruct (opstate_eqb (mState (sal_op w)) OpTerminating || opstate_eqb (mState (sal_op w)) OpTerminated) eqn:He.
  { unfold terminate. rewrite Hread, He. done. }
  unfold leads. unfold terminate. rewrite Hread, He. unfold terminate_deeds.
  destruct (status w) eqn:Hst; cbn [confirmed].
  - destruct (mDir (sal_op w)).
    + pose proof (leads_refused info w Hw Hp) as Hl. by destruct info.
    + destruct (mPendingClientTransaction (sal_op w)) as [t|] eqn:Ht; [|by split].
      rewrite (bind_finished _ _ _ (transaction_state w t) w) by reflexivity.
      destruct (bool_decide (transaction_state w t = TrProceeding)).
      * pose proof (leads_cancelled info w _ Hw (or_intror Hst) (fun w => eq_refl)) as Hl. rewrite Ht in Hl. by destruct info.
      * unfold_Eff. rewrite modify_alive, raise_quiet by exact Hw. by split.
  - destruct (mDir (sal_op w)).
    + pose proof (leads_refused info w Hw Hp) as Hl. by destruct info.
    + pose proof (leads_cancelled info w _ Hw (or_introl Hst) (fun w => eq_refl)) as Hl. by destruct info.
  - unfold status in Hst. destruct (mDialog (sal_op w)) as [d|] eqn:Hd; [|discriminate Hst].
    apply (leads_bye info w d Hw Hp).
  - by split.
Qed.

(** ** Answers to a call that is being ended *)

Lemma op_ref_alive w : freed w = false -> op_ref w = Finished tt (w <| sal_op := (sal_op w) <| mRef := mRef (sal_op w) + 1 |> |>).
Proof. intros Hw. unfold op_ref. by rewrite modify_alive by exact Hw. Qed.

Lemma op_unref_alive w : freed w = false -> 2 <= mRef (sal_op w) ->
  op_unref w = Finished tt (w <| sal_op := (sal_op w) <| mRef := mRef (sal_op w) - 1 |> |>).
Proof.
  intros Hw Hr. unfold op_unref, modify, gets. unfold_Eff. rewrite Hw. cbn. rewrite Hw.
  replace (mRef (sal_op w) - 1 =? 0) with false by (symmetry; apply Z.eqb_neq; lia).
  by replace (mRef (sal_op w) - 1 <? 0) with false by (symmetry; apply Z.ltb_ge; lia).
Qed.

(** An operation that somebody holds follows a first dialog, or keeps the one it has. *)
Lemma setOrUpdateDialog_alive d w : freed w = false -> 1 <= mRef (sal_op w) ->
  mDialog (sal_op w) = None \/ mDialog (sal_op w) = d ->
  exists w', setOrUpdateDialog d w = Finished tt w' /\ freed w' = false /\ sip_history w' = sip_history w
    /\ mDialog (sal_op w') = d /\ mState (sal_op w') = mState (sal_op w) /\ mRef (sal_op w) <= mRef (sal_op w')
    /\ mPendingClientTransaction (sal_op w') = mPendingClientTransaction (sal_op w)
    /\ mCallReleased (sal_op w') = mCallReleased (sal_op w).
Proof.
  intros Hw Hr Hd. unfold setOrUpdateDialog. rewrite (then_finished _ _ _ _ _ (op_ref_alive w Hw)).
  set (w1 := w <| sal_op := _ |>). rewrite (bind_finished _ _ _ (mDialog (sal_op w)) w1) by exact (gets_alive mDialog w1 Hw).
  destruct (decide (mDialog (sal_op w) = d)) as [He|He].
  - rewrite (bool_decide_eq_true_2 _ He). cbn [negb].
    rewrite (then_finished _ _ _ tt w1) by reflexivity. rewrite (op_unref_alive w1 Hw) by (cbn; lia).
    eexists. split; [reflexivity|]. cbn. repeat split; [exact Hw|exact He|lia].
  - destruct Hd as [Hn|]; [|done]. rewrite (bool_decide_eq_false_2 _ He), Hn. cbn [negb].
    destruct d as [d|]; [|done]. unfold linkOpWithDialog.
    set (w2 := w1 <| sal_op := (sal_op w1) <| mRef := mRef (sal_op w1) + 1 |> |> <| dialog_links := d :: dialog_links w1 |>).
    rewrite (then_finished _ _ _ tt (w2 <| sal_op := (sal_op w2) <| mDialog := Some d |> |>)).
    2: { rewrite (then_finished _ _ w1 tt w1) by reflexivity.
         rewrite (then_finished _ _ w1 tt w2); [by apply modify_alive|].
         by rewrite (then_finished _ _ _ _ _ (op_ref_alive w1 Hw)). }
    rewrite op_unref_alive by first [exact Hw|cbn; lia].
    eexists. split; [reflexivity|]. cbn. repeat split; [exact Hw|lia].
Qed.

(** What an answer to the [INVITE] of a call that is being ended leads to. *)
Definition late_answer_deeds (d : option nat) (code : Z) (w : SipWorld) : list Deed :=
  match (match d with Some d => dialog_state w d | None => DialogNull end), d with
  | DialogConfirmed, Some d => match dialog_create_request w d "BYE" with Some _ => [Asked "BYE"] | None => [] end
  | DialogConfirmed, None => []
  | DialogNull, _ | DialogEarly, _ =>
      let released := match d with None => [Told Call_released] | Some _ => [] end in
      match mPendingClientTransaction (sal_op w) with
      | Some t =>
          if String.eqb (msg_method (transaction_request w t)) "CANCEL"
          then if 300 <=? code then released else []
          else if code <? 200
               then match create_cancel w t with
                    | Some _ => [Asked "CANCEL"]
                    | None => match d with Some _ => [Unseen] | None => [] end
                    end
               else released
      | None => []
      end
  | DialogTerminated, _ => if (300 <=? code) && negb (code =? 491) then [Told Call_failure] else []
  end.

Lemma no_orphan d w : freed w = false -> mDialog (sal_op w) = None \/ mDialog (sal_op w) = d ->
  checkForOrphanDialogOn2xx raise d w = Finished false w.
Proof.
  intros Hw Hd. unfold checkForOrphanDialogOn2xx. rewrite (bind_finished _ _ _ _ _ (gets_alive mDialog w Hw)).
  destruct (mDialog (sal_op w)) as [c|]; [|done]. destruct Hd as [?|<-]; [done|].
  unfold of_dialog. unfold_Eff. by rewrite Nat.eqb_refl.
Qed.

(** Telling that the call is released, to an operation without a dialog. *)
Lemma setReleased_told w : freed w = false -> 1 <= mRef (sal_op w) -> mCallReleased (sal_op w) = false ->
  mDialog (sal_op w) = None ->
  exists w', setReleased raise w = Finished tt w' /\ freed w' = false /\ did w w' [Told Call_released]
    /\ mState (sal_op w') = OpTerminated /\ mRef (sal_op w) <= mRef (sal_op w').
Proof.
  intros Hw Hr Hc Hd. unfold setReleased, tell. rewrite (bind_finished _ _ _ _ _ (gets_alive mCallReleased w Hw)), Hc. cbn [negb].
  rewrite (then_finished _ _ _ _ _ (modify_alive _ w Hw)). set (w1 := w <| sal_op := _ |>).
  rewrite (then_finished _ _ _ _ _ (raise_quiet split fuel (Callback Call_released) w1)).
  rewrite (then_finished _ _ _ _ _ (modify_alive _ (record_sip (Callback Call_released) w1) Hw)). set (w2 := (record_sip (Callback Call_released) w1) <| sal_op := _ |>).
  destruct (setOrUpdateDialog_alive None w2) as (w' & -> & Hf & Hh & _ & Hst & Hr' & _); [exact Hw|exact Hr|by left|].
  exists w'. split; [reflexivity|]. split; [exact Hf|]. split; [|by rewrite Hst].
  eapply did_one; [rewrite Hh; reflexivity|reflexivity].
Qed.

Lemma release_without_dialog_quiet w : freed w = false -> 1 <= mRef (sal_op w) -> mCallReleased (sal_op w) = false ->
  exists w', release_without_dialog raise w = Finished tt w' /\ freed w' = false /\ mRef (sal_op w) <= mRef (sal_op w')
    /\ did w w' (match mDialog (sal_op w) with Some _ => [] | None => [Told Call_released] end).
Proof.
  intros Hw Hr Hc. unfold release_without_dialog. rewrite (bind_finished _ _ _ _ _ (gets_alive mDialog w Hw)).
  destruct (mDialog (sal_op w)) as [d|] eqn:Hd; cbn.
  - exists w. repeat split; [exact Hw|lia].
  - destruct (setReleased_told w Hw Hr Hc Hd) as (w' & -> & Hf & Hdid & _ & Hr'). by exists w'.
Qed.

(** What is done with an answer, and that the operation lives on. *)
Definition lives (w : SipWorld) {A} (m : Sip A) (a : A) (ds : list Deed) : Prop :=
  exists w', m w = Finished a w' /\ freed w' = false /\ did w w' ds /\ (2 <= mRef (sal_op w) -> 2 <= mRef (sal_op w')).

Lemma with_reference_lives w m ds : freed w = false -> 1 <= mRef (sal_op w) ->
  (forall w2, freed w2 = false -> sip_history w2 = sip_history w -> mDialog (sal_op w2) = mDialog (sal_op w) ->
    mState (sal_op w2) = mState (sal_op w) -> mCallReleased (sal_op w2) = mCallReleased (sal_op w) ->
    mPendingClientTransaction (sal_op w2) = mPendingClientTransaction (sal_op w) -> 2 <= mRef (sal_op w2) ->
    lives w2 m true ds) ->
  exists w', with_reference m w = Finished tt w' /\ did w w' ds.
Proof.
  intros Hw Hr Hm. unfold with_reference. rewrite (then_finished _ _ _ _ _ (op_ref_alive w Hw)).
  set (w2 := w <| sal_op := _ |>).
  destruct (Hm w2 Hw eq_refl eq_refl eq_refl eq_refl eq_refl) as (w' & E & Hf & Hd & Hr'); [subst w2; cbn; lia|].
  rewrite (bind_finished _ _ _ _ _ E). rewrite op_unref_alive; [|exact Hf|apply Hr'; subst w2; cbn; lia].
  eexists. split; [reflexivity|]. exact Hd.
Qed.

Lemma lives_since w (m : Sip unit) ds : freed w = false -> total (eq w) m (fun _ => Since w ds) ->
  lives w (m ;; mret true) true ds.
Proof.
  intros Hw Hm. destruct (total_run _ _ _ w Hm eq_refl) as ([] & w' & E & Hf & Hs & Hd).
  exists w'. rewrite (then_finished _ _ _ _ _ E). repeat split; [exact Hf|exact Hd|]. pose proof (same_count _ _ Hs). lia.
Qed.

Lemma lives_release w : freed w = false -> 1 <= mRef (sal_op w) -> mCallReleased (sal_op w) = false ->
  lives w (release_without_dialog raise ;; mret true) true
    (match mDialog (sal_op w) with Some _ => [] | None => [Told Call_released] end).
Proof.
  intros Hw Hr Hc. destruct (release_without_dialog_quiet w Hw Hr Hc) as (w' & E & Hf & Hr' & Hd).
  exists w'. rewrite (then_finished _ _ _ _ _ E). repeat split; [exact Hf|exact Hd|lia].
Qed.

(** An answer to the [INVITE] before the call is established. *)
Lemma lives_before_confirmation d response t w :
  freed w = false -> 2 <= mRef (sal_op w) -> mState (sal_op w) = OpTerminating -> mCallReleased (sal_op w) = false ->
  mDialog (sal_op w) = d -> mPendingClientTransaction (sal_op w) = Some t ->
  (status w = DialogEarly \/ status w = DialogNull) -> forall request, msg_method request = "INVITE"%string ->
  lives w (response_before_confirmation split raise d request response ;; mret true) true
    (let released := match d with None => [Told Call_released] | Some _ => [] end in
     if String.eqb (msg_method (transaction_request w t)) "CANCEL"
     then if 300 <=? msg_status response then released else []
     else if msg_status response <? 200
          then match create_cancel w t with
               | Some _ => [Asked "CANCEL"]
               | None => match d with Some _ => [Unseen] | None => [] end
               end
          else released).
Proof.
  intros Hw Hr Hst Hc Hd Ht Hs request Hm. unfold response_before_confirmation. rewrite Hm. cbn [String.eqb Ascii.eqb Bool.eqb].
  assert (Hread : forall k : OpState -> Sip unit, ((st ← gets mState; k st) ;; mret true) w = (k OpTerminating ;; mret true) w).
  { intros k. rewrite <- Hst. unfold mbind, Eff_bind. by rewrite gets_alive by exact Hw. }
  unfold lives. rewrite Hread. change (opstate_eqb OpTerminating OpTerminating) with true. cbv iota.
  assert (Hpend : forall k : Message -> Sip unit,
    ((tr ← gets mPendingClientTransaction; tr ← the tr; pending ← asks (fun w => transaction_request w tr); k pending) ;; mret true) w
    = (k (transaction_request w t) ;; mret true) w).
  { intros k. unfold mbind, Eff_bind. rewrite gets_alive by exact Hw. by rewrite Ht. }
  unfold response_while_terminating. rewrite Hpend.
  destruct (String.eqb (msg_method (transaction_request w t)) "CANCEL"); [|destruct (msg_status response <? 200)].
  - destruct (300 <=? msg_status response); [rewrite <- Hd; apply lives_release; [exact Hw|lia|exact Hc]|].
    exists w. by repeat split.
  - destruct (total_run _ _ _ w (since_cancelInvite None w Hw Hs) eq_refl) as (r & w1 & E & Hf & Hsame & Hdid).
    unfold cancellingInvite. rewrite Ht in Hdid. rewrite <- Hd.
    exists (w1 <| sal_op := (sal_op w1) <| mState := OpTerminating |> |>).
    split; [|repeat split; [exact Hf|exact Hdid|pose proof (same_count _ _ Hsame); cbn; lia]].
    rewrite (then_finished _ _ _ tt (w1 <| sal_op := (sal_op w1) <| mState := OpTerminating |> |>)); [done|].
    rewrite (then_finished _ _ _ _ _ E). by rewrite modify_alive by exact Hf.
  - rewrite <- Hd. apply lives_release; [exact Hw|lia|exact Hc].
Qed.

(** An answer once the call is established, or over. *)
Lemma lives_in_call d request response w : freed w = false -> mState (sal_op w) = OpTerminating ->
  mDialog (sal_op w) = Some d ->
  lives w (response_in_call split raise request response) true
    (match dialog_create_request w d "BYE" with Some _ => [Asked "BYE"] | None => [] end).
Proof.
  intros Hw Hst Hd. unfold lives, response_in_call.
  rewrite (bind_finished _ _ _ _ _ (gets_alive mState w Hw)), Hst.
  rewrite (bind_finished _ _ _ _ _ (gets_alive mDialog w Hw)), Hd.
  rewrite (bind_finished _ _ _ d w) by reflexivity.
  rewrite (bind_finished _ _ _ (dialog_create_request w d "BYE"%string) w) by reflexivity.
  destruct (dialog_create_request w d "BYE") as [bye|] eqn:Hb.
  - apply request_made in Hb as [Hm Hu]. pose proof (since_start w Hw) as Hs.
    destruct (total_run _ _ _ w (since_sendRequest split fuel w [] bye Hu) Hs) as (r & w' & E & Hf & Hsame & Hdid).
    rewrite (then_finished _ _ _ _ _ E). rewrite Hm in Hdid.
    exists w'. repeat split; [exact Hf|exact Hdid|]. pose proof (same_count _ _ Hsame). lia.
  - exists w. by repeat split.
Qed.

Lemma lives_failure response w : freed w = false -> sal_error_info_set (mErrorInfo (sal_op w)) SalReasonUnknown
    (Some "SIP"%string) (msg_status response) (msg_phrase response) (get_header as_warning response) <> None ->
  get_header as_reason response = None ->
  lives w (setError raise response true ;; mret true) true [Told Call_failure].
Proof.
  intros Hw He Hr. destruct (sal_error_info_set _ _ _ _ _ _) as [info|] eqn:Hi; [|done].
  unfold setError, setErrorInfoFromResponse, set_error_info, setReasonErrorInfo, setState, tell. rewrite Hr.
  eexists. split; [|split; [|split]].
  - unfold mbind, Eff_bind. rewrite gets_alive by exact Hw. rewrite Hi. cbn [the mret Eff_ret].
    rewrite modify_alive by exact Hw. cbn [the mret Eff_ret]. rewrite modify_alive by exact Hw. by rewrite raise_quiet.
  - exact Hw.
  - by eapply did_one.
  - done.
Qed.

(** C33. A call that is ended here is ended there.  When an answer to its INVITE
    comes after [terminate]: a provisional one is followed by a CANCEL, unless one
    was sent; one that establishes the call by a BYE, without any acknowledgement
    of it; and a final one that leaves no dialog releases the call.  The operation
    is still there for it, since its transaction holds it. *)
Theorem late_answer_outcome t p d response w :
  freed w = false -> 1 <= mRef (sal_op w) -> mState (sal_op w) = OpTerminating -> mCallReleased (sal_op w) = false ->
  mDialog (sal_op w) = None \/ mDialog (sal_op w) = d -> mPendingClientTransaction (sal_op w) = Some p ->
  msg_method (transaction_request w t) = "INVITE"%string ->
  match d with Some d => dialog_state w d <> DialogTerminated | None => True end ->
  exists w', processResponseCb split raise (Some t) d response w = Finished tt w'
    /\ did w w' (late_answer_deeds d (msg_status response) w).
Proof.
  intros Hw Hr Hst Hc Hd Hp Hm Hnt. unfold processResponseCb.
  rewrite (bind_finished _ _ _ _ _ (no_orphan d w Hw Hd)).
  destruct (setOrUpdateDialog_alive d w Hw Hr Hd) as (w1 & E & H1 & Hh & Hd1 & Hst1 & Hr1 & Hp1 & Hc1).
  rewrite (then_finished _ _ _ _ _ E). destruct (history_matters w w1 Hh) as (Hds & Htr & _ & _).
  set (ds := match d with Some d => dialog_state w d | None => DialogNull end).
  rewrite (bind_finished _ _ _ ds w1) by (unfold state_of_dialog, of_dialog, ds; destruct d; [unfold asks; by rewrite Hds|done]).
  enough (Hl : exists w', with_reference (process_response split raise t d ds response) w1 = Finished tt w'
    /\ did w1 w' (late_answer_deeds d (msg_status response) w)).
  { destruct Hl as (w' & -> & Hdid). exists w'. split; [done|]. eapply (did_app w w1 w' []); [by apply did_nothing|exact Hdid]. }
  apply with_reference_lives; [exact H1|lia|]. intros w2 H2 Hh2 Hd2 Hst2 Hc2 Hp2 Hr2. unfold process_response.
  assert (Hreset : exists w3, (when (negb (msg_status response =? 491)) do resetRetryFunction) w2 = Finished tt w3
    /\ freed w3 = false /\ sip_history w3 = sip_history w2 /\ mDialog (sal_op w3) = d /\ mState (sal_op w3) = OpTerminating
    /\ mCallReleased (sal_op w3) = false /\ mPendingClientTransaction (sal_op w3) = Some p /\ mRef (sal_op w3) = mRef (sal_op w2)).
  { destruct (negb _); eexists; (split; [first [reflexivity|apply modify_alive; exact H2]|]); cbn; repeat split; congruence. }
  destruct Hreset as (w3 & E3 & H3 & Hh3 & Hd3 & Hst3 & Hc3 & Hp3 & Hr3).
  destruct (history_matters w w3) as (Hds3 & Htr3 & Hca3 & Hcr3 & _); [by rewrite Hh3, Hh2|].
  assert (Hgo : lives w3 (request ← asks (fun w => transaction_request w t);
      match ds with
      | DialogNull | DialogEarly => response_before_confirmation split raise d request response ;; mret true
      | DialogConfirmed => response_in_call split raise request response
      | DialogTerminated => mret true
      end) true (late_answer_deeds d (msg_status response) w)).
  { unfold lives. rewrite (bind_finished _ _ _ (transaction_request w3 t) w3) by reflexivity.
    unfold late_answer_deeds. fold ds. rewrite Hp.
    pose proof (lives_before_confirmation d response p w3 H3 ltac:(lia) Hst3 Hc3 Hd3 Hp3) as Hb.
    rewrite Htr3, Hca3 in Hb.
    destruct ds eqn:Hds'; try (apply Hb; [|by rewrite Htr3]; unfold status; rewrite Hd3, Hds3; subst ds; destruct d; auto).
    - destruct d as [d|]; [|discriminate Hds']. rewrite <- Hcr3. by apply lives_in_call.
    - destruct d as [d|]; [done|discriminate Hds']. }
  destruct Hgo as (w' & E' & Hf' & Hdid & Hr').
  exists w'. rewrite (then_finished _ _ _ _ _ E3). split; [|split; [exact Hf'|split; [|intros _; apply Hr'; lia]]].
  - rewrite <- E'. unfold mbind, Eff_bind. cbn. destruct ds eqn:Hds'; try reflexivity. by destruct d.
  - eapply (did_app w2 w3 w' []); [by apply did_nothing|exact Hdid].
Qed.
End Ending.

(** ** The statements at work *)

Lemma simple_stack_spec d t : @StackSpec _ (simple_stack d t).
Proof.
  split; cbn; try done.
  - intros w e method m [= <-]. split; [done|by eexists].
  - intros w e method m [= <-]. split; [done|by eexists].
  - intros w u m. destruct (bool_decide _); [|done]. intros [= <-]. split; [done|by eexists].
  - by intros w w' ->.
Qed.

(** A call between two parties, with a dialog and an [INVITE] that was sent. *)
Definition call_world (dir : OpDir) (st : OpState) (pending dialog : option nat) : SipWorld :=
  (new_world ((example_op dir st) <| mDialog := dialog |> <| mPendingClientTransaction := pending |> <| mRef := 2 |>))
    <| sip_history := [SendRequest 1 (Some alice) (request "INVITE" [] None)] |>.

Section Examples.
#[local] Instance confirmed : SipStack := simple_stack DialogConfirmed TrTerminated.
#[local] Instance confirmed_spec : StackSpec confirmed := simple_stack_spec _ _.

(** A call that is established is hung up with one BYE. *)
Lemma terminate_outcome_witness :
  let w := call_world OpOutgoing OpActive None (Some 7%nat) in
  leads w (terminate (sip_perform no_split 1) None) (terminate_deeds None w)
  /\ terminate_deeds None w = Some ([Asked "BYE"], OpTerminating).
Proof.
  intros w. split; [|vm_compute; reflexivity].
  assert (Hs : opstate_eqb (mState (sal_op w)) OpTerminating || opstate_eqb (mState (sal_op w)) OpTerminated = false)
    by (vm_compute; reflexivity).
  pose proof (terminate_outcome no_split 1 None w eq_refl I) as Ht. rewrite Hs in Ht. exact Ht.
Defined.

(** One that is answered after it was ended, too. *)
Lemma late_answer_outcome_witness :
  let w := call_world OpOutgoing OpTerminating (Some 1%nat) None in
  exists w', processResponseCb no_split (sip_perform no_split 1) (Some 1%nat) (Some 7%nat) (response "INVITE" 200 [] None) w
      = Finished tt w'
    /\ did w w' [Asked "BYE"].
Proof.
  intros w. refine (late_answer_outcome no_split 1 1 1 (Some 7%nat) (response "INVITE" 200 [] None) w
    eq_refl _ eq_refl eq_refl (or_introl eq_refl) eq_refl eq_refl _); [vm_compute; discriminate|discriminate].
Defined.
End Examples.
