(* ===== verification/Cpim.v ===== *)
(** * CPIM messages

    The headers of a CPIM message, what may be added to one, how it is written
    and how what belr reads in a text becomes one ([chat/cpim/header],
    [chat/cpim/message] and [chat/cpim/parser]). *)
From S2P Require Import Prelude SalTypes Payload Sscanf LpConfigValues.

Module Cpim.

(** ** Dates

    What [gmtime] and [timegm] compute: a date is counted in days from 1970-01-01
    in the Gregorian calendar, in years that begin in March.  The fields that say
    how far the time is from UTC are left out: they are always null. *)
Record tm := mkTm { tm_year : Z; tm_mon : Z; tm_mday : Z; tm_hour : Z; tm_min : Z; tm_sec : Z }.

#[export] Instance tm_eta : Eta tm := fun t =>
  mkTm (tm_year t) (tm_mon t) (tm_mday t) (tm_hour t) (tm_min t) (tm_sec t).

Definition zero_tm : tm := mkTm 0 0 0 0 0 0.

(** The year, the month from 1 and the day of a number of days within 400 years
    that begin on a first of March. *)
Definition date_in_era (doe : Z) : Z * Z * Z :=
  let yoe := (doe - doe / 1460 + doe / 36524 - doe / 146096) / 365 in
  let doy := doe - (365 * yoe + yoe / 4 - yoe / 100) in
  let mp := (5 * doy + 2) / 153 in
  let mday := doy - (153 * mp + 2) / 5 + 1 in
  let month := if mp <? 10 then mp + 3 else mp - 9 in
  (if month <=? 2 then yoe + 1 else yoe, month, mday).

Definition day_of_era (year month mday : Z) : Z :=
  let y := if month <=? 2 then year - 1 else year in
  let yoe := y mod 400 in
  let doy := (153 * (if 2 <? month then month - 3 else month + 9) + 2) / 5 + mday - 1 in
  (y / 400) * 146097 + (yoe * 365 + yoe / 4 - yoe / 100 + doy).

(** [gmtime_r]; the year must be an [int]. *)
Definition gmtime (t : Z) : option tm :=
  let days := t / 86400 + 719468 in
  let '(y, month, mday) := date_in_era (days mod 146097) in
  let year := (days / 146097) * 400 + y - 1900 in
  let s := t mod 86400 in
  if (i32 year =? year) then Some (mkTm year (month - 1) mday (s / 3600) (s mod 3600 / 60) (s mod 60)) else None.

(** [timegm]: fields out of their ranges are carried over. *)
Definition timegm (t : tm) : Z :=
  let year := tm_year t + 1900 + tm_mon t / 12 in
  let days := day_of_era year (tm_mon t mod 12 + 1) 1 + (tm_mday t - 1) - 719468 in
  days * 86400 + tm_hour t * 3600 + tm_min t * 60 + tm_sec t.

(** [Utils::getTmAsTimeT] *)
Definition getTmAsTimeT (t : tm) : Z :=
  let result := timegm t in
  if result =? -1 then
    if (tm_hour t =? 0) && (tm_min t =? 0) && (tm_sec t =? 0) && (tm_year t =? 70) && (tm_mon t =? 0) && (tm_mday t =? 1)
    then 0 else -1
  else result.

(** ** Text *)

(** [bctoolbox::Utils::split] with one character between the pieces, given as a
    [char] or as a text of length 1, or with a longer text. *)
Class Splitting := {
  split : string -> ascii -> list string;
  split_text : string -> string -> list string;
}.

Definition quote : string := String "034" EmptyString.

Definition CRLF : string := String "013" (String "010" EmptyString).

(** [setfill('0') << setw(width) << z] *)
Fixpoint zeros (n : nat) : string := match n with O => EmptyString | S n => String "0" (zeros n) end.
Definition padded (width : nat) (z : Z) : string := zeros (width - String.length (to_dec z)) +:+ to_dec z.

(** [find_if_not(begin, end, isspace)] from both ends. *)
Fixpoint drop_spaces (s : string) : string :=
  match s with String c s' => if is_space c then drop_spaces s' else s | EmptyString => EmptyString end.
Fixpoint trim_end (s : string) : string :=
  match s with
  | EmptyString => EmptyString
  | String c s' => match trim_end s' with EmptyString => if is_space c then EmptyString else String c EmptyString | t => String c t end
  end.
Definition trim (s : string) : string := trim_end (drop_spaces s).

Definition last_char (s : string) : option ascii := String.get (String.length s - 1) s.

(** [Utils::stoi] *)
Definition stoi (s : string) : Z := atoi s.

(** ** Headers ([cpim-core-headers.cpp], [cpim-generic-header.cpp]) *)

Inductive Header :=
  | FromHeader (uri formalName : string)
  | ToHeader (uri formalName : string)
  | CcHeader (uri formalName : string)
  | DateTimeHeader (dateTime dateTimeOffset : tm) (signOffset : string)
  | SubjectHeader (subject language : string)
  | NsHeader (uri prefixName : string)
  | RequireHeader (headerNames : list string)
  | GenericHeader (name value : string) (parameters : list (string * string)).

(** [ContactHeader::setFormalName]: what it stores. *)
Definition setFormalName (formalName : string) : string :=
  match formalName with
  | String c _ =>
      if Ascii.eqb c "034" && bool_decide (last_char formalName = Some "034"%char)
      then String.substring 1 (String.length formalName - 2) formalName
      else if bool_decide (last_char formalName = Some " "%char)
      then String.substring 0 (String.length formalName - 1) formalName
      else formalName
  | EmptyString => EmptyString
  end.

Definition reserved : list string := ["From"; "To"; "cc"; "DateTime"; "Subject"; "NS"; "Require"]%string.
Definition is_reserved (name : string) : bool := existsb (String.eqb name) reserved.

(** [GenericHeader::setName] and [HeaderNode::setName] leave the name they had. *)
Definition setName (name old : string) : string := if is_reserved name then old else name.

(** [DateTimeHeader::setTime] on a [time_t]: the offset is not written. *)
Definition DateTimeHeader_of_time (time : Z) : outcome Header :=
  match gmtime time with
  | Some t => Done (DateTimeHeader (t <| tm_year := tm_year t + 1900 |>) zero_tm "Z")
  | None => Undefined
  end.

(** The two loops of [DateTimeHeader::getTime]. *)
Fixpoint carry_up (fuel : nat) (t : tm) : tm :=
  match fuel with
  | S fuel => if 59 <? tm_min t then carry_up fuel (t <| tm_hour := tm_hour t + 1 |> <| tm_min := tm_min t - 60 |>) else t
  | O => t
  end.
Fixpoint carry_down (fuel : nat) (t : tm) : tm :=
  match fuel with
  | S fuel => if tm_min t <? 0 then carry_down fuel (t <| tm_hour := tm_hour t - 1 |> <| tm_min := tm_min t + 60 |>) else t
  | O => t
  end.

Definition DateTimeHeader_getTime (dateTime offset : tm) (sign : string) : Z :=
  let result := dateTime <| tm_year := tm_year dateTime - 1900 |> in
  getTmAsTimeT (
    if String.eqb sign "+" then
      let result := result <| tm_hour := tm_hour result + tm_hour offset |> <| tm_min := tm_min result + tm_min offset |> in
      carry_up (Z.to_nat (tm_min result)) result
    else if String.eqb sign "-" then
      let result := result <| tm_hour := tm_hour result - tm_hour offset - tm_min offset |> in
      carry_down (Z.to_nat (- tm_min result)) result
    else result).

Definition RequireHeader_of_text `{Splitting} (headerNames : string) : Header := RequireHeader (split headerNames ",").

Definition add_parameters (parts : list string) : list (string * string) :=
  omap (fun parameter => split_at "=" parameter) parts.

Definition make_generic `{Splitting} (name value parameters : string) : Header :=
  GenericHeader (setName name "") value (add_parameters (split parameters ";")).

Definition parameters_text (parameters : list (string * string)) : string :=
  String.concat "" (map (fun p => ";" +:+ fst p +:+ "=" +:+ snd p) parameters).

Definition getName (h : Header) : string :=
  match h with
  | FromHeader _ _ => "From" | ToHeader _ _ => "To" | CcHeader _ _ => "cc" | DateTimeHeader _ _ _ => "DateTime"
  | SubjectHeader _ _ => "Subject" | NsHeader _ _ => "NS" | RequireHeader _ => "Require"
  | GenericHeader name _ _ => name
  end.

(** A separator before every name that differs from the first one. *)
Definition join_names (headerNames : list string) : string :=
  fold_left (fun text h => (if bool_decide (Some h = hd_error headerNames) then text else text +:+ ",") +:+ h)
    headerNames EmptyString.

Definition contact_value (uri formalName : string) : string :=
  (if str_empty formalName then "" else quote +:+ formalName +:+ quote) +:+ "<" +:+ uri +:+ ">".

Definition date_value (t offset : tm) (sign : string) : string :=
  padded 4 (tm_year t) +:+ "-" +:+ padded 2 (tm_mon t + 1) +:+ "-" +:+ padded 2 (tm_mday t) +:+ "T"
  +:+ padded 2 (tm_hour t) +:+ ":" +:+ padded 2 (tm_min t) +:+ ":" +:+ padded 2 (tm_sec t) +:+ sign
  +:+ (if String.eqb sign "Z" then "" else padded 2 (tm_hour offset) +:+ ":" +:+ padded 2 (tm_min offset)).

Definition getValue (h : Header) : string :=
  match h with
  | FromHeader uri name | ToHeader uri name | CcHeader uri name => contact_value uri name
  | DateTimeHeader t offset sign => date_value t offset sign
  | SubjectHeader subject language => (if str_empty language then "" else ";lang=" +:+ language) +:+ " " +:+ subject
  | NsHeader uri prefix => (if str_empty prefix then "" else prefix +:+ " ") +:+ "<" +:+ uri +:+ ">"
  | RequireHeader names => join_names names
  | GenericHeader _ value _ => value
  end.

Definition header_asString (h : Header) : string :=
  match h with
  | GenericHeader name value parameters => name +:+ ":" +:+ parameters_text parameters +:+ " " +:+ value +:+ CRLF
  | SubjectHeader _ _ => "Subject:" +:+ getValue h +:+ CRLF
  | _ => getName h +:+ ": " +:+ getValue h +:+ CRLF
  end.

(** ** Nodes ([cpim-parser.cpp]) *)

Inductive HeaderNode :=
  | FromHeaderNode (formalName uri : string)
  | ToHeaderNode (formalName uri : string)
  | CcHeaderNode (formalName uri : string)
  | DateTimeHeaderNode (time timeOffset : tm) (signOffset : string)
  | SubjectHeaderNode (language subject : string)
  | NsHeaderNode (prefixName uri : string)
  | RequireHeaderNode (headerNames : string)
  | GenericHeaderNode (name value parameters : string).

Definition daysInMonth : list Z := [31; 28; 31; 30; 31; 30; 31; 31; 30; 31; 30; 31].

Definition isLeapYear (year : Z) : bool :=
  ((Z.rem year 4 =? 0) && negb (Z.rem year 100 =? 0)) || (Z.rem year 400 =? 0).

(** [DateTimeHeaderNode::isValid]: the months of [tm] begin with 0; [daysInMonth]
    has no thirteenth one. *)
Definition date_isValid (t offset : tm) (sign : string) : outcome bool :=
  if (tm_mon t <? 1) || (12 <? tm_mon t) then Done false
  else if tm_mday t <? 1 then Done false
  else
    match (if (tm_mon t =? 2) && isLeapYear (tm_year t) then Some 29 else daysInMonth !! Z.to_nat (tm_mon t)) with
    | None => Undefined
    | Some last => Done (
        if last <? tm_mday t then false
        else if (24 <? tm_hour t) || (59 <? tm_min t) || (60 <? tm_sec t) then false
        else if negb (String.eqb sign "Z") && ((24 <? tm_hour offset) || (59 <? tm_min t)) then false
        else true)
    end.

(** [createHeader]: [None] is a null pointer. *)
Definition createHeader `{Splitting} (node : HeaderNode) : outcome (option Header) :=
  match node with
  | FromHeaderNode formalName uri =>
      Done (if str_empty uri then None else Some (FromHeader uri (setFormalName formalName)))
  | ToHeaderNode formalName uri =>
      Done (if str_empty uri then None else Some (ToHeader uri (setFormalName formalName)))
  | CcHeaderNode formalName uri =>
      Done (if str_empty uri then None else Some (CcHeader uri (setFormalName formalName)))
  | DateTimeHeaderNode t offset sign =>
      let* valid := date_isValid t offset sign in
      Done (if valid : bool then Some (DateTimeHeader t offset sign) else None)
  | SubjectHeaderNode language subject => Done (if str_empty subject then None else Some (SubjectHeader subject language))
  | NsHeaderNode prefix uri => Done (if str_empty uri then None else Some (NsHeader uri prefix))
  | RequireHeaderNode names => Done (if str_empty names then None else Some (RequireHeader_of_text names))
  | GenericHeaderNode name value parameters =>
      Done (if str_empty name || str_empty value then None else Some (make_generic name value parameters))
  end.

(** The node a header is copied through. *)
Definition node_of_header (h : Header) : HeaderNode :=
  match h with
  | FromHeader uri name => FromHeaderNode name uri
  | ToHeader uri name => ToHeaderNode name uri
  | CcHeader uri name => CcHeaderNode name uri
  | DateTimeHeader t offset sign => DateTimeHeaderNode t offset sign
  | SubjectHeader subject language => SubjectHeaderNode language subject
  | NsHeader uri prefix => NsHeaderNode prefix uri
  | RequireHeader names => RequireHeaderNode (join_names names)
  | GenericHeader name value parameters => GenericHeaderNode name value (parameters_text parameters)
  end.

(** [Parser::cloneHeader] *)
Definition cloneHeader `{Splitting} (h : Header) : outcome (option Header) := createHeader (node_of_header h).

(** ** What belr reads

    The fields belr gives to the collectors of [Parser::Parser], for every rule of
    the grammar that has a handler. *)
Record DateTimeFields := mkDateTimeFields {
  date_fullyear : string; date_month : string; date_mday : string;
  time_hour : string; time_minute : string; time_second : string;
  (** [time-sign], [time-hour] and [time-minute] of a [time-numoffset] *)
  time_offset : option (string * string * string);
}.

Inductive HeaderTree :=
  | FromTree (formal_name uri : string)
  | ToTree (formal_name uri : string)
  | CcTree (formal_name uri : string)
  | DateTimeTree (fields : DateTimeFields)
  | SubjectTree (language_tag header_value : string)
  | NsTree (name_prefix uri : string)
  | RequireTree (require_header_value : string)
  | GenericTree (header_name header_value header_parameters : string).

Record MessageTree := mkMessageTree { message_headers : list HeaderTree; content_headers : list HeaderTree }.

(** belr and its grammar: what [parseInput "Message"] reads at the beginning of a
    text, and how much of it. *)
Class CpimGrammar := { parseInput : string -> option (MessageTree * nat) }.

(** The collectors of [DateTimeHeaderNode] and of [DateTimeOffsetNode]; the members
    they do not write are 0. *)
Definition date_of_fields (f : DateTimeFields) : HeaderNode :=
  let t := mkTm (stoi (date_fullyear f)) (stoi (date_month f) - 1) (stoi (date_mday f))
                (stoi (time_hour f)) (stoi (time_minute f)) (stoi (time_second f)) in
  match time_offset f with
  | Some (sign, hour, minute) => DateTimeHeaderNode t (mkTm 0 0 0 (stoi hour) (stoi minute) 0) sign
  | None => DateTimeHeaderNode t zero_tm "Z"
  end.

(** The node the handler of a rule makes. *)
Definition node_of_tree (tree : HeaderTree) : HeaderNode :=
  match tree with
  | FromTree name uri => FromHeaderNode name uri
  | ToTree name uri => ToHeaderNode name uri
  | CcTree name uri => CcHeaderNode name uri
  | DateTimeTree f => date_of_fields f
  | SubjectTree tag value => SubjectHeaderNode tag value
  | NsTree prefix uri => NsHeaderNode prefix uri
  | RequireTree names => RequireHeaderNode names
  | GenericTree name value parameters => GenericHeaderNode (setName name "") value parameters
  end.

(** The name of a node: only generic ones have one. *)
Definition node_name (node : HeaderNode) : string :=
  match node with GenericHeaderNode name _ _ => name | _ => EmptyString end.

Definition rename_node (name : string) (node : HeaderNode) : HeaderNode :=
  match node with GenericHeaderNode old value parameters => GenericHeaderNode (setName name old) value parameters | n => n end.

(** ** Messages ([cpim-message.cpp]) *)

(** [messageHeaders] is a [std::map], in the order of its keys. *)
Record Message := mkMessage {
  messageHeaders : list (string * list Header);
  contentHeaders : list Header;
  content : string;
}.

#[export] Instance message_eta : Eta Message := fun m => mkMessage (messageHeaders m) (contentHeaders m) (content m).

Definition new_message : Message := mkMessage [] [] EmptyString.

(** [at] *)
Definition headers_at (ns : string) (headers : list (string * list Header)) : option (list Header) :=
  snd <$> List.find (fun e => String.eqb (fst e) ns) headers.

(** [push_back] on the list of a namespace, which is made when there is none. *)
Fixpoint headers_push (ns : string) (h : Header) (headers : list (string * list Header)) : list (string * list Header) :=
  match headers with
  | [] => [(ns, [h])]
  | (ns', l) :: headers' =>
      match String.compare ns ns' with
      | Eq => (ns', l ++ [h]) :: headers'
      | Lt => (ns, [h]) :: headers
      | Gt => (ns', l) :: headers_push ns h headers'
      end
  end.

Section Messages.
Context `{Splitting}.

(** Whether the header was added, and the message. *)
Definition addMessageHeader (h : Header) (ns : string) (m : Message) : outcome (bool * Message) :=
  let* header := cloneHeader h in
  Done match header with
       | None => (false, m)
       | Some header => (true, m <| messageHeaders := headers_push ns header (messageHeaders m) |>)
       end.

Definition addContentHeader (h : Header) (m : Message) : outcome (bool * Message) :=
  let* header := cloneHeader h in
  Done match header with
       | None => (false, m)
       | Some header => (true, m <| contentHeaders := contentHeaders m ++ [header] |>)
       end.

Definition same_header (a b : Header) : bool := String.eqb (getName a) (getName b) && String.eqb (getValue a) (getValue b).

Definition removeMessageHeader (h : Header) (ns : string) (m : Message) : Message :=
  m <| messageHeaders := map (fun e => if String.eqb (fst e) ns
                                       then (fst e, List.filter (fun x => negb (same_header h x)) (snd e)) else e)
                             (messageHeaders m) |>.
Definition removeContentHeader (h : Header) (m : Message) : Message :=
  m <| contentHeaders := List.filter (fun x => negb (same_header h x)) (contentHeaders m) |>.

Definition getMessageHeaders (ns : string) (m : Message) : option (list Header) := headers_at ns (messageHeaders m).

Definition header_named (name : string) (l : list Header) : option Header :=
  List.find (fun h => String.eqb (getName h) name) l.
Definition getMessageHeader (name ns : string) (m : Message) : option Header :=
  match getMessageHeaders ns m with Some l => header_named name l | None => None end.
Definition getContentHeader (name : string) (m : Message) : option Header := header_named name (contentHeaders m).

Definition namespace_text (e : string * list Header) : string :=
  String.concat "" (map (fun h => (if str_empty (fst e) then "" else fst e +:+ ".") +:+ header_asString h) (snd e)).

Definition asString (m : Message) : string :=
  (match messageHeaders m with
   | [] => EmptyString
   | l => String.concat "" (map namespace_text l) +:+ CRLF
   end)
  +:+ String.concat "" (map header_asString (contentHeaders m)) +:+ CRLF +:+ content m.

(** ** From what belr reads to a message ([MessageNode::createMessage]) *)

(** The namespace of a node, and the node without it. *)
Definition node_namespace (node : HeaderNode) : string * HeaderNode :=
  match split_at "." (node_name node) with
  | Some (ns, name) => (ns, rename_node name node)
  | None => (EmptyString, node)
  end.

(** What [addMessageHeader] returns is not read. *)
Definition add_message_node (m : option Message) (node : HeaderNode) : outcome (option Message) :=
  match m with
  | None => Done None
  | Some m =>
      let '(ns, node) := node_namespace node in
      let* header := createHeader node in
      match header with
      | None => Done None
      | Some header => let* (_, m) := addMessageHeader header ns m in Done (Some m)
      end
  end.

Definition add_content_node (m : option Message) (node : HeaderNode) : outcome (option Message) :=
  match m with
  | None => Done None
  | Some m =>
      let* header := createHeader node in
      match header with
      | None => Done None
      | Some header => let* (_, m) := addContentHeader header m in Done (Some m)
      end
  end.

(** A null message ends both loops. *)
Definition createMessage (message_nodes content_nodes : list HeaderNode) : outcome (option Message) :=
  match content_nodes, message_nodes with
  | [], _ | _, [] => Done None
  | _, _ =>
      let* m := ofold add_message_node (Some new_message) message_nodes in
      ofold add_content_node m content_nodes
  end.

(** [Parser::parseMessage], and [Message::createFromString] *)
Definition parseMessage `{CpimGrammar} (input : string) : outcome (option Message) :=
  match parseInput input with
  | None => Done None
  | Some (tree, parsedSize) =>
      let* m := createMessage (map node_of_tree (message_headers tree)) (map node_of_tree (content_headers tree)) in
      Done (option_map (fun m => m <| content := String.substring parsedSize (String.length input - parsedSize) input |>) m)
  end.
End Messages.
End Cpim.
