(* ===== verification/CpimModifier.v ===== *)
(** * Chat messages within CPIM messages

    Content types and dispositions ([content/content-type.cpp],
    [content/content-disposition.cpp]), and the modifier that wraps the content of a
    chat message in a CPIM message when it is sent, and unwraps it when it is
    received ([chat/modifier/cpim-chat-message-modifier.cpp]). *)
From S2P Require Import Prelude SalTypes Payload Sscanf LpConfigValues ChatTypes Cpim.
Import Cpim.

Module CpimModifier.

(** ** Content types and dispositions *)

(** [HeaderParam], from the text of a parameter. *)
Definition HeaderParam_of_text (param : string) : string * string :=
  match split_at "=" param with Some p => p | None => (param, EmptyString) end.

Definition HeaderParam_asString (p : string * string) : string :=
  ";" +:+ fst p +:+ (if str_empty (snd p) then "" else "=" +:+ snd p).

(** [Header::removeParameter]: [remove] takes out all those that equal the one found. *)
Definition removeParameter (name : string) (params : list (string * string)) : list (string * string) :=
  match List.find (fun p => String.eqb (fst p) name) params with
  | Some found => List.filter (fun p => negb (bool_decide (p = found))) params
  | None => params
  end.
Definition addParameter (params : list (string * string)) (p : string * string) : list (string * string) :=
  removeParameter (fst p) params ++ [p].

Record ContentType := mkContentType {
  ct_value : string; ct_type : string; ct_subType : string; ct_params : list (string * string);
}.
#[export] Instance ContentType_eta : Eta ContentType := fun c =>
  mkContentType (ct_value c) (ct_type c) (ct_subType c) (ct_params c).

Definition no_type : ContentType := mkContentType EmptyString EmptyString EmptyString [].

Definition setType (type : string) (c : ContentType) : bool * ContentType :=
  if str_has "/" type then (false, c)
  else (true, c <| ct_type := tolower type |> <| ct_value := tolower type +:+ "/" +:+ ct_subType c |>).
Definition setSubType (subType : string) (c : ContentType) : bool * ContentType :=
  if str_has "/" subType then (false, c)
  else (true, c <| ct_subType := tolower subType |> <| ct_value := ct_type c +:+ "/" +:+ tolower subType |>).

(** [substr(pos + 1, end - (pos + 1))], where the length wraps when [end] comes
    before. *)
Definition substr_between (s : string) (pos end_ : nat) : string :=
  String.substring (pos + 1) (if Nat.leb (pos + 1) end_ then end_ - (pos + 1) else String.length s) s.

(** [ContentType::ContentType] on a text; the loop takes the parameters one by one. *)
Definition ContentType_of_text (text : string) : ContentType :=
  match String.index 0 "/" text with
  | None => no_type
  | Some pos =>
      let posParam := String.index 0 ";" text in
      let end_ := default (String.length text) posParam in
      let c :=
        match setType (trim (String.substring 0 pos text)) no_type with
        | (true, c) =>
            match setSubType (trim (substr_between text pos end_)) c with
            | (true, c) => c
            | (false, c) => c <| ct_type := EmptyString |>
            end
        | (false, c) => c
        end in
      match posParam with
      | None => c
      | Some p =>
          c <| ct_params := fold_left addParameter
                 (map HeaderParam_of_text (split_on ";" (String.substring (p + 1) (String.length text) text)))
                 (ct_params c) |>
      end
  end.

(** [ContentType::operator=] *)
Definition ContentType_assign (old other : ContentType) : ContentType :=
  let c := snd (setType (ct_type other) old) in
  let c := snd (setSubType (ct_subType other) c) in
  c <| ct_params := fold_left addParameter (ct_params other) [] |>.

Definition same_type (a b : ContentType) : bool :=
  String.eqb (ct_type a) (ct_type b) && String.eqb (ct_subType a) (ct_subType b).

Definition getMediaType (c : ContentType) : string :=
  ct_value c +:+ String.concat "" (map HeaderParam_asString (ct_params c)).

Definition Cpim_type : ContentType := ContentType_of_text "message/cpim".
Definition PlainText : ContentType := ContentType_of_text "text/plain".

Record ContentDisposition := mkDisposition { disposition : string; disposition_parameter : string }.

Definition no_disposition : ContentDisposition := mkDisposition EmptyString EmptyString.

Definition ContentDisposition_of_text (text : string) : ContentDisposition :=
  match split_at ";" text with
  | Some (before, after) => mkDisposition (trim before) (trim after)
  | None => mkDisposition (trim text) EmptyString
  end.

Definition disposition_isValid (d : ContentDisposition) : bool := negb (str_empty (disposition d)).
Definition disposition_asString (d : ContentDisposition) : string :=
  if disposition_isValid d then
    disposition d +:+ (if str_empty (disposition_parameter d) then "" else ";" +:+ disposition_parameter d)
  else EmptyString.

(** What of a [Content] the modifier reads and writes. *)
Record Content := mkContent {
  mBody : string; mSize : Z;
  mContentType : ContentType; mContentDisposition : ContentDisposition; mContentEncoding : string;
  relatedChatMessageId : string;
}.
#[export] Instance Content_eta : Eta Content := fun c =>
  mkContent (mBody c) (mSize c) (mContentType c) (mContentDisposition c) (mContentEncoding c) (relatedChatMessageId c).

Definition new_content : Content := mkContent EmptyString 0 no_type no_disposition EmptyString EmptyString.

Definition getSize (c : Content) : Z := if str_empty (mBody c) then mSize c else Z.of_nat (String.length (mBody c)).
Definition Content_isEmpty (c : Content) : bool := getSize c =? 0.

Definition setContentType (type : ContentType) (c : Content) : Content :=
  c <| mContentType := ContentType_assign (mContentType c) type |>.

(** ** The interface of the modifier *)

(** Addresses, and what depends on the platform. *)
Class CpimPlatform `{AddressLib} := {
  asStringUriOnly : Address -> string;
  address_toString : Address -> string;
  getDisplayName : Address -> string;
  (** A clone after [setDisplayName("")]. *)
  without_display_name : Address -> Address;
  (** [(long)Utils::stod(text)] *)
  long_of_text : string -> Z;
  utf8ToLocale : string -> string;
  localeToUtf8 : string -> string;
  multipartToContentList : Content -> list Content;
}.

(** What the modifier reads and writes of a [ChatMessage]. *)
Record ChatMessage `{AddressLib} := mkChatMessage {
  fromAddress : option Address;
  toAddress : option Address;
  authenticatedFromAddress : Address;
  senderAuthenticationEnabled : bool;
  time : Z;
  imdnId : string;
  forwardInfo : string;
  replyingToMessageId : string;
  replyingToMessageSender : option Address;
  reactionToMessageId : string;
  isEphemeral : bool;
  ephemeralLifetime : Z;
  positiveDeliveryNotificationRequired : bool;
  negativeDeliveryNotificationRequired : bool;
  displayNotificationRequired : bool;
  internalContent : Content;
  contents : list Content;
}.
#[export] Instance ChatMessage_eta `{AddressLib} : Eta ChatMessage := fun m =>
  mkChatMessage _ (fromAddress m) (toAddress m) (authenticatedFromAddress m) (senderAuthenticationEnabled m) (time m) (imdnId m)
    (forwardInfo m) (replyingToMessageId m) (replyingToMessageSender m) (reactionToMessageId m) (isEphemeral m)
    (ephemeralLifetime m) (positiveDeliveryNotificationRequired m) (negativeDeliveryNotificationRequired m)
    (displayNotificationRequired m) (internalContent m) (contents m).

(** What the room of the message says: the contact address of the account, when
    there is one, the backend and the local address. *)
Record Room `{AddressLib} := mkRoom {
  account : option (option Address);
  isBasicChatRoom : bool;
  localAddress : option Address;
}.

(** [Applied] is [Result::Done]. *)
Inductive Result := Skipped | Applied | Suspended | Error.

Definition linphoneNamespaceTag : string := "tag:linphone.org,2020:params:groupchat".
Definition linphoneNamespace : string := "linphone".
Definition linphoneEphemeralHeader : string := "Ephemeral-Time".
Definition linphoneReplyingToMessageIdHeader : string := "Replying-To-Message-ID".
Definition linphoneReplyingToMessageSenderHeader : string := "Replying-To-Sender".
Definition linphoneReactionToMessageIdHeader : string := "In-Reply-To".
Definition imdnNamespaceUrn : string := "urn:ietf:params:imdn".
Definition imdnNamespace : string := "imdn".
Definition imdnMessageIdHeader : string := "Message-ID".
Definition imdnForwardInfoHeader : string := "Forward-Info".
Definition imdnDispositionNotificationHeader : string := "Disposition-Notification".

Section Modifier.
Context `{CpimPlatform} `{Splitting} `{CpimGrammar}.

(** Reading through a pointer. *)
Definition pointed {A} (p : option A) : outcome A := match p with Some a => Done a | None => Undefined end.

Definition setImdnMessageId (id : string) (m : ChatMessage) : ChatMessage :=
  m <| imdnId := id |> <| contents := map (fun c => c <| relatedChatMessageId := id |>) (contents m) |>.

Definition setReactionToMessageId (id : string) (m : ChatMessage) : ChatMessage :=
  m <| reactionToMessageId := id |> <| positiveDeliveryNotificationRequired := false |>
    <| negativeDeliveryNotificationRequired := false |> <| displayNotificationRequired := false |>.

Definition enableEphemeralWithTime (lifetime : Z) (m : ChatMessage) : ChatMessage :=
  m <| isEphemeral := true |> <| ephemeralLifetime := lifetime |>.

(** The content the modifiers before this one left, or the first one. *)
Definition current_content (m : ChatMessage) : option Content :=
  if Content_isEmpty (internalContent m) then hd_error (contents m) else Some (internalContent m).

(** ** Sending *)

Definition generic (name value : string) : Header := make_generic name value "".
Definition linphone_header (name value : string) : Header := generic (linphoneNamespace +:+ "." +:+ name) value.
Definition imdn_header (name value : string) : Header := generic (imdnNamespace +:+ "." +:+ name) value.

Definition linphone_namespace (already_set : bool) : list Header :=
  if already_set then [] else [NsHeader linphoneNamespaceTag linphoneNamespace].

Definition notifications_required (m : ChatMessage) : bool :=
  positiveDeliveryNotificationRequired m || negativeDeliveryNotificationRequired m || displayNotificationRequired m.

(** [Utils::join] of the notifications that are asked for. *)
Definition disposition_values (m : ChatMessage) : list string :=
  (if positiveDeliveryNotificationRequired m then ["positive-delivery"] else [])
  ++ (if negativeDeliveryNotificationRequired m then ["negative-delivery"] else [])
  ++ (if displayNotificationRequired m then ["display"] else []).

(** The address the message is from: the contact of the account, but in a basic
    room, or else the one of the message. *)
Definition local_device (contact : option Address) (room : Room) (m : ChatMessage) : option Address :=
  match (if isBasicChatRoom room then None else contact) with Some a => Some a | None => fromAddress m end.

Definition ephemeral_headers (m : ChatMessage) : list Header :=
  if isEphemeral m then
    [NsHeader linphoneNamespaceTag linphoneNamespace; linphone_header linphoneEphemeralHeader (to_dec (ephemeralLifetime m))]
  else [].

Definition reply_headers (m : ChatMessage) : outcome (list Header) :=
  if str_empty (replyingToMessageId m) then Done []
  else
    let* sender := pointed (replyingToMessageSender m) in
    Done (linphone_namespace (isEphemeral m) ++
          [linphone_header linphoneReplyingToMessageIdHeader (replyingToMessageId m);
           linphone_header linphoneReplyingToMessageSenderHeader (address_toString sender)]).

(** The headers of a message that asks for notifications, which has [id]. *)
Definition notification_headers (id : string) (m : ChatMessage) : outcome (list Header) :=
  let* reply := reply_headers m in
  Done (ephemeral_headers m
        ++ [NsHeader imdnNamespaceUrn imdnNamespace; imdn_header imdnMessageIdHeader id]
        ++ (if str_empty (forwardInfo m) then [] else [imdn_header imdnForwardInfoHeader (forwardInfo m)])
        ++ reply
        ++ [imdn_header imdnDispositionNotificationHeader (String.concat ", " (disposition_values m))]).

(** Whether the namespace of linphone is declared by the headers above. *)
Definition linphone_namespace_set (m : ChatMessage) : bool :=
  notifications_required m && (isEphemeral m || negb (str_empty (replyingToMessageId m))).

Definition reaction_headers (m : ChatMessage) : list Header :=
  if str_empty (reactionToMessageId m) then []
  else linphone_namespace (linphone_namespace_set m)
       ++ [linphone_header linphoneReactionToMessageIdHeader (reactionToMessageId m)].

Definition encoded_content_headers (content : Content) (m : ChatMessage) : list Header :=
  (if str_empty (reactionToMessageId m) then
     if disposition_isValid (mContentDisposition content)
     then [generic "Content-Disposition" (disposition_asString (mContentDisposition content))] else []
   else [generic "Content-Disposition" "Reaction"])
  ++ [generic "Content-Type" (getMediaType (mContentType content));
      generic "Content-Length" (to_dec (Z.of_nat (String.length (mBody content))))].

Definition add_message_header (cpim : Message) (h : Header) : outcome Message :=
  let* (_, cpim) := addMessageHeader h "" cpim in Done cpim.
Definition add_content_header (cpim : Message) (h : Header) : outcome Message :=
  let* (_, cpim) := addContentHeader h cpim in Done cpim.

(** [encode]; [token] is the random one.  The front of an empty list of contents
    is undefined. *)
Definition encode (token : string) (room : Room) (m : ChatMessage) : outcome (Result * ChatMessage) :=
  match account room with
  | None => Done (Error, m)
  | Some contact =>
      let* device := pointed (local_device contact room m) in
      let device := without_display_name device in
      let* to := pointed (toAddress m) in
      let* date := DateTimeHeader_of_time (time m) in
      let id := if str_empty (imdnId m) then token else imdnId m in
      let* notifications := if notifications_required m then notification_headers id m else Done [] in
      let* cpim := ofold add_message_header new_message
        ([FromHeader (asStringUriOnly device) (setFormalName (getDisplayName device));
          ToHeader (asStringUriOnly to) (setFormalName (getDisplayName to)); date]
         ++ notifications ++ reaction_headers m) in
      let m := if notifications_required m && str_empty (imdnId m) then setImdnMessageId token m else m in
      let* content := pointed (current_content m) in
      let* cpim := ofold add_content_header cpim (encoded_content_headers content m) in
      let cpim := cpim <| Cpim.content := mBody content |> in
      let wrapped := (setContentType Cpim_type new_content) <| mBody := asString cpim |> in
      Done (Applied, m <| internalContent := wrapped |>)
  end.

(** ** Receiving *)

(** The prefix of the last header that declares [uri], when it is not empty. *)
Definition declared_prefix (uri : string) (headers : option (list Header)) : string :=
  fold_left (fun prefix h => match h with
                             | NsHeader u p => if String.eqb u uri then p else prefix
                             | _ => prefix
                             end) (default [] headers) EmptyString.

Definition read_disposition (m : ChatMessage) (value : string) : ChatMessage :=
  let value := trim value in
  if String.eqb value "positive-delivery" then m <| positiveDeliveryNotificationRequired := true |>
  else if String.eqb value "negative-delivery" then m <| negativeDeliveryNotificationRequired := true |>
  else if String.eqb value "display" then m <| displayNotificationRequired := true |>
  else m.

(** What the headers of the [imdn] namespace give. *)
Definition read_imdn (prefix : string) (cpim : Message) (m : ChatMessage) : ChatMessage :=
  if str_empty prefix then m
  else
    let m := match getMessageHeader imdnDispositionNotificationHeader prefix cpim with
             | Some h => fold_left read_disposition (split_text (getValue h) ", ") m
             | None => m
             end in
    match getMessageHeader imdnForwardInfoHeader prefix cpim with
    | Some h => m <| forwardInfo := getValue h |>
    | None => m
    end.

(** Those of the namespace of linphone; [disposition] is the one of the content. *)
Definition read_linphone (prefix : string) (disposition : option Header) (cpim : Message) (m : ChatMessage) : ChatMessage :=
  if str_empty prefix then m
  else
    let m := match getMessageHeader linphoneEphemeralHeader prefix cpim with
             | Some h => enableEphemeralWithTime (long_of_text (getValue h)) m
             | None => m
             end in
    let m := match getMessageHeader linphoneReplyingToMessageIdHeader prefix cpim,
                   getMessageHeader linphoneReplyingToMessageSenderHeader prefix cpim with
             | Some id, Some sender =>
                 m <| replyingToMessageId := getValue id |>
                   <| replyingToMessageSender := Some (Address_create (getValue sender)) |>
             | _, _ => m
             end in
    match getMessageHeader linphoneReactionToMessageIdHeader prefix cpim, disposition with
    | Some id, Some d =>
        if negb (str_empty (getValue d)) && strcasecmp_eq "Reaction" (getValue d)
        then setReactionToMessageId (getValue id) m else m
    | _, _ => m
    end.

Definition message_id_header (prefix : string) (cpim : Message) : option Header :=
  match getMessageHeader imdnMessageIdHeader "" cpim with
  | Some h => Some h
  | None => if str_empty prefix then None else getMessageHeader imdnMessageIdHeader prefix cpim
  end.

(** Everything the headers say of a message, and whether its sender is the one
    that was authenticated, when that matters. *)
Definition read_headers (from : Header) (disposition : option Header) (cpim : Message) (m : ChatMessage) : ChatMessage * bool :=
  let m := m <| positiveDeliveryNotificationRequired := false |> <| negativeDeliveryNotificationRequired := false |>
             <| displayNotificationRequired := false |> in
  let imdn := declared_prefix imdnNamespaceUrn (getMessageHeaders "" cpim) in
  let linphone := declared_prefix linphoneNamespaceTag (getMessageHeaders "" cpim) in
  let m := match getMessageHeader "DateTime" "" cpim with
           | Some (DateTimeHeader t offset sign) => m <| time := DateTimeHeader_getTime t offset sign |>
           | _ => m
           end in
  let m := read_linphone linphone disposition cpim (read_imdn imdn cpim m) in
  let m := match message_id_header imdn cpim with Some h => setImdnMessageId (getValue h) m | None => m end in
  (m, negb (senderAuthenticationEnabled m)
      || address_equal (Address_create (getValue from)) (authenticatedFromAddress m)).

(** The content of a message that is received. *)
Definition decoded_content (type : Header) (disposition : option Header) (cpim : Message) (content : Content) : Content :=
  let c := setContentType (ContentType_of_text (getValue type)) new_content in
  let c := match disposition with
           | Some d => c <| mContentDisposition := ContentDisposition_of_text (getValue d) |>
           | None => c
           end in
  c <| mBody := Cpim.content cpim |> <| mContentEncoding := mContentEncoding content |>.

(** [decode]: the result, the error code and the message. *)
Definition decode (errorCode : Z) (m : ChatMessage) : outcome (Result * Z * ChatMessage) :=
  match current_content m with
  | None => Done (Error, 503, m)
  | Some content =>
      if negb (same_type (mContentType content) Cpim_type) then Done (Skipped, errorCode, m)
      else
        let* cpim := parseMessage (mBody content) in
        match cpim with
        | None => Done (Error, 488, m)
        | Some cpim =>
            match getMessageHeader "From" "" cpim, getMessageHeader "To" "" cpim, getContentHeader "Content-Type" cpim with
            | Some from, Some _, Some type =>
                let disposition := getContentHeader "Content-Disposition" cpim in
                let '(m, authenticated) := read_headers from disposition cpim m in
                if negb authenticated then Done (Error, 488, m)
                else
                  let m := m <| internalContent := decoded_content type disposition cpim content |> in
                  let address := Address_create (getValue from) in
                  Done (Applied, errorCode, if address_isValid address then m <| fromAddress := Some address |> else m)
            | _, _, _ => Done (Error, 488, m)
            end
        end
  end.

(** ** The CPIM content of an encrypted message *)

Definition createMinimalCpimContentForLimeMessage (room : Room) (m : ChatMessage) : outcome Content :=
  match account room with
  | None => Done new_content
  | Some contact =>
      match (match contact with Some a => Some a | None => localAddress room end) with
      | None => Done new_content
      | Some device =>
          let* to := pointed (toAddress m) in
          let* cpim := ofold add_message_header new_message
            [FromHeader (asStringUriOnly device) (setFormalName (getDisplayName to));
             NsHeader imdnNamespaceUrn imdnNamespace; imdn_header imdnMessageIdHeader (imdnId m)] in
          let* cpim := add_content_header cpim (generic "Content-Type" (getMediaType PlainText)) in
          Done ((setContentType Cpim_type new_content) <| mBody := localeToUtf8 (asString cpim) |>)
      end
  end.

(** The sender that the first readable CPIM part gives. *)
Fixpoint first_sender (parts : list Content) : outcome (option Address) :=
  match parts with
  | [] => Done None
  | c :: parts =>
      if negb (same_type (mContentType c) Cpim_type) then first_sender parts
      else
        let* cpim := parseMessage (utf8ToLocale (mBody c)) in
        match (match cpim with Some cpim => getMessageHeader "From" "" cpim | None => None end) with
        | Some from => Done (Some (Address_create (getValue from)))
        | None => first_sender parts
        end
  end.

Definition parseFromHeaderCpimContentInLimeMessage (m : ChatMessage) : outcome (option Address) :=
  match current_content m with
  | None => Done None
  | Some content => first_sender (multipartToContentList content)
  end.

(** The sender as a text, which is empty when the message is invalid. *)
Definition parseMinimalCpimContentInLimeMessage (content : Content) (m : ChatMessage) : outcome (string * ChatMessage) :=
  let* cpim := parseMessage (utf8ToLocale (mBody content)) in
  match cpim with
  | None => Done (EmptyString, m)
  | Some cpim =>
      match getMessageHeader "From" "" cpim with
      | None => Done (EmptyString, m)
      | Some from =>
          let imdn := declared_prefix imdnNamespaceUrn (getMessageHeaders "" cpim) in
          Done (getValue from,
                match message_id_header imdn cpim with Some h => setImdnMessageId (getValue h) m | None => m end)
      end
  end.
End Modifier.
End CpimModifier.
