(* ===== verification/CpimProps.v ===== *)
(** * What is kept of a CPIM message

    The dates a header may have, and the round trip of a message through its
    text. *)
From S2P Require Import Prelude SalTypes Payload Sscanf LpConfigValues CapabilityText Cpim.
Import Cpim.

(** ** The calendar *)

(** The days of a month, counted from 0, of a year. *)
Definition month_length (year mon : Z) : Z :=
  if (mon =? 1) && isLeapYear year then 29 else default 0 (daysInMonth !! Z.to_nat mon).

(** A loop on the [n] numbers that follow [z]. *)
Fixpoint all_from (z : Z) (n : nat) (f : Z -> bool) : bool :=
  match n with O => true | S n => f z && all_from (z + 1) n f end.

Lemma all_from_spec n f : forall z, all_from z n f = true -> forall x, z <= x < z + Z.of_nat n -> f x = true.
Proof.
  induction n as [|n IH]; cbn; intros z; [lia|]. intros [Hn Hf]%andb_true_iff x Hx.
  destruct (decide (z = x)) as [->|]; [exact Hn|]. apply (IH (z + 1)); [exact Hf|lia].
Qed.

(** The first day of a year that begins in March, and the one after its last. *)
Definition year_start (y : Z) : Z := 365 * y + y / 4 - y / 100.
Definition year_end (y : Z) : Z := if y =? 399 then 146097 else year_start (y + 1).

Definition year_of_day (doe : Z) : Z := (doe - doe / 1460 + doe / 36524 - doe / 146096) / 365.

Lemma div_contracts a b n : 0 < n -> a <= b -> b / n - a / n <= b - a.
Proof.
  intros Hn Hab. assert (H : b / n <= (a + (b - a) * n) / n) by (apply Z.div_le_mono; nia).
  rewrite Z.div_add in H by lia. lia.
Qed.

Lemma year_of_day_le a b : a <= b -> year_of_day a <= year_of_day b.
Proof.
  intros Hab. unfold year_of_day. apply Z.div_le_mono; [lia|].
  pose proof (Z.div_le_mono a b 36524 ltac:(lia) Hab) as H.
  assert (Hq : forall z, z / 146096 = z / 36524 / 4) by (intros z; by rewrite Z.div_div by lia).
  rewrite !Hq. revert H. generalize (a / 36524), (b / 36524). intros x y H.
  pose proof (div_contracts x y 4 ltac:(lia) H). pose proof (div_contracts a b 1460 ltac:(lia) Hab). lia.
Qed.

Definition year_ok (y : Z) : bool :=
  (year_of_day (year_start y) =? y) && (year_of_day (year_end y - 1) =? y)
  && (year_end y - year_start y =? if isLeapYear (y + 1) then 366 else 365).

Lemma years_ok : all_from 0 400 year_ok = true.
Proof. vm_compute. reflexivity. Qed.

Lemma year_of_day_spec doe : 0 <= doe < 146097 ->
  0 <= year_of_day doe < 400 /\ year_start (year_of_day doe) <= doe < year_end (year_of_day doe).
Proof.
  intros Hd. set (y := year_of_day doe).
  assert (Hy : 0 <= y < 400).
  { pose proof (year_of_day_le 0 doe ltac:(lia)). pose proof (year_of_day_le doe 146096 ltac:(lia)).
    change (year_of_day 0) with 0 in *. change (year_of_day 146096) with 399 in *. subst y. lia. }
  assert (Hok : forall x, 0 <= x < 400 -> year_of_day (year_start x) = x /\ year_of_day (year_end x - 1) = x).
  { intros x Hx. pose proof (all_from_spec _ _ _ years_ok x ltac:(lia)) as Hk. unfold year_ok in Hk.
    apply andb_true_iff in Hk as [[H1 H2]%andb_true_iff _]. split; by apply Z.eqb_eq. }
  split; [exact Hy|split].
  - apply Z.nlt_ge. intros Hlt. destruct (decide (y = 0)) as [E|]; [rewrite E in Hlt; change (year_start 0) with 0 in Hlt; lia|].
    assert (He : year_end (y - 1) = year_start y).
    { unfold year_end. rewrite (proj2 (Z.eqb_neq _ _)) by lia. f_equal. lia. }
    pose proof (proj2 (Hok (y - 1) ltac:(lia))) as Hp. rewrite He in Hp.
    pose proof (year_of_day_le doe (year_start y - 1) ltac:(lia)). fold y in H. lia.
  - apply Z.nle_gt. intros Hge. unfold year_end in Hge. destruct (y =? 399) eqn:E; [lia|]. apply Z.eqb_neq in E.
    pose proof (proj1 (Hok (y + 1) ltac:(lia))). pose proof (year_of_day_le _ _ Hge). fold y in H0. lia.
Qed.

(** The month and the day, from a day counted from the first of March. *)
Definition month_of_doy (doy : Z) : Z * Z :=
  let mp := (5 * doy + 2) / 153 in
  (if mp <? 10 then mp + 3 else mp - 9, doy - (153 * mp + 2) / 5 + 1).

Definition doy_ok (doy : Z) : bool :=
  let '(month, mday) := month_of_doy doy in
  (1 <=? month) && (month <=? 12) && (1 <=? mday)
  && (if doy =? 365 then (month =? 2) && (mday =? 29) else mday <=? default 0 (daysInMonth !! Z.to_nat (month - 1)))
  && ((153 * (if 2 <? month then month - 3 else month + 9) + 2) / 5 + (mday - 1) =? doy).

Lemma doys_ok : all_from 0 366 doy_ok = true.
Proof. vm_compute. reflexivity. Qed.

Lemma date_in_era_spec doe y month mday : 0 <= doe < 146097 -> date_in_era doe = (y, month, mday) ->
  1 <= month <= 12 /\ 1 <= mday <= month_length y (month - 1) /\ day_of_era y month 1 + (mday - 1) = doe.
Proof.
  intros Hd E. destruct (year_of_day_spec doe Hd) as [Hy Hin]. set (yoe := year_of_day doe) in *.
  set (doy := doe - year_start yoe).
  pose proof (all_from_spec _ _ _ years_ok yoe ltac:(lia)) as Hk. unfold year_ok in Hk.
  apply andb_true_iff in Hk as [_ Hlen]. apply Z.eqb_eq in Hlen.
  assert (Hdoy : 0 <= doy < if isLeapYear (yoe + 1) then 366 else 365) by (subst doy; lia).
  pose proof (all_from_spec _ _ _ doys_ok doy ltac:(destruct (isLeapYear (yoe + 1)); lia)) as Hm. unfold doy_ok in Hm.
  assert (E' : (if month <=? 2 then yoe + 1 else yoe) = y /\ month_of_doy doy = (month, mday)).
  { revert E. unfold date_in_era. fold (year_of_day doe). fold yoe. unfold doy, year_start, month_of_doy. cbv zeta.
    replace (365 * yoe + yoe / 4 - yoe / 100) with (365 * yoe + yoe / 4 - yoe / 100) by done.
    intros [= <- <- <-]. done. }
  destruct E' as [<- E']. rewrite E' in Hm.
  apply andb_true_iff in Hm as [Hm Hback]. apply andb_true_iff in Hm as [Hm Hl].
  apply andb_true_iff in Hm as [Hm H1]. apply andb_true_iff in Hm as [Hm1 Hm2].
  apply Z.leb_le in Hm1, Hm2, H1. apply Z.eqb_eq in Hback.
  split; [lia|split; [split; [exact H1|]|]].
  - unfold month_length. destruct (doy =? 365) eqn:E365.
    + apply andb_true_iff in Hl as [->%Z.eqb_eq ->%Z.eqb_eq]. apply Z.eqb_eq in E365.
      destruct (isLeapYear (yoe + 1)) eqn:Hleap; [|lia].
      change (2 <=? 2) with true. cbv iota. rewrite Hleap. done.
    + apply Z.leb_le in Hl. destruct ((month - 1 =? 1) && _) eqn:H2; [|exact Hl].
      apply andb_true_iff in H2 as [H2%Z.eqb_eq _]. rewrite H2 in Hl. change (default 0 (daysInMonth !! Z.to_nat 1)) with 28 in Hl. lia.
  - unfold day_of_era. destruct (month <=? 2) eqn:E2.
    + replace (yoe + 1 - 1) with yoe by lia. rewrite Z.mod_small, Z.div_small by lia.
      unfold doy, year_start in Hback. lia.
    + rewrite Z.mod_small, Z.div_small by lia. unfold doy, year_start in Hback. lia.
Qed.

Lemma rem_mod_zero a b : 0 < b -> (Z.rem a b =? 0) = (a mod b =? 0).
Proof.
  intros Hb. apply eq_true_iff_eq. rewrite !Z.eqb_eq.
  rewrite Z.rem_divide, Z.mod_divide by lia. done.
Qed.

Lemma isLeapYear_shift y k : isLeapYear (k * 400 + y) = isLeapYear y.
Proof.
  unfold isLeapYear. rewrite !rem_mod_zero by lia.
  replace (k * 400 + y) with (y + k * 100 * 4) at 1 by lia. rewrite Z_mod_plus_full.
  replace (k * 400 + y) with (y + k * 4 * 100) at 1 by lia. rewrite Z_mod_plus_full.
  replace (k * 400 + y) with (y + k * 400) by lia. by rewrite Z_mod_plus_full.
Qed.

Lemma day_of_era_shift y month k mday : day_of_era (k * 400 + y) month mday = k * 146097 + day_of_era y month mday.
Proof.
  unfold day_of_era. set (y' := if month <=? 2 then y - 1 else y).
  replace (if month <=? 2 then k * 400 + y - 1 else k * 400 + y) with (y' + k * 400)
    by (subst y'; destruct (month <=? 2); lia).
  rewrite Z_mod_plus_full, Z.div_add by lia. lia.
Qed.

(** What [gmtime] gives is a date, and [timegm] undoes it. *)
Lemma gmtime_spec t d : gmtime t = Some d ->
  timegm d = t /\ 0 <= tm_mon d <= 11 /\ 1 <= tm_mday d <= month_length (tm_year d + 1900) (tm_mon d)
  /\ 0 <= tm_hour d <= 23 /\ 0 <= tm_min d <= 59 /\ 0 <= tm_sec d <= 59.
Proof.
  unfold gmtime. set (days := t / 86400 + 719468).
  assert (Hd : 0 <= days mod 146097 < 146097) by (apply Z.mod_pos_bound; lia).
  destruct (date_in_era (days mod 146097)) as [[y month] mday] eqn:E.
  destruct (date_in_era_spec _ _ _ _ Hd E) as ([Hm1 Hm2] & [H1 Hl] & Hday).
  destruct (i32 _ =? _); [|done]. intros [= <-]. cbn [tm_year tm_mon tm_mday tm_hour tm_min tm_sec].
  pose proof (Z.mod_pos_bound t 86400 ltac:(lia)) as Hs.
  pose proof (Z.mod_pos_bound (t mod 86400) 3600 ltac:(lia)). pose proof (Z.mod_pos_bound (t mod 86400) 60 ltac:(lia)).
  assert (Hy : days / 146097 * 400 + y - 1900 + 1900 = days / 146097 * 400 + y) by lia.
  split; [|split; [lia|split; [split; [lia|]|]]].
  - unfold timegm. cbn [tm_year tm_mon tm_mday tm_hour tm_min tm_sec].
    rewrite (Z.div_small (month - 1) 12), (Z.mod_small (month - 1) 12) by lia.
    rewrite Hy, Z.add_0_r. replace (month - 1 + 1) with month by lia. rewrite day_of_era_shift.
    pose proof (Z.div_mod days 146097 ltac:(lia)). pose proof (Z.div_mod t 86400 ltac:(lia)).
    pose proof (Z.div_mod (t mod 86400) 3600 ltac:(lia)).
    assert (He : t mod 86400 mod 60 = (t mod 86400) mod 3600 mod 60).
    { apply (Znumtheory.Zmod_div_mod 60 3600); [lia|lia|]. by exists 60. }
    pose proof (Z.div_mod (t mod 86400 mod 3600) 60 ltac:(lia)). rewrite He. subst days. lia.
  - rewrite Hy. unfold month_length. rewrite isLeapYear_shift. exact Hl.
  - repeat split; try lia; try (apply Z.div_pos; lia).
    + apply Z.lt_succ_r, Z.div_lt_upper_bound; lia.
    + apply Z.lt_succ_r, Z.div_lt_upper_bound; lia.
Qed.

(** ** Headers that date a message *)

(** The dates that no header can have: those of January, the 29th of February,
    and the last two days of March in leap years. *)
Definition refused_date (d : tm) : bool :=
  (tm_mon d =? 0)
  || ((tm_mon d =? 1) && (tm_mday d =? 29))
  || ((tm_mon d =? 2) && isLeapYear (tm_year d) && (29 <? tm_mday d)).

(** A date and a time of RFC 3339, with the offset of a local time. *)
Definition rfc3339_date (d offset : tm) (sign : string) : bool :=
  (0 <=? tm_mon d) && (tm_mon d <=? 11) && (1 <=? tm_mday d) && (tm_mday d <=? month_length (tm_year d) (tm_mon d))
  && (tm_hour d <=? 23) && (tm_min d <=? 59) && (tm_sec d <=? 60) && (tm_hour offset <=? 23).

Lemma getTmAsTimeT_timegm d : getTmAsTimeT d = timegm d.
Proof.
  unfold getTmAsTimeT. destruct (timegm d =? -1) eqn:E; [|done]. apply Z.eqb_eq in E. rewrite E.
  destruct (_ && _) eqn:H; [|done]. repeat (apply andb_true_iff in H as [H ?H%Z.eqb_eq]).
  apply Z.eqb_eq in H. destruct d. cbn in *. subst. discriminate E.
Qed.

Lemma months d : 0 <= tm_mon d <= 11 ->
  tm_mon d = 0 \/ tm_mon d = 1 \/ tm_mon d = 2 \/ tm_mon d = 3 \/ tm_mon d = 4 \/ tm_mon d = 5 \/ tm_mon d = 6
  \/ tm_mon d = 7 \/ tm_mon d = 8 \/ tm_mon d = 9 \/ tm_mon d = 10 \/ tm_mon d = 11.
Proof. lia. Qed.

Ltac lookup_days :=
  repeat match goal with
    | |- context [daysInMonth !! ?n] =>
        let v := eval vm_compute in (daysInMonth !! n) in change (daysInMonth !! n) with v
    end.

Lemma date_isValid_rfc3339 d offset sign : rfc3339_date d offset sign = true ->
  date_isValid d offset sign = Done (negb (refused_date d)).
Proof.
  unfold rfc3339_date. intros H. repeat (apply andb_true_iff in H as [H ?H%Z.leb_le]). apply Z.leb_le in H.
  assert (Hm : 0 <= tm_mon d <= 11) by lia. revert H4. unfold month_length, date_isValid, refused_date.
  assert (E1 : (24 <? tm_hour d) || (59 <? tm_min d) || (60 <? tm_sec d) = false).
  { rewrite !orb_false_iff, !Z.ltb_ge. lia. }
  assert (E2 : negb (String.eqb sign "Z") && ((24 <? tm_hour offset) || (59 <? tm_min d)) = false).
  { destruct (negb _); [|done]. cbn. rewrite orb_false_iff, !Z.ltb_ge. lia. }
  rewrite E1, E2. replace (tm_mday d <? 1) with false by (symmetry; apply Z.ltb_ge; lia).
  destruct (months d Hm) as [E|[E|[E|[E|[E|[E|[E|[E|[E|[E|[E|E]]]]]]]]]]]; rewrite E;
    [done| | | | | | | | | | |]; cbn - [daysInMonth]; lookup_days; cbn; intros Hd;
    try (replace (_ <? tm_mday d) with false by (symmetry; apply Z.ltb_ge; lia); done).
  - destruct (Z.eqb_spec (tm_mday d) 29) as [E9|E9], (Z.ltb_spec 28 (tm_mday d)), (isLeapYear (tm_year d));
      cbn; try done; lia.
  - destruct (isLeapYear (tm_year d)); cbn; [by destruct (29 <? tm_mday d)|].
    by replace (31 <? tm_mday d) with false by (symmetry; apply Z.ltb_ge; lia).
Qed.

(** The date of a message that is sent, in the years of our era: it is read as the
    same time. *)
Definition sent_date (d : tm) : tm := d <| tm_year := tm_year d + 1900 |>.

Lemma sent_time t d : gmtime t = Some d -> DateTimeHeader_getTime (sent_date d) zero_tm "Z" = t.
Proof.
  intros Hd. apply gmtime_spec in Hd as [Ht _]. unfold DateTimeHeader_getTime, sent_date. cbn.
  rewrite getTmAsTimeT_timegm. rewrite <- Ht. f_equal. destruct d. cbn. f_equal. lia.
Qed.

(** C18. The date of a message that is sent.  The header made of a time is read back
    as that time, whatever the time; but it is only added to the message when its
    date is none of those [isValid] refuses: a message that is sent in January, on
    the 29th of February or on the last two days of March of a leap year has no
    date. *)
Theorem sent_date_outcome `{Splitting} t m :
  match DateTimeHeader_of_time t with
  | Done h =>
      exists d, h = DateTimeHeader d zero_tm "Z" /\ DateTimeHeader_getTime d zero_tm "Z" = t
        /\ addMessageHeader h "" m
           = Done (if refused_date d then (false, m)
                   else (true, m <| messageHeaders := headers_push "" h (messageHeaders m) |>))
  | r => r = Undefined /\ gmtime t = None
  end.
Proof.
  unfold DateTimeHeader_of_time. destruct (gmtime t) as [d|] eqn:E; [|done].
  exists (sent_date d). split; [done|split; [by apply sent_time|]].
  apply gmtime_spec in E as (Ht & Hm & Hd & Hh & Hmin & Hs).
  unfold addMessageHeader, cloneHeader. cbn [node_of_header createHeader]. rewrite date_isValid_rfc3339.
  - cbn [obind]. by destruct (refused_date _).
  - unfold rfc3339_date. cbn. rewrite !andb_true_iff, !Z.leb_le. lia.
Qed.

(** A time with minutes carried into hours is the same time. *)
Lemma timegm_carry_up n : forall d, timegm (carry_up n d) = timegm d.
Proof.
  induction n as [|n IH]; intros d; cbn; [done|]. destruct (59 <? tm_min d); [|done].
  rewrite IH. unfold timegm. cbn. lia.
Qed.

Lemma timegm_carry_down n : forall d, timegm (carry_down n d) = timegm d.
Proof.
  induction n as [|n IH]; intros d; cbn; [done|]. destruct (tm_min d <? 0); [|done].
  rewrite IH. unfold timegm. cbn. lia.
Qed.

(** C19. The date of a message that is received.  A date of RFC 3339 makes a header,
    unless it is one of those [isValid] refuses, and then the message is refused;
    a thirteenth month makes it read past the end of the days of the months.  A
    local time that is ahead of UTC is taken for a time as much behind it, the
    double of its offset away from what RFC 3339 means, and the minutes of an
    offset that is behind UTC count as hours. *)
Theorem received_date_outcome `{Splitting} d offset :
  (forall sign, rfc3339_date d offset sign = true ->
     createHeader (DateTimeHeaderNode d offset sign)
     = Done (if refused_date d then None else Some (DateTimeHeader d offset sign)))
  /\ (forall sign, tm_mon d = 12 -> 1 <= tm_mday d -> createHeader (DateTimeHeaderNode d offset sign) = Undefined)
  /\ let utc := timegm (d <| tm_year := tm_year d - 1900 |>) in
     DateTimeHeader_getTime d offset "Z" = utc
     /\ DateTimeHeader_getTime d offset "+" = utc + (tm_hour offset * 3600 + tm_min offset * 60)
     /\ DateTimeHeader_getTime d offset "-" = utc - (tm_hour offset * 3600 + tm_min offset * 3600).
Proof.
  split; [|split].
  - intros sign Hd. cbn [createHeader]. rewrite date_isValid_rfc3339 by exact Hd. cbn [obind].
    by destruct (refused_date d).
  - intros sign Hm Hd. cbn [createHeader]. unfold date_isValid. rewrite Hm.
    replace (tm_mday d <? 1) with false by (symmetry; apply Z.ltb_ge; lia). done.
  - unfold DateTimeHeader_getTime. cbn. rewrite !getTmAsTimeT_timegm, timegm_carry_up, timegm_carry_down.
    unfold timegm. cbn. lia.
Qed.

(** The first of January 2024 at noon, and the year 2020 with thirteen months. *)
Lemma received_date_outcome_witness :
  let s := {| split := ref_split; split_text := fun s d => [s] |} in
  createHeader (DateTimeHeaderNode (mkTm 2024 0 1 12 0 0) zero_tm "Z") = Done None
  /\ createHeader (DateTimeHeaderNode (mkTm 2024 1 28 12 0 0) zero_tm "Z")
     = Done (Some (DateTimeHeader (mkTm 2024 1 28 12 0 0) zero_tm "Z"))
  /\ createHeader (DateTimeHeaderNode (mkTm 2020 12 5 0 0 0) zero_tm "Z") = Undefined.
Proof.
  intros s. split; [|split].
  - apply (received_date_outcome (mkTm 2024 0 1 12 0 0) zero_tm). vm_compute. reflexivity.
  - apply (received_date_outcome (mkTm 2024 1 28 12 0 0) zero_tm). vm_compute. reflexivity.
  - apply (received_date_outcome (mkTm 2020 12 5 0 0 0) zero_tm); [reflexivity|vm_compute; discriminate].
Defined.
