(* ===== verification/CpimText.v ===== *)
(** * The text of a CPIM message

    The texts of the grammar liblinphone gives to belr ([chat/cpim/parser/cpim-rules])
    for what it writes, and the round trip of a message through them. *)
From S2P Require Import Prelude SalTypes Payload Sscanf LpConfigValues LpConfigParse CapabilityText Cpim.
Import Cpim.

(** ** The rules *)

(** [NAMECHAR] and [TOKENCHAR]; of the latter, the ASCII ones. *)
Definition name_char (c : ascii) : bool :=
  in_ascii_range 33 33 c || in_ascii_range 35 39 c || in_ascii_range 42 43 c || in_ascii_range 45 45 c
  || in_ascii_range 94 96 c || in_ascii_range 124 124 c || in_ascii_range 126 126 c
  || is_upper c || is_lower c || is_digit c.
Definition token_char (c : ascii) : bool := name_char c || Ascii.eqb c ".".

(** [Name], [Token] and [Header-name] *)
Definition is_name (s : string) : bool := negb (str_empty s) && str_all name_char s.
Definition is_token_text (s : string) : bool := negb (str_empty s) && str_all token_char s.
Definition is_header_name (s : string) : bool :=
  match split_at "." s with Some (prefix, name) => is_name prefix && is_name name | None => is_name s end.

(** [*UTF8-no-CTL], where [follow] more bytes of a character are expected. *)
Fixpoint utf8_text (follow : nat) (s : string) : bool :=
  match s, follow with
  | EmptyString, O => true
  | EmptyString, S _ => false
  | String c s, S n => in_ascii_range 128 191 c && utf8_text n s
  | String c s, O =>
      if in_ascii_range 32 126 c then utf8_text 0 s
      else if in_ascii_range 192 223 c then utf8_text 1 s
      else if in_ascii_range 224 239 c then utf8_text 2 s
      else if in_ascii_range 240 247 c then utf8_text 3 s
      else if in_ascii_range 248 251 c then utf8_text 4 s
      else if in_ascii_range 252 253 c then utf8_text 5 s
      else false
  end.

(** [Header-value], and [Str-char] between quotes. *)
Definition is_value (s : string) : bool := utf8_text 0 s.
Definition is_quotable (s : string) : bool := utf8_text 0 s && negb (str_has "034" s) && negb (str_has "\" s).

(** [Language-Tag] *)
Definition is_alnum (c : ascii) : bool := is_upper c || is_lower c || is_digit c.
Definition is_language (s : string) : bool :=
  match split_on "-" s with
  | [] => false
  | primary :: subtags =>
      str_all (fun c => is_alnum c || Ascii.eqb c "-") s
      && forallb (fun t => negb (str_empty t) && Nat.leb (String.length t) 8) (primary :: subtags)
      && str_all (fun c => is_upper c || is_lower c) primary && forallb (str_all is_alnum) subtags
  end.

Definition digits (n : nat) (s : string) : bool := Nat.eqb (String.length s) n && str_all is_digit s.

(** ** Texts of trees *)

Definition date_text (f : DateTimeFields) : string :=
  date_fullyear f +:+ "-" +:+ date_month f +:+ "-" +:+ date_mday f +:+ "T"
  +:+ time_hour f +:+ ":" +:+ time_minute f +:+ ":" +:+ time_second f
  +:+ match time_offset f with
      | None => "Z"
      | Some (sign, hour, minute) => sign +:+ hour +:+ ":" +:+ minute
      end.

Definition tree_text (tree : HeaderTree) : string :=
  match tree with
  | FromTree name uri => "From: " +:+ name +:+ "<" +:+ uri +:+ ">"
  | ToTree name uri => "To: " +:+ name +:+ "<" +:+ uri +:+ ">"
  | CcTree name uri => "cc: " +:+ name +:+ "<" +:+ uri +:+ ">"
  | DateTimeTree f => "DateTime: " +:+ date_text f
  | SubjectTree tag value => "Subject:" +:+ (if str_empty tag then "" else ";lang=" +:+ tag) +:+ " " +:+ value
  | NsTree prefix uri => "NS: " +:+ (if str_empty prefix then "" else prefix +:+ " ") +:+ "<" +:+ uri +:+ ">"
  | RequireTree names => "Require: " +:+ names
  | GenericTree name value parameters => name +:+ ":" +:+ parameters +:+ " " +:+ value
  end.

Definition lines (trees : list HeaderTree) : string := String.concat "" (map (fun t => tree_text t +:+ CRLF) trees).

Definition message_text (t : MessageTree) : string :=
  lines (message_headers t) +:+ CRLF +:+ lines (content_headers t) +:+ CRLF.

(** [*( ";" Ext-param )] with tokens for values. *)
Definition is_parameters (s : string) : Prop :=
  exists l, s = parameters_text l /\ Forall (fun p => is_name (fst p) = true /\ is_token_text (snd p) = true) l.

(** The names [cpim-rules] has rules for, and the one of a message that begins with
    its own content type. *)
Definition is_generic (tree : HeaderTree) : Prop :=
  match tree with
  | GenericTree name value parameters =>
      is_header_name name = true /\ is_value value = true /\ is_parameters parameters /\ is_reserved name = false
  | _ => False
  end.

(** The headers of a message, given what is read by the rule [URI]. *)
Definition is_message_header (is_uri : string -> bool) (tree : HeaderTree) : Prop :=
  match tree with
  | FromTree name uri | ToTree name uri | CcTree name uri =>
      (name = EmptyString \/ exists s, name = quote +:+ s +:+ quote /\ is_quotable s = true) /\ is_uri uri = true
  | DateTimeTree f =>
      digits 4 (date_fullyear f) = true /\ digits 2 (date_month f) = true /\ digits 2 (date_mday f) = true
      /\ digits 2 (time_hour f) = true /\ digits 2 (time_minute f) = true /\ digits 2 (time_second f) = true
      /\ match time_offset f with
         | None => True
         | Some (sign, hour, minute) =>
             (sign = "+" \/ sign = "-")%string /\ digits 2 hour = true /\ digits 2 minute = true
         end
  | SubjectTree tag value => (tag = EmptyString \/ is_language tag = true) /\ is_value value = true
  | NsTree prefix uri => (prefix = EmptyString \/ is_name prefix = true) /\ is_uri uri = true
  | RequireTree names =>
      exists l, l <> [] /\ names = String.concat "," l /\ Forall (fun n => is_header_name n = true) l
  | GenericTree name _ _ => is_generic tree /\ tolower name <> "content-type"%string
  end.

(** ** What belr promises

    [is_uri] is what it reads whole by the rule [URI].  The texts here are those
    liblinphone writes: values of parameters are tokens, formal names are quoted
    and have no escapes, and times have no fractions. *)
Class GrammarSpec (g : CpimGrammar) := {
  is_uri : string -> bool;
  uri_some : is_uri EmptyString = false;
  (** A text of the grammar is read as its tree, whatever follows it. *)
  message_read : forall t body,
    message_headers t <> [] -> Forall (is_message_header is_uri) (message_headers t) ->
    content_headers t <> [] -> Forall is_generic (content_headers t) ->
    parseInput (message_text t +:+ body) = Some (t, String.length (message_text t));
}.

(** ** The tree of a header that is written *)

Definition date_fields (t offset : tm) (sign : string) : DateTimeFields :=
  mkDateTimeFields (padded 4 (tm_year t)) (padded 2 (tm_mon t + 1)) (padded 2 (tm_mday t))
    (padded 2 (tm_hour t)) (padded 2 (tm_min t)) (padded 2 (tm_sec t))
    (if String.eqb sign "Z" then None else Some (sign, padded 2 (tm_hour offset), padded 2 (tm_min offset))).

Definition quoted_name (name : string) : string := if str_empty name then EmptyString else quote +:+ name +:+ quote.

Definition printed (h : Header) : HeaderTree :=
  match h with
  | FromHeader uri name => FromTree (quoted_name name) uri
  | ToHeader uri name => ToTree (quoted_name name) uri
  | CcHeader uri name => CcTree (quoted_name name) uri
  | DateTimeHeader t offset sign => DateTimeTree (date_fields t offset sign)
  | SubjectHeader subject language => SubjectTree language subject
  | NsHeader uri prefix => NsTree prefix uri
  | RequireHeader names => RequireTree (join_names names)
  | GenericHeader name value parameters => GenericTree name value (parameters_text parameters)
  end.

Lemma printed_date t offset sign : date_value t offset sign = date_text (date_fields t offset sign).
Proof.
  unfold date_value, date_text, date_fields.
  cbn [date_fullyear date_month date_mday time_hour time_minute time_second time_offset].
  destruct (String.eqb_spec sign "Z") as [->|]; rewrite ?str_app_assoc; reflexivity.
Qed.

Lemma printed_text h : header_asString h = tree_text (printed h) +:+ CRLF.
Proof.
  destruct h; cbn [header_asString printed tree_text getName getValue]; rewrite ?printed_date;
    unfold contact_value, quoted_name; rewrite ?str_app_assoc; done.
Qed.

(** ** Headers that are read as they were written *)

Lemma zeros_length n : String.length (zeros n) = n.
Proof. induction n as [|n IH]; [done|]. cbn. by rewrite IH. Qed.

Lemma zeros_digits n : str_all is_digit (zeros n) = true.
Proof. by induction n. Qed.

Lemma zeros_horner n s : horner 0 (zeros n +:+ s) = horner 0 s.
Proof. by induction n. Qed.

Lemma str_all_app p a b : str_all p (a +:+ b) = str_all p a && str_all p b.
Proof. induction a as [|c a IH]; cbn; [done|]. by rewrite IH, andb_assoc. Qed.

(** A number in [n] digits, as [stoi] reads it. *)
Lemma stoi_digits s : str_all is_digit s = true -> s <> EmptyString -> 0 <= horner 0 s < 2 ^ 31 -> stoi s = horner 0 s.
Proof.
  intros Hs Hne Hb. unfold stoi, atoi, strtoll10.
  destruct s as [|c s]; [done|]. pose proof Hs as Hc. cbn in Hc. apply andb_true_iff in Hc as [Hc _].
  rewrite scan_ws_id by (cbn; by apply digit_not_space).
  assert (Hsign : scan_sign (String c s) = (false, String c s)).
  { unfold scan_sign. assert (Ascii.eqb c "-" = false) as -> by (apply Ascii.eqb_neq; intros ->; discriminate Hc).
    by assert (Ascii.eqb c "+" = false) as -> by (apply Ascii.eqb_neq; intros ->; discriminate Hc). }
  rewrite Hsign, (str_span_nil _ _ Hs). unfold signed, i64_min, i64_max.
  rewrite Z.min_r, Z.max_r by lia. apply i32_small. lia.
Qed.

Lemma padded_number n z : (0 < n)%nat -> 0 <= z < 10 ^ Z.of_nat n -> z < 2 ^ 31 ->
  digits n (padded n z) = true /\ stoi (padded n z) = z.
Proof.
  intros Hn Hz Hb. unfold padded. rewrite to_dec_nonneg by lia.
  destruct n as [|k]; [lia|]. pose proof (dec_digits_length (S (Z.to_nat (Z.log2 z))) z k EmptyString Hz) as Hl. set (n := S k) in *.
  fold (dec_of_nonneg z) in Hl. cbn [String.length] in Hl. set (s := dec_of_nonneg z) in *.
  pose proof (dec_of_nonneg_digits z ltac:(lia)) as Hd. fold s in Hd.
  assert (Ha : str_all is_digit (zeros (n - String.length s) +:+ s) = true) by by rewrite str_all_app, zeros_digits.
  split.
  - unfold digits. rewrite Ha, str_length_app, zeros_length, andb_true_r. apply Nat.eqb_eq. lia.
  - assert (Hh : horner 0 (zeros (n - String.length s) +:+ s) = z)
      by (rewrite zeros_horner; apply dec_of_nonneg_horner; lia).
    rewrite stoi_digits; [exact Hh|exact Ha| |rewrite Hh; lia].
    destruct (dec_of_nonneg_cons z) as (c & s' & E). fold s in E. generalize (n - String.length s)%nat.
    intros j. rewrite E. by destruct j.
Qed.

Lemma padded_2 z : 0 <= z < 100 -> digits 2 (padded 2 z) = true /\ stoi (padded 2 z) = z.
Proof. intros Hz. apply padded_number; [lia|exact Hz|lia]. Qed.

Lemma padded_4 z : 0 <= z < 10000 -> digits 4 (padded 4 z) = true /\ stoi (padded 4 z) = z.
Proof. intros Hz. apply padded_number; [lia|exact Hz|lia]. Qed.

(** What a header must be to be read as it was written: its parts are those of the
    grammar, and it is stored as it is. *)
Definition clean (is_uri : string -> bool) (h : Header) : Prop :=
  match h with
  | FromHeader uri name | ToHeader uri name | CcHeader uri name =>
      is_uri uri = true /\ is_quotable name = true /\ last_char name <> Some " "%char
  | DateTimeHeader t offset sign =>
      0 <= tm_year t < 10000 /\ 0 <= tm_hour t /\ 0 <= tm_min t /\ 0 <= tm_sec t /\ date_isValid t offset sign = Done true
      /\ (sign = "Z"%string /\ offset = zero_tm
          \/ (sign = "+" \/ sign = "-")%string /\ 0 <= tm_hour offset < 100 /\ 0 <= tm_min offset < 100
             /\ offset = mkTm 0 0 0 (tm_hour offset) (tm_min offset) 0)
  | SubjectHeader subject language =>
      subject <> EmptyString /\ is_value subject = true /\ (language = EmptyString \/ is_language language = true)
  | NsHeader uri prefix => is_uri uri = true /\ (prefix = EmptyString \/ is_name prefix = true)
  | RequireHeader names =>
      names <> [] /\ Forall (fun n => is_header_name n = true) names /\ (forall n, hd_error names = Some n -> n ∉ tl names)
  | GenericHeader name value parameters =>
      is_header_name name = true /\ is_reserved name = false /\ value <> EmptyString /\ is_value value = true
      /\ Forall (fun p => is_name (fst p) = true /\ is_token_text (snd p) = true) parameters
  end.

Lemma str_all_has p c s : str_all p s = true -> p c = false -> str_has c s = false.
Proof. intros H Hc. exact (str_all_not_has p c s Hc H). Qed.

Lemma name_lacks c s : is_name s = true -> name_char c = false -> str_has c s = false.
Proof. intros [_ H]%andb_true_iff Hc. exact (str_all_has _ _ _ H Hc). Qed.

Lemma token_lacks c s : is_token_text s = true -> token_char c = false -> str_has c s = false.
Proof. intros [_ H]%andb_true_iff Hc. exact (str_all_has _ _ _ H Hc). Qed.

Lemma header_name_lacks c s : is_header_name s = true -> name_char c = false -> c <> "."%char -> str_has c s = false.
Proof.
  unfold is_header_name. intros H Hc Hne. destruct (split_at "." s) as [[a b]|] eqn:E; [|by apply name_lacks].
  apply split_at_some in E as [-> _]. apply andb_true_iff in H as [Ha Hb].
  rewrite str_has_app, (name_lacks _ _ Ha Hc). cbn. rewrite (name_lacks _ _ Hb Hc), orb_false_r.
  by apply Ascii.eqb_neq.
Qed.

Lemma header_name_some s : is_header_name s = true -> s <> EmptyString.
Proof. by intros H ->. Qed.

(** Formal names come back without the quotes they are written with. *)
Lemma last_char_app s c : last_char (s +:+ String c EmptyString) = Some c.
Proof.
  unfold last_char. rewrite str_length_app. cbn [String.length].
  replace (String.length s + 1 - 1)%nat with (String.length s) by lia.
  induction s as [|d s IH]; [done|]. exact IH.
Qed.

Lemma substring_app s t : String.substring 0 (String.length s) (s +:+ t) = s.
Proof. induction s as [|c s IH]; cbn; [by destruct t|]. by rewrite IH. Qed.

Lemma setFormalName_quoted name : setFormalName (quoted_name name) = name.
Proof.
  unfold quoted_name. destruct (str_empty name) eqn:E; [by apply str_empty_spec in E as ->|].
  unfold setFormalName, quote. change (String "034" EmptyString +:+ name +:+ String "034" EmptyString)
    with (String "034" (name +:+ String "034" EmptyString)). cbv iota.
  assert (Hl : last_char (String "034" (name +:+ String "034" EmptyString)) = Some "034"%char)
    by exact (last_char_app (String "034" name) "034").
  rewrite Hl, bool_decide_eq_true_2 by done. cbn [andb Ascii.eqb Bool.eqb String.length].
  rewrite str_length_app. cbn [String.length]. replace (S (String.length name + 1) - 2)%nat with (String.length name) by lia.
  cbn [String.substring]. apply substring_app.
Qed.

Lemma quotable_first name c s : is_quotable name = true -> name = String c s -> Ascii.eqb c "034" = false.
Proof.
  intros [[_ H]%andb_true_iff _]%andb_true_iff ->. cbn in H. apply negb_true_iff, orb_false_iff in H as [H _].
  by rewrite Ascii.eqb_sym.
Qed.

Lemma setFormalName_clean name : is_quotable name = true -> last_char name <> Some " "%char -> setFormalName name = name.
Proof.
  intros Hq Hl. unfold setFormalName. destruct name as [|c s] eqn:E; [done|].
  rewrite (quotable_first _ c s Hq eq_refl). cbn [andb]. by rewrite bool_decide_eq_false_2.
Qed.

Section Reading.
Context `{Splitting} `{!SplitSpec split}.

Lemma parameters_cons p l :
  parameters_text (p :: l) = String ";" ((fst p +:+ "=" +:+ snd p) +:+ parameters_text l).
Proof. unfold parameters_text. cbn [map]. by rewrite concat_empty_cons. Qed.

Lemma split_parameters x l : str_has ";" x = false ->
  Forall (fun p => is_name (fst p) = true /\ is_token_text (snd p) = true) l ->
  split (x +:+ parameters_text l) ";" = x :: map (fun p => fst p +:+ "=" +:+ snd p) l.
Proof.
  intros Hx Hl. revert x Hx. induction Hl as [|p l [Hn Ht] Hl IH]; intros x Hx; cbn [map].
  - change (parameters_text []) with EmptyString. rewrite str_app_nil. by apply split_none.
  - rewrite parameters_cons, split_cons by exact Hx. f_equal. apply IH.
    rewrite !str_has_app, (name_lacks ";" _ Hn), (token_lacks ";" _ Ht) by done. done.
Qed.

Lemma parameters_read l : Forall (fun p => is_name (fst p) = true /\ is_token_text (snd p) = true) l ->
  add_parameters (split (parameters_text l) ";") = l.
Proof.
  intros Hl. change (parameters_text l) with ("" +:+ parameters_text l). rewrite split_parameters by done.
  unfold add_parameters. cbn. induction Hl as [|p l [Hn Ht] Hl IH]; cbn; [done|].
  change ("=" +:+ snd p) with (String "=" (snd p)). rewrite split_at_app by (by apply name_lacks).
  rewrite IH. by destruct p.
Qed.

Lemma generic_read name value parameters : is_reserved name = false ->
  Forall (fun p => is_name (fst p) = true /\ is_token_text (snd p) = true) parameters ->
  make_generic name value (parameters_text parameters) = GenericHeader name value parameters.
Proof. intros Hr Hp. unfold make_generic, setName. by rewrite Hr, parameters_read. Qed.

Lemma join_from first names : first ∉ names -> forall acc,
  fold_left (fun text h => (if bool_decide (Some h = Some first) then text else text +:+ ",") +:+ h) names acc
  = String.concat "," (acc :: names).
Proof.
  induction names as [|m names IH]; intros Hn acc; [done|].
  apply not_elem_of_cons in Hn as [Hne Hn]. cbn [fold_left].
  rewrite bool_decide_eq_false_2 by congruence. rewrite IH by exact Hn.
  destruct names as [|k names]; cbn; by rewrite ?str_app_assoc.
Qed.

Lemma join_names_concat names : (forall n, hd_error names = Some n -> n ∉ tl names) ->
  join_names names = String.concat "," names.
Proof.
  destruct names as [|n names]; intros Hn; [done|]. specialize (Hn n eq_refl). cbn [tl] in Hn.
  unfold join_names. cbn [hd_error fold_left]. rewrite bool_decide_eq_true_2 by done. cbn [String.append].
  by apply join_from.
Qed.

Lemma require_read names : names <> [] -> Forall (fun n => is_header_name n = true) names ->
  (forall n, hd_error names = Some n -> n ∉ tl names) -> RequireHeader_of_text (join_names names) = RequireHeader names.
Proof.
  intros Hne Hn Hd. unfold RequireHeader_of_text. rewrite join_names_concat by exact Hd. f_equal.
  apply (split_concat split _ _); [exact Hne|]. eapply Forall_impl; [exact Hn|]. intros n Hc. by apply header_name_lacks.
Qed.

Context (is_uri : string -> bool) (uri_some : is_uri EmptyString = false).

Lemma uri_not_empty uri : is_uri uri = true -> str_empty uri = false.
Proof. intros Hu. apply str_empty_false. intros ->. congruence. Qed.

Lemma not_empty s : s <> EmptyString -> str_empty s = false.
Proof. apply str_empty_false. Qed.

Lemma valid_date_bounds t offset sign : date_isValid t offset sign = Done true ->
  1 <= tm_mon t <= 12 /\ 1 <= tm_mday t < 100 /\ tm_hour t <= 24 /\ tm_min t <= 59 /\ tm_sec t <= 60.
Proof.
  unfold date_isValid.
  destruct (Z.ltb_spec (tm_mon t) 1), (Z.ltb_spec 12 (tm_mon t)); cbn [orb]; try discriminate.
  destruct (Z.ltb_spec (tm_mday t) 1); [discriminate|].
  destruct (if _ && _ then Some 29 else _) as [last|] eqn:E; [|discriminate].
  assert (Hlast : last < 100).
  { destruct (_ && _); [injection E as <-; lia|]. apply list_elem_of_lookup_2 in E. unfold daysInMonth in E.
    repeat (apply elem_of_cons in E as [->|E]; [lia|]). by apply elem_of_nil in E. }
  destruct (Z.ltb_spec last (tm_mday t)); [discriminate|].
  destruct (Z.ltb_spec 24 (tm_hour t)), (Z.ltb_spec 59 (tm_min t)), (Z.ltb_spec 60 (tm_sec t)); cbn [orb]; try discriminate.
  lia.
Qed.

(** The fields of a date that is written make the date again. *)
Lemma date_read t offset sign : clean is_uri (DateTimeHeader t offset sign) ->
  date_of_fields (date_fields t offset sign) = DateTimeHeaderNode t offset sign.
Proof.
  intros (Hy & Hh & Hmi & Hs & Hv & Ho).
  pose proof (valid_date_bounds t offset sign Hv) as Hb.
  unfold date_of_fields, date_fields. cbn [date_fullyear date_month date_mday time_hour time_minute time_second time_offset].
  rewrite (proj2 (padded_4 (tm_year t) Hy)), (proj2 (padded_2 (tm_mon t + 1) ltac:(lia))), (proj2 (padded_2 (tm_mday t) ltac:(lia))).
  rewrite (proj2 (padded_2 (tm_hour t) ltac:(lia))), (proj2 (padded_2 (tm_min t) ltac:(lia))), (proj2 (padded_2 (tm_sec t) ltac:(lia))).
  replace (tm_mon t + 1 - 1) with (tm_mon t) by lia.
  assert (Ht : mkTm (tm_year t) (tm_mon t) (tm_mday t) (tm_hour t) (tm_min t) (tm_sec t) = t) by by destruct t.
  rewrite Ht. destruct Ho as [[-> ->]|(Hsign & Hoh & Hom & Hoff)]; [done|].
  assert (String.eqb sign "Z" = false) as -> by (by destruct Hsign as [->| ->]).
  by rewrite (proj2 (padded_2 _ Hoh)), (proj2 (padded_2 _ Hom)), <- Hoff.
Qed.

(** What is written is read as the same header, and stored as it is. *)
Lemma clean_read h : clean is_uri h -> createHeader (node_of_tree (printed h)) = Done (Some h).
Proof.
  intros Hc. destruct h; cbn [printed node_of_tree].
  1-3: destruct Hc as (Hu & Hq & Hl); cbn [createHeader]; by rewrite (uri_not_empty _ Hu), setFormalName_quoted.
  - rewrite date_read by exact Hc. destruct Hc as (_ & _ & _ & _ & Hv & _). cbn [createHeader]. by rewrite Hv.
  - destruct Hc as (Hs & _). cbn [createHeader]. by rewrite not_empty.
  - destruct Hc as (Hu & _). cbn [createHeader]. by rewrite (uri_not_empty _ Hu).
  - destruct Hc as (Hne & Hn & Hd). cbn [createHeader]. rewrite require_read by done.
    rewrite not_empty; [done|]. rewrite join_names_concat by exact Hd. destruct Hn as [|n names Hn _]; [done|].
    apply header_name_some in Hn. destruct names; cbn; by destruct n.
  - destruct Hc as (Hn & Hr & Hv & _ & Hp). unfold setName. rewrite Hr. cbn [createHeader].
    rewrite (not_empty _ (header_name_some _ Hn)), (not_empty _ Hv), generic_read by done. done.
Qed.

Lemma clean_stored h : clean is_uri h -> cloneHeader h = Done (Some h).
Proof.
  intros Hc. destruct h; unfold cloneHeader; cbn [node_of_header createHeader].
  1-3: destruct Hc as (Hu & Hq & Hl); by rewrite (uri_not_empty _ Hu), setFormalName_clean.
  - destruct Hc as (_ & _ & _ & _ & Hv & _). by rewrite Hv.
  - destruct Hc as (Hs & _). by rewrite not_empty.
  - destruct Hc as (Hu & _). by rewrite (uri_not_empty _ Hu).
  - destruct Hc as (Hne & Hn & Hd). rewrite require_read by done.
    rewrite not_empty; [done|]. rewrite join_names_concat by exact Hd. destruct Hn as [|n names Hn _]; [done|].
    apply header_name_some in Hn. destruct names; cbn; by destruct n.
  - destruct Hc as (Hn & Hr & Hv & _ & Hp).
    by rewrite (not_empty _ (header_name_some _ Hn)), (not_empty _ Hv), generic_read by done.
Qed.
End Reading.

(** ** Messages *)

(** The headers of a message with their namespaces, in the order they are written. *)
Definition located (l : list (string * list Header)) : list (string * Header) :=
  flat_map (fun e => map (pair (fst e)) (snd e)) l.

(** Where a header is found once it was read: a generic one whose name has a prefix
    is in the namespace of that prefix, under the rest of its name. *)
Definition relocate (e : string * Header) : string * Header :=
  match e with
  | (EmptyString, GenericHeader name value parameters) =>
      match split_at "." name with
      | Some (ns, rest) => (ns, GenericHeader (setName rest name) value parameters)
      | None => e
      end
  | _ => e
  end.

Definition push_all (l : list (string * Header)) (headers : list (string * list Header)) : list (string * list Header) :=
  fold_left (fun acc e => headers_push (fst e) (snd e) acc) l headers.

Definition refile (m : Message) : Message :=
  m <| messageHeaders := push_all (map relocate (located (messageHeaders m))) [] |>.

Definition printed_in (e : string * Header) : HeaderTree :=
  match e with
  | (String _ _ as ns, GenericHeader name value parameters) =>
      GenericTree (ns +:+ "." +:+ name) value (parameters_text parameters)
  | (_, h) => printed h
  end.

Definition clean_in (is_uri : string -> bool) (e : string * Header) : Prop :=
  clean is_uri (snd e) /\
  match e with
  | (EmptyString, GenericHeader name _ _) => tolower name <> "content-type"%string
  | (EmptyString, _) => True
  | (ns, GenericHeader name _ _) => is_name ns = true /\ is_name name = true
  | _ => False
  end.

(** A message each header of which is read as it was written. *)
Definition clean_message (is_uri : string -> bool) (m : Message) : Prop :=
  located (messageHeaders m) <> [] /\ Forall (clean_in is_uri) (located (messageHeaders m))
  /\ contentHeaders m <> []
  /\ Forall (fun h => clean is_uri h /\ match h with GenericHeader _ _ _ => True | _ => False end) (contentHeaders m).

(** One whose namespaces are in order, none of them empty, and whose names without
    a namespace have no prefix. *)
Definition filed (m : Message) : Prop :=
  StronglySorted (fun a b => String.compare (fst a) (fst b) = Lt) (messageHeaders m)
  /\ Forall (fun e => snd e <> []) (messageHeaders m)
  /\ Forall (fun e => relocate e = e) (located (messageHeaders m)).

Lemma concat_empty_app l l' :
  String.concat EmptyString (l ++ l') = String.concat EmptyString l +:+ String.concat EmptyString l'.
Proof. induction l as [|s l IH]; [done|]. cbn [app]. by rewrite !concat_empty_cons, IH, str_app_assoc. Qed.

Section Messages.
Context `{Splitting} `{!SplitSpec split} (is_uri : string -> bool) (uri_some : is_uri EmptyString = false).

Lemma located_text e : clean_in is_uri e ->
  (if str_empty (fst e) then "" else fst e +:+ ".") +:+ header_asString (snd e) = tree_text (printed_in e) +:+ CRLF.
Proof.
  destruct e as [ns h]. intros [_ Hc]. cbn [fst snd]. destruct ns as [|c ns]; [by destruct h; apply printed_text|].
  destruct h; try done. cbn [str_empty String.eqb printed_in header_asString tree_text]. by rewrite ?str_app_assoc.
Qed.

Lemma namespaces_text l : Forall (clean_in is_uri) (located l) ->
  String.concat EmptyString (map namespace_text l) = lines (map printed_in (located l)).
Proof.
  induction l as [|[ns hs] l IH]; [done|]. unfold located. cbn [flat_map map fst snd]. fold (located l).
  rewrite Forall_app. intros [Hhs Hl]. rewrite concat_empty_cons, IH by exact Hl.
  unfold lines. rewrite !map_app, concat_empty_app. f_equal. unfold namespace_text. cbn [fst snd].
  clear -Hhs. induction hs as [|h hs IH]; [done|]. cbn [map] in *. inversion Hhs as [|? ? Hh Hhs']; subst.
  rewrite !concat_empty_cons, IH by exact Hhs'. f_equal. exact (located_text (ns, h) Hh).
Qed.

Lemma contents_text l : String.concat EmptyString (map header_asString l) = lines (map printed l).
Proof.
  unfold lines. induction l as [|h l IH]; [done|]. cbn [map]. by rewrite !concat_empty_cons, IH, printed_text.
Qed.

(** The tree of a message that is written. *)
Definition message_tree (m : Message) : MessageTree :=
  mkMessageTree (map printed_in (located (messageHeaders m))) (map printed (contentHeaders m)).

Lemma asString_text m : clean_message is_uri m -> asString m = message_text (message_tree m) +:+ content m.
Proof.
  intros (Hne & Hm & _). unfold asString, message_text, message_tree. cbn [message_headers content_headers].
  assert (E : match messageHeaders m with [] => EmptyString | l => String.concat "" (map namespace_text l) +:+ CRLF end
              = lines (map printed_in (located (messageHeaders m))) +:+ CRLF).
  { destruct (messageHeaders m) as [|e l] eqn:E; [done|]. by rewrite namespaces_text. }
  rewrite E, contents_text. by rewrite !str_app_assoc.
Qed.

Lemma name_not_dotted s : is_name s = true -> str_has "." s = false.
Proof. intros Hs. by apply name_lacks. Qed.

Lemma dotted_not_reserved a b : is_reserved (a +:+ "." +:+ b) = false.
Proof.
  apply not_true_iff_false. intros Hr. apply existsb_exists in Hr as (x & Hx & E%String.eqb_eq).
  assert (Hd : str_has "." x = true) by (rewrite <- E, str_has_app; cbn; by rewrite orb_true_r).
  repeat (destruct Hx as [<-|Hx]; [discriminate Hd|]). destruct Hx.
Qed.

(** One more header of the text of a message. *)
Lemma add_clean_node e m : clean_in is_uri e ->
  add_message_node (Some m) (node_of_tree (printed_in e))
  = Done (Some (m <| messageHeaders := headers_push (fst (relocate e)) (snd (relocate e)) (messageHeaders m) |>)).
Proof.
  destruct e as [ns h]. intros [Hc Hin]. cbn [snd] in Hc.
  assert (Hplain : ns = EmptyString -> (forall name value parameters, h <> GenericHeader name value parameters) ->
    add_message_node (Some m) (node_of_tree (printed h)) = Done (Some (m <| messageHeaders := headers_push "" h (messageHeaders m) |>))).
  { intros _ Hg. cbn [add_message_node].
    assert (Hn : node_namespace (node_of_tree (printed h)) = (EmptyString, node_of_tree (printed h))).
    { unfold node_namespace. destruct h; try done; [|by destruct (Hg name value parameters)].
      cbn. unfold date_of_fields. by destruct (time_offset _) as [[[? ?] ?]|]. }
    rewrite Hn, (clean_read is_uri uri_some h Hc). cbn [obind]. unfold addMessageHeader.
    by rewrite (clean_stored is_uri uri_some h Hc). }
  destruct ns as [|c ns].
  - destruct h as [| | | | | | |name value parameters]; try (cbn [printed_in relocate fst snd]; by apply Hplain).
    destruct Hc as (Hn & Hr & Hv & Hval & Hp). cbn [printed_in printed node_of_tree relocate add_message_node].
    unfold setName at 1. rewrite Hr. unfold node_namespace. cbn [node_name].
    destruct (split_at "." name) as [[a b]|] eqn:E; cbn [rename_node createHeader fst snd].
    + assert (Hr' : is_reserved (setName b name) = false) by (unfold setName; by destruct (is_reserved b) eqn:Hb).
      assert (Hs : str_empty (setName b name) = false).
      { apply str_empty_false. unfold setName. destruct (is_reserved b); [by apply header_name_some|].
        unfold is_header_name in Hn. rewrite E in Hn. apply andb_true_iff in Hn as [_ Hb]. by intros ->. }
      rewrite Hs, (not_empty _ Hv). cbn [orb obind]. rewrite generic_read by done.
      unfold addMessageHeader, cloneHeader. cbn [node_of_header createHeader].
      by rewrite Hs, (not_empty _ Hv), generic_read by done.
    + rewrite (not_empty _ (header_name_some _ Hn)), (not_empty _ Hv). cbn [orb obind]. rewrite generic_read by done.
      unfold addMessageHeader, cloneHeader. cbn [node_of_header createHeader].
      by rewrite (not_empty _ (header_name_some _ Hn)), (not_empty _ Hv), generic_read by done.
  - destruct h as [| | | | | | |name value parameters]; try done. destruct Hin as [Hns Hname].
    destruct Hc as (Hn & Hr & Hv & Hval & Hp). cbn [printed_in node_of_tree relocate add_message_node fst snd].
    unfold setName at 1. rewrite dotted_not_reserved. unfold node_namespace. cbn [node_name].
    change ("." +:+ name) with (String "." name). rewrite split_at_app by (by apply name_not_dotted).
    cbn [rename_node createHeader]. unfold setName. rewrite Hr.
    rewrite (not_empty _ (header_name_some _ Hn)), (not_empty _ Hv). cbn [orb obind]. rewrite generic_read by done.
    unfold addMessageHeader, cloneHeader. cbn [node_of_header createHeader].
    by rewrite (not_empty _ (header_name_some _ Hn)), (not_empty _ Hv), generic_read by done.
Qed.

Lemma tolower_has_dot s : str_has "." s = true -> str_has "." (tolower s) = true.
Proof.
  unfold tolower. induction s as [|c s IH]; [done|]. cbn [str_has string_map]. intros [Hc|Hs]%orb_true_iff.
  - apply Ascii.eqb_eq in Hc as <-. done.
  - rewrite IH by exact Hs. by rewrite orb_true_r.
Qed.

Lemma generic_in_grammar name value parameters :
  is_header_name name = true -> is_reserved name = false -> is_value value = true ->
  Forall (fun p => is_name (fst p) = true /\ is_token_text (snd p) = true) parameters ->
  is_generic (GenericTree name value (parameters_text parameters)).
Proof. intros Hn Hr Hv Hp. repeat split; [exact Hn|exact Hv|by exists parameters|exact Hr]. Qed.

Lemma quoted_in_grammar name : is_quotable name = true ->
  quoted_name name = EmptyString \/ exists s, quoted_name name = quote +:+ s +:+ quote /\ is_quotable s = true.
Proof. intros Hq. unfold quoted_name. destruct (str_empty name); [by left|right]. by exists name. Qed.

(** What is written is in the grammar. *)
Lemma printed_in_grammar e : clean_in is_uri e -> is_message_header is_uri (printed_in e).
Proof.
  destruct e as [ns h]. intros [Hc Hin]. cbn [snd] in Hc.
  assert (Hplain : (forall name value parameters, h <> GenericHeader name value parameters) ->
    is_message_header is_uri (printed h)).
  { intros Hg. destruct h; cbn [printed is_message_header].
    1-3: destruct Hc as (Hu & Hq & _); split; [by apply quoted_in_grammar|exact Hu].
    - destruct Hc as (Hy & Hh & Hmi & Hs & Hv & Ho). pose proof (valid_date_bounds _ _ _ Hv) as Hb.
      unfold date_fields. cbn [date_fullyear date_month date_mday time_hour time_minute time_second time_offset].
      repeat (split; [first [apply padded_4; lia|apply padded_2; lia]|]).
      destruct Ho as [[-> ->]|(Hsign & Hoh & Hom & _)]; [done|].
      assert (String.eqb signOffset "Z" = false) as -> by (by destruct Hsign as [->| ->]).
      split; [exact Hsign|]. split; by apply padded_2.
    - by destruct Hc as (_ & Hs & Hl).
    - by destruct Hc as (Hu & Hp).
    - destruct Hc as (Hne & Hn & Hd). exists headerNames. split; [exact Hne|]. split; [by apply join_names_concat|exact Hn].
    - by destruct (Hg name value parameters). }
  destruct ns as [|c ns].
  - destruct h as [| | | | | | |name value parameters]; try (by apply Hplain).
    destruct Hc as (Hn & Hr & _ & Hval & Hp). split; [by apply generic_in_grammar|exact Hin].
  - destruct h as [| | | | | | |name value parameters]; try done. destruct Hin as [Hns Hname].
    destruct Hc as (_ & _ & _ & Hval & Hp). cbn [printed_in is_message_header]. split.
    + apply generic_in_grammar; [|apply dotted_not_reserved|exact Hval|exact Hp].
      unfold is_header_name. change ("." +:+ name) with (String "." name).
      rewrite split_at_app by (by apply name_not_dotted). by rewrite Hns, Hname.
    + intros Ht. assert (Hd : str_has "." (tolower (String c ns +:+ "." +:+ name)) = true).
      { apply tolower_has_dot. rewrite str_has_app. cbn. by rewrite !orb_true_r. }
      rewrite Ht in Hd. discriminate Hd.
Qed.

Lemma add_clean_nodes l : Forall (clean_in is_uri) l -> forall m,
  ofold add_message_node (Some m) (map node_of_tree (map printed_in l))
  = Done (Some (m <| messageHeaders := push_all (map relocate l) (messageHeaders m) |>)).
Proof.
  induction 1 as [|e l He Hl IH]; intros m; [by destruct m|]. cbn [map ofold].
  rewrite add_clean_node by exact He. cbn [obind]. rewrite IH. done.
Qed.

Lemma add_clean_contents l :
  Forall (fun h => clean is_uri h /\ match h with GenericHeader _ _ _ => True | _ => False end) l -> forall m,
  ofold add_content_node (Some m) (map node_of_tree (map printed l))
  = Done (Some (m <| contentHeaders := contentHeaders m ++ l |>)).
Proof.
  induction 1 as [|h l [Hc _] Hl IH]; intros m; cbn [map ofold].
  - rewrite app_nil_r. by destruct m.
  - cbn [add_content_node]. rewrite (clean_read is_uri uri_some h Hc). cbn [obind]. unfold addContentHeader.
    rewrite (clean_stored is_uri uri_some h Hc). cbn [obind]. rewrite IH. cbn. by rewrite <- app_assoc.
Qed.

Lemma substring_after a b : String.substring (String.length a) (String.length (a +:+ b) - String.length a) (a +:+ b) = b.
Proof.
  rewrite str_length_app. replace (String.length a + String.length b - String.length a)%nat with (String.length b) by lia.
  induction a as [|c a IH]; cbn; [|exact IH]. rewrite <- (str_app_nil b) at 2. apply substring_app.
Qed.

Lemma parse_clean m `{CpimGrammar} :
  (forall t body, message_headers t <> [] -> Forall (is_message_header is_uri) (message_headers t) ->
     content_headers t <> [] -> Forall is_generic (content_headers t) ->
     parseInput (message_text t +:+ body) = Some (t, String.length (message_text t))) ->
  clean_message is_uri m -> parseMessage (asString m) = Done (Some (refile m)).
Proof.
  intros Hread Hm. rewrite asString_text by exact Hm. destruct Hm as (Hne & Hh & Hcne & Hc).
  unfold parseMessage. rewrite Hread; cbn [message_tree message_headers content_headers].
  - unfold createMessage.
    assert (Hmsg : exists n l, map node_of_tree (map printed_in (located (messageHeaders m))) = n :: l).
    { destruct (located (messageHeaders m)); [done|]. by do 2 eexists. }
    assert (Hcon : exists n l, map node_of_tree (map printed (contentHeaders m)) = n :: l).
    { destruct (contentHeaders m); [done|]. by do 2 eexists. }
    pose proof (add_clean_nodes _ Hh new_message) as Ea.
    pose proof (add_clean_contents _ Hc (new_message <| messageHeaders := push_all (map relocate (located (messageHeaders m))) [] |>)) as Eb.
    destruct Hmsg as (n & l & Em), Hcon as (k & l' & Ec). rewrite Em in Ea |- *. rewrite Ec in Eb |- *.
    rewrite Ea. cbn [obind messageHeaders new_message]. rewrite Eb. cbn [obind option_map].
    rewrite substring_after. done.
  - by destruct (located (messageHeaders m)).
  - apply Forall_map. eapply Forall_impl; [exact Hh|]. intros e. apply printed_in_grammar.
  - by destruct (contentHeaders m).
  - apply Forall_map. eapply Forall_impl; [exact Hc|]. intros h [Hk Hg]. destruct h; try done.
    destruct Hk as (Hn & Hr & _ & Hval & Hp). by apply generic_in_grammar.
Qed.
End Messages.

Lemma headers_push_new ns h l : Forall (fun e => String.compare (fst e) ns = Lt) l ->
  headers_push ns h l = l ++ [(ns, [h])].
Proof.
  induction 1 as [|[k hs] l Hk Hl IH]; [done|]. cbn [fst] in Hk. cbn [headers_push app].
  by rewrite String.compare_antisym, Hk, IH.
Qed.

Lemma headers_push_last ns h hs l : Forall (fun e => String.compare (fst e) ns = Lt) l ->
  headers_push ns h (l ++ [(ns, hs)]) = l ++ [(ns, hs ++ [h])].
Proof.
  induction 1 as [|[k ks] l Hk Hl IH]; cbn [headers_push app].
  - pose proof (String.compare_antisym ns ns) as E. by destruct (String.compare ns ns).
  - cbn [fst] in Hk. by rewrite String.compare_antisym, Hk, IH.
Qed.

Lemma push_namespace ns hs : forall hs0 l, Forall (fun e => String.compare (fst e) ns = Lt) l ->
  push_all (map (pair ns) hs) (l ++ [(ns, hs0)]) = l ++ [(ns, hs0 ++ hs)].
Proof.
  induction hs as [|h hs IH]; intros hs0 l Hl; cbn; [by rewrite app_nil_r|].
  unfold push_all in IH. rewrite headers_push_last, IH by exact Hl. by rewrite <- app_assoc.
Qed.

(** The headers of a map, pushed in order, make the map. *)
Lemma push_located l : forall acc,
  StronglySorted (fun a b => String.compare (fst a) (fst b) = Lt) (acc ++ l) -> Forall (fun e => snd e <> []) l ->
  push_all (located l) acc = acc ++ l.
Proof.
  induction l as [|[ns hs] l IH]; intros acc Hs Hne; [cbn; by rewrite app_nil_r|].
  inversion Hne as [|? ? Hh Hl]; subst. cbn [snd] in Hh. destruct hs as [|h hs]; [done|].
  assert (Hacc : Forall (fun e => String.compare (fst e) ns = Lt) acc).
  { clear -Hs. induction acc as [|e acc IH]; constructor; cbn in Hs; inversion Hs as [|? ? Hs' He]; subst.
    - apply Forall_app in He as [_ He]. by inversion He.
    - by apply IH. }
  unfold located. cbn [flat_map fst snd map]. fold (located l). unfold push_all. rewrite fold_left_app.
  cbn [fold_left fst snd]. rewrite headers_push_new by exact Hacc.
  pose proof (push_namespace ns hs [h] acc Hacc) as Hp. unfold push_all in Hp. rewrite Hp. cbn [app].
  change ((ns, h :: hs) :: l) with ([(ns, h :: hs)] ++ l). rewrite app_assoc. apply IH; [|exact Hl].
  by rewrite <- app_assoc.
Qed.

Lemma refile_filed m : filed m -> refile m = m.
Proof.
  intros (Hs & Hne & Hr). unfold refile.
  assert (E : map relocate (located (messageHeaders m)) = located (messageHeaders m)).
  { clear -Hr. induction Hr as [|e l He _ IH]; [done|]. cbn. by rewrite He, IH. }
  rewrite E, push_located; [by destruct m|exact Hs|exact Hne].
Qed.

(** ** A grammar that keeps these promises

    A reader of the texts above, line by line. *)

Fixpoint cut_line (s : string) : option (string * string) :=
  match s with
  | EmptyString => None
  | String c s' =>
      if Ascii.eqb c "013" then
        match s' with String d rest => if Ascii.eqb d "010" then Some (EmptyString, rest) else None | EmptyString => None end
      else match cut_line s' with Some (line, rest) => Some (String c line, rest) | None => None end
  end.

Fixpoint cut_block (fuel : nat) (s : string) : option (list string * string) :=
  match fuel with
  | O => None
  | S fuel =>
      match cut_line s with
      | Some (EmptyString, rest) => Some ([], rest)
      | Some (line, rest) => match cut_block fuel rest with Some (l, rest) => Some (line :: l, rest) | None => None end
      | None => None
      end
  end.

Definition drop_last (s : string) : string := String.substring 0 (String.length s - 1) s.

Definition contact_of_text (make : string -> string -> HeaderTree) (r : string) : option HeaderTree :=
  match r with
  | String c r' =>
      if Ascii.eqb c "034" then
        match split_at "034" r' with
        | Some (name, String _ uri) => Some (make (quote +:+ name +:+ quote) (drop_last uri))
        | _ => None
        end
      else Some (make EmptyString (drop_last r'))
  | EmptyString => None
  end.

Definition date_of_text (r : string) : HeaderTree :=
  let part n k := String.substring n k r in
  DateTimeTree (mkDateTimeFields (part 0 4) (part 5 2) (part 8 2) (part 11 2) (part 14 2) (part 17 2)
    (if String.eqb (part 19 1) "Z" then None else Some (part 19 1, part 20 2, part 23 2)))%nat.

Definition subject_of_text (r : string) : option HeaderTree :=
  match scan_lit ";lang=" r with
  | Some t => match split_at " " t with Some (tag, value) => Some (SubjectTree tag value) | None => None end
  | None => match r with String _ value => Some (SubjectTree EmptyString value) | EmptyString => None end
  end.

Definition ns_of_text (r : string) : option HeaderTree :=
  match split_at "<" r with
  | Some (before, after) => Some (NsTree (drop_last before) (drop_last after))
  | None => None
  end.

Definition generic_of_text (line : string) : option HeaderTree :=
  match split_at ":" line with
  | Some (name, r) =>
      match split_at " " r with Some (parameters, value) => Some (GenericTree name value parameters) | None => None end
  | None => None
  end.

Definition tree_of_text (line : string) : option HeaderTree :=
  match scan_lit "From: " line, scan_lit "To: " line, scan_lit "cc: " line, scan_lit "DateTime: " line,
        scan_lit "Subject:" line, scan_lit "NS: " line, scan_lit "Require: " line with
  | Some r, _, _, _, _, _, _ => contact_of_text FromTree r
  | _, Some r, _, _, _, _, _ => contact_of_text ToTree r
  | _, _, Some r, _, _, _, _ => contact_of_text CcTree r
  | _, _, _, Some r, _, _, _ => Some (date_of_text r)
  | _, _, _, _, Some r, _, _ => subject_of_text r
  | _, _, _, _, _, Some r, _ => ns_of_text r
  | _, _, _, _, _, _, Some r => Some (RequireTree r)
  | _, _, _, _, _, _, _ => generic_of_text line
  end.

Fixpoint all_some {A} (l : list (option A)) : option (list A) :=
  match l with
  | [] => Some []
  | Some a :: l => option_map (cons a) (all_some l)
  | None :: _ => None
  end.

Definition ref_parse (s : string) : option (MessageTree * nat) :=
  match cut_block (S (String.length s)) s with
  | None => None
  | Some (headers, rest) =>
      match cut_block (S (String.length rest)) rest with
      | None => None
      | Some (contents, body) =>
          match all_some (map tree_of_text headers), all_some (map generic_of_text contents) with
          | Some h, Some c => Some (mkMessageTree h c, (String.length s - String.length body)%nat)
          | _, _ => None
          end
      end
  end.

Definition ref_grammar : CpimGrammar := {| parseInput := ref_parse |}.

(** URIs of the reference: without the characters that end one. *)
Definition ref_uri (s : string) : bool := negb (str_empty s) && negb (str_has "013" s).

Lemma cut_line_app line rest : str_has "013" line = false -> cut_line (line +:+ CRLF +:+ rest) = Some (line, rest).
Proof.
  induction line as [|c line IH]; [done|]. cbn [str_has]. intros [Hc Hl]%orb_false_iff.
  cbn [String.append cut_line]. by rewrite Ascii.eqb_sym, Hc, (IH Hl).
Qed.

Lemma cut_block_app ls rest : Forall (fun l => l <> EmptyString /\ str_has "013" l = false) ls ->
  forall fuel, (List.length ls < fuel)%nat ->
  cut_block fuel (String.concat "" (map (fun l => l +:+ CRLF) ls) +:+ CRLF +:+ rest) = Some (ls, rest).
Proof.
  induction 1 as [|l ls [Hne Hl] Hls IH]; intros [|fuel] Hf; cbn in Hf; try lia; cbn [map].
  - cbn [cut_block]. by rewrite (cut_line_app EmptyString).
  - rewrite concat_empty_cons, !str_app_assoc. cbn [cut_block]. rewrite cut_line_app by exact Hl.
    destruct l as [|c l]; [done|]. by rewrite IH by lia.
Qed.

Lemma all_some_map {A} (f : string -> option A) (text : A -> string) l :
  Forall (fun a => f (text a) = Some a) l -> all_some (map f (map text l)) = Some l.
Proof. induction 1 as [|a l Ha Hl IH]; [done|]. cbn. by rewrite Ha, IH. Qed.

Lemma lines_long ls : (List.length ls <= String.length (String.concat "" (map (fun l => l +:+ CRLF) ls)))%nat.
Proof.
  induction ls as [|l ls IH]; [cbn; lia|]. cbn [map]. rewrite concat_empty_cons, !str_length_app. cbn. lia.
Qed.

Lemma scan_lit_name n x : forall name r, str_has ":" n = false -> str_has ":" name = false -> n <> name ->
  scan_lit (n +:+ String ":" x) (name +:+ String ":" r) = None.
Proof.
  induction n as [|c n IH]; intros [|d name] r; cbn [str_has]; try done.
  - intros _ [Hd _]%orb_false_iff _. cbn [String.append scan_lit]. by rewrite Hd.
  - intros [Hc _]%orb_false_iff _ _. cbn [String.append scan_lit]. by rewrite Ascii.eqb_sym, Hc.
  - intros [_ Hn]%orb_false_iff [_ Hname]%orb_false_iff Hne. cbn [String.append scan_lit].
    destruct (Ascii.eqb_spec c d) as [->|]; [|done]. apply IH; [exact Hn|exact Hname|congruence].
Qed.

Lemma drop_last_app s c : drop_last (s +:+ String c EmptyString) = s.
Proof.
  unfold drop_last. rewrite str_length_app. cbn [String.length].
  replace (String.length s + 1 - 1)%nat with (String.length s) by lia. apply substring_app.
Qed.

Lemma utf8_no_return s : forall n, utf8_text n s = true -> str_has "013" s = false.
Proof.
  induction s as [|c s IH]; intros n; [done|]. cbn [utf8_text str_has]. intros H. apply orb_false_iff.
  assert (Hne : Ascii.eqb "013" c = false) by (apply Ascii.eqb_neq; intros <-; by destruct n). split; [exact Hne|].
  destruct n; [|apply andb_true_iff in H as [_ H]; exact (IH _ H)].
  repeat match type of H with (if ?b then _ else _) = true => destruct b; [exact (IH _ H)|] end. discriminate H.
Qed.

Lemma parameters_lack c s : is_parameters s -> token_char c = false -> c <> ";"%char -> c <> "="%char -> str_has c s = false.
Proof.
  intros (l & -> & Hl) Hc H1 H2. unfold token_char in Hc. apply orb_false_iff in Hc as [Hn Hd].
  induction Hl as [|p l [Hname Htok] Hl IH]; [done|]. rewrite parameters_cons. cbn [str_has].
  rewrite !str_has_app, IH. cbn [str_has].
  rewrite (name_lacks c _ Hname Hn), (token_lacks c _ Htok) by (unfold token_char; by rewrite Hn, Hd).
  rewrite !orb_false_r. cbn [orb]. apply Ascii.eqb_neq in H1, H2. by rewrite H1, H2.
Qed.

Lemma generic_of_text_read tree : is_generic tree -> generic_of_text (tree_text tree) = Some tree.
Proof.
  destruct tree as [| | | | | | |name value parameters]; try done. intros (Hn & Hv & Hp & _).
  unfold generic_of_text. cbn [tree_text]. change (":" +:+ parameters +:+ " " +:+ value)
    with (String ":" (parameters +:+ String " " value)).
  rewrite split_at_app by by apply header_name_lacks. by rewrite split_at_app by by apply parameters_lack.
Qed.

Lemma contact_of_text_read make name uri :
  (name = EmptyString \/ exists s, name = quote +:+ s +:+ quote /\ is_quotable s = true) ->
  contact_of_text make (name +:+ "<" +:+ uri +:+ ">") = Some (make name uri).
Proof.
  intros [->|(s & -> & Hs)].
  - cbn [String.append contact_of_text]. change (Ascii.eqb "<" "034") with false. cbv iota.
    by rewrite drop_last_app.
  - rewrite !str_app_assoc. unfold quote at 1 2. cbn [String.append contact_of_text].
    change (Ascii.eqb "034" "034") with true. cbv iota.
    rewrite split_at_app; [by rewrite drop_last_app|].
    apply andb_true_iff in Hs as [[_ Hs]%andb_true_iff _]. by apply negb_true_iff in Hs.
Qed.

Lemma digits_2 s : digits 2 s = true -> exists a b, s = String a (String b EmptyString).
Proof.
  intros [Hl%Nat.eqb_eq _]%andb_true_iff. destruct s as [|a [|b [|c s]]]; try discriminate Hl. by do 2 eexists.
Qed.

Lemma digits_4 s : digits 4 s = true -> exists a b c d, s = String a (String b (String c (String d EmptyString))).
Proof.
  intros [Hl%Nat.eqb_eq _]%andb_true_iff. destruct s as [|a [|b [|c [|d [|e s]]]]]; try discriminate Hl. by do 4 eexists.
Qed.

Lemma tree_of_text_read tree : is_message_header ref_uri tree -> tree_of_text (tree_text tree) = Some tree.
Proof.
  intros Ht. destruct tree; cbn [is_message_header tree_text] in *.
  - destruct Ht as [Ht _]. exact (contact_of_text_read FromTree _ _ Ht).
  - destruct Ht as [Ht _]. exact (contact_of_text_read ToTree _ _ Ht).
  - destruct Ht as [Ht _]. exact (contact_of_text_read CcTree _ _ Ht).
  - destruct fields as [y mo d h mi se off]. cbn in Ht. destruct Ht as (Hy & Hmo & Hd & Hh & Hmi & Hse & Ho).
    apply digits_4 in Hy as (? & ? & ? & ? & ->). apply digits_2 in Hmo as (? & ? & ->), Hd as (? & ? & ->).
    apply digits_2 in Hh as (? & ? & ->), Hmi as (? & ? & ->), Hse as (? & ? & ->).
    destruct off as [[[sign hh] mm]|]; [|done]. destruct Ho as (Hsign & Hhh & Hmm).
    apply digits_2 in Hhh as (? & ? & ->), Hmm as (? & ? & ->). by destruct Hsign as [->| ->].
  - destruct Ht as [Htag Hv]. change (subject_of_text ((if str_empty language_tag then "" else ";lang=" +:+ language_tag)
      +:+ " " +:+ header_value) = Some (SubjectTree language_tag header_value)).
    destruct Htag as [->|Hl]; [done|].
    assert (Hs : str_all (fun c => is_alnum c || Ascii.eqb c "-") language_tag = true).
    { unfold is_language in Hl. destruct (split_on _ _); [done|]. by repeat (apply andb_true_iff in Hl as [Hl _]). }
    destruct (str_empty language_tag) eqn:E; [by apply str_empty_spec in E as ->|].
    unfold subject_of_text. rewrite str_app_assoc, scan_lit_app.
    change (" " +:+ header_value) with (String " " header_value). by rewrite split_at_app by (eapply str_all_has; [exact Hs|done]).
  - destruct Ht as [Hp Hu]. change (ns_of_text ((if str_empty name_prefix then "" else name_prefix +:+ " ") +:+ "<" +:+ uri +:+ ">")
      = Some (NsTree name_prefix uri)). unfold ns_of_text.
    change ("<" +:+ uri +:+ ">") with (String "<" (uri +:+ String ">" EmptyString)).
    destruct Hp as [->|Hp]; [cbn [str_empty String.eqb]; rewrite split_at_app by done; by rewrite drop_last_app|].
    assert (str_empty name_prefix = false) as -> by (apply str_empty_false; by intros ->).
    rewrite split_at_app.
    + change " "%string with (String " " EmptyString). by rewrite !drop_last_app.
    + unfold lacks. rewrite str_has_app, (name_lacks "<" _ Hp) by done. done.
  - done.
  - destruct Ht as [Hg _]. pose proof Hg as (Hn & _ & _ & Hr). rewrite <- (generic_of_text_read _ Hg). cbn [tree_text].
    assert (Hc : str_has ":" header_name = false) by by apply header_name_lacks.
    set (r := header_parameters +:+ " " +:+ header_value).
    change (header_name +:+ ":" +:+ r) with (header_name +:+ String ":" r). unfold tree_of_text.
    assert (Hne : forall n x, In n reserved -> scan_lit (n +:+ String ":" x) (header_name +:+ String ":" r) = None).
    { intros n x Hin. apply scan_lit_name; [|exact Hc|].
      - repeat (destruct Hin as [<-|Hin]; [done|]). destruct Hin.
      - intros ->. apply not_true_iff_false in Hr. apply Hr, existsb_exists. exists header_name. by rewrite String.eqb_refl. }
    pose proof (Hne "From" " ")%string as H1. pose proof (Hne "To" " ")%string as H2. pose proof (Hne "cc" " ")%string as H3.
    pose proof (Hne "DateTime" " ")%string as H4. pose proof (Hne "Subject" "")%string as H5.
    pose proof (Hne "NS" " ")%string as H6. pose proof (Hne "Require" " ")%string as H7.
    cbn [String.append] in H1, H2, H3, H4, H5, H6, H7.
    by rewrite H1, H2, H3, H4, H5, H6, H7 by (cbn; tauto).
Qed.

Lemma generic_clear tree : is_generic tree -> tree_text tree <> EmptyString /\ str_has "013" (tree_text tree) = false.
Proof.
  destruct tree as [| | | | | | |name value parameters]; try done. intros (Hn & Hv & Hp & _). cbn [tree_text]. split.
  - apply header_name_some in Hn. by destruct name.
  - rewrite !str_has_app, (header_name_lacks "013" _ Hn), (parameters_lack "013" _ Hp), (utf8_no_return _ _ Hv) by done. done.
Qed.

Lemma uri_clear uri : ref_uri uri = true -> str_has "013" uri = false.
Proof. intros [_ H]%andb_true_iff. by apply negb_true_iff in H. Qed.

Lemma digits_clear n s : digits n s = true -> str_has "013" s = false.
Proof. intros [_ H]%andb_true_iff. by eapply str_all_has. Qed.

Lemma contact_clear name uri :
  (name = EmptyString \/ exists s, name = quote +:+ s +:+ quote /\ is_quotable s = true) /\ ref_uri uri = true ->
  str_has "013" (name +:+ "<" +:+ uri +:+ ">") = false.
Proof.
  intros [Hn Hu]. rewrite !str_has_app, (uri_clear _ Hu).
  destruct Hn as [->|(s & -> & [[Hs _]%andb_true_iff _]%andb_true_iff)]; [done|].
  by rewrite !str_has_app, (utf8_no_return _ _ Hs).
Qed.

Lemma tree_clear tree : is_message_header ref_uri tree -> tree_text tree <> EmptyString /\ str_has "013" (tree_text tree) = false.
Proof.
  intros Ht. destruct tree; cbn [is_message_header] in Ht.
  8: { destruct Ht as [Hg _]. by apply generic_clear. }
  all: (split; [done|]); cbn [tree_text]; rewrite str_has_app; apply orb_false_iff; (split; [done|]).
  1-3: by apply contact_clear.
  - destruct fields as [y mo d h mi se off]. cbn in Ht. destruct Ht as (Hy & Hmo & Hd & Hh & Hmi & Hse & Ho).
    unfold date_text. cbn [date_fullyear date_month date_mday time_hour time_minute time_second time_offset].
    rewrite !str_has_app, (digits_clear _ _ Hy), (digits_clear _ _ Hmo), (digits_clear _ _ Hd), (digits_clear _ _ Hh),
      (digits_clear _ _ Hmi), (digits_clear _ _ Hse).
    destruct off as [[[sign hh] mm]|]; [|done]. destruct Ho as (Hsign & Hhh & Hmm).
    rewrite !str_has_app, (digits_clear _ _ Hhh), (digits_clear _ _ Hmm). by destruct Hsign as [->| ->].
  - destruct Ht as [Htag Hv]. rewrite !str_has_app, (utf8_no_return _ _ Hv).
    destruct Htag as [->|Hl]; [done|].
    assert (Hs : str_all (fun c => is_alnum c || Ascii.eqb c "-") language_tag = true).
    { unfold is_language in Hl. destruct (split_on _ _); [done|]. by repeat (apply andb_true_iff in Hl as [Hl _]). }
    destruct (str_empty language_tag); [done|]. rewrite str_has_app, (str_all_has _ "013" _ Hs) by done. done.
  - destruct Ht as [Hp Hu]. rewrite !str_has_app, (uri_clear _ Hu). destruct Hp as [->|Hp]; [done|].
    destruct (str_empty name_prefix); [done|]. by rewrite str_has_app, (name_lacks "013" _ Hp).
  - destruct Ht as (l & _ & -> & Hl). apply (str_has_concat "013" ","); [done|]. eapply Forall_impl; [exact Hl|].
    intros n Hn. by apply header_name_lacks.
Qed.

Lemma lines_texts trees : lines trees = String.concat "" (map (fun l => l +:+ CRLF) (map tree_text trees)).
Proof. unfold lines. by rewrite map_map. Qed.

#[export] Instance ref_grammar_spec : GrammarSpec ref_grammar.
Proof.
  refine {| is_uri := ref_uri; uri_some := eq_refl |}.
  intros [h c] body _ Hh _ Hc. cbn [message_headers content_headers] in *.
  unfold parseInput, ref_grammar, ref_parse, message_text. cbn [message_headers content_headers].
  rewrite !str_app_assoc, !lines_texts. set (hs := map tree_text h). set (cs := map tree_text c).
  assert (Hhs : Forall (fun l => l <> EmptyString /\ str_has "013" l = false) hs).
  { subst hs. apply Forall_map. eapply Forall_impl; [exact Hh|]. intros t. apply tree_clear. }
  assert (Hcs : Forall (fun l => l <> EmptyString /\ str_has "013" l = false) cs).
  { subst cs. apply Forall_map. eapply Forall_impl; [exact Hc|]. intros t. apply generic_clear. }
  pose proof (lines_long hs) as L1. pose proof (lines_long cs) as L2.
  rewrite cut_block_app; [|exact Hhs|rewrite !str_length_app; lia].
  rewrite cut_block_app; [|exact Hcs|rewrite !str_length_app; lia].
  subst hs cs. rewrite (all_some_map tree_of_text tree_text h), (all_some_map generic_of_text tree_text c).
  - f_equal. f_equal. rewrite !str_length_app. lia.
  - eapply Forall_impl; [exact Hc|]. intros t. apply generic_of_text_read.
  - eapply Forall_impl; [exact Hh|]. intros t. apply tree_of_text_read.
Defined.

(** C17. A CPIM message that is written is read back.  Any message made of the
    headers of the grammar, whatever its content, is parsed into a message with the
    same headers and the same content: each header under its namespace, and
    exactly the message itself when its headers were filed by namespace. *)
Theorem message_text_roundtrip `{Splitting} `{!SplitSpec split} `{!GrammarSpec g} m :
  clean_message is_uri m ->
  parseMessage (asString m) = Done (Some (refile m)) /\ (filed m -> refile m = m).
Proof.
  intros Hm. split; [|apply refile_filed]. apply (parse_clean is_uri uri_some m (message_read)). exact Hm.
Qed.

(** The message of RFC 3862, more or less. *)
Definition example_message : Message := {|
  messageHeaders :=
    [("", [FromHeader "im:piglet@100akerwood.com" "MR SANDERS"; ToHeader "im:eeyore@100akerwood.com" "Depressed Donkey";
           DateTimeHeader (mkTm 2000 11 13 13 40 0) (mkTm 0 0 0 8 0 0) "-"; SubjectHeader "the weather" "fr";
           NsHeader "mid:MessageFeatures@id.foo.com" "MyFeatures"; RequireHeader ["MyFeatures.VitalMessageOption"];
           GenericHeader "Test" "CheckMe" [("aaa", "bbb"); ("yes", "no")]]);
     ("MyFeatures", [GenericHeader "VitalMessageOption" "Confirmation-requested" []])];
  contentHeaders := [GenericHeader "Content-Type" "text/xml; charset=utf-8" []];
  content := "<body>";
|}%string.

Definition ref_splitting : Splitting := {| split := ref_split; split_text := fun s d => [s] |}.

Lemma message_text_roundtrip_witness :
  parseMessage (H := ref_splitting) (H0 := ref_grammar) (asString example_message) = Done (Some example_message).
Proof.
  destruct (message_text_roundtrip (H := ref_splitting) (g := ref_grammar) example_message) as [Hp Hf].
  - split; [done|split; [|split; [done|]]].
    + repeat (apply Forall_cons; split; [repeat split; try done|]); try apply Forall_nil; try (by right); try exact I.
      * right. repeat split; first [done|by right].
      * intros n _ Hn. by apply elem_of_nil in Hn.
    + repeat constructor; done.
  - rewrite Hp, Hf; [done|]. split; [|split].
    + repeat constructor.
    + repeat constructor; done.
    + repeat constructor.
Defined.
