(* ===== verification/CpimExchange.v ===== *)
(** * A chat message from a sender to a receiver

    What [decode] reads of what [encode] wrote. *)
From S2P Require Import Prelude SalTypes Payload Sscanf LpConfigValues LpConfigParse LpConfigValuesProps CapabilityText ChatTypes ChatExamples Cpim CpimModifier CpimProps CpimText.
Import Cpim CpimModifier.

(** What the platform documents: texts joined with a comma are split where they
    were joined, decimal numbers are read as they are, and an address without a
    display name has an empty one; and the URIs of the namespaces are URIs. *)
Class PlatformSpec `{CpimPlatform} `{Splitting} `{GrammarSpec} : Prop := {
  no_display_name : forall a, getDisplayName (without_display_name a) = EmptyString;
  joined_split : forall l, l <> [] -> Forall (fun s => str_has "," s = false) l -> split_text (String.concat ", " l) ", " = l;
  long_read : forall z, - 2 ^ 53 <= z <= 2 ^ 53 -> long_of_text (to_dec z) = z;
  namespace_uris : is_uri linphoneNamespaceTag = true /\ is_uri imdnNamespaceUrn = true;
}.

(** ** Headers by namespace *)

Definition in_namespace (ns : string) (l : list (string * Header)) : list Header :=
  map snd (List.filter (fun e => String.eqb (fst e) ns) l).

Definition ordered (l : list (string * list Header)) : Prop :=
  StronglySorted (fun a b => String.compare (fst a) (fst b) = Lt) l.

Lemma compare_eq a b : String.compare a b = Eq -> a = b.
Proof. apply String.compare_eq_iff. Qed.

Lemma compare_refl a : String.compare a a = Eq.
Proof. pose proof (String.compare_antisym a a) as E. by destruct (String.compare a a). Qed.

Lemma compare_gt_lt a b : String.compare a b = Gt -> String.compare b a = Lt.
Proof. intros E. by rewrite String.compare_antisym, E. Qed.

Lemma compare_trans a : forall b c, String.compare a b = Lt -> String.compare b c = Lt -> String.compare a c = Lt.
Proof.
  induction a as [|x a IH]; intros [|y b] [|z c]; cbn; try done.
  unfold Ascii.compare. destruct (N.compare_spec (N_of_ascii x) (N_of_ascii y)) as [E|E|E]; try done;
    destruct (N.compare_spec (N_of_ascii y) (N_of_ascii z)) as [E'|E'|E']; try done; intros H1 H2.
  - rewrite E, E', N.compare_refl. by eapply IH.
  - rewrite E. by rewrite (proj2 (N.compare_lt_iff _ _) E').
  - rewrite <- E'. by rewrite (proj2 (N.compare_lt_iff _ _) E).
  - by rewrite (proj2 (N.compare_lt_iff _ _) (N.lt_trans _ _ _ E E')).
Qed.

Lemma headers_push_keys (P : string -> Prop) ns h l : P ns -> Forall (fun e => P (fst e)) l ->
  Forall (fun e => P (fst e)) (headers_push ns h l).
Proof.
  intros Hns. induction 1 as [|[k hs] l Hk Hl IH]; cbn [headers_push]; [by constructor|].
  destruct (String.compare ns k); repeat constructor; done.
Qed.

Lemma ordered_push ns h l : ordered l -> ordered (headers_push ns h l).
Proof.
  unfold ordered. induction 1 as [|[k hs] l Hl IH Hk]; cbn [headers_push]; [by repeat constructor|].
  cbn [fst] in Hk. destruct (String.compare ns k) eqn:E.
  - by constructor.
  - constructor; [by constructor|]. constructor; [exact E|]. eapply Forall_impl; [exact Hk|].
    intros e He. by eapply compare_trans.
  - constructor; [exact IH|]. apply (headers_push_keys (fun x => String.compare k x = Lt)); [|exact Hk].
    by apply compare_gt_lt.
Qed.

Lemma headers_at_none ns l : Forall (fun e => String.compare ns (fst e) = Lt) l -> headers_at ns l = None.
Proof.
  unfold headers_at. induction 1 as [|[k hs] l Hk _ IH]; [done|]. cbn [List.find fst] in *.
  destruct (String.eqb_spec k ns) as [->|]; [by rewrite compare_refl in Hk|]. exact IH.
Qed.

(** What is under a namespace once a header was pushed. *)
Lemma headers_at_push ns k h l : ordered l ->
  default [] (headers_at ns (headers_push k h l))
  = default [] (headers_at ns l) ++ (if String.eqb k ns then [h] else []).
Proof.
  unfold ordered. induction 1 as [|[k' hs] l Hl IH Hk]; cbn [headers_push].
  - unfold headers_at. cbn. by destruct (String.eqb k ns).
  - cbn [fst] in Hk. destruct (String.compare k k') eqn:E.
    + apply compare_eq in E as ->. unfold headers_at. cbn [List.find fst].
      destruct (String.eqb k' ns); cbn; [done|by rewrite app_nil_r].
    + destruct (String.eqb_spec k ns) as [->|Hne].
      * rewrite (headers_at_none ns ((k', hs) :: l)); [by unfold headers_at; cbn; rewrite String.eqb_refl|].
        constructor; [exact E|]. eapply Forall_impl; [exact Hk|]. intros e He. by eapply compare_trans.
      * unfold headers_at at 1. cbn [List.find fst]. apply String.eqb_neq in Hne. rewrite Hne. by rewrite app_nil_r.
    + unfold headers_at in *. cbn [List.find fst]. destruct (String.eqb_spec k' ns) as [->|]; [|exact IH].
      destruct (String.eqb_spec k ns) as [->|]; [by rewrite compare_refl in E|]. cbn. by rewrite app_nil_r.
Qed.

Lemma ordered_push_all l : forall acc, ordered acc -> ordered (push_all l acc).
Proof. induction l as [|e l IH]; intros acc Ha; [exact Ha|]. by apply IH, ordered_push. Qed.

Lemma headers_at_push_all ns l : forall acc, ordered acc ->
  default [] (headers_at ns (push_all l acc)) = default [] (headers_at ns acc) ++ in_namespace ns l.
Proof.
  unfold in_namespace. induction l as [|[k h] l IH]; intros acc Ha; [cbn; by rewrite app_nil_r|].
  change (push_all ((k, h) :: l) acc) with (push_all l (headers_push k h acc)).
  rewrite IH by by apply ordered_push. rewrite headers_at_push by exact Ha. rewrite <- app_assoc. f_equal.
  cbn. by destruct (String.eqb k ns).
Qed.

(** What is found in a message that was read. *)
Lemma found_in_refiled name ns m :
  getMessageHeader name ns (refile m) = header_named name (in_namespace ns (map relocate (located (messageHeaders m)))).
Proof.
  pose proof (headers_at_push_all ns (map relocate (located (messageHeaders m))) [] (SSorted_nil _)) as E.
  cbn [headers_at List.find fmap option_fmap option_map default app] in E.
  unfold getMessageHeader, getMessageHeaders, refile. cbn [messageHeaders].
  destruct (headers_at ns _) as [hs|]; cbn in E; by rewrite <- E.
Qed.

(** ** What is sent *)

(** A text that a header may have for value. *)
Definition is_text (s : string) : Prop := s <> EmptyString /\ is_value s = true.

Lemma printable_value s : str_all (in_ascii_range 32 126) s = true -> is_value s = true.
Proof.
  unfold is_value. induction s as [|c s IH]; [done|]. cbn [str_all utf8_text]. intros [Hc Hs]%andb_true_iff.
  rewrite Hc. by apply IH.
Qed.

Lemma to_dec_text z : is_text (to_dec z).
Proof.
  assert (Hd : forall n, 0 <= n -> str_all (in_ascii_range 32 126) (dec_of_nonneg n) = true).
  { intros n Hn. eapply str_all_impl; [|by apply dec_of_nonneg_digits]. intros c. unfold is_digit, in_ascii_range.
    rewrite !andb_true_iff, !Nat.leb_le. lia. }
  assert (Hne : forall n, dec_of_nonneg n <> EmptyString) by (intros n; destruct (dec_of_nonneg_cons n) as (c & s & ->); done).
  unfold to_dec. destruct (Z.ltb_spec z 0).
  - split; [done|]. apply printable_value. cbn [str_all String.append]. rewrite Hd by lia. done.
  - split; [apply Hne|]. apply printable_value, Hd. lia.
Qed.

(** ** Types and dispositions *)

(** A text without spaces around it and without semicolons. *)
Definition bare (s : string) : Prop := trim s = s /\ lacks ";" s.

(** A media type as the program makes them: its type and subtype are in lower case
    and its parameters have different names. *)
Record plain_type (t : ContentType) : Prop := {
  pt_value : ct_value t = ct_type t +:+ "/" +:+ ct_subType t;
  pt_type : bare (ct_type t) /\ lacks "/" (ct_type t) /\ tolower (ct_type t) = ct_type t;
  pt_subtype : bare (ct_subType t) /\ lacks "/" (ct_subType t) /\ tolower (ct_subType t) = ct_subType t;
  pt_params : Forall (fun p => lacks ";" (fst p) /\ lacks "=" (fst p) /\ lacks ";" (snd p)) (ct_params t);
  pt_names : NoDup (map fst (ct_params t));
}.

Definition plain_disposition (d : ContentDisposition) : Prop :=
  bare (disposition d) /\ trim (disposition_parameter d) = disposition_parameter d.

Lemma index_app c a b : lacks c a -> String.index 0 (String c EmptyString) (a +:+ String c b) = Some (String.length a).
Proof.
  induction a as [|d a IH]; cbn.
  - intros _. destruct (ascii_dec c c); [by destruct b|done].
  - intros [Hd Ha]%lacks_cons. destruct (ascii_dec c d) as [->|]; [done|]. by rewrite IH.
Qed.

Lemma index_lacks c s : lacks c s -> String.index 0 (String c EmptyString) s = None.
Proof.
  induction s as [|d s IH]; [done|]. intros [Hd Hs]%lacks_cons. cbn.
  destruct (ascii_dec c d) as [->|]; [done|]. by rewrite IH.
Qed.

(** The text of a parameter, without the semicolon. *)
Definition param_text (p : string * string) : string :=
  fst p +:+ (if str_empty (snd p) then EmptyString else "=" +:+ snd p).

Lemma param_text_read p : lacks "=" (fst p) -> HeaderParam_of_text (param_text p) = p.
Proof.
  destruct p as [n v]. cbn. intros Hn. unfold HeaderParam_of_text, param_text. cbn [fst snd].
  destruct (str_empty v) eqn:E; [apply str_empty_spec in E as ->; by rewrite str_app_nil, split_at_none|].
  change (v =? "")%string with (str_empty v). rewrite E. by rewrite split_at_app.
Qed.

Lemma params_split p l :
  Forall (fun p => lacks ";" (fst p) /\ lacks "=" (fst p) /\ lacks ";" (snd p)) (p :: l) ->
  map HeaderParam_of_text (split_on ";" (param_text p +:+ String.concat "" (map HeaderParam_asString l))) = p :: l.
Proof.
  assert (Hlacks : forall p : string * string, lacks ";" (fst p) -> lacks ";" (snd p) -> lacks ";" (param_text p)).
  { intros [n v] Hn Hv. apply lacks_app. split; [exact Hn|]. cbn [snd]. destruct (str_empty v); [done|].
    apply lacks_app. by split. }
  revert p. induction l as [|q l IH]; intros p [(Hn & He & Hv) Hl]%Forall_cons.
  - cbn [map String.concat]. rewrite str_app_nil, split_on_none by auto. cbn [map]. by rewrite param_text_read.
  - assert (String.concat "" (map HeaderParam_asString (q :: l))
            = String ";" (param_text q +:+ String.concat "" (map HeaderParam_asString l))) as ->.
    { destruct l; cbn [map String.concat]; [by rewrite str_app_nil|]. reflexivity. }
    rewrite split_on_cons by auto. cbn [map]. by rewrite param_text_read, IH.
Qed.

Lemma added_params l : forall acc, NoDup (map fst (acc ++ l)) -> fold_left addParameter l acc = acc ++ l.
Proof.
  induction l as [|p l IH]; intros acc Hd; cbn [fold_left]; [by rewrite app_nil_r|].
  assert (addParameter acc p = acc ++ [p]) as ->.
  { unfold addParameter, removeParameter. destruct (List.find _ acc) as [q|] eqn:E; [|done]. exfalso.
    apply List.find_some in E as [Hin Heq%String.eqb_eq]. rewrite map_app in Hd. cbn in Hd.
    apply NoDup_app in Hd as (_ & Hd & _). apply (Hd (fst p)); [|by left]. rewrite <- Heq.
    apply list_elem_of_In. by apply List.in_map. }
  rewrite IH; rewrite <- app_assoc; done.
Qed.

Lemma substring_from a n b : String.substring (String.length a) n (a +:+ b) = String.substring 0 n b.
Proof. induction a as [|c a IH]; [done|exact IH]. Qed.

(** The type and the subtype, and what follows them. *)
Lemma type_parts ty sub c rest (t := ty +:+ String c sub) :
  substr_between (t +:+ rest) (String.length ty) (String.length t) = sub.
Proof.
  unfold substr_between. subst t. rewrite str_length_app. cbn [String.length].
  rewrite (proj2 (Nat.leb_le _ _)) by lia. rewrite str_app_assoc.
  replace (ty +:+ (String c sub +:+ rest)) with ((ty +:+ String c EmptyString) +:+ (sub +:+ rest)) by by rewrite str_app_assoc.
  replace (String.length ty + 1)%nat with (String.length (ty +:+ String c EmptyString)) by (rewrite str_length_app; cbn; lia).
  rewrite substring_from, str_length_app. cbn [String.length].
  replace (_ - _)%nat with (String.length sub) by lia. apply substring_app.
Qed.

Lemma text_after c t body :
  String.substring (String.length t + 1) (String.length (t +:+ String c body)) (t +:+ String c body) = body.
Proof.
  rewrite str_length_app. cbn [String.length].
  replace (t +:+ String c body) with ((t +:+ String c EmptyString) +:+ body) by by rewrite str_app_assoc.
  replace (String.length t + 1)%nat with (String.length (t +:+ String c EmptyString)) by (rewrite str_length_app; cbn; lia).
  rewrite substring_from. apply substring_whole. lia.
Qed.

(** A type is read from its text. *)
Lemma type_read t : plain_type t -> ContentType_of_text (getMediaType t) = t.
Proof.
  destruct t as [v ty sub ps]. intros [Hv ([Tt Ts] & Th & Tl) ([St Ss] & Sh & Sl) Hp Hn]. cbn [ct_value ct_type ct_subType ct_params] in *.
  subst v. unfold getMediaType. cbn [ct_value ct_params]. change (ty +:+ "/" +:+ sub) with (ty +:+ String "/" sub).
  set (t := ty +:+ String "/" sub). set (rest := String.concat "" (map HeaderParam_asString ps)).
  assert (Ht : lacks ";" t) by (apply lacks_app; split; [exact Ts|by apply lacks_cons]).
  assert (Hrest : rest = EmptyString /\ ps = [] \/
    exists body, rest = String ";" body /\ map HeaderParam_of_text (split_on ";" body) = ps).
  { subst rest. destruct ps as [|p l]; [by left|]. right. eexists. split; [|by apply params_split].
    destruct l; cbn [map String.concat]; [by rewrite str_app_nil|reflexivity]. }
  clearbody rest. unfold ContentType_of_text.
  assert (String.index 0 "/" (t +:+ rest) = Some (String.length ty)) as ->.
  { subst t. rewrite str_app_assoc. by apply index_app. }
  assert (String.substring 0 (String.length ty) (t +:+ rest) = ty) as ->.
  { subst t. rewrite str_app_assoc. apply substring_app. }
  assert (Hend : default (String.length (t +:+ rest)) (String.index 0 ";" (t +:+ rest)) = String.length t).
  { destruct Hrest as [[-> _]|(body & -> & _)]; [by rewrite str_app_nil, index_lacks|by rewrite index_app]. }
  cbv zeta. rewrite Hend. subst t. rewrite type_parts, Tt, St. set (t := ty +:+ String "/" sub) in *.
  unfold setType, setSubType. rewrite Th, Sh. cbn [update ct_value ct_type ct_subType ct_params no_type]. rewrite Tl, Sl.
  destruct Hrest as [[-> ->]|(body & -> & Hb)]; [by rewrite str_app_nil, index_lacks|].
  rewrite index_app, text_after, Hb by exact Ht. cbn. by rewrite added_params.
Qed.

(** A type given to a content that had none. *)
Lemma type_assigned t : plain_type t -> ContentType_assign no_type t = t.
Proof.
  destruct t as [v ty sub ps]. intros [Hv (_ & Th & Tl) (_ & Sh & Sl) _ Hn]. cbn [ct_value ct_type ct_subType ct_params] in *.
  subst v. unfold ContentType_assign, setType, setSubType. cbn [ct_type ct_subType ct_params].
  unfold lacks in *. rewrite Sh, Th, Tl, Sl. cbn. by rewrite added_params.
Qed.

Lemma disposition_read d : disposition_isValid d = true -> plain_disposition d ->
  ContentDisposition_of_text (disposition_asString d) = d.
Proof.
  destruct d as [d p]. intros Hv [[Ht Hl] Hp]. unfold ContentDisposition_of_text, disposition_asString. rewrite Hv.
  cbn [disposition disposition_parameter] in *. destruct (str_empty p) eqn:E.
  - apply str_empty_spec in E as ->. by rewrite str_app_nil, split_at_none, Ht.
  - change (d +:+ ";" +:+ p) with (d +:+ String ";" p). by rewrite split_at_app, Ht, Hp.
Qed.

Section Sending.
Context `{CpimPlatform} `{Splitting} `{!SplitSpec split} `{!GrammarSpec g} `{!PlatformSpec}.

Lemma generic_plain name value : is_reserved name = false -> generic name value = GenericHeader name value [].
Proof. intros Hr. exact (generic_read name value [] Hr (List.Forall_nil _)). Qed.

Lemma clean_generic name value : is_header_name name = true -> is_reserved name = false -> is_text value ->
  clean is_uri (generic name value).
Proof. intros Hn Hr [Hv Hval]. rewrite generic_plain by exact Hr. repeat split; [exact Hn|exact Hr|exact Hv|exact Hval|done]. Qed.

Lemma add_clean_headers l : Forall (clean is_uri) l -> forall m,
  ofold add_message_header m l = Done (m <| messageHeaders := push_all (map (pair EmptyString) l) (messageHeaders m) |>).
Proof.
  induction 1 as [|h l Hh Hl IH]; intros m; [by destruct m|]. cbn [ofold map]. unfold add_message_header at 1, addMessageHeader.
  rewrite (clean_stored is_uri uri_some h Hh). cbn [obind]. by rewrite IH.
Qed.

Lemma add_clean_content_headers l : Forall (clean is_uri) l -> forall m,
  ofold add_content_header m l = Done (m <| contentHeaders := contentHeaders m ++ l |>).
Proof.
  induction 1 as [|h l Hh Hl IH]; intros m; cbn [ofold]; [rewrite app_nil_r; by destruct m|].
  unfold add_content_header at 1, addContentHeader. rewrite (clean_stored is_uri uri_some h Hh). cbn [obind].
  rewrite IH. cbn. by rewrite <- app_assoc.
Qed.

Lemma push_all_plain l : l <> [] -> push_all (map (pair EmptyString) l) [] = [(EmptyString, l)].
Proof.
  destruct l as [|h l]; [done|]. intros _. cbn [map]. unfold push_all. cbn [fold_left fst snd headers_push].
  exact (push_namespace EmptyString l [h] [] (List.Forall_nil _)).
Qed.

(** Everything that is written of a message is in the grammar. *)
Record sendable (room : Room) (m : ChatMessage) (id : string) (contact : option Address) (device to : Address)
    (date : tm) (c : Content) : Prop := {
  s_account : account room = Some contact;
  s_device : local_device contact room m = Some device;
  s_to : toAddress m = Some to;
  s_date : gmtime (time m) = Some date;
  s_year : 0 <= tm_year date + 1900 < 10000;
  s_content : current_content m = Some c;
  s_from_uri : is_uri (asStringUriOnly (without_display_name device)) = true;
  s_to_uri : is_uri (asStringUriOnly to) = true;
  s_to_name : is_quotable (getDisplayName to) = true /\ last_char (getDisplayName to) <> Some " "%char;
  s_id : is_text id;
  s_forward : forwardInfo m = EmptyString \/ is_text (forwardInfo m);
  s_reply : replyingToMessageId m = EmptyString
            \/ is_text (replyingToMessageId m) /\ exists a, replyingToMessageSender m = Some a /\ is_text (address_toString a);
  s_reaction : reactionToMessageId m = EmptyString \/ is_text (reactionToMessageId m);
  s_type : is_text (getMediaType (mContentType c)) /\ plain_type (mContentType c);
  s_disposition : disposition_isValid (mContentDisposition c) = false
                  \/ is_text (disposition_asString (mContentDisposition c)) /\ plain_disposition (mContentDisposition c);
  s_lifetime : - 2 ^ 53 <= ephemeralLifetime m <= 2 ^ 53;
}.

Definition sent_reply_headers (m : ChatMessage) : list Header :=
  match reply_headers m with Done l => l | _ => [] end.

Definition sent_notification_headers (id : string) (m : ChatMessage) : list Header :=
  ephemeral_headers m
  ++ [NsHeader imdnNamespaceUrn imdnNamespace; imdn_header imdnMessageIdHeader id]
  ++ (if str_empty (forwardInfo m) then [] else [imdn_header imdnForwardInfoHeader (forwardInfo m)])
  ++ sent_reply_headers m
  ++ [imdn_header imdnDispositionNotificationHeader (String.concat ", " (disposition_values m))].

Definition sent_headers (id : string) (device to : Address) (date : tm) (m : ChatMessage) : list Header :=
  [FromHeader (asStringUriOnly (without_display_name device)) EmptyString;
   ToHeader (asStringUriOnly to) (getDisplayName to)]
  ++ (if refused_date (sent_date date) then [] else [DateTimeHeader (sent_date date) zero_tm "Z"])
  ++ (if notifications_required m then sent_notification_headers id m else [])
  ++ reaction_headers m.

(** The CPIM message that is written. *)
Definition sent_message (id : string) (device to : Address) (date : tm) (c : Content) (m : ChatMessage) : Message :=
  mkMessage [(EmptyString, sent_headers id device to date m)] (encoded_content_headers c m) (mBody c).

Ltac generic_clean := apply clean_generic; [vm_compute; reflexivity|vm_compute; reflexivity|].

(** Headers that may be written among those of the message. *)
Definition fit (h : Header) : Prop := clean is_uri h /\ clean_in is_uri (EmptyString, h).

Lemma fit_generic name value : is_header_name name = true -> is_reserved name = false ->
  String.eqb (tolower name) "content-type" = false -> is_text value -> fit (generic name value).
Proof.
  intros Hn Hr Ht Hv. pose proof (clean_generic name value Hn Hr Hv) as Hc. split; [exact Hc|]. split; [exact Hc|].
  rewrite generic_plain by exact Hr. by apply String.eqb_neq.
Qed.

Lemma namespace_fit uri prefix : is_uri uri = true -> is_name prefix = true -> fit (NsHeader uri prefix).
Proof. intros Hu Hp. assert (Hc : clean is_uri (NsHeader uri prefix)) by (split; [exact Hu|by right]). by split. Qed.

Ltac generic_fit := apply fit_generic; [vm_compute; reflexivity|vm_compute; reflexivity|vm_compute; reflexivity|].

Lemma fit_clean l : Forall fit l -> Forall (clean is_uri) l.
Proof. intros Hl. eapply Forall_impl; [exact Hl|]. by intros h []. Qed.

Lemma namespace_clean (already_set : bool) : Forall fit (linphone_namespace already_set).
Proof.
  unfold linphone_namespace. destruct already_set; [done|]. apply Forall_cons. split; [|done]. apply namespace_fit; [apply namespace_uris|done].
Qed.

Lemma dispositions_text m : notifications_required m = true -> is_text (String.concat ", " (disposition_values m)).
Proof.
  unfold notifications_required, disposition_values.
  by destruct (positiveDeliveryNotificationRequired m), (negativeDeliveryNotificationRequired m), (displayNotificationRequired m).
Qed.

Lemma sent_reply_spec room m id contact device to date c : sendable room m id contact device to date c ->
  reply_headers m = Done (sent_reply_headers m) /\ Forall fit (sent_reply_headers m).
Proof.
  intros Hs. unfold sent_reply_headers, reply_headers.
  destruct (s_reply _ _ _ _ _ _ _ _ Hs) as [->|(Ht & a & -> & Ha)]; [by split|].
  destruct (str_empty (replyingToMessageId m)); [by split|]. cbn [pointed obind]. split; [done|].
  apply Forall_app. split; [apply namespace_clean|]. repeat (apply Forall_cons; split); [by generic_fit|by generic_fit|done].
Qed.

Lemma sent_notifications_clean room m id contact device to date c : sendable room m id contact device to date c ->
  notifications_required m = true -> Forall fit (sent_notification_headers id m).
Proof.
  intros Hs Hn. unfold sent_notification_headers. rewrite !Forall_app. split; [|split; [|split; [|split]]].
  - unfold ephemeral_headers. destruct (isEphemeral m); [|done]. apply Forall_cons. split.
    + apply namespace_fit; [apply namespace_uris|done].
    + apply Forall_cons. split; [|done]. generic_fit. apply to_dec_text.
  - apply Forall_cons. split; [apply namespace_fit; [apply namespace_uris|done]|].
    apply Forall_cons. split; [|done]. generic_fit. apply (s_id _ _ _ _ _ _ _ _ Hs).
  - destruct (s_forward _ _ _ _ _ _ _ _ Hs) as [->|Hf]; [done|]. destruct (str_empty (forwardInfo m)); [done|].
    apply Forall_cons. split; [|done]. by generic_fit.
  - by apply (sent_reply_spec room m id contact device to date c).
  - apply Forall_cons. split; [|done]. generic_fit. by apply dispositions_text.
Qed.

Lemma reaction_clean room m id contact device to date c : sendable room m id contact device to date c ->
  Forall fit (reaction_headers m).
Proof.
  intros Hs. unfold reaction_headers. destruct (s_reaction _ _ _ _ _ _ _ _ Hs) as [->|Hr]; [done|].
  destruct (str_empty (reactionToMessageId m)); [done|]. apply Forall_app. split; [apply namespace_clean|].
  apply Forall_cons. split; [|done]. by generic_fit.
Qed.

Lemma content_clean room m id contact device to date c : sendable room m id contact device to date c ->
  Forall (clean is_uri) (encoded_content_headers c m).
Proof.
  intros Hs. unfold encoded_content_headers. apply Forall_app. split.
  - destruct (str_empty (reactionToMessageId m)); [|apply Forall_cons; split; [by generic_clean|done]].
    destruct (s_disposition _ _ _ _ _ _ _ _ Hs) as [->|[Hd _]]; [done|].
    destruct (disposition_isValid _); [|done]. apply Forall_cons. split; [by generic_clean|done].
  - apply Forall_cons. split; [generic_clean; apply (proj1 (s_type _ _ _ _ _ _ _ _ Hs))|].
    apply Forall_cons. split; [|done]. generic_clean. apply to_dec_text.
Qed.

Lemma date_clean d t : gmtime t = Some d -> 0 <= tm_year d + 1900 < 10000 ->
  if refused_date (sent_date d) then cloneHeader (DateTimeHeader (sent_date d) zero_tm "Z") = Done None
  else clean is_uri (DateTimeHeader (sent_date d) zero_tm "Z").
Proof.
  intros Hg Hy. apply gmtime_spec in Hg as (_ & Hm & Hd & Hh & Hmin & Hse).
  assert (Hv : date_isValid (sent_date d) zero_tm "Z" = Done (negb (refused_date (sent_date d)))).
  { apply date_isValid_rfc3339. unfold rfc3339_date, sent_date. cbn. rewrite !andb_true_iff, !Z.leb_le. lia. }
  destruct (refused_date (sent_date d)).
  - unfold cloneHeader. cbn [node_of_header createHeader]. by rewrite Hv.
  - repeat split; cbn; try lia; [exact Hv|]. by left.
Qed.

(** The headers that come before the others: the date is there, or is not added. *)
Lemma add_first_headers room m id contact device to date c : sendable room m id contact device to date c -> forall l,
  Forall (clean is_uri) l ->
  ofold add_message_header new_message
    ([FromHeader (asStringUriOnly (without_display_name device)) (setFormalName (getDisplayName (without_display_name device)));
      ToHeader (asStringUriOnly to) (setFormalName (getDisplayName to)); DateTimeHeader (sent_date date) zero_tm "Z"] ++ l)
  = Done (mkMessage [(EmptyString, [FromHeader (asStringUriOnly (without_display_name device)) EmptyString;
                                    ToHeader (asStringUriOnly to) (getDisplayName to)]
            ++ (if refused_date (sent_date date) then [] else [DateTimeHeader (sent_date date) zero_tm "Z"]) ++ l)] [] EmptyString).
Proof.
  intros Hs l Hl. destruct (s_to_name _ _ _ _ _ _ _ _ Hs) as [Hq Hlast].
  rewrite no_display_name, (setFormalName_clean _ Hq Hlast). change (setFormalName EmptyString) with EmptyString.
  set (from := FromHeader _ _). set (to' := ToHeader _ _). set (dt := DateTimeHeader _ _ _).
  assert (Hf : clean is_uri from) by (split; [apply (s_from_uri _ _ _ _ _ _ _ _ Hs)|done]).
  assert (Ht : clean is_uri to') by (split; [apply (s_to_uri _ _ _ _ _ _ _ _ Hs)|done]).
  pose proof (date_clean date (time m) (s_date _ _ _ _ _ _ _ _ Hs) (s_year _ _ _ _ _ _ _ _ Hs)) as Hd. fold dt in Hd.
  assert (Hall : forall k, Forall (clean is_uri) k ->
    ofold add_message_header new_message (from :: to' :: k) = Done (mkMessage [(EmptyString, from :: to' :: k)] [] EmptyString)).
  { intros k Hk. rewrite add_clean_headers by (apply Forall_cons; split; [exact Hf|]; by apply Forall_cons). cbn [messageHeaders new_message].
    rewrite push_all_plain by done. done. }
  destruct (refused_date (sent_date date)); cbn [app].
  - rewrite <- (Hall l Hl). cbn [ofold]. unfold add_message_header, addMessageHeader.
    rewrite (clean_stored is_uri uri_some _ Hf). cbn [obind]. rewrite (clean_stored is_uri uri_some _ Ht). cbn [obind].
    by rewrite Hd.
  - apply (Hall (dt :: l)). by apply Forall_cons.
Qed.

Definition wrapped (cpim : Message) : Content := (setContentType Cpim_type new_content) <| mBody := asString cpim |>.

(** The identifier is set before the content is read: the content is the same. *)
Lemma content_with_id id m c : current_content m = Some c ->
  exists c', current_content (setImdnMessageId id m) = Some c' /\ mBody c' = mBody c /\ mContentType c' = mContentType c
    /\ mContentDisposition c' = mContentDisposition c.
Proof.
  unfold current_content, setImdnMessageId. cbn.
  destruct (Content_isEmpty (internalContent m)); [|intros [= <-]; by exists (internalContent m)].
  destruct (contents m) as [|c0 l]; [done|]. intros [= <-]. by eexists.
Qed.

Lemma encode_sent token room m contact device to date c :
  let id := if str_empty (imdnId m) then token else imdnId m in
  sendable room m id contact device to date c ->
  exists m', encode token room m = Done (Applied, m') /\ internalContent m' = wrapped (sent_message id device to date c m).
Proof.
  intros id Hs. unfold encode. rewrite (s_account _ _ _ _ _ _ _ _ Hs), (s_device _ _ _ _ _ _ _ _ Hs), (s_to _ _ _ _ _ _ _ _ Hs).
  cbn [pointed obind]. unfold DateTimeHeader_of_time. rewrite (s_date _ _ _ _ _ _ _ _ Hs). cbn [obind].
  fold (sent_date date). fold id.
  assert (Hn : (if notifications_required m then notification_headers id m else Done [])
               = Done (if notifications_required m then sent_notification_headers id m else [])).
  { destruct (notifications_required m); [|done]. unfold notification_headers.
    by rewrite (proj1 (sent_reply_spec _ _ _ _ _ _ _ _ Hs)). }
  rewrite Hn. cbn [obind]. rewrite (add_first_headers _ _ _ _ _ _ _ _ Hs).
  2: { apply Forall_app. split; [|apply fit_clean; by eapply reaction_clean].
       destruct (notifications_required m) eqn:E; [|done]. apply fit_clean. by eapply sent_notifications_clean. }
  cbn [obind]. set (m2 := if notifications_required m && str_empty (imdnId m) then setImdnMessageId token m else m).
  assert (Hc : exists c', current_content m2 = Some c' /\ mBody c' = mBody c /\ mContentType c' = mContentType c
                 /\ mContentDisposition c' = mContentDisposition c).
  { subst m2. pose proof (s_content _ _ _ _ _ _ _ _ Hs) as Hc. destruct (_ && _); [by apply content_with_id|]. by exists c. }
  destruct Hc as (c' & -> & Hb & Ht & Hd). cbn [pointed obind].
  assert (Hcc : encoded_content_headers c' m2 = encoded_content_headers c m).
  { unfold encoded_content_headers. rewrite Hb, Ht, Hd.
    assert (Hr : reactionToMessageId m2 = reactionToMessageId m) by (subst m2; by destruct (_ && _)). by rewrite Hr. }
  rewrite Hcc, add_clean_content_headers by (by eapply content_clean). cbn [obind].
  eexists. split; [reflexivity|]. cbn [internalContent]. unfold wrapped, sent_message, sent_headers. by rewrite Hb.
Qed.

Lemma sent_is_clean room m id contact device to date c : sendable room m id contact device to date c ->
  clean_message is_uri (sent_message id device to date c m).
Proof.
  intros Hs. unfold clean_message, sent_message. cbn [messageHeaders contentHeaders].
  unfold located. cbn [flat_map fst snd]. rewrite app_nil_r. split; [done|split; [|split]].
  - apply Forall_map. unfold sent_headers. rewrite !Forall_app. split; [|split; [|split]].
    + apply Forall_cons. split; [|apply Forall_cons; split; [|done]].
      * split; [|done]. split; [apply (s_from_uri _ _ _ _ _ _ _ _ Hs)|done].
      * split; [|done]. split; [apply (s_to_uri _ _ _ _ _ _ _ _ Hs)|]. apply (s_to_name _ _ _ _ _ _ _ _ Hs).
    + pose proof (date_clean date (time m) (s_date _ _ _ _ _ _ _ _ Hs) (s_year _ _ _ _ _ _ _ _ Hs)) as Hd.
      destruct (refused_date _); [done|]. apply Forall_cons. by split.
    + destruct (notifications_required m) eqn:E; [|done].
      eapply Forall_impl; [by eapply sent_notifications_clean|]. by intros h [].
    + eapply Forall_impl; [by eapply reaction_clean|]. by intros h [].
  - unfold encoded_content_headers. by destruct (str_empty (reactionToMessageId m)), (disposition_isValid (mContentDisposition c)).
  - assert (Hg : Forall (fun h => match h with GenericHeader _ _ _ => True | _ => False end) (encoded_content_headers c m)).
    { unfold encoded_content_headers. destruct (str_empty (reactionToMessageId m)), (disposition_isValid (mContentDisposition c)); repeat constructor. }
    pose proof (content_clean _ _ _ _ _ _ _ _ Hs) as Hc. apply Forall_and. by split.
Qed.

(** ** What is found in what was sent *)

(** The first header of a name that is found in a namespace, once headers that were
    written without a namespace are read. *)
Definition found (name ns : string) (l : list Header) : option Header :=
  header_named name (in_namespace ns (map relocate (map (pair EmptyString) l))).

Lemma found_app name ns a b :
  found name ns (a ++ b) = match found name ns a with Some h => Some h | None => found name ns b end.
Proof.
  unfold found, in_namespace, header_named. by rewrite !map_app, List.filter_app, map_app, find_app.
Qed.

Lemma found_generic name ns prefix n value l :
  str_has "." prefix = false -> is_reserved n = false ->
  found name ns (generic (prefix +:+ "." +:+ n) value :: l)
  = if String.eqb prefix ns && String.eqb n name then Some (GenericHeader n value []) else found name ns l.
Proof.
  intros Hp Hn. rewrite generic_plain by apply dotted_not_reserved. unfold found, in_namespace, header_named.
  cbn [map relocate]. change ("." +:+ n) with (String "." n). rewrite split_at_app by exact Hp.
  unfold setName. rewrite Hn. cbn [List.filter fst].
  destruct (String.eqb prefix ns); [|done]. cbn [map snd List.find getName andb].
  by destruct (String.eqb n name).
Qed.

Lemma found_plain name ns h l : (forall n v p, h <> GenericHeader n v p) ->
  found name ns (h :: l) = if String.eqb "" ns && String.eqb (getName h) name then Some h else found name ns l.
Proof.
  intros Hh. unfold found, in_namespace, header_named. cbn [map].
  assert (Hr : relocate (EmptyString, h) = (EmptyString, h)) by (destruct h; try done; by destruct (Hh name0 value parameters)).
  rewrite Hr. cbn [List.filter fst]. destruct (String.eqb "" ns); [|done]. cbn [map snd List.find andb].
  by destruct (String.eqb (getName h) name).
Qed.

Lemma found_if name ns (b : bool) x y : found name ns (if b then x else y) = if b then found name ns x else found name ns y.
Proof. by destruct b. Qed.

(** What a name and a namespace that are known find, piece by piece. *)
Ltac find_headers :=
  unfold sent_headers, sent_notification_headers, ephemeral_headers, reaction_headers, linphone_namespace, linphone_header,
    imdn_header;
  repeat first [rewrite found_app | rewrite found_if | rewrite found_generic by (vm_compute; reflexivity)
               | rewrite found_plain by done];
  cbn [getName].

(** The prefix of a namespace that is declared among what was sent. *)
Definition prefix_in (uri : string) (l : list Header) (prefix : string) : string :=
  fold_left (fun prefix h => match h with
                             | NsHeader u p => if String.eqb u uri then p else prefix
                             | _ => prefix
                             end) (in_namespace "" (map relocate (map (pair EmptyString) l))) prefix.

Lemma prefix_app uri a b prefix : prefix_in uri (a ++ b) prefix = prefix_in uri b (prefix_in uri a prefix).
Proof. unfold prefix_in, in_namespace. by rewrite !map_app, List.filter_app, map_app, fold_left_app. Qed.

Lemma prefix_generic uri ns n value l prefix : str_has "." ns = false -> str_empty ns = false ->
  prefix_in uri (generic (ns +:+ "." +:+ n) value :: l) prefix = prefix_in uri l prefix.
Proof.
  intros Hp Hn. rewrite generic_plain by apply dotted_not_reserved. unfold prefix_in, in_namespace.
  cbn [map relocate]. change ("." +:+ n) with (String "." n). rewrite split_at_app by exact Hp.
  cbn [List.filter fst]. unfold str_empty in Hn. by rewrite Hn.
Qed.

Lemma prefix_ns uri u p l prefix :
  prefix_in uri (NsHeader u p :: l) prefix = prefix_in uri l (if String.eqb u uri then p else prefix).
Proof. reflexivity. Qed.

Lemma prefix_if uri (b : bool) x y prefix :
  prefix_in uri (if b then x else y) prefix = if b then prefix_in uri x prefix else prefix_in uri y prefix.
Proof. by destruct b. Qed.

Section Found.
Context (room : Room) (m : ChatMessage) (id : string) (contact : option Address) (device to : Address) (date : tm) (c : Content).
Context (Hs : sendable room m id contact device to date c).

#[local] Notation sent := (sent_headers id device to date m).

Lemma found_reply name ns : found name ns (sent_reply_headers m) =
  if str_empty (replyingToMessageId m) then None
  else if (negb (isEphemeral m) && (String.eqb "" ns && String.eqb "NS" name)) then Some (NsHeader linphoneNamespaceTag linphoneNamespace)
  else if String.eqb linphoneNamespace ns && String.eqb linphoneReplyingToMessageIdHeader name
  then Some (GenericHeader linphoneReplyingToMessageIdHeader (replyingToMessageId m) [])
  else if String.eqb linphoneNamespace ns && String.eqb linphoneReplyingToMessageSenderHeader name
  then Some (GenericHeader linphoneReplyingToMessageSenderHeader
               (match replyingToMessageSender m with Some a => address_toString a | None => EmptyString end) [])
  else None.
Proof.
  unfold sent_reply_headers, reply_headers. destruct (s_reply _ _ _ _ _ _ _ _ Hs) as [->|(Ht & a & -> & Ha)]; [done|].
  destruct (str_empty (replyingToMessageId m)); [done|]. cbn [pointed obind]. rewrite found_app. unfold linphone_namespace.
  rewrite found_if. unfold linphone_header. rewrite !found_generic by (vm_compute; reflexivity).
  rewrite found_plain by done. cbn [getName]. change (found name ns []) with (@None Header).
  destruct (isEphemeral m); cbn [negb andb]; [done|]. by destruct (String.eqb "" ns && String.eqb "NS" name).
Qed.

Lemma found_from : found "From" "" sent = Some (FromHeader (asStringUriOnly (without_display_name device)) EmptyString).
Proof. reflexivity. Qed.

Lemma found_to : found "To" "" sent = Some (ToHeader (asStringUriOnly to) (getDisplayName to)).
Proof. reflexivity. Qed.

Ltac find_sent :=
  find_headers; rewrite ?found_reply;
  repeat match goal with |- context [found ?n ?k []] => change (found n k []) with (@None Header) end;
  cbv [linphoneNamespace imdnNamespace linphoneEphemeralHeader linphoneReplyingToMessageIdHeader
       linphoneReplyingToMessageSenderHeader linphoneReactionToMessageIdHeader imdnMessageIdHeader imdnForwardInfoHeader
       imdnDispositionNotificationHeader String.eqb Ascii.eqb Bool.eqb andb negb];
  destruct (refused_date (sent_date date)), (notifications_required m), (isEphemeral m), (str_empty (forwardInfo m)),
    (str_empty (replyingToMessageId m)), (str_empty (reactionToMessageId m)), (linphone_namespace_set m); reflexivity.

Lemma found_date : found "DateTime" "" sent
  = if refused_date (sent_date date) then None else Some (DateTimeHeader (sent_date date) zero_tm "Z").
Proof. find_sent. Qed.

Lemma found_dispositions : found imdnDispositionNotificationHeader imdnNamespace sent
  = if notifications_required m
    then Some (GenericHeader imdnDispositionNotificationHeader (String.concat ", " (disposition_values m)) []) else None.
Proof. find_sent. Qed.

Lemma found_forward : found imdnForwardInfoHeader imdnNamespace sent
  = if notifications_required m && negb (str_empty (forwardInfo m))
    then Some (GenericHeader imdnForwardInfoHeader (forwardInfo m) []) else None.
Proof. find_sent. Qed.

Lemma found_ephemeral : found linphoneEphemeralHeader linphoneNamespace sent
  = if notifications_required m && isEphemeral m
    then Some (GenericHeader linphoneEphemeralHeader (to_dec (ephemeralLifetime m)) []) else None.
Proof. find_sent. Qed.

Lemma found_reply_id : found linphoneReplyingToMessageIdHeader linphoneNamespace sent
  = if notifications_required m && negb (str_empty (replyingToMessageId m))
    then Some (GenericHeader linphoneReplyingToMessageIdHeader (replyingToMessageId m) []) else None.
Proof. find_sent. Qed.

Lemma found_reply_sender : found linphoneReplyingToMessageSenderHeader linphoneNamespace sent
  = if notifications_required m && negb (str_empty (replyingToMessageId m))
    then Some (GenericHeader linphoneReplyingToMessageSenderHeader
                 (match replyingToMessageSender m with Some a => address_toString a | None => EmptyString end) []) else None.
Proof. find_sent. Qed.

Lemma found_reaction : found linphoneReactionToMessageIdHeader linphoneNamespace sent
  = if str_empty (reactionToMessageId m) then None
    else Some (GenericHeader linphoneReactionToMessageIdHeader (reactionToMessageId m) []).
Proof. find_sent. Qed.

Lemma found_no_id : found imdnMessageIdHeader "" sent = None.
Proof. find_sent. Qed.

Lemma found_id : found imdnMessageIdHeader imdnNamespace sent
  = if notifications_required m then Some (GenericHeader imdnMessageIdHeader id []) else None.
Proof. find_sent. Qed.

Lemma prefix_reply uri prefix : prefix_in uri (sent_reply_headers m) prefix
  = if str_empty (replyingToMessageId m) || isEphemeral m then prefix
    else if String.eqb linphoneNamespaceTag uri then linphoneNamespace else prefix.
Proof.
  unfold sent_reply_headers, reply_headers. destruct (s_reply _ _ _ _ _ _ _ _ Hs) as [->|(Ht & a & -> & Ha)]; [done|].
  destruct (str_empty (replyingToMessageId m)); [done|]. cbn [pointed obind orb]. rewrite prefix_app. unfold linphone_namespace, linphone_header.
  rewrite !prefix_generic by done. rewrite prefix_if, prefix_ns. by destruct (isEphemeral m).
Qed.

Ltac find_prefix :=
  unfold sent_headers, sent_notification_headers, ephemeral_headers, reaction_headers, linphone_namespace, linphone_header,
    imdn_header, linphone_namespace_set;
  repeat first [rewrite prefix_app | rewrite prefix_if | rewrite prefix_generic by (vm_compute; reflexivity)
               | rewrite prefix_ns | rewrite prefix_reply];
  destruct (refused_date (sent_date date)), (notifications_required m), (isEphemeral m), (str_empty (forwardInfo m)),
    (str_empty (replyingToMessageId m)), (str_empty (reactionToMessageId m)); reflexivity.

Lemma prefix_imdn : prefix_in imdnNamespaceUrn sent "" = if notifications_required m then imdnNamespace else EmptyString.
Proof. find_prefix. Qed.

Lemma prefix_linphone : prefix_in linphoneNamespaceTag sent ""
  = if linphone_namespace_set m || negb (str_empty (reactionToMessageId m)) then linphoneNamespace else EmptyString.
Proof. find_prefix. Qed.

Lemma content_type_found : header_named "Content-Type" (encoded_content_headers c m)
  = Some (GenericHeader "Content-Type" (getMediaType (mContentType c)) []).
Proof.
  unfold encoded_content_headers. rewrite !generic_plain by (vm_compute; reflexivity).
  by destruct (str_empty (reactionToMessageId m)), (disposition_isValid (mContentDisposition c)).
Qed.

Lemma content_disposition_found : header_named "Content-Disposition" (encoded_content_headers c m)
  = if str_empty (reactionToMessageId m)
    then if disposition_isValid (mContentDisposition c)
         then Some (GenericHeader "Content-Disposition" (disposition_asString (mContentDisposition c)) []) else None
    else Some (GenericHeader "Content-Disposition" "Reaction" []).
Proof.
  unfold encoded_content_headers. rewrite !generic_plain by (vm_compute; reflexivity).
  by destruct (str_empty (reactionToMessageId m)), (disposition_isValid (mContentDisposition c)).
Qed.
End Found.

(** ** What is received *)

(** A message [m0] once it has read what was sent of [m], before its content and its
    sender are replaced.  The notifications, the identifier and what refers to
    other messages only travel with a message that asks for notifications; a
    reaction asks for none. *)
Definition received (id : string) (date : tm) (m m0 : ChatMessage) : ChatMessage :=
  let notified := notifications_required m in
  let reply := notified && negb (str_empty (replyingToMessageId m)) in
  let reaction := negb (str_empty (reactionToMessageId m)) in
  mkChatMessage _ (fromAddress m0) (toAddress m0) (authenticatedFromAddress m0) (senderAuthenticationEnabled m0)
    (if refused_date (sent_date date) then time m0 else time m)
    (if notified then id else imdnId m0)
    (if notified && negb (str_empty (forwardInfo m)) then forwardInfo m else forwardInfo m0)
    (if reply then replyingToMessageId m else replyingToMessageId m0)
    (if reply then (fun a => Address_create (address_toString a)) <$> replyingToMessageSender m else replyingToMessageSender m0)
    (if reaction then reactionToMessageId m else reactionToMessageId m0)
    (if notified && isEphemeral m then true else isEphemeral m0)
    (if notified && isEphemeral m then ephemeralLifetime m else ephemeralLifetime m0)
    (positiveDeliveryNotificationRequired m && negb reaction)
    (negativeDeliveryNotificationRequired m && negb reaction)
    (displayNotificationRequired m && negb reaction)
    (internalContent m0)
    (if notified then map (fun c => c <| relatedChatMessageId := id |>) (contents m0) else contents m0).

Lemma dispositions_read m0 m : notifications_required m = true ->
  fold_left read_disposition (split_text (String.concat ", " (disposition_values m)) ", ")
    (m0 <| positiveDeliveryNotificationRequired := false |> <| negativeDeliveryNotificationRequired := false |>
        <| displayNotificationRequired := false |>)
  = m0 <| positiveDeliveryNotificationRequired := positiveDeliveryNotificationRequired m |>
       <| negativeDeliveryNotificationRequired := negativeDeliveryNotificationRequired m |>
       <| displayNotificationRequired := displayNotificationRequired m |>.
Proof.
  unfold notifications_required, disposition_values. intros Hn.
  destruct (positiveDeliveryNotificationRequired m), (negativeDeliveryNotificationRequired m), (displayNotificationRequired m);
    try discriminate Hn; (rewrite joined_split; [reflexivity|done|repeat constructor]).
Qed.

Lemma found_sent name ns id device to date c m :
  getMessageHeader name ns (refile (sent_message id device to date c m)) = found name ns (sent_headers id device to date m).
Proof.
  rewrite found_in_refiled. unfold sent_message, located, found. cbn [messageHeaders flat_map fst snd]. by rewrite app_nil_r.
Qed.

Lemma declared_sent uri id device to date c m :
  declared_prefix uri (getMessageHeaders "" (refile (sent_message id device to date c m)))
  = prefix_in uri (sent_headers id device to date m) "".
Proof.
  unfold declared_prefix, getMessageHeaders, prefix_in.
  change (messageHeaders (refile ?M)) with (push_all (map relocate (located (messageHeaders M))) []).
  pose proof (headers_at_push_all "" (map relocate (located (messageHeaders (sent_message id device to date c m)))) [] (SSorted_nil _)) as E.
  cbn [headers_at List.find fmap option_fmap option_map default app] in E. rewrite E.
  unfold sent_message, located. cbn [messageHeaders flat_map fst snd]. by rewrite app_nil_r.
Qed.

Section Receiving.
Context (room : Room) (m : ChatMessage) (id : string) (contact : option Address) (device to : Address) (date : tm) (c : Content).
Context (Hs : sendable room m id contact device to date c).

#[local] Notation M := (refile (sent_message id device to date c m)).

(** What the [imdn] namespace gives, the flags being reset. *)
Lemma read_imdn_sent m0 :
  read_imdn (if notifications_required m then imdnNamespace else EmptyString) M
    (m0 <| positiveDeliveryNotificationRequired := false |> <| negativeDeliveryNotificationRequired := false |>
        <| displayNotificationRequired := false |>)
  = m0 <| positiveDeliveryNotificationRequired := positiveDeliveryNotificationRequired m |>
       <| negativeDeliveryNotificationRequired := negativeDeliveryNotificationRequired m |>
       <| displayNotificationRequired := displayNotificationRequired m |>
       <| forwardInfo := if notifications_required m && negb (str_empty (forwardInfo m)) then forwardInfo m else forwardInfo m0 |>.
Proof.
  unfold read_imdn. rewrite !found_sent. destruct (notifications_required m) eqn:Hn.
  - change (str_empty imdnNamespace) with false. cbv iota.
    rewrite (found_dispositions room m id contact device to date c Hs), (found_forward room m id contact device to date c Hs), Hn.
    cbn [getValue andb]. rewrite dispositions_read by exact Hn. by destruct m0, (str_empty (forwardInfo m)).
  - unfold notifications_required in Hn. apply orb_false_iff in Hn as [[Hpos Hneg]%orb_false_iff Hdisp].
    rewrite Hpos, Hneg, Hdisp. by destruct m0.
Qed.

(** What that of linphone gives. *)
Lemma read_linphone_sent m0 :
  let reply := notifications_required m && negb (str_empty (replyingToMessageId m)) in
  let m1 :=
    m0 <| isEphemeral := if notifications_required m && isEphemeral m then true else isEphemeral m0 |>
       <| ephemeralLifetime := if notifications_required m && isEphemeral m then ephemeralLifetime m else ephemeralLifetime m0 |>
       <| replyingToMessageId := if reply then replyingToMessageId m else replyingToMessageId m0 |>
       <| replyingToMessageSender := if reply then (fun a => Address_create (address_toString a)) <$> replyingToMessageSender m
                                     else replyingToMessageSender m0 |> in
  read_linphone (if linphone_namespace_set m || negb (str_empty (reactionToMessageId m)) then linphoneNamespace else EmptyString)
    (header_named "Content-Disposition" (encoded_content_headers c m)) M m0
  = if str_empty (reactionToMessageId m) then m1 else setReactionToMessageId (reactionToMessageId m) m1.
Proof.
  cbv zeta. unfold read_linphone. rewrite !found_sent.
  destruct (linphone_namespace_set m || negb (str_empty (reactionToMessageId m))) eqn:Hset.
  - change (str_empty linphoneNamespace) with false. cbv iota.
    rewrite (found_ephemeral room m id contact device to date c Hs), (found_reply_id room m id contact device to date c Hs),
      (found_reply_sender room m id contact device to date c Hs), (found_reaction room m id contact device to date c Hs),
      (content_disposition_found m c).
    destruct (notifications_required m); cbn [andb].
    + assert (Hsender : str_empty (replyingToMessageId m) = false -> exists a, replyingToMessageSender m = Some a).
      { intros He. destruct (s_reply _ _ _ _ _ _ _ _ Hs) as [E|(_ & a & E & _)]; [by rewrite E in He|by exists a]. }
      pose proof (long_read (ephemeralLifetime m) (s_lifetime _ _ _ _ _ _ _ _ Hs)) as Hlong.
      destruct (isEphemeral m), (str_empty (replyingToMessageId m)), (str_empty (reactionToMessageId m)); cbn [negb getValue];
        rewrite ?Hlong; try (destruct (Hsender eq_refl) as [a ->]); destruct m0; try reflexivity;
        by destruct (disposition_isValid (mContentDisposition c)).
    + destruct (str_empty (reactionToMessageId m)); destruct m0; reflexivity.
  - apply orb_false_iff in Hset as [Hset Hr]. apply negb_false_iff in Hr. rewrite Hr. cbn [str_empty String.eqb].
    unfold linphone_namespace_set in Hset. destruct (notifications_required m); [|by destruct m0].
    cbn [andb] in Hset |- *. apply orb_false_iff in Hset as [He Hrep]. rewrite He, Hrep. by destruct m0.
Qed.

(** The headers of what was sent, read by a receiver. *)
Lemma read_headers_sent m0 :
  let from := FromHeader (asStringUriOnly (without_display_name device)) EmptyString in
  read_headers from (header_named "Content-Disposition" (encoded_content_headers c m)) M m0
  = (received id date m m0,
     negb (senderAuthenticationEnabled m0) || address_equal (Address_create (getValue from)) (authenticatedFromAddress m0)).
Proof.
  cbv zeta. unfold read_headers. rewrite !declared_sent, (prefix_imdn room m id contact device to date c Hs),
    (prefix_linphone room m id contact device to date c Hs), found_sent, (found_date room m id contact device to date c Hs).
  set (m1 := match (if refused_date (sent_date date) then None else _) with Some _ => _ | None => _ end).
  assert (E1 : m1 = (m0 <| time := if refused_date (sent_date date) then time m0 else time m |>)
      <| positiveDeliveryNotificationRequired := false |> <| negativeDeliveryNotificationRequired := false |>
      <| displayNotificationRequired := false |>).
  { subst m1. destruct (refused_date (sent_date date)); [by destruct m0|].
    rewrite (sent_time _ _ (s_date _ _ _ _ _ _ _ _ Hs)). by destruct m0. }
  rewrite E1, read_imdn_sent, read_linphone_sent. unfold message_id_header.
  rewrite !found_sent, (found_no_id room m id contact device to date c Hs).
  assert (E2 : (if str_empty (if notifications_required m then imdnNamespace else EmptyString) then None
                else found imdnMessageIdHeader (if notifications_required m then imdnNamespace else EmptyString)
                       (sent_headers id device to date m))
               = if notifications_required m then Some (GenericHeader imdnMessageIdHeader id []) else None).
  { pose proof (found_id room m id contact device to date c Hs) as E. destruct (notifications_required m); [exact E|done]. }
  rewrite E2. unfold received, setImdnMessageId, setReactionToMessageId. destruct m0. cbn.
  destruct (str_empty (reactionToMessageId m)), (notifications_required m); cbn; rewrite ?andb_true_r, ?andb_false_r; reflexivity.
Qed.

(** The content that is received: the body, the type and the disposition that were
    sent, but for a reaction. *)
Definition received_content (c0 : Content) : Content :=
  mkContent (mBody c) 0 (mContentType c)
    (if str_empty (reactionToMessageId m)
     then if disposition_isValid (mContentDisposition c) then mContentDisposition c else no_disposition
     else mkDisposition "Reaction" "")
    (mContentEncoding c0) EmptyString.

Lemma decoded_sent c0 :
  decoded_content (GenericHeader "Content-Type" (getMediaType (mContentType c)) [])
    (header_named "Content-Disposition" (encoded_content_headers c m)) M c0 = received_content c0.
Proof.
  destruct (s_type _ _ _ _ _ _ _ _ Hs) as [_ Ht].
  rewrite content_disposition_found. unfold decoded_content, received_content, setContentType.
  cbn [getValue new_content mContentType]. rewrite type_read, type_assigned by exact Ht.
  destruct (str_empty (reactionToMessageId m)); [|done].
  destruct (disposition_isValid (mContentDisposition c)) eqn:Hv; [|done].
  destruct (s_disposition _ _ _ _ _ _ _ _ Hs) as [Hd|[_ Hd]]; [congruence|].
  cbn [getValue]. by rewrite disposition_read.
Qed.
End Receiving.

(** The same, with the content and the sender. *)
Lemma decode_sent token room m contact device to date c m0 c0 code :
  let id := if str_empty (imdnId m) then token else imdnId m in
  let from := Address_create (contact_value (asStringUriOnly (without_display_name device)) EmptyString) in
  sendable room m id contact device to date c ->
  current_content m0 = Some c0 -> same_type (mContentType c0) Cpim_type = true ->
  mBody c0 = asString (sent_message id device to date c m) ->
  decode code m0 = Done (
    let m1 := received id date m m0 in
    if senderAuthenticationEnabled m0 && negb (address_equal from (authenticatedFromAddress m0)) then (Error, 488, m1)
    else
      let m1 := m1 <| internalContent := received_content m c c0 |> in
      (Applied, code, if address_isValid from then m1 <| fromAddress := Some from |> else m1)).
Proof.
  intros id from Hs Hc0 Ht Hb. unfold decode. rewrite Hc0, Ht. cbn [negb]. rewrite Hb.
  rewrite (parse_clean is_uri uri_some _ message_read (sent_is_clean room m id contact device to date c Hs)). cbn [obind].
  rewrite !found_sent, found_from, found_to.
  assert (Hct : forall n, getContentHeader n (refile (sent_message id device to date c m))
                          = header_named n (encoded_content_headers c m)) by reflexivity.
  rewrite !Hct, (content_type_found m c), (read_headers_sent room m id contact device to date c Hs).
  rewrite (decoded_sent room m id contact device to date c Hs). cbn [getValue]. fold from.
  destruct (senderAuthenticationEnabled m0), (address_equal from (authenticatedFromAddress m0)), (address_isValid from);
    cbn [negb orb andb]; reflexivity.
Qed.

(** C16. A message is received as it was sent.  What [encode] makes of a message whose
    parts are in the grammar is decoded by any receiver: its content, with the very
    type, subtype, parameters and disposition that were sent (a reaction has the
    disposition of reactions), and its sender; its time, when its date is one
    [isValid] accepts; whether it is a reaction; and, when it asks for
    notifications, which ones, unless it is a reaction, its identifier, what it
    forwards or replies to and how long it lasts.  When it asks for none these are
    lost: the receiver keeps what it had.  A sender who is not the one that was
    authenticated is refused with 488. *)
Theorem received_as_sent token room m contact device to date c m0 c0 code :
  let id := if str_empty (imdnId m) then token else imdnId m in
  let from := Address_create (contact_value (asStringUriOnly (without_display_name device)) EmptyString) in
  sendable room m id contact device to date c ->
  current_content m0 = Some c0 -> same_type (mContentType c0) Cpim_type = true ->
  exists m', encode token room m = Done (Applied, m') /\
    (mBody c0 = mBody (internalContent m') ->
     decode code m0 = Done (
       let m1 := received id date m m0 in
       if senderAuthenticationEnabled m0 && negb (address_equal from (authenticatedFromAddress m0)) then (Error, 488, m1)
       else
         let m1 := m1 <| internalContent := received_content m c c0 |> in
         (Applied, code, if address_isValid from then m1 <| fromAddress := Some from |> else m1))).
Proof.
  intros id from Hs Hc0 Ht. destruct (encode_sent token room m contact device to date c Hs) as (m' & He & Hi).
  exists m'. split; [exact He|]. rewrite Hi. intros Hb. by apply (decode_sent token room m contact device to).
Qed.
End Sending.

(** ** A message that is sent and received *)

Definition drop_first (s : string) : string := match s with String _ s => s | EmptyString => s end.

Definition example_splitting : Splitting := {|
  split := ref_split;
  split_text := fun s _ => match ref_split s "," with x :: l => x :: map drop_first l | [] => [] end;
|}.

(** Addresses are texts without display names. *)
Definition example_platform : CpimPlatform := {|
  asStringUriOnly := fun a => a; address_toString := fun a => a; getDisplayName := fun _ => EmptyString;
  without_display_name := fun a => a; long_of_text := strtoll10; utf8ToLocale := fun s => s; localeToUtf8 := fun s => s;
  multipartToContentList := fun c => [c];
|}.

#[export] Existing Instances example_splitting example_platform ref_grammar.

Lemma example_platform_spec : PlatformSpec.
Proof.
  split.
  - done.
  - intros l Hne Hl. cbn [split_text example_splitting].
    assert (H : forall x l, str_has "," x = false -> Forall (fun s => str_has "," s = false) l ->
      ref_split (String.concat ", " (x :: l)) "," = x :: map (String " ") l).
    { clear. intros x l Hx Hl. revert x Hx. induction Hl as [|y l Hy Hl IH]; intros x Hx; [by apply split_none|].
      change (String.concat ", " (x :: y :: l)) with (x +:+ String "," (String " " (String.concat ", " (y :: l)))).
      rewrite split_cons by exact Hx. cbn [map]. f_equal.
      rewrite <- (IH (String " " y)) by exact Hy. by destruct l. }
    destruct Hl as [|x l Hx Hl]; [done|]. rewrite H by done. f_equal. rewrite map_map. apply map_id.
  - intros z Hz. rewrite <- (str_app_nil (to_dec z)). apply strtoll10_dec; [lia|done].
  - done.
Qed.

Definition example_content : Content :=
  new_content <| mBody := "hello" |> <| mContentType := ContentType_of_text "Text/plain;charset=UTF-8" |>
              <| mContentDisposition := ContentDisposition_of_text "recipient-list-history; handling=optional" |>.

Definition empty_chat_message : ChatMessage :=
  mkChatMessage _ None None carol false 0 "" "" "" None "" false 0 false false false new_content [].

Definition example_chat_message : ChatMessage :=
  mkChatMessage _ (Some alice) (Some bob) carol false 976686000 "" "forwarded"
    "abcd" (Some bob) "" true 86400 true true true new_content [example_content].

(** The device of [alice]. *)
Definition example_device : Address := "sip:alice@example.org;gr=1"%string.

Definition example_room : Room := mkRoom _ (Some (Some example_device)) false None.

(** The 13th of December 2000, at 05:40. *)
Definition example_date : tm := mkTm 100 11 13 5 40 0.

Lemma example_type : is_text (getMediaType (mContentType example_content)) /\ plain_type (mContentType example_content).
Proof.
  split; [split; vm_compute; done|]. split; try (vm_compute; intuition done).
  - by repeat constructor.
  - vm_compute. constructor; [by intros ?%elem_of_nil|constructor].
Qed.

Lemma example_disposition : plain_disposition (mContentDisposition example_content).
Proof. vm_compute. intuition done. Qed.

Lemma example_sendable :
  sendable example_room example_chat_message "token" (Some example_device) example_device bob example_date example_content.
Proof.
  constructor; try apply example_type; try (right; split; [split; vm_compute; done|apply example_disposition]);
    try reflexivity; try (vm_compute; done); try (by right; vm_compute); try (split; vm_compute; done).
  all: try (right; split; [split; vm_compute; done|]; by eexists).
  all: vm_compute; intuition discriminate.
Qed.

Lemma received_as_sent_witness :
  match encode "token" example_room example_chat_message with
  | Done (Applied, m') =>
      exists m1, decode 0 (empty_chat_message <| internalContent := internalContent m' |>) = Done (Applied, 0, m1)
        /\ time m1 = 976686000 /\ ephemeralLifetime m1 = 86400 /\ imdnId m1 = "token" /\ replyingToMessageId m1 = "abcd"
        /\ mBody (internalContent m1) = "hello" /\ ct_params (mContentType (internalContent m1)) = [("charset", "UTF-8")]
        /\ disposition_parameter (mContentDisposition (internalContent m1)) = "handling=optional"
  | _ => False
  end.
Proof.
  pose proof example_platform_spec as Hspec.
  set (c0 := wrapped (sent_message "token" example_device bob example_date example_content example_chat_message)).
  destruct (received_as_sent "token" example_room example_chat_message _ _ _ example_date _
    (empty_chat_message <| internalContent := c0 |>) c0 0 example_sendable) as (m' & He & Hr);
    [vm_compute; reflexivity|vm_compute; reflexivity|].
  assert (Hi : match encode "token" example_room example_chat_message with Done (_, x) => internalContent x = c0 | _ => False end)
    by (vm_compute; reflexivity).
  rewrite He in Hi |- *. specialize (Hr (f_equal mBody (eq_sym Hi))). rewrite Hi.
  eexists. split; [exact Hr|]. clear. repeat split; vm_compute; reflexivity.
Defined.
